(* ===== verification/_CoqProject ===== *)
-Q . S2P
Prelude.v
Shared.v
Handles.v
Ring.v
Pipe.v
Phys.v
Thread.v
Sched.v
Futex.v
Port.v
Registry.v
Channel.v
Bytes.v
Crc.v
Ohlk.v
Runner.v
PageTable.v
PtClone.v
RamFs.v
FileAgent.v
Libc.v
Std.v
Osh.v
Shell.v
Mem.v
Slab.v
Asid.v
Vmar.v
Vmo.v
Fdt.v
FdtTree.v
KVfs.v
UserCopy.v
PtShare.v
Process.v
ProcCalls.v
ProcFd.v
Rootfs.v
Launch.v
LaunchSpec.v
LaunchArgs.v
LaunchRun.v
LaunchTop.v
KernelView.v
LaunchFail.v
LaunchBuilt.v
Linker.v
MemCalls.v
MapShare.v
VmoCalls.v
IpcCalls.v
IpcTop.v
IpcNames.v
Spawn.v
SpawnTop.v
SpawnLeave.v
Syscalls.v
SyscallsTop.v
Procmgr.v
