(* ===== verification/Prelude.v ===== *)
(** * CapsuleOS: a Rocq model of the HNX microkernel and its companions

    CapsuleOS is an AArch64 microkernel with capabilities (kernel/), the C
    library, runtime and standard library its programs are linked with
    (libraries/), its services and programs (userspace/), and the tools that
    produce its executables and its boot image (tools/).  This library models
    the logic of these parts as executable definitions and states what makes
    them correct.  This file holds the development's overview and what the
    other files share.

    ** The program and its parts

    A program runs in a _process_: a slot of a static table with an address
    space, a handle table, a descriptor table and signals.  It asks the kernel
    for services with [svc #0]; the trap saves its registers, the dispatcher
    chooses a handler by number, and the handler works in the handle table of
    the calling thread.  Handles name memory objects (VMOs), regions (VMARs),
    channels, ports, threads and processes, each with rights.  A channel
    carries bytes and handles from one thread's buffers to another's, and a
    registry finds channels by name: the file service (fileagent) is found
    this way.  Executables are OHLINK files; the boot image packs them with
    other files, and launching a program maps a file's segments, a stack and
    the arguments into a new address space.

    ** Layout: which file models what

    Shared ground
    - Prelude: machine integers, results ([result], [exec]), list and table
      lemmas, tactics.
    - Shared: status codes, object types, rights (kernel/shared/src,
      object/rights.rs).
    - Bytes: little-endian fields, strings, UTF-8, as the sources use them.
    - Ring: the circular buffers of pipes and ports.
    - Mem: bytes of the modelled RAM.

    Memory (kernel/src/arch/aarch64, kernel/src/memory)
    - Phys: page allocator and page cache (phys.rs).
    - Slab: kernel heap (slab.rs).
    - Asid: address-space identifiers (asid.rs).
    - PageTable, PtClone: translation tables, the walk, cloning of subtrees
      (page_table.rs, mmu.rs).
    - Vmar, Vmo: regions and memory objects (memory/vmar.rs, vmo.rs).
    - UserCopy: copies across the user boundary (handlers/ipc.rs,
      syscall/validation.rs).
    - PtShare: which tables a tree leads to, and trees that share tables, as
      those of all processes share the kernel's.

    Threads and communication (kernel/src/task, sync, ipc, object, vfs)
    - Thread, Sched: threads, register contexts, the scheduler.
    - Futex, Port, Channel, Registry: waiting and messages.
    - Handles: capability tables.
    - Pipe: pipes; KVfs: kernel file table and the console line.

    Processes (task/process.rs, task/signals.rs, handlers/process.rs)
    - Process, ProcCalls, ProcFd: the table, signals, wait4, process
      management, descriptors.
    - Launch with LaunchSpec, LaunchArgs, LaunchRun, LaunchTop, LaunchFail,
      LaunchBuilt: starting a program.
    - KernelView: what a launched program has in common with the kernel and
      with its neighbours in the table.
    - Spawn with SpawnTop, SpawnLeave: spawn, execve, exit, threads,
      load_binary, the service launcher (loader.rs).
    - Rootfs: the boot image (rootfs.rs and the packer, tools/xtask/pack.rs).
    - Fdt, FdtTree: the device tree (fdt.rs).

    The system-call surface
    - MemCalls with MapShare, VmoCalls: calls on memory objects and mappings
      (handlers/memory.rs).
    - IpcCalls with IpcTop, IpcNames: calls on channels and handles
      (handlers/ipc.rs).
    - Syscalls, SyscallsTop: wrappers of libcapsule and libc, trap,
      dispatcher (syscall/mod.rs, capability, lifecycle, trap.rs).

    Companions
    - Crc, Ohlk, Linker, Runner: the OHLINK format, its checksum, builder and
      parser, the linker from ELF files, and the emulator that runs OHLINK
      files (tools/ohlink-toolchain/crates/ohlink-format, ohlink-linker,
      ohlink-runner).
    - RamFs, FileAgent: the file service (userspace/services/fileagent).
    - Libc: the C library's file calls against the service (libraries/libc).
    - Std: vectors, strings, arguments of the standard library.
    - Osh, Shell: the shell: its parser, builtins, pipelines and scripts
      (userspace/programs/osh).
    - Procmgr: the process manager over the calls on processes
      (userspace/services/procmgr).

    State is one record per component ([Phys], [Scheduler], [Process],
    [Kern], [MemState], [IpcWorld], [World], ...), data types are inductive
    types with the constructors of the source, and each operation is one
    definition with the name it has in the source.  Larger worlds contain the
    smaller ones: [Kern] has the allocator, the pipes and the processes;
    [MemState] adds the caller's handle table; [IpcWorld] the channels, the
    scheduler and the registry; [World] what a launch touches.  Where two
    components meet through a narrow surface the surface is a class:
    [VfsWorld] between the C library and the file service, [Kernel] between
    the dispatcher and the handlers, [Environment] under the shell.

    ** Conventions

    Integers are [Z] and wrap where the compiled code wraps (see below): the
    kernel is built without overflow checks.  [None] of [option] is a panic
    or the use of a dangling pointer, [result] is Rust's [Result], [exec] a
    run with fuel that can be exhausted.  One processor runs and an operation
    runs alone, as the spin locks and masked interrupts have it; a call that
    gives up the processor is split at [schedule] into what runs before
    ([..._enter]) and what runs when the thread is switched back in
    ([..._leave]), and other operations may come between.  Operations that
    run over shared objects (channels, tables, frames of RAM) address them by
    index or address, so that aliasing is that of the program.  RAM is a
    finite map from addresses of 8-byte words to words; translation tables,
    heap blocks, user memory and file data all lie in it.

    ** What the theorems show

    - Isolation and capabilities.  No sequence of operations on a handle
      table raises rights ([Handles.authority_confined]); pages and heap
      blocks are handed out once and never overlap ([Phys], [Slab]); a launch
      leaves the memory of others alone ([LaunchTop]) and their tables apart
      behind user addresses ([KernelView.launched_side_by_side]); the search
      of the device tree ends inside its block ([FdtTree]).
    - Functional correctness end to end.  Mapping makes the walk find
      exactly the mapped frame and keeps every other address
      ([PageTable.map_va_spec]); launching a file puts its bytes, its stack and
      its arguments where the program looks for them ([LaunchTop],
      [SpawnTop], [SyscallsTop.library_spawn_starts]), from the ELF file that
      the linker is given on ([Linker]); a
      message leaves one process's memory and arrives in another's
      ([IpcTop]); a lookup joins client and server ([IpcNames]); an object
      mapped twice is one object ([MapShare]); the shell runs the commands
      that were typed ([Shell]).
    - Refinement and equivalence.  The pipe table implements FIFOs, the
      linked waiters of a futex implement a queue, the table-driven checksum
      is CRC-32, the shell's index loops are a one-line grammar, the search
      of the device tree is a search of the tree, a library wrapper is the
      kernel's handler (all but [exit] and [service_spawn]).
    - Invariants.  The scheduler's queues and states agree, every descriptor
      counts in its pipe, process identifiers are handed out once, the tree
      of files stays a tree.
    - Round trips.  Copies out of and into user memory, memory objects
      (directly, by system call and through the library), files through the
      C library and the service, OHLINK files, the boot image.
    - Progress.  The walks of the file tree end; a waiting thread runs within
      a bounded number of ticks; the first-fit search of a region ends with
      the first gap.
    - Error paths and defects.  What a failed launch leaves behind, what of
      the kernel a pointer reads ([KernelView.launched_reads_kernel]), what
      exec leaves of its caller, what happens to numbers without a handler:
      the behaviour is that of the code, also where the code does not do what
      its comments say.

    ** Fuel

    Loops that are not structural take fuel.  Where the definition chooses
    it, a theorem says it is enough: the copies of UserCopy, Vmo and MemCalls
    (chunks end at page boundaries of one side or of both: one or two rounds
    per page and a constant), the range check of UserCopy (a page per round),
    the gap search of Vmar (a round per interval), the search of Fdt (a word
    per round), the allocation of Slab (a round after a fresh page), the
    scan for a free page of Phys (a round per page), the waiter lists of
    Futex (eight cells), the sibling walks of RamFs (a round
    per node of the well-formed tree).  Where the caller chooses it, the
    claims hold for every amount: the service loop of FileAgent, the emulator
    of Runner, the wait of [pause], the loop of Procmgr.  Loops that need not end in the program
    are claimed not to ([RamFs.slot_reuse_hangs], [ProcCalls.pause_timeout]).

    ** Not modelled

    Assembly (entry, vectors, context switch), start-up maps and cache and
    TLB maintenance of mmu.rs and its mapping functions that nothing calls,
    the boot sequence (lib.rs) and the boot loader, device registers (gic,
    timer, uart), logging: they are hardware effects or straight-line calls
    of modelled parts.  [sys_service_spawn] reads a Rust structure whose
    layout is the compiler's.  The end of a thread that faults.  The services
    and utilities of userspace other than fileagent, the process manager and
    the shell are sequences of the calls modelled here.  The drivers of
    third-party linkers and compilers and the build tool run other
    programs. *)
From Stdlib Require Import ZArith Lia.
From stdpp Require Import base tactics option gmap list.

Declare Scope caps_scope.
Delimit Scope caps_scope with caps.

(** ** Machine integers

    The kernel and its companions are compiled with wrap-around arithmetic
    (kernel/Cargo.toml sets [overflow-checks = false]; the release profile
    is the one that is built), so every [u8]..[u64]/[usize] operation of the
    source that can overflow is written with one of these. *)
Definition u8w (z : Z) : Z := z mod 2 ^ 8.
Definition u16w (z : Z) : Z := z mod 2 ^ 16.
Definition u32w (z : Z) : Z := z mod 2 ^ 32.
Definition u64w (z : Z) : Z := z mod 2 ^ 64.

(** Signed reading of a 32-bit or 64-bit pattern ([as i32], [as i64]). *)
Definition i32w (z : Z) : Z := (z + 2 ^ 31) mod 2 ^ 32 - 2 ^ 31.
Definition i64w (z : Z) : Z := (z + 2 ^ 63) mod 2 ^ 64 - 2 ^ 63.

Lemma u64w_small z : (0 <= z < 2 ^ 64)%Z -> u64w z = z.
Proof. apply Z.mod_small. Qed.
Lemma u32w_small z : (0 <= z < 2 ^ 32)%Z -> u32w z = z.
Proof. apply Z.mod_small. Qed.
Lemma u64w_range z : (0 <= u64w z < 2 ^ 64)%Z.
Proof. apply Z.mod_pos_bound. lia. Qed.
Lemma u32w_range z : (0 <= u32w z < 2 ^ 32)%Z.
Proof. apply Z.mod_pos_bound. lia. Qed.

(** Clearing the low [k] bits of a 64-bit word rounds down. *)
Lemma mask_down k a :
  (0 <= k <= 64)%Z -> (0 <= a < 2 ^ 64)%Z -> Z.land a (Z.shiftl (Z.ones (64 - k)) k) = (2 ^ k * (a / 2 ^ k))%Z.
Proof.
  intros Hk Ha. assert (H2k : (0 < 2 ^ k)%Z) by (apply Z.pow_pos_nonneg; lia).
  transitivity (Z.shiftl (Z.land (Z.shiftr a k) (Z.ones (64 - k))) k).
  - apply Z.bits_inj'. intros n Hn. rewrite Z.land_spec, !Z.shiftl_spec by done.
    destruct (Z.ltb_spec n k).
    + rewrite (Z.testbit_neg_r (Z.ones _)), (Z.testbit_neg_r _ (n - k)) by lia.
      apply andb_false_r.
    + rewrite Z.land_spec, Z.shiftr_spec by lia. do 2 f_equal. lia.
  - rewrite Z.land_ones, Z.shiftr_div_pow2, Z.shiftl_mul_pow2 by lia.
    rewrite Z.mod_small; [lia|]. split; [apply Z.div_pos; lia|].
    apply Z.div_lt_upper_bound; [lia|]. rewrite <- Z.pow_add_r by lia. replace (k + (64 - k))%Z with 64%Z by lia. apply Ha.
Qed.

(** [a & !4095]. *)
Lemma page_mask a :
  (0 <= a < 2 ^ 64)%Z -> Z.land a (Z.lxor 4095 (2 ^ 64 - 1)) = (4096 * (a / 4096))%Z.
Proof. exact (mask_down 12 a ltac:(lia)). Qed.

Lemma land_bit x n : (0 <= n)%Z -> Z.land x (2 ^ n) = if Z.testbit x n then (2 ^ n)%Z else 0%Z.
Proof.
  intros Hn. apply Z.bits_inj'. intros k Hk. rewrite Z.land_spec, Z.pow2_bits_eqb by lia.
  destruct (Z.eqb_spec n k) as [->|Hne].
  - destruct (Z.testbit x k) eqn:E; [by rewrite Z.pow2_bits_eqb, Z.eqb_refl by lia|by rewrite Z.bits_0].
  - rewrite andb_false_r. destruct (Z.testbit x n); [|by rewrite Z.bits_0].
    symmetry. rewrite Z.pow2_bits_eqb by lia. by apply Z.eqb_neq.
Qed.

Lemma land_le_r x m : (0 <= m)%Z -> (0 <= Z.land x m <= m)%Z.
Proof.
  intros Hm. split; [apply Z.land_nonneg; lia|].
  rewrite <- (Z.lor_ldiff_and m x) at 2. rewrite (Z.land_comm x m).
  assert (H0 : Z.land (Z.ldiff m x) (Z.land m x) = 0%Z).
  { apply Z.bits_inj'. intros n Hn. rewrite !Z.land_spec, Z.ldiff_spec, Z.bits_0.
    by destruct (Z.testbit x n), (Z.testbit m n). }
  rewrite <- Z.lxor_lor, <- Z.add_nocarry_lxor by done.
  pose proof (proj2 (Z.ldiff_nonneg m x) ltac:(lia)). lia.
Qed.

(** ** Slot arrays

    The kernel keeps almost every table as a fixed-size [[Option<T>; N]]
    that is scanned from index 0.  A table is a [list (option A)]; the live
    entries, in slot order, are its abstraction. *)
Section slots.
Context {A : Type}.
Implicit Types (l : list (option A)) (x : A) (i : nat).

(** First index whose slot satisfies [p]. *)
Fixpoint find_index (p : option A -> bool) l : option nat :=
  match l with
  | [] => None
  | s :: l' => if p s then Some 0 else S <$> find_index p l'
  end.

Definition is_free (s : option A) : bool :=
  match s with None => true | Some _ => false end.
Definition is_live (s : option A) : bool := negb (is_free s).

(** [for slot in slots { if slot.is_none() { .. } }]. *)
Definition first_free l : option nat := find_index is_free l.

(** First occupied slot whose content satisfies [q]. *)
Definition find_slot (q : A -> bool) l : option nat :=
  find_index (fun s => match s with Some x => q x | None => false end) l.

(** The occupied slots, in order. *)
Definition live l : list A := omap id l.

Lemma find_index_Some p l i :
  find_index p l = Some i <->
  (exists s, l !! i = Some s /\ p s = true) /\
  (forall j s, j < i -> l !! j = Some s -> p s = false).
Proof.
  revert i. induction l as [|s l IH]; intros i; simpl.
  { split; [done|]. intros [(s & Hs & _) _]. by rewrite lookup_nil in Hs. }
  destruct (p s) eqn:Hp.
  - split.
    + intros [= <-]. split; [by exists s|]. intros; lia.
    + intros [_ Hlt]. destruct i as [|i]; [done|].
      specialize (Hlt 0 s ltac:(lia) eq_refl). congruence.
  - destruct i as [|i].
    + split.
      * intros H. by destruct (find_index p l).
      * intros [(s' & [= <-] & ?) _]. congruence.
    + rewrite fmap_Some. split.
      * intros (i' & Hi & [= <-]). apply IH in Hi as [(s' & ? & ?) Hlt].
        split; [by exists s'|]. intros [|j] s'' Hj; simpl; [by intros [= <-]|].
        apply Hlt. lia.
      * intros [(s' & Hs' & Hps') Hlt]. exists i. split; [|done].
        apply IH. split; [by exists s'|].
        intros j s'' Hj Hl. apply (Hlt (S j)); [lia|done].
Qed.

Lemma find_index_None p l :
  find_index p l = None <-> (forall i s, l !! i = Some s -> p s = false).
Proof.
  induction l as [|s l IH]; simpl.
  { split; [|done]. intros _ i s. by rewrite lookup_nil. }
  destruct (p s) eqn:Hp.
  - split; [done|]. intros H. specialize (H 0 s eq_refl). congruence.
  - rewrite fmap_None, IH. split.
    + intros H [|i] s'; simpl; [by intros [= <-]|apply H].
    + intros H i s' ?. by apply (H (S i)).
Qed.

Lemma first_free_Some l i :
  first_free l = Some i ->
  l !! i = Some None /\ i < length l /\
  (forall j, j < i -> exists x, l !! j = Some (Some x)).
Proof.
  intros [(s & Hs & Hp) Hlt]%find_index_Some.
  destruct s; [done|]. pose proof (lookup_lt_Some _ _ _ Hs).
  split_and!; [done|done|]. intros j Hj.
  destruct (lookup_lt_is_Some_2 l j) as [[x|] Hx]; [lia|by exists x|].
  by specialize (Hlt j None Hj Hx).
Qed.

Lemma first_free_None l :
  first_free l = None <-> (forall i s, l !! i = Some s -> exists x, s = Some x).
Proof.
  unfold first_free. rewrite find_index_None. split.
  - intros H i [x|] Hs; [by exists x|]. by specialize (H i None Hs).
  - intros H i s Hs. by destruct (H i s Hs) as [x ->].
Qed.

Lemma find_slot_Some q l i :
  find_slot q l = Some i ->
  exists x, l !! i = Some (Some x) /\ q x = true /\ i < length l.
Proof.
  intros [(s & Hs & Hp) _]%find_index_Some. destruct s as [x|]; [|done].
  exists x. split_and!; [done..|]. by eapply lookup_lt_Some.
Qed.

Lemma find_slot_None q l :
  find_slot q l = None <-> (forall i x, l !! i = Some (Some x) -> q x = false).
Proof.
  unfold find_slot. rewrite find_index_None. split.
  - intros H i x Hx. by apply (H i (Some x)).
  - intros H i [x|] Hs; [by apply (H i)|done].
Qed.

Lemma live_app l1 l2 : live (l1 ++ l2) = live l1 ++ live l2.
Proof. apply omap_app. Qed.

Lemma elem_of_live l x : x ∈ live l <-> exists i, l !! i = Some (Some x).
Proof.
  unfold live. rewrite list_elem_of_omap. split.
  - intros (s & Hs & Hx). simpl in Hx. subst s.
    by apply list_elem_of_lookup_1 in Hs.
  - intros [i Hi]. exists (Some x). split; [|done].
    by eapply list_elem_of_lookup_2.
Qed.

Lemma live_cons s l :
  live (s :: l) = match s with Some x => x :: live l | None => live l end.
Proof. by destruct s. Qed.

Lemma live_full l : (forall o, o ∈ l -> is_Some o) -> length (live l) = length l.
Proof.
  unfold live. induction l as [|o l IH]; intros H; cbn; [done|].
  destruct (H o ltac:(left)) as [x ->]. cbn. f_equal. apply IH. intros o' Ho. apply H. by right.
Qed.

Lemma live_length_le l : length (live l) <= length l.
Proof.
  induction l as [|[x|] l IH]; [done|..]; rewrite live_cons; simpl; lia.
Qed.

(** Filling a free slot adds exactly one live entry. *)
Lemma live_insert_free l i x :
  l !! i = Some None -> live (<[i := Some x]> l) ≡ₚ x :: live l.
Proof.
  intros Hi. pose proof (lookup_lt_Some _ _ _ Hi) as Hlt.
  rewrite <- (take_drop_middle l i None Hi) at 2.
  rewrite insert_take_drop by done.
  rewrite !live_app. cbn. symmetry. apply Permutation_middle.
Qed.

(** Emptying a live slot removes exactly that entry. *)
Lemma live_remove l i x :
  l !! i = Some (Some x) -> live l ≡ₚ x :: live (<[i := None]> l).
Proof.
  intros Hi. pose proof (lookup_lt_Some _ _ _ Hi) as Hlt.
  rewrite <- (take_drop_middle l i (Some x) Hi) at 1.
  rewrite insert_take_drop by done.
  rewrite !live_app. cbn. symmetry. apply Permutation_middle.
Qed.

Lemma first_free_full l : first_free l = None -> length (live l) = length l.
Proof.
  rewrite first_free_None. induction l as [|s l IH]; intros H; [done|].
  destruct (H 0 s eq_refl) as [x ->]. simpl. f_equal. apply IH.
  intros i s' ?. by apply (H (S i)).
Qed.

Lemma first_free_not_full l i :
  first_free l = Some i -> length (live l) < length l.
Proof.
  intros (Hi & Hlt & _)%first_free_Some.
  rewrite <- (take_drop_middle l i None Hi).
  rewrite live_app, live_cons, !length_app. simpl.
  pose proof (live_length_le (take i l)). pose proof (live_length_le (drop (S i) l)).
  lia.
Qed.

Lemma first_free_has_room l :
  length (live l) < length l -> exists i, first_free l = Some i.
Proof.
  intros H. destruct (first_free l) as [i|] eqn:Hf; [by eexists|].
  apply first_free_full in Hf. lia.
Qed.
End slots.

(** ** Fallible code

    [result E A] is Rust's [Result<A, E>].  [Panic] outcomes (an index out
    of range, an [unwrap] on [None], a slice whose bounds are reversed) are
    [None] of [option]: a function whose source can panic has type
    [option _], and [Some] means that the call returned. *)
Inductive result (E A : Type) : Type :=
| Ok (a : A)
| Err (e : E).
Arguments Ok {E A} a.
Arguments Err {E A} e.

#[export] Instance result_ret E : MRet (result E) := fun A a => Ok a.
#[export] Instance result_bind E : MBind (result E) := fun A B f r =>
  match r with Ok a => f a | Err e => Err e end.
#[export] Instance result_fmap E : FMap (result E) := fun A B f r =>
  match r with Ok a => Ok (f a) | Err e => Err e end.

#[export] Instance result_eq_dec `{EqDecision E, EqDecision A} :
  EqDecision (result E A).
Proof. solve_decision. Defined.

(** [opt.ok_or(e)]. *)
Definition ok_or {E A} (e : E) (o : option A) : result E A :=
  match o with Some a => Ok a | None => Err e end.

Lemma result_bind_Ok {E A B} (f : A -> result E B) (r : result E A) b :
  r ≫= f = Ok b <-> exists a, r = Ok a /\ f a = Ok b.
Proof.
  destruct r as [a|e]; simpl; split.
  - intros H. by exists a.
  - by intros (a' & [= <-] & H).
  - done.
  - by intros (a' & [=] & _).
Qed.

Lemma ok_or_Ok {E A} (e : E) (o : option A) a : ok_or e o = Ok a <-> o = Some a.
Proof. destruct o; simpl; split; congruence. Qed.

(** Reading [len] consecutive bytes and similar slices: [data[a..b]] panics
    unless [a <= b <= data.len()]. *)
Definition slice {A} (l : list A) (a b : nat) : option (list A) :=
  if decide (a <= b /\ b <= length l) then Some (take (b - a) (drop a l)) else None.

Lemma slice_length {A} (l : list A) a b r : slice l a b = Some r -> length r = b - a.
Proof.
  unfold slice. case_decide; [|done]. intros [= <-].
  rewrite length_take, length_drop. lia.
Qed.

(** ** Code with loops

    The outcome of a call whose loops follow links kept in memory: it returns,
    it panics, or it is still running when the fuel is used up.  A call that
    is [Running] at every fuel never returns. *)
Inductive exec (A : Type) : Type :=
| Ret (a : A)
| Panics
| Running.
Arguments Ret {A} a.
Arguments Panics {A}.
Arguments Running {A}.

#[export] Instance exec_ret : MRet exec := fun A a => Ret a.
#[export] Instance exec_bind : MBind exec := fun A B f r =>
  match r with Ret a => f a | Panics => Panics | Running => Running end.
#[export] Instance exec_fmap : FMap exec := fun A B f r =>
  match r with Ret a => Ret (f a) | Panics => Panics | Running => Running end.

#[export] Instance exec_eq_dec `{EqDecision A} : EqDecision (exec A).
Proof. solve_decision. Defined.

Definition or_panic {A} (o : option A) : exec A :=
  match o with Some a => Ret a | None => Panics end.

Lemma exec_bind_Ret {A B} (f : A -> exec B) (r : exec A) b :
  r ≫= f = Ret b <-> exists a, r = Ret a /\ f a = Ret b.
Proof.
  destruct r as [a| |]; cbn; split; try (by intros (? & [=] & _)); try done.
  - intros H. by exists a.
  - by intros (a' & [= <-] & H).
Qed.

(** ** Arrays indexed by machine integers

    [l[i]] with [i] cast to [usize]: a negative [i] is far out of range. *)
Definition at_z {A} (l : list A) (i : Z) : option A :=
  if (0 <=? i)%Z then l !! Z.to_nat i else None.

Lemma at_z_Some {A} (l : list A) i x :
  at_z l i = Some x -> (0 <= i < Z.of_nat (length l))%Z /\ l !! Z.to_nat i = Some x.
Proof.
  unfold at_z. destruct (Z.leb_spec 0 i); [|done]. intros Hl.
  pose proof (lookup_lt_Some _ _ _ Hl). split; [lia|done].
Qed.

Lemma at_z_in {A} (l : list A) i :
  (0 <= i < Z.of_nat (length l))%Z -> exists x, at_z l i = Some x.
Proof.
  intros Hi. unfold at_z. destruct (Z.leb_spec 0 i); [|lia].
  destruct (lookup_lt_is_Some_2 l (Z.to_nat i)) as [x Hx]; [lia|by exists x].
Qed.

Definition set_z {A} (i : Z) (x : A) (l : list A) : list A := <[Z.to_nat i := x]> l.

Lemma length_set_z {A} i (x : A) l : length (set_z i x l) = length l.
Proof. apply length_insert. Qed.

Lemma at_set_z {A} (l : list A) i j x y :
  at_z l i = Some y -> at_z (set_z i x l) j = if (j =? i)%Z then Some x else at_z l j.
Proof.
  intros [Hi Hl]%at_z_Some. unfold at_z, set_z.
  destruct (Z.eqb_spec j i) as [->|Hne].
  - destruct (Z.leb_spec 0 i); [|lia]. apply list_lookup_insert_eq. lia.
  - destruct (Z.leb_spec 0 j); [|done]. apply list_lookup_insert_ne. lia.
Qed.

Lemma at_set_z_eq {A} (l : list A) i x y : at_z l i = Some y -> at_z (set_z i x l) i = Some x.
Proof. intros H. by rewrite (at_set_z _ _ _ _ _ H), Z.eqb_refl. Qed.

Lemma at_set_z_ne {A} (l : list A) i j x : i <> j -> (0 <= i)%Z -> at_z (set_z i x l) j = at_z l j.
Proof.
  intros Hne Hi. unfold at_z, set_z. destruct (Z.leb_spec 0 j); [|done].
  apply list_lookup_insert_ne. lia.
Qed.

(** ** Step relations *)
Inductive rtc_steps {S L : Type} (step : S -> L -> S -> Prop) : S -> list L -> S -> Prop :=
| steps_nil s : rtc_steps step s [] s
| steps_cons s1 s2 s3 a tr :
    step s1 a s2 -> rtc_steps step s2 tr s3 -> rtc_steps step s1 (a :: tr) s3.

Lemma steps_invariant {S L} (step : S -> L -> S -> Prop) (I : S -> Prop) :
  (forall s a s', I s -> step s a s' -> I s') ->
  forall s tr s', rtc_steps step s tr s' -> I s -> I s'.
Proof. intros Hstep s tr s'. induction 1; eauto. Qed.

Lemma steps_app {S L} (step : S -> L -> S -> Prop) s1 tr1 s2 tr2 s3 :
  rtc_steps step s1 tr1 s2 -> rtc_steps step s2 tr2 s3 ->
  rtc_steps step s1 (tr1 ++ tr2) s3.
Proof. induction 1; simpl; [done|]. intros. econstructor; eauto. Qed.

(** ** Tactics *)

(** Case analysis on every [if]/[match] of the hypotheses and the goal whose
    scrutinee is a boolean test or a decision, with the equations kept. *)
Ltac case_bools :=
  repeat match goal with
  | H : context [if ?b then _ else _] |- _ =>
      lazymatch type of b with bool => destruct b eqn:? | _ => destruct b end
  | |- context [if ?b then _ else _] =>
      lazymatch type of b with bool => destruct b eqn:? | _ => destruct b end
  end.

(** Turn boolean comparisons of the context into propositions. *)
Ltac reflect :=
  repeat match goal with
  | H : Z.eqb _ _ = true |- _ => apply Z.eqb_eq in H
  | H : Z.eqb _ _ = false |- _ => apply Z.eqb_neq in H
  | H : Z.ltb _ _ = true |- _ => apply Z.ltb_lt in H
  | H : Z.ltb _ _ = false |- _ => apply Z.ltb_ge in H
  | H : Z.leb _ _ = true |- _ => apply Z.leb_le in H
  | H : Z.leb _ _ = false |- _ => apply Z.leb_gt in H
  | H : Nat.eqb _ _ = true |- _ => apply Nat.eqb_eq in H
  | H : Nat.eqb _ _ = false |- _ => apply Nat.eqb_neq in H
  | H : Nat.ltb _ _ = true |- _ => apply Nat.ltb_lt in H
  | H : Nat.ltb _ _ = false |- _ => apply Nat.ltb_ge in H
  | H : Nat.leb _ _ = true |- _ => apply Nat.leb_le in H
  | H : Nat.leb _ _ = false |- _ => apply Nat.leb_gt in H
  | H : andb _ _ = true |- _ => apply andb_prop in H as [? ?]
  | H : orb _ _ = false |- _ => apply orb_false_elim in H as [? ?]
  | H : negb _ = true |- _ => apply negb_true_iff in H
  | H : negb _ = false |- _ => apply negb_false_iff in H
  | H : bool_decide _ = true |- _ => apply bool_decide_eq_true in H
  | H : bool_decide _ = false |- _ => apply bool_decide_eq_false in H
  end.

Create HintDb caps discriminated.
Create Rewrite HintDb caps.
#[export] Hint Rewrite @length_insert @length_app @length_take @length_drop
  @length_replicate : caps.
