(* ===== verification/Shared.v ===== *)
(** * Shared: the ABI types of kernel/shared

    [Status] and its raw encoding (kernel/shared/src/status.rs), the object
    types (types.rs), the page-alignment helper (launcher.rs) and the
    capability rights (kernel/src/object/rights.rs). *)
From Stdlib Require Import ZArith Lia.
From stdpp Require Import base tactics option list.
From S2P Require Import Prelude.
Local Open Scope Z_scope.

(** ** Status codes *)
Inductive Status :=
| SOk | NotFound | NoMemory | InvalidArgs | BadHandle | WrongType
| AccessDenied | AlreadyExists | NotEmpty | FileOpen | FileNotFound
| ProcessNotFound | ThreadNotFound | InvalidImage | PeerClosed | NotAllowed
| TryAgain | TimedOut | Canceled.

#[export] Instance Status_eq_dec : EqDecision Status.
Proof. solve_decision. Defined.

(** The [#[repr(i32)]] discriminants. *)
Definition status_i32 (s : Status) : Z :=
  match s with
  | SOk => 0 | NotFound => -1 | NoMemory => -2 | InvalidArgs => -3
  | BadHandle => -4 | WrongType => -5 | AccessDenied => -6
  | AlreadyExists => -10 | NotEmpty => -11 | FileOpen => -12
  | FileNotFound => -13 | ProcessNotFound => -20 | ThreadNotFound => -21
  | InvalidImage => -22 | PeerClosed => -30 | NotAllowed => -31
  | TryAgain => -40 | TimedOut => -41 | Canceled => -42
  end.

(** [self as i32 as usize]: sign extension to 64 bits. *)
Definition to_raw (s : Status) : Z := u64w (status_i32 s).

Definition from_raw (raw : Z) : Status :=
  match raw with
  | 0 => SOk | -1 => NotFound | -2 => NoMemory | -3 => InvalidArgs
  | -4 => BadHandle | -5 => WrongType | -6 => AccessDenied
  | -10 => AlreadyExists | -11 => NotEmpty | -12 => FileOpen
  | -13 => FileNotFound | -20 => ProcessNotFound | -21 => ThreadNotFound
  | -22 => InvalidImage | -30 => PeerClosed | -31 => NotAllowed
  | -40 => TryAgain | -41 => TimedOut | -42 => Canceled
  | _ => InvalidArgs
  end.

Definition status_is_ok (s : Status) : bool := bool_decide (s = SOk).
Definition status_is_err (s : Status) : bool := negb (status_is_ok s).

(** [Result<T>] of the kernel. *)
Abbreviation kresult := (result Status).

(** ** Handle values and object types *)
Definition HandleValue := Z.
Definition HANDLE_INVALID : HandleValue := 0.

Inductive ObjectType :=
| OTProcess | OTThread | OTVmo | OTVmar | OTChannel | OTPort | OTEvent
| OTTimer | OTUserThread | OTJob | OTVmObject | OTUnknown.

#[export] Instance ObjectType_eq_dec : EqDecision ObjectType.
Proof. solve_decision. Defined.

Definition object_type_to_u32 (t : ObjectType) : Z :=
  match t with
  | OTProcess => 0 | OTThread => 1 | OTVmo => 2 | OTVmar => 3 | OTChannel => 4
  | OTPort => 5 | OTEvent => 6 | OTTimer => 7 | OTUserThread => 8 | OTJob => 9
  | OTVmObject => 10 | OTUnknown => 255
  end.

Definition object_type_from_u32 (v : Z) : ObjectType :=
  match v with
  | 0 => OTProcess | 1 => OTThread | 2 => OTVmo | 3 => OTVmar | 4 => OTChannel
  | 5 => OTPort | 6 => OTEvent | 7 => OTTimer | 8 => OTUserThread | 9 => OTJob
  | 10 => OTVmObject | _ => OTUnknown
  end.

(** ** Rights (a [u32] bit mask) *)
Definition RIGHT_NONE : Z := 0.
Definition RIGHT_READ : Z := Z.shiftl 1 0.
Definition RIGHT_WRITE : Z := Z.shiftl 1 1.
Definition RIGHT_EXECUTE : Z := Z.shiftl 1 2.
Definition RIGHT_MAP : Z := Z.shiftl 1 3.
Definition RIGHT_DUPLICATE : Z := Z.shiftl 1 4.
Definition RIGHT_TRANSFER : Z := Z.shiftl 1 5.

Definition rights_contains (self other : Z) : bool := Z.land self other =? other.
Definition rights_or (a b : Z) : Z := Z.lor a b.

(** ** AlignmentHelper::calculate_aligned_range *)
Definition calculate_aligned_range (offset size : Z) : Z * Z * Z :=
  let aligned_off := Z.land offset (Z.lxor (u64w (4096 - 1)) (2 ^ 64 - 1)) in
  let align_diff := u64w (offset - aligned_off) in
  let aligned_sz :=
    Z.land (u64w (u64w (size + align_diff) + 4095)) (Z.lxor 4095 (2 ^ 64 - 1)) in
  (aligned_off, align_diff, aligned_sz).

(** The raw encoding of a status is a 64-bit pattern whose low half, read
    back as [i32], is the status. *)
Lemma from_raw_status_i32 s : from_raw (status_i32 s) = s.
Proof. by destruct s. Qed.

Lemma rights_contains_refl r : rights_contains r r = true.
Proof. unfold rights_contains. rewrite Z.land_diag. apply Z.eqb_refl. Qed.

Lemma rights_contains_spec self other :
  rights_contains self other = true <->
  (forall i, Z.testbit other i = true -> Z.testbit self i = true).
Proof.
  unfold rights_contains. rewrite Z.eqb_eq. split.
  - intros H i Hi. rewrite <- H, Z.land_spec in Hi.
    apply andb_prop in Hi. tauto.
  - intros H. apply Z.bits_inj. intros i. rewrite Z.land_spec.
    destruct (Z.testbit other i) eqn:Ho; [by rewrite (H i Ho)|by rewrite andb_false_r].
Qed.

Lemma rights_contains_trans a b c :
  rights_contains a b = true -> rights_contains b c = true ->
  rights_contains a c = true.
Proof. rewrite !rights_contains_spec. auto. Qed.
