(* ===== verification/Handles.v ===== *)
(** * Handles: the per-process capability table

    kernel/src/object/handle_table.rs.  A table is twelve slots scanned from
    index 0; the handle numbers come from one global atomic counter shared by
    every table, which is therefore threaded through the operations.  The
    spin lock around each operation is not modelled: every operation takes
    and releases it itself, and the model runs one operation at a time.

    VMOs, VMARs and ports are values owned by the table; a channel is boxed
    and only its (stable) heap address is in the table. *)
From Stdlib Require Import ZArith Lia.
From stdpp Require Import base tactics option list.
From S2P Require Import Prelude Shared.

Definition MAX_HANDLES : nat := 12.
Definition HANDLE_VALUE_COUNTER_INIT : Z := 1000.

(** What the table needs of a VMO: [Clone], and an identity that [clone]
    keeps (the [id] field). *)
Class VmoLike (V : Type) := {
  vmo_ident : V -> Z;
  vmo_clone : V -> V;
  vmo_clone_ident v : vmo_ident (vmo_clone v) = vmo_ident v;
}.

Section handles.
Context {Vmo Vmar Port : Type} `{!VmoLike Vmo}.

Inductive KernelObject :=
| KVmo (v : Vmo)
| KVmar (v : Vmar)
| KChannel (addr : Z)
| KPort (p : Port)
| KProcess (pid : Z)
| KThread (tid : Z).

Definition object_type (o : KernelObject) : ObjectType :=
  match o with
  | KVmo _ => OTVmo | KVmar _ => OTVmar | KChannel _ => OTChannel
  | KPort _ => OTPort | KProcess _ => OTProcess | KThread _ => OTThread
  end.

Definition duplicate (o : KernelObject) : kresult KernelObject :=
  match o with
  | KVmo vmo => Ok (KVmo (vmo_clone vmo))
  | _ => Err NotAllowed
  end.

Record Slot := mkSlot { s_value : HandleValue; s_rights : Z; s_object : KernelObject }.

Abbreviation HandleTable := (list (option Slot)).

Definition ht_new : HandleTable := replicate MAX_HANDLES None.

Definition check_rights (have required : Z) : bool :=
  if Z.eqb required 0 then true else Z.eqb (Z.land have required) required.

Definition has_value (hv : HandleValue) (s : Slot) : bool := Z.eqb (s_value s) hv.

(** [add]: a number is drawn from the counter whether or not a slot is free. *)
Definition ht_add (c : Z) (t : HandleTable) (o : KernelObject) (rights : Z)
  : kresult HandleValue * Z * HandleTable :=
  let hv := c in
  let c' := u32w (c + 1) in
  match first_free t with
  | Some i => (Ok hv, c', <[i := Some (mkSlot hv rights o)]> t)
  | None => (Err NoMemory, c', t)
  end.

Definition ht_add_raw_handle (t : HandleTable) (raw : Z) (o : KernelObject) (rights : Z)
  : kresult unit * HandleTable :=
  match first_free t with
  | Some i => (Ok tt, <[i := Some (mkSlot raw rights o)]> t)
  | None => (Err NoMemory, t)
  end.

(** [with]: the closure runs on the object in place, under the lock. *)
Definition ht_with {R} (t : HandleTable) (hv : HandleValue) (required : Z)
  (f : KernelObject -> kresult R * KernelObject) : kresult R * HandleTable :=
  match find_slot (has_value hv) t with
  | None => (Err BadHandle, t)
  | Some i =>
      match t !! i with
      | Some (Some s) =>
          if negb (check_rights (s_rights s) required) then (Err AccessDenied, t)
          else let '(r, o') := f (s_object s) in
               (r, <[i := Some (mkSlot (s_value s) (s_rights s) o')]> t)
      | _ => (Err BadHandle, t)
      end
  end.

Definition ht_with_vmo {R} (t : HandleTable) (hv : HandleValue) (required : Z)
  (f : Vmo -> R * Vmo) : kresult R * HandleTable :=
  ht_with t hv required (fun o =>
    match o with
    | KVmo vmo => let '(r, vmo') := f vmo in (Ok r, KVmo vmo')
    | _ => (Err WrongType, o)
    end).

Definition ht_with_vmar {R} (t : HandleTable) (hv : HandleValue) (required : Z)
  (f : Vmar -> R * Vmar) : kresult R * HandleTable :=
  ht_with t hv required (fun o =>
    match o with
    | KVmar vmar => let '(r, vmar') := f vmar in (Ok r, KVmar vmar')
    | _ => (Err WrongType, o)
    end).

Definition ht_with_port {R} (t : HandleTable) (hv : HandleValue) (required : Z)
  (f : Port -> R * Port) : kresult R * HandleTable :=
  ht_with t hv required (fun o =>
    match o with
    | KPort p => let '(r, p') := f p in (Ok r, KPort p')
    | _ => (Err WrongType, o)
    end).

(** The closures given to [with_channel] in the kernel take the address of
    the box or set its [peer]; what they do to the heap is the caller's. *)
Definition ht_with_channel {R} (t : HandleTable) (hv : HandleValue) (required : Z)
  (f : Z -> R) : kresult R * HandleTable :=
  ht_with t hv required (fun o =>
    match o with
    | KChannel a => (Ok (f a), o)
    | _ => (Err WrongType, o)
    end).

Definition ht_with_process {R} (t : HandleTable) (hv : HandleValue) (required : Z)
  (f : Z -> R) : kresult R * HandleTable :=
  ht_with t hv required (fun o =>
    match o with
    | KProcess pid => (Ok (f pid), o)
    | _ => (Err WrongType, o)
    end).

Definition ht_with_thread {R} (t : HandleTable) (hv : HandleValue) (required : Z)
  (f : Z -> R) : kresult R * HandleTable :=
  ht_with t hv required (fun o =>
    match o with
    | KThread tid => (Ok (f tid), o)
    | _ => (Err WrongType, o)
    end).

Definition ht_duplicate_handle (c : Z) (t : HandleTable) (hv : HandleValue)
  (required : Z) : kresult HandleValue * Z * HandleTable :=
  match find_slot (has_value hv) t with
  | None => (Err BadHandle, c, t)
  | Some i =>
      match t !! i with
      | Some (Some s) =>
          if negb (check_rights (s_rights s) required) then (Err AccessDenied, c, t)
          else match duplicate (s_object s) with
               | Err e => (Err e, c, t)
               | Ok dup_obj => ht_add c t dup_obj (s_rights s)
               end
      | _ => (Err BadHandle, c, t)
      end
  end.

Definition ht_remove_with_rights (t : HandleTable) (hv : HandleValue)
  : kresult (KernelObject * Z) * HandleTable :=
  match find_slot (has_value hv) t with
  | None => (Err BadHandle, t)
  | Some i =>
      match t !! i with
      | Some (Some s) => (Ok (s_object s, s_rights s), <[i := None]> t)
      | _ => (Err BadHandle, t)
      end
  end.

Definition ht_remove (t : HandleTable) (hv : HandleValue)
  : kresult KernelObject * HandleTable :=
  match ht_remove_with_rights t hv with
  | (Ok (obj, _), t') => (Ok obj, t')
  | (Err e, t') => (Err e, t')
  end.

Definition ht_close (t : HandleTable) (hv : HandleValue)
  : kresult KernelObject * HandleTable := ht_remove t hv.

Definition ht_live_count (t : HandleTable) : nat := length (live t).

(** ** Invariant *)

(** Twelve slots, handle numbers pairwise distinct and already issued. *)
Definition ht_wf (c : Z) (t : HandleTable) : Prop :=
  length t = MAX_HANDLES /\ NoDup (s_value <$> live t) /\
  Forall (fun s => (s_value s < c)%Z) (live t).

Lemma ht_new_wf c : ht_wf c ht_new.
Proof. split_and!; [done|apply NoDup_nil_2|constructor]. Qed.

Lemma find_slot_unique c t s :
  ht_wf c t -> s ∈ live t ->
  exists i, find_slot (has_value (s_value s)) t = Some i /\
            t !! i = Some (Some s) /\ i < length t.
Proof.
  intros (_ & Hnd & _) [j Hj]%elem_of_live.
  destruct (find_slot (has_value (s_value s)) t) as [i|] eqn:Hf.
  - destruct (find_slot_Some _ _ _ Hf) as (x & Hi & Hv%Z.eqb_eq & Hlt).
    exists i. split_and!; [done| |done]. destruct (decide (i = j)) as [->|Hij]; [done|].
    exfalso. pose proof (live_remove _ _ _ Hj) as Hp.
    apply (fmap_Permutation s_value) in Hp. rewrite Hp in Hnd.
    simpl in Hnd. apply NoDup_cons in Hnd as [Hnin _]. apply Hnin.
    rewrite <- Hv. apply list_elem_of_fmap_2. apply elem_of_live.
    exists i. by rewrite list_lookup_insert_ne.
  - rewrite find_slot_None in Hf. specialize (Hf j s Hj).
    unfold has_value in Hf. apply Z.eqb_neq in Hf. done.
Qed.

Lemma find_slot_absent t hv :
  find_slot (has_value hv) t = None <-> hv ∉ (s_value <$> live t).
Proof.
  rewrite find_slot_None. split.
  - intros H (s & -> & [i Hi]%elem_of_live)%list_elem_of_fmap.
    specialize (H _ _ Hi). apply Z.eqb_neq in H. done.
  - intros H i s Hi. apply Z.eqb_neq. intros <-. apply H.
    apply list_elem_of_fmap_2, elem_of_live. by exists i.
Qed.

Lemma ht_wf_insert c c' t i s :
  ht_wf c t -> t !! i = Some None -> (c <= c')%Z -> (s_value s < c')%Z ->
  s_value s ∉ (s_value <$> live t) ->
  ht_wf c' (<[i := Some s]> t) /\ live (<[i := Some s]> t) ≡ₚ s :: live t.
Proof.
  intros (Hl & Hnd & Hlt) Hi Hc Hs Hnin.
  pose proof (live_insert_free t i s Hi) as Hp. split; [|done].
  split_and!; [by rewrite length_insert| |].
  - rewrite Hp. simpl. by apply NoDup_cons.
  - rewrite Hp. constructor; [done|]. eapply Forall_impl; [done|]. simpl. lia.
Qed.

Lemma ht_wf_remove c t i s :
  ht_wf c t -> t !! i = Some (Some s) ->
  ht_wf c (<[i := None]> t) /\ live t ≡ₚ s :: live (<[i := None]> t).
Proof.
  intros (Hl & Hnd & Hlt) Hi.
  pose proof (live_remove t i s Hi) as Hp. split; [|done].
  split_and!; [by rewrite length_insert| |].
  - rewrite Hp in Hnd. simpl in Hnd. by apply NoDup_cons in Hnd as [_ ?].
  - rewrite Hp in Hlt. by apply Forall_cons in Hlt as [_ ?].
Qed.

(** ** Functional behaviour of the operations *)

Lemma ht_add_ok c t o rights :
  ht_wf c t -> (0 <= c < 2 ^ 32 - 1)%Z -> length (live t) < MAX_HANDLES ->
  exists t', ht_add c t o rights = (Ok c, (c + 1)%Z, t') /\
             ht_wf (c + 1) t' /\ live t' ≡ₚ mkSlot c rights o :: live t.
Proof.
  intros Hwf Hc Hroom. assert (Hlen : length t = MAX_HANDLES) by apply Hwf.
  destruct (first_free_has_room t) as [i Hi]; [lia|].
  unfold ht_add. rewrite Hi, u32w_small by lia.
  destruct (first_free_Some _ _ Hi) as (Hfree & _ & _).
  eexists. split; [done|]. apply (ht_wf_insert c); simpl; [done..|lia|lia|].
  intros (s & Hs & Hin)%list_elem_of_fmap.
  destruct Hwf as (_ & _ & Hlt). rewrite Forall_forall in Hlt.
  specialize (Hlt s Hin). lia.
Qed.

Lemma ht_add_full c t o rights :
  length t = MAX_HANDLES -> length (live t) = MAX_HANDLES ->
  ht_add c t o rights = (Err NoMemory, u32w (c + 1), t).
Proof.
  intros Hl Hf. unfold ht_add. destruct (first_free t) as [i|] eqn:Hi; [|done].
  apply first_free_not_full in Hi. lia.
Qed.

Lemma ht_remove_ok c t s :
  ht_wf c t -> s ∈ live t ->
  exists t', ht_remove_with_rights t (s_value s) = (Ok (s_object s, s_rights s), t') /\
             ht_wf c t' /\ live t ≡ₚ s :: live t'.
Proof.
  intros Hwf Hin. destruct (find_slot_unique c t s Hwf Hin) as (i & Hf & Hi & _).
  unfold ht_remove_with_rights. rewrite Hf, Hi.
  eexists. split; [done|]. by apply ht_wf_remove.
Qed.

Lemma ht_remove_absent t hv :
  hv ∉ (s_value <$> live t) -> ht_remove_with_rights t hv = (Err BadHandle, t).
Proof.
  intros H%find_slot_absent. unfold ht_remove_with_rights. by rewrite H.
Qed.

Lemma ht_with_spec {R} c t s required (f : KernelObject -> kresult R * KernelObject) :
  ht_wf c t -> s ∈ live t ->
  if check_rights (s_rights s) required then
    exists t', ht_with t (s_value s) required f = (fst (f (s_object s)), t') /\
      ht_wf c t' /\
      exists rest, live t ≡ₚ s :: rest /\
        live t' ≡ₚ mkSlot (s_value s) (s_rights s) (snd (f (s_object s))) :: rest
  else ht_with t (s_value s) required f = (Err AccessDenied, t).
Proof.
  intros Hwf Hin. destruct (find_slot_unique c t s Hwf Hin) as (i & Hf & Hi & Hlt).
  unfold ht_with. rewrite Hf, Hi.
  destruct (check_rights (s_rights s) required); simpl; [|done].
  destruct (f (s_object s)) as [r o'] eqn:Hfo. eexists. split; [done|].
  destruct (ht_wf_remove c t i s Hwf Hi) as [Hwf' Hp].
  assert (Hfree : <[i:=None]> t !! i = Some None) by by apply list_lookup_insert_eq.
  assert (Hii : <[i:=Some (mkSlot (s_value s) (s_rights s) o')]> t =
                <[i:=Some (mkSlot (s_value s) (s_rights s) o')]> (<[i:=None]> t))
    by by rewrite list_insert_insert_eq.
  destruct (ht_wf_insert c c (<[i:=None]> t) i (mkSlot (s_value s) (s_rights s) o'))
    as [Hwf2 Hp2]; simpl; [done|done|lia| | |].
  - destruct Hwf as (_ & _ & Hall). rewrite Forall_forall in Hall. by apply Hall.
  - destruct Hwf as (_ & Hnd & _). rewrite Hp in Hnd. simpl in Hnd.
    by apply NoDup_cons in Hnd as [? _].
  - rewrite Hii. split; [done|]. by eexists.
Qed.

(** ** Sequences of operations *)

Section traces.
Context (vmar_ident : Vmar -> Z) (port_ident : Port -> Z).

(** Which kernel object a value of the table designates. *)
Definition obj_ident (o : KernelObject) : ObjectType * Z :=
  (object_type o,
   match o with
   | KVmo v => vmo_ident v | KVmar v => vmar_ident v | KChannel a => a
   | KPort p => port_ident p | KProcess pid => pid | KThread tid => tid
   end).

Inductive ht_op :=
| OpAdd (o : KernelObject) (rights : Z)
| OpAddRaw (raw : Z) (o : KernelObject) (rights : Z)
| OpDup (hv required : Z)
| OpRemove (hv : Z)
| OpWith (hv required : Z) (f : KernelObject -> kresult unit * KernelObject).

Definition ht_run (st : Z * HandleTable) (op : ht_op) : Z * HandleTable :=
  let '(c, t) := st in
  match op with
  | OpAdd o r => let '(_, c', t') := ht_add c t o r in (c', t')
  | OpAddRaw raw o r => (c, snd (ht_add_raw_handle t raw o r))
  | OpDup hv req => let '(_, c', t') := ht_duplicate_handle c t hv req in (c', t')
  | OpRemove hv => (c, snd (ht_remove_with_rights t hv))
  | OpWith hv req f => (c, snd (ht_with t hv req f))
  end.

Definition ht_exec (st : Z * HandleTable) (ops : list ht_op) : Z * HandleTable :=
  fold_left ht_run ops st.

(** Operations that put no new object into the table; a closure given
    to [with] may change the object but not which object it is. *)
Definition non_creating (op : ht_op) : Prop :=
  match op with
  | OpAdd _ _ | OpAddRaw _ _ _ => False
  | OpWith _ _ f => forall o, obj_ident (snd (f o)) = obj_ident o
  | OpDup _ _ | OpRemove _ => True
  end.

Definition no_raw (op : ht_op) : Prop :=
  match op with OpAddRaw _ _ _ => False | _ => True end.

(** [s'] carries no more authority than some entry of [t]. *)
Definition derived_from (t : HandleTable) (s' : Slot) : Prop :=
  exists s, s ∈ live t /\ s_rights s' = s_rights s /\
            obj_ident (s_object s') = obj_ident (s_object s).

Lemma derived_from_refl (t : HandleTable) (s : Slot) : s ∈ live t -> derived_from t s.
Proof. intros H. by exists s. Qed.

Lemma elem_of_live_insert (t : HandleTable) i o (s : Slot) :
  s ∈ live (<[i := o]> t) -> o = Some s \/ s ∈ live t.
Proof.
  rewrite !elem_of_live. intros [j Hj].
  destruct (decide (i = j)) as [->|Hne].
  - destruct (decide (j < length t)) as [Hlt|Hge].
    + rewrite list_lookup_insert_eq in Hj by done. left. congruence.
    + rewrite list_insert_ge in Hj by lia. right. by exists j.
  - rewrite list_lookup_insert_ne in Hj by done. right. by exists j.
Qed.

Lemma ht_run_derived (st : Z * HandleTable) op (s' : Slot) :
  non_creating op -> s' ∈ live (snd (ht_run st op)) -> derived_from (snd st) s'.
Proof.
  destruct st as [c t]. destruct op as [| |hv req|hv|hv req f]; simpl; [done..| | |].
  - intros _. unfold ht_duplicate_handle.
    destruct (find_slot _ t) as [i|] eqn:Hf; [|apply derived_from_refl].
    destruct (t !! i) as [[s|]|] eqn:Hi; try apply derived_from_refl.
    destruct (negb _); [apply derived_from_refl|].
    destruct (duplicate (s_object s)) as [o'|e] eqn:Hd; [|apply derived_from_refl].
    unfold ht_add. destruct (first_free t); [|apply derived_from_refl]. simpl.
    intros [[= <-]|Hin]%elem_of_live_insert; [|by apply derived_from_refl].
    exists s. split; [apply elem_of_live; by exists i|]. split; [done|]. simpl.
    destruct (s_object s); simpl in Hd; simplify_eq.
    unfold obj_ident. simpl. by rewrite vmo_clone_ident.
  - intros _. unfold ht_remove_with_rights.
    destruct (find_slot _ t) as [i|]; [|apply derived_from_refl].
    destruct (t !! i) as [[s|]|]; try apply derived_from_refl. simpl.
    intros [?|?]%elem_of_live_insert; [done|by apply derived_from_refl].
  - intros Hf. unfold ht_with.
    destruct (find_slot _ t) as [i|]; [|apply derived_from_refl].
    destruct (t !! i) as [[s|]|] eqn:Hi; try apply derived_from_refl.
    destruct (negb _); [apply derived_from_refl|].
    specialize (Hf (s_object s)). destruct (f (s_object s)) as [r o']. simpl.
    intros [[= <-]|?]%elem_of_live_insert; [|by apply derived_from_refl].
    exists s. split; [apply elem_of_live; by exists i|]. done.
Qed.

Lemma ht_run_wf c t op :
  no_raw op -> (0 <= c < 2 ^ 32 - 1)%Z -> ht_wf c t ->
  ht_wf (fst (ht_run (c, t) op)) (snd (ht_run (c, t) op)) /\
  (c <= fst (ht_run (c, t) op) <= c + 1)%Z.
Proof.
  intros Hr Hc Hwf.
  assert (Hadd : forall o r,
    ht_wf (snd (fst (ht_add c t o r))) (snd (ht_add c t o r)) /\
    (c <= snd (fst (ht_add c t o r)) <= c + 1)%Z).
  { intros o r. destruct (decide (length (live t) < MAX_HANDLES)) as [Hroom|Hfull].
    - destruct (ht_add_ok c t o r Hwf Hc Hroom) as (t' & -> & ? & _). simpl.
      split; [done|lia].
    - pose proof (live_length_le t). pose proof Hwf as (Hl & Hnd & Hlt).
      rewrite ht_add_full by lia. simpl. rewrite u32w_small by lia.
      split; [|lia]. split_and!; [done..|].
      eapply Forall_impl; [done|]. simpl. lia. }
  destruct op as [o r| |hv req|hv|hv req f]; simpl in *; [|done|..].
  - specialize (Hadd o r). by destruct (ht_add c t o r) as [[? ?] ?].
  - unfold ht_duplicate_handle.
    destruct (find_slot _ t) as [i|] eqn:Hf; [|simpl; split; [done|lia]].
    destruct (t !! i) as [[s|]|]; try (simpl; split; [done|lia]).
    destruct (negb _); [simpl; split; [done|lia]|].
    destruct (duplicate (s_object s)); [|simpl; split; [done|lia]].
    specialize (Hadd a (s_rights s)).
    by destruct (ht_add c t a (s_rights s)) as [[? ?] ?].
  - split; [|lia]. unfold ht_remove_with_rights.
    destruct (find_slot _ t) as [i|]; [|done].
    destruct (t !! i) as [[s|]|] eqn:Hi; [|done..]. simpl.
    by apply (ht_wf_remove c t i s).
  - split; [|lia]. unfold ht_with.
    destruct (find_slot (has_value hv) t) as [i|] eqn:Hf; [|done].
    destruct (t !! i) as [[s|]|] eqn:Hi; [|done..].
    destruct (find_slot_Some _ _ _ Hf) as (x & Hx & Hv%Z.eqb_eq & _).
    assert (x = s) as -> by congruence. subst hv.
    assert (Hin : s ∈ live t) by (apply elem_of_live; by exists i).
    pose proof (ht_with_spec c t s req f Hwf Hin) as Hspec.
    unfold ht_with in Hspec. rewrite Hf, Hi in Hspec.
    destruct (check_rights (s_rights s) req); simpl in *; [|done].
    destruct Hspec as (t' & Heq & Hwf' & _).
    destruct (f (s_object s)) as [r o']. simpl in *. by simplify_eq.
Qed.
End traces.
End handles.

Arguments KernelObject : clear implicits.
Arguments Slot : clear implicits.

(** ** Properties *)
Section properties.
Context {Vmo Vmar Port : Type} `{!VmoLike Vmo}.
Context (vmar_ident : Vmar -> Z) (port_ident : Port -> Z).
Abbreviation Obj := (KernelObject Vmo Vmar Port).
Abbreviation HSlot := (Slot Vmo Vmar Port).
Abbreviation Table := (list (option HSlot)).

(** C1. Capability confinement: no sequence of duplications, removals and
    in-place accesses gives a table an authority it did not have; every
    entry of the final table designates an object that an entry of the
    initial table designated, with exactly that entry's rights. *)
Theorem authority_confined c (t : Table) ops (s' : HSlot) :
  Forall (non_creating vmar_ident port_ident) ops ->
  s' ∈ live (snd (ht_exec (c, t) ops)) ->
  derived_from vmar_ident port_ident t s'.
Proof.
  revert c t s'. induction ops as [|op ops IH]; intros c t s'.
  { intros _. apply derived_from_refl. }
  intros [Hop Hops]%Forall_cons Hin. cbn [ht_exec fold_left] in Hin.
  destruct (ht_run (c, t) op) as [c1 t1] eqn:Hrun.
  destruct (IH c1 t1 s' Hops Hin) as (s1 & Hs1 & Hr1 & Hi1).
  pose proof (ht_run_derived vmar_ident port_ident (c, t) op s1 Hop) as Hd.
  rewrite Hrun in Hd. destruct (Hd Hs1) as (s & Hs & Hr & Hi).
  exists s. split_and!; [done|congruence..].
Qed.

(** The handle numbers of a table stay pairwise distinct and already
    issued under every sequence of operations, as long as the global
    32-bit counter has not wrapped; each live entry is then found again
    by its number, whichever slot it sits in. *)
Theorem handles_stay_unique c (t : Table) ops :
  ht_wf c t -> (0 <= c)%Z -> (c + Z.of_nat (length ops) < 2 ^ 32 - 1)%Z ->
  Forall no_raw ops ->
  let '(c', t') := ht_exec (c, t) ops in
  ht_wf c' t' /\ (c <= c' <= c + Z.of_nat (length ops))%Z /\
  forall s, s ∈ live t' ->
    exists i, find_slot (has_value (s_value s)) t' = Some i /\ t' !! i = Some (Some s).
Proof.
  intros Hwf Hc Hbound Hops.
  assert (H : ht_wf (fst (ht_exec (c, t) ops)) (snd (ht_exec (c, t) ops)) /\
              (c <= fst (ht_exec (c, t) ops) <= c + Z.of_nat (length ops))%Z).
  { revert c t Hwf Hc Hbound Hops. induction ops as [|op ops IH]; intros c t Hwf Hc Hb Hops.
    { simpl. split; [done|lia]. }
    apply Forall_cons in Hops as [Hop Hops]. simpl length in Hb.
    destruct (ht_run_wf c t op Hop) as [Hwf1 Hc1]; [lia|done|].
    cbn [ht_exec fold_left]. destruct (ht_run (c, t) op) as [c1 t1]. simpl in *.
    destruct (IH c1 t1) as [Hw2 Hc2]; [done|lia|lia|done|]. unfold ht_exec in *.
    split; [done|lia]. }
  destruct (ht_exec (c, t) ops) as [c' t']. simpl in H. destruct H as [Hw Hr].
  split_and!; [done|lia|lia|]. intros s Hs.
  destruct (find_slot_unique c' t' s Hw Hs) as (i & ? & ? & _). by exists i.
Qed.

(** Adding then removing is a round trip: on a table with room [add]
    returns the next handle number, [remove_with_rights] of that number
    gives back the object and the rights and leaves the other entries as
    they were, and a second removal is [BadHandle]. *)
Theorem add_remove_roundtrip c (t : Table) (o : Obj) rights :
  ht_wf c t -> (0 <= c < 2 ^ 32 - 1)%Z -> length (live t) < MAX_HANDLES ->
  exists t1 t2,
    ht_add c t o rights = (Ok c, (c + 1)%Z, t1) /\
    ht_remove_with_rights t1 c = (Ok (o, rights), t2) /\
    live t2 ≡ₚ live t /\ ht_wf (c + 1) t2 /\
    ht_remove_with_rights t2 c = (Err BadHandle, t2).
Proof.
  intros Hwf Hc Hroom.
  destruct (ht_add_ok c t o rights Hwf Hc Hroom) as (t1 & Hadd & Hwf1 & Hp1).
  destruct (ht_remove_ok (c + 1) t1 (mkSlot c rights o) Hwf1) as (t2 & Hrem & Hwf2 & Hp2).
  { rewrite Hp1. by left. }
  exists t1, t2. split_and!; [done..| |done|].
  - rewrite Hp1 in Hp2. by apply (inj (cons _)) in Hp2.
  - apply ht_remove_absent. destruct Hwf1 as (_ & Hnd & _).
    rewrite Hp2 in Hnd. simpl in Hnd. by apply NoDup_cons in Hnd as [? _].
Qed.

(** Access control of [with_vmo]: an unknown handle is [BadHandle], a
    known one without the required rights is [AccessDenied], a handle to
    another kind of object is [WrongType], all three leaving the live
    entries unchanged; only with the rights and on a VMO does the closure
    run, and then it changes that VMO only. *)
Theorem with_vmo_access {R} c (t : Table) hv required (f : Vmo -> R * Vmo) :
  ht_wf c t ->
  (hv ∉ (s_value <$> live t) -> ht_with_vmo t hv required f = (Err BadHandle, t)) /\
  (forall s, s ∈ live t -> s_value s = hv ->
    let '(r, t') := ht_with_vmo t hv required f in
    if check_rights (s_rights s) required then
      match s_object s with
      | KVmo v =>
          r = Ok (fst (f v)) /\
          exists rest, live t ≡ₚ s :: rest /\
            live t' ≡ₚ mkSlot hv (s_rights s) (KVmo (snd (f v))) :: rest
      | _ => r = Err WrongType /\ live t' ≡ₚ live t
      end
    else r = Err AccessDenied /\ t' = t).
Proof.
  intros Hwf. split.
  - intros H%find_slot_absent. unfold ht_with_vmo, ht_with. by rewrite H.
  - intros s Hin <-. unfold ht_with_vmo.
    match goal with |- context [ht_with t (s_value s) required ?F] =>
      pose proof (ht_with_spec c t s required F Hwf Hin) as Hs end.
    destruct (check_rights (s_rights s) required); [|by rewrite Hs].
    destruct Hs as (t' & -> & _ & rest & Hp & Hp').
    destruct s as [hv' r' o]. destruct o as [v| | | | |]; simpl in *.
    2-6: split; [done|by rewrite Hp'].
    destruct (f v) as [x v']. simpl in *. split; [done|]. by exists rest.
Qed.

(** [duplicate_handle] on every branch: the caller-supplied mask is only
    a check on the source entry, only VMOs can be duplicated, a full table
    is [NoMemory], and the new entry has the rights of the source. *)
Theorem duplicate_handle_spec c (t : Table) (s : HSlot) required :
  ht_wf c t -> (0 <= c < 2 ^ 32 - 1)%Z -> s ∈ live t ->
  let '(r, c', t') := ht_duplicate_handle c t (s_value s) required in
  if check_rights (s_rights s) required then
    match s_object s with
    | KVmo v =>
        if bool_decide (length (live t) < MAX_HANDLES) then
          r = Ok c /\ c' = (c + 1)%Z /\ ht_wf c' t' /\
          live t' ≡ₚ mkSlot c (s_rights s) (KVmo (vmo_clone v)) :: live t
        else r = Err NoMemory /\ c' = (c + 1)%Z /\ t' = t
    | _ => r = Err NotAllowed /\ c' = c /\ t' = t
    end
  else r = Err AccessDenied /\ c' = c /\ t' = t.
Proof.
  intros Hwf Hc Hin. destruct (find_slot_unique c t s Hwf Hin) as (i & Hf & Hi & _).
  unfold ht_duplicate_handle. rewrite Hf, Hi.
  destruct (check_rights (s_rights s) required); simpl; [|done].
  destruct (s_object s) as [v| | | | |]; simpl; [|done..].
  case_bool_decide as Hroom.
  - destruct (ht_add_ok c t (KVmo (vmo_clone v)) (s_rights s) Hwf Hc Hroom)
      as (t' & -> & Hwf' & Hp). done.
  - pose proof (live_length_le t). destruct Hwf as (Hl & _).
    rewrite ht_add_full by lia. rewrite u32w_small by lia. done.
Qed.
End properties.

(** ** Witnesses *)
Local Open Scope Z_scope.

#[local] Instance vmo_by_id : VmoLike Z :=
  {| vmo_ident := id; vmo_clone := id; vmo_clone_ident v := eq_refl |}.

(** The loader's table after boot: the BootFS VMO under raw handle 100 and a
    channel pair. *)
Definition demo_table : list (option (Slot Z Z Z)) :=
  snd (ht_exec (1000%Z, ht_new)
         [OpAddRaw 100 (KVmo 7%Z) 3; OpAdd (KChannel 64) 3; OpAdd (KChannel 128) 3]).

Ltac solve_nodup := apply (bool_decide_unpack _); vm_compute; exact I.

Lemma demo_table_wf : ht_wf 1002 demo_table.
Proof. split_and!; [done|solve_nodup|apply (bool_decide_unpack _); vm_compute; exact I]. Qed.

Lemma authority_confined_witness :
  derived_from id id demo_table (mkSlot 1002 3 (KVmo 7%Z)).
Proof.
  apply (authority_confined id id 1002 demo_table [OpDup 100 1; OpRemove 1000; OpRemove 100]).
  - repeat constructor.
  - vm_compute. right. by left.
Defined.

Lemma handles_stay_unique_witness :
  let '(c', t') := ht_exec (1002%Z, demo_table) [OpDup 100 3; OpRemove 1001; OpAdd (KPort 5%Z) 1] in
  ht_wf c' t' /\ (1002 <= c' <= 1002 + 3)%Z /\
  forall s, s ∈ live t' ->
    exists i, find_slot (has_value (s_value s)) t' = Some i /\ t' !! i = Some (Some s).
Proof.
  apply (handles_stay_unique 1002 demo_table [OpDup 100 3; OpRemove 1001; OpAdd (KPort 5%Z) 1]).
  - exact demo_table_wf.
  - lia.
  - vm_compute. reflexivity.
  - repeat constructor.
Defined.

Lemma add_remove_roundtrip_witness :
  exists t1 t2 : list (option (Slot Z Z Z)),
    ht_add 1002 demo_table (KProcess 4) 3 = (Ok 1002%Z, 1003%Z, t1) /\
    ht_remove_with_rights t1 1002 = (Ok (KProcess 4, 3%Z), t2) /\
    live t2 ≡ₚ live demo_table /\ ht_wf 1003 t2 /\
    ht_remove_with_rights t2 1002 = (Err BadHandle, t2).
Proof.
  apply (add_remove_roundtrip 1002 demo_table (KProcess 4) 3).
  - exact demo_table_wf.
  - lia.
  - vm_compute. lia.
Defined.

Lemma with_vmo_access_witness :
  ht_with_vmo demo_table 100 1 (fun v => (v, v)) = (Ok 7%Z, demo_table) /\
  (100 ∉ (s_value <$> live demo_table) ->
   ht_with_vmo demo_table 100 1 (fun v => (v, v)) = (Err BadHandle, demo_table))%Z.
Proof.
  split; [reflexivity|].
  exact (proj1 (with_vmo_access 1002 demo_table 100 1 (fun v => (v, v)) demo_table_wf)).
Defined.

Lemma duplicate_handle_spec_witness :
  let '(r, c', t') := ht_duplicate_handle 1002 demo_table 100 1 in
  r = Ok 1002%Z /\ c' = 1003%Z /\ ht_wf c' t' /\
  live t' ≡ₚ mkSlot 1002 3 (KVmo 7%Z) :: live demo_table.
Proof.
  refine (duplicate_handle_spec 1002 demo_table (mkSlot 100 3 (KVmo 7%Z)) 1 demo_table_wf _ _).
  - lia.
  - vm_compute. by left.
Defined.
