(* ===== verification/Ring.v ===== *)
(** * Ring: circular buffers over fixed arrays

    Index arithmetic shared by the pipe buffers (kernel/src/vfs/pipe.rs) and
    the port queues (kernel/src/ipc/port.rs).  Both keep an array of [N]
    slots and two indices below [N]; the buffer is empty when they are equal
    and holds at most [N - 1] elements.  [first] is the index of the oldest
    element, [last] the index the next one is written to. *)
From Stdlib Require Import ZArith Lia.
From stdpp Require Import base tactics option list list_numbers.
From S2P Require Import Prelude.

Section ring.
Context {A : Type} (N : nat).
Implicit Types (buf : list A) (first last : nat).

Definition ring_next (i : nat) : nat := (i + 1) mod N.

Definition ring_used (first last : nat) : nat := (last + N - first) mod N.

(** The elements from the oldest to the newest. *)
Definition ring_contents (buf : list A) (first last : nat) : list A :=
  omap (fun i => buf !! ((first + i) mod N)) (seq 0 (ring_used first last)).

Lemma mod_wrap a : a < 2 * N -> a mod N = if a <? N then a else a - N.
Proof.
  intros H. destruct (a <? N) eqn:E; reflect.
  - by apply Nat.mod_small.
  - symmetry. apply (Nat.mod_unique a N 1); lia.
Qed.

Lemma ring_next_lt i : 0 < N -> ring_next i < N.
Proof. intros. apply Nat.mod_upper_bound. lia. Qed.

Lemma ring_used_lt first last : 0 < N -> ring_used first last < N.
Proof. intros. apply Nat.mod_upper_bound. lia. Qed.

Lemma ring_used_eq first last :
  first < N -> last < N ->
  ring_used first last = if first <=? last then last - first else last + N - first.
Proof.
  intros Hf Hl. unfold ring_used. rewrite mod_wrap by lia.
  destruct (first <=? last) eqn:E1, (_ <? N) eqn:E2; reflect; lia.
Qed.

Lemma ring_used_zero first last :
  first < N -> last < N -> ring_used first last = 0 <-> first = last.
Proof.
  intros Hf Hl. rewrite ring_used_eq by done.
  destruct (first <=? last) eqn:E; reflect; lia.
Qed.

Lemma ring_used_push first last :
  first < N -> last < N -> ring_next last <> first ->
  ring_used first (ring_next last) = S (ring_used first last).
Proof.
  unfold ring_next. intros Hf Hl. rewrite mod_wrap by lia. intros Hn.
  rewrite !ring_used_eq by (done || (destruct (_ <? N) eqn:E; reflect; lia)).
  destruct (last + 1 <? N) eqn:E1; reflect;
    destruct (first <=? last) eqn:E2; reflect;
    destruct (first <=? _) eqn:E3; reflect; lia.
Qed.

Lemma ring_used_pop first last :
  first < N -> last < N -> first <> last ->
  ring_used first last = S (ring_used (ring_next first) last).
Proof.
  unfold ring_next. intros Hf Hl Hn. rewrite (mod_wrap (first + 1)) by lia.
  rewrite !ring_used_eq by (done || (destruct (_ <? N) eqn:E; reflect; lia)).
  destruct (first + 1 <? N) eqn:E1; reflect;
    destruct (first <=? last) eqn:E2; reflect;
    destruct (_ <=? last) eqn:E3; reflect; lia.
Qed.

Lemma ring_full first last :
  first < N -> last < N ->
  ring_next last = first <-> ring_used first last = N - 1.
Proof.
  unfold ring_next. intros Hf Hl. rewrite mod_wrap, ring_used_eq by lia.
  destruct (last + 1 <? N) eqn:E1; reflect;
    destruct (first <=? last) eqn:E2; reflect; lia.
Qed.

Lemma ring_index_used first last :
  first < N -> last < N -> (first + ring_used first last) mod N = last.
Proof.
  intros Hf Hl. rewrite ring_used_eq by done.
  destruct (first <=? last) eqn:E; reflect; rewrite mod_wrap by lia;
    destruct (_ <? N) eqn:E2; reflect; lia.
Qed.

Lemma ring_index_other first last i :
  first < N -> last < N -> i < ring_used first last -> (first + i) mod N <> last.
Proof.
  intros Hf Hl. rewrite ring_used_eq by done. intros Hi.
  destruct (first <=? last) eqn:E; reflect; rewrite mod_wrap by lia;
    destruct (_ <? N) eqn:E2; reflect; lia.
Qed.

Lemma omap_seq_ext (f g : nat -> option A) n k :
  (forall i, n <= i < n + k -> f i = g i) -> omap f (seq n k) = omap g (seq n k).
Proof.
  revert n. induction k as [|k IH]; intros n H; [done|]. cbn.
  rewrite (H n) by lia. rewrite (IH (S n)); [done|]. intros. apply H. lia.
Qed.

Lemma omap_seq_shift (f : nat -> option A) n k :
  omap f (seq (S n) k) = omap (fun i => f (S i)) (seq n k).
Proof.
  revert n. induction k as [|k IH]; intros n; [done|]. cbn. by rewrite <- IH.
Qed.

Lemma ring_contents_nil buf i : i < N -> ring_contents buf i i = [].
Proof.
  intros H. unfold ring_contents. by rewrite (proj2 (ring_used_zero i i H H) eq_refl).
Qed.

Lemma ring_contents_length buf first last :
  length buf = N -> 0 < N -> length (ring_contents buf first last) = ring_used first last.
Proof.
  intros Hlen HN. unfold ring_contents.
  enough (H : forall k n, length (omap (fun i => buf !! ((first + i) mod N)) (seq n k)) = k)
    by apply H.
  induction k as [|k IH]; intros n; [done|]. cbn.
  destruct (lookup_lt_is_Some_2 buf ((first + n) mod N)) as [x ->].
  { rewrite Hlen. apply Nat.mod_upper_bound. lia. }
  cbn. f_equal. apply IH.
Qed.

(** Writing at [last] appends. *)
Lemma ring_push buf first last x :
  length buf = N -> first < N -> last < N -> ring_next last <> first ->
  ring_contents (<[last := x]> buf) first (ring_next last) =
  ring_contents buf first last ++ [x].
Proof.
  intros Hlen Hf Hl Hn. unfold ring_contents.
  rewrite ring_used_push by done. rewrite seq_S, omap_app. f_equal.
  - apply omap_seq_ext. intros i Hi. apply list_lookup_insert_ne.
    pose proof (ring_index_other first last i Hf Hl). lia.
  - cbn. rewrite ring_index_used by done. by rewrite list_lookup_insert_eq by lia.
Qed.

(** Advancing [first] drops the oldest element. *)
Lemma ring_pop buf first last :
  length buf = N -> first < N -> last < N -> first <> last ->
  exists x, buf !! first = Some x /\
    ring_contents buf first last = x :: ring_contents buf (ring_next first) last.
Proof.
  intros Hlen Hf Hl Hn. destruct (lookup_lt_is_Some_2 buf first) as [x Hx]; [lia|].
  exists x. split; [done|]. unfold ring_contents.
  rewrite ring_used_pop by done. cbn. rewrite Nat.add_0_r, (Nat.mod_small first) by done.
  rewrite Hx. f_equal. rewrite omap_seq_shift. apply omap_seq_ext.
  intros i Hi. simpl. f_equal. unfold ring_next. rewrite Nat.Div0.add_mod_idemp_l.
  f_equal. lia.
Qed.

(** Overwriting a slot outside the occupied part is invisible. *)
Lemma ring_contents_insert_first buf first last x :
  length buf = N -> first < N -> last < N ->
  ring_contents (<[first := x]> buf) (ring_next first) last =
  ring_contents buf (ring_next first) last \/ first = last.
Proof.
  intros Hlen Hf Hl. destruct (decide (first = last)); [by right|left].
  apply omap_seq_ext. intros i Hi. apply list_lookup_insert_ne.
  pose proof (ring_used_pop first last Hf Hl). unfold ring_next in *.
  rewrite Nat.Div0.add_mod_idemp_l.
  pose proof (ring_used_lt first last ltac:(lia)).
  rewrite mod_wrap by lia. destruct (_ <? N) eqn:E; reflect; lia.
Qed.
End ring.
