(* ===== verification/Pipe.v ===== *)
(** * Pipe: the in-kernel pipe table

    kernel/src/vfs/pipe.rs.  Sixteen pipe slots, each a 4 KiB ring buffer
    with reference counts for its two ends, and a monotone id counter.  The
    abstraction of a pipe is the list of bytes in flight. *)
From Stdlib Require Import ZArith Lia.
From stdpp Require Import base tactics option list list_numbers.
From S2P Require Import Prelude Shared Ring.

Definition PIPE_BUF_SIZE : nat := Z.to_nat 4096.
Definition MAX_PIPES : nat := 16.

Lemma pipe_buf_size_gt1 : 1 < PIPE_BUF_SIZE.
Proof. unfold PIPE_BUF_SIZE. lia. Qed.
#[local] Opaque PIPE_BUF_SIZE.

Inductive PipeRole := PRead | PWrite.

#[export] Instance PipeRole_eq_dec : EqDecision PipeRole.
Proof. solve_decision. Defined.

(** Bytes are pushed at [p_head] and popped at [p_tail]. *)
Record Pipe := mkPipe {
  p_buf : list Z;
  p_head : nat;
  p_tail : nat;
  n_readers : nat;
  n_writers : nat
}.

Definition pipe_new_uninit : Pipe := mkPipe (replicate PIPE_BUF_SIZE 0%Z) 0 0 0 0.

(** [PIPES] and [NEXT_PIPE_ID] (an [AtomicUsize]). *)
Record PipeTable := mkPipes { pipes : list (option Pipe); next_pipe_id : Z }.

Definition pipes_init : PipeTable := mkPipes (replicate MAX_PIPES None) 0.

Definition set_pipes (t : PipeTable) (l : list (option Pipe)) : PipeTable :=
  mkPipes l (next_pipe_id t).

Definition alloc_pipe (t : PipeTable) : kresult Z * PipeTable :=
  let new_id := u32w (next_pipe_id t) in
  let next := u64w (next_pipe_id t + 1) in
  if (Z.of_nat MAX_PIPES <=? new_id)%Z then (Err NoMemory, mkPipes (pipes t) next)
  else
    let p := pipe_new_uninit in
    (Ok new_id,
     mkPipes (<[Z.to_nat new_id := Some (mkPipe (p_buf p) (p_head p) (p_tail p) 1 1)]>
                (pipes t)) next).

Definition add_role (role : PipeRole) (p : Pipe) : Pipe :=
  match role with
  | PRead => mkPipe (p_buf p) (p_head p) (p_tail p) (n_readers p + 1) (n_writers p)
  | PWrite => mkPipe (p_buf p) (p_head p) (p_tail p) (n_readers p) (n_writers p + 1)
  end.

(** [PIPES[id]] with [id >= MAX_PIPES] is an index panic: [None]. *)
Definition pipe_clone_role (t : PipeTable) (id : Z) (role : PipeRole) : option PipeTable :=
  match pipes t !! Z.to_nat id with
  | None => None
  | Some None => Some t
  | Some (Some p) => Some (set_pipes t (<[Z.to_nat id := Some (add_role role p)]> (pipes t)))
  end.

Definition drop_role (role : PipeRole) (p : Pipe) : Pipe :=
  match role with
  | PRead => mkPipe (p_buf p) (p_head p) (p_tail p)
               (if 0 <? n_readers p then n_readers p - 1 else n_readers p) (n_writers p)
  | PWrite => mkPipe (p_buf p) (p_head p) (p_tail p) (n_readers p)
               (if 0 <? n_writers p then n_writers p - 1 else n_writers p)
  end.

Definition pipe_close_role (t : PipeTable) (id : Z) (role : PipeRole) : option PipeTable :=
  match pipes t !! Z.to_nat id with
  | None => None
  | Some None => Some t
  | Some (Some p) =>
      let p' := drop_role role p in
      let slot := if (n_readers p' =? 0) && (n_writers p' =? 0) then None else Some p' in
      Some (set_pipes t (<[Z.to_nat id := slot]> (pipes t)))
  end.

(** The [while n < buf.len()] loop of [pipe_read]: [want] is
    [buf.len() - n], [acc] the bytes already stored in [buf]. *)
Fixpoint pipe_read_loop (want : nat) (p : Pipe) (acc : list Z) : option (list Z * Pipe) :=
  match want with
  | 0 => Some (acc, p)
  | S want' =>
      if p_head p =? p_tail p then Some (acc, p)
      else
        match p_buf p !! p_tail p with
        | None => None
        | Some b =>
            pipe_read_loop want'
              (mkPipe (p_buf p) (p_head p) ((p_tail p + 1) mod PIPE_BUF_SIZE)
                 (n_readers p) (n_writers p)) (acc ++ [b])
        end
  end.

(** [Ok bs] stands for [Ok(n)] with the first [n] bytes of [buf] set to [bs]. *)
Definition pipe_read (t : PipeTable) (id : Z) (want : nat)
  : option (kresult (list Z) * PipeTable) :=
  match pipes t !! Z.to_nat id with
  | None => None
  | Some None => Some (Err BadHandle, t)
  | Some (Some p) =>
      if (n_writers p =? 0) && (p_head p =? p_tail p) then Some (Ok [], t)
      else
        match pipe_read_loop want p [] with
        | None => None
        | Some (bs, p') =>
            Some (Ok bs, set_pipes t (<[Z.to_nat id := Some p']> (pipes t)))
        end
  end.

Fixpoint pipe_write_loop (data : list Z) (n : nat) (p : Pipe) : kresult nat * Pipe :=
  match data with
  | [] => (Ok n, p)
  | b :: rest =>
      let next_head := (p_head p + 1) mod PIPE_BUF_SIZE in
      if next_head =? p_tail p then
        (if n =? 0 then Err NotAllowed else Ok n, p)
      else
        pipe_write_loop rest (n + 1)
          (mkPipe (<[p_head p := b]> (p_buf p)) next_head (p_tail p)
             (n_readers p) (n_writers p))
  end.

Definition pipe_write (t : PipeTable) (id : Z) (data : list Z)
  : option (kresult nat * PipeTable) :=
  match pipes t !! Z.to_nat id with
  | None => None
  | Some None => Some (Err BadHandle, t)
  | Some (Some p) =>
      if n_readers p =? 0 then Some (Err PeerClosed, t)
      else
        let '(r, p') := pipe_write_loop data 0 p in
        Some (r, set_pipes t (<[Z.to_nat id := Some p']> (pipes t)))
  end.

(** ** Invariant and abstraction *)

Definition pipe_wf (p : Pipe) : Prop :=
  length (p_buf p) = PIPE_BUF_SIZE /\ p_head p < PIPE_BUF_SIZE /\ p_tail p < PIPE_BUF_SIZE.

Definition pipe_contents (p : Pipe) : list Z :=
  ring_contents PIPE_BUF_SIZE (p_buf p) (p_tail p) (p_head p).

(** Every pipe of the table is well formed and no slot keeps a pipe whose
    two ends are gone; slots not yet handed out are free. *)
Definition pipes_wf (t : PipeTable) : Prop :=
  length (pipes t) = MAX_PIPES /\ (0 <= next_pipe_id t < 2 ^ 32)%Z /\
  forall i p, pipes t !! i = Some (Some p) ->
    pipe_wf p /\ 0 < n_readers p + n_writers p /\ (Z.of_nat i < next_pipe_id t)%Z.

(** The specification: a pipe is a bounded FIFO of bytes. *)
Record SpecPipe := mkSpec { sp_bytes : list Z; sp_readers : nat; sp_writers : nat }.

Definition spec_read (s : SpecPipe) (want : nat) : kresult (list Z) * SpecPipe :=
  (Ok (take want (sp_bytes s)),
   mkSpec (drop want (sp_bytes s)) (sp_readers s) (sp_writers s)).

Definition spec_write (s : SpecPipe) (data : list Z) : kresult nat * SpecPipe :=
  if sp_readers s =? 0 then (Err PeerClosed, s)
  else
    let room := PIPE_BUF_SIZE - 1 - length (sp_bytes s) in
    if (room =? 0) && negb (length data =? 0) then (Err NotAllowed, s)
    else (Ok (min (length data) room),
          mkSpec (sp_bytes s ++ take room data) (sp_readers s) (sp_writers s)).

Definition abs_pipe (p : Pipe) : SpecPipe :=
  mkSpec (pipe_contents p) (n_readers p) (n_writers p).

Lemma pipe_contents_bound p :
  pipe_wf p -> length (pipe_contents p) <= PIPE_BUF_SIZE - 1.
Proof.
  intros (Hl & Hh & Ht). pose proof pipe_buf_size_gt1. unfold pipe_contents.
  rewrite ring_contents_length by lia.
  pose proof (ring_used_lt PIPE_BUF_SIZE (p_tail p) (p_head p)). lia.
Qed.

Lemma pipe_empty p : pipe_wf p -> p_head p = p_tail p <-> pipe_contents p = [].
Proof.
  intros (Hl & Hh & Ht). pose proof pipe_buf_size_gt1.
  rewrite <- length_zero_iff_nil. unfold pipe_contents.
  rewrite ring_contents_length by lia.
  rewrite (ring_used_zero PIPE_BUF_SIZE) by done. naive_solver.
Qed.

Lemma pipe_full p :
  pipe_wf p ->
  (p_head p + 1) mod PIPE_BUF_SIZE = p_tail p <->
  length (pipe_contents p) = PIPE_BUF_SIZE - 1.
Proof.
  intros (Hl & Hh & Ht). pose proof pipe_buf_size_gt1. unfold pipe_contents.
  rewrite ring_contents_length by lia. apply (ring_full PIPE_BUF_SIZE); done.
Qed.

Lemma pipe_read_loop_spec want p acc :
  pipe_wf p ->
  exists p', pipe_read_loop want p acc = Some (acc ++ take want (pipe_contents p), p') /\
    pipe_wf p' /\ pipe_contents p' = drop want (pipe_contents p) /\
    n_readers p' = n_readers p /\ n_writers p' = n_writers p.
Proof.
  revert p acc. induction want as [|want IH]; intros p acc Hwf; simpl.
  { exists p. by rewrite app_nil_r, drop_0. }
  destruct (p_head p =? p_tail p) eqn:He; reflect.
  { apply (pipe_empty p Hwf) in He. exists p. rewrite He.
    by rewrite app_nil_r. }
  pose proof Hwf as (Hl & Hh & Ht). pose proof pipe_buf_size_gt1.
  destruct (ring_pop PIPE_BUF_SIZE (p_buf p) (p_tail p) (p_head p)) as (x & Hx & Hc);
    [done..|congruence|].
  rewrite Hx.
  edestruct (IH (mkPipe (p_buf p) (p_head p) ((p_tail p + 1) mod PIPE_BUF_SIZE)
                   (n_readers p) (n_writers p)) (acc ++ [x])) as (p' & Hr & Hw' & Hc' & Hn).
  { split_and!; simpl; [done..|]. apply ring_next_lt. lia. }
  exists p'. unfold pipe_contents in *. simpl in *. rewrite Hc. simpl.
  unfold ring_next in *. rewrite Hr, Hc', <- app_assoc. done.
Qed.

Lemma pipe_write_loop_spec data n p :
  pipe_wf p ->
  let room := PIPE_BUF_SIZE - 1 - length (pipe_contents p) in
  exists p',
    pipe_write_loop data n p =
      (if (n =? 0) && (room =? 0) && negb (length data =? 0) then Err NotAllowed
       else Ok (n + min (length data) room), p') /\
    pipe_wf p' /\ pipe_contents p' = pipe_contents p ++ take room data /\
    n_readers p' = n_readers p /\ n_writers p' = n_writers p.
Proof.
  revert n p. induction data as [|b data IH]; intros n p Hwf; simpl.
  { exists p. rewrite take_nil, app_nil_r, andb_false_r. simpl.
    by rewrite Nat.add_0_r. }
  pose proof pipe_buf_size_gt1. pose proof (pipe_contents_bound p Hwf).
  destruct (_ =? p_tail p) eqn:Hfull; reflect.
  - apply (pipe_full p Hwf) in Hfull. exists p.
    rewrite Hfull, Nat.sub_diag, andb_true_r, take_0, app_nil_r. simpl.
    rewrite andb_true_r, Nat.add_0_r. done.
  - pose proof Hfull as Hroom. rewrite (pipe_full p Hwf) in Hroom.
    pose proof Hwf as (Hl & Hh & Ht).
    assert (Hc : pipe_contents (mkPipe (<[p_head p := b]> (p_buf p))
                   ((p_head p + 1) mod PIPE_BUF_SIZE) (p_tail p) (n_readers p) (n_writers p))
                 = pipe_contents p ++ [b]).
    { unfold pipe_contents. simpl. by apply (ring_push PIPE_BUF_SIZE). }
    destruct (IH (n + 1) (mkPipe (<[p_head p := b]> (p_buf p))
                   ((p_head p + 1) mod PIPE_BUF_SIZE) (p_tail p) (n_readers p) (n_writers p)))
      as (p' & Hr & Hw' & Hc' & Hn1 & Hn2); [|exists p'].
    { split_and!; cbn [p_buf p_head p_tail]; [by rewrite length_insert| |done].
      apply ring_next_lt. lia. }
    rewrite Hr. rewrite Hc in *. rewrite length_app in *. simpl length in *.
    remember (PIPE_BUF_SIZE - 1 - length (pipe_contents p)) as room eqn:Eroom.
    replace (PIPE_BUF_SIZE - 1 - (length (pipe_contents p) + 1)) with (room - 1) in * by lia.
    assert ((n + 1 =? 0) = false) as -> by (apply Nat.eqb_neq; lia).
    assert ((room =? 0) = false) as -> by (apply Nat.eqb_neq; lia).
    rewrite andb_false_r. cbn [andb].
    destruct room as [|room]; [lia|]. simpl in *. rewrite Nat.sub_0_r in *.
    split_and!; [by replace (n + 1 + _) with (n + S (length data `min` room)) by lia|done| |done..].
    rewrite Hc', <- app_assoc. done.
Qed.

(** ** The table *)
Lemma pipes_init_wf : pipes_wf pipes_init.
Proof.
  split_and!; [done|done|done|]. intros i p Hi. cbn [pipes_init pipes] in Hi.
  apply lookup_replicate in Hi as [[=] _].
Qed.

(** Updating one slot of a well-formed table. *)
Lemma pipes_wf_update t i o :
  pipes_wf t ->
  (forall p, o = Some p ->
    pipe_wf p /\ 0 < n_readers p + n_writers p /\ (Z.of_nat i < next_pipe_id t)%Z) ->
  pipes_wf (set_pipes t (<[i := o]> (pipes t))).
Proof.
  intros (Hl & Hn & Hw) Ho. split_and!; cbn [set_pipes pipes next_pipe_id];
    [by rewrite length_insert|lia|lia|].
  intros j p Hj. destruct (decide (i = j)) as [->|Hne].
  - assert (j < length (pipes t)).
    { apply lookup_lt_Some in Hj. by rewrite length_insert in Hj. }
    rewrite list_lookup_insert_eq in Hj by done. apply Ho. congruence.
  - rewrite list_lookup_insert_ne in Hj by done. by apply Hw.
Qed.

(** ** Operations of the table, and their specification

    The specification of the table is a table of bounded FIFOs with end
    counts; a slot index is handed out once. *)
Inductive pipe_op :=
| OAlloc
| OClone (id : Z) (role : PipeRole)
| OClose (id : Z) (role : PipeRole)
| ORead (id : Z) (want : nat)
| OWrite (id : Z) (data : list Z).

Inductive pipe_resp :=
| RUnit
| RId (r : kresult Z)
| RBytes (r : kresult (list Z))
| RCount (r : kresult nat).

Definition pipe_do (t : PipeTable) (op : pipe_op) : option (pipe_resp * PipeTable) :=
  match op with
  | OAlloc => let '(r, t') := alloc_pipe t in Some (RId r, t')
  | OClone id role => (fun t' => (RUnit, t')) <$> pipe_clone_role t id role
  | OClose id role => (fun t' => (RUnit, t')) <$> pipe_close_role t id role
  | ORead id want => (fun rt => (RBytes rt.1, rt.2)) <$> pipe_read t id want
  | OWrite id data => (fun rt => (RCount rt.1, rt.2)) <$> pipe_write t id data
  end.

Fixpoint pipe_run (t : PipeTable) (ops : list pipe_op) : option (list pipe_resp * PipeTable) :=
  match ops with
  | [] => Some ([], t)
  | op :: ops' =>
      '(r, t1) ← pipe_do t op; '(rs, t2) ← pipe_run t1 ops'; Some (r :: rs, t2)
  end.

(** The pipe an operation names. *)
Definition op_target (op : pipe_op) : option Z :=
  match op with
  | OAlloc => None
  | OClone id _ | OClose id _ | ORead id _ | OWrite id _ => Some id
  end.

Definition op_in_range (op : pipe_op) : Prop :=
  match op_target op with None => True | Some id => (0 <= id < Z.of_nat MAX_PIPES)%Z end.

Record SpecTable := mkSpecTable { st_pipes : list (option SpecPipe); st_used : Z }.

Definition spec_ends (role : PipeRole) (f : nat -> nat) (s : SpecPipe) : SpecPipe :=
  match role with
  | PRead => mkSpec (sp_bytes s) (f (sp_readers s)) (sp_writers s)
  | PWrite => mkSpec (sp_bytes s) (sp_readers s) (f (sp_writers s))
  end.

Definition spec_alive (s : SpecPipe) : option SpecPipe :=
  if sp_readers s + sp_writers s =? 0 then None else Some s.

(** Act on slot [id] when it holds a pipe, answer [dflt] otherwise. *)
Definition spec_at (t : SpecTable) (id : Z) (dflt : pipe_resp)
    (f : SpecPipe -> pipe_resp * option SpecPipe) : pipe_resp * SpecTable :=
  match st_pipes t !! Z.to_nat id with
  | Some (Some s) =>
      let '(r, o) := f s in
      (r, mkSpecTable (<[Z.to_nat id := o]> (st_pipes t)) (st_used t))
  | _ => (dflt, t)
  end.

Definition spec_do (t : SpecTable) (op : pipe_op) : pipe_resp * SpecTable :=
  match op with
  | OAlloc =>
      if (st_used t <? Z.of_nat MAX_PIPES)%Z
      then (RId (Ok (st_used t)),
            mkSpecTable (<[Z.to_nat (st_used t) := Some (mkSpec [] 1 1)]> (st_pipes t))
              (st_used t + 1))
      else (RId (Err NoMemory), mkSpecTable (st_pipes t) (st_used t + 1))
  | OClone id role =>
      spec_at t id RUnit (fun s => (RUnit, Some (spec_ends role (fun n => n + 1) s)))
  | OClose id role => spec_at t id RUnit (fun s => (RUnit, spec_alive (spec_ends role pred s)))
  | ORead id want =>
      spec_at t id (RBytes (Err BadHandle))
        (fun s => let '(r, s') := spec_read s want in (RBytes r, Some s'))
  | OWrite id data =>
      spec_at t id (RCount (Err BadHandle))
        (fun s => let '(r, s') := spec_write s data in (RCount r, Some s'))
  end.

Definition abs_table (t : PipeTable) : SpecTable :=
  mkSpecTable (map (option_map abs_pipe) (pipes t)) (next_pipe_id t).

(** ** One pipe at a time *)
Lemma pipe_read_spec t id want p :
  pipes_wf t -> pipes t !! Z.to_nat id = Some (Some p) ->
  exists p', pipe_read t id want =
      Some (Ok (take want (pipe_contents p)), set_pipes t (<[Z.to_nat id := Some p']> (pipes t))) /\
    abs_pipe p' = (spec_read (abs_pipe p) want).2 /\ pipe_wf p' /\
    n_readers p' + n_writers p' = n_readers p + n_writers p.
Proof.
  intros (_ & _ & Hw) Hp. destruct (Hw _ _ Hp) as (Hpw & _ & _).
  unfold pipe_read. rewrite Hp. unfold spec_read, abs_pipe. cbn.
  destruct ((n_writers p =? 0) && (p_head p =? p_tail p)) eqn:Heof.
  - apply andb_prop in Heof as [_ He%Nat.eqb_eq]. apply (pipe_empty p Hpw) in He.
    exists p. rewrite He, take_nil, drop_nil, list_insert_id by done. by destruct t.
  - destruct (pipe_read_loop_spec want p [] Hpw) as (p' & -> & Hw' & Hc' & Hr' & Hwr').
    exists p'. split_and!; [done|congruence|done|lia].
Qed.

Lemma pipe_write_spec t id data p :
  pipes_wf t -> pipes t !! Z.to_nat id = Some (Some p) ->
  exists p', pipe_write t id data =
      Some ((spec_write (abs_pipe p) data).1, set_pipes t (<[Z.to_nat id := Some p']> (pipes t))) /\
    abs_pipe p' = (spec_write (abs_pipe p) data).2 /\ pipe_wf p' /\
    n_readers p' + n_writers p' = n_readers p + n_writers p.
Proof.
  intros (_ & _ & Hw) Hp. destruct (Hw _ _ Hp) as (Hpw & _ & _).
  unfold pipe_write. rewrite Hp. unfold spec_write, abs_pipe. cbn [sp_readers sp_bytes sp_writers].
  destruct (n_readers p =? 0).
  { exists p. rewrite list_insert_id by done. by destruct t. }
  destruct (pipe_write_loop_spec data 0 p Hpw) as (p' & -> & Hw' & Hc' & Hr' & Hwr').
  exists p'. rewrite Hc', Hr', Hwr'. cbn [Nat.eqb andb].
  destruct (_ && negb _) eqn:E; split_and!; try done.
  apply andb_prop in E as [->%Nat.eqb_eq _]. by rewrite take_0, app_nil_r.
Qed.

(** ** The simulation *)
Lemma abs_lookup t i : st_pipes (abs_table t) !! i = option_map abs_pipe <$> pipes t !! i.
Proof. apply list_lookup_fmap. Qed.

Lemma abs_update t i o :
  abs_table (set_pipes t (<[i := o]> (pipes t))) =
  mkSpecTable (<[i := abs_pipe <$> o]> (st_pipes (abs_table t))) (st_used (abs_table t)).
Proof. unfold abs_table. cbn. by rewrite list_fmap_insert. Qed.

Lemma abs_new : abs_pipe (mkPipe (replicate PIPE_BUF_SIZE 0%Z) 0 0 1 1) = mkSpec [] 1 1.
Proof.
  unfold abs_pipe, pipe_contents. cbn. pose proof pipe_buf_size_gt1.
  by rewrite ring_contents_nil by lia.
Qed.

Lemma abs_ends role p :
  abs_pipe (add_role role p) = spec_ends role (fun n => n + 1) (abs_pipe p) /\
  abs_pipe (drop_role role p) = spec_ends role pred (abs_pipe p).
Proof.
  destruct role; unfold abs_pipe; cbn; repeat case_match; reflect; split; try done; f_equal; lia.
Qed.

Lemma role_wf role p : pipe_wf p -> pipe_wf (add_role role p) /\ pipe_wf (drop_role role p).
Proof. by destruct role. Qed.

Lemma alloc_pipe_sim t :
  pipes_wf t -> (next_pipe_id t + 1 < 2 ^ 32)%Z ->
  let '(r, t') := alloc_pipe t in
  pipes_wf t' /\ next_pipe_id t' = (next_pipe_id t + 1)%Z /\
  spec_do (abs_table t) OAlloc = (RId r, abs_table t').
Proof.
  intros (Hl & Hn & Hw) Hb. unfold alloc_pipe.
  rewrite u32w_small, u64w_small by lia. cbn [spec_do abs_table st_used].
  rewrite Z.ltb_antisym. destruct (_ <=? _)%Z eqn:E; reflect; cbn [negb].
  - split; [|done]. split; [done|]. split; cbn [pipes next_pipe_id]; [lia|].
    intros i p Hp. destruct (Hw i p Hp) as (? & ? & ?). split_and!; [done..|lia].
  - split; [split; [unfold set_pipes; cbn [pipes]; by rewrite length_insert|split; cbn [pipes next_pipe_id]; [lia|]]|split; [done|]].
    + intros i p Hp. destruct (decide (i = Z.to_nat (next_pipe_id t))) as [->|Hne].
      * rewrite list_lookup_insert_eq in Hp by (rewrite Hl; unfold MAX_PIPES in *; lia).
        injection Hp as <-. pose proof pipe_buf_size_gt1.
        split; [split; [apply length_replicate|simpl; lia]|simpl; lia].
      * rewrite list_lookup_insert_ne in Hp by done.
        destruct (Hw i p Hp) as (? & ? & ?). split_and!; [done..|lia].
    + unfold abs_table. cbn [pipes next_pipe_id st_pipes pipe_new_uninit p_buf p_head p_tail].
      rewrite list_fmap_insert. cbn [fmap option_fmap option_map]. by rewrite abs_new.
Qed.

(** Replacing a live pipe by one that is still held keeps the invariant. *)
Lemma pipes_wf_keep t id p o :
  pipes_wf t -> pipes t !! Z.to_nat id = Some (Some p) ->
  (forall p', o = Some p' -> pipe_wf p' /\ 0 < n_readers p' + n_writers p') ->
  pipes_wf (set_pipes t (<[Z.to_nat id := o]> (pipes t))).
Proof.
  intros Hwf Hp Ho. apply pipes_wf_update; [done|]. intros p' Hp'.
  destruct (Ho p' Hp') as [? ?]. split_and!; [done..|]. by apply Hwf in Hp as (_ & _ & ?).
Qed.

Lemma pipes_slot t id :
  pipes_wf t -> (0 <= id < Z.of_nat MAX_PIPES)%Z ->
  exists o, pipes t !! Z.to_nat id = Some o /\
    st_pipes (abs_table t) !! Z.to_nat id = Some (abs_pipe <$> o).
Proof.
  intros (Hl & _) Hid. destruct (lookup_lt_is_Some_2 (pipes t) (Z.to_nat id)) as [o Ho].
  { rewrite Hl. lia. }
  exists o. by rewrite abs_lookup, Ho.
Qed.

(** What one step of the table and of its specification must agree on. *)
Definition pipe_sim (t : PipeTable) (op : pipe_op) : Prop :=
  exists r t', pipe_do t op = Some (r, t') /\
    spec_do (abs_table t) op = (r, abs_table t') /\ pipes_wf t' /\
    (next_pipe_id t <= next_pipe_id t' <= next_pipe_id t + 1)%Z.

Lemma pipe_ends_sim t id role :
  pipes_wf t -> (0 <= id < Z.of_nat MAX_PIPES)%Z ->
  pipe_sim t (OClone id role) /\ pipe_sim t (OClose id role).
Proof.
  intros Hwf Hid. unfold pipe_sim. cbn [pipe_do spec_do].
  unfold pipe_clone_role, pipe_close_role, spec_at.
  destruct (pipes_slot t id Hwf Hid) as ([p|] & Hp & Ha); rewrite Hp, Ha;
    [|split; eexists _, _; split_and!; [done..|simpl; lia|done|done|done|simpl; lia|simpl; lia]].
  pose proof Hwf as (_ & _ & Hw). destruct (Hw _ _ Hp) as (Hpw & Hc & _).
  split; eexists _, _; (split; [done|]; split; [rewrite abs_update|split; [|simpl; lia]]).
  - cbn. by rewrite (proj1 (abs_ends role p)).
  - apply (pipes_wf_keep t id p _ Hwf Hp). intros ? [= <-].
    split; [by apply role_wf|]. destruct role; simpl; lia.
  - cbn. rewrite <- (proj2 (abs_ends role p)). unfold spec_alive, abs_pipe. cbn.
    destruct (n_readers _ =? 0) eqn:E1, (n_writers _ =? 0) eqn:E2; reflect;
      destruct (_ + _ =? 0) eqn:E3; reflect; try done; lia.
  - apply (pipes_wf_keep t id p _ Hwf Hp). intros p'.
    destruct (_ && _) eqn:E; [done|]. intros [= <-]. split; [by apply role_wf|].
    apply andb_false_iff in E as [?%Nat.eqb_neq|?%Nat.eqb_neq]; lia.
Qed.

Lemma pipe_transfer_sim t id want data :
  pipes_wf t -> (0 <= id < Z.of_nat MAX_PIPES)%Z ->
  pipe_sim t (ORead id want) /\ pipe_sim t (OWrite id data).
Proof.
  intros Hwf Hid. unfold pipe_sim. cbn [pipe_do spec_do]. unfold spec_at.
  destruct (pipes_slot t id Hwf Hid) as ([p|] & Hp & Ha); rewrite Ha; cbn [fmap option_fmap option_map].
  2:{ unfold pipe_read, pipe_write. rewrite Hp.
      split; eexists _, _; split_and!; [done..|simpl; lia|done|done|done|simpl; lia|simpl; lia]. }
  pose proof Hwf as (_ & _ & Hw). destruct (Hw _ _ Hp) as (Hpw & Hc & _). split.
  - destruct (pipe_read_spec t id want p Hwf Hp) as (p' & -> & Hs & Hw' & Hc').
    eexists _, _. split_and!; [done| | |simpl; lia..].
    + cbn [snd]. rewrite abs_update. cbn. by rewrite Hs.
    + apply (pipes_wf_keep t id p _ Hwf Hp). intros ? [= <-]. split; [done|lia].
  - destruct (pipe_write_spec t id data p Hwf Hp) as (p' & -> & Hs & Hw' & Hc').
    eexists _, _. split_and!; [done| | |simpl; lia..].
    + cbn [snd]. rewrite abs_update. cbn [fmap option_fmap option_map]. rewrite Hs.
      by destruct (spec_write _ _).
    + apply (pipes_wf_keep t id p _ Hwf Hp). intros ? [= <-]. split; [done|lia].
Qed.

Lemma pipe_do_sim t op :
  pipes_wf t -> op_in_range op -> (next_pipe_id t + 1 < 2 ^ 32)%Z -> pipe_sim t op.
Proof.
  intros Hwf Hop Hb. destruct op as [|id role|id role|id want|id data].
  - pose proof (alloc_pipe_sim t Hwf Hb) as Hs. unfold pipe_sim. cbn [pipe_do].
    destruct (alloc_pipe t) as [r t']. destruct Hs as (? & ? & ?).
    exists (RId r), t'. split_and!; [done..|lia|lia].
  - by apply pipe_ends_sim.
  - by apply pipe_ends_sim.
  - by apply (pipe_transfer_sim t id want []).
  - by apply (pipe_transfer_sim t id 0 data).
Qed.

Fixpoint spec_run (t : SpecTable) (ops : list pipe_op) : list pipe_resp * SpecTable :=
  match ops with
  | [] => ([], t)
  | op :: ops' =>
      let '(r, t1) := spec_do t op in
      let '(rs, t2) := spec_run t1 ops' in (r :: rs, t2)
  end.

Lemma pipe_run_sim ops t :
  pipes_wf t -> Forall op_in_range ops ->
  (next_pipe_id t + Z.of_nat (length ops) < 2 ^ 32)%Z ->
  exists rs t', pipe_run t ops = Some (rs, t') /\
    spec_run (abs_table t) ops = (rs, abs_table t') /\ pipes_wf t' /\
    (next_pipe_id t <= next_pipe_id t')%Z.
Proof.
  revert t. induction ops as [|op ops IH]; intros t Hwf Hops Hb.
  { exists [], t. split_and!; [done..|lia]. }
  apply Forall_cons in Hops as [Hop Hops]. simpl length in Hb.
  destruct (pipe_do_sim t op Hwf Hop ltac:(lia)) as (r & t1 & Hd & Hs & Hwf1 & Hn1).
  destruct (IH t1 Hwf1 Hops ltac:(lia)) as (rs & t2 & Hd2 & Hs2 & Hwf2 & Hn2).
  exists (r :: rs), t2. cbn [pipe_run spec_run]. rewrite Hd, Hs. cbn. rewrite Hd2, Hs2.
  split_and!; [done..|lia].
Qed.

(** ** Bytes through one pipe

    The bytes the responses of a run took out of pipe [id], and those its
    writes put in. *)
Definition op_out (id : Z) (op : pipe_op) (r : pipe_resp) : list Z :=
  match op, r with
  | ORead id' _, RBytes (Ok bs) => if (id' =? id)%Z then bs else []
  | _, _ => []
  end.

Definition op_in (id : Z) (op : pipe_op) (r : pipe_resp) : list Z :=
  match op, r with
  | OWrite id' data, RCount (Ok n) => if (id' =? id)%Z then take n data else []
  | _, _ => []
  end.

Fixpoint run_bytes (f : pipe_op -> pipe_resp -> list Z) (ops : list pipe_op)
    (rs : list pipe_resp) : list Z :=
  match ops, rs with
  | op :: ops', r :: rs' => f op r ++ run_bytes f ops' rs'
  | _, _ => []
  end.

Definition keeps_open (id : Z) (op : pipe_op) : Prop :=
  match op with OClose id' _ => id' <> id | _ => True end.

(** Slots that [alloc_pipe] has not handed out are free. *)
Definition spec_fresh (t : SpecTable) : Prop :=
  forall i s, st_pipes t !! i = Some (Some s) -> (Z.of_nat i < st_used t)%Z.

Lemma spec_at_other t id id' dflt f r t' :
  spec_at t id' dflt f = (r, t') -> Z.to_nat id' <> Z.to_nat id ->
  st_pipes t' !! Z.to_nat id = st_pipes t !! Z.to_nat id.
Proof.
  unfold spec_at. intros H Hne. destruct (st_pipes t !! Z.to_nat id') as [[s|]|]; simplify_eq; [|done..].
  destruct (f s). simplify_eq. cbn. by apply list_lookup_insert_ne.
Qed.

(** One step of the specification moves bytes between the pipe and its
    users, in order. *)
Lemma spec_do_bytes t op id s r t' :
  (0 <= id)%Z -> op_in_range op -> keeps_open id op -> spec_fresh t -> (0 <= st_used t)%Z ->
  st_pipes t !! Z.to_nat id = Some (Some s) ->
  spec_do t op = (r, t') ->
  exists s', st_pipes t' !! Z.to_nat id = Some (Some s') /\
    op_out id op r ++ sp_bytes s' = sp_bytes s ++ op_in id op r.
Proof.
  intros Hid0 Hop Hk Hf Hu Hs Hd.
  pose proof (lookup_lt_Some _ _ _ Hs) as Hlt.
  destruct (decide (op_target op = Some id)) as [Ht|Ht].
  - destruct op as [|? role|? role|? want|? data]; simplify_eq/=;
      unfold spec_at in Hd; rewrite Hs in Hd; simplify_eq/=; try rewrite Z.eqb_refl;
      try rewrite list_lookup_insert_eq by done.
    + eexists. split; [done|]. destruct role; simpl; by rewrite app_nil_r.
    + eexists. split; [done|]. simpl. by rewrite app_nil_r, take_drop.
    + unfold spec_write in Hd. repeat case_match; simplify_eq/=;
        rewrite ?list_lookup_insert_eq by done; eexists; (split; [done|]);
        rewrite ?Z.eqb_refl; simpl; rewrite ?app_nil_r; try done.
      f_equal. destruct (Nat.min_spec (length data) (PIPE_BUF_SIZE - 1 - length (sp_bytes s)))
        as [[? ->]|[? ->]]; [|done]. rewrite !take_ge by lia. done.
  - exists s. assert (Hsame : st_pipes t' !! Z.to_nat id = st_pipes t !! Z.to_nat id).
    { destruct op as [|id' ?|id' ?|id' ?|id' ?]; cbn [spec_do] in Hd.
      - destruct (_ <? _)%Z; simplify_eq; [|done]. cbn.
        apply Hf in Hs. apply list_lookup_insert_ne. lia.
      - eapply spec_at_other; [done|]. unfold op_in_range in Hop. simpl in *. intros ?.
        apply Ht. f_equal. lia.
      - eapply spec_at_other; [done|]. unfold op_in_range in Hop. simpl in *. intros ?.
        apply Ht. f_equal. lia.
      - eapply spec_at_other; [done|]. unfold op_in_range in Hop. simpl in *. intros ?.
        apply Ht. f_equal. lia.
      - eapply spec_at_other; [done|]. unfold op_in_range in Hop. simpl in *. intros ?.
        apply Ht. f_equal. lia. }
    rewrite Hsame. split; [done|].
    assert (op_out id op r = []) as ->.
    { destruct op, r as [| |[]|]; try done. simpl. case_match; reflect; [|done]. subst.
      by destruct Ht. }
    assert (op_in id op r = []) as ->; [|by rewrite app_nil_r].
    destruct op, r as [| | |[]]; try done. simpl. case_match; reflect; [|done]. subst.
    by destruct Ht.
Qed.

Lemma abs_fresh t : pipes_wf t -> spec_fresh (abs_table t).
Proof.
  intros (_ & _ & Hw) i s Hs. rewrite abs_lookup in Hs.
  destruct (pipes t !! i) as [[p|]|] eqn:Hp; simplify_eq/=. by apply Hw in Hp as (_ & _ & ?).
Qed.

Lemma pipe_run_bytes ops t id s rs t' :
  pipes_wf t -> (0 <= id)%Z -> Forall op_in_range ops -> Forall (keeps_open id) ops ->
  (next_pipe_id t + Z.of_nat (length ops) < 2 ^ 32)%Z ->
  st_pipes (abs_table t) !! Z.to_nat id = Some (Some s) ->
  pipe_run t ops = Some (rs, t') ->
  exists s', st_pipes (abs_table t') !! Z.to_nat id = Some (Some s') /\
    run_bytes (op_out id) ops rs ++ sp_bytes s' = sp_bytes s ++ run_bytes (op_in id) ops rs.
Proof.
  revert t s rs. induction ops as [|op ops IH]; intros t s rs Hwf Hid Hops Hk Hb Hs Hrun.
  { injection Hrun as <- <-. exists s. by rewrite app_nil_r. }
  apply Forall_cons in Hops as [Hop Hops]. apply Forall_cons in Hk as [Hk1 Hk].
  simpl length in Hb.
  destruct (pipe_do_sim t op Hwf Hop ltac:(lia)) as (r & t1 & Hd & Hsp & Hwf1 & Hn1).
  cbn [pipe_run] in Hrun. rewrite Hd in Hrun. cbn in Hrun.
  destruct (pipe_run t1 ops) as [[rs1 t2]|] eqn:Hrun1; [|done]. cbn in Hrun. simplify_eq.
  destruct (spec_do_bytes (abs_table t) op id s r (abs_table t1) Hid Hop Hk1
              (abs_fresh t Hwf) ltac:(destruct Hwf as (_ & ? & _); simpl; lia) Hs Hsp)
    as (s1 & Hs1 & Hb1).
  destruct (IH t1 s1 rs1 Hwf1 Hid Hops Hk ltac:(lia) Hs1 Hrun1) as (s2 & Hs2 & Hb2).
  exists s2. split; [done|]. cbn [run_bytes].
  rewrite <- app_assoc, Hb2, !app_assoc, Hb1. done.
Qed.

(** ** Properties *)

(** C2. The pipe table implements a table of bounded byte FIFOs: from any
    well-formed table, every sequence of allocations, end duplications and
    closes, reads and writes with ids below [MAX_PIPES] returns (it never
    panics), answers exactly as the specification does on the abstract
    queues, and leaves a well-formed table.  The bound on the id counter is
    the point where its [as u32] truncation would start over. *)
Theorem pipes_refine_fifos t ops :
  pipes_wf t -> Forall op_in_range ops ->
  (next_pipe_id t + Z.of_nat (length ops) < 2 ^ 32)%Z ->
  exists rs t', pipe_run t ops = Some (rs, t') /\ pipes_wf t' /\
    spec_run (abs_table t) ops = (rs, abs_table t').
Proof.
  intros Hwf Hops Hb. destruct (pipe_run_sim ops t Hwf Hops Hb) as (rs & t' & ? & ? & ? & _).
  by exists rs, t'.
Qed.

(** Bytes go through a pipe in order, none lost, none made up: over any
    run in which no end of pipe [id] is closed, whatever happens to the
    other pipes, the bytes read from it followed by those left in it are
    the bytes it held followed by those its writers had accepted. *)
Theorem pipe_bytes_conserved ops t id p rs t' :
  pipes_wf t -> (0 <= id)%Z -> pipes t !! Z.to_nat id = Some (Some p) ->
  Forall op_in_range ops -> Forall (keeps_open id) ops ->
  (next_pipe_id t + Z.of_nat (length ops) < 2 ^ 32)%Z ->
  pipe_run t ops = Some (rs, t') ->
  exists p', pipes t' !! Z.to_nat id = Some (Some p') /\
    run_bytes (op_out id) ops rs ++ pipe_contents p' =
    pipe_contents p ++ run_bytes (op_in id) ops rs.
Proof.
  intros Hwf Hid Hp Hops Hk Hb Hrun.
  destruct (pipe_run_bytes ops t id (abs_pipe p) rs t' Hwf Hid Hops Hk Hb) as (s' & Hs' & Hbytes);
    [by rewrite abs_lookup, Hp|done|].
  rewrite abs_lookup in Hs'. destruct (pipes t' !! Z.to_nat id) as [[p'|]|]; simplify_eq/=.
  by exists p'.
Qed.

(** Slots are not reused: once sixteen pipes have been created, every
    [alloc_pipe] of any later run fails with [NoMemory], even when every
    pipe has been closed since and all the slots are free. *)
Theorem pipe_slots_not_recycled ops t rs t' i r :
  pipes_wf t -> (Z.of_nat MAX_PIPES <= next_pipe_id t)%Z -> Forall op_in_range ops ->
  (next_pipe_id t + Z.of_nat (length ops) < 2 ^ 32)%Z ->
  pipe_run t ops = Some (rs, t') ->
  ops !! i = Some OAlloc -> rs !! i = Some r -> r = RId (Err NoMemory).
Proof.
  revert t rs i. induction ops as [|op ops IH]; intros t rs i Hwf Hfull Hops Hb Hrun Hi Hr; [done|].
  apply Forall_cons in Hops as [Hop Hops]. simpl length in Hb.
  destruct (pipe_do_sim t op Hwf Hop ltac:(lia)) as (r1 & t1 & Hd & Hs & Hwf1 & Hn1).
  cbn [pipe_run] in Hrun. rewrite Hd in Hrun. cbn in Hrun.
  destruct (pipe_run t1 ops) as [[rs1 t2]|] eqn:Hrun1; [|done]. cbn in Hrun. simplify_eq.
  destruct i as [|i]; simplify_eq/=.
  - destruct (_ <? _)%Z eqn:E; reflect; [|by simplify_eq]. unfold MAX_PIPES in *. lia.
  - apply (IH t1 rs1 i Hwf1); [lia|done|lia|done..].
Qed.

(** ** Witnesses *)
Section witnesses.
Local Open Scope Z_scope.
Transparent PIPE_BUF_SIZE.

#[local] Ltac wit_forall := repeat (apply Forall_cons; split; [done|]); by apply Forall_nil.

Definition wit_ops : list pipe_op :=
  [OAlloc; OWrite 0 [1; 2; 3]; OAlloc; ORead 0 2; OWrite 1 [9]; ORead 0 5; ORead 0 1;
   OClose 1 PRead; OWrite 1 [7]; ORead 1 4].

Lemma pipes_refine_fifos_witness :
  exists rs t', pipe_run pipes_init wit_ops = Some (rs, t') /\
    rs = [RId (Ok 0); RCount (Ok 3%nat); RId (Ok 1); RBytes (Ok [1; 2]); RCount (Ok 1%nat);
          RBytes (Ok [3]); RBytes (Ok []); RUnit; RCount (Err PeerClosed); RBytes (Ok [9])].
Proof.
  destruct (pipes_refine_fifos pipes_init wit_ops pipes_init_wf) as (rs & t' & H1 & _ & H2).
  - wit_forall.
  - reflexivity.
  - exists rs, t'. split; [done|].
    transitivity (spec_run (abs_table pipes_init) wit_ops).1; [by rewrite H2|vm_compute; reflexivity].
Defined.

Definition wit_table : PipeTable :=
  match pipe_run pipes_init [OAlloc; OWrite 0 [5; 6]] with
  | Some (_, t) => t
  | None => pipes_init
  end.

Lemma wit_table_wf : pipes_wf wit_table.
Proof.
  unfold wit_table.
  destruct (pipe_run_sim [OAlloc; OWrite 0 [5; 6]] pipes_init) as (rs & t' & -> & _ & Hw & _);
    [apply pipes_init_wf|wit_forall|reflexivity|done].
Qed.

Definition wit_ops' : list pipe_op := [OWrite 0 [7; 8]; ORead 0 3; OAlloc].

Lemma wit_ops'_ok : Forall op_in_range wit_ops' /\ Forall (keeps_open 0) wit_ops'.
Proof. split; wit_forall. Qed.

Lemma pipe_bytes_conserved_witness :
  exists p p' rs t',
    pipe_run wit_table wit_ops' = Some (rs, t') /\
    run_bytes (op_out 0) wit_ops' rs ++ pipe_contents p' =
    pipe_contents p ++ run_bytes (op_in 0) wit_ops' rs.
Proof.
  destruct (pipes wit_table !! Z.to_nat 0) as [[p|]|] eqn:Hp;
    [|exfalso; vm_compute in Hp; discriminate Hp..].
  destruct (pipe_run wit_table wit_ops') as [[rs t']|] eqn:Hrun;
    [|exfalso; vm_compute in Hrun; discriminate Hrun].
  assert (Hb : next_pipe_id wit_table + Z.of_nat (length wit_ops') < 2 ^ 32)
    by (vm_compute; reflexivity).
  destruct (pipe_bytes_conserved wit_ops' wit_table 0 p rs t' wit_table_wf (Z.le_refl 0) Hp
              (proj1 wit_ops'_ok) (proj2 wit_ops'_ok) Hb Hrun) as (p' & _ & Hc).
  exists p, p', rs, t'. exact (conj eq_refl Hc).
Defined.

Lemma pipe_slots_not_recycled_witness :
  exists t rs t', pipes t = replicate 16 None /\
    pipe_run t [OAlloc] = Some (rs, t') /\ rs = [RId (Err NoMemory)].
Proof.
  set (t := mkPipes (replicate 16 None) 16).
  destruct (pipe_run t [OAlloc]) as [[rs t']|] eqn:Hrun; [|discriminate Hrun].
  exists t, rs, t'. split; [reflexivity|]. split; [exact Hrun|].
  assert (Hr : exists r, rs = [r]) by (vm_compute in Hrun; injection Hrun as <- _; by eexists).
  destruct Hr as [r ->]. f_equal.
  apply (pipe_slots_not_recycled [OAlloc] t [r] t' 0%nat r).
  - split; [reflexivity|]. split; [done|]. intros i p Hi.
    cbn [t pipes] in Hi. apply lookup_replicate in Hi as [[=] _].
  - done.
  - wit_forall.
  - reflexivity.
  - exact Hrun.
  - reflexivity.
  - reflexivity.
Defined.
End witnesses.
