(* ===== verification/Phys.v ===== *)
(** * Phys: the physical page allocator

    kernel/src/arch/aarch64/phys.rs.  Free memory is one cursor that only
    moves forward, a tag per 4 KiB frame, a tracker of live page-table
    pages, and a page cache that freed pages are put into.  RAM contents are
    8-byte words keyed by physical address.

    Watch-point logging and cache maintenance instructions have no effect on
    this state and are left out.  The compare-exchange loops are run by one
    CPU at a time, so each exchange succeeds. *)
From Stdlib Require Import ZArith Lia.
From stdpp Require Import base tactics option list gmap.
From S2P Require Import Prelude Shared.
Local Open Scope Z_scope.

(** ** RAM *)
Abbreviation Ram := (gmap Z Z).

Definition ram_read (m : Ram) (pa : Z) : Z := default 0 (m !! pa).
Definition ram_write (m : Ram) (pa v : Z) : Ram := <[pa := v]> m.

(** [for i in 0..(4096 / 8) { write_volatile(ptr.add(i * 8), 0) }] *)
Definition zero_page (m : Ram) (pa : Z) : Ram :=
  foldl (fun m i => ram_write m (pa + 8 * Z.of_nat i) 0) m (seq 0 512).

(** ** Frames and tags *)
Definition RAM_BASE : Z := 0x40000000.
Definition RAM_SIZE : Z := 0x20000000.
Definition MAX_PAGES : Z := RAM_SIZE / 4096.
Definition MAX_LIVE_PT : nat := 64.
Definition PAGE_CACHE_SIZE : nat := 64.

Inductive PageTag := TFree | TPageTable | TVmoData | TVmarMeta | TKernelStack | TKernelHeap.

#[export] Instance PageTag_eq_dec : EqDecision PageTag.
Proof. solve_decision. Defined.

Definition tag_u8 (t : PageTag) : Z :=
  match t with
  | TFree => 0 | TPageTable => 1 | TVmoData => 2 | TVmarMeta => 3
  | TKernelStack => 4 | TKernelHeap => 5
  end.

Definition tag_of_u8 (v : Z) : option PageTag :=
  match v with
  | 0 => Some TFree | 1 => Some TPageTable | 2 => Some TVmoData | 3 => Some TVmarMeta
  | 4 => Some TKernelStack | 5 => Some TKernelHeap | _ => None
  end.

Definition pa_to_pfn (pa : Z) : Z := Z.shiftr (u64w (pa - RAM_BASE)) 12.
Definition pa_valid (pa : Z) : bool := (RAM_BASE <=? pa) && (pa <? RAM_BASE + RAM_SIZE).

(** ** Page cache *)
Record PageCacheEntry := mkPce { pce_pa : Z; pce_age : Z; pce_dirty : bool }.
Record PageCache := mkCache { pc_entries : list (option PageCacheEntry); pc_count : nat }.

Definition cache_new : PageCache := mkCache (replicate PAGE_CACHE_SIZE None) 0.

(** The first loop of [find_evictable]: the first clean entry of least age
    (ages of [usize::MAX] never qualify). *)
Fixpoint oldest_clean (l : list (option PageCacheEntry)) (i : nat) (best : option nat)
    (best_age : Z) : option nat :=
  match l with
  | [] => best
  | Some e :: l' =>
      if negb (pce_dirty e) && (pce_age e <? best_age)
      then oldest_clean l' (S i) (Some i) (pce_age e)
      else oldest_clean l' (S i) best best_age
  | None :: l' => oldest_clean l' (S i) best best_age
  end.

Definition find_evictable (c : PageCache) : option (nat * Z) :=
  let first_dirty :=
    match find_slot pce_dirty (pc_entries c) with
    | Some i =>
        match pc_entries c !! i with Some (Some e) => Some (i, pce_pa e) | _ => None end
    | None => None
    end in
  match oldest_clean (pc_entries c) 0 None (2 ^ 64 - 1) with
  | Some i =>
      match pc_entries c !! i with Some (Some e) => Some (i, pce_pa e) | _ => first_dirty end
  | None => first_dirty
  end.

Definition add_page (c : PageCache) (pa : Z) (dirty : bool) : PageCache :=
  let c1 :=
    if (PAGE_CACHE_SIZE <=? pc_count c)%nat then
      match find_evictable c with
      | Some (i, _) => mkCache (<[i := None]> (pc_entries c)) (pc_count c - 1)
      | None => c
      end
    else c in
  match first_free (pc_entries c1) with
  | Some i => mkCache (<[i := Some (mkPce pa 0 dirty)]> (pc_entries c1)) (pc_count c1 + 1)
  | None => c1
  end.

Definition mark_dirty (c : PageCache) (pa : Z) : PageCache :=
  match find_slot (fun e => pce_pa e =? pa) (pc_entries c) with
  | Some i =>
      match pc_entries c !! i with
      | Some (Some e) =>
          mkCache (<[i := Some (mkPce (pce_pa e) (pce_age e) true)]> (pc_entries c)) (pc_count c)
      | _ => c
      end
  | None => c
  end.

Definition map_entries (f : PageCacheEntry -> PageCacheEntry) (c : PageCache) : PageCache :=
  mkCache (map (option_map f) (pc_entries c)) (pc_count c).

Definition cache_tick (c : PageCache) : PageCache :=
  map_entries (fun e => mkPce (pce_pa e) (u64w (pce_age e + 1)) (pce_dirty e)) c.

Definition cache_sync (c : PageCache) : kresult nat * PageCache :=
  (Ok (length (filter (fun e => pce_dirty e = true) (live (pc_entries c)))),
   map_entries (fun e => mkPce (pce_pa e) (pce_age e) false) c).

Definition cache_drain (c : PageCache) : nat * PageCache :=
  (length (live (pc_entries c)), mkCache (map (fun _ => None) (pc_entries c)) 0).

(** ** Allocator state *)
Record Phys := mkPhys {
  next_free : Z;
  end_free : Z;
  free_count : Z;
  total_count : Z;
  live_pt : list Z;
  tags : gmap Z Z;
  cache : PageCache;
  ram : Ram
}.

Definition page_tag (p : Phys) (pa : Z) : option PageTag :=
  if pa_valid pa then tag_of_u8 (default 0 (tags p !! pa_to_pfn pa)) else None.

(** [register_pt_page] walks the slots from 0 and stops at the first one
    that holds [pa] or is empty. *)
Fixpoint register_slots (l : list Z) (pa : Z) : list Z :=
  match l with
  | [] => []
  | s :: l' =>
      if s =? pa then l else if s =? 0 then pa :: l' else s :: register_slots l' pa
  end.

Fixpoint unregister_slots (l : list Z) (pa : Z) : list Z :=
  match l with
  | [] => []
  | s :: l' => if s =? pa then 0 :: l' else s :: unregister_slots l' pa
  end.

Definition set_live_pt (p : Phys) (l : list Z) : Phys :=
  mkPhys (next_free p) (end_free p) (free_count p) (total_count p) l (tags p) (cache p) (ram p).

Definition register_pt_page (p : Phys) (pa : Z) : Phys :=
  if pa =? 0 then p else set_live_pt p (register_slots (live_pt p) pa).
Definition unregister_pt_page (p : Phys) (pa : Z) : Phys :=
  if pa =? 0 then p else set_live_pt p (unregister_slots (live_pt p) pa).
Definition is_live_pt_page (p : Phys) (pa : Z) : bool :=
  if pa =? 0 then false else existsb (fun s => s =? pa) (live_pt p).

Definition set_next_free (p : Phys) (n : Z) : Phys :=
  mkPhys n (end_free p) (free_count p) (total_count p) (live_pt p) (tags p) (cache p) (ram p).

(** The state after stores to memory. *)
Definition with_ram (p : Phys) (m : Ram) : Phys :=
  mkPhys (next_free p) (end_free p) (free_count p) (total_count p) (live_pt p) (tags p) (cache p) m.

(** [alloc_page]'s loop.  [None] is a panic (a frame outside the tag array,
    or one still tracked as a live page table).  Each round moves the cursor
    by one page, so [alloc_fuel] rounds reach its end. *)
Fixpoint alloc_page_loop (fuel : nat) (tag : PageTag) (p : Phys) : option (kresult Z * Phys) :=
  match fuel with
  | O => None
  | S fuel' =>
      let pa := next_free p in
      if (pa =? 0) || (end_free p <=? pa) then Some (Err NoMemory, p)
      else
        let pfn := pa_to_pfn pa in
        if MAX_PAGES <=? pfn then None
        else
          let next := u64w (pa + 4096) in
          if negb (default 0 (tags p !! pfn) =? 0) then
            alloc_page_loop fuel' tag (set_next_free p next)
          else if is_live_pt_page p pa then None
          else
            Some (Ok pa,
                  mkPhys next (end_free p) (u64w (free_count p - 1)) (total_count p)
                    (live_pt p) (<[pfn := tag_u8 tag]> (tags p)) (cache p)
                    (zero_page (ram p) pa))
  end.

Definition alloc_fuel (p : Phys) : nat := S (Z.to_nat ((end_free p - next_free p) / 4096 + 1)).

Definition alloc_page (tag : PageTag) (p : Phys) : option (kresult Z * Phys) :=
  alloc_page_loop (alloc_fuel p) tag p.

Definition alloc_pt_page := alloc_page TPageTable.
Definition alloc_vmo_data := alloc_page TVmoData.
Definition alloc_vmo_meta := alloc_page TVmoData.
Definition alloc_vmar_meta := alloc_page TVmarMeta.
Definition alloc_kstack_page := alloc_page TKernelStack.
Definition alloc_kheap_page := alloc_page TKernelHeap.

(** [None]: an index outside the tag array, or a double free. *)
Definition free_page (p : Phys) (pa : Z) : option (Status * Phys) :=
  let pfn := pa_to_pfn pa in
  if MAX_PAGES <=? pfn then None
  else
    let old_tag := default 0 (tags p !! pfn) in
    if old_tag =? 0 then None
    else
      let p1 := if old_tag =? tag_u8 TPageTable then unregister_pt_page p pa else p in
      Some (SOk, mkPhys (next_free p1) (end_free p1) (free_count p1) (total_count p1)
                   (live_pt p1) (<[pfn := 0]> (tags p1)) (add_page (cache p1) pa false) (ram p1)).

Definition reclaim_page (p : Phys) : option Z * Phys :=
  match find_evictable (cache p) with
  | Some (_, pa) =>
      (Some pa, mkPhys (next_free p) (end_free p) (free_count p) (total_count p) (live_pt p)
                  (tags p) (add_page (cache p) pa false) (ram p))
  | None => (None, p)
  end.

(** ** Initialisation *)
Definition is_page_reserved (page kernel_end dtb_start dtb_end : Z) : bool :=
  if page <? kernel_end then true
  else negb (dtb_start =? 0) && (dtb_start <=? page) && (page <? dtb_end).

(** The scan over the pages from the end of the kernel: [(current, next,
    free, total)]. *)
Fixpoint init_scan (fuel : nat) (kernel_end dtb_start dtb_end ram_end : Z)
    (s : Z * option Z * Z * Z) : Z * option Z * Z * Z :=
  match fuel with
  | O => s
  | S fuel' =>
      let '(cur, nxt, free, total) := s in
      if u64w (cur + 4096) <=? ram_end then
        let total := total + 1 in
        let '(nxt, free) :=
          if is_page_reserved cur kernel_end dtb_start dtb_end then (nxt, free)
          else (match nxt with None => Some cur | _ => nxt end, free + 1) in
        init_scan fuel' kernel_end dtb_start dtb_end ram_end (u64w (cur + 4096), nxt, free, total)
      else s
  end.

Definition page_up (a : Z) : Z := Z.land (u64w (a + 4095)) (Z.lxor 4095 (2 ^ 64 - 1)).
Definition page_down (a : Z) : Z := Z.land a (Z.lxor 4095 (2 ^ 64 - 1)).

(** [kernel_end] is the linker's [_kernel_end], [dtb] the address and size
    word of the device tree when there is one. *)
Definition phys_init (p : Phys) (ram_base ram_size kernel_end : Z) (dtb : option (Z * Z)) : Phys :=
  let kernel_end_page := page_up kernel_end in
  let ram_end := u64w (ram_base + ram_size) in
  let '(dtb_start, dtb_end) :=
    match dtb with
    | Some (a, size) => (page_down a, page_up (u64w (a + size)))
    | None => (0, 0)
    end in
  let '(cur, nxt, free, total) :=
    init_scan (S (Z.to_nat ((ram_end - kernel_end_page) / 4096))) kernel_end_page dtb_start dtb_end ram_end
      (kernel_end_page, None, 0, 0) in
  mkPhys (match nxt with Some n => n | None => next_free p end) cur free total
    (live_pt p) (tags p) (cache p) (ram p).

(** ** Lemmas *)
Lemma page_up_spec a :
  0 <= a < 2 ^ 64 - 4096 -> page_up a = 4096 * ((a + 4095) / 4096).
Proof. intros H. unfold page_up. rewrite u64w_small by lia. apply page_mask. lia. Qed.

Lemma page_down_spec a : 0 <= a < 2 ^ 64 -> page_down a = 4096 * (a / 4096).
Proof. apply page_mask. Qed.

Lemma page_up_bounds a :
  0 <= a < 2 ^ 64 - 4096 -> a <= page_up a < a + 4096 /\ page_up a mod 4096 = 0.
Proof.
  intros H. rewrite page_up_spec by done.
  pose proof (Z.div_mod (a + 4095) 4096). pose proof (Z.mod_pos_bound (a + 4095) 4096).
  split; [lia|]. rewrite Z.mul_comm. by apply Z.mod_mul.
Qed.

Lemma page_down_bounds a :
  0 <= a < 2 ^ 64 -> a - 4096 < page_down a <= a /\ page_down a mod 4096 = 0.
Proof.
  intros H. rewrite page_down_spec by done.
  pose proof (Z.div_mod a 4096). pose proof (Z.mod_pos_bound a 4096).
  split; [lia|]. rewrite Z.mul_comm. by apply Z.mod_mul.
Qed.

(** A distance between page boundaries is a whole number of pages. *)
Lemma page_distance a b :
  a mod 4096 = 0 -> b mod 4096 = 0 -> b = a + 4096 * ((b - a) / 4096).
Proof.
  intros Ha Hb. pose proof (Z.div_mod (b - a) 4096).
  rewrite Zminus_mod, Ha, Hb in *. change ((0 - 0) mod 4096) with 0 in *. lia.
Qed.

Lemma zero_range_out m pa a n k :
  (forall i, (k <= i < k + n)%nat -> a <> pa + 8 * Z.of_nat i) ->
  ram_read (foldl (fun m i => ram_write m (pa + 8 * Z.of_nat i) 0) m (seq k n)) a =
  ram_read m a.
Proof.
  revert m k. induction n as [|n IH]; intros m k H; cbn [seq foldl]; [done|].
  rewrite IH by (intros i ?; apply H; lia). unfold ram_read, ram_write.
  rewrite lookup_insert_ne; [done|]. intros Heq. apply (H k); [lia|done].
Qed.

Lemma zero_range_in m pa n k i :
  (k <= i < k + n)%nat ->
  ram_read (foldl (fun m i => ram_write m (pa + 8 * Z.of_nat i) 0) m (seq k n))
    (pa + 8 * Z.of_nat i) = 0.
Proof.
  revert m k. induction n as [|n IH]; intros m k H; cbn [seq foldl]; [lia|].
  destruct (decide (i = k)) as [->|?]; [|apply IH; lia].
  rewrite zero_range_out by (intros; lia). unfold ram_read, ram_write.
  by rewrite lookup_insert_eq.
Qed.

Lemma zero_page_in m pa i : (i < 512)%nat -> ram_read (zero_page m pa) (pa + 8 * Z.of_nat i) = 0.
Proof. intros Hi. apply (zero_range_in m pa 512 0 i). lia. Qed.

Lemma zero_page_out m pa a :
  a < pa \/ pa + 4096 <= a -> ram_read (zero_page m pa) a = ram_read m a.
Proof. intros Ha. apply (zero_range_out m pa a 512 0). lia. Qed.

Lemma pfn_spec pa :
  RAM_BASE <= pa < RAM_BASE + RAM_SIZE ->
  pa_to_pfn pa = (pa - RAM_BASE) / 4096 /\ 0 <= pa_to_pfn pa < MAX_PAGES.
Proof.
  intros H. unfold pa_to_pfn, MAX_PAGES, RAM_BASE, RAM_SIZE in *.
  rewrite u64w_small, Z.shiftr_div_pow2 by lia. change (2 ^ 12) with 4096.
  split; [done|]. change (0x20000000 / 4096) with 131072.
  split; [apply Z.div_pos; lia|]. apply Z.div_lt_upper_bound; lia.
Qed.

(** ** Invariant

    The cursor and its end are page aligned and inside RAM, no frame at or
    above the cursor is tagged, and no tracked page table lies there. *)
Record phys_wf (p : Phys) : Prop := {
  wf_cursor : RAM_BASE <= next_free p;
  wf_end : end_free p <= RAM_BASE + RAM_SIZE;
  wf_align : next_free p mod 4096 = 0 /\ end_free p mod 4096 = 0;
  wf_fresh : forall pa, next_free p <= pa < end_free p ->
    default 0 (tags p !! pa_to_pfn pa) = 0;
  wf_live : forall pa, pa ∈ live_pt p -> pa < next_free p
}.

(** What a successful allocation makes of the state. *)
Definition alloc_next (tag : PageTag) (p : Phys) : Phys :=
  mkPhys (next_free p + 4096) (end_free p) (u64w (free_count p - 1)) (total_count p) (live_pt p)
    (<[pa_to_pfn (next_free p) := tag_u8 tag]> (tags p)) (cache p)
    (zero_page (ram p) (next_free p)).

Lemma not_live p pa : pa ∉ live_pt p -> is_live_pt_page p pa = false.
Proof.
  intros H. unfold is_live_pt_page. case_match; [done|].
  apply not_true_is_false. intros (x & Hx & <-%Z.eqb_eq)%existsb_exists.
  apply H. by apply list_elem_of_In.
Qed.

(** On a well-formed state the first round of the loop decides. *)
Lemma alloc_page_eq tag p :
  phys_wf p ->
  alloc_page tag p =
  if end_free p <=? next_free p then Some (Err NoMemory, p)
  else Some (Ok (next_free p), alloc_next tag p).
Proof.
  intros [Hc He Ha Hf Hl]. unfold alloc_page, alloc_fuel. cbn [alloc_page_loop].
  assert ((next_free p =? 0) = false) as -> by (apply Z.eqb_neq; unfold RAM_BASE in *; lia).
  cbn [orb]. destruct (end_free p <=? next_free p) eqn:E; reflect; [done|].
  destruct (pfn_spec (next_free p)) as [_ Hp]; [lia|].
  assert ((MAX_PAGES <=? pa_to_pfn (next_free p)) = false) as -> by (apply Z.leb_gt; lia).
  rewrite Hf by lia. cbn [negb Z.eqb].
  rewrite not_live by (intros ?%Hl; lia).
  unfold alloc_next. rewrite (u64w_small (next_free p + 4096)); [done|].
  unfold RAM_BASE, RAM_SIZE in *. lia.
Qed.

Lemma pfn_inj a b :
  RAM_BASE <= a < RAM_BASE + RAM_SIZE -> RAM_BASE <= b < RAM_BASE + RAM_SIZE ->
  a mod 4096 = 0 -> pa_to_pfn a = pa_to_pfn b -> a <= b < a + 4096.
Proof.
  intros Ha Hb Hm Heq. destruct (pfn_spec a Ha) as [Ea _]. destruct (pfn_spec b Hb) as [Eb _].
  rewrite Ea, Eb in Heq. unfold RAM_BASE in *.
  pose proof (Z.div_mod (a - 0x40000000) 4096). pose proof (Z.div_mod (b - 0x40000000) 4096).
  pose proof (Z.mod_pos_bound (b - 0x40000000) 4096).
  assert ((a - 0x40000000) mod 4096 = 0).
  { rewrite Zminus_mod, Hm. done. }
  lia.
Qed.

Lemma alloc_next_wf tag p :
  phys_wf p -> next_free p < end_free p -> phys_wf (alloc_next tag p).
Proof.
  intros [Hc He [Ha1 Ha2] Hf Hl] Hlt. constructor; cbn.
  - lia.
  - done.
  - split; [|done]. rewrite Zplus_mod, Ha1. done.
  - intros pa Hpa. rewrite lookup_insert_ne; [apply Hf; lia|].
    intros Heq. apply pfn_inj in Heq; [lia|lia|lia|done].
  - intros pa Hpa. specialize (Hl pa Hpa). lia.
Qed.

Lemma aligned_room p :
  phys_wf p -> next_free p < end_free p -> next_free p + 4096 <= end_free p.
Proof.
  intros [_ _ [Ha1 Ha2] _ _] Hlt.
  pose proof (Z.div_mod (next_free p) 4096). pose proof (Z.div_mod (end_free p) 4096). lia.
Qed.

(** ** Runs

    What the rest of the kernel does to the allocator, one call at a time.
    A page is registered as a page table only after it was handed out. *)
Inductive phys_event :=
| EvAlloc (tag : PageTag) (pa : Z)
| EvNoMemory (tag : PageTag)
| EvFree (pa : Z)
| EvRegister (pa : Z)
| EvUnregister (pa : Z)
| EvReclaim (o : option Z).

Inductive phys_step : Phys -> phys_event -> Phys -> Prop :=
| step_alloc p p' tag pa :
    alloc_page tag p = Some (Ok pa, p') -> phys_step p (EvAlloc tag pa) p'
| step_no_memory p p' tag :
    alloc_page tag p = Some (Err NoMemory, p') -> phys_step p (EvNoMemory tag) p'
| step_free p p' pa : free_page p pa = Some (SOk, p') -> phys_step p (EvFree pa) p'
| step_register p pa :
    pa < next_free p -> phys_step p (EvRegister pa) (register_pt_page p pa)
| step_unregister p pa : phys_step p (EvUnregister pa) (unregister_pt_page p pa)
| step_reclaim p o p' : reclaim_page p = (o, p') -> phys_step p (EvReclaim o) p'.

Definition handed_out (tr : list phys_event) : list Z :=
  omap (fun e => match e with EvAlloc _ pa => Some pa | _ => None end) tr.

(** A fresh frame has a tag of its own. *)
Lemma alloc_next_tags tag p pa :
  phys_wf p -> next_free p < end_free p -> RAM_BASE <= pa < next_free p ->
  default 0 (tags (alloc_next tag p) !! pa_to_pfn pa) = default 0 (tags p !! pa_to_pfn pa).
Proof.
  intros Hwf Hlt Hpa. destruct Hwf as [Hc He [Hal _] _ _]. cbn [alloc_next tags].
  rewrite lookup_insert_ne; [done|]. intros Heq%pfn_inj; lia.
Qed.

Lemma elem_of_register l pa x : x ∈ register_slots l pa -> x = pa \/ x ∈ l.
Proof.
  induction l as [|s l IH]; simpl; [by right|].
  destruct (s =? pa); [by right|]. destruct (s =? 0); rewrite !elem_of_cons; [tauto|].
  intros [->|Hx]; [by right; left|]. destruct (IH Hx); [by left|by right; right].
Qed.

Lemma elem_of_unregister l pa x : x ∈ unregister_slots l pa -> x = 0 \/ x ∈ l.
Proof.
  induction l as [|s l IH]; simpl; [by right|].
  destruct (s =? pa); rewrite !elem_of_cons; [tauto|].
  intros [->|Hx]; [by right; left|]. destruct (IH Hx); [by left|by right; right].
Qed.

Lemma set_live_pt_wf p l :
  phys_wf p -> (forall x, x ∈ l -> x < next_free p) -> phys_wf (set_live_pt p l).
Proof. intros [? ? ? ? ?] Hl. by constructor. Qed.

Lemma register_wf p pa : phys_wf p -> pa < next_free p -> phys_wf (register_pt_page p pa).
Proof.
  intros Hwf Hpa. unfold register_pt_page. case_match; [done|].
  apply set_live_pt_wf; [done|]. intros x [->|Hx]%elem_of_register; [done|]. by apply Hwf.
Qed.

Lemma unregister_wf p pa : phys_wf p -> phys_wf (unregister_pt_page p pa).
Proof.
  intros Hwf. unfold unregister_pt_page. case_match; [done|].
  apply set_live_pt_wf; [done|]. intros x [->|Hx]%elem_of_unregister; [|by apply Hwf].
  pose proof (wf_cursor p Hwf). unfold RAM_BASE in *. lia.
Qed.

Lemma unregister_frame p pa :
  next_free (unregister_pt_page p pa) = next_free p /\
  end_free (unregister_pt_page p pa) = end_free p /\
  tags (unregister_pt_page p pa) = tags p.
Proof. unfold unregister_pt_page. by case_match. Qed.

Lemma free_page_status p pa st p' : free_page p pa = Some (st, p') -> st = SOk.
Proof. unfold free_page. case_match; [done|]. case_match; [done|]. congruence. Qed.

(** A step keeps the invariant and the end, and moves the cursor by exactly
    the pages it hands out. *)
Lemma phys_step_wf p e p' :
  phys_wf p -> phys_step p e p' ->
  phys_wf p' /\ end_free p' = end_free p /\
  match e with
  | EvAlloc _ pa => pa = next_free p /\ pa < end_free p /\ next_free p' = pa + 4096
  | _ => next_free p' = next_free p
  end.
Proof.
  intros Hwf Hs. destruct Hs as [p p' tag pa H|p p' tag H|p p' pa H|p pa H|p pa|p o p' H].
  - rewrite alloc_page_eq in H by done. case_match; simplify_eq. reflect.
    split_and!; [by apply alloc_next_wf|done..].
  - rewrite alloc_page_eq in H by done. by case_match; simplify_eq.
  - unfold free_page in H. case_match; [done|]. case_match; [done|]. simplify_eq.
    set (p1 := if _ =? _ then _ else p).
    assert (Hp1 : phys_wf p1 /\ next_free p1 = next_free p /\ end_free p1 = end_free p /\
                 tags p1 = tags p).
    { unfold p1. case_match; [|done]. split; [by apply unregister_wf|apply unregister_frame]. }
    destruct Hp1 as ([Hc He Ha Hf Hl] & Hn & Hend & Ht). split_and!; [|done..].
    constructor; cbn; [done..| |done]. intros x Hx.
    destruct (decide (pa_to_pfn pa = pa_to_pfn x)) as [->|?].
    + by rewrite lookup_insert_eq.
    + rewrite lookup_insert_ne by done. by apply Hf.
  - split_and!; [by apply register_wf|unfold register_pt_page; by case_match..].
  - split_and!; [by apply unregister_wf|apply unregister_frame..].
  - unfold reclaim_page in H. destruct (find_evictable _) as [[i pa]|]; simplify_eq; [|done].
    split_and!; [|done..]. by destruct Hwf; constructor.
Qed.

Lemma handed_out_spec p tr p' :
  rtc_steps phys_step p tr p' -> phys_wf p ->
  phys_wf p' /\ end_free p' = end_free p /\
  handed_out tr = map (fun i => next_free p + 4096 * Z.of_nat i) (seq 0 (length (handed_out tr))) /\
  next_free p' = next_free p + 4096 * Z.of_nat (length (handed_out tr)) /\
  (next_free p <= end_free p -> next_free p' <= end_free p).
Proof.
  induction 1 as [p|p1 p2 p3 e tr Hs Hsteps IH]; intros Hwf.
  { split_and!; [done..|simpl; lia|done]. }
  destruct (phys_step_wf _ _ _ Hwf Hs) as (Hwf2 & He & Hev).
  destruct (IH Hwf2) as (Hwf3 & He3 & Hl & Hn & Hb). rewrite He in *.
  destruct e; cbn [handed_out omap list_omap]; fold (handed_out tr);
    try (rewrite Hev in *; by split_and!).
  destruct Hev as (-> & Hlt & Hnx). rewrite Hnx in *.
  split_and!; [done..| | |].
  - cbn [length seq map]. f_equal; [lia|]. rewrite <- seq_shift, map_map.
    rewrite Hl at 1. apply map_ext. intros i. lia.
  - rewrite Hn. simpl length. lia.
  - intros _. apply Hb. by apply aligned_room.
Qed.

(** [n] allocations in a row, while there is room. *)
Lemma alloc_run tag n p :
  phys_wf p -> next_free p + 4096 * Z.of_nat n <= end_free p ->
  exists p', rtc_steps phys_step p
    (map (fun i => EvAlloc tag (next_free p + 4096 * Z.of_nat i)) (seq 0 n)) p'.
Proof.
  revert p. induction n as [|n IH]; intros p Hwf Hr; [exists p; constructor|].
  pose proof (alloc_page_eq tag p Hwf) as Ha.
  assert ((end_free p <=? next_free p) = false) as Hf by (apply Z.leb_gt; lia). rewrite Hf in Ha.
  destruct (IH (alloc_next tag p)) as [p' Hp'].
  { apply alloc_next_wf; [done|lia]. }
  { simpl. lia. }
  exists p'. cbn [seq map]. econstructor.
  - apply step_alloc. rewrite Ha. do 3 f_equal. lia.
  - rewrite <- seq_shift, map_map. erewrite map_ext; [exact Hp'|].
    intros i. cbn [alloc_next next_free]. f_equal. lia.
Qed.

(** ** Initialisation lemmas *)
Lemma init_scan_cursor fuel ke ds de ram_end cur nxt free total cur' nxt' free' total' :
  0 <= cur <= ram_end -> ram_end < 2 ^ 64 - 4096 -> (ram_end - cur) / 4096 < Z.of_nat fuel ->
  init_scan fuel ke ds de ram_end (cur, nxt, free, total) = (cur', nxt', free', total') ->
  cur' = cur + 4096 * ((ram_end - cur) / 4096) /\
  (forall n, nxt = Some n -> nxt' = Some n).
Proof.
  revert cur nxt free total. induction fuel as [|fuel IH]; intros cur nxt free total Hc Hr Hf Hs.
  { pose proof (Z.div_pos (ram_end - cur) 4096). lia. }
  cbn [init_scan] in Hs. rewrite u64w_small in Hs by lia.
  destruct (cur + 4096 <=? ram_end) eqn:E; reflect.
  - assert (Hd : (ram_end - cur) / 4096 = (ram_end - (cur + 4096)) / 4096 + 1).
    { replace (ram_end - cur) with (ram_end - (cur + 4096) + 1 * 4096) by lia.
      by rewrite Z.div_add. }
    destruct (is_page_reserved _ _ _ _).
    + apply IH in Hs as [-> Hn]; [split; [lia|done]|lia..].
    + apply IH in Hs as [-> Hn]; [split; [lia|]|lia..]. intros n ->. by apply Hn.
  - simplify_eq. rewrite Z.div_small by lia. split; [lia|done].
Qed.

(** The cursor starts at the page after the kernel unless the device tree
    is there; its end is the last whole page of RAM. *)
Lemma phys_init_cursor p ram_base ram_size kernel_end dtb size :
  let p0 := phys_init p ram_base ram_size kernel_end (Some (dtb, size)) in
  0 <= kernel_end < 2 ^ 63 -> 0 <= ram_base -> 0 <= ram_size -> ram_base + ram_size < 2 ^ 63 ->
  page_up kernel_end + 4096 <= ram_base + ram_size ->
  page_up kernel_end < page_down dtb ->
  next_free p0 = page_up kernel_end /\
  end_free p0 = page_up kernel_end + 4096 * ((ram_base + ram_size - page_up kernel_end) / 4096).
Proof.
  intros p0 Hk Hb Hs Hr Hroom Hd. unfold p0, phys_init.
  rewrite (u64w_small (ram_base + ram_size)) by lia.
  pose proof (page_up_spec kernel_end ltac:(lia)) as Hup.
  set (kp := page_up kernel_end) in *. clearbody kp.
  assert (0 <= kp) by (rewrite Hup; pose proof (Z.div_pos (kernel_end + 4095) 4096); lia).
  assert (Hde : (page_down dtb =? 0) = false) by (apply Z.eqb_neq; lia).
  destruct (init_scan _ _ _ _ _ _) as [[[cur nxt] free] total] eqn:Hscan.
  pose proof Hscan as Hscan1. apply init_scan_cursor in Hscan1 as [-> _]; [|lia..].
  split; [|done]. cbn [init_scan] in Hscan. rewrite (u64w_small (kp + 4096)) in Hscan by lia.
  rewrite (proj2 (Z.leb_le _ _) Hroom) in Hscan.
  assert (is_page_reserved kp kp (page_down dtb) (page_up (u64w (dtb + size))) = false) as Hnr.
  { unfold is_page_reserved. rewrite Z.ltb_irrefl, (proj2 (Z.leb_gt _ _) Hd).
    by rewrite andb_false_r. }
  rewrite Hnr in Hscan. cbn [next_free].
  set (f := Z.to_nat _) in Hscan.
  assert (Hf : f = S (pred f)) by (pose proof (Z.div_le_lower_bound (ram_base + ram_size - kp) 4096 1); lia).
  apply init_scan_cursor in Hscan as [_ Hn]; [|lia..|]; [by rewrite (Hn kp eq_refl)|].
  unfold f. assert ((ram_base + ram_size - kp) / 4096 = (ram_base + ram_size - (kp + 4096)) / 4096 + 1).
  { replace (ram_base + ram_size - kp) with (ram_base + ram_size - (kp + 4096) + 1 * 4096) by lia.
    by rewrite Z.div_add. }
  pose proof (Z.div_pos (ram_base + ram_size - (kp + 4096)) 4096). lia.
Qed.

(** ** Properties *)

(** One allocation, on every branch: with room left it never panics,
    returns the page at the cursor, which was tagged free, tags it, clears
    all its 512 words and nothing else in RAM, and leaves every other tag;
    without room it is [NoMemory] and changes nothing. *)
Theorem alloc_page_spec tag p :
  phys_wf p ->
  exists r p', alloc_page tag p = Some (r, p') /\ phys_wf p' /\
    match r with
    | Err e => e = NoMemory /\ p' = p /\ end_free p <= next_free p
    | Ok pa =>
        pa mod 4096 = 0 /\ next_free p <= pa < end_free p /\
        page_tag p pa = Some TFree /\ page_tag p' pa = Some tag /\
        (forall i, (i < 512)%nat -> ram_read (ram p') (pa + 8 * Z.of_nat i) = 0) /\
        (forall a, a < pa \/ pa + 4096 <= a ->
          ram_read (ram p') a = ram_read (ram p) a /\ page_tag p' a = page_tag p a)
    end.
Proof.
  intros Hwf. pose proof (alloc_page_eq tag p Hwf) as Ha. pose proof Hwf as [Hc He [Hal _] Hf _].
  destruct (end_free p <=? next_free p) eqn:E; reflect; [by exists (Err NoMemory), p|].
  exists (Ok (next_free p)), (alloc_next tag p).
  assert (Hv : pa_valid (next_free p) = true).
  { unfold pa_valid. apply andb_true_intro. split; [apply Z.leb_le|apply Z.ltb_lt]; lia. }
  split; [done|]. split; [by apply alloc_next_wf|]. split_and!; [done|lia|done| | | |].
  - unfold page_tag. by rewrite Hv, Hf by lia.
  - unfold page_tag. rewrite Hv. cbn. rewrite lookup_insert_eq. by destruct tag.
  - intros i Hi. exact (zero_page_in _ _ i Hi).
  - intros a Ho. split; [exact (zero_page_out _ _ a Ho)|]. unfold page_tag.
    destruct (pa_valid a) eqn:Hva; [|done]. unfold pa_valid in Hva. reflect. cbn.
    rewrite lookup_insert_ne; [done|]. intros Heq. apply pfn_inj in Heq; lia.
Qed.

(** C28. No page is ever handed out twice, and freed pages never come back:
    over any run of allocations, frees, page-table registrations and cache
    reclaims, the i-th page handed out is exactly the i-th page after the
    cursor, so the number of successful allocations is bounded by the pages
    the cursor had ahead of it. *)
Theorem pages_handed_out_once p tr p' :
  phys_wf p -> next_free p <= end_free p -> rtc_steps phys_step p tr p' ->
  (forall i pa, handed_out tr !! i = Some pa -> pa = next_free p + 4096 * Z.of_nat i) /\
  NoDup (handed_out tr) /\
  4096 * Z.of_nat (length (handed_out tr)) <= end_free p - next_free p.
Proof.
  intros Hwf Hb Hsteps. destruct (handed_out_spec _ _ _ Hsteps Hwf) as (_ & He & Hl & Hn & Hle).
  split_and!.
  - intros i pa Hi. rewrite Hl in Hi. apply list_lookup_fmap_Some in Hi as (j & -> & Hj).
    apply lookup_seq in Hj as [-> _]. done.
  - rewrite Hl. apply NoDup_fmap_2; [intros x y; lia|apply NoDup_seq].
  - specialize (Hle Hb). lia.
Qed.

(** The state [init] leaves is well formed when no frame was tagged. *)
Lemma phys_init_wf p ram_size kernel_end dtb size :
  let p0 := phys_init p RAM_BASE ram_size kernel_end (Some (dtb, size)) in
  RAM_BASE <= kernel_end -> kernel_end < RAM_BASE + RAM_SIZE -> 0 <= ram_size <= RAM_SIZE ->
  page_up kernel_end + 4096 <= RAM_BASE + ram_size -> page_up kernel_end < page_down dtb ->
  tags p = ∅ -> (forall pa, pa ∈ live_pt p -> pa = 0) -> phys_wf p0.
Proof.
  intros p0 Hk1 Hk2 Hs Hroom Hd Ht Hl.
  assert (Hbase : RAM_BASE = 0x40000000) by done. assert (Hsize : RAM_SIZE = 0x20000000) by done.
  pose proof (page_up_bounds kernel_end ltac:(lia)) as [Hub Hum].
  destruct (phys_init_cursor p RAM_BASE ram_size kernel_end dtb size) as [Hn He]; try lia.
  fold p0 in Hn, He.
  pose proof (Z.mul_div_le (RAM_BASE + ram_size - page_up kernel_end) 4096 ltac:(lia)).
  assert (Htl : tags p0 = tags p /\ live_pt p0 = live_pt p).
  { unfold p0, phys_init. by destruct (init_scan _ _ _ _ _ _) as [[[? ?] ?] ?]. }
  destruct Htl as [Htg Hlv]. constructor.
  - lia.
  - lia.
  - rewrite He, Hn. split; [done|]. rewrite Z.add_comm, (Z.mul_comm 4096), Z.add_comm.
    by rewrite Z.mod_add by lia.
  - intros pa _. by rewrite Htg, Ht, lookup_empty.
  - intros pa Hpa. rewrite Hlv in Hpa. rewrite (Hl pa Hpa). lia.
Qed.

(** The device tree is not kept out of the allocator: when it lies
    above the first free page, [init] leaves it out of the free count, but
    enough allocations hand its first page, reserved by
    [is_page_reserved], to a caller. *)
Theorem dtb_page_handed_out p ram_size kernel_end dtb size :
  let p0 := phys_init p RAM_BASE ram_size kernel_end (Some (dtb, size)) in
  RAM_BASE <= kernel_end -> kernel_end < RAM_BASE + RAM_SIZE -> 0 <= ram_size <= RAM_SIZE ->
  page_up kernel_end < page_down dtb -> 0 <= dtb < 2 ^ 63 -> 0 < size < 2 ^ 32 ->
  page_down dtb + 4096 <= RAM_BASE + ram_size ->
  tags p = ∅ -> (forall pa, pa ∈ live_pt p -> pa = 0) ->
  is_page_reserved (page_down dtb) (page_up kernel_end) (page_down dtb)
    (page_up (u64w (dtb + size))) = true /\
  exists tr p', rtc_steps phys_step p0 tr p' /\ page_down dtb ∈ handed_out tr.
Proof.
  intros p0 Hk1 Hk2 Hs Hd Hdtb Hsz Hroom Ht Hl.
  assert (Hbase : RAM_BASE = 0x40000000) by done. assert (Hsize : RAM_SIZE = 0x20000000) by done.
  pose proof (page_up_bounds kernel_end ltac:(lia)) as [Hub Hum].
  pose proof (page_down_bounds dtb ltac:(lia)) as [Hdb Hdm].
  pose proof (page_distance _ _ Hum Hdm) as Hdist.
  destruct (phys_init_cursor p RAM_BASE ram_size kernel_end dtb size) as [Hn He]; try lia.
  fold p0 in Hn, He. set (k := (page_down dtb - page_up kernel_end) / 4096) in *.
  split.
  - pose proof (page_up_bounds (dtb + size) ltac:(lia)) as [Heb Hem].
    rewrite u64w_small by lia. unfold is_page_reserved.
    rewrite (proj2 (Z.ltb_ge _ _)), Z.leb_refl, (proj2 (Z.eqb_neq _ _)) by lia.
    apply Z.ltb_lt. lia.
  - destruct (alloc_run TVmoData (S (Z.to_nat k)) p0) as [p' Hp'].
    + apply phys_init_wf; (done || lia).
    + rewrite Hn, He.
      pose proof (Z.div_le_lower_bound (RAM_BASE + ram_size - page_up kernel_end) 4096 (k + 1)). lia.
    + eexists _, p'. split; [exact Hp'|]. unfold handed_out. apply list_elem_of_omap.
      exists (EvAlloc TVmoData (page_down dtb)). split; [|done].
      apply list_elem_of_fmap. exists (Z.to_nat k). split; [f_equal; lia|].
      apply elem_of_seq. lia.
Qed.

(** A small machine: 16 free pages. *)
Definition demo_phys : Phys :=
  mkPhys 0x40010000 0x40020000 16 16 (replicate MAX_LIVE_PT 0) ∅ cache_new ∅.

Lemma demo_phys_wf : phys_wf demo_phys.
Proof.
  constructor; cbn [next_free end_free tags live_pt demo_phys]; unfold RAM_BASE, RAM_SIZE; try lia.
  - split; reflexivity.
  - intros pa _. reflexivity.
  - intros pa Hpa. apply list_elem_of_lookup in Hpa as [i Hi]. apply lookup_replicate in Hi as [-> _]. lia.
Qed.

(** ** Witnesses *)
Section witnesses.

(** 16 pages of RAM above the kernel, the device tree in the fifth. *)
Definition wit_phys0 : Phys := mkPhys 0 0 0 0 (replicate 64 0) ∅ cache_new ∅.
Definition wit_phys : Phys :=
  phys_init wit_phys0 RAM_BASE 0x90000 0x4007f123 (Some (0x40084010, 600)).

Lemma wit_no_live pa : pa ∈ live_pt wit_phys0 -> pa = 0.
Proof. cbn [wit_phys0 live_pt]. by intros [? _]%elem_of_replicate. Qed.

Lemma wit_phys_wf : phys_wf wit_phys.
Proof.
  apply phys_init_wf; try (done || (vm_compute; congruence)). apply wit_no_live.
Qed.

Lemma alloc_page_spec_witness :
  exists p', alloc_page TPageTable wit_phys = Some (Ok 0x40080000, p') /\
    page_tag p' 0x40080000 = Some TPageTable.
Proof.
  destruct (alloc_page_spec TPageTable wit_phys wit_phys_wf) as (r & p' & Ha & _ & Hr).
  assert (Hr0 : r = Ok 0x40080000).
  { transitivity (match alloc_page TPageTable wit_phys with Some (r, _) => r | None => r end);
      [by rewrite Ha|]. vm_compute. reflexivity. }
  subst r. exists p'. split; [exact Ha|]. apply Hr.
Defined.

Definition wit_tr : list phys_event := [EvAlloc TVmoData 0x40080000; EvFree 0x40080000;
  EvAlloc TPageTable 0x40081000].

Definition wit_phys1 : Phys := alloc_next TVmoData wit_phys.
Definition wit_phys2 : Phys :=
  match free_page wit_phys1 0x40080000 with Some (_, p) => p | None => wit_phys1 end.
Definition wit_phys3 : Phys := alloc_next TPageTable wit_phys2.

Lemma wit_steps : rtc_steps phys_step wit_phys wit_tr wit_phys3.
Proof.
  assert (Hs1 : phys_step wit_phys (EvAlloc TVmoData 0x40080000) wit_phys1).
  { apply step_alloc. rewrite alloc_page_eq by apply wit_phys_wf.
    assert ((end_free wit_phys <=? next_free wit_phys) = false) as -> by (vm_compute; reflexivity).
    assert (next_free wit_phys = 0x40080000) as -> by (vm_compute; reflexivity). done. }
  assert (Hs2 : phys_step wit_phys1 (EvFree 0x40080000) wit_phys2).
  { assert (Hsome : (if free_page wit_phys1 0x40080000 is Some _ then true else false) = true)
      by (vm_compute; reflexivity).
    apply step_free. unfold wit_phys2. destruct (free_page _ _) as [[st p]|] eqn:Hf.
    - by rewrite (free_page_status _ _ _ _ Hf).
    - exfalso. discriminate Hsome. }
  destruct (phys_step_wf _ _ _ wit_phys_wf Hs1) as [Hw1 _].
  destruct (phys_step_wf _ _ _ Hw1 Hs2) as [Hw2 _].
  apply steps_cons with wit_phys1; [exact Hs1|]. apply steps_cons with wit_phys2; [exact Hs2|].
  apply steps_cons with wit_phys3; [|constructor].
  apply step_alloc. rewrite alloc_page_eq by done.
  assert ((end_free wit_phys2 <=? next_free wit_phys2) = false) as -> by (vm_compute; reflexivity).
  assert (next_free wit_phys2 = 0x40081000) as -> by (vm_compute; reflexivity). reflexivity.
Qed.

(** The freed page is not reused by the next allocation. *)
Lemma pages_handed_out_once_witness :
  handed_out wit_tr = [0x40080000; 0x40081000] /\ NoDup (handed_out wit_tr).
Proof.
  assert (Hle : next_free wit_phys <= end_free wit_phys) by (vm_compute; congruence).
  destruct (pages_handed_out_once wit_phys wit_tr wit_phys3 wit_phys_wf Hle wit_steps)
    as (_ & Hnd & _).
  split; [reflexivity|exact Hnd].
Defined.

Lemma dtb_page_handed_out_witness :
  exists tr p', rtc_steps phys_step wit_phys tr p' /\ 0x40084000 ∈ handed_out tr.
Proof.
  apply (dtb_page_handed_out wit_phys0 0x90000 0x4007f123 0x40084010 600);
    try (vm_compute; congruence); try (vm_compute; split; congruence).
  exact wit_no_live.
Defined.
End witnesses.
