(* ===== verification/Thread.v ===== *)
(** * Thread: kernel threads

    kernel/src/task/thread.rs and the register context of
    kernel/src/arch/aarch64/mod.rs.  The assembly trampolines are only
    addresses here.  [Obj] is the type of kernel objects a message can carry
    and [Pk] the type of port packets. *)
From Stdlib Require Import ZArith Lia String.
From stdpp Require Import base tactics option list gmap.
From S2P Require Import Prelude Shared Phys.
Local Open Scope Z_scope.

Definition KERNEL_OFFSET : Z := 0xffff800000000000.
Definition pa_to_kernel_va (pa : Z) : Z := u64w (pa + KERNEL_OFFSET).

Definition KERNEL_STACK_PAGES : nat := 4.
Definition KERNEL_STACK_SIZE : Z := Z.of_nat KERNEL_STACK_PAGES * 4096.
Definition DEFAULT_TIME_SLICE : Z := 5.

Inductive Priority := Realtime | High | Normal | Low | Idle.
Inductive ThreadState := Initial | Ready | Running | Blocked | Sleeping | Dead.

#[export] Instance Priority_eq_dec : EqDecision Priority.
Proof. solve_decision. Defined.
#[export] Instance ThreadState_eq_dec : EqDecision ThreadState.
Proof. solve_decision. Defined.

Definition priority_to_index (p : Priority) : nat :=
  match p with Realtime => 0 | High => 1 | Normal => 2 | Low => 3 | Idle => 4 end.

(** [x] are x0..x18, [r] are x19..x30. *)
Record Context := mkContext {
  x : list Z;
  r : list Z;
  sp : Z;
  user_sp : Z;
  elr : Z;
  spsr : Z;
  ctx_process_id : Z;
  l0_user_pa : Z;
  page_table_gen : Z
}.

Definition context_default : Context :=
  mkContext (replicate 19 0) (replicate 12 0) 0 0 0 0 0 0 0.

Section contexts.
(** Link-time addresses of the two assembly stubs. *)
Context (thread_bootstrap user_eret_stub : Z).

Definition context_new_kernel (entry stack_top : Z) : Context :=
  mkContext (replicate 19 0) (<[11%nat := thread_bootstrap]> (<[0%nat := entry]> (replicate 12 0)))
    stack_top 0 thread_bootstrap 0x005 0 0 0.

Definition context_new_user (entry stack_top kernel_stack_top : Z) : Context :=
  let high :=
    if kernel_stack_top <? KERNEL_OFFSET then Z.lor kernel_stack_top KERNEL_OFFSET
    else kernel_stack_top in
  mkContext (replicate 19 0)
    (<[11%nat := user_eret_stub]> (<[1%nat := stack_top]> (<[0%nat := entry]> (replicate 12 0))))
    high stack_top entry 0x000 0 0 0.

Definition set_page_table (c : Context) (pid l0 : Z) : Context :=
  mkContext (x c) (r c) (sp c) (user_sp c) (elr c) (spsr c) pid l0 (page_table_gen c).

Context {Obj Pk : Type}.

Record Thread := mkThread {
  t_id : Z;
  t_name : string;
  t_state : ThreadState;
  t_priority : Priority;
  t_time_slice : Z;
  t_remaining_ticks : Z;
  t_process_id : Z;
  t_entry : Z;
  t_kernel_stack_base_pa : Z;
  t_kernel_stack_size : Z;
  t_kernel_sp : Z;
  t_context : Context;
  t_ipc_buf_ptr : Z;
  t_ipc_buf_len : Z;
  t_ipc_actual_len : Z;
  t_ipc_transfer_handles : list (option Z);
  t_handle_table : Z;
  t_ipc_transfer_slots : list (option (Obj * Z));
  t_port_packet_slot : option Pk
}.

(** The first page, then [KERNEL_STACK_PAGES - 1] more whose addresses are
    dropped. *)
Fixpoint alloc_more (n : nat) (p : Phys) : option (kresult unit * Phys) :=
  match n with
  | O => Some (Ok tt, p)
  | S n' =>
      match alloc_kstack_page p with
      | None => None
      | Some (Err e, p1) => Some (Err e, p1)
      | Some (Ok _, p1) => alloc_more n' p1
      end
  end.

Definition alloc_kstack (p : Phys) : option (kresult Z * Phys) :=
  match alloc_kstack_page p with
  | None => None
  | Some (Err e, p1) => Some (Err e, p1)
  | Some (Ok pa0, p1) =>
      match alloc_more (KERNEL_STACK_PAGES - 1) p1 with
      | None => None
      | Some (Err e, p2) => Some (Err e, p2)
      | Some (Ok _, p2) => Some (Ok pa0, p2)
      end
  end.

(** The constructors differ in the context and the priority only; [next_id]
    is [THREAD_ID_COUNTER]. *)
Definition thread_new (name : string) (priority : Priority) (entry : Z)
    (ctx : Z -> Context) (next_id : Z) (p : Phys) : option (kresult Thread * Z * Phys) :=
  match alloc_kstack p with
  | None => None
  | Some (Err e, p1) => Some (Err e, next_id, p1)
  | Some (Ok pa0, p1) =>
      let stack_top := u64w (pa_to_kernel_va pa0 + KERNEL_STACK_SIZE) in
      Some (Ok (mkThread next_id name Initial priority DEFAULT_TIME_SLICE DEFAULT_TIME_SLICE 0
                  entry pa0 KERNEL_STACK_SIZE stack_top (ctx stack_top) 0 0 0
                  (replicate 4 None) 0 (replicate 2 None) None),
            u64w (next_id + 1), p1)
  end.

Definition new_kernel name entry :=
  thread_new name Normal entry (context_new_kernel entry).
Definition new_user name entry stack_top :=
  thread_new name Normal entry (context_new_user entry stack_top).
Definition new_kernel_with_priority name entry prio :=
  thread_new name prio entry (context_new_kernel entry).
Definition new_user_with_priority name entry stack_top prio :=
  thread_new name prio entry (context_new_user entry stack_top).

Definition set_state (t : Thread) (s : ThreadState) : Thread :=
  mkThread (t_id t) (t_name t) s (t_priority t) (t_time_slice t) (t_remaining_ticks t)
    (t_process_id t) (t_entry t) (t_kernel_stack_base_pa t) (t_kernel_stack_size t)
    (t_kernel_sp t) (t_context t) (t_ipc_buf_ptr t) (t_ipc_buf_len t) (t_ipc_actual_len t)
    (t_ipc_transfer_handles t) (t_handle_table t) (t_ipc_transfer_slots t) (t_port_packet_slot t).

Definition set_prio_ticks (t : Thread) (p : Priority) (ticks : Z) : Thread :=
  mkThread (t_id t) (t_name t) (t_state t) p (t_time_slice t) ticks
    (t_process_id t) (t_entry t) (t_kernel_stack_base_pa t) (t_kernel_stack_size t)
    (t_kernel_sp t) (t_context t) (t_ipc_buf_ptr t) (t_ipc_buf_len t) (t_ipc_actual_len t)
    (t_ipc_transfer_handles t) (t_handle_table t) (t_ipc_transfer_slots t) (t_port_packet_slot t).

(** The fields a blocked receiver shares with the writer that wakes it. *)
Definition set_ipc (t : Thread) (buf len actual : Z) (handles : list (option Z))
    (slots : list (option (Obj * Z))) : Thread :=
  mkThread (t_id t) (t_name t) (t_state t) (t_priority t) (t_time_slice t) (t_remaining_ticks t)
    (t_process_id t) (t_entry t) (t_kernel_stack_base_pa t) (t_kernel_stack_size t)
    (t_kernel_sp t) (t_context t) buf len actual handles (t_handle_table t) slots
    (t_port_packet_slot t).

Definition set_packet (t : Thread) (o : option Pk) : Thread :=
  mkThread (t_id t) (t_name t) (t_state t) (t_priority t) (t_time_slice t) (t_remaining_ticks t)
    (t_process_id t) (t_entry t) (t_kernel_stack_base_pa t) (t_kernel_stack_size t)
    (t_kernel_sp t) (t_context t) (t_ipc_buf_ptr t) (t_ipc_buf_len t) (t_ipc_actual_len t)
    (t_ipc_transfer_handles t) (t_handle_table t) (t_ipc_transfer_slots t) o.

Definition reset_time_slice (t : Thread) : Thread :=
  set_prio_ticks t (t_priority t) (t_time_slice t).

Definition decayed (p : Priority) : Priority :=
  match p with
  | Realtime => High | High => Normal | Normal => Low | Low => Low | Idle => Idle
  end.

Definition decay_priority (t : Thread) : Thread :=
  reset_time_slice (set_prio_ticks t (decayed (t_priority t)) (t_remaining_ticks t)).
End contexts.
Arguments Thread Obj Pk : clear implicits.

(** ** Lemmas *)

(** An allocation leaves the tags of the frames below the cursor. *)
Lemma alloc_next_tag tag p pa :
  phys_wf p -> next_free p < end_free p ->
  page_tag (alloc_next tag p) (next_free p) = Some tag /\
  (pa < next_free p -> page_tag (alloc_next tag p) pa = page_tag p pa).
Proof.
  intros Hwf Hlt. pose proof Hwf as [Hc He [Hal _] _ _]. unfold page_tag, alloc_next. cbn [tags].
  split.
  - assert (pa_valid (next_free p) = true) as ->.
    { unfold pa_valid. apply andb_true_intro. split; [apply Z.leb_le|apply Z.ltb_lt]; lia. }
    rewrite lookup_insert_eq. by destruct tag.
  - intros Hpa. destruct (pa_valid pa) eqn:Hv; [|done]. unfold pa_valid in Hv. reflect.
    rewrite lookup_insert_ne; [done|]. intros Heq%pfn_inj; lia.
Qed.

(** [n] stack pages, one next to the other from the cursor on; a failure
    has used up the pages that were left. *)
Lemma alloc_more_spec n p :
  phys_wf p -> next_free p <= end_free p ->
  exists rs p', alloc_more n p = Some (rs, p') /\ phys_wf p' /\ end_free p' = end_free p /\
    match rs with
    | Ok _ =>
        next_free p' = next_free p + 4096 * Z.of_nat n /\ next_free p' <= end_free p /\
        (forall i, (i < n)%nat ->
          page_tag p' (next_free p + 4096 * Z.of_nat i) = Some TKernelStack) /\
        (forall pa, pa < next_free p -> page_tag p' pa = page_tag p pa)
    | Err e =>
        e = NoMemory /\ next_free p' = end_free p /\
        end_free p < next_free p + 4096 * Z.of_nat n
    end.
Proof.
  revert p. induction n as [|n IH]; intros p Hwf Hle.
  { exists (Ok tt), p. split_and!; (done || lia). }
  cbn [alloc_more]. unfold alloc_kstack_page. rewrite alloc_page_eq by done.
  destruct (end_free p <=? next_free p) eqn:E; reflect.
  { exists (Err NoMemory), p. split_and!; (done || lia). }
  pose proof (aligned_room p Hwf E).
  destruct (IH (alloc_next TKernelStack p)) as (rs & p' & -> & Hwf' & He' & Hrs);
    [by apply alloc_next_wf|done|].
  exists rs, p'. split_and!; [done..|]. cbn [next_free end_free alloc_next] in *.
  destruct rs as [[]|e].
  - destruct Hrs as (Hn & Hb & Ht & Hk). split_and!; [lia|done| |].
    + intros [|i] Hi.
      * rewrite Z.add_0_r, Hk by lia. by apply (alloc_next_tag _ _ 0).
      * replace (next_free p + _) with (next_free p + 4096 + 4096 * Z.of_nat i) by lia.
        apply Ht. lia.
    + intros pa Hpa. rewrite Hk by lia. by apply alloc_next_tag.
  - destruct Hrs as (-> & Hn & Hb). split_and!; (done || lia).
Qed.

Section kstack.
Context {Obj Pk : Type}.

(** A new thread's kernel stack is really there: on a well-formed
    allocator every constructor returns; a thread it returns owns
    [KERNEL_STACK_PAGES] frames that were free, are now tagged as kernel
    stack and lie next to each other, so that the one base address it keeps
    and the stack pointer computed from it describe them all, and its id is
    the counter's.  The only failure is [NoMemory], which leaves the id
    counter and has used up the frames that were left. *)
Theorem thread_new_stack name prio entry ctx next_id p :
  phys_wf p -> next_free p <= end_free p ->
  exists r id' p', @thread_new Obj Pk name prio entry ctx next_id p = Some (r, id', p') /\
    phys_wf p' /\
    match r with
    | Ok t =>
        t_id t = next_id /\ id' = u64w (next_id + 1) /\ t_priority t = prio /\
        t_kernel_stack_base_pa t = next_free p /\
        t_kernel_sp t = u64w (next_free p + KERNEL_OFFSET + 16384) /\
        t_context t = ctx (t_kernel_sp t) /\
        t_remaining_ticks t = t_time_slice t /\
        next_free p' = next_free p + 16384 /\
        (forall i, (i < KERNEL_STACK_PAGES)%nat ->
          page_tag p (next_free p + 4096 * Z.of_nat i) = Some TFree /\
          page_tag p' (next_free p + 4096 * Z.of_nat i) = Some TKernelStack)
    | Err e =>
        e = NoMemory /\ id' = next_id /\ next_free p' = end_free p /\
        end_free p < next_free p + 16384
    end.
Proof.
  intros Hwf Hle. unfold thread_new, alloc_kstack.
  change (alloc_kstack_page p) with (alloc_page TKernelStack p). rewrite alloc_page_eq by done.
  destruct (end_free p <=? next_free p) eqn:E; reflect.
  { exists (Err NoMemory), next_id, p. split_and!; (done || lia). }
  pose proof (aligned_room p Hwf E).
  destruct (alloc_more_spec 3 (alloc_next TKernelStack p)) as (rs & p' & Ha & Hwf' & He & Hrs);
    [by apply alloc_next_wf|done|].
  change (KERNEL_STACK_PAGES - 1)%nat with 3%nat. rewrite Ha.
  cbn [next_free end_free alloc_next] in *. destruct rs as [[]|e].
  - destruct Hrs as (Hn & Hb & Ht & Hk). eexists (Ok _), _, p'. split; [done|]. split; [done|].
    cbn [t_id t_priority t_kernel_stack_base_pa t_kernel_sp t_context t_remaining_ticks t_time_slice].
    split_and!; try done.
    + unfold pa_to_kernel_va, u64w. change KERNEL_STACK_SIZE with 16384.
      by rewrite Zplus_mod_idemp_l.
    + lia.
    + intros i Hi. unfold KERNEL_STACK_PAGES in Hi. split.
      * unfold page_tag, pa_valid. pose proof Hwf as [Hc Hend _ Hf _]. rewrite Hf by lia.
        rewrite (proj2 (Z.leb_le _ _)), (proj2 (Z.ltb_lt _ _)) by lia. done.
      * destruct i as [|i].
        -- rewrite Z.add_0_r, Hk by lia. by apply (alloc_next_tag _ _ 0).
        -- replace (next_free p + _) with (next_free p + 4096 + 4096 * Z.of_nat i) by lia.
           apply Ht. lia.
  - destruct Hrs as (-> & Hn & Hb). eexists (Err NoMemory), next_id, p'.
    split_and!; (done || lia).
Qed.
End kstack.

(** ** Witnesses *)
Section witnesses.
Lemma thread_new_stack_witness :
  exists t p', @new_user 0x1000 unit unit "init"%string 0x200000 0x800000 7 wit_phys =
      Some (Ok t, 8, p') /\
    t_kernel_stack_base_pa t = 0x40080000 /\ t_kernel_sp t = 0xffff800040084000.
Proof.
  destruct (@thread_new_stack unit unit "init"%string Normal 0x200000
              (context_new_user 0x1000 0x200000 0x800000) 7 wit_phys wit_phys_wf)
    as (rr & id' & p' & Hnew & _ & Hr); [vm_compute; congruence|].
  assert (Hn : next_free wit_phys = 0x40080000) by (vm_compute; reflexivity).
  assert (He : end_free wit_phys = 0x40090000) by (vm_compute; reflexivity).
  destruct rr as [t|e].
  - destruct Hr as (_ & -> & _ & Hb & Hsp & _). exists t, p'. split; [exact Hnew|].
    rewrite Hb, Hsp, Hn. split; reflexivity.
  - exfalso. destruct Hr as (_ & _ & _ & Hlt). rewrite Hn, He in Hlt. discriminate Hlt.
Defined.
End witnesses.
