(* ===== verification/Sched.v ===== *)
(** * Sched: the scheduler

    kernel/src/task/scheduler.rs.  Sixteen thread slots, one FIFO of slot
    numbers per priority, the current slot.  [schedule] runs up to the
    context switch and says which one it makes; [resumed] is what the
    switched-out thread executes when it is switched back in.

    The lock masks interrupts and spins, so an operation runs alone; logging,
    the page-table diagnostics and the barriers leave no trace in this
    state.  [l0_of] is [find_process_l0_user_pa] of task/process.rs, and
    [s_ttbr0] the last value given to [set_ttbr0_el1]. *)
From Stdlib Require Import ZArith Lia String.
From stdpp Require Import base tactics option list gmap.
From S2P Require Import Prelude Shared Phys Thread.

Definition MAX_THREADS : nat := 16.
Definition PRIORITY_LEVELS : nat := 5.

(** ** ThreadQueue *)
Record ThreadQueue := mkQueue { q_items : list (option nat); q_count : nat }.

Definition queue_new : ThreadQueue := mkQueue (replicate MAX_THREADS None) 0.

Definition queue_push (q : ThreadQueue) (i : nat) : bool * ThreadQueue :=
  if MAX_THREADS <=? q_count q then (false, q)
  else (true, mkQueue (<[q_count q := Some i]> (q_items q)) (q_count q + 1)).

(** [for i in 1..count { items[i - 1] = items[i] }], from index [i]. *)
Fixpoint shift_down (n i : nat) (items : list (option nat)) : list (option nat) :=
  match n with
  | 0 => items
  | S n' =>
      match items !! i with
      | Some o => shift_down n' (S i) (<[i - 1 := o]> items)
      | None => items
      end
  end.

Definition queue_pop (q : ThreadQueue) : option nat * ThreadQueue :=
  if q_count q =? 0 then (None, q)
  else
    let result := default None (q_items q !! 0) in
    let items := shift_down (q_count q - 1) 1 (q_items q) in
    let count := q_count q - 1 in
    (result, mkQueue (<[count := None]> items) count).

Definition queue_is_empty (q : ThreadQueue) : bool := q_count q =? 0.

(** ** Scheduler *)
Section sched.
Context {Obj Pk : Type} (l0_of : Z -> option (Z * Z)).

Record Scheduler := mkSched {
  threads : list (option (Thread Obj Pk));
  queues : list ThreadQueue;
  current_idx : option nat;
  running : bool;
  s_ttbr0 : option (Z * Z)
}.

Definition sched_new : Scheduler :=
  mkSched (replicate MAX_THREADS None) (replicate PRIORITY_LEVELS queue_new) None false None.

Definition set_threads (s : Scheduler) (l : list (option (Thread Obj Pk))) : Scheduler :=
  mkSched l (queues s) (current_idx s) (running s) (s_ttbr0 s).
Definition set_queues (s : Scheduler) (l : list ThreadQueue) : Scheduler :=
  mkSched (threads s) l (current_idx s) (running s) (s_ttbr0 s).
Definition set_current (s : Scheduler) (o : option nat) : Scheduler :=
  mkSched (threads s) (queues s) o (running s) (s_ttbr0 s).
Definition load_ttbr0 (s : Scheduler) (pid : Z) : Scheduler :=
  match l0_of pid with
  | Some v => mkSched (threads s) (queues s) (current_idx s) (running s) (Some v)
  | None => s
  end.

Definition thread_at (s : Scheduler) (i : nat) : option (Thread Obj Pk) :=
  mjoin (threads s !! i).

Definition upd_thread (s : Scheduler) (i : nat) (f : Thread Obj Pk -> Thread Obj Pk) : Scheduler :=
  match thread_at s i with
  | Some t => set_threads s (<[i := Some (f t)]> (threads s))
  | None => s
  end.

Definition find_empty_slot (s : Scheduler) : option nat := first_free (threads s).

(** The push into the queue of one priority. *)
Definition push_at (s : Scheduler) (pr : nat) (i : nat) : bool * Scheduler :=
  match queues s !! pr with
  | Some q => let '(b, q') := queue_push q i in (b, set_queues s (<[pr := q']> (queues s)))
  | None => (false, s)
  end.

(** [None] is one of the two panics. *)
Definition add (s : Scheduler) (t : Thread Obj Pk) : option Scheduler :=
  match find_empty_slot s with
  | None => None
  | Some idx =>
      let s1 := set_threads s (<[idx := Some (set_state t Ready)]> (threads s)) in
      let '(ok, s2) := push_at s1 (priority_to_index (t_priority t)) idx in
      if ok then Some s2 else None
  end.

(** [(0..PRIORITY_LEVELS).find_map(|i| queues[i].pop_highest_priority())] *)
Fixpoint pop_first (qs : list ThreadQueue) : option nat * list ThreadQueue :=
  match qs with
  | [] => (None, [])
  | q :: qs' =>
      match queue_pop q with
      | (Some i, q') => (Some i, q' :: qs')
      | (None, q') => let '(o, qs'') := pop_first qs' in (o, q' :: qs'')
      end
  end.

Definition alive (o : option (Thread Obj Pk)) : bool :=
  match o with Some t => negb (bool_decide (t_state t = Dead)) | None => false end.

(** The linear scan of the slots. *)
Definition first_alive (s : Scheduler) : option nat := find_index alive (threads s).

Fixpoint pop_next_loop (n : nat) (s : Scheduler) : option nat * Scheduler :=
  match n with
  | 0 => (None, s)
  | S n' =>
      match pop_first (queues s) with
      | (None, qs) => (first_alive s, set_queues s qs)
      | (Some idx, qs) =>
          let s1 := set_queues s qs in
          if alive (thread_at s idx) then (Some idx, s1) else pop_next_loop n' s1
      end
  end.

Definition pop_next_from_all_queues (s : Scheduler) : option nat * Scheduler :=
  pop_next_loop MAX_THREADS s.

Definition requeue_current (s : Scheduler) (idx : nat) : Scheduler :=
  match thread_at s idx with
  | Some t => (push_at s (priority_to_index (t_priority t)) idx).2
  | None => s
  end.

(** [run]: the slot it switches to; [None] is its panic. *)
Definition run (s : Scheduler) : option (nat * Scheduler) :=
  let s0 := mkSched (threads s) (queues s) (current_idx s) true (s_ttbr0 s) in
  match pop_next_from_all_queues s0 with
  | (Some idx, s1) =>
      let s2 := set_current s1 (Some idx) in
      let s3 := upd_thread s2 idx (fun t => reset_time_slice (set_state t Running)) in
      match thread_at s3 idx with Some _ => Some (idx, s3) | None => None end
  | (None, _) => None
  end.

Inductive outcome :=
| NotRunning
| NoCurrent
| Same (idx : nat)
| SwitchTo (prev next : nat)
| Halted
| Idled.

(** The accounting of the thread that was running: it becomes [Ready],
    loses a tick, and decays when its slice is used up. *)
Definition account (t : Thread Obj Pk) : Thread Obj Pk :=
  let t1 := if bool_decide (t_state t = Running) then set_state t Ready else t in
  let t2 := set_prio_ticks t1 (t_priority t1) (Z.max 0 (t_remaining_ticks t1 - 1)) in
  if (t_remaining_ticks t2 =? 0)%Z then decay_priority t2 else t2.

(** [schedule] until it returns or switches; [None] is an [unwrap] panic. *)
Definition schedule (s : Scheduler) : option (outcome * Scheduler) :=
  if negb (running s) then Some (NotRunning, s)
  else
    match current_idx s with
    | None => Some (NoCurrent, s)
    | Some prev_idx =>
        let s1 := upd_thread s prev_idx account in
        let prev_state :=
          match thread_at s1 prev_idx with Some t => t_state t | None => Dead end in
        let s2 := if bool_decide (prev_state = Ready) then requeue_current s1 prev_idx else s1 in
        match pop_next_from_all_queues s2 with
        | (Some next_idx, s3) =>
            let s4 := upd_thread s3 next_idx (fun t => reset_time_slice (set_state t Running)) in
            let s5 := set_current s4 (Some next_idx) in
            if (prev_idx =? next_idx) && negb (bool_decide (prev_state = Dead)) then
              match thread_at s5 prev_idx with
              | Some t => Some (Same prev_idx, load_ttbr0 s5 (t_process_id t))
              | None => None
              end
            else
              match thread_at s5 prev_idx, thread_at s5 next_idx with
              | Some _, Some t => Some (SwitchTo prev_idx next_idx, load_ttbr0 s5 (t_process_id t))
              | _, _ => None
              end
        | (None, s3) =>
            if forallb (fun o => negb (alive o)) (threads s3) then Some (Halted, s3)
            else Some (Idled, set_current s3 None)
        end
    end.

(** After the switch back in, the thread reloads its own page table. *)
Definition resumed (s : Scheduler) (prev_idx : nat) : Scheduler :=
  match thread_at s prev_idx with
  | Some t => load_ttbr0 s (t_process_id t)
  | None => s
  end.

(** [get_current_thread_ptr] and [get_thread_ptr] give a slot number where
    the code gives a pointer into the slot. *)
Definition get_current_thread_ptr (s : Scheduler) : option nat :=
  match current_idx s with
  | Some i => if decide (is_Some (thread_at s i)) then Some i else None
  | None => None
  end.

Definition get_thread_ptr (s : Scheduler) (tid : Z) : option nat :=
  find_slot (fun t => (t_id t =? tid)%Z) (threads s).

Definition blocked_as (tid : Z) (t : Thread Obj Pk) : bool :=
  (t_id t =? tid)%Z && (bool_decide (t_state t = Blocked) || bool_decide (t_state t = Sleeping)).

Definition wake_thread (s : Scheduler) (tid : Z) : Scheduler :=
  match find_slot (blocked_as tid) (threads s) with
  | Some i => requeue_current (upd_thread s i (fun t => set_state t Ready)) i
  | None => s
  end.
End sched.
Arguments Scheduler Obj Pk : clear implicits.

(** ** Queues as lists *)
Definition queue_of (l : list nat) : ThreadQueue :=
  mkQueue (map Some l ++ replicate (MAX_THREADS - length l) None) (length l).

Lemma queue_new_of : queue_new = queue_of [].
Proof. done. Qed.

Lemma queue_push_of l i :
  queue_push (queue_of l) i =
  if MAX_THREADS <=? length l then (false, queue_of l) else (true, queue_of (l ++ [i])).
Proof.
  unfold queue_push. cbn [queue_of q_count q_items].
  destruct (MAX_THREADS <=? length l) eqn:E; reflect; [done|]. f_equal.
  unfold queue_of. rewrite length_app, map_app. cbn [length map]. f_equal.
  replace (MAX_THREADS - length l) with (S (MAX_THREADS - (length l + 1))) by lia.
  cbn [replicate]. rewrite insert_app_r_alt by (rewrite length_map; lia).
  rewrite length_map, Nat.sub_diag. cbn. by rewrite <- app_assoc.
Qed.

Lemma shift_down_spec l pre o suf :
  shift_down (length l) (S (length pre)) (pre ++ o :: l ++ suf) =
  pre ++ l ++ [default o (last l)] ++ suf.
Proof.
  revert pre o. induction l as [|y l IH]; intros pre o; [done|]. cbn [length shift_down].
  assert (Hl : (pre ++ o :: (y :: l) ++ suf) !! S (length pre) = Some y).
  { rewrite lookup_app_r by lia. by replace (S (length pre) - length pre) with 1 by lia. }
  rewrite Hl. replace (S (length pre) - 1) with (length pre) by lia.
  replace (<[length pre := y]> (pre ++ o :: (y :: l) ++ suf))
    with ((pre ++ [y]) ++ y :: l ++ suf).
  - replace (S (S (length pre))) with (S (length (pre ++ [y]))) by (rewrite length_app; simpl; lia).
    rewrite IH, <- app_assoc. cbn. do 3 f_equal.
    destruct l as [|z l]; [done|]. rewrite last_cons_cons.
    destruct (last (z :: l)) eqn:E; [done|]. by apply last_None in E.
  - rewrite insert_app_r_alt by lia. rewrite Nat.sub_diag. cbn. by rewrite <- app_assoc.
Qed.

Lemma queue_pop_of l :
  length l <= MAX_THREADS ->
  queue_pop (queue_of l) =
  match l with [] => (None, queue_of []) | i :: l' => (Some i, queue_of l') end.
Proof.
  intros Hl. destruct l as [|i l]; [done|]. unfold queue_pop, queue_of. cbn [q_count q_items].
  cbn [length Nat.eqb map app lookup list_lookup default]. rewrite Nat.sub_succ, Nat.sub_0_r.
  pose proof (shift_down_spec (map Some l) [] (Some i)
    (replicate (MAX_THREADS - S (length l)) None)) as Hs.
  rewrite length_map in Hs. cbn [length app] in Hs. cbn [app]. rewrite Hs.
  do 2 f_equal. rewrite insert_app_r_alt by (rewrite length_map; lia).
  rewrite length_map, Nat.sub_diag. f_equal. cbn [app insert list_insert].
  by replace (MAX_THREADS - length l) with (S (MAX_THREADS - S (length l))) by (simpl in Hl; lia).
Qed.

(** Dropping the first element of the first non-empty list. *)
Fixpoint pop_lists (ls : list (list nat)) : list (list nat) :=
  match ls with
  | [] => []
  | [] :: ls' => [] :: pop_lists ls'
  | (_ :: l) :: ls' => l :: ls'
  end.

Lemma pop_first_of ls :
  Forall (fun l => length l <= MAX_THREADS) ls ->
  pop_first (map queue_of ls) =
  match concat ls with
  | [] => (None, map queue_of ls)
  | i :: _ => (Some i, map queue_of (pop_lists ls))
  end.
Proof.
  induction 1 as [|l ls Hl _ IH]; [done|]. cbn [map pop_first].
  rewrite queue_pop_of by done. destruct l as [|i l]; [|done].
  rewrite IH. cbn [concat app pop_lists]. by destruct (concat ls).
Qed.

Lemma pop_lists_concat ls i rest : concat ls = i :: rest -> concat (pop_lists ls) = rest.
Proof.
  induction ls as [|[|j l] ls IH]; [done| |]; cbn; [apply IH|by intros [= _ <-]].
Qed.

(** Each list of [ls'] is what is left of the list of [ls] at its place. *)
Definition suffixes (ls' ls : list (list nat)) : Prop := Forall2 (fun l' l => l' `suffix_of` l) ls' ls.

Lemma suffixes_refl ls : suffixes ls ls.
Proof. apply Forall_Forall2_diag, Forall_true. intros l. done. Qed.

Lemma suffixes_trans ls1 ls2 ls3 : suffixes ls1 ls2 -> suffixes ls2 ls3 -> suffixes ls1 ls3.
Proof. intros H12 H23. eapply Forall2_trans; [|exact H12|exact H23]. intros a b c ??. by transitivity b. Qed.

Lemma pop_lists_suffixes ls : suffixes (pop_lists ls) ls.
Proof.
  induction ls as [|[|j l] ls IH]; cbn; constructor; try done.
  by apply suffix_cons_r.
Qed.

Lemma suffixes_lookup ls' ls pr l' :
  suffixes ls' ls -> ls' !! pr = Some l' -> exists l, ls !! pr = Some l /\ l' `suffix_of` l.
Proof. intros H Hl. by eapply Forall2_lookup_l in H. Qed.

Lemma suffixes_length ls' ls n :
  suffixes ls' ls -> Forall (fun l => length l <= n) ls -> Forall (fun l => length l <= n) ls'.
Proof.
  induction 1 as [|l' l ls' ls Hs _ IH]; [done|]. rewrite !Forall_cons. intros [Hl Hls].
  split; [|by apply IH]. apply suffix_length in Hs. lia.
Qed.

(** ** Picking the next thread *)
Section picks.
Context {Obj Pk : Type} (l0_of : Z -> option (Z * Z)).
Implicit Types (s : Scheduler Obj Pk) (ls : list (list nat)).

(** The queue part of a scheduler state, as lists. *)
Definition has_queues s ls : Prop :=
  queues s = map queue_of ls /\ Forall (fun l => length l <= MAX_THREADS) ls.

(** What a pick leaves: either the first live entry in queue order, the
    entries before it dropped, or no live entry at all. *)
Definition picked s ls (n : nat) (o : option nat) ls' : Prop :=
  (exists dropped i, o = Some i /\ concat ls = dropped ++ i :: concat ls' /\
     alive (thread_at s i) = true /\
     Forall (fun j => alive (thread_at s j) = false) dropped) \/
  (concat ls' = [] /\ Forall (fun j => alive (thread_at s j) = false) (concat ls) /\
     (o = first_alive s \/ o = None /\ length (concat ls) = n)).

Lemma pop_next_loop_spec n s ls o s' :
  has_queues s ls -> length (concat ls) <= n ->
  pop_next_loop n s = (o, s') ->
  exists ls', s' = set_queues s (map queue_of ls') /\ suffixes ls' ls /\ picked s ls n o ls'.
Proof.
  revert s ls. induction n as [|n IH]; intros s ls [Hq Hf] Hn Hp; cbn [pop_next_loop] in Hp.
  { simplify_eq. exists ls. split; [rewrite <- Hq; by destruct s'|].
    split; [apply suffixes_refl|]. right. destruct (concat ls); [|simpl in Hn; lia].
    split_and!; [done..|by right]. }
  rewrite Hq, (pop_first_of ls Hf) in Hp. destruct (concat ls) as [|i rest] eqn:Hc.
  - simplify_eq. exists ls. split; [done|]. split; [apply suffixes_refl|]. right.
    rewrite Hc. split_and!; [done..|by left].
  - pose proof (pop_lists_concat _ _ _ Hc) as Hpop. pose proof (pop_lists_suffixes ls) as Hsuf.
    destruct (alive (thread_at _ i)) eqn:Hal; [injection Hp as <- <-|].
    + exists (pop_lists ls). split_and!; [done..|]. left.
      exists [], i. by rewrite Hpop, Hc.
    + change (thread_at (set_queues s _) i) with (thread_at s i) in Hal.
      apply (IH _ (pop_lists ls)) in Hp as (ls' & -> & Hs' & Hpk).
      * exists ls'. split; [done|]. split; [by eapply suffixes_trans|].
        unfold picked in *. rewrite Hpop, Hc in *.
        destruct Hpk as [(dr & k & -> & -> & Hk & Hdr)|(? & Hd & Ho)].
        -- left. exists (i :: dr), k. split_and!; [done..|]. by apply Forall_cons.
        -- right. split_and!; [done|by apply Forall_cons|].
           destruct Ho as [->|[-> Hlen]]; [by left|right; split; [done|simpl; lia]].
      * split; [done|]. by eapply suffixes_length.
      * rewrite Hpop. simpl in Hn. lia.
Qed.

(** The invariant of the queues and slots: sixteen slots, a slot number at
    most once in all the queues, in the queue of its thread's priority, and
    queued threads are [Ready] or have died since. *)
Record queue_inv s ls : Prop := {
  inv_slots : length (threads s) = MAX_THREADS;
  inv_levels : length ls = PRIORITY_LEVELS;
  inv_queues : queues s = map queue_of ls;
  inv_nodup : NoDup (concat ls);
  inv_queued : forall pr l i, ls !! pr = Some l -> i ∈ l ->
    exists t, thread_at s i = Some t /\ (t_state t = Ready \/ t_state t = Dead) /\
      priority_to_index (t_priority t) = pr
}.

Lemma thread_at_lt s i t : thread_at s i = Some t -> i < length (threads s).
Proof.
  unfold thread_at. destruct (threads s !! i) eqn:H; [|done]. intros _.
  by eapply lookup_lt_Some.
Qed.

Lemma elem_of_concat ls (i : nat) :
  i ∈ concat ls <-> exists pr l, ls !! pr = Some l /\ i ∈ l.
Proof.
  split.
  - intros Hi. apply list_elem_of_In, in_concat in Hi as (l & Hl & Hi).
    apply list_elem_of_In, list_elem_of_lookup_1 in Hl as [pr Hpr].
    exists pr, l. split; [done|]. by apply list_elem_of_In.
  - intros (pr & l & Hl & Hi). apply list_elem_of_In, in_concat. exists l.
    split; apply list_elem_of_In; [|done]. by eapply list_elem_of_lookup_2.
Qed.

Lemma inv_elem s ls i :
  queue_inv s ls -> i ∈ concat ls ->
  exists t, thread_at s i = Some t /\ (t_state t = Ready \/ t_state t = Dead).
Proof.
  intros Hinv (pr & l & Hl & Hi)%elem_of_concat.
  destruct (inv_queued s ls Hinv pr l i Hl Hi) as (t & Ht & Hst & _). eauto.
Qed.

(** All slot numbers are below sixteen, so no queue overflows. *)
Lemma nodup_bounded (l : list nat) n :
  NoDup l -> (forall i, i ∈ l -> i < n) -> length l <= n.
Proof.
  intros Hnd Hb. rewrite <- (length_seq n 0). apply submseteq_length.
  apply NoDup_submseteq; [done|]. intros i Hi. apply elem_of_seq. specialize (Hb i Hi). lia.
Qed.

Lemma inv_total s ls : queue_inv s ls -> length (concat ls) <= MAX_THREADS.
Proof.
  intros Hinv. apply nodup_bounded; [apply Hinv|]. intros i Hi.
  destruct (inv_elem s ls i Hinv Hi) as (t & Ht & _). apply thread_at_lt in Ht.
  by rewrite (inv_slots s ls Hinv) in Ht.
Qed.

Lemma length_concat_ge ls l : l ∈ ls -> length l <= length (concat ls).
Proof.
  induction 1 as [|l' ls ? _ IH]; cbn; rewrite length_app; lia.
Qed.

Lemma inv_has_queues s ls : queue_inv s ls -> has_queues s ls.
Proof.
  intros Hinv. split; [apply Hinv|]. apply Forall_forall. intros l Hl.
  pose proof (inv_total s ls Hinv). pose proof (length_concat_ge ls l Hl). lia.
Qed.

Lemma alive_true s i t : thread_at s i = Some t -> (alive (thread_at s i) = true) <-> t_state t <> Dead.
Proof. intros ->. cbn. rewrite negb_true_iff, bool_decide_eq_false. done. Qed.

Lemma first_alive_None s :
  first_alive s = None <-> (forallb (fun o => negb (alive o)) (threads s) = true).
Proof.
  unfold first_alive. rewrite find_index_None, forallb_forall. split.
  - intros H o Ho. apply list_elem_of_In, list_elem_of_lookup_1 in Ho as [i Hi].
    by rewrite (H i o Hi).
  - intros H i o Hi. apply list_elem_of_lookup_2, list_elem_of_In in Hi. specialize (H o Hi).
    by apply negb_true_iff.
Qed.

Lemma first_alive_Some s i :
  first_alive s = Some i ->
  alive (thread_at s i) = true /\ (forall j, j < i -> alive (thread_at s j) = false).
Proof.
  intros [(o & Ho & Ha) Hlt]%find_index_Some. unfold thread_at. rewrite Ho.
  destruct o as [t|]; [|done]. split; [done|]. intros j Hj.
  destruct (threads s !! j) as [o|] eqn:Hoj; [|done]. specialize (Hlt j o Hj Hoj). by destruct o.
Qed.

(** With every one of the sixteen slots queued and dead, nothing is alive. *)
Lemma all_queued_dead s ls :
  queue_inv s ls -> length (concat ls) = MAX_THREADS ->
  Forall (fun j => alive (thread_at s j) = false) (concat ls) -> first_alive s = None.
Proof.
  intros Hinv Hlen Hdead. destruct (first_alive s) as [i|] eqn:Hf; [|done].
  apply first_alive_Some in Hf as [Ha _]. exfalso.
  assert (Hi : i ∈ concat ls).
  { destruct (decide (i ∈ concat ls)) as [|Hn]; [done|]. exfalso.
    assert (length (i :: concat ls) <= MAX_THREADS); [|simpl in *; lia].
    apply nodup_bounded; [constructor; [done|apply Hinv]|]. intros j.
    rewrite elem_of_cons. intros [->|Hj].
    - destruct (thread_at s i) eqn:Ht; [|done]. apply thread_at_lt in Ht.
      by rewrite (inv_slots s ls Hinv) in Ht.
    - destruct (inv_elem s ls j Hinv Hj) as (t & Ht & _). apply thread_at_lt in Ht.
      by rewrite (inv_slots s ls Hinv) in Ht. }
  rewrite Forall_forall in Hdead. rewrite (Hdead i Hi) in Ha. done.
Qed.

(** The pick of [pop_next_from_all_queues]: the live entry that is first in
    queue order if there is one, else the live slot of least number. *)
Definition best s ls : option nat :=
  match list_find (fun i => alive (thread_at s i) = true) (concat ls) with
  | Some (_, i) => Some i
  | None => first_alive s
  end.

Lemma list_find_first s dr i rest :
  Forall (fun j => alive (thread_at s j) = false) dr -> alive (thread_at s i) = true ->
  list_find (fun i => alive (thread_at s i) = true) (dr ++ i :: rest) = Some (length dr, i).
Proof.
  intros Hdr Hi. apply list_find_Some. split_and!.
  - by apply list_lookup_middle.
  - done.
  - intros j y Hj Hlt. rewrite lookup_app_l in Hj by done.
    apply list_elem_of_lookup_2 in Hj. rewrite Forall_forall in Hdr. rewrite (Hdr y Hj). done.
Qed.

Lemma list_find_dead s l :
  Forall (fun j => alive (thread_at s j) = false) l ->
  list_find (fun i => alive (thread_at s i) = true) l = None.
Proof.
  intros H. apply list_find_None. eapply Forall_impl; [exact H|]. intros j Hj Ha.
  simpl in Hj. congruence.
Qed.

Lemma pop_next_spec s ls o s' :
  queue_inv s ls -> pop_next_from_all_queues s = (o, s') ->
  o = best s ls /\
  exists ls', s' = set_queues s (map queue_of ls') /\ suffixes ls' ls /\
    (forall i, o = Some i -> (i ∉ concat ls') /\ alive (thread_at s i) = true) /\
    (forall j, j ∈ concat ls -> alive (thread_at s j) = true -> o = Some j \/ j ∈ concat ls').
Proof.
  intros Hinv Hp. pose proof (inv_has_queues s ls Hinv) as Hh.
  destruct (pop_next_loop_spec _ s ls o s' Hh (inv_total s ls Hinv) Hp) as (ls' & -> & Hsuf & Hpk).
  pose proof (inv_nodup s ls Hinv) as Hnd. unfold best.
  destruct Hpk as [(dr & i & -> & Hc & Hi & Hdr)|(Hc' & Hdead & Ho)].
  - rewrite Hc in *. rewrite list_find_first by done. split; [done|]. exists ls'.
    split_and!; [done..| |].
    + intros ? [= <-]. split; [|done].
      apply NoDup_app in Hnd as (_ & _ & Hnd). by apply NoDup_cons in Hnd as [? _].
    + intros j [Hj|[->|Hj]%elem_of_cons]%elem_of_app Ha; [|by left|by right].
      rewrite Forall_forall in Hdr. rewrite (Hdr j Hj) in Ha. done.
  - rewrite list_find_dead by done.
    assert (o = first_alive s) as ->.
    { destruct Ho as [->|[-> Hlen]]; [done|]. by rewrite (all_queued_dead s ls). }
    split; [done|]. exists ls'. split_and!; [done..| |].
    + intros i Hi. rewrite Hc'. split; [by apply not_elem_of_nil|].
      by apply first_alive_Some in Hi as [? _].
    + intros j Hj Ha. rewrite Forall_forall in Hdead. rewrite (Hdead j Hj) in Ha. done.
Qed.

(** ** The invariant, kept by every operation *)

(** The current slot holds a thread and is not queued. *)
Definition sched_inv s ls : Prop :=
  queue_inv s ls /\
  forall c, current_idx s = Some c -> (c ∉ concat ls) /\ exists t, thread_at s c = Some t.

Lemma thread_at_upd s i f j :
  thread_at (upd_thread s i f) j =
  if decide (i = j) then f <$> thread_at s j else thread_at s j.
Proof.
  unfold upd_thread. destruct (thread_at s i) as [t|] eqn:Ht.
  - pose proof (thread_at_lt s i t Ht). unfold thread_at in *. cbn [set_threads threads].
    case_decide as Hij; [subst j|by rewrite list_lookup_insert_ne].
    rewrite list_lookup_insert_eq by done. by rewrite Ht.
  - case_decide; [subst j|done]. by rewrite Ht.
Qed.

Lemma upd_thread_frame s i f :
  queues (upd_thread s i f) = queues s /\ current_idx (upd_thread s i f) = current_idx s /\
  running (upd_thread s i f) = running s /\
  length (threads (upd_thread s i f)) = length (threads s).
Proof.
  unfold upd_thread. destruct (thread_at s i); [|done]. cbn. by rewrite length_insert.
Qed.

Lemma upd_inv s ls i f :
  queue_inv s ls ->
  (forall t, thread_at s i = Some t -> i ∈ concat ls ->
    t_priority (f t) = t_priority t /\ (t_state (f t) = Ready \/ t_state (f t) = Dead)) ->
  queue_inv (upd_thread s i f) ls.
Proof.
  intros [H1 H2 H3 H4 H5] Hf. destruct (upd_thread_frame s i f) as (Hq & _ & _ & Hl).
  constructor; [by rewrite Hl|done|by rewrite Hq|done|].
  intros pr l j Hpr Hj. destruct (H5 pr l j Hpr Hj) as (t & Ht & Hst & Hp).
  rewrite thread_at_upd. case_decide; [subst j|by exists t].
  destruct (Hf t Ht) as [Hfp Hfs]; [apply elem_of_concat; eauto|].
  exists (f t). rewrite Ht, Hfp. done.
Qed.

(** Slot [i] put at the end of the queue of priority [pr]. *)
Definition enqueue ls (pr i : nat) : list (list nat) := alter (fun l => l ++ [i]) pr ls.

Lemma enqueue_perm ls pr i : pr < length ls -> concat (enqueue ls pr i) ≡ₚ i :: concat ls.
Proof.
  intros Hpr. destruct (lookup_lt_is_Some_2 ls pr Hpr) as [l Hl]. unfold enqueue.
  revert pr Hpr Hl. induction ls as [|l' ls IH]; intros pr Hpr Hl; [done|].
  destruct pr as [|pr]; simpl in *.
  - rewrite <- app_assoc. symmetry. by apply Permutation_middle.
  - fold (alter (fun l => l ++ [i]) pr ls). rewrite (IH pr) by (done || lia).
    symmetry. by apply Permutation_middle.
Qed.

Lemma priority_lt p : priority_to_index p < PRIORITY_LEVELS.
Proof. destruct p; unfold PRIORITY_LEVELS; simpl; lia. Qed.

(** A [Ready] thread that is not queued can be queued: the push succeeds. *)
Lemma push_inv s ls i t :
  queue_inv s ls -> i ∉ concat ls -> thread_at s i = Some t -> t_state t = Ready ->
  let pr := priority_to_index (t_priority t) in
  push_at s pr i = (true, set_queues s (map queue_of (enqueue ls pr i))) /\
  queue_inv (set_queues s (map queue_of (enqueue ls pr i))) (enqueue ls pr i).
Proof.
  intros Hinv Hni Ht Hst pr. pose proof Hinv as [H1 H2 H3 H4 H5].
  assert (Hpr : pr < length ls) by (rewrite H2; apply priority_lt).
  destruct (lookup_lt_is_Some_2 ls pr Hpr) as [l Hl].
  pose proof (enqueue_perm ls pr i Hpr) as Hperm.
  assert (Hnd : NoDup (concat (enqueue ls pr i))) by (rewrite Hperm; by constructor).
  assert (Hlen : length l < MAX_THREADS).
  { assert (length (i :: concat ls) <= MAX_THREADS).
    { apply nodup_bounded; [by constructor|]. intros j. rewrite elem_of_cons, <- H1.
      intros [->|Hj]; [by eapply thread_at_lt|].
      destruct (inv_elem s ls j Hinv Hj) as (t' & Ht' & _). by eapply thread_at_lt. }
    pose proof (length_concat_ge ls l ltac:(by eapply list_elem_of_lookup_2)). simpl in *. lia. }
  split.
  - unfold push_at. rewrite H3, list_lookup_fmap, Hl. cbn [fmap option_fmap option_map].
    rewrite queue_push_of. destruct (_ <=? _) eqn:E; reflect; [lia|]. do 2 f_equal.
    unfold enqueue. symmetry. apply list_eq. intros k. rewrite list_lookup_fmap.
    destruct (decide (k = pr)) as [->|Hk].
    + rewrite list_lookup_alter_eq, Hl, list_lookup_insert_eq; [done|].
      by rewrite length_map.
    + by rewrite list_lookup_alter_ne, list_lookup_insert_ne, list_lookup_fmap by done.
  - constructor; [done| |done|done|].
    + unfold enqueue. by rewrite length_alter.
    + intros k l' j Hk Hj. unfold enqueue in Hk. destruct (decide (k = pr)) as [->|Hne].
      * rewrite list_lookup_alter_eq, Hl in Hk. simplify_eq/=.
        apply elem_of_app in Hj as [Hj|Hj%list_elem_of_singleton]; [by apply (H5 _ l)|subst j].
        exists t. split; [done|]. split; [by left|done].
      * rewrite list_lookup_alter_ne in Hk by done. by apply (H5 _ l').
Qed.

(** Dropping a prefix of each queue keeps the invariant. *)
Lemma suffix_inv s ls ls' :
  queue_inv s ls -> suffixes ls' ls -> queue_inv (set_queues s (map queue_of ls')) ls'.
Proof.
  intros [H1 H2 H3 H4 H5] Hsuf. constructor; [done| |done| |].
  - by rewrite (Forall2_length _ _ _ Hsuf).
  - eapply sublist_NoDup; [exact H4|]. clear -Hsuf.
    induction Hsuf as [|l' l ls' ls [pre ->] _ IH]; cbn; [done|].
    apply sublist_app; [|done]. by apply sublist_inserts_l.
  - intros pr l' j Hpr Hj. destruct (suffixes_lookup _ _ _ _ Hsuf Hpr) as (l & Hl & pre & ->).
    apply (H5 pr _ j Hl). apply elem_of_app. by right.
Qed.

(** Every thread has the default slice, and the current one a full one. *)
Definition slices_ok s : Prop :=
  forall i t, thread_at s i = Some t ->
    t_time_slice t = DEFAULT_TIME_SLICE /\
    (1 <= t_remaining_ticks t <= DEFAULT_TIME_SLICE)%Z /\
    (current_idx s = Some i -> t_remaining_ticks t = DEFAULT_TIME_SLICE).

Definition mark_running (t : Thread Obj Pk) : Thread Obj Pk :=
  reset_time_slice (set_state t Running).

(** With a full slice the accounting takes one tick and no priority. *)
Lemma account_full (t : Thread Obj Pk) :
  t_remaining_ticks t = DEFAULT_TIME_SLICE ->
  t_priority (account t) = t_priority t /\ t_time_slice (account t) = t_time_slice t /\
  t_id (account t) = t_id t /\
  t_remaining_ticks (account t) = (DEFAULT_TIME_SLICE - 1)%Z /\
  t_state (account t) = (if bool_decide (t_state t = Running) then Ready else t_state t).
Proof.
  intros Hr. unfold account, DEFAULT_TIME_SLICE in *. case_bool_decide; cbn; rewrite Hr; done.
Qed.

Lemma alive_upd s i (f : Thread Obj Pk -> Thread Obj Pk) j :
  (forall t, thread_at s i = Some t -> t_state (f t) = Dead <-> t_state t = Dead) ->
  alive (thread_at (upd_thread s i f) j) = alive (thread_at s j).
Proof.
  intros Hf. rewrite thread_at_upd. case_decide; [subst j|done].
  destruct (thread_at s i) as [t|] eqn:Ht; [|done]. cbn. f_equal.
  apply bool_decide_ext. by apply Hf.
Qed.

Lemma first_alive_ext s1 s2 :
  length (threads s1) = length (threads s2) ->
  (forall j, alive (thread_at s1 j) = alive (thread_at s2 j)) -> first_alive s1 = first_alive s2.
Proof.
  unfold first_alive, thread_at. generalize (threads s1) (threads s2).
  induction l as [|o1 l1 IH]; intros [|o2 l2] Hl H; try done. cbn in *.
  specialize (H 0) as H0. cbn in H0. rewrite H0. destruct (alive o2); [done|]. f_equal.
  apply IH; [lia|]. intros j. apply (H (S j)).
Qed.

Lemma best_ext s1 s2 ls :
  length (threads s1) = length (threads s2) ->
  (forall j, alive (thread_at s1 j) = alive (thread_at s2 j)) -> best s1 ls = best s2 ls.
Proof.
  intros Hl H. unfold best. rewrite (first_alive_ext s1 s2) by done.
  replace (list_find (fun i => alive (thread_at s1 i) = true) (concat ls))
    with (list_find (fun i => alive (thread_at s2 i) = true) (concat ls)); [done|].
  induction (concat ls) as [|i l IH]; [done|]. cbn. rewrite IH.
  by repeat case_decide; rewrite H in *.
Qed.

(** The queues [schedule] picks from: the running thread has been put at
    the end of its queue if it is still ready. *)
Definition offered s ls (c : nat) : list (list nat) :=
  match thread_at s c with
  | Some t =>
      if bool_decide (t_state t = Running) || bool_decide (t_state t = Ready)
      then enqueue ls (priority_to_index (t_priority t)) c else ls
  | None => ls
  end.

Definition is_dead s (i : nat) : bool := negb (alive (thread_at s i)).

Definition after_pick s (c n : nat) ls' : Scheduler Obj Pk :=
  set_current (upd_thread (set_queues (upd_thread s c account) (map queue_of ls')) n mark_running)
    (Some n).

Definition sched_result s (c n : nat) : outcome :=
  if (c =? n) && negb (is_dead s c) then Same c else SwitchTo c n.

Lemma account_alive s c j :
  slices_ok s -> current_idx s = Some c ->
  alive (thread_at (upd_thread s c account) j) = alive (thread_at s j).
Proof.
  intros Hsl Hc. apply alive_upd. intros t Ht. destruct (Hsl c t Ht) as (_ & _ & Hfull).
  destruct (account_full t (Hfull Hc)) as (_ & _ & _ & _ & ->). case_bool_decide; [|done].
  split; congruence.
Qed.

(** Everything up to the pick. *)
Lemma schedule_requeue s ls c t :
  sched_inv s ls -> slices_ok s -> current_idx s = Some c -> thread_at s c = Some t ->
  let s1 := upd_thread s c account in
  let prev_state := match thread_at s1 c with Some t => t_state t | None => Dead end in
  let s2 := if bool_decide (prev_state = Ready) then requeue_current s1 c else s1 in
  s2 = set_queues s1 (map queue_of (offered s ls c)) /\
  queue_inv s2 (offered s ls c) /\
  bool_decide (prev_state = Dead) = is_dead s c.
Proof.
  intros [Hinv Hcur] Hsl Hc Ht s1 prev_state s2. destruct (Hcur c Hc) as [Hni _].
  destruct (Hsl c t Ht) as (_ & _ & Hfull). specialize (Hfull Hc).
  destruct (account_full t Hfull) as (Hpr & _ & _ & _ & Hst).
  assert (Ht1 : thread_at s1 c = Some (account t)).
  { unfold s1. rewrite thread_at_upd, decide_True by done. by rewrite Ht. }
  assert (Hinv1 : queue_inv s1 ls).
  { apply upd_inv; [done|]. intros t' _ Hin. by destruct Hni. }
  assert (Hid : s1 = set_queues s1 (map queue_of ls)).
  { rewrite <- (inv_queues s1 ls Hinv1). by destruct s1. }
  subst prev_state. unfold s2, offered, is_dead. rewrite Ht1, Ht. cbn [alive].
  rewrite negb_involutive. destruct (decide (t_state (account t) = Ready)) as [Hrdy|Hrdy].
  - destruct (push_inv s1 ls c (account t) Hinv1 Hni Ht1 Hrdy) as [Hpush Hinv2].
    rewrite Hpr in Hpush, Hinv2. unfold requeue_current. rewrite Ht1, Hpr, Hpush.
    rewrite bool_decide_true by done. rewrite Hst in Hrdy.
    assert (bool_decide (t_state t = Running) || bool_decide (t_state t = Ready) = true) as ->.
    { case_bool_decide; [done|]. by apply bool_decide_eq_true. }
    split_and!; [done..|]. rewrite Hst. by destruct (t_state t).
  - rewrite bool_decide_false by done. rewrite Hst in Hrdy.
    assert (bool_decide (t_state t = Running) || bool_decide (t_state t = Ready) = false) as ->.
    { case_bool_decide; [done|]. by apply bool_decide_eq_false. }
    split_and!; [done..|]. rewrite Hst. by destruct (t_state t).
Qed.

Lemma after_pick_at s c n ls' j :
  thread_at (after_pick s c n ls') j =
  let o := if decide (c = j) then account <$> thread_at s j else thread_at s j in
  if decide (n = j) then mark_running <$> o else o.
Proof.
  unfold after_pick.
  change (thread_at (set_current ?a _) j) with (thread_at a j).
  rewrite thread_at_upd.
  change (thread_at (set_queues ?a _) j) with (thread_at a j).
  by rewrite thread_at_upd.
Qed.

Lemma account_fields (t : Thread Obj Pk) :
  t_process_id (account t) = t_process_id t /\ t_time_slice (account t) = t_time_slice t /\
  t_id (account t) = t_id t.
Proof. unfold account. repeat case_match; done. Qed.

Lemma queue_inv_ext s1 s2 ls :
  threads s1 = threads s2 -> queues s1 = queues s2 -> queue_inv s1 ls -> queue_inv s2 ls.
Proof.
  intros Ht Hq [H1 H2 H3 H4 H5]. constructor; [by rewrite <- Ht|done|by rewrite <- Hq|done|].
  unfold thread_at in *. by rewrite <- Ht.
Qed.

Lemma after_pick_inv s ls c n ls' :
  queue_inv (set_queues (upd_thread s c account) (map queue_of ls)) ls -> suffixes ls' ls ->
  (n ∉ concat ls') -> is_Some (thread_at s n) -> sched_inv (after_pick s c n ls') ls'.
Proof.
  intros Hqi Hsuf Hni [t' Ht']. split.
  - apply (suffix_inv _ _ ls') in Hqi; [|done].
    eapply (upd_inv _ ls' n mark_running) in Hqi; [|intros ? _ Hin; by destruct Hni].
    eapply queue_inv_ext; [| |exact Hqi]; done.
  - cbn. intros ? [= <-]. split; [done|]. rewrite after_pick_at, Ht'. cbn zeta.
    destruct (decide (c = n)), (decide (n = n)); try done; by eexists.
Qed.

Lemma after_pick_slices s c n ls' :
  slices_ok s -> current_idx s = Some c -> slices_ok (after_pick s c n ls').
Proof.
  intros Hsl Hc j t. rewrite after_pick_at. cbn zeta. intros Hj.
  assert (Hn : forall u : Thread Obj Pk, t_time_slice u = DEFAULT_TIME_SLICE ->
    t_time_slice (mark_running u) = DEFAULT_TIME_SLICE /\
    t_remaining_ticks (mark_running u) = DEFAULT_TIME_SLICE).
  { intros u Hu. cbn. done. }
  destruct (thread_at s j) as [u|] eqn:Hu; [|by repeat case_decide].
  destruct (Hsl j u Hu) as (Hts & Hr & Hcur).
  clear Hn. assert (Hw : exists w, (if decide (c = j) then account <$> Some u else Some u) = Some w /\
    t_time_slice w = DEFAULT_TIME_SLICE /\ (1 <= t_remaining_ticks w <= DEFAULT_TIME_SLICE)%Z).
  { destruct (decide (c = j)) as [Hcj|Hcj]; [subst j|by exists u]. exists (account u).
    destruct (account_full u (Hcur Hc)) as (_ & Hats & _ & Har & _).
    rewrite Hats, Har. by unfold DEFAULT_TIME_SLICE in *. }
  destruct Hw as (w & Hw & Hwt & Hwr). rewrite Hw in Hj.
  destruct (decide (n = j)) as [Hnj|Hnj]; cbn in Hj; injection Hj as <-.
  - cbn. rewrite Hwt. done.
  - split; [done|]. split; [done|]. intros [= ->]. done.
Qed.

(** [schedule], exactly: from a good state it never panics; it halts when
    no thread is alive, and otherwise goes to the best thread. *)
Lemma schedule_spec s ls c t :
  sched_inv s ls -> slices_ok s -> running s = true ->
  current_idx s = Some c -> thread_at s c = Some t ->
  match best s (offered s ls c) with
  | None => exists s', schedule l0_of s = Some (Halted, s')
  | Some n =>
      exists ls' t', suffixes ls' (offered s ls c) /\
        schedule l0_of s =
          Some (sched_result s c n, load_ttbr0 l0_of (after_pick s c n ls') (t_process_id t')) /\
        sched_inv (after_pick s c n ls') ls' /\ slices_ok (after_pick s c n ls') /\
        alive (thread_at s n) = true /\ thread_at s n = Some t' /\
        (forall j, j ∈ concat (offered s ls c) -> alive (thread_at s j) = true ->
          j = n \/ j ∈ concat ls')
  end.
Proof.
  intros Hinv Hsl Hrun Hc Ht. unfold schedule. rewrite Hrun, Hc. cbn [negb].
  destruct (schedule_requeue s ls c t Hinv Hsl Hc Ht) as (Heq & Hqi & Hdead).
  set (s1 := upd_thread s c account) in *.
  set (prev_state := match thread_at s1 c with Some t => t_state t | None => Dead end) in *.
  rewrite Hdead. clear Hdead. rewrite Heq in *. clear Heq.
  set (s2 := set_queues s1 _) in *.
  assert (Hal : forall j, alive (thread_at s2 j) = alive (thread_at s j)).
  { intros j. by apply account_alive. }
  assert (Hbest : best s2 (offered s ls c) = best s (offered s ls c)).
  { apply best_ext; [|done]. apply upd_thread_frame. }
  destruct (pop_next_from_all_queues s2) as [o s3] eqn:Hpop.
  destruct (pop_next_spec s2 _ o s3 Hqi Hpop) as (Ho & ls' & Hs3 & Hsuf & Hpicked & Hlost).
  rewrite Hbest in Ho. rewrite <- Ho. destruct o as [n|].
  - destruct (Hpicked n eq_refl) as [Hni Hna]. rewrite Hal in Hna.
    destruct (thread_at s n) as [t'|] eqn:Hn; [|done].
    exists ls', t'. split; [done|].
    assert (Hs5 : set_current (upd_thread s3 n mark_running) (Some n) = after_pick s c n ls').
    { by rewrite Hs3. }
    change (fun t => reset_time_slice (set_state t Running)) with mark_running.
    assert (Hsc : exists w, thread_at (after_pick s c n ls') c = Some w /\
      (c = n -> t_process_id w = t_process_id t')).
    { rewrite after_pick_at, Ht. destruct (decide (c = c)); [|done]. cbn.
      destruct (decide (n = c)); eexists; (split; [done|]); intros Hcn; [|congruence].
      cbn. rewrite (proj1 (account_fields t)). congruence. }
    assert (Hsn : exists w, thread_at (after_pick s c n ls') n = Some w /\
      t_process_id w = t_process_id t').
    { rewrite after_pick_at, Hn. destruct (decide (n = n)); [|done]. cbn.
      destruct (decide (c = n)); eexists; (split; [done|]); [|done]. apply account_fields. }
    destruct Hsc as (wc & Hwc & Hpc). destruct Hsn as (wn & Hwn & Hpn).
    split_and!; [| | |done|done|].
    + rewrite Hs5, Hwc, Hwn. unfold sched_result. destruct (c =? n) eqn:Ecn; cbn [andb].
      * reflect. destruct (is_dead s c); cbn [negb]; [by rewrite Hpn|]. by rewrite Hpc.
      * by rewrite Hpn.
    + eapply after_pick_inv; [exact Hqi|done|done|by rewrite Hn].
    + by apply after_pick_slices.
    + intros j Hj Ha. rewrite <- Hal in Ha. destruct (Hlost j Hj Ha) as [[= ->]|?]; [by left|by right].
  - exists s3. rewrite Hs3. change (threads (set_queues ?a _)) with (threads a).
    assert (Hdead : forallb (fun o => negb (alive o)) (threads s2) = true).
    { apply first_alive_None. rewrite <- (first_alive_ext s s2).
      - unfold best in Ho. by case_match; [case_match|].
      - symmetry. apply upd_thread_frame.
      - intros j. by rewrite Hal. }
    by rewrite Hdead.
Qed.

(** ** The scheduler's life

    What the kernel does to it: threads are added, the first one is started,
    the timer ticks, the current thread blocks, sleeps or dies and gives up
    the processor, a blocked thread is woken, and a port marks a blocked
    thread ready without queueing it.  A halt ends the run. *)
Inductive sched_event :=
| EvAdd (t : Thread Obj Pk)
| EvRun
| EvTick (o : outcome)
| EvStop (st : ThreadState) (o : outcome)
| EvWake (tid : Z)
| EvReadied (i : nat).

Definition fresh_thread (t : Thread Obj Pk) : Prop :=
  t_time_slice t = DEFAULT_TIME_SLICE /\ t_remaining_ticks t = DEFAULT_TIME_SLICE.

Definition stop_current s (c : nat) (st : ThreadState) : Scheduler Obj Pk :=
  upd_thread s c (fun t => set_state t st).

Inductive sched_step : Scheduler Obj Pk -> sched_event -> Scheduler Obj Pk -> Prop :=
| st_add s t s' : fresh_thread t -> add s t = Some s' -> sched_step s (EvAdd t) s'
| st_run s idx s' : current_idx s = None -> run s = Some (idx, s') -> sched_step s EvRun s'
| st_tick s o s' : o <> Halted -> schedule l0_of s = Some (o, s') -> sched_step s (EvTick o) s'
| st_stop s c st o s' :
    current_idx s = Some c -> st = Blocked \/ st = Sleeping \/ st = Dead -> o <> Halted ->
    schedule l0_of (stop_current s c st) = Some (o, s') -> sched_step s (EvStop st o) s'
| st_wake s tid : sched_step s (EvWake tid) (wake_thread s tid)
| st_readied s i t :
    thread_at s i = Some t -> t_state t = Blocked ->
    sched_step s (EvReadied i) (upd_thread s i (fun t => set_state t Ready)).

(** The invariant between events. *)
Record sched_ok s ls : Prop := {
  ok_inv : sched_inv s ls;
  ok_slices : slices_ok s;
  ok_running : running s = false -> current_idx s = None;
  ok_current : forall c t, current_idx s = Some c -> thread_at s c = Some t ->
    t_state t = Running
}.

Lemma sched_new_ok : sched_ok sched_new (replicate PRIORITY_LEVELS []).
Proof.
  assert (Hn : forall i, thread_at (@sched_new Obj Pk) i = None).
  { intros i. unfold thread_at. cbn [sched_new threads].
    destruct (replicate MAX_THREADS None !! i) as [o|] eqn:Ho; [|done].
    by apply lookup_replicate in Ho as [-> _]. }
  constructor; [split; [constructor|]| | |]; try done.
  - constructor.
  - intros pr l i Hl Hi. apply lookup_replicate in Hl as [-> _]. by apply not_elem_of_nil in Hi.
  - intros i t Ht. by rewrite Hn in Ht.
Qed.

Lemma thread_at_load s pid i : thread_at (load_ttbr0 l0_of s pid) i = thread_at s i.
Proof. unfold load_ttbr0. by destruct (l0_of pid). Qed.

Lemma load_frame s pid :
  threads (load_ttbr0 l0_of s pid) = threads s /\ queues (load_ttbr0 l0_of s pid) = queues s /\
  current_idx (load_ttbr0 l0_of s pid) = current_idx s /\
  running (load_ttbr0 l0_of s pid) = running s.
Proof. unfold load_ttbr0. by destruct (l0_of pid). Qed.

Lemma load_ok s pid ls : sched_ok s ls -> sched_ok (load_ttbr0 l0_of s pid) ls.
Proof.
  destruct (load_frame s pid) as (Ht & Hq & Hc & Hr). intros [[Hi Hcur] Hsl Hrun Hcr].
  assert (Hat : forall i, thread_at (load_ttbr0 l0_of s pid) i = thread_at s i)
    by (intros; apply thread_at_load).
  constructor.
  - split; [by eapply queue_inv_ext|]. intros c. rewrite Hc, Hat. apply Hcur.
  - intros i t. rewrite Hat, Hc. apply Hsl.
  - by rewrite Hr, Hc.
  - intros c t. rewrite Hat, Hc. apply Hcr.
Qed.

Lemma mark_running_state (t : Thread Obj Pk) : t_state (mark_running t) = Running.
Proof. done. Qed.

Lemma after_pick_ok s ls c n ls' :
  sched_inv (after_pick s c n ls') ls' -> slices_ok s -> current_idx s = Some c ->
  running s = true -> sched_ok (after_pick s c n ls') ls'.
Proof.
  intros Hinv Hsl Hc Hrun. constructor; [done|by apply after_pick_slices| |].
  - unfold after_pick. cbn. intros Hr.
    pose proof (upd_thread_frame (set_queues (upd_thread s c account) (map queue_of ls')) n mark_running) as Hf.
    pose proof (upd_thread_frame s c account) as Hf2.
    destruct Hf as (_ & _ & Hf & _). destruct Hf2 as (_ & _ & Hf2 & _). cbn in Hf. congruence.
  - cbn. intros ? t [= <-]. rewrite after_pick_at. cbn zeta.
    destruct (decide (n = n)); [|done]. intros Ht.
    destruct (if decide (c = n) then _ else _) as [u|]; [|done]. injection Ht as <-. done.
Qed.

(** One [schedule] from a state whose current thread may have been stopped. *)
Lemma schedule_ok s ls o s' :
  sched_inv s ls -> slices_ok s -> (running s = false -> current_idx s = None) ->
  schedule l0_of s = Some (o, s') -> o <> Halted ->
  (current_idx s = None -> sched_ok s ls) ->
  exists ls', sched_ok s' ls'.
Proof.
  intros Hinv Hsl Hrun Hs Ho Hnone. destruct (current_idx s) as [c|] eqn:Hc.
  - destruct (running s) eqn:Hr; [|by specialize (Hrun eq_refl)].
    destruct Hinv as [Hqi Hcur]. destruct (Hcur c Hc) as [Hni [t Ht]].
    pose proof (schedule_spec s ls c t (conj Hqi Hcur) Hsl Hr Hc Ht) as Hspec.
    destruct (best s (offered s ls c)) as [n|].
    + destruct Hspec as (ls' & t' & _ & Heq & Hi' & Hsl' & _). rewrite Heq in Hs.
      injection Hs as <- <-. exists ls'. apply load_ok. by apply (after_pick_ok s ls).
    + destruct Hspec as [s2 Heq]. rewrite Heq in Hs. by simplify_eq.
  - exists ls. specialize (Hnone eq_refl). unfold schedule in Hs. rewrite Hc in Hs.
    by case_match; simplify_eq.
Qed.

Lemma set_state_slices s i (f : Thread Obj Pk -> Thread Obj Pk) :
  (forall t, t_time_slice (f t) = t_time_slice t /\ t_remaining_ticks (f t) = t_remaining_ticks t) ->
  slices_ok s -> slices_ok (upd_thread s i f).
Proof.
  intros Hf Hsl j t. rewrite thread_at_upd.
  destruct (upd_thread_frame s i f) as (_ & Hc & _). rewrite Hc.
  destruct (decide (i = j)); [|apply Hsl]. destruct (thread_at s j) as [u|] eqn:Hu; [|done].
  cbn. intros [= <-]. destruct (Hf u) as [-> ->]. by apply Hsl.
Qed.

Lemma slices_ext s1 s2 :
  threads s1 = threads s2 -> current_idx s1 = current_idx s2 -> slices_ok s1 -> slices_ok s2.
Proof. intros Ht Hc Hsl i t. unfold thread_at. rewrite <- Ht, <- Hc. apply Hsl. Qed.

Lemma blocked_not_queued s ls i t :
  queue_inv s ls -> thread_at s i = Some t -> t_state t = Blocked \/ t_state t = Sleeping ->
  i ∉ concat ls.
Proof.
  intros Hq Ht Hst Hin. destruct (inv_elem s ls i Hq Hin) as (t' & Ht' & Hst').
  rewrite Ht in Ht'. simplify_eq. destruct Hst as [H|H], Hst' as [H'|H']; congruence.
Qed.

(** Making a blocked thread [Ready] leaves a good state. *)
Lemma ready_ok s ls i t :
  sched_ok s ls -> thread_at s i = Some t -> t_state t = Blocked \/ t_state t = Sleeping ->
  sched_ok (upd_thread s i (fun t => set_state t Ready)) ls.
Proof.
  intros [[Hq Hcur] Hsl Hrun Hcr] Ht Hst.
  destruct (upd_thread_frame s i (fun t => set_state t Ready)) as (_ & Hc & Hr & _).
  assert (Hni : current_idx s <> Some i).
  { intros Hci. specialize (Hcr i t Hci Ht). destruct Hst; congruence. }
  constructor.
  - split.
    + apply upd_inv; [done|]. intros ? _ Hin. by destruct (blocked_not_queued s ls i t Hq Ht Hst).
    + intros c. rewrite Hc. intros Hcc. destruct (Hcur c Hcc) as [Hn [u Hu]]. split; [done|].
      rewrite thread_at_upd, Hu. destruct (decide (i = c)); by eexists.
  - by apply set_state_slices.
  - by rewrite Hr, Hc.
  - intros c u. rewrite Hc, thread_at_upd. intros Hcc. destruct (decide (i = c)) as [->|]; [done|].
    by apply Hcr.
Qed.

(** Changing fields the scheduler does not look at. *)
Lemma upd_same_ok s ls i (f : Thread Obj Pk -> Thread Obj Pk) :
  (forall t, t_state (f t) = t_state t /\ t_priority (f t) = t_priority t /\
     t_time_slice (f t) = t_time_slice t /\ t_remaining_ticks (f t) = t_remaining_ticks t) ->
  sched_ok s ls -> sched_ok (upd_thread s i f) ls.
Proof.
  intros Hf [[Hq Hcur] Hsl Hrun Hcr]. destruct (upd_thread_frame s i f) as (_ & Hc & Hr & _).
  constructor.
  - split.
    + apply upd_inv; [done|]. intros t Ht Hin. destruct (Hf t) as (-> & -> & _). split; [done|].
      destruct (inv_elem s ls i Hq Hin) as (t' & Ht' & Hst). by simplify_eq.
    + intros c. rewrite Hc, thread_at_upd. intros Hcc. destruct (Hcur c Hcc) as [Hn [u ->]].
      split; [done|]. destruct (decide (i = c)); by eexists.
  - apply set_state_slices; [|done]. intros t. by destruct (Hf t) as (_ & _ & -> & ->).
  - by rewrite Hr, Hc.
  - intros c t. rewrite Hc, thread_at_upd. intros Hcc. destruct (decide (i = c)); [|by apply Hcr].
    destruct (thread_at s c) as [u|] eqn:Hu; [|done]. cbn. intros [= <-].
    destruct (Hf u) as (-> & _). by apply (Hcr c).
Qed.

Lemma upd_upd s i (f g : Thread Obj Pk -> Thread Obj Pk) :
  upd_thread (upd_thread s i f) i g = upd_thread s i (fun t => g (f t)).
Proof.
  unfold upd_thread at 1. rewrite thread_at_upd. destruct (decide (i = i)); [|done].
  unfold upd_thread. destruct (thread_at s i) as [t|] eqn:Ht; [|done].
  cbn. unfold set_threads. cbn. by rewrite list_insert_insert_eq.
Qed.

(** Queueing a ready thread that is neither queued nor current. *)
Lemma push_ok s ls i t :
  sched_ok s ls -> (i ∉ concat ls) -> thread_at s i = Some t -> t_state t = Ready ->
  let pr := priority_to_index (t_priority t) in
  push_at s pr i = (true, set_queues s (map queue_of (enqueue ls pr i))) /\
  sched_ok (set_queues s (map queue_of (enqueue ls pr i))) (enqueue ls pr i).
Proof.
  intros [[Hq Hcur] Hsl Hrun Hcr] Hni Ht Hst pr.
  destruct (push_inv s ls i t Hq Hni Ht Hst) as [Hp Hq']. split; [exact Hp|].
  constructor; [|done|done|exact Hcr]. split; [exact Hq'|]. intros c Hc.
  destruct (Hcur c Hc) as [Hn [u Hu]]. split; [|by exists u].
  assert (Hpr : pr < length ls) by (rewrite (inv_levels s ls Hq); apply priority_lt).
  rewrite (enqueue_perm ls pr i Hpr), elem_of_cons. intros [->|?]; [|done].
  specialize (Hcr i u Hc Hu). congruence.
Qed.

Lemma find_blocked s tid i :
  find_slot (blocked_as tid) (threads s) = Some i ->
  exists t, thread_at s i = Some t /\ t_id t = tid /\
    (t_state t = Blocked \/ t_state t = Sleeping).
Proof.
  intros (t & Ht & Hb & _)%find_slot_Some. exists t. unfold thread_at. rewrite Ht.
  unfold blocked_as in Hb. apply andb_prop in Hb as [Hid%Z.eqb_eq Hb].
  apply orb_prop in Hb. split_and!; [done..|].
  destruct Hb as [Hb|Hb]; apply bool_decide_eq_true in Hb; eauto.
Qed.

(** [wake_thread] queues the thread it wakes, at the end of its priority. *)
Lemma wake_ok s ls tid :
  sched_ok s ls ->
  match find_slot (blocked_as tid) (threads s) with
  | None => wake_thread s tid = s
  | Some i => exists t, thread_at s i = Some t /\
      let ls' := enqueue ls (priority_to_index (t_priority t)) i in
      wake_thread s tid =
        set_queues (upd_thread s i (fun t => set_state t Ready)) (map queue_of ls') /\
      sched_ok (wake_thread s tid) ls'
  end.
Proof.
  intros Hok. unfold wake_thread. destruct (find_slot _ _) as [i|] eqn:Hf; [|done].
  destruct (find_blocked s tid i Hf) as (t & Ht & _ & Hst). exists t. split; [done|].
  pose proof (ready_ok s ls i t Hok Ht Hst) as Hok1.
  assert (Ht1 : thread_at (upd_thread s i (fun t => set_state t Ready)) i = Some (set_state t Ready)).
  { rewrite thread_at_upd, Ht. by destruct (decide (i = i)). }
  destruct (push_ok _ ls i (set_state t Ready) Hok1) as [Hp Hok2]; [|done|done|].
  { eapply blocked_not_queued; [apply Hok|done|done]. }
  unfold requeue_current. rewrite Ht1. cbn [t_priority set_state] in *. by rewrite Hp.
Qed.

(** [add] succeeds exactly when a slot is free. *)
Lemma add_ok s ls t :
  sched_ok s ls -> fresh_thread t ->
  match find_empty_slot s with
  | None => add s t = None
  | Some idx =>
      let ls' := enqueue ls (priority_to_index (t_priority t)) idx in
      add s t = Some (set_queues (set_threads s (<[idx := Some (set_state t Ready)]> (threads s)))
                        (map queue_of ls')) /\
      (forall s', add s t = Some s' -> sched_ok s' ls')
  end.
Proof.
  intros [[[H1 H2 H3 H4 H5] Hcur] Hsl Hrun Hcr] [Hf1 Hf2]. unfold add.
  destruct (find_empty_slot s) as [idx|] eqn:He; [|done].
  apply first_free_Some in He as (Hidx & Hlt & _).
  set (s1 := set_threads s _).
  assert (Hat : forall j, thread_at s1 j =
    if decide (idx = j) then Some (set_state t Ready) else thread_at s j).
  { intros j. unfold s1, thread_at. cbn [set_threads threads]. case_decide; [subst j|].
    - by rewrite list_lookup_insert_eq.
    - by rewrite list_lookup_insert_ne. }
  assert (Hfree : thread_at s idx = None) by (unfold thread_at; by rewrite Hidx).
  assert (Hok1 : sched_ok s1 ls).
  { constructor; [split; [constructor|]| | |]; try done.
    - unfold s1. cbn. by rewrite length_insert.
    - intros pr l j Hl Hj. destruct (H5 pr l j Hl Hj) as (u & Hu & Hrest).
      rewrite Hat. case_decide; [subst j; congruence|by exists u].
    - intros c Hc. destruct (Hcur c Hc) as [Hn [u Hu]]. split; [done|]. rewrite Hat.
      case_decide; by eexists.
    - intros j u. rewrite Hat. case_decide; [|apply Hsl]. intros [= <-].
      cbn [t_time_slice t_remaining_ticks set_state]. rewrite Hf1, Hf2. done.
    - intros c u Hc. rewrite Hat. case_decide as Hij; [subst c|by apply Hcr].
      destruct (Hcur idx Hc) as [_ [v Hv]]. congruence. }
  assert (Ht1 : thread_at s1 idx = Some (set_state t Ready)).
  { rewrite Hat. by destruct (decide (idx = idx)). }
  destruct (push_ok s1 ls idx (set_state t Ready) Hok1) as [Hp Hok2]; [|exact Ht1|done|].
  { intros (pr & l & Hl & Hj)%elem_of_concat. destruct (H5 pr l idx Hl Hj) as (u & Hu & _).
    congruence. }
  cbn [t_priority set_state] in *. rewrite Hp. split; [done|]. by intros s' [= <-].
Qed.

Lemma run_ok s ls idx s' :
  sched_ok s ls -> current_idx s = None -> run s = Some (idx, s') ->
  exists ls', sched_ok s' ls' /\ exists s1,
    s' = set_current (upd_thread s1 idx mark_running) (Some idx) /\ threads s1 = threads s.
Proof.
  intros [[Hq _] Hsl _ _] Hc Hrun. unfold run in Hrun.
  set (s0 := mkSched _ _ _ true _) in Hrun.
  assert (Hq0 : queue_inv s0 ls) by (by eapply queue_inv_ext; [| |exact Hq]).
  destruct (pop_next_from_all_queues s0) as [o s1] eqn:Hpop.
  destruct (pop_next_spec s0 ls o s1 Hq0 Hpop) as (_ & ls' & Hs1 & Hsuf & Hpk & _).
  destruct o as [i|]; [|done]. destruct (Hpk i eq_refl) as [Hni Ha].
  change (upd_thread (set_current s1 (Some i)) i ?f)
    with (upd_thread (set_current s1 (Some i)) i mark_running) in Hrun.
  assert (Hcomm : upd_thread (set_current s1 (Some i)) i mark_running =
                  set_current (upd_thread s1 i mark_running) (Some i)).
  { unfold upd_thread. change (thread_at (set_current s1 (Some i)) i) with (thread_at s1 i).
    by destruct (thread_at s1 i). }
  rewrite Hcomm in Hrun. destruct (thread_at (set_current _ _) i) as [u|] eqn:Hu; [|done].
  injection Hrun as <- <-. exists ls'. split; [|exists s1; split; [done|by rewrite Hs1]].
  assert (Hq1 : queue_inv (upd_thread s1 i mark_running) ls').
  { apply upd_inv; [rewrite Hs1; by apply (suffix_inv s0 ls)|]. intros ? _ Hin. done. }
  destruct (upd_thread_frame s1 i mark_running) as (_ & _ & Hr & _).
  constructor.
  - split; [by eapply queue_inv_ext; [| |exact Hq1]|]. cbn. intros ? [= <-].
    split; [done|by exists u].
  - intros j t. change (thread_at (set_current ?a _) j) with (thread_at a j).
    rewrite thread_at_upd, Hs1. change (thread_at (set_queues s0 _) j) with (thread_at s j).
    destruct (decide (i = j)) as [->|Hij].
    + destruct (thread_at s j) as [v|] eqn:Hv; [|done]. cbn. intros [= <-].
      destruct (Hsl j v Hv) as (Hts & _). cbn. by rewrite Hts.
    + intros Ht. destruct (Hsl j t Ht) as (? & ? & _). split; [done|]. split; [done|].
      cbn. congruence.
  - cbn. rewrite Hr, Hs1. done.
  - cbn. intros ? t [= <-]. change (thread_at (set_current ?a _) i) with (thread_at a i).
    rewrite thread_at_upd. destruct (decide (i = i)); [|done].
    destruct (thread_at s1 i); [|done]. cbn. by intros [= <-].
Qed.

Lemma stop_ok s ls c st :
  sched_ok s ls -> current_idx s = Some c ->
  sched_inv (stop_current s c st) ls /\ slices_ok (stop_current s c st) /\
  current_idx (stop_current s c st) = Some c /\
  running (stop_current s c st) = running s.
Proof.
  intros [[Hq Hcur] Hsl Hrun Hcr] Hc. unfold stop_current.
  destruct (upd_thread_frame s c (fun t => set_state t st)) as (_ & Hc' & Hr & _).
  destruct (Hcur c Hc) as [Hn [u Hu]]. split_and!.
  - split; [apply upd_inv; [done|]; intros ? _ Hin; by destruct Hn|].
    intros c'. rewrite Hc', Hc. intros [= <-]. split; [done|].
    rewrite thread_at_upd, Hu. destruct (decide (c = c)); by eexists.
  - by apply set_state_slices.
  - by rewrite Hc'.
  - done.
Qed.

Lemma sched_step_ok s ls e s' :
  sched_ok s ls -> sched_step s e s' -> exists ls', sched_ok s' ls'.
Proof.
  intros Hok Hstep. destruct Hstep as [s t s' Hf Ha|s idx s' Hc Hr|s o s' Ho Hs|
    s c st o s' Hc Hst Ho Hs|s tid|s i t Ht Hb].
  - pose proof (add_ok s ls t Hok Hf) as H. destruct (find_empty_slot s); [|congruence].
    eexists. by apply H.
  - destruct (run_ok s ls idx s' Hok Hc Hr) as (ls' & ? & _). by exists ls'.
  - pose proof Hok as [Hinv Hsl Hrun _]. by apply (schedule_ok s ls o s').
  - destruct (stop_ok s ls c st Hok Hc) as (Hinv & Hsl & Hc' & Hr).
    apply (schedule_ok (stop_current s c st) ls o s'); try done.
    + rewrite Hr, Hc'. intros Hr'. rewrite (ok_running s ls Hok Hr') in Hc. congruence.
    + congruence.
  - pose proof (wake_ok s ls tid Hok) as H. destruct (find_slot _ _).
    + destruct H as (t & _ & H). eexists. apply H.
    + rewrite H. by exists ls.
  - exists ls. apply (ready_ok s ls i t); [done..|by left].
Qed.

Lemma sched_steps_ok s ls tr s' :
  sched_ok s ls -> rtc_steps sched_step s tr s' -> exists ls', sched_ok s' ls'.
Proof.
  intros Hok Hs. apply (steps_invariant sched_step (fun s => exists ls, sched_ok s ls)) with s tr;
    [|done|by exists ls].
  intros s1 e s2 [ls1 H1] Hst. by apply (sched_step_ok s1 ls1 e s2).
Qed.

(** What every event leaves of a thread. *)
Definition same_thread (t t' : Thread Obj Pk) : Prop :=
  t_id t' = t_id t /\ t_priority t' = t_priority t.

Definition keeps_threads s s' : Prop :=
  forall i t, thread_at s i = Some t -> exists t', thread_at s' i = Some t' /\ same_thread t t'.

Lemma keeps_upd s i (f : Thread Obj Pk -> Thread Obj Pk) :
  (forall t, thread_at s i = Some t -> same_thread t (f t)) -> keeps_threads s (upd_thread s i f).
Proof.
  intros Hf j t Ht. rewrite thread_at_upd, Ht. destruct (decide (i = j)) as [->|].
  - exists (f t). split; [done|by apply Hf].
  - by exists t.
Qed.

Lemma keeps_trans s1 s2 s3 : keeps_threads s1 s2 -> keeps_threads s2 s3 -> keeps_threads s1 s3.
Proof.
  intros H1 H2 i t Ht. destruct (H1 i t Ht) as (t1 & Ht1 & [E1 E2]).
  destruct (H2 i t1 Ht1) as (t2 & Ht2 & [E3 E4]). exists t2. split; [done|].
  split; congruence.
Qed.

Lemma keeps_ext s1 s2 : threads s1 = threads s2 -> keeps_threads s1 s2.
Proof. intros H i t Ht. exists t. split; [|done]. unfold thread_at in *. by rewrite <- H. Qed.

Lemma keeps_schedule s ls o s' :
  sched_inv s ls -> slices_ok s -> schedule l0_of s = Some (o, s') -> o <> Halted ->
  (running s = false -> current_idx s = None) -> keeps_threads s s'.
Proof.
  intros Hinv Hsl Hs Ho Hrun. destruct (current_idx s) as [c|] eqn:Hc.
  - destruct (running s) eqn:Hr; [|by specialize (Hrun eq_refl)].
    destruct (proj2 Hinv c Hc) as [Hni [t Ht]].
    pose proof (schedule_spec s ls c t Hinv Hsl Hr Hc Ht) as Hspec.
    destruct (best s (offered s ls c)) as [n|].
    + destruct Hspec as (ls' & t' & _ & Heq & _). rewrite Heq in Hs. injection Hs as <- <-.
      intros j u Hu. rewrite thread_at_load, after_pick_at, Hu. cbn zeta.
      assert (Ha : c = j -> same_thread u (account u)).
      { intros <-. destruct (Hsl c u Hu) as (_ & _ & Hf).
        destruct (account_full u (Hf Hc)) as (? & _ & ? & _). done. }
      destruct (decide (c = j)), (decide (n = j)); cbn; eexists; (split; [done|]);
        try (by apply Ha); done.
    + destruct Hspec as [s2 Heq]. rewrite Heq in Hs. by simplify_eq.
  - unfold schedule in Hs. rewrite Hc in Hs. apply keeps_ext. by case_match; simplify_eq.
Qed.

Lemma keeps_queues s l : keeps_threads s (set_queues s l).
Proof. by apply keeps_ext. Qed.

Lemma sched_step_keeps s ls e s' : sched_ok s ls -> sched_step s e s' -> keeps_threads s s'.
Proof.
  intros Hok Hstep. destruct Hstep as [s t s' Hf Ha|s idx s' Hc Hr|s o s' Ho Hs|
    s c st o s' Hc Hst Ho Hs|s tid|s i t Ht Hb].
  - pose proof (add_ok s ls t Hok Hf) as H.
    destruct (find_empty_slot s) as [idx|] eqn:He; [|congruence].
    destruct H as [Heq _]. rewrite Heq in Ha. injection Ha as <-.
    apply first_free_Some in He as (Hidx & _). intros j u Hu. exists u. split; [|done].
    unfold thread_at in *. cbn. rewrite list_lookup_insert_ne; [done|]. intros ->.
    rewrite Hidx in Hu. done.
  - destruct (run_ok s ls idx s' Hok Hc Hr) as (ls' & _ & s1 & -> & Ht).
    apply keeps_trans with s1; [by apply keeps_ext|].
    apply keeps_trans with (upd_thread s1 idx mark_running); [by apply keeps_upd|by apply keeps_ext].
  - pose proof Hok as [Hinv Hsl Hrun _]. by apply (keeps_schedule s ls o s').
  - destruct (stop_ok s ls c st Hok Hc) as (Hinv & Hsl & Hc' & Hr).
    apply keeps_trans with (stop_current s c st); [by apply keeps_upd|].
    apply (keeps_schedule _ ls o s'); try done.
    rewrite Hr, Hc'. intros Hr'. rewrite (ok_running s ls Hok Hr') in Hc. congruence.
  - pose proof (wake_ok s ls tid Hok) as H. destruct (find_slot _ _) as [i|].
    + destruct H as (t & _ & -> & _).
      apply keeps_trans with (upd_thread s i (fun t => set_state t Ready));
        [by apply keeps_upd|apply keeps_queues].
    + rewrite H. by apply keeps_ext.
  - by apply keeps_upd.
Qed.

Lemma sched_steps_keep s ls tr s' :
  sched_ok s ls -> rtc_steps sched_step s tr s' -> keeps_threads s s'.
Proof.
  intros Hok Hs. revert ls Hok. induction Hs as [s|s1 s2 s3 e tr Hst Hs IH]; intros ls Hok.
  { by apply keeps_ext. }
  destruct (sched_step_ok s1 ls e s2 Hok Hst) as [ls2 Hok2].
  eapply keeps_trans; [by eapply sched_step_keeps|by eapply IH].
Qed.

(** ** Waiting for the processor *)
Fixpoint ticks (n : nat) s : option (Scheduler Obj Pk) :=
  match n with
  | 0 => Some s
  | S n' => match schedule l0_of s with Some (_, s1) => ticks n' s1 | None => None end
  end.

Lemma offered_lookup s ls c pr q :
  ls !! pr = Some q -> exists q', offered s ls c !! pr = Some (q ++ q').
Proof.
  intros Hq. assert (Hid : exists q', ls !! pr = Some (q ++ q')) by (exists []; by rewrite app_nil_r).
  unfold offered. destruct (thread_at s c) as [t|]; [|done]. destruct (_ || _); [|done].
  unfold enqueue. destruct (decide (pr = priority_to_index (t_priority t))) as [->|].
  - rewrite list_lookup_alter_eq, Hq. by exists [c].
  - by rewrite list_lookup_alter_ne.
Qed.

Lemma offered_higher s ls c t pr k :
  thread_at s c = Some t -> pr <= priority_to_index (t_priority t) -> k < pr ->
  offered s ls c !! k = ls !! k.
Proof.
  intros Ht Hp Hk. unfold offered. rewrite Ht. destruct (_ || _); [|done].
  unfold enqueue. apply list_lookup_alter_ne. lia.
Qed.

Lemma concat_first ls pr q :
  ls !! pr = Some q -> (forall k, k < pr -> ls !! k = Some []) ->
  exists rest, concat ls = q ++ rest.
Proof.
  revert pr. induction ls as [|l ls IH]; intros pr Hq Hk; [done|]. destruct pr as [|pr].
  - injection Hq as ->. by exists (concat ls).
  - specialize (Hk 0 ltac:(lia)) as H0. injection H0 as ->. apply (IH pr Hq).
    intros k ?. apply (Hk (S k)). lia.
Qed.

(** The best thread of a queue state in which live [i] waits behind [l1]. *)
Lemma best_before s ls l1 i rest :
  concat ls = l1 ++ i :: rest -> alive (thread_at s i) = true ->
  exists n, best s ls = Some n /\ (n = i \/ n ∈ l1).
Proof.
  intros Hc Hi. unfold best. rewrite Hc.
  destruct (list_find _ (l1 ++ i :: rest)) as [[k n]|] eqn:Hf.
  - exists n. split; [done|]. apply list_find_Some in Hf as (Hk & Hn & Hlt).
    destruct (decide (k < length l1)) as [Hkl|Hkl].
    + right. rewrite lookup_app_l in Hk by done. by eapply list_elem_of_lookup_2.
    + left. destruct (decide (k = length l1)) as [->|].
      * rewrite list_lookup_middle in Hk by done. by injection Hk.
      * exfalso. apply (Hlt (length l1) i); [by apply list_lookup_middle|lia|done].
  - apply list_find_None in Hf. rewrite Forall_forall in Hf. exfalso. apply (Hf i); [|done].
    apply elem_of_app. right. apply elem_of_cons. by left.
Qed.

(** Where [i] still waits in a suffix of its queue without [n]. *)
Lemma suffix_shorter (q l1 l2 : list nat) i n :
  q `suffix_of` (l1 ++ i :: l2) -> NoDup (l1 ++ i :: l2) -> i ∈ q -> n ∈ l1 -> n ∉ q ->
  exists l1', q = l1' ++ i :: l2 /\ length l1' < length l1.
Proof.
  intros [pre Hpre] Hnd Hi Hn Hnq. apply list_elem_of_split in Hi as (a & b & ->).
  rewrite app_assoc in Hpre. rewrite Hpre in Hnd.
  assert (Heq : l1 = pre ++ a /\ l2 = b).
  { clear Hn Hnq. revert l1 Hpre. generalize dependent (pre ++ a). intros w Hnd.
    induction w as [|x w IH]; intros [|y l1] H; cbn in H.
    - injection H as H. by rewrite H.
    - injection H as -> H. exfalso. apply NoDup_cons in Hnd as [Hnd _]. apply Hnd.
      rewrite <- H. apply elem_of_app. right. by left.
    - injection H as -> H. exfalso. apply NoDup_cons in Hnd as [Hnd _]. apply Hnd.
      apply elem_of_app. right. by left.
    - injection H as -> H. apply NoDup_cons in Hnd as [_ Hnd].
      by destruct (IH Hnd l1 H) as [-> ->]. }
  destruct Heq as [-> ->]. exists a. split; [done|]. rewrite length_app.
  destruct pre as [|x pre]; [|simpl; lia]. destruct Hnq. apply elem_of_app. by left.
Qed.

(** One tick of a state in which [i] waits behind [l1] in the highest queue
    in use: [i] runs, or a thread of [l1] does and [i] has moved up. *)
Lemma tick_towards s ls c t pr l1 i l2 :
  sched_ok s ls -> current_idx s = Some c -> thread_at s c = Some t ->
  pr <= priority_to_index (t_priority t) -> (forall k, k < pr -> ls !! k = Some []) ->
  ls !! pr = Some (l1 ++ i :: l2) -> alive (thread_at s i) = true ->
  exists o s' n, schedule l0_of s = Some (o, s') /\ current_idx s' = Some n /\
    (n = i \/
     exists ls' t' l1' l2', sched_ok s' ls' /\ thread_at s' n = Some t' /\
       pr <= priority_to_index (t_priority t') /\ (forall k, k < pr -> ls' !! k = Some []) /\
       ls' !! pr = Some (l1' ++ i :: l2') /\ length l1' < length l1 /\
       alive (thread_at s' i) = true).
Proof.
  intros Hok Hc Ht Hp Hk Hq Hi. pose proof Hok as [Hinv Hsl Hrun _].
  assert (Hr : running s = true) by (destruct (running s); [done|rewrite Hrun in Hc; done]).
  pose proof (schedule_spec s ls c t Hinv Hsl Hr Hc Ht) as Hspec.
  destruct (schedule_requeue s ls c t Hinv Hsl Hc Ht) as (_ & Hqi & _).
  destruct (offered_lookup s ls c pr _ Hq) as [q' Hoff].
  assert (Hoffk : forall k, k < pr -> offered s ls c !! k = Some []).
  { intros k Hlt. rewrite (offered_higher s ls c t pr k Ht Hp Hlt). by apply Hk. }
  destruct (concat_first _ _ _ Hoff Hoffk) as [rest Hcat]. rewrite <- !app_assoc in Hcat.
  destruct (best_before s (offered s ls c) l1 i _ Hcat Hi) as (n & Hbest & Hn).
  rewrite Hbest in Hspec.
  destruct Hspec as (ls' & t' & Hsuf & Heq & Hinv' & Hsl' & Hna & Hnt & Hlost).
  eexists _, _, n. split; [exact Heq|]. split; [by rewrite (proj1 (proj2 (proj2 (load_frame _ _))))|].
  destruct (decide (n = i)) as [->|Hni]; [by left|right].
  assert (Hnl : n ∈ l1) by (by destruct Hn).
  pose proof (inv_nodup _ _ Hqi) as Hnd.
  assert (Hnd1 : NoDup ((l1 ++ i :: l2) ++ q')).
  { rewrite Hcat in Hnd. rewrite <- app_assoc. cbn. rewrite !app_assoc in *.
    apply NoDup_app in Hnd as [Hnd _]. rewrite <- !app_assoc in *. by cbn in *. }
  destruct (Forall2_lookup_r _ _ _ _ _ Hsuf Hoff) as (q & Hqq & Hqs).
  assert (Hiq : i ∈ q).
  { destruct (Hlost i) as [?|Hin]; [rewrite Hcat; apply elem_of_app; right; by left|done|congruence|].
    apply elem_of_concat in Hin as (pr' & q2 & Hq2 & Hiq2).
    destruct (suffixes_lookup _ _ _ _ Hsuf Hq2) as (q3 & Hq3 & pre & ->).
    destruct (inv_queued _ _ Hqi pr' _ i Hq3) as (u & Hu & _ & <-); [apply elem_of_app; by right|].
    destruct (inv_queued _ _ Hqi pr _ i Hoff) as (v & Hv & _ & <-).
    { rewrite <- app_assoc. apply elem_of_app. right. by left. }
    congruence. }
  rewrite <- app_assoc in Hqs, Hnd1. cbn in Hqs, Hnd1.
  destruct (suffix_shorter q l1 (l2 ++ q') i n Hqs Hnd1 Hiq Hnl) as (l1' & -> & Hlt).
  { intros Hnq. destruct (proj2 Hinv' n eq_refl) as [Hnc _]. apply Hnc, elem_of_concat. eauto. }
  assert (Hnin : n ∈ concat ls).
  { apply elem_of_concat. exists pr, (l1 ++ i :: l2). split; [exact Hq|]. apply elem_of_app. by left. }
  assert (Hiin : i ∈ concat ls).
  { apply elem_of_concat. exists pr, (l1 ++ i :: l2). split; [exact Hq|]. apply elem_of_app. right. by left. }
  destruct (proj2 Hinv c Hc) as [Hcn _].
  assert (n <> c) by (intros ->; done). assert (i <> c) by (intros ->; done).
  destruct (inv_queued _ _ (proj1 Hinv) pr _ n Hq) as (u & Hu & _ & Hup);
    [apply elem_of_app; by left|].
  exists ls', (mark_running u), l1', (l2 ++ q'). split_and!.
  - apply load_ok. by apply (after_pick_ok s ls).
  - rewrite thread_at_load, after_pick_at, Hu. cbn zeta.
    destruct (decide (c = n)); [congruence|]. by destruct (decide (n = n)).
  - cbn. lia.
  - intros k Hkp. destruct (Forall2_lookup_r _ _ _ _ _ Hsuf (Hoffk k Hkp)) as (q0 & Hq0 & Hs0).
    by apply suffix_nil_inv in Hs0 as ->.
  - done.
  - done.
  - rewrite thread_at_load, after_pick_at. cbn zeta.
    destruct (decide (c = i)); [congruence|]. by destruct (decide (n = i)).
Qed.

(** ** Properties *)

(** C3. The scheduler's invariant: from a good state, whatever sequence of
    events happens, every slot number is queued at most once and in the
    queue of its thread's priority, the current thread is running and not
    queued, and queued threads are ready or dead; in the state reached,
    neither a tick nor the current thread's stopping can panic. *)
Theorem scheduler_stays_consistent s ls tr s' :
  sched_ok s ls -> rtc_steps sched_step s tr s' ->
  exists ls', sched_ok s' ls' /\ is_Some (schedule l0_of s') /\
    (forall c st, current_idx s' = Some c -> is_Some (schedule l0_of (stop_current s' c st))).
Proof.
  intros Hok Hs. destruct (sched_steps_ok s ls tr s' Hok Hs) as [ls' Hok']. exists ls'.
  split; [done|].
  assert (Hsome : forall s1, sched_inv s1 ls' -> slices_ok s1 ->
    (running s1 = false -> current_idx s1 = None) -> is_Some (schedule l0_of s1)).
  { intros s1 Hinv Hsl Hrun. destruct (running s1) eqn:Hr.
    - destruct (current_idx s1) as [c|] eqn:Hc.
      + destruct (proj2 Hinv c Hc) as [_ [t Ht]].
        pose proof (schedule_spec s1 ls' c t Hinv Hsl Hr Hc Ht) as H.
        destruct (best s1 (offered s1 ls' c)).
        * destruct H as (? & ? & _ & -> & _). by eexists.
        * destruct H as [? ->]. by eexists.
      + unfold schedule. rewrite Hr, Hc. by eexists.
    - unfold schedule. rewrite Hr. by eexists. }
  split.
  - destruct Hok' as [Hinv Hsl Hrun _]. by apply Hsome.
  - intros c st Hc. destruct (stop_ok s' ls' c st Hok' Hc) as (Hinv & Hsl & Hc' & Hr).
    apply Hsome; try done. rewrite Hr, Hc'. intros Hr'.
    rewrite (ok_running s' ls' Hok' Hr') in Hc. congruence.
Qed.

(** What [schedule] picks, from any good state whose current thread may
    just have been stopped: the live thread that comes first in the queues,
    higher priorities first and first in first out within one, the running
    thread counting as last of its priority; when no queued thread is alive,
    the live slot of least number, whatever its state, be it blocked or
    asleep.  It halts only when no thread at all is alive. *)
Theorem schedule_picks_first s ls c st t :
  sched_ok s ls -> current_idx s = Some c ->
  let s1 := stop_current s c st in
  thread_at s1 c = Some t ->
  exists o s', schedule l0_of s1 = Some (o, s') /\
    (((forall i, alive (thread_at s1 i) = false) /\ o = Halted) \/
     exists n, current_idx s' = Some n /\ o = sched_result s1 c n /\
       (exists t', thread_at s' n = Some t' /\ t_state t' = Running) /\
       ((exists dead rest, concat (offered s1 ls c) = dead ++ n :: rest /\
          alive (thread_at s1 n) = true /\ Forall (fun i => alive (thread_at s1 i) = false) dead) \/
        (Forall (fun i => alive (thread_at s1 i) = false) (concat (offered s1 ls c)) /\
         alive (thread_at s1 n) = true /\ (forall j, j < n -> alive (thread_at s1 j) = false)))).
Proof.
  intros Hok Hc s1 Ht. destruct (stop_ok s ls c st Hok Hc) as (Hinv & Hsl & Hc' & Hr).
  fold s1 in Hinv, Hsl, Hc', Hr.
  assert (Hrun : running s1 = true).
  { rewrite Hr. destruct (running s) eqn:E; [done|]. rewrite (ok_running s ls Hok E) in Hc. done. }
  pose proof (schedule_spec s1 ls c t Hinv Hsl Hrun Hc' Ht) as Hspec.
  destruct (best s1 (offered s1 ls c)) as [n|] eqn:Hbest; unfold best in Hbest.
  - destruct Hspec as (ls' & t' & _ & Heq & _ & _ & Ha & Hn & _).
    eexists _, _. split; [exact Heq|]. right. exists n.
    split; [by rewrite (proj1 (proj2 (proj2 (load_frame _ _))))|]. split; [done|]. split.
    + rewrite thread_at_load, after_pick_at, Hn. cbn zeta. destruct (decide (n = n)); [|done].
      destruct (decide (c = n)); eexists; done.
    + destruct (list_find _ _) as [[k i]|] eqn:Hf.
      * injection Hbest as ->. left. apply list_find_Some in Hf as (Hk & _ & Hlt).
        exists (take k (concat (offered s1 ls c))), (drop (S k) (concat (offered s1 ls c))).
        split; [by rewrite take_drop_middle|]. split; [done|]. apply Forall_forall. intros j Hj.
        apply list_elem_of_lookup_1 in Hj as [m Hm].
        apply lookup_take_Some in Hm as [Hm Hmk].
        apply not_true_is_false. by apply (Hlt m j).
      * right. apply list_find_None in Hf. split.
        -- eapply Forall_impl; [exact Hf|]. intros j Hj. by apply not_true_is_false.
        -- by apply first_alive_Some.
  - destruct Hspec as [s2 Heq]. eexists _, _. split; [exact Heq|]. left. split; [|done].
    intros i. destruct (list_find _ _) as [[k j]|]; [done|].
    unfold first_alive in Hbest. rewrite find_index_None in Hbest. unfold thread_at.
    destruct (threads s1 !! i) as [o|] eqn:Ho; [|done]. apply (Hbest i) in Ho. by destruct o.
Qed.

(** C33. No ready thread starves: a live thread waiting behind [l1] in the
    highest queue in use runs within [length l1 + 1] timer ticks. *)
Theorem waits_its_turn s ls c t pr l1 i l2 :
  sched_ok s ls -> current_idx s = Some c -> thread_at s c = Some t ->
  pr <= priority_to_index (t_priority t) -> (forall k, k < pr -> ls !! k = Some []) ->
  ls !! pr = Some (l1 ++ i :: l2) -> alive (thread_at s i) = true ->
  exists n s', n <= length l1 /\ ticks (S n) s = Some s' /\ current_idx s' = Some i.
Proof.
  remember (length l1) as k eqn:Hlen. assert (Hle : length l1 <= k) by lia. clear Hlen.
  revert s ls c t l1 l2 Hle. induction k as [|k IH]; intros s ls c t l1 l2 Hle Hok Hc Ht Hp Hk Hq Hi;
    destruct (tick_towards s ls c t pr l1 i l2 Hok Hc Ht Hp Hk Hq Hi)
      as (o & s1 & n & Hs & Hc1 & [->|(ls1 & t1 & l1' & l2' & Hok1 & Ht1 & Hp1 & Hk1 & Hq1 & Hlt & Hi1)]).
  - exists 0, s1. cbn [ticks]. rewrite Hs. done.
  - lia.
  - exists 0, s1. cbn [ticks]. rewrite Hs. split_and!; [lia|done|done].
  - destruct (IH s1 ls1 n t1 l1' l2') as (m & s2 & Hm & Htk & Hc2); try done; [lia|].
    exists (S m), s2. split; [lia|]. split; [|done]. cbn [ticks] in *. by rewrite Hs.
Qed.

(** Priorities never decay: over any run of events each thread keeps
    its id and the priority it was created with.  [decay_priority] wants a
    slice used up, but every pick refills the slice, so it never runs. *)
Theorem priority_never_decays s ls tr s' i t :
  sched_ok s ls -> rtc_steps sched_step s tr s' -> thread_at s i = Some t ->
  exists t', thread_at s' i = Some t' /\ t_id t' = t_id t /\ t_priority t' = t_priority t.
Proof.
  intros Hok Hs Ht. destruct (sched_steps_keep s ls tr s' Hok Hs i t Ht) as (t' & Ht' & Hid & Hp).
  by exists t'.
Qed.

(** Thread slots are never reclaimed: once sixteen threads have been
    added, however many of them have died since, the next [add] panics. *)
Theorem sixteen_threads_ever s ls tr s' t :
  sched_ok s ls -> (forall i, i < MAX_THREADS -> is_Some (thread_at s i)) ->
  rtc_steps sched_step s tr s' -> add s' t = None.
Proof.
  intros Hok Hfull Hs. pose proof (sched_steps_keep s ls tr s' Hok Hs) as Hk.
  destruct (sched_steps_ok s ls tr s' Hok Hs) as [ls' Hok'].
  pose proof (inv_slots _ _ (proj1 (ok_inv _ _ Hok'))) as Hlen.
  unfold add, find_empty_slot. destruct (first_free (threads s')) as [idx|] eqn:Hf; [|done].
  apply first_free_Some in Hf as (Hidx & Hlt & _). rewrite Hlen in Hlt.
  destruct (Hfull idx Hlt) as [u Hu]. destruct (Hk idx u Hu) as (u' & Hu' & _).
  unfold thread_at in Hu'. by rewrite Hidx in Hu'.
Qed.
End picks.

(** ** Witnesses *)
Section witnesses.

Definition wit_thread (id : Z) (st : ThreadState) : Thread unit unit :=
  mkThread id "t"%string st Normal 5 5 7 0 0 0 0 context_default 0 0 0 (replicate 4 None) 0
    (replicate 2 None) None.

Definition wit_l0 (pid : Z) : option (Z * Z) := Some (0x40090000, 1)%Z.

(** Thread 0 runs, 1 and 2 wait. *)
Definition wit_sched : Scheduler unit unit :=
  mkSched ([Some (wit_thread 1 Running); Some (wit_thread 2 Ready); Some (wit_thread 3 Ready)]
             ++ replicate 13 None)
    (map queue_of [[]; []; [1; 2]; []; []]) (Some 0) true None.

Definition wit_lists : list (list nat) := [[]; []; [1; 2]; []; []].

Lemma wit_sched_ok : sched_ok wit_sched wit_lists.
Proof.
  constructor; [split; [constructor|]| | |]; try done.
  - cbn. apply NoDup_cons. split; [by intros ?%list_elem_of_singleton|apply NoDup_singleton].
  - intros pr l i Hl Hi. destruct pr as [|[|[|[|[|pr]]]]]; try done;
      injection Hl as <-; try (by apply not_elem_of_nil in Hi).
    apply elem_of_cons in Hi as [->|Hi]; [eexists; split; [done|]; split; [by left|done]|].
    apply elem_of_cons in Hi as [->|Hi]; [eexists; split; [done|]; split; [by left|done]|].
    by apply not_elem_of_nil in Hi.
  - intros c [= <-]. split; [cbn; set_solver|by eexists].
  - intros i t Ht. unfold thread_at in Ht. cbn in Ht.
    do 16 (destruct i as [|i]; [cbn in Ht; by simplify_eq|]). by cbn in Ht.
  - intros c t [= <-] Ht. by injection Ht as <-.
Qed.

Definition wit_next (o : option (outcome * Scheduler unit unit)) : Scheduler unit unit :=
  match o with Some (_, s) => s | None => wit_sched end.

Definition wit_sched1 := wit_next (schedule wit_l0 wit_sched).
Definition wit_sched2 := wit_next (schedule wit_l0 (stop_current wit_sched1 1 Blocked)).

Definition wit_trace : list (@sched_event unit unit) :=
  [EvTick (SwitchTo 0 1); EvStop Blocked (SwitchTo 1 2); EvWake 2].

Lemma wit_sched_steps : rtc_steps (sched_step wit_l0) wit_sched wit_trace (wake_thread wit_sched2 2).
Proof.
  apply steps_cons with wit_sched1.
  { apply st_tick; [discriminate|vm_compute; reflexivity]. }
  apply steps_cons with wit_sched2.
  { apply st_stop with 1;
      [vm_compute; reflexivity|by left|discriminate|vm_compute; reflexivity]. }
  apply steps_cons with (wake_thread wit_sched2 2); [apply st_wake|constructor].
Qed.

Lemma scheduler_stays_consistent_witness :
  exists ls', sched_ok (wake_thread wit_sched2 2) ls' /\
    is_Some (schedule wit_l0 (wake_thread wit_sched2 2)).
Proof.
  destruct (scheduler_stays_consistent wit_l0 wit_sched wit_lists wit_trace
              (wake_thread wit_sched2 2) wit_sched_ok wit_sched_steps) as (ls' & Hok & Hs & _).
  exists ls'. exact (conj Hok Hs).
Defined.

Lemma schedule_picks_first_witness :
  exists o s', schedule wit_l0 (stop_current wit_sched 0 Dead) = Some (o, s') /\ o <> Halted.
Proof.
  destruct (schedule_picks_first wit_l0 wit_sched wit_lists 0 Dead (wit_thread 1 Dead)
              wit_sched_ok eq_refl eq_refl) as (o & s' & Hs & Ho).
  exists o, s'. split; [exact Hs|]. destruct Ho as [[Hd _]|(n & _ & -> & _)].
  - exfalso. specialize (Hd 1). discriminate Hd.
  - unfold sched_result. destruct (_ && _); discriminate.
Defined.

(** The second in the queue runs at the second tick. *)
Lemma waits_its_turn_witness :
  exists n s', n <= 1 /\ ticks wit_l0 (S n) wit_sched = Some s' /\ current_idx s' = Some 2.
Proof.
  apply (waits_its_turn wit_l0 wit_sched wit_lists 0 (wit_thread 1 Running) 2 [1] 2 []).
  - exact wit_sched_ok.
  - reflexivity.
  - reflexivity.
  - simpl. lia.
  - intros [|[|k]] Hk; [reflexivity|reflexivity|lia].
  - reflexivity.
  - reflexivity.
Defined.

Lemma priority_never_decays_witness :
  exists t', thread_at (wake_thread wit_sched2 2) 0 = Some t' /\ t_priority t' = Normal.
Proof.
  destruct (priority_never_decays wit_l0 wit_sched wit_lists wit_trace (wake_thread wit_sched2 2)
              0 (wit_thread 1 Running) wit_sched_ok wit_sched_steps eq_refl) as (t' & Ht & _ & Hp).
  exists t'. exact (conj Ht Hp).
Defined.

(** One live thread and fifteen dead ones fill the table for good. *)
Definition wit_full : Scheduler unit unit :=
  mkSched (Some (wit_thread 1 Running) :: replicate 15 (Some (wit_thread 2 Dead)))
    (map queue_of [[]; []; []; []; []]) (Some 0) true None.

Lemma wit_full_ok : sched_ok wit_full [[]; []; []; []; []].
Proof.
  constructor; [split; [constructor|]| | |]; try done.
  - constructor.
  - intros pr l i Hl Hi.
    do 5 (destruct pr as [|pr]; [injection Hl as <-; by apply not_elem_of_nil in Hi|]). done.
  - intros c [= <-]. split; [cbn; set_solver|by eexists].
  - intros i t Ht. unfold thread_at in Ht. cbn in Ht.
    do 16 (destruct i as [|i]; [cbn in Ht; by simplify_eq|]). by cbn in Ht.
  - intros c t [= <-] Ht. by injection Ht as <-.
Qed.

Lemma sixteen_threads_ever_witness : add wit_full (wit_thread 9 Initial) = None.
Proof.
  apply (sixteen_threads_ever wit_l0 wit_full [[]; []; []; []; []] [] wit_full).
  - exact wit_full_ok.
  - intros i Hi. do 16 (destruct i as [|i]; [by eexists|]). unfold MAX_THREADS in Hi. lia.
  - constructor.
Defined.
End witnesses.
