(* ===== verification/Futex.v ===== *)
(** * Futex: wait queues keyed by address

    kernel/src/sync/futex.rs.  Sixty-four entries indexed by a hash of the
    address; an entry keeps eight waiter cells linked by index into a FIFO.
    [futex_wait] is split where it gives up the processor: [futex_enter] up
    to [schedule], [futex_leave] after it. *)
From Stdlib Require Import ZArith Lia String.
From stdpp Require Import base tactics option list list_numbers.
From S2P Require Import Prelude Shared Phys Thread Sched.

Definition MAX_FUTEX_WAITERS : nat := 8.
Definition FUTEX_ENTRIES : nat := 64.

Record FutexWaiter := mkWaiter { w_tid : Z; w_next : option nat }.

Record FutexEntry := mkEntry {
  f_addr : Z;
  f_waiters : list (option FutexWaiter);
  f_count : Z;
  f_head : option nat;
  f_tail : option nat
}.

Definition entry_new (addr : Z) : FutexEntry :=
  mkEntry addr (replicate MAX_FUTEX_WAITERS None) 0 None None.

Abbreviation FutexTable := (list (option FutexEntry)).

Definition futex_table_new : FutexTable := replicate FUTEX_ENTRIES None.

Definition hash_addr (addr : Z) : nat := Z.to_nat (Z.shiftr addr 3 mod 64).

Definition get_or_create_entry (t : FutexTable) (addr : Z) : FutexEntry * FutexTable :=
  let idx := hash_addr addr in
  match t !! idx with
  | Some (Some e) => (e, t)
  | _ => (entry_new addr, <[idx := Some (entry_new addr)]> t)
  end.

Definition find_entry (t : FutexTable) (addr : Z) : option FutexEntry := mjoin (t !! hash_addr addr).

Definition put_entry (t : FutexTable) (addr : Z) (e : FutexEntry) : FutexTable :=
  <[hash_addr addr := Some e]> t.

(** [entry.waiters[idx].as_mut().map(|t| t.next = n)] *)
Definition set_next (ws : list (option FutexWaiter)) (i : nat) (n : option nat)
  : list (option FutexWaiter) :=
  match ws !! i with
  | Some (Some w) => <[i := Some (mkWaiter (w_tid w) n)]> ws
  | _ => ws
  end.

Definition add_waiter (e : FutexEntry) (tid : Z) : bool * FutexEntry :=
  if (Z.of_nat MAX_FUTEX_WAITERS <=? f_count e)%Z then (false, e)
  else
    match first_free (f_waiters e) with
    | None => (false, e)
    | Some i =>
        let ws := <[i := Some (mkWaiter tid None)]> (f_waiters e) in
        let count := u64w (f_count e + 1) in
        match f_head e with
        | None => (true, mkEntry (f_addr e) ws count (Some i) (Some i))
        | Some _ =>
            match f_tail e with
            | Some tail_idx =>
                (true, mkEntry (f_addr e) (set_next ws tail_idx (Some i)) count (f_head e) (Some i))
            | None => (true, mkEntry (f_addr e) ws count (f_head e) (f_tail e))
            end
        end
    end.

(** The walk of [remove_waiter]; a cell is visited at most once, so one
    round per cell and one to stop are enough. *)
Fixpoint remove_walk (fuel : nat) (e : FutexEntry) (tid : Z) (prev curr : option nat) : FutexEntry :=
  match fuel, curr with
  | S fuel', Some idx =>
      let step := remove_walk fuel' e tid (Some idx) in
      match f_waiters e !! idx with
      | Some (Some w) =>
          if (w_tid w =? tid)%Z then
            let '(ws, head) :=
              match prev with
              | Some p => (set_next (f_waiters e) p (w_next w), f_head e)
              | None => (f_waiters e, w_next w)
              end in
            let tail := if bool_decide (f_tail e = Some idx) then prev else f_tail e in
            mkEntry (f_addr e) (<[idx := None]> ws) (u64w (f_count e - 1)) head tail
          else step (w_next w)
      | _ => step None
      end
  | _, _ => e
  end.

Definition remove_waiter (e : FutexEntry) (tid : Z) : FutexEntry :=
  remove_walk (S MAX_FUTEX_WAITERS) e tid None (f_head e).

(** The loop of [wake_from_entry]: the threads woken, in order, and the
    cells left.  Each round empties a cell. *)
Fixpoint wake_walk (fuel : nat) (ws : list (option FutexWaiter)) (count : Z) (curr : option nat)
  : list Z * list (option FutexWaiter) :=
  match fuel, curr with
  | S fuel', Some idx =>
      if (count <=? 0)%Z then ([], ws)
      else
        match ws !! idx with
        | Some (Some w) =>
            let '(tids, ws') := wake_walk fuel' (<[idx := None]> ws) (count - 1) (w_next w) in
            (w_tid w :: tids, ws')
        | _ => ([], ws)
        end
  | _, _ => ([], ws)
  end.

Definition wake_from_entry (e : FutexEntry) (count : Z) : list Z * FutexEntry :=
  let '(tids, ws) := wake_walk (S MAX_FUTEX_WAITERS) (f_waiters e) count (f_head e) in
  if length tids =? 0 then (tids, mkEntry (f_addr e) ws (f_count e) (f_head e) (f_tail e))
  else (tids, mkEntry (f_addr e) ws 0 None None).

(** ** The futex calls *)
Section calls.
Context {Obj Pk : Type} (l0_of : Z -> option (Z * Z)).

Inductive wait_state :=
| WaitDone (r : kresult unit)
| WaitBlocked (tid : Z) (o : outcome).

(** [current_val] is the word at [addr]. *)
Definition futex_enter (t : FutexTable) (s : Scheduler Obj Pk) (addr expected current_val : Z)
  : option (wait_state * FutexTable * Scheduler Obj Pk) :=
  if negb (current_val =? expected)%Z then Some (WaitDone (Ok tt), t, s)
  else
    match get_current_thread_ptr s with
    | None => Some (WaitDone (Err ThreadNotFound), t, s)
    | Some c =>
        match thread_at s c with
        | None => None
        | Some th =>
            let '(e, t1) := get_or_create_entry t addr in
            let '(ok, e1) := add_waiter e (t_id th) in
            let t2 := put_entry t1 addr e1 in
            if negb ok then Some (WaitDone (Err NoMemory), t2, s)
            else
              match schedule l0_of (stop_current s c Blocked) with
              | None => None
              | Some (o, s') => Some (WaitBlocked (t_id th) o, t2, s')
              end
        end
    end.

Definition futex_leave (t : FutexTable) (addr tid : Z) : kresult unit * FutexTable :=
  match find_entry t addr with
  | Some e => (Ok tt, put_entry t addr (remove_waiter e tid))
  | None => (Ok tt, t)
  end.

Definition futex_wake (t : FutexTable) (s : Scheduler Obj Pk) (addr count : Z)
  : kresult nat * FutexTable * Scheduler Obj Pk :=
  match find_entry t addr with
  | None => (Ok 0, t, s)
  | Some e =>
      match f_head e with
      | None => (Ok 0, t, s)
      | Some _ =>
          let '(tids, e') := wake_from_entry e count in
          (Ok (length tids), put_entry t addr e', fold_left wake_thread tids s)
      end
  end.

Definition futex_wake_all (t : FutexTable) (s : Scheduler Obj Pk) (addr : Z) :=
  futex_wake t s addr (2 ^ 64 - 1)%Z.

(** [requeue] repeats the loop of [wake_from_entry] on the entry of [addr]
    and does not look at its last argument. *)
Definition futex_requeue (t : FutexTable) (s : Scheduler Obj Pk) (addr count new_addr : Z)
  : kresult nat * FutexTable * Scheduler Obj Pk :=
  futex_wake t s addr count.
End calls.

(** ** The linked list as a list

    [seg ws h q h']: from [h], following [w_next], the cells and threads of
    [q], ending at [h']. *)
Fixpoint seg (ws : list (option FutexWaiter)) (h : option nat) (q : list (nat * Z))
    (h' : option nat) : Prop :=
  match q with
  | [] => h = h'
  | (i, tid) :: q' => h = Some i /\ exists n, ws !! i = Some (Some (mkWaiter tid n)) /\ seg ws n q' h'
  end.

Lemma seg_app ws h q1 q2 h' :
  seg ws h (q1 ++ q2) h' <-> exists m, seg ws h q1 m /\ seg ws m q2 h'.
Proof.
  revert h. induction q1 as [|[i tid] q1 IH]; intros h; cbn.
  - split; [by exists h|by intros (m & -> & ?)].
  - split.
    + intros (-> & n & Hn & (m & H1 & H2)%IH). exists m. eauto.
    + intros (m & (-> & n & Hn & H1) & H2). split; [done|]. exists n. split; [done|].
      apply IH. eauto.
Qed.

Lemma seg_insert ws h q h' i o :
  i ∉ q.*1 -> seg ws h q h' -> seg (<[i := o]> ws) h q h'.
Proof.
  revert h. induction q as [|[j tid] q IH]; intros h Hi; cbn; [done|].
  apply not_elem_of_cons in Hi as [Hij Hi]. intros (-> & n & Hn & Hs).
  split; [done|]. exists n. rewrite list_lookup_insert_ne by done. eauto.
Qed.

(** What an entry holds: its FIFO, and [lost] cells that are occupied but
    no longer linked. *)
Record entry_rep (e : FutexEntry) (q : list (nat * Z)) (lost : nat) : Prop := {
  er_cells : length (f_waiters e) = MAX_FUTEX_WAITERS;
  er_seg : seg (f_waiters e) (f_head e) q None;
  er_tail : f_tail e = last q.*1;
  er_nodup : NoDup q.*1;
  er_count : f_count e = Z.of_nat (length q);
  er_live : length (live (f_waiters e)) = length q + lost
}.

Lemma entry_new_rep addr : entry_rep (entry_new addr) [] 0.
Proof. constructor; try done. constructor. Qed.

Lemma seg_live ws h q h' i tid : seg ws h q h' -> (i, tid) ∈ q -> exists n, ws !! i = Some (Some (mkWaiter tid n)).
Proof.
  revert h. induction q as [|[j u] q IH]; intros h; [by intros _ ?%not_elem_of_nil|].
  cbn. intros (-> & n & Hn & Hs) [[= -> ->]|Hin]%elem_of_cons; [by exists n|by eapply IH].
Qed.

Lemma free_not_linked ws h q h' i : seg ws h q h' -> ws !! i = Some None -> i ∉ q.*1.
Proof.
  intros Hs Hi ([j tid] & -> & Hin)%list_elem_of_fmap. cbn in Hi.
  destruct (seg_live _ _ _ _ _ _ Hs Hin) as [n Hn]. congruence.
Qed.

Lemma live_insert_length {A} (l : list (option A)) i x :
  l !! i = Some None -> length (live (<[i := Some x]> l)) = S (length (live l)).
Proof. intros H. by rewrite (live_insert_free l i x H). Qed.

Lemma live_remove_length {A} (l : list (option A)) i x :
  l !! i = Some (Some x) -> length (live l) = S (length (live (<[i := None]> l))).
Proof. intros H. by rewrite (live_remove l i x H) at 1. Qed.

Lemma live_replace_length {A} (l : list (option A)) i x y :
  l !! i = Some (Some x) -> length (live (<[i := Some y]> l)) = length (live l).
Proof.
  intros H. pose proof (lookup_lt_Some _ _ _ H).
  rewrite (live_remove_length l i x H), <- (live_insert_length (<[i := None]> l) i y).
  - by rewrite list_insert_insert_eq.
  - by apply list_lookup_insert_eq.
Qed.

(** ** The operations on the list *)
Lemma last_app_fst (q : list (nat * Z)) i (tid : Z) : last (q ++ [(i, tid)]).*1 = Some i.
Proof. rewrite fmap_app. apply last_snoc. Qed.

Lemma rep_lost_bound e q lost : entry_rep e q lost -> length q + lost <= MAX_FUTEX_WAITERS.
Proof. intros H. rewrite <- (er_live _ _ _ H), <- (er_cells _ _ _ H). apply live_length_le. Qed.

Lemma add_waiter_rep e q lost tid :
  entry_rep e q lost ->
  if MAX_FUTEX_WAITERS <=? length q + lost
  then add_waiter e tid = (false, e)
  else exists e' i, add_waiter e tid = (true, e') /\ entry_rep e' (q ++ [(i, tid)]) lost.
Proof.
  intros H. pose proof (rep_lost_bound _ _ _ H) as Hb. destruct H as [Hc Hs Ht Hnd Hn Hl].
  unfold add_waiter. rewrite Hn. destruct (_ <=? length q + lost) eqn:Efull; reflect.
  - destruct (_ <=? Z.of_nat (length q))%Z; [done|].
    destruct (first_free (f_waiters e)) as [i|] eqn:Hf; [|done].
    apply first_free_not_full in Hf. lia.
  - destruct (_ <=? Z.of_nat (length q))%Z eqn:E; reflect; [lia|].
    destruct (first_free_has_room (f_waiters e)) as [i Hi]; [lia|]. rewrite Hi.
    apply first_free_Some in Hi as (Hi & Hlt & _).
    pose proof (free_not_linked _ _ _ _ _ Hs Hi) as Hiq.
    unfold MAX_FUTEX_WAITERS in *. rewrite u64w_small by lia.
    set (ws := <[i := Some (mkWaiter tid None)]> (f_waiters e)).
    assert (Hsi : seg ws (f_head e) q None) by (by apply seg_insert).
    assert (Hwi : ws !! i = Some (Some (mkWaiter tid None))) by (by apply list_lookup_insert_eq).
    destruct q as [|[k tk] q1 _] using rev_ind.
    + cbn in Hs, Ht. rewrite Hs. eexists _, i. split; [done|].
      constructor; cbn [f_waiters f_head f_tail f_count].
      * unfold ws. by rewrite length_insert.
      * cbn. split; [done|]. by exists None.
      * done.
      * apply NoDup_singleton.
      * cbn. lia.
      * unfold ws. rewrite live_insert_length by done. rewrite Hl. done.
    + rewrite last_app_fst in Ht. rewrite Ht.
      assert (Hh : exists h, f_head e = Some h).
      { destruct q1 as [|[j u] q1]; cbn in Hs; destruct Hs as [-> _]; by eexists. }
      destruct Hh as [h Hh]. rewrite Hh. eexists _, i. split; [done|].
      apply seg_app in Hsi as (m & Hs1 & Hs2). cbn in Hs2. destruct Hs2 as (-> & n & Hk & ->).
      rewrite fmap_app in Hnd, Hiq. cbn in Hnd, Hiq.
      apply NoDup_app in Hnd as (Hnd1 & Hnd2 & _).
      apply not_elem_of_app in Hiq as [Hiq1 Hiq2%not_elem_of_cons].
      assert (Hk1 : k ∉ q1.*1) by (intros Hx; by apply (Hnd2 k Hx), list_elem_of_singleton).
      unfold set_next. rewrite Hk. cbn [w_tid].
      constructor; cbn [f_waiters f_head f_tail f_count].
      * unfold ws. by rewrite !length_insert.
      * apply seg_app. exists (Some i). split.
        -- apply seg_app. exists (Some k). split; [rewrite <- Hh; by apply seg_insert|].
           cbn. split; [done|]. exists (Some i). split; [|done].
           apply list_lookup_insert_eq. by apply lookup_lt_Some in Hk.
        -- cbn. split; [done|]. exists None. split; [|done].
           rewrite list_lookup_insert_ne by (destruct Hiq2; congruence). done.
      * by rewrite last_app_fst.
      * rewrite !fmap_app. cbn. apply NoDup_app. split_and!.
        -- apply NoDup_app. split_and!; [done|done|apply NoDup_singleton].
        -- intros x Hx ->%list_elem_of_singleton. apply elem_of_app in Hx as [?|Hx]; [done|].
           apply list_elem_of_singleton in Hx. destruct Hiq2; congruence.
        -- apply NoDup_singleton.
      * rewrite !length_app. simpl. lia.
      * rewrite (live_replace_length _ _ _ _ Hk). unfold ws.
        rewrite live_insert_length by done. rewrite !length_app in *. simpl in *. lia.
Qed.

Lemma wake_walk_spec fuel ws count h q :
  seg ws h q None -> NoDup q.*1 -> length q < fuel -> (0 <= count)%Z ->
  exists ws', wake_walk fuel ws count h = (take (Z.to_nat count) q.*2, ws') /\
    length ws' = length ws /\
    length (live ws) = length (live ws') + min (length q) (Z.to_nat count).
Proof.
  revert ws count h q. induction fuel as [|fuel IH]; intros ws count h q Hs Hnd Hf Hc; [lia|].
  cbn [wake_walk]. destruct q as [|[i tid] q].
  { cbn in Hs. subst h. exists ws. cbn [fmap list_fmap]. rewrite take_nil.
    split_and!; [by destruct fuel|done|by rewrite Nat.add_0_r]. }
  cbn in Hs. destruct Hs as (-> & n & Hn & Hs). destruct (count <=? 0)%Z eqn:E; reflect.
  - assert (count = 0%Z) as -> by lia. exists ws. change (Z.to_nat 0) with 0.
    rewrite take_0, Nat.min_0_r. split_and!; [done|done|lia].
  - rewrite Hn. cbn [w_next w_tid]. apply NoDup_cons in Hnd as [Hi Hnd].
    destruct (IH (<[i := None]> ws) (count - 1)%Z n q) as (ws' & Hw & Hlen & Hlive).
    + by apply seg_insert.
    + done.
    + simpl in Hf. lia.
    + lia.
    + rewrite Hw. exists ws'. rewrite (live_remove_length _ _ _ Hn), Hlive, Hlen, length_insert.
      replace (Z.to_nat count) with (S (Z.to_nat (count - 1))) by lia.
      split_and!; [done|done|simpl; lia].
Qed.

(** Waking takes the first threads of the queue and forgets all others. *)
Lemma wake_from_entry_rep e q lost count :
  entry_rep e q lost -> (0 <= count)%Z ->
  let tids := take (Z.to_nat count) q.*2 in
  exists e', wake_from_entry e count = (tids, e') /\
    entry_rep e' (if length tids =? 0 then q else []) (lost + if length tids =? 0 then 0 else length q - length tids).
Proof.
  intros H Hc tids. pose proof (rep_lost_bound _ _ _ H) as Hb. destruct H as [Hcl Hs Ht Hnd Hn Hl].
  destruct (wake_walk_spec (S MAX_FUTEX_WAITERS) (f_waiters e) count (f_head e) q)
    as (ws' & Hw & Hlen & Hlive); [done|done|lia|done|].
  unfold wake_from_entry. rewrite Hw. fold tids.
  assert (Htl : length tids = min (Z.to_nat count) (length q)).
  { unfold tids. by rewrite length_take, length_fmap. }
  destruct (length tids =? 0) eqn:E; reflect.
  - eexists. split; [done|].
    assert (ws' = f_waiters e) as ->; [|constructor; cbn [f_waiters f_head f_tail f_count]; try done; lia].
    assert (Hz : Z.to_nat count = 0 \/ q = []) by (destruct q; [by right|left; simpl in Htl; lia]).
    cbn [wake_walk] in Hw. destruct Hz as [Hz| ->].
    + destruct (f_head e); [|congruence].
      assert ((count <=? 0)%Z = true) as Hle by (apply Z.leb_le; lia). rewrite Hle in Hw. congruence.
    + cbn in Hs. rewrite Hs in Hw. congruence.
  - eexists. split; [done|]. constructor; cbn [f_waiters f_head f_tail f_count]; try done.
    + congruence.
    + constructor.
    + simpl length. lia.
Qed.

(** The entry after cell [i], which follows [prev], is taken out. *)
Definition unlink (e : FutexEntry) (prev : option nat) (i : nat) (w : FutexWaiter) : FutexEntry :=
  let '(ws, head) :=
    match prev with
    | Some p => (set_next (f_waiters e) p (w_next w), f_head e)
    | None => (f_waiters e, w_next w)
    end in
  let tail := if bool_decide (f_tail e = Some i) then prev else f_tail e in
  mkEntry (f_addr e) (<[i := None]> ws) (u64w (f_count e - 1)) head tail.

Lemma last_cut (l1 l2 : list nat) i :
  NoDup (l1 ++ i :: l2) ->
  (if bool_decide (last (l1 ++ i :: l2) = Some i) then last l1 else last (l1 ++ i :: l2)) =
  last (l1 ++ l2).
Proof.
  intros Hnd. destruct l2 as [|x l2 _] using rev_ind.
  - rewrite last_snoc, bool_decide_true by done. by rewrite app_nil_r.
  - rewrite app_comm_cons, !app_assoc, !last_snoc. apply NoDup_app in Hnd as (_ & _ & Hnd).
    apply NoDup_cons in Hnd as [Hi _].
    rewrite bool_decide_false; [done|]. intros [= ->]. apply Hi, elem_of_app. right. by left.
Qed.

Lemma unlink_rep e q1 q2 lost i tid n :
  entry_rep e (q1 ++ (i, tid) :: q2) lost -> f_waiters e !! i = Some (Some (mkWaiter tid n)) ->
  seg (f_waiters e) n q2 None ->
  entry_rep (unlink e (last q1.*1) i (mkWaiter tid n)) (q1 ++ q2) lost.
Proof.
  intros H Hi Hs2. pose proof (rep_lost_bound _ _ _ H) as Hb.
  destruct H as [Hc Hs Ht Hnd Hn Hl]. rewrite fmap_app in Ht, Hnd. cbn [fmap list_fmap fst] in Ht, Hnd.
  pose proof (last_cut _ _ _ Hnd) as Hlast.
  pose proof Hnd as Hnd'. apply NoDup_app in Hnd' as (Hn1 & Hd & Hn2).
  apply NoDup_cons in Hn2 as [Hi2 Hn2].
  assert (Hi1 : i ∉ q1.*1) by (intros Hx; apply (Hd i Hx); by left).
  rewrite length_app in Hn, Hb, Hl. cbn [length] in Hn, Hb, Hl. unfold MAX_FUTEX_WAITERS in Hb.
  assert (Hcount : u64w (f_count e - 1) = Z.of_nat (length (q1 ++ q2))).
  { rewrite Hn, u64w_small by lia. rewrite length_app. lia. }
  assert (Hnd12 : NoDup (q1 ++ q2).*1).
  { rewrite fmap_app. apply NoDup_app. split_and!; [done| |done].
    intros x Hx Hx2. apply (Hd x Hx). by right. }
  apply seg_app in Hs as (m & Hs1 & Hsi). cbn in Hsi. destruct Hsi as (-> & n' & Hi' & _).
  unfold unlink. cbn [w_next]. rewrite Ht, Hlast, <- fmap_app, Hcount.
  destruct q1 as [|[k tk] q0 _] using rev_ind.
  - cbn [fmap list_fmap last app] in *. constructor; cbn [f_waiters f_head f_tail f_count]; try done.
    + by rewrite length_insert.
    + by apply seg_insert.
    + rewrite (live_remove_length _ _ _ Hi) in Hl. cbn [length] in *. lia.
  - rewrite last_app_fst. rewrite fmap_app in Hi1, Hn1, Hd. cbn in Hi1, Hn1, Hd.
    apply not_elem_of_app in Hi1 as [Hi1 Hik%not_elem_of_cons].
    apply seg_app in Hs1 as (m & Hs0 & Hsk). cbn in Hsk. destruct Hsk as (-> & nk & Hk & ->).
    apply NoDup_app in Hn1 as (_ & Hk1 & _).
    assert (Hk0 : k ∉ q0.*1) by (intros Hx; by apply (Hk1 k Hx), list_elem_of_singleton).
    assert (Hk2 : k ∉ q2.*1).
    { intros Hx. apply (Hd k); [apply elem_of_app; right; by left|by right]. }
    unfold set_next. rewrite Hk. cbn [w_tid].
    assert (Hi3 : <[k := Some (mkWaiter tk n)]> (f_waiters e) !! i = Some (Some (mkWaiter tid n))).
    { rewrite list_lookup_insert_ne by (destruct Hik; congruence). done. }
    constructor; cbn [f_waiters f_head f_tail f_count]; try done.
    + by rewrite !length_insert.
    + rewrite <- app_assoc. apply seg_app. exists (Some k). split.
      * apply seg_insert; [done|]. by apply seg_insert.
      * cbn. split; [done|]. exists n. split.
        -- rewrite list_lookup_insert_ne by (destruct Hik; congruence).
           apply list_lookup_insert_eq. by apply lookup_lt_Some in Hk.
        -- apply seg_insert; [done|]. by apply seg_insert.
    + rewrite <- (live_replace_length _ _ _ (mkWaiter tk n) Hk), (live_remove_length _ _ _ Hi3) in Hl.
      rewrite !length_app in *. simpl in *. lia.
Qed.

(** [remove_waiter] unlinks the first cell of the thread. *)
Lemma remove_walk_spec fuel e q1 q2 lost tid prev h :
  entry_rep e (q1 ++ q2) lost -> prev = last q1.*1 -> seg (f_waiters e) h q2 None ->
  (tid ∉ q1.*2) -> length q2 < fuel ->
  exists e' q', remove_walk fuel e tid prev h = e' /\ entry_rep e' q' lost /\
    (if decide (tid ∈ q2.*2)
     then exists i qa qb, q2 = qa ++ (i, tid) :: qb /\ (tid ∉ qa.*2) /\ q' = q1 ++ qa ++ qb
     else q' = q1 ++ q2).
Proof.
  revert q1 q2 prev h. induction fuel as [|fuel IH]; intros q1 q2 prev h Hrep Hprev Hs Hn1 Hf; [lia|].
  cbn [remove_walk]. destruct q2 as [|[i u] q2].
  { cbn in Hs. subst h. exists e, q1. rewrite app_nil_r in Hrep. split; [done|]. split; [done|].
    rewrite app_nil_r. by case_decide as Hx; [apply not_elem_of_nil in Hx|]. }
  cbn in Hs. destruct Hs as (-> & n & Hi & Hs). rewrite Hi. cbn [w_tid w_next].
  destruct (u =? tid)%Z eqn:Eu; reflect.
  - subst u. destruct (decide (tid ∈ ((i, tid) :: q2).*2)) as [_|Hx];
      [|destruct Hx; cbn; by left].
    change (exists e' q',
      unlink e prev i (mkWaiter tid n) = e' /\ entry_rep e' q' lost /\
      exists k qa qb, (i, tid) :: q2 = qa ++ (k, tid) :: qb /\ (tid ∉ qa.*2) /\
        q' = q1 ++ qa ++ qb).
    subst prev. eexists _, (q1 ++ q2). split; [done|]. split; [by apply unlink_rep|].
    exists i, [], q2. split_and!; [done|by apply not_elem_of_nil|done].
  - destruct (IH (q1 ++ [(i, u)]) q2 (Some i) n) as (e' & q' & He' & Hr' & Hq').
    + by rewrite <- app_assoc.
    + by rewrite last_app_fst.
    + done.
    + rewrite fmap_app. cbn. intros [?|Hx%list_elem_of_singleton]%elem_of_app; [done|congruence].
    + simpl in Hf. lia.
    + exists e', q'. split; [done|]. split; [done|].
      cbn [fmap list_fmap snd]. destruct (decide (tid ∈ q2.*2)) as [Hin|Hin].
      * rewrite decide_True by (by apply elem_of_cons; right).
        destruct Hq' as (k & qa & qb & -> & Hqa & ->). exists k, ((i, u) :: qa), qb.
        split_and!; [done| |by rewrite <- app_assoc].
        cbn. intros [?|?]%elem_of_cons; [congruence|done].
      * rewrite decide_False by (intros [?|?]%elem_of_cons; [congruence|done]).
        by rewrite Hq', <- app_assoc.
Qed.

Lemma remove_waiter_rep e q lost tid :
  entry_rep e q lost ->
  exists q', entry_rep (remove_waiter e tid) q' lost /\
    (if decide (tid ∈ q.*2)
     then exists i qa qb, q = qa ++ (i, tid) :: qb /\ (tid ∉ qa.*2) /\ q' = qa ++ qb
     else q' = q).
Proof.
  intros H. pose proof (rep_lost_bound _ _ _ H).
  destruct (remove_walk_spec (S MAX_FUTEX_WAITERS) e [] q lost tid None (f_head e))
    as (e' & q' & He & Hr & Hq); [done|done|apply H|by apply not_elem_of_nil|lia|].
  exists q'. unfold remove_waiter. rewrite He. done.
Qed.

(** ** The specification of one entry

    A FIFO of thread ids and the number of cells that can no longer be
    reached.  [wake n] takes the first [n] ids; the ids behind them leave
    the queue too, but their cells stay occupied. *)
Record SpecEntry := mkSpecEntry { se_queue : list Z; se_lost : nat }.

Inductive entry_op := EAdd (tid : Z) | ERemove (tid : Z) | EWake (count : Z).
Inductive entry_resp := RAdded (ok : bool) | RRemoved | RWoken (tids : list Z).

Definition entry_do (e : FutexEntry) (op : entry_op) : entry_resp * FutexEntry :=
  match op with
  | EAdd tid => let '(ok, e') := add_waiter e tid in (RAdded ok, e')
  | ERemove tid => (RRemoved, remove_waiter e tid)
  | EWake count => let '(tids, e') := wake_from_entry e count in (RWoken tids, e')
  end.

Fixpoint remove_first (tid : Z) (l : list Z) : list Z :=
  match l with
  | [] => []
  | x :: l' => if (x =? tid)%Z then l' else x :: remove_first tid l'
  end.

Definition spec_entry_do (s : SpecEntry) (op : entry_op) : entry_resp * SpecEntry :=
  match op with
  | EAdd tid =>
      if MAX_FUTEX_WAITERS <=? length (se_queue s) + se_lost s then (RAdded false, s)
      else (RAdded true, mkSpecEntry (se_queue s ++ [tid]) (se_lost s))
  | ERemove tid => (RRemoved, mkSpecEntry (remove_first tid (se_queue s)) (se_lost s))
  | EWake count =>
      let tids := take (Z.to_nat count) (se_queue s) in
      if length tids =? 0 then (RWoken [], s)
      else (RWoken tids, mkSpecEntry [] (se_lost s + (length (se_queue s) - length tids)))
  end.

Definition op_ok (op : entry_op) : Prop := match op with EWake n => (0 <= n)%Z | _ => True end.

Fixpoint entry_run (e : FutexEntry) (ops : list entry_op) : list entry_resp * FutexEntry :=
  match ops with
  | [] => ([], e)
  | op :: ops' =>
      let '(r, e1) := entry_do e op in let '(rs, e2) := entry_run e1 ops' in (r :: rs, e2)
  end.

Fixpoint spec_entry_run (s : SpecEntry) (ops : list entry_op) : list entry_resp * SpecEntry :=
  match ops with
  | [] => ([], s)
  | op :: ops' =>
      let '(r, s1) := spec_entry_do s op in
      let '(rs, s2) := spec_entry_run s1 ops' in (r :: rs, s2)
  end.

Definition entry_abs (e : FutexEntry) (s : SpecEntry) : Prop :=
  exists q, entry_rep e q (se_lost s) /\ se_queue s = q.*2.

Lemma remove_first_app tid l1 l2 :
  (tid ∉ l1) -> remove_first tid (l1 ++ tid :: l2) = l1 ++ l2.
Proof.
  induction l1 as [|x l1 IH]; cbn; [by rewrite Z.eqb_refl|].
  intros [Hx Hn]%not_elem_of_cons. destruct (x =? tid)%Z eqn:E; reflect; [congruence|].
  by rewrite IH.
Qed.

Lemma remove_first_absent tid l : (tid ∉ l) -> remove_first tid l = l.
Proof.
  induction l as [|x l IH]; cbn; [done|]. intros [Hx Hn]%not_elem_of_cons.
  destruct (x =? tid)%Z eqn:E; reflect; [congruence|]. by rewrite IH.
Qed.

Lemma entry_do_sim e s op :
  entry_abs e s -> op_ok op ->
  let '(r, e') := entry_do e op in
  exists s', spec_entry_do s op = (r, s') /\ entry_abs e' s'.
Proof.
  intros (q & Hrep & Hq) Hop. assert (Hlen : length (se_queue s) = length q)
    by (by rewrite Hq, length_fmap).
  destruct op as [tid|tid|count]; cbn [entry_do spec_entry_do].
  - rewrite Hlen. pose proof (add_waiter_rep e q _ tid Hrep) as H.
    destruct (_ <=? _).
    + rewrite H. exists s. split; [done|by exists q].
    + destruct H as (e' & i & -> & Hrep'). eexists. split; [done|].
      exists (q ++ [(i, tid)]). split; [done|]. cbn. by rewrite Hq, fmap_app.
  - destruct (remove_waiter_rep e q _ tid Hrep) as (q' & Hrep' & Hq').
    eexists. split; [done|]. exists q'. split; [done|]. cbn. rewrite Hq. case_decide as Hin.
    + destruct Hq' as (i & qa & qb & -> & Hn & ->). rewrite !fmap_app. cbn.
      by apply remove_first_app.
    + subst q'. by apply remove_first_absent.
  - destruct (wake_from_entry_rep e q _ count Hrep Hop) as (e' & -> & Hrep').
    rewrite Hlen, Hq in *. destruct (length (take _ _) =? 0) eqn:E; reflect.
    + apply length_zero_iff_nil in E. rewrite E in *. exists s. split; [done|].
      exists q. rewrite Nat.add_0_r in Hrep'. done.
    + eexists. split; [done|]. by exists [].
Qed.

Lemma entry_run_sim ops e s :
  entry_abs e s -> Forall op_ok ops ->
  exists s', spec_entry_run s ops = ((entry_run e ops).1, s') /\ entry_abs (entry_run e ops).2 s'.
Proof.
  revert e s. induction ops as [|op ops IH]; intros e s Ha Hok; [by exists s|].
  apply Forall_cons in Hok as [Hop Hok]. pose proof (entry_do_sim e s op Ha Hop) as H.
  cbn [entry_run spec_entry_run]. destruct (entry_do e op) as [r e1].
  destruct H as (s1 & -> & Ha1). destruct (IH e1 s1 Ha1 Hok) as (s2 & Hs2 & Ha2).
  rewrite Hs2. destruct (entry_run e1 ops) as [rs e2]. by exists s2.
Qed.

(** A thread that is not queued stays out of the queue, and is not woken,
    until it waits again. *)
Lemma spec_not_woken ops s tid rs s' :
  (tid ∉ se_queue s) -> (EAdd tid ∉ ops) -> spec_entry_run s ops = (rs, s') ->
  forall tids, RWoken tids ∈ rs -> tid ∉ tids.
Proof.
  revert s rs. induction ops as [|op ops IH]; intros s rs Hn Ha Hr tids Hin.
  { injection Hr as <- <-. by apply not_elem_of_nil in Hin. }
  apply not_elem_of_cons in Ha as [Hop Ha]. cbn [spec_entry_run] in Hr.
  destruct (spec_entry_do s op) as [r s1] eqn:Hd.
  destruct (spec_entry_run s1 ops) as [rs1 s2] eqn:Hr1. injection Hr as <- <-.
  assert (Hn1 : (tid ∉ se_queue s1) /\ forall tids, r = RWoken tids -> tid ∉ tids).
  { destruct op as [u|u|n]; cbn [spec_entry_do] in Hd.
    - case_match; simplify_eq; (split; [|done]); [done|]. cbn.
      intros [?| ->%list_elem_of_singleton]%elem_of_app; done.
    - simplify_eq. split; [|done]. cbn. intros Hx. apply Hn.
      clear -Hx. induction (se_queue s) as [|x l IHl]; cbn in *; [done|].
      destruct (x =? u)%Z; [by right|]. apply elem_of_cons in Hx as [->|Hx]; [by left|].
      right. by apply IHl.
    - destruct (_ =? 0); simplify_eq; (split; [|intros ? [= <-]]); try done.
      + by apply not_elem_of_nil.
      + by apply not_elem_of_nil.
      + intros Hx. apply Hn. by eapply elem_of_take in Hx as (? & Hx & _); eapply list_elem_of_lookup_2. }
  destruct Hn1 as [Hn1 Hw]. apply elem_of_cons in Hin as [Hin|Hin]; [by apply Hw|].
  by eapply IH.
Qed.

(** ** Properties *)

(** C19. A futex entry is the queue it is meant to be, with one defect made
    explicit: over any sequence of waits, removals and wakes it answers as
    the specification does, where threads are woken in the order they came
    and a wake also drops every thread it does not wake, whose cells are
    then occupied for good and count against the capacity of eight. *)
Theorem futex_entry_refines addr ops :
  Forall op_ok ops ->
  exists s', spec_entry_run (mkSpecEntry [] 0) ops = ((entry_run (entry_new addr) ops).1, s') /\
    entry_abs (entry_run (entry_new addr) ops).2 s' /\
    length (se_queue s') + se_lost s' <= MAX_FUTEX_WAITERS.
Proof.
  intros Hok. destruct (entry_run_sim ops (entry_new addr) (mkSpecEntry [] 0)) as (s' & Hs & Ha).
  - exists []. split; [apply entry_new_rep|done].
  - done.
  - exists s'. split; [done|]. split; [done|]. destruct Ha as (q & Hr & ->).
    rewrite length_fmap. by eapply rep_lost_bound.
Qed.

(** Lost wake-ups: a thread that waits behind the ones a wake takes is
    dropped, and no later wake of any kind will wake it unless it enters
    the wait again (which, being blocked, it cannot). *)
Theorem futex_lost_wakeup e s count tid ops :
  entry_abs e s -> (0 < count)%Z -> Forall op_ok ops -> (EAdd tid ∉ ops) ->
  (tid ∈ drop (Z.to_nat count) (se_queue s)) -> (tid ∉ take (Z.to_nat count) (se_queue s)) ->
  forall tids, RWoken tids ∈ (entry_run e (EWake count :: ops)).1 -> tid ∉ tids.
Proof.
  intros Ha Hc Hok Hna Hd Ht tids Hin.
  destruct (entry_run_sim (EWake count :: ops) e s Ha) as (s' & Hs & _).
  { apply Forall_cons. split; [cbn; lia|done]. }
  revert Hs Hin. generalize (entry_run e (EWake count :: ops)).1. intros out Hs Hin.
  cbn [spec_entry_run spec_entry_do] in Hs.
  destruct (length (take _ _) =? 0) eqn:E; reflect.
  { exfalso. rewrite length_take in E. apply list_elem_of_lookup_1 in Hd as [k Hk].
    rewrite lookup_drop in Hk. apply lookup_lt_Some in Hk. lia. }
  destruct (spec_entry_run (mkSpecEntry [] _) ops) as [rs s2] eqn:Hr.
  injection Hs as Hs _. rewrite <- Hs in Hin.
  apply elem_of_cons in Hin as [[= ->]|Hin]; [done|].
  eapply (spec_not_woken ops _ tid rs s2); [|exact Hna|exact Hr|exact Hin].
  apply not_elem_of_nil.
Qed.

Section collisions.
Context {Obj Pk : Type} (l0_of : Z -> option (Z * Z)).

(** A wake does not check the address: a thread that waits on [addr]
    as the only one of its hash class is woken by a wake of any other
    address of that class. *)
Theorem futex_wake_collides (t : FutexTable) (s : Scheduler Obj Pk) addr addr' v n tid o t1 s1 :
  length t = FUTEX_ENTRIES -> t !! hash_addr addr = Some None ->
  hash_addr addr' = hash_addr addr -> (1 <= n)%Z ->
  futex_enter l0_of t s addr v v = Some (WaitBlocked tid o, t1, s1) ->
  exists t2, futex_wake t1 s1 addr' n = (Ok 1, t2, wake_thread s1 tid) /\
    exists e, find_entry t2 addr = Some e /\ f_head e = None.
Proof.
  intros Hlen Hnone Hhash Hn Henter. unfold futex_enter in Henter.
  rewrite Z.eqb_refl in Henter. cbn [negb] in Henter.
  destruct (get_current_thread_ptr s) as [c|]; [|done].
  destruct (thread_at s c) as [th|]; [|done]. unfold get_or_create_entry in Henter.
  rewrite Hnone in Henter.
  destruct (add_waiter_rep (entry_new addr) [] 0 (t_id th) (entry_new_rep addr))
    as (e' & i & Hadd & Hrep). rewrite Hadd in Henter. cbn [negb] in Henter.
  destruct (schedule _ _) as [[o' s']|]; [|done]. simplify_eq.
  pose proof (lookup_lt_Some _ _ _ Hnone) as Hlt.
  unfold futex_wake, find_entry, put_entry. rewrite Hhash.
  rewrite list_lookup_insert_eq by (by rewrite length_insert). cbn [mjoin option_join].
  pose proof (er_seg _ _ _ Hrep) as Hseg. cbn in Hseg. destruct Hseg as [Hhead _].
  rewrite Hhead.
  destruct (wake_from_entry_rep e' _ _ n Hrep) as (e2 & Hw & Hrep2); [lia|]. rewrite Hw.
  assert (Htk : take (Z.to_nat n) ([] ++ [(i, t_id th)]).*2 = [t_id th]).
  { rewrite take_ge; [done|]. cbn. lia. }
  rewrite Htk in *. cbn [length fold_left] in *. eexists. split; [done|]. exists e2.
  rewrite list_lookup_insert_eq by (by rewrite !length_insert). split; [done|].
  pose proof (er_seg _ _ _ Hrep2) as Hseg2. by cbn in Hseg2.
Qed.
End collisions.

(** ** Witnesses *)
Section witnesses.
Local Open Scope Z_scope.

Lemma futex_entry_refines_witness :
  (entry_run (entry_new 0x1000) [EAdd 4; EAdd 5; EAdd 6; ERemove 5; EWake 1; EWake 9]).1 =
  [RAdded true; RAdded true; RAdded true; RRemoved; RWoken [4]; RWoken []].
Proof.
  destruct (futex_entry_refines 0x1000 [EAdd 4; EAdd 5; EAdd 6; ERemove 5; EWake 1; EWake 9])
    as (s' & Hs & _).
  - repeat (apply Forall_cons; split; [simpl; lia || exact I|]). by apply Forall_nil.
  - apply (f_equal fst) in Hs. cbn [fst] in Hs. rewrite <- Hs. reflexivity.
Defined.

Definition wit_entry : FutexEntry := (entry_run (entry_new 0x1000) [EAdd 4; EAdd 5]).2.

Lemma wit_entry_abs : entry_abs wit_entry (mkSpecEntry [4; 5] 0).
Proof.
  destruct (entry_run_sim [EAdd 4; EAdd 5] (entry_new 0x1000) (mkSpecEntry [] 0)) as (s' & Hs & Ha).
  - exists []. split; [apply entry_new_rep|done].
  - repeat (apply Forall_cons; split; [exact I|]). by apply Forall_nil.
  - apply (f_equal snd) in Hs. cbn in Hs. by rewrite Hs.
Qed.

Lemma futex_lost_wakeup_witness :
  (entry_run wit_entry [EWake 1; EWake 8]).1 = [RWoken [4]; RWoken []] /\
  forall tids, RWoken tids ∈ (entry_run wit_entry [EWake 1; EWake 8]).1 -> 5 ∉ tids.
Proof.
  split; [reflexivity|].
  apply (futex_lost_wakeup wit_entry (mkSpecEntry [4; 5] 0) 1 5 [EWake 8] wit_entry_abs).
  - lia.
  - apply Forall_cons. split; [simpl; lia|by apply Forall_nil].
  - by intros [H|H%not_elem_of_nil]%elem_of_cons.
  - cbn. by left.
  - cbn. by intros [H|H%not_elem_of_nil]%elem_of_cons.
Defined.

(** 0x1000 and 0x1200 collide. *)
Lemma futex_wake_collides_witness :
  exists t1 (s1 : Scheduler unit unit) t2, futex_wake t1 s1 0x1200 1 = (Ok 1%nat, t2, wake_thread s1 1) /\
    current_idx s1 = Some 1%nat.
Proof.
  destruct (futex_enter wit_l0 futex_table_new wit_sched 0x1000 7 7) as [[[w t1] s1]|] eqn:He;
    [|discriminate He].
  assert (Hw : w = WaitBlocked 1 (SwitchTo 0 1)) by (vm_compute in He; congruence).
  assert (Hc : current_idx s1 = Some 1%nat) by (vm_compute in He; injection He as _ _ <-; reflexivity).
  subst w. exists t1, s1.
  destruct (futex_wake_collides wit_l0 futex_table_new wit_sched 0x1000 0x1200 7 1 1
              (SwitchTo 0 1) t1 s1 eq_refl eq_refl eq_refl (Z.le_refl 1) He) as (t2 & Hwk & _).
  exists t2. exact (conj Hwk Hc).
Defined.
End witnesses.
