(* ===== verification/Port.v ===== *)
(** * Port: packet queues

    kernel/src/ipc/port.rs.  A port keeps a ring of sixteen packet slots on
    a page of its own (here the list [po_slots]) and the id of at most one
    waiting thread.  The two waits are split where they give up the
    processor. *)
From Stdlib Require Import ZArith Lia String.
From stdpp Require Import base tactics option list list_numbers gmap.
From S2P Require Import Prelude Shared Ring Phys Thread Sched.

Definition PORT_QUEUE_MAX : nat := 16.

Record PortPacket := mkPacket { pk_key : Z; pk_trigger : Z; pk_status : Z; pk_bytes : list Z }.

Definition packet_default : PortPacket := mkPacket 0 0 0 (replicate 64 0%Z).

Record Port := mkPort {
  po_id : Z;
  po_queue_len : Z;
  po_queue_va : Z;
  po_slots : list (option PortPacket);
  po_head : nat;
  po_tail : nat;
  po_waiter : option Z
}.

(** [next_id] is [PORT_ID_COUNTER]. *)
Definition port_new (queue_len next_id : Z) (p : Phys) : option (kresult Port * Z * Phys) :=
  if (queue_len =? 0)%Z || (Z.of_nat PORT_QUEUE_MAX <? queue_len)%Z
  then Some (Err InvalidArgs, next_id, p)
  else
    match alloc_kheap_page p with
    | None => None
    | Some (Err e, p1) => Some (Err e, next_id, p1)
    | Some (Ok pa, p1) =>
        Some (Ok (mkPort next_id queue_len (pa_to_kernel_va pa)
                    (replicate PORT_QUEUE_MAX None) 0 0 None), u32w (next_id + 1), p1)
    end.

Definition set_ring (po : Port) (slots : list (option PortPacket)) (head tail : nat) : Port :=
  mkPort (po_id po) (po_queue_len po) (po_queue_va po) slots head tail (po_waiter po).
Definition set_waiter (po : Port) (w : option Z) : Port :=
  mkPort (po_id po) (po_queue_len po) (po_queue_va po) (po_slots po) (po_head po) (po_tail po) w.

Section calls.
Context {Obj : Type} (l0_of : Z -> option (Z * Z)).
Abbreviation Sch := (Scheduler Obj PortPacket).

Inductive port_wait_state :=
| PortDone (r : kresult PortPacket)
| PortBlocked (tid : Z) (o : outcome).

(** Registering as the waiter and giving up the processor. *)
Definition port_block (po : Port) (s : Sch) : option (port_wait_state * Port * Sch) :=
  match get_current_thread_ptr s with
  | None => Some (PortDone (Err ThreadNotFound), po, s)
  | Some c =>
      match thread_at s c with
      | None => None
      | Some th =>
          let s1 := upd_thread s c (fun t => set_packet t None) in
          match schedule l0_of (stop_current s1 c Blocked) with
          | None => None
          | Some (o, s2) => Some (PortBlocked (t_id th) o, set_waiter po (Some (t_id th)), s2)
          end
      end
  end.

Definition port_wait (po : Port) (s : Sch) : option (port_wait_state * Port * Sch) :=
  match (if po_head po =? po_tail po then None else mjoin (po_slots po !! po_head po)) with
  | Some pkt =>
      Some (PortDone (Ok pkt),
            set_ring po (<[po_head po := None]> (po_slots po))
              ((po_head po + 1) mod PORT_QUEUE_MAX) (po_tail po), s)
  | None => port_block po s
  end.

(** What the woken thread (slot [c]) does with its packet slot. *)
Definition port_wait_leave (s : Sch) (c : nat) : kresult PortPacket * Sch :=
  match thread_at s c with
  | Some t => (ok_or Canceled (t_port_packet_slot t), upd_thread s c (fun t => set_packet t None))
  | None => (Err Canceled, s)
  end.

Definition port_wait_with_timeout (po : Port) (s : Sch) : option (port_wait_state * Port * Sch) :=
  match (if po_head po =? po_tail po then None else mjoin (po_slots po !! po_head po)) with
  | Some pkt =>
      Some (PortDone (Ok pkt),
            set_ring po (<[po_head po := None]> (po_slots po))
              ((po_tail po + 1) mod PORT_QUEUE_MAX) (po_tail po), s)
  | None => port_block po s
  end.

(** The deadline is computed before [schedule], from the ticks then. *)
Definition port_deadline (ticks timeout_ms : Z) : option Z :=
  if (0 <? timeout_ms)%Z then Some (u64w (ticks + u64w (timeout_ms * 1000) / 10)) else None.

Definition port_wait_timeout_leave (po : Port) (s : Sch) (c : nat) (deadline : option Z)
    (ticks_now : Z) : kresult PortPacket * Port * Sch :=
  let expired := match deadline with Some d => (d <=? ticks_now)%Z | None => false end in
  if expired then
    (Err TimedOut, set_waiter po None,
     upd_thread s c (fun t => if bool_decide (t_state t = Blocked) then set_state t Ready else t))
  else let '(r, s') := port_wait_leave s c in (r, po, s').

Definition port_queue (po : Port) (s : Sch) (pkt : PortPacket) : kresult unit * Port * Sch :=
  let po1 := set_waiter po None in
  match (match po_waiter po with Some tid => get_thread_ptr s tid | None => None end) with
  | Some i => (Ok tt, po1, upd_thread s i (fun t => set_state (set_packet t (Some pkt)) Ready))
  | None =>
      let next_tail := (po_tail po + 1) mod PORT_QUEUE_MAX in
      if next_tail =? po_head po then (Err TryAgain, po1, s)
      else (Ok tt, set_ring po1 (<[po_tail po := Some pkt]> (po_slots po)) (po_head po) next_tail, s)
  end.
End calls.

(** ** The ring *)
Definition port_contents (po : Port) : list (option PortPacket) :=
  ring_contents PORT_QUEUE_MAX (po_slots po) (po_head po) (po_tail po).

(** The slots between head and tail hold packets and the others are empty. *)
Record port_wf (po : Port) (q : list PortPacket) : Prop := {
  pw_len : length (po_slots po) = PORT_QUEUE_MAX;
  pw_head : po_head po < PORT_QUEUE_MAX;
  pw_tail : po_tail po < PORT_QUEUE_MAX;
  pw_contents : port_contents po = map Some q;
  pw_empty : forall i, ring_used PORT_QUEUE_MAX (po_head po) (po_tail po) <= i ->
    i < PORT_QUEUE_MAX -> po_slots po !! ((po_head po + i) mod PORT_QUEUE_MAX) = Some None
}.

Lemma port_new_wf queue_len next_id p po id' p' :
  port_new queue_len next_id p = Some (Ok po, id', p') -> port_wf po [] /\ po_waiter po = None.
Proof.
  unfold port_new. case_match; [done|]. destruct (alloc_kheap_page p) as [[[pa|e] p1]|]; [|done..].
  intros [= <- <- <-]. split; [|done]. constructor; cbn [po_slots po_head po_tail].
  - done.
  - unfold PORT_QUEUE_MAX. lia.
  - unfold PORT_QUEUE_MAX. lia.
  - done.
  - intros i _ Hi. assert (Hj : (0 + i) mod PORT_QUEUE_MAX < PORT_QUEUE_MAX).
    { apply Nat.mod_upper_bound. unfold PORT_QUEUE_MAX. lia. }
    revert Hj. generalize ((0 + i) mod PORT_QUEUE_MAX). intros j Hj.
    do 16 (destruct j as [|j]; [done|]). unfold PORT_QUEUE_MAX in Hj. lia.
Qed.

Lemma port_len po q :
  port_wf po q -> ring_used PORT_QUEUE_MAX (po_head po) (po_tail po) = length q.
Proof.
  intros [Hl Hh Ht Hc _]. rewrite <- (length_map Some q), <- Hc. unfold port_contents.
  rewrite ring_contents_length; [done|done|unfold PORT_QUEUE_MAX; lia].
Qed.

(** Taking the oldest packet. *)
Lemma port_pop po pkt q :
  port_wf po (pkt :: q) ->
  po_head po <> po_tail po /\ po_slots po !! po_head po = Some (Some pkt) /\
  port_wf (set_ring po (<[po_head po := None]> (po_slots po))
             ((po_head po + 1) mod PORT_QUEUE_MAX) (po_tail po)) q.
Proof.
  intros Hwf. pose proof (port_len _ _ Hwf) as Hlen. destruct Hwf as [Hl Hh Ht Hc He].
  assert (Hne : po_head po <> po_tail po).
  { intros Heq. apply (ring_used_zero PORT_QUEUE_MAX) in Heq; [|done..]. by rewrite Heq in Hlen. }
  split; [done|]. unfold port_contents in Hc.
  destruct (ring_pop PORT_QUEUE_MAX (po_slots po) (po_head po) (po_tail po)) as (x & Hx & Hpop);
    [done..|]. rewrite Hpop in Hc. cbn in Hc. injection Hc as -> Hc. split; [done|].
  assert (H16 : PORT_QUEUE_MAX = 16) by done.
  constructor; cbn [set_ring po_slots po_head po_tail].
  - by rewrite length_insert.
  - apply Nat.mod_upper_bound. lia.
  - done.
  - unfold port_contents. cbn [set_ring po_slots po_head po_tail].
    destruct (ring_contents_insert_first PORT_QUEUE_MAX (po_slots po) (po_head po) (po_tail po) None)
      as [Heq|]; [done..| |done]. unfold ring_next in *. by rewrite Heq.
  - intros i Hi1 Hi2. pose proof (ring_used_pop PORT_QUEUE_MAX _ _ Hh Ht Hne) as Hu.
    unfold ring_next in Hu. rewrite Nat.Div0.add_mod_idemp_l.
    destruct (decide (i = 15)) as [->|Hi].
    + replace ((po_head po + 1 + 15) mod PORT_QUEUE_MAX) with (po_head po).
      * by rewrite list_lookup_insert_eq by lia.
      * replace (po_head po + 1 + 15) with (po_head po + 1 * PORT_QUEUE_MAX) by lia.
        by rewrite Nat.Div0.mod_add, Nat.mod_small.
    + rewrite list_lookup_insert_ne.
      * replace (po_head po + 1 + i) with (po_head po + (i + 1)) by lia. apply He; lia.
      * rewrite (mod_wrap PORT_QUEUE_MAX) by lia. case_bools; reflect; lia.
Qed.

(** Adding a packet at the tail, while there is room. *)
Lemma port_push po pkt q :
  port_wf po q ->
  if length q =? PORT_QUEUE_MAX - 1
  then (po_tail po + 1) mod PORT_QUEUE_MAX = po_head po
  else (po_tail po + 1) mod PORT_QUEUE_MAX <> po_head po /\
    port_wf (set_ring po (<[po_tail po := Some pkt]> (po_slots po)) (po_head po)
               ((po_tail po + 1) mod PORT_QUEUE_MAX)) (q ++ [pkt]).
Proof.
  intros Hwf. pose proof (port_len _ _ Hwf) as Hlen. destruct Hwf as [Hl Hh Ht Hc He].
  assert (H16 : PORT_QUEUE_MAX = 16) by done.
  pose proof (ring_full PORT_QUEUE_MAX (po_head po) (po_tail po) Hh Ht) as Hfull.
  unfold ring_next in Hfull. rewrite Hlen in Hfull.
  destruct (length q =? _) eqn:E; reflect; [by apply Hfull|].
  assert (Hne : (po_tail po + 1) mod PORT_QUEUE_MAX <> po_head po) by (by rewrite Hfull).
  split; [done|]. constructor; cbn [set_ring po_slots po_head po_tail].
  - by rewrite length_insert.
  - done.
  - apply Nat.mod_upper_bound. lia.
  - unfold port_contents in *. cbn [set_ring po_slots po_head po_tail].
    pose proof (ring_push PORT_QUEUE_MAX (po_slots po) (po_head po) (po_tail po) (Some pkt) Hl Hh Ht Hne) as Hp.
    unfold ring_next in Hp. rewrite Hp, Hc. by rewrite map_app.
  - intros i Hi1 Hi2.
    pose proof (ring_used_push PORT_QUEUE_MAX (po_head po) (po_tail po) Hh Ht Hne) as Hu.
    unfold ring_next in Hu. rewrite Hu, Hlen in Hi1.
    rewrite list_lookup_insert_ne; [apply He; lia|].
    intros Heq. pose proof (ring_index_used PORT_QUEUE_MAX (po_head po) (po_tail po) Hh Ht) as Hiu.
    rewrite Hlen in Hiu. rewrite Heq in Hiu. rewrite !(mod_wrap PORT_QUEUE_MAX) in Hiu by lia.
    revert Hiu. case_bools; reflect; lia.
Qed.

Section properties.
Context {Obj : Type} (l0_of : Z -> option (Z * Z)).
Implicit Types (s : Scheduler Obj PortPacket) (po : Port).

Lemma set_waiter_wf po q w : port_wf po q -> port_wf (set_waiter po w) q.
Proof. by intros [? ? ? ? ?]. Qed.

Lemma set_waiter_none po : po_waiter po = None -> set_waiter po None = po.
Proof. destruct po. cbn. by intros ->. Qed.

(** [queue] on a port without a waiter. *)
Lemma port_queue_ring po q s pkt :
  port_wf po q -> po_waiter po = None ->
  if length q =? PORT_QUEUE_MAX - 1 then port_queue po s pkt = (Err TryAgain, po, s)
  else exists po', port_queue po s pkt = (Ok tt, po', s) /\ port_wf po' (q ++ [pkt]) /\
    po_waiter po' = None.
Proof.
  intros Hwf Hw. pose proof (port_push po pkt q Hwf) as Hp. unfold port_queue.
  rewrite Hw, set_waiter_none by done. destruct (length q =? _).
  - rewrite Hp, Nat.eqb_refl. done.
  - destruct Hp as [Hne Hwf']. rewrite (proj2 (Nat.eqb_neq _ _) Hne).
    eexists. split; [done|]. split; [done|done].
Qed.

(** A port is a bounded first-in first-out queue: with no thread
    waiting, [queue] appends until fifteen packets are held and then answers
    [TryAgain] without a change, whatever [queue_len] the port was created
    with; [wait] takes the oldest packet, and blocks only when there is
    none. *)
Theorem port_is_fifo po q s pkt :
  port_wf po q -> po_waiter po = None ->
  (if length q =? PORT_QUEUE_MAX - 1 then port_queue po s pkt = (Err TryAgain, po, s)
   else exists po', port_queue po s pkt = (Ok tt, po', s) /\ port_wf po' (q ++ [pkt]) /\
     po_waiter po' = None) /\
  match q with
  | [] => port_wait l0_of po s = port_block l0_of po s
  | p :: q' => exists po', port_wait l0_of po s = Some (PortDone (Ok p), po', s) /\
      port_wf po' q' /\ po_waiter po' = None
  end.
Proof.
  intros Hwf Hw. split; [by apply port_queue_ring|]. destruct q as [|p q'].
  - unfold port_wait. pose proof (port_len _ _ Hwf) as Hl. destruct Hwf as [_ Hh Ht _ _].
    apply (ring_used_zero PORT_QUEUE_MAX _ _ Hh Ht) in Hl. by rewrite Hl, Nat.eqb_refl.
  - destruct (port_pop po p q' Hwf) as (Hne & Hs & Hwf'). unfold port_wait.
    rewrite (proj2 (Nat.eqb_neq _ _) Hne), Hs. cbn. eexists. split; [done|]. by split.
Qed.

(** [wait_with_timeout] jams the port: when it takes a packet it moves
    the head behind the tail, so that afterwards, however many packets the
    port held, [queue] refuses every packet as if the ring were full, and a
    wait finds no packet and blocks. *)
Theorem timeout_wait_jams_port po p q s pkt :
  port_wf po (p :: q) -> po_waiter po = None ->
  exists po', port_wait_with_timeout l0_of po s = Some (PortDone (Ok p), po', s) /\
    port_queue po' s pkt = (Err TryAgain, po', s) /\
    port_wait l0_of po' s = port_block l0_of po' s /\
    port_wait_with_timeout l0_of po' s = port_block l0_of po' s.
Proof.
  intros Hwf Hw. destruct (port_pop po p q Hwf) as (Hne & Hs & _).
  pose proof (port_len _ _ Hwf) as Hlen.
  unfold port_wait_with_timeout at 1. rewrite (proj2 (Nat.eqb_neq _ _) Hne), Hs. cbn [mjoin option_join].
  eexists. split; [done|].
  assert (H16 : PORT_QUEUE_MAX = 16) by done.
  pose proof Hwf as [Hl Hh Ht Hc He].
  assert (Hnt : (po_tail po + 1) mod PORT_QUEUE_MAX <> po_tail po).
  { rewrite (mod_wrap PORT_QUEUE_MAX) by lia. case_bools; reflect; lia. }
  assert (Hslot : <[po_head po := None]> (po_slots po) !! ((po_tail po + 1) mod PORT_QUEUE_MAX)
                  = Some None).
  { destruct (decide (po_head po = (po_tail po + 1) mod PORT_QUEUE_MAX)) as [Heq|Hneq].
    - rewrite <- Heq. apply list_lookup_insert_eq. lia.
    - rewrite list_lookup_insert_ne by done.
      assert (Hroom : ring_used PORT_QUEUE_MAX (po_head po) (po_tail po) + 1 < PORT_QUEUE_MAX).
      { pose proof (ring_full PORT_QUEUE_MAX (po_head po) (po_tail po) Hh Ht) as Hf.
        unfold ring_next in Hf.
        pose proof (ring_used_lt PORT_QUEUE_MAX (po_head po) (po_tail po) ltac:(lia)).
        destruct (decide (ring_used PORT_QUEUE_MAX (po_head po) (po_tail po) = PORT_QUEUE_MAX - 1)) as [Hu|];
          [|lia]. apply Hf in Hu. congruence. }
      pose proof (ring_index_used PORT_QUEUE_MAX (po_head po) (po_tail po) Hh Ht) as Hiu.
      rewrite <- Hiu at 1. rewrite Nat.Div0.add_mod_idemp_l, <- Nat.add_assoc. apply He; lia. }
  unfold port_queue, port_wait, port_wait_with_timeout.
  cbn [set_ring po_waiter po_head po_tail po_slots]. rewrite Hw. cbn [po_head po_tail po_slots].
  rewrite Hslot, (proj2 (Nat.eqb_neq _ _) Hnt). cbn [mjoin option_join].
  split_and!; [|done|done]. rewrite Nat.eqb_refl. do 2 f_equal.
  unfold set_waiter, set_ring. cbn. by rewrite Hw.
Qed.

(** A ready thread that is in no queue is not picked while another thread
    runs. *)
Lemma unqueued_not_picked n s ls c t i s' :
  sched_ok s ls -> current_idx s = Some c -> thread_at s c = Some t -> i <> c ->
  (i ∉ concat ls) -> ticks l0_of n s = Some s' -> exists c' , current_idx s' = Some c' /\ c' <> i.
Proof.
  revert s ls c t. induction n as [|n IH]; intros s ls c t Hok Hc Ht Hic Hni Htk.
  { injection Htk as <-. by exists c. }
  pose proof Hok as [Hinv Hsl Hrun Hcr]. specialize (Hcr c t Hc Ht).
  assert (Hr : running s = true) by (destruct (running s); [done|rewrite Hrun in Hc; done]).
  pose proof (schedule_spec l0_of s ls c t Hinv Hsl Hr Hc Ht) as Hspec.
  assert (Hoff : offered s ls c = enqueue ls (priority_to_index (t_priority t)) c).
  { unfold offered. by rewrite Ht, Hcr. }
  assert (Hlev : priority_to_index (t_priority t) < length ls).
  { rewrite (inv_levels _ _ (proj1 Hinv)). apply priority_lt. }
  assert (Hin : forall j, j ∈ concat (offered s ls c) <-> j = c \/ j ∈ concat ls).
  { intros j. rewrite Hoff, (enqueue_perm ls _ c Hlev). apply elem_of_cons. }
  assert (Hca : alive (thread_at s c) = true) by (rewrite Ht; cbn; by rewrite Hcr).
  destruct (best s (offered s ls c)) as [m|] eqn:Hbest.
  - destruct Hspec as (ls' & t' & Hsuf & Heq & Hinv' & _ & Hma & Hmt & _).
    assert (Hm : m <> i).
    { unfold best in Hbest. destruct (list_find _ _) as [[k j]|] eqn:Hf.
      - injection Hbest as ->. apply list_find_Some in Hf as (Hk & _).
        apply list_elem_of_lookup_2, Hin in Hk as [->|Hk]; congruence.
      - apply list_find_None in Hf. rewrite Forall_forall in Hf. exfalso.
        apply (Hf c); [apply Hin; by left|done]. }
    cbn [ticks] in Htk. rewrite Heq in Htk.
    set (s2 := load_ttbr0 l0_of (after_pick s c m ls') (t_process_id t')) in *.
    assert (Hw : exists w, thread_at s2 m = Some w).
    { unfold s2. rewrite thread_at_load, after_pick_at, Hmt. cbn zeta.
      destruct (decide (m = m)); [|done]. destruct (decide (c = m)); by eexists. }
    destruct Hw as [w Hw]. apply (IH s2 ls' m w).
    + apply load_ok. by apply (after_pick_ok s ls).
    + unfold s2. by rewrite (proj1 (proj2 (proj2 (load_frame l0_of _ _)))).
    + done.
    + done.
    + intros (pr & l & Hl & Hil)%elem_of_concat.
      destruct (suffixes_lookup _ _ _ _ Hsuf Hl) as (l2 & Hl2 & pre & ->).
      assert (Hic2 : i ∈ concat (offered s ls c)).
      { apply elem_of_concat. exists pr, (pre ++ l). split; [done|]. apply elem_of_app. by right. }
      by apply Hin in Hic2 as [->|].
    + done.
  - exfalso. unfold best in Hbest. destruct (list_find _ _) as [[k j]|] eqn:Hf; [done|].
    apply list_find_None in Hf. rewrite Forall_forall in Hf. apply (Hf c); [apply Hin; by left|done].
Qed.

(** The thread a port wakes is not queued, so it starves: [queue] puts
    the packet in the waiting thread's slot and marks it [Ready], but as
    long as the kernel only ticks, the waiter is never run, because the
    running thread is always in a queue. *)
Theorem port_waiter_starves po s ls c i w pkt n s' :
  sched_ok s ls -> current_idx s = Some c -> i <> c ->
  get_thread_ptr s (t_id w) = Some i -> thread_at s i = Some w -> t_state w = Blocked ->
  po_waiter po = Some (t_id w) ->
  exists po' s1, port_queue po s pkt = (Ok tt, po', s1) /\
    (exists w', thread_at s1 i = Some w' /\ t_state w' = Ready /\ t_port_packet_slot w' = Some pkt) /\
    (ticks l0_of n s1 = Some s' -> exists c', current_idx s' = Some c' /\ c' <> i).
Proof.
  intros Hok Hc Hic Hget Hw Hst Hpw. unfold port_queue. rewrite Hpw, Hget.
  eexists _, _. split; [done|]. split.
  { rewrite thread_at_upd, Hw. destruct (decide (i = i)); [|done]. eexists. split; [done|]. done. }
  intros Htk. set (f := fun t : Thread Obj PortPacket => set_state (set_packet t (Some pkt)) Ready) in *.
  assert (Hok1 : sched_ok (upd_thread s i f) ls).
  { pose proof (ready_ok s ls i w Hok Hw (or_introl Hst)) as Hok0.
    apply (upd_same_ok _ ls i (fun t => set_packet t (Some pkt))) in Hok0; [|done].
    by rewrite upd_upd in Hok0. }
  destruct (proj2 (ok_inv _ _ Hok) c Hc) as [_ [t Ht]].
  apply (unqueued_not_picked n (upd_thread s i f) ls c t i s'); try done.
  - by rewrite (proj1 (proj2 (upd_thread_frame s i f))).
  - rewrite thread_at_upd. by destruct (decide (i = c)).
  - apply (blocked_not_queued s ls i w); [apply Hok|done|by left].
Qed.
End properties.

(** ** Witnesses *)
Section witnesses.

Definition wit_pkt (k : Z) : PortPacket := mkPacket k 0 0 (replicate 64 0%Z).

Definition wit_port0 : Port := mkPort 1 4 0 (replicate 16 None) 0 0 None.

(** A port with two packets. *)
Definition wit_port : Port :=
  set_ring wit_port0 (Some (wit_pkt 7) :: Some (wit_pkt 8) :: replicate 14 None) 0 2.

Lemma wit_port_wf : port_wf wit_port [wit_pkt 7; wit_pkt 8].
Proof.
  constructor; cbn [wit_port set_ring po_slots po_head po_tail]; try (unfold PORT_QUEUE_MAX; lia).
  - done.
  - done.
  - intros i Hi1 Hi2. change (ring_used PORT_QUEUE_MAX 0 2) with 2 in Hi1.
    unfold PORT_QUEUE_MAX in Hi2. destruct i as [|[|i]]; [lia|lia|].
    do 14 (destruct i as [|i]; [done|]). lia.
Qed.

Definition wit_pthread (id : Z) (st : ThreadState) : Thread unit PortPacket :=
  mkThread id "t"%string st Normal 5 5 7 0 0 0 0 context_default 0 0 0 (replicate 4 None) 0
    (replicate 2 None) None.

(** Thread 1 runs, thread 2 waits at the port. *)
Definition wit_psched : Scheduler unit PortPacket :=
  mkSched ([Some (wit_pthread 1 Running); Some (wit_pthread 2 Blocked)] ++ replicate 14 None)
    (map queue_of [[]; []; []; []; []]) (Some 0) true None.

Lemma wit_psched_ok : sched_ok wit_psched [[]; []; []; []; []].
Proof.
  constructor; [split; [constructor|]| | |]; try done.
  - constructor.
  - intros pr l i Hl Hi. destruct pr as [|[|[|[|[|pr]]]]]; try done;
      injection Hl as <-; by apply not_elem_of_nil in Hi.
  - intros c [= <-]. split; [by apply not_elem_of_nil|by eexists].
  - intros i t Ht. unfold thread_at in Ht. cbn in Ht.
    do 16 (destruct i as [|i]; [cbn in Ht; by simplify_eq|]). by cbn in Ht.
  - intros c t [= <-] Ht. by injection Ht as <-.
Qed.

Lemma port_is_fifo_witness :
  exists po' po'', port_queue wit_port wit_psched (wit_pkt 9) = (Ok tt, po', wit_psched) /\
    port_wait wit_l0 wit_port wit_psched = Some (PortDone (Ok (wit_pkt 7)), po'', wit_psched).
Proof.
  destruct (port_is_fifo wit_l0 wit_port [wit_pkt 7; wit_pkt 8] wit_psched (wit_pkt 9)
              wit_port_wf eq_refl) as [(po' & Hq & _) (po'' & Hw & _)].
  exists po', po''. exact (conj Hq Hw).
Defined.

(** One of two packets taken with a time limit, and the port is stuck. *)
Lemma timeout_wait_jams_port_witness :
  exists po', port_wait_with_timeout wit_l0 wit_port wit_psched =
      Some (PortDone (Ok (wit_pkt 7)), po', wit_psched) /\
    port_queue po' wit_psched (wit_pkt 9) = (Err TryAgain, po', wit_psched).
Proof.
  destruct (timeout_wait_jams_port wit_l0 wit_port (wit_pkt 7) [wit_pkt 8] wit_psched (wit_pkt 9)
              wit_port_wf eq_refl) as (po' & Hw & Hq & _).
  exists po'. exact (conj Hw Hq).
Defined.

Definition wit_port2 : Port := set_waiter wit_port0 (Some 2%Z).

Lemma port_waiter_starves_witness :
  exists po' s1, port_queue wit_port2 wit_psched (wit_pkt 9) = (Ok tt, po', s1) /\
    (forall s', ticks wit_l0 50 s1 = Some s' -> exists c', current_idx s' = Some c' /\ c' <> 1).
Proof.
  destruct (port_queue wit_port2 wit_psched (wit_pkt 9)) as [[r po'] s1] eqn:Hq.
  assert (Hr : r = Ok tt) by (vm_compute in Hq; congruence). subst r.
  exists po', s1. split; [exact eq_refl|]. intros s' Htk.
  destruct (port_waiter_starves wit_l0 wit_port2 wit_psched [[]; []; []; []; []] 0 1
              (wit_pthread 2 Blocked) (wit_pkt 9) 50 s' wit_psched_ok eq_refl
              ltac:(discriminate) eq_refl eq_refl eq_refl eq_refl) as (po2 & s2 & Hq2 & _ & Hn).
  rewrite Hq in Hq2. injection Hq2 as _ <-. exact (Hn Htk).
Defined.
End witnesses.
