(* ===== verification/Registry.v ===== *)
(** * Registry: named services

    kernel/src/ipc/registry.rs.  Eight slots scanned from 0; a name of at
    most sixteen bytes is kept zero padded with its length.  The spin lock
    makes each call atomic. *)
From Stdlib Require Import ZArith Lia.
From stdpp Require Import base tactics option list.
From S2P Require Import Prelude Shared.

Definition MAX_SERVICES : nat := 8.

(** [channel_ptr] is the address of a boxed channel. *)
Record ServiceEntry := mkService { sv_name : list Z; sv_name_len : nat; sv_channel : Z }.

Abbreviation Registry := (list (option ServiceEntry)).

Definition registry_new : Registry := replicate MAX_SERVICES None.

(** [&e.name[..e.name_len] == name_bytes] *)
Definition same_name (name : list Z) (e : ServiceEntry) : bool :=
  bool_decide (take (sv_name_len e) (sv_name e) = name).

Definition bad_name (name : list Z) : bool := (16 <? length name) || (length name =? 0).

Definition register_service (r : Registry) (name : list Z) (chan : Z) : kresult unit * Registry :=
  if bad_name name then (Err InvalidArgs, r)
  else
    match find_slot (same_name name) r with
    | Some _ => (Err AlreadyExists, r)
    | None =>
        match first_free r with
        | Some i =>
            (Ok tt, <[i := Some (mkService (name ++ replicate (16 - length name) 0%Z)
                                   (length name) chan)]> r)
        | None => (Err NoMemory, r)
        end
    end.

Definition lookup_service (r : Registry) (name : list Z) : kresult Z :=
  if bad_name name then Err InvalidArgs
  else
    match find_slot (same_name name) r with
    | Some i =>
        match r !! i with Some (Some e) => Ok (sv_channel e) | _ => Err NotFound end
    | None => Err NotFound
    end.

(** ** The registry as a finite map *)
Definition entry_key (e : ServiceEntry) : list Z := take (sv_name_len e) (sv_name e).

Definition registry_wf (r : Registry) : Prop :=
  length r = MAX_SERVICES /\ NoDup (entry_key <$> live r).

Lemma registry_new_wf : registry_wf registry_new.
Proof. split; [done|apply NoDup_nil_2]. Qed.

Definition binds (r : Registry) (name : list Z) (chan : Z) : Prop :=
  exists e, e ∈ live r /\ entry_key e = name /\ sv_channel e = chan.

Lemma find_name_None r name :
  find_slot (same_name name) r = None <-> name ∉ (entry_key <$> live r).
Proof.
  rewrite find_slot_None. split.
  - intros H (e & -> & [i Hi]%elem_of_live)%list_elem_of_fmap. specialize (H i e Hi).
    unfold same_name in H. apply bool_decide_eq_false in H. done.
  - intros H i e Hi. apply bool_decide_eq_false. intros Hk. apply H. rewrite <- Hk.
    change (entry_key e ∈ entry_key <$> live r).
    apply list_elem_of_fmap_2, elem_of_live. by exists i.
Qed.

Lemma lookup_binds r name chan :
  registry_wf r -> bad_name name = false ->
  lookup_service r name = Ok chan <-> binds r name chan.
Proof.
  intros [Hl Hnd] Hb. unfold lookup_service, binds. rewrite Hb.
  destruct (find_slot (same_name name) r) as [i|] eqn:Hf.
  - destruct (find_slot_Some _ _ _ Hf) as (e & Hi & He & _). rewrite Hi.
    apply bool_decide_eq_true in He. split.
    + intros [= <-]. exists e. split; [apply elem_of_live; by exists i|done].
    + intros (e' & [j Hj]%elem_of_live & Hk & <-). do 2 f_equal.
      destruct (decide (i = j)) as [->|Hij]; [congruence|].
      exfalso. rewrite (live_remove r i e Hi) in Hnd. cbn in Hnd.
      apply NoDup_cons in Hnd as [Hni _]. apply Hni.
      change (entry_key e) with (take (sv_name_len e) (sv_name e)). rewrite He, <- Hk.
      apply list_elem_of_fmap_2, elem_of_live. exists j. by rewrite list_lookup_insert_ne.
  - split; [done|]. intros (e & He & Hk & _). apply find_name_None in Hf. destruct Hf.
    rewrite <- Hk. by apply list_elem_of_fmap_2.
Qed.

(** The registry is a finite map from names to channels with at most
    eight entries: on a well-formed registry, [register_service] rejects bad
    names, taken names and a ninth service without a change, and otherwise
    adds exactly its binding; [lookup_service] returns a channel exactly
    when it is bound, so a registered service is found again and no other
    name changes its answer. *)
Theorem registry_is_map r name chan :
  registry_wf r ->
  let '(res, r') := register_service r name chan in
  registry_wf r' /\
  match res with
  | Ok _ =>
      bad_name name = false /\ lookup_service r name = Err NotFound /\
      lookup_service r' name = Ok chan /\
      (forall name', bad_name name' = false -> name' <> name ->
         lookup_service r' name' = lookup_service r name')
  | Err e =>
      r' = r /\
      ((bad_name name = true /\ e = InvalidArgs) \/
       (bad_name name = false /\ e = AlreadyExists /\ exists c, lookup_service r name = Ok c) \/
       (bad_name name = false /\ e = NoMemory /\ lookup_service r name = Err NotFound /\
        length (live r) = MAX_SERVICES))
  end.
Proof.
  intros Hwf. pose proof Hwf as [Hl Hnd]. unfold register_service.
  destruct (bad_name name) eqn:Hb; [split; [done|]; split; [done|by left]|].
  destruct (find_slot (same_name name) r) as [k|] eqn:Hf.
  { split; [done|]. split; [done|]. right; left. split; [done|]. split; [done|].
    unfold lookup_service. rewrite Hb, Hf.
    destruct (find_slot_Some _ _ _ Hf) as (e & -> & _). by eexists. }
  assert (Hno : lookup_service r name = Err NotFound) by (unfold lookup_service; by rewrite Hb, Hf).
  destruct (first_free r) as [i|] eqn:Hi.
  2:{ split; [done|]. split; [done|]. right; right. split_and!; [done..|].
      rewrite (first_free_full r Hi). done. }
  apply first_free_Some in Hi as (Hi & _). set (e := mkService _ _ chan).
  pose proof (live_insert_free r i e Hi) as Hp.
  assert (Hk : entry_key e = name) by (unfold entry_key, e; cbn; by rewrite take_app_length).
  assert (Hwf' : registry_wf (<[i := Some e]> r)).
  { split; [by rewrite length_insert|]. rewrite Hp. rewrite fmap_cons, Hk. apply NoDup_cons. split; [|done].
    by apply find_name_None. }
  split; [done|]. split; [done|]. split; [done|]. split.
  - apply lookup_binds; [done..|]. exists e. rewrite Hp. split; [by left|done].
  - intros name' Hb' Hne.
    assert (Hbi : forall c, binds (<[i := Some e]> r) name' c <-> binds r name' c).
    { intros c. unfold binds. split.
      - intros (e' & He' & Hk' & Hc). rewrite Hp in He'.
        apply elem_of_cons in He' as [->|He']; [congruence|by exists e'].
      - intros (e' & He' & Hk' & Hc). exists e'. rewrite Hp. split; [by right|done]. }
    destruct (lookup_service r name') as [c|er] eqn:Hc.
    + apply lookup_binds; [done..|]. apply Hbi. by apply lookup_binds.
    + destruct (lookup_service (<[i := Some e]> r) name') as [c'|er'] eqn:Hc'.
      * apply lookup_binds in Hc'; [|done..]. apply Hbi, lookup_binds in Hc'; [|done..]. congruence.
      * unfold lookup_service in Hc, Hc'. rewrite Hb' in Hc, Hc'. repeat case_match; congruence.
Qed.

(** ** Witnesses *)
Section witnesses.
Local Open Scope Z_scope.

Lemma registry_is_map_witness :
  exists r', register_service registry_new [102; 115] 0xffff800040200000 = (Ok tt, r') /\
    lookup_service r' [102; 115] = Ok 0xffff800040200000.
Proof.
  pose proof (registry_is_map registry_new [102; 115] 0xffff800040200000 registry_new_wf) as H.
  destruct (register_service registry_new [102; 115] 0xffff800040200000) as [r r'] eqn:Hr.
  assert (Hok : r = Ok tt) by (vm_compute in Hr; congruence). subst r.
  exists r'. split; [reflexivity|]. apply H.
Defined.
End witnesses.
