(* ===== verification/Channel.v ===== *)
(** * Channel: synchronous message passing

    kernel/src/ipc/channel.rs.  Channels are boxed and known by address;
    threads live in the scheduler's slots and handle tables in their
    processes, known by address, 0 being the null pointer.  A message is
    copied straight between the two threads' kernel buffers ([ip_bytes]).
    [read], [write] and [read_with_timeout] are split where they give up the
    processor: [..._enter] up to [schedule], [..._leave] after it.

    [None] stands for following a pointer to a channel that no longer
    exists, or for a panic of the scheduler. *)
From Stdlib Require Import ZArith Lia String.
From stdpp Require Import base tactics option list list_numbers gmap.
From S2P Require Import Prelude Shared Handles Ring Phys Thread Sched Port.

Definition MAX_WAITERS : nat := 8.

Inductive ChannelState := Open | HalfClosed | Closed.

#[export] Instance ChannelState_eq_dec : EqDecision ChannelState.
Proof. solve_decision. Defined.

Inductive MessagePriority := MLow | MNormal | MHigh.

Record Channel := mkChannel {
  ch_id : Z;
  ch_state : ChannelState;
  ch_read_refs : Z;
  ch_write_refs : Z;
  ch_peer : option Z;
  ch_send_waiters : list (option Z);
  ch_recv_waiters : list (option Z)
}.

(** [next_id] is [CHANNEL_ID_COUNTER]. *)
Definition channel_new (next_id : Z) : Channel * Z :=
  (mkChannel next_id Open 1 1 None (replicate MAX_WAITERS None) (replicate MAX_WAITERS None),
   u32w (next_id + 1)).

Definition set_send (c : Channel) (l : list (option Z)) : Channel :=
  mkChannel (ch_id c) (ch_state c) (ch_read_refs c) (ch_write_refs c) (ch_peer c) l (ch_recv_waiters c).
Definition set_recv (c : Channel) (l : list (option Z)) : Channel :=
  mkChannel (ch_id c) (ch_state c) (ch_read_refs c) (ch_write_refs c) (ch_peer c) (ch_send_waiters c) l.
Definition set_peer (c : Channel) (o : option Z) : Channel :=
  mkChannel (ch_id c) (ch_state c) (ch_read_refs c) (ch_write_refs c) o (ch_send_waiters c)
    (ch_recv_waiters c).
Definition set_closed (c : Channel) : Channel :=
  mkChannel (ch_id c) Closed (ch_read_refs c) (ch_write_refs c) (ch_peer c) (ch_send_waiters c)
    (ch_recv_waiters c).

(** ** Waiter arrays *)
Definition waiters_push (l : list (option Z)) (tid : Z) : bool * list (option Z) :=
  match first_free l with
  | Some i => (true, <[i := Some tid]> l)
  | None => (false, l)
  end.

(** Slot [i] cleared and the ones after it moved down by one. *)
Definition waiters_close_gap (l : list (option Z)) (i : nat) : list (option Z) :=
  take i l ++ drop (S i) l ++ [None].

Definition waiters_pop (l : list (option Z)) : option Z * list (option Z) :=
  match find_index is_live l with
  | Some i => (mjoin (l !! i), waiters_close_gap l i)
  | None => (None, l)
  end.

Definition waiters_remove (l : list (option Z)) (tid : Z) : list (option Z) :=
  match find_slot (Z.eqb tid) l with
  | Some i => waiters_close_gap l i
  | None => l
  end.

Definition push_sender (c : Channel) (tid : Z) : bool * Channel :=
  let '(ok, l) := waiters_push (ch_send_waiters c) tid in (ok, set_send c l).
Definition pop_sender (c : Channel) : option Z * Channel :=
  let '(o, l) := waiters_pop (ch_send_waiters c) in (o, set_send c l).
Definition push_receiver (c : Channel) (tid : Z) : bool * Channel :=
  let '(ok, l) := waiters_push (ch_recv_waiters c) tid in (ok, set_recv c l).
Definition pop_receiver (c : Channel) : option Z * Channel :=
  let '(o, l) := waiters_pop (ch_recv_waiters c) in (o, set_recv c l).
Definition remove_receiver (c : Channel) (tid : Z) : Channel :=
  set_recv c (waiters_remove (ch_recv_waiters c) tid).

(** ** Kernel buffers *)
Abbreviation Bytes := (gmap Z Z).

Definition copy_bytes (m : Bytes) (dst src : Z) (n : nat) : Bytes :=
  foldl (fun m i => <[(dst + Z.of_nat i)%Z := default 0%Z (m !! (src + Z.of_nat i)%Z)]> m) m (seq 0 n).

(** ** State *)
Section ipc.
Context {Vmo Vmar : Type} `{!VmoLike Vmo} (l0_of : Z -> option (Z * Z)).

Abbreviation Obj := (@KernelObject Vmo Vmar Port).
Abbreviation Table := (list (option (@Slot Vmo Vmar Port))).
Abbreviation Sch := (Scheduler Obj PortPacket).
Abbreviation Thr := (Thread Obj PortPacket).

Record Ipc := mkIpc {
  ip_sched : Sch;
  ip_chans : gmap Z Channel;
  ip_tables : gmap Z Table;
  ip_counter : Z;
  ip_bytes : Bytes
}.

Definition with_sched (w : Ipc) (s : Sch) : Ipc :=
  mkIpc s (ip_chans w) (ip_tables w) (ip_counter w) (ip_bytes w).
Definition with_chan (w : Ipc) (a : Z) (c : Channel) : Ipc :=
  mkIpc (ip_sched w) (<[a := c]> (ip_chans w)) (ip_tables w) (ip_counter w) (ip_bytes w).
Definition with_bytes (w : Ipc) (m : Bytes) : Ipc :=
  mkIpc (ip_sched w) (ip_chans w) (ip_tables w) (ip_counter w) m.
Definition with_table (w : Ipc) (a : Z) (counter : Z) (t : Table) : Ipc :=
  mkIpc (ip_sched w) (ip_chans w) (<[a := t]> (ip_tables w)) counter (ip_bytes w).
Definition upd (w : Ipc) (i : nat) (f : Thr -> Thr) : Ipc :=
  with_sched w (upd_thread (ip_sched w) i f).
Definition wake (w : Ipc) (tid : Z) : Ipc := with_sched w (wake_thread (ip_sched w) tid).

(** ** close and drop *)

(** The wake-up loop of [close]: slot by slot, sender then receiver. *)
Fixpoint wake_waiters (w : Ipc) (sends recvs : list (option Z)) : Ipc :=
  match sends, recvs with
  | s :: sends', r :: recvs' =>
      let w1 := match s with Some tid => wake w tid | None => w end in
      let w2 := match r with Some tid => wake w1 tid | None => w1 end in
      wake_waiters w2 sends' recvs'
  | _, _ => w
  end.

Definition no_waiters : list (option Z) := replicate MAX_WAITERS None.

Definition channel_close (w : Ipc) (a : Z) : option Ipc :=
  match ip_chans w !! a with
  | None => None
  | Some c =>
      let w1 := wake_waiters w (ch_send_waiters c) (ch_recv_waiters c) in
      let c1 := set_peer (set_recv (set_send (set_closed c) no_waiters) no_waiters) None in
      let w2 := with_chan w1 a c1 in
      match ch_peer c with
      | None => Some w2
      | Some pa =>
          match ip_chans w2 !! pa with
          | None => None
          | Some p =>
              let p1 := set_closed (set_peer p None) in
              let w3 := wake_waiters w2 (ch_send_waiters p1) (ch_recv_waiters p1) in
              Some (with_chan w3 pa (set_recv (set_send p1 no_waiters) no_waiters))
          end
      end
  end.

(** Dropping an object: a channel is closed and its box freed; the pages of
    other objects are outside this state. *)
Definition drop_object (w : Ipc) (o : Obj) : option Ipc :=
  match o with
  | KChannel a =>
      match channel_close w a with
      | Some w1 => Some (mkIpc (ip_sched w1) (delete a (ip_chans w1)) (ip_tables w1) (ip_counter w1)
                           (ip_bytes w1))
      | None => None
      end
  | _ => Some w
  end.

(** ** Handle transfer *)

(** [table.add(obj, rights)]; the object is dropped when it fails. *)
Definition table_add (w : Ipc) (ta : Z) (o : Obj) (rights : Z) : option (kresult HandleValue * Ipc) :=
  match ip_tables w !! ta with
  | None => None
  | Some t =>
      match ht_add (ip_counter w) t o rights with
      | (Ok hv, c', t') => Some (Ok hv, with_table w ta c' t')
      | (Err e, c', t') =>
          match drop_object (with_table w ta c' t') o with
          | Some w1 => Some (Err e, w1)
          | None => None
          end
      end
  end.

(** [duplicate_handle(h, 0)], and on success [remove_with_rights] of the
    duplicate, else [remove_with_rights] of the handle itself. *)
Definition table_take (w : Ipc) (ta : Z) (h : HandleValue)
  : option (option (Obj * Z) * Ipc) :=
  match ip_tables w !! ta with
  | None => None
  | Some t =>
      let '(target, c1, t1) :=
        match ht_duplicate_handle (ip_counter w) t h 0 with
        | (Ok dup, c1, t1) => (dup, c1, t1)
        | (Err _, c1, t1) => (h, c1, t1)
        end in
      let '(r, t2) := ht_remove_with_rights t1 target in
      Some (match r with Ok or => Some or | Err _ => None end, with_table w ta c1 t2)
  end.

Definition set_handle_out (t : Thr) (i : nat) (o : option Z) : Thr :=
  set_ipc t (t_ipc_buf_ptr t) (t_ipc_buf_len t) (t_ipc_actual_len t)
    (<[i := o]> (t_ipc_transfer_handles t)) (t_ipc_transfer_slots t).

Definition set_actual (t : Thr) (n : Z) : Thr :=
  set_ipc t (t_ipc_buf_ptr t) (t_ipc_buf_len t) n (t_ipc_transfer_handles t) (t_ipc_transfer_slots t).

Definition set_slot (t : Thr) (i : nat) (o : option (Obj * Z)) : Thr :=
  set_ipc t (t_ipc_buf_ptr t) (t_ipc_buf_len t) (t_ipc_actual_len t) (t_ipc_transfer_handles t)
    (<[i := o]> (t_ipc_transfer_slots t)).

(** The writer's loop: each handle goes from table [from] to table [to] and
    its new number to the next place of receiver [ri]. *)
Fixpoint send_handles (w : Ipc) (from to : Z) (ri : nat) (h_idx : nat) (hs : list HandleValue)
  : option Ipc :=
  match hs with
  | [] => Some w
  | h :: hs' =>
      match table_take w from h with
      | None => None
      | Some (None, w1) => send_handles w1 from to ri h_idx hs'
      | Some (Some (o, rights), w1) =>
          match table_add w1 to o rights with
          | None => None
          | Some (Err _, w2) => send_handles w2 from to ri h_idx hs'
          | Some (Ok hv, w2) =>
              send_handles (upd w2 ri (fun t => set_handle_out t h_idx (Some hv))) from to ri
                (S h_idx) hs'
          end
      end
  end.

(** The blocked writer's loop: handles are stashed in its own slots. *)
Fixpoint stash_handles (w : Ipc) (from : Z) (ci : nat) (h_idx : nat) (hs : list HandleValue)
  : option Ipc :=
  match hs with
  | [] => Some w
  | h :: hs' =>
      match table_take w from h with
      | None => None
      | Some (None, w1) => stash_handles w1 from ci h_idx hs'
      | Some (Some or, w1) =>
          stash_handles (upd w1 ci (fun t => set_slot t h_idx (Some or))) from ci (S h_idx) hs'
      end
  end.

(** The reader's loop over the sender's slots. *)
Fixpoint recv_handles (w : Ipc) (to : Z) (si ci : nat) (k h_idx : nat) (n : nat) : option Ipc :=
  match n with
  | 0 => Some w
  | S n' =>
      match thread_at (ip_sched w) si with
      | None => None
      | Some st =>
          match mjoin (t_ipc_transfer_slots st !! k) with
          | None => recv_handles w to si ci (S k) h_idx n'
          | Some (o, rights) =>
              let w1 := upd w si (fun t => set_slot t k None) in
              match table_add w1 to o rights with
              | None => None
              | Some (Err _, w2) => recv_handles w2 to si ci (S k) h_idx n'
              | Some (Ok hv, w2) =>
                  recv_handles (upd w2 ci (fun t => set_handle_out t h_idx (Some hv))) to si ci
                    (S k) (S h_idx) n'
              end
          end
      end
  end.

(** Handles put back when the sender queue is full. *)
Fixpoint restore_handles (w : Ipc) (to : Z) (ci : nat) (k n : nat) : option Ipc :=
  match n with
  | 0 => Some w
  | S n' =>
      match thread_at (ip_sched w) ci with
      | None => None
      | Some t =>
          match mjoin (t_ipc_transfer_slots t !! k) with
          | None => restore_handles w to ci (S k) n'
          | Some (o, rights) =>
              match table_add (upd w ci (fun t => set_slot t k None)) to o rights with
              | None => None
              | Some (_, w1) => restore_handles w1 to ci (S k) n'
              end
          end
      end
  end.

(** [*slot = None] over the thread's own slots: what an earlier, interrupted
    write left there is dropped. *)
Fixpoint drop_slots (w : Ipc) (ci : nat) (k n : nat) : option Ipc :=
  match n with
  | 0 => Some w
  | S n' =>
      match thread_at (ip_sched w) ci with
      | None => None
      | Some t =>
          match mjoin (t_ipc_transfer_slots t !! k) with
          | None => drop_slots w ci (S k) n'
          | Some (o, _) =>
              match drop_object (upd w ci (fun t => set_slot t k None)) o with
              | None => None
              | Some w1 => drop_slots w1 ci (S k) n'
              end
          end
      end
  end.

(** [for i in 0..handles.len()]: the thread's new handle numbers are moved
    into the caller's array. *)
Definition extract_handles (w : Ipc) (ci : nat) (handles : list HandleValue) : list HandleValue * Ipc :=
  match thread_at (ip_sched w) ci with
  | None => (handles, w)
  | Some t =>
      let got := t_ipc_transfer_handles t in
      (imap (fun i h => match mjoin (got !! i) with Some v => v | None => h end) handles,
       upd w ci (fun t =>
         set_ipc t (t_ipc_buf_ptr t) (t_ipc_buf_len t) (t_ipc_actual_len t)
           (imap (fun i o => if i <? length handles then None else o) got) (t_ipc_transfer_slots t)))
  end.

(** ** read, write, read_with_timeout *)
Inductive read_state :=
| ReadDone (r : kresult nat) (handles : list HandleValue)
| ReadBlocked (c : nat) (o : outcome).

Inductive write_state :=
| WriteDone (r : kresult nat)
| WriteBlocked (c : nat) (o : outcome).

Definition handle_table_of (w : Ipc) (i : nat) : Z :=
  match thread_at (ip_sched w) i with Some t => t_handle_table t | None => 0%Z end.

(** A sender [tid] was waiting: its buffer is copied into [dptr, dlen), its
    handles are taken, and it is woken.  [c] is the reader's slot. *)
Definition read_from_sender (w : Ipc) (c si : nat) (tid dptr : Z) (dlen : nat)
    (handles : list HandleValue) : option (read_state * Ipc) :=
  match thread_at (ip_sched w) si with
  | None => None
  | Some st =>
      let copy_len := Nat.min (Z.to_nat (t_ipc_buf_len st)) dlen in
      let w1 := with_bytes w (copy_bytes (ip_bytes w) dptr (t_ipc_buf_ptr st) copy_len) in
      let ta := handle_table_of w1 c in
      match (if Z.eqb ta 0 then Some w1 else recv_handles w1 ta si c 0 0 (length (t_ipc_transfer_slots st))) with
      | None => None
      | Some w2 =>
          let w3 := wake (upd w2 si (fun t => set_actual t (Z.of_nat copy_len))) tid in
          let '(hs, w4) := extract_handles w3 c handles in
          Some (ReadDone (Ok copy_len) hs, w4)
      end
  end.

(** Registering the reader and giving up the processor; [clear] says whether
    the transfer handles are reset first ([read] does it, [read_with_timeout]
    does not). *)
Definition read_block (w : Ipc) (a : Z) (c : nat) (dptr : Z) (dlen : nat)
    (handles : list HandleValue) (clear : bool) : option (read_state * Ipc) :=
  let w1 := upd w c (fun t =>
    set_state (set_ipc t dptr (Z.of_nat dlen) 0
      (if clear then replicate 4 None else t_ipc_transfer_handles t) (t_ipc_transfer_slots t))
      Blocked) in
  match thread_at (ip_sched w1) c, ip_chans w1 !! a with
  | Some t, Some ch =>
      let '(ok, ch') := push_receiver ch (t_id t) in
      let w2 := with_chan w1 a ch' in
      if negb ok then
        Some (ReadDone (Err NoMemory) handles, upd w2 c (fun t => set_state t Running))
      else
        match schedule l0_of (ip_sched w2) with
        | None => None
        | Some (o, s') => Some (ReadBlocked c o, with_sched w2 s')
        end
  | _, _ => None
  end.

Definition read_common (w : Ipc) (a dptr : Z) (dlen : nat) (handles : list HandleValue)
    (clear : bool) : option (read_state * Ipc) :=
  match ip_chans w !! a with
  | None => None
  | Some ch =>
      if bool_decide (ch_state ch = Closed) then Some (ReadDone (Err PeerClosed) handles, w)
      else
        match get_current_thread_ptr (ip_sched w) with
        | None => Some (ReadDone (Err ThreadNotFound) handles, w)
        | Some c =>
            match ch_peer ch with
            | None => Some (ReadDone (Err PeerClosed) handles, w)
            | Some pa =>
                match ip_chans w !! pa with
                | None => None
                | Some p =>
                    let '(o, p') := pop_sender p in
                    let w1 := with_chan w pa p' in
                    match (match o with
                           | Some tid =>
                               (fun si => (si, tid)) <$> get_thread_ptr (ip_sched w1) tid
                           | None => None
                           end) with
                    | Some (si, tid) => read_from_sender w1 c si tid dptr dlen handles
                    | None => read_block w1 a c dptr dlen handles clear
                    end
                end
            end
        end
  end.

Definition read_enter (w : Ipc) (a dptr : Z) (dlen : nat) (handles : list HandleValue) :=
  read_common w a dptr dlen handles true.

Definition read_leave (w : Ipc) (c : nat) (handles : list HandleValue)
  : kresult nat * list HandleValue * Ipc :=
  let n := match thread_at (ip_sched w) c with Some t => Z.to_nat (t_ipc_actual_len t) | None => 0 end in
  let '(hs, w') := extract_handles w c handles in (Ok n, hs, w').

Definition read_timeout_enter (w : Ipc) (a dptr : Z) (dlen : nat) (handles : list HandleValue) :=
  read_common w a dptr dlen handles false.

Definition read_timeout_leave (w : Ipc) (a : Z) (c : nat) (handles : list HandleValue)
    (deadline : option Z) (ticks_now : Z) : option (kresult nat * list HandleValue * Ipc) :=
  let expired := match deadline with Some d => (d <=? ticks_now)%Z | None => false end in
  if expired then
    match ip_chans w !! a, thread_at (ip_sched w) c with
    | Some ch, Some t =>
        let w1 := with_chan w a (remove_receiver ch (t_id t)) in
        Some (Err TimedOut, handles,
              upd w1 c (fun t => if bool_decide (t_state t = Blocked) then set_state t Ready else t))
    | _, _ => None
    end
  else Some (read_leave w c handles).

Definition write_to_receiver (w : Ipc) (c ri : nat) (tid sptr : Z) (slen : nat)
    (handles : list HandleValue) : option (write_state * Ipc) :=
  match thread_at (ip_sched w) ri with
  | None => None
  | Some rt =>
      let copy_len := Nat.min slen (Z.to_nat (t_ipc_buf_len rt)) in
      let w1 := with_bytes w (copy_bytes (ip_bytes w) (t_ipc_buf_ptr rt) sptr copy_len) in
      let from := handle_table_of w1 c in
      let to := t_handle_table rt in
      match (if (from =? 0)%Z || (to =? 0)%Z then Some w1
             else send_handles w1 from to ri 0 (take 2 handles)) with
      | None => None
      | Some w2 =>
          Some (WriteDone (Ok copy_len),
                wake (upd w2 ri (fun t => set_actual t (Z.of_nat copy_len))) tid)
      end
  end.

Definition write_block (w : Ipc) (a : Z) (c : nat) (sptr : Z) (slen : nat)
    (handles : list HandleValue) : option (write_state * Ipc) :=
  let w0 := upd w c (fun t =>
    set_state (set_ipc t sptr (Z.of_nat slen) 0 (t_ipc_transfer_handles t) (t_ipc_transfer_slots t))
      Blocked) in
  let from := handle_table_of w0 c in
  match (match drop_slots w0 c 0 2 with
         | None => None
         | Some w1 => if (from =? 0)%Z then Some w1 else stash_handles w1 from c 0 (take 2 handles)
         end) with
  | None => None
  | Some w2 =>
      match thread_at (ip_sched w2) c, ip_chans w2 !! a with
      | Some t, Some ch =>
          let '(ok, ch') := push_sender ch (t_id t) in
          let w3 := with_chan w2 a ch' in
          if negb ok then
            match (if (from =? 0)%Z then Some w3 else restore_handles w3 from c 0 2) with
            | None => None
            | Some w4 =>
                Some (WriteDone (Err NoMemory), upd w4 c (fun t => set_state t Running))
            end
          else
            match schedule l0_of (ip_sched w3) with
            | None => None
            | Some (o, s') => Some (WriteBlocked c o, with_sched w3 s')
            end
      | _, _ => None
      end
  end.

Definition write_enter (w : Ipc) (a sptr : Z) (slen : nat) (handles : list HandleValue)
  : option (write_state * Ipc) :=
  match ip_chans w !! a with
  | None => None
  | Some ch =>
      if bool_decide (ch_state ch = Closed) then Some (WriteDone (Err PeerClosed), w)
      else
        match get_current_thread_ptr (ip_sched w) with
        | None => Some (WriteDone (Err ThreadNotFound), w)
        | Some c =>
            match ch_peer ch with
            | None => Some (WriteDone (Err PeerClosed), w)
            | Some pa =>
                match ip_chans w !! pa with
                | None => None
                | Some p =>
                    let '(o, p') := pop_receiver p in
                    let w1 := with_chan w pa p' in
                    match (match o with
                           | Some tid =>
                               (fun ri => (ri, tid)) <$> get_thread_ptr (ip_sched w1) tid
                           | None => None
                           end) with
                    | Some (ri, tid) => write_to_receiver w1 c ri tid sptr slen handles
                    | None => write_block w1 a c sptr slen handles
                    end
                end
            end
        end
  end.

Definition write_leave (w : Ipc) (c : nat) : kresult nat :=
  Ok (match thread_at (ip_sched w) c with Some t => Z.to_nat (t_ipc_actual_len t) | None => 0 end).

(** ** Lemmas *)
Lemma find_index_app_l {A} (p : option A -> bool) l1 l2 i :
  find_index p l1 = Some i -> find_index p (l1 ++ l2) = Some i.
Proof.
  revert i. induction l1 as [|x l1 IH]; intros i; [done|]. cbn.
  destruct (p x); [done|]. intros (j & Hj & ->)%fmap_Some. by rewrite (IH j Hj).
Qed.

(** A waiter array that holds the queue [q]. *)
Definition waiters_of (q : list Z) : list (option Z) :=
  map Some q ++ replicate (MAX_WAITERS - length q) None.

Lemma waiters_push_of q tid :
  length q <= MAX_WAITERS ->
  waiters_push (waiters_of q) tid =
  if length q =? MAX_WAITERS then (false, waiters_of q) else (true, waiters_of (q ++ [tid])).
Proof.
  intros Hq. unfold waiters_push, waiters_of.
  assert (Hff : forall n, first_free (map Some q ++ replicate n None) =
                match n with 0 => None | S _ => Some (length q) end).
  { intros n. unfold first_free. clear Hq. induction q as [|x q IH]; cbn; [by destruct n|].
    rewrite IH. by destruct n. }
  rewrite Hff. destruct (length q =? MAX_WAITERS) eqn:E; reflect.
  - by rewrite E, Nat.sub_diag.
  - replace (MAX_WAITERS - length q) with (S (MAX_WAITERS - (length q + 1))) by lia.
    cbn [replicate]. rewrite insert_app_r_alt by (rewrite length_map; lia).
    rewrite length_map, Nat.sub_diag, map_app, length_app. cbn. by rewrite <- app_assoc.
Qed.

Lemma waiters_pop_of q :
  length q <= MAX_WAITERS ->
  waiters_pop (waiters_of q) =
  match q with [] => (None, waiters_of []) | tid :: q' => (Some tid, waiters_of q') end.
Proof.
  intros Hq. destruct q as [|tid q]; [done|].
  assert (Hl : waiters_of (tid :: q) = Some tid :: map Some q ++ replicate (MAX_WAITERS - S (length q)) None)
    by done.
  rewrite Hl. unfold waiters_pop. cbn [find_index is_live is_free negb lookup list_lookup mjoin option_join].
  unfold waiters_close_gap. cbn [take drop app]. rewrite drop_0, <- app_assoc, <- replicate_S_end.
  unfold waiters_of. do 4 f_equal. simpl in Hq. lia.
Qed.

Lemma thread_at_requeue (s : Sch) i j : thread_at (requeue_current s i) j = thread_at s j.
Proof.
  unfold requeue_current, push_at. destruct (thread_at s i); [|done].
  destruct (queues s !! _); [|done]. by destruct (queue_push _ _).
Qed.

Lemma thread_at_wake (s : Sch) tid j :
  thread_at (wake_thread s tid) j =
  if decide (find_slot (blocked_as tid) (threads s) = Some j)
  then (fun t => set_state t Ready) <$> thread_at s j else thread_at s j.
Proof.
  unfold wake_thread. destruct (find_slot _ _) as [i|].
  - rewrite thread_at_requeue, thread_at_upd.
    destruct (decide (i = j)) as [->|Hij]; case_decide; congruence.
  - by case_decide.
Qed.

Lemma find_slot_weaken {A} (p q : A -> bool) l i x :
  find_slot p l = Some i -> l !! i = Some (Some x) -> q x = true ->
  (forall y, q y = true -> p y = true) -> find_slot q l = Some i.
Proof.
  unfold find_slot. intros (_ & Hlt)%find_index_Some Hx Hq Himp. apply find_index_Some.
  split; [by exists (Some x)|]. intros j [y|] Hj Hy; [|done].
  specialize (Hlt j (Some y) Hj Hy). cbn in Hlt. apply not_true_is_false. intros H.
  apply Himp in H. congruence.
Qed.

(** The blocked thread [get_thread_ptr] finds is the one a wake wakes. *)
Lemma blocked_found (s : Sch) tid i t :
  get_thread_ptr s tid = Some i -> thread_at s i = Some t -> t_state t = Blocked ->
  find_slot (blocked_as tid) (threads s) = Some i.
Proof.
  intros Hg Ht Hst. unfold get_thread_ptr in Hg.
  destruct (find_slot_Some _ _ _ Hg) as (t' & Ht' & Hid & _).
  assert (t' = t) as -> by (unfold thread_at in Ht; rewrite Ht' in Ht; by injection Ht).
  eapply find_slot_weaken; [exact Hg|exact Ht'| |].
  - unfold blocked_as. rewrite Hid, Hst. done.
  - intros y Hy. unfold blocked_as in Hy. by apply andb_prop in Hy as [? _].
Qed.

Lemma find_index_insert {A} (p : option A -> bool) l i x y :
  l !! i = Some y -> p x = p y -> find_index p (<[i := x]> l) = find_index p l.
Proof.
  intros Hi Hp. revert i Hi. induction l as [|o l IH]; intros [|i] Hi; try done; cbn.
  - injection Hi as ->. by rewrite Hp.
  - destruct (p o); [done|]. f_equal. by apply IH.
Qed.

Lemma get_thread_ptr_upd (s : Sch) i (f : Thr -> Thr) tid :
  (forall t, t_id (f t) = t_id t) -> get_thread_ptr (upd_thread s i f) tid = get_thread_ptr s tid.
Proof.
  intros Hf. unfold get_thread_ptr, upd_thread. destruct (thread_at s i) as [t|] eqn:Ht; [|done].
  unfold thread_at in Ht. cbn [set_threads threads].
  assert (Hi : threads s !! i = Some (Some t)) by (destruct (threads s !! i) as [[]|]; naive_solver).
  unfold find_slot. eapply find_index_insert; [exact Hi|]. cbn. by rewrite Hf.
Qed.

(** A run of byte copies from place [k] on. *)
Lemma copy_from_out (m : Bytes) dst src n k x :
  (forall i, k <= i -> i < k + n -> x <> (dst + Z.of_nat i)%Z) ->
  foldl (fun m i => <[(dst + Z.of_nat i)%Z := default 0%Z (m !! (src + Z.of_nat i)%Z)]> m) m (seq k n)
    !! x = m !! x.
Proof.
  revert k m. induction n as [|n IH]; intros k m Hx; [done|]. cbn [seq foldl].
  rewrite IH by (intros i ??; apply Hx; lia). apply lookup_insert_ne.
  intros Heq. apply (Hx k); [lia|lia|done].
Qed.

Lemma copy_bytes_out (m : Bytes) dst src n x :
  (x < dst \/ dst + Z.of_nat n <= x)%Z -> copy_bytes m dst src n !! x = m !! x.
Proof. intros Hx. apply copy_from_out. intros i ??. lia. Qed.

Definition disjoint_buffers (a b : Z) (n : nat) : Prop :=
  (a + Z.of_nat n <= b \/ b + Z.of_nat n <= a)%Z.

Lemma copy_bytes_in (m : Bytes) dst src n i :
  disjoint_buffers dst src n -> i < n ->
  copy_bytes m dst src n !! (dst + Z.of_nat i)%Z = Some (default 0%Z (m !! (src + Z.of_nat i)%Z)).
Proof.
  intros Hd Hi. unfold copy_bytes, disjoint_buffers in *.
  enough (H : forall j k m', k + j = n -> k <= i ->
    m' !! (src + Z.of_nat i)%Z = m !! (src + Z.of_nat i)%Z ->
    foldl (fun m i => <[(dst + Z.of_nat i)%Z := default 0%Z (m !! (src + Z.of_nat i)%Z)]> m) m' (seq k j)
      !! (dst + Z.of_nat i)%Z = Some (default 0%Z (m !! (src + Z.of_nat i)%Z)))
    by (apply (H n 0); [done|lia|done]).
  induction j as [|j IH]; intros k m' Hk Hki Hm; [lia|]. cbn [seq foldl].
  destruct (decide (i = k)) as [->|Hne].
  - rewrite copy_from_out by (intros; lia). by rewrite lookup_insert_eq, Hm.
  - apply IH; [lia|lia|]. rewrite lookup_insert_ne by lia. done.
Qed.

Lemma thread_at_upd_eq (s : Sch) i (f : Thr -> Thr) t :
  thread_at s i = Some t -> thread_at (upd_thread s i f) i = Some (f t).
Proof. intros Ht. rewrite thread_at_upd, Ht. by destruct (decide (i = i)). Qed.

(** A write to a channel whose peer a thread is blocked on reading goes
    straight to that thread. *)
Lemma write_to_waiting (w : Ipc) a pa ch p rid rest c wt ri rt sptr slen hs :
  ip_chans w !! a = Some ch -> ch_state ch = Open -> ch_peer ch = Some pa ->
  ip_chans w !! pa = Some p -> ch_recv_waiters p = waiters_of (rid :: rest) ->
  length (rid :: rest) <= MAX_WAITERS ->
  current_idx (ip_sched w) = Some c -> thread_at (ip_sched w) c = Some wt ->
  get_thread_ptr (ip_sched w) rid = Some ri -> thread_at (ip_sched w) ri = Some rt ->
  let n := Nat.min slen (Z.to_nat (t_ipc_buf_len rt)) in
  let w1 := with_bytes (with_chan w pa (set_recv p (waiters_of rest)))
              (copy_bytes (ip_bytes w) (t_ipc_buf_ptr rt) sptr n) in
  write_enter w a sptr slen hs =
  match (if (t_handle_table wt =? 0)%Z || (t_handle_table rt =? 0)%Z then Some w1
         else send_handles w1 (t_handle_table wt) (t_handle_table rt) ri 0 (take 2 hs)) with
  | None => None
  | Some w2 => Some (WriteDone (Ok n), wake (upd w2 ri (fun t => set_actual t (Z.of_nat n))) rid)
  end.
Proof.
  intros Ha Hopen Hpeer Hpa Hq Hlen Hc Hct Hget Hrt n w1.
  unfold write_enter. rewrite Ha, Hopen, bool_decide_false by done. unfold get_current_thread_ptr. rewrite Hc.
  rewrite decide_True by (rewrite Hct; by eexists). rewrite Hpeer, Hpa.
  unfold pop_receiver. rewrite Hq, waiters_pop_of by done.
  cbn [ip_sched with_chan]. rewrite Hget. cbn [fmap option_fmap option_map].
  unfold write_to_receiver. cbn [ip_sched with_chan]. rewrite Hrt. fold n. cbn zeta.
  unfold handle_table_of. cbn [ip_sched with_bytes with_chan]. by rewrite Hct.
Qed.

(** The reader that was written to: ready, with the length of the message. *)
Lemma woken_reader (s : Sch) ls rid ri rt n :
  sched_ok s ls -> get_thread_ptr s rid = Some ri -> thread_at s ri = Some rt -> t_state rt = Blocked ->
  let s' := wake_thread (upd_thread s ri (fun t => set_actual t n)) rid in
  sched_ok s' (enqueue ls (priority_to_index (t_priority rt)) ri) /\
  thread_at s' ri = Some (set_state (set_actual rt n) Ready) /\
  forall j, j <> ri -> thread_at s' j = thread_at s j.
Proof.
  intros Hok Hget Hrt Hst. cbn zeta. set (s2 := upd_thread s ri (fun t => set_actual t n)).
  assert (Hok2 : sched_ok s2 ls) by (by apply upd_same_ok).
  assert (Hrt2 : thread_at s2 ri = Some (set_actual rt n))
    by exact (thread_at_upd_eq _ ri (fun t => set_actual t n) rt Hrt).
  assert (Hget2 : get_thread_ptr s2 rid = Some ri) by (by rewrite <- Hget; apply get_thread_ptr_upd).
  assert (Hfind : find_slot (blocked_as rid) (threads s2) = Some ri) by (by eapply blocked_found).
  pose proof (wake_ok s2 ls rid Hok2) as Hwake. rewrite Hfind in Hwake.
  destruct Hwake as (t & Ht & _ & Hok3). rewrite Hrt2 in Ht. injection Ht as <-. split_and!.
  - exact Hok3.
  - rewrite thread_at_wake, decide_True by done. by rewrite Hrt2.
  - intros j Hj. rewrite thread_at_wake, decide_False by congruence. unfold s2. rewrite thread_at_upd.
    by destruct (decide (ri = j)).
Qed.

(** ** Properties *)

(** A message is delivered: a write to the peer of a channel on which a
    thread [rid] is blocked reading returns at once with the smaller of the
    two lengths [n]; the first [n] bytes of the reader's buffer are the
    writer's and no other byte changes; the reader is ready, at the end of
    its priority's queue, and when it runs its read returns [n]; the
    scheduler's invariant is kept, and the other waiting readers stay in
    order. *)
Theorem rendezvous_delivers (w : Ipc) ls a pa ch p rid rest c wt ri rt sptr slen :
  sched_ok (ip_sched w) ls ->
  ip_chans w !! a = Some ch -> ch_state ch = Open -> ch_peer ch = Some pa ->
  ip_chans w !! pa = Some p -> ch_recv_waiters p = waiters_of (rid :: rest) ->
  length (rid :: rest) <= MAX_WAITERS ->
  current_idx (ip_sched w) = Some c -> thread_at (ip_sched w) c = Some wt ->
  get_thread_ptr (ip_sched w) rid = Some ri -> thread_at (ip_sched w) ri = Some rt ->
  t_state rt = Blocked ->
  let n := Nat.min slen (Z.to_nat (t_ipc_buf_len rt)) in
  disjoint_buffers (t_ipc_buf_ptr rt) sptr n ->
  exists w', write_enter w a sptr slen [] = Some (WriteDone (Ok n), w') /\
    (forall i, i < n -> ip_bytes w' !! (t_ipc_buf_ptr rt + Z.of_nat i)%Z =
                        Some (default 0%Z (ip_bytes w !! (sptr + Z.of_nat i)%Z))) /\
    (forall x, (x < t_ipc_buf_ptr rt \/ t_ipc_buf_ptr rt + Z.of_nat n <= x)%Z ->
       ip_bytes w' !! x = ip_bytes w !! x) /\
    sched_ok (ip_sched w') (enqueue ls (priority_to_index (t_priority rt)) ri) /\
    (exists rt', thread_at (ip_sched w') ri = Some rt' /\ t_state rt' = Ready) /\
    (exists hs w'', read_leave w' ri [] = (Ok n, hs, w'')) /\
    (exists p', ip_chans w' !! pa = Some p' /\ ch_recv_waiters p' = waiters_of rest).
Proof.
  intros Hok Ha Hopen Hpeer Hpa Hq Hlen Hc Hct Hget Hrt Hst n Hdis.
  rewrite (write_to_waiting w a pa ch p rid rest c wt ri rt) by done. fold n. cbn zeta. set (w1 := with_bytes _ _).
  assert (Hs1 : forall from to, (if (from =? 0)%Z || (to =? 0)%Z then Some w1
                   else send_handles w1 from to ri 0 (take 2 [])) = Some w1).
  { intros from to. by destruct (_ || _). }
  rewrite Hs1. eexists. split; [done|].
  destruct (woken_reader (ip_sched w) ls rid ri rt (Z.of_nat n) Hok Hget Hrt Hst) as (Hok3 & Hat & _).
  split_and!; try done.
  - intros i Hi. by apply copy_bytes_in.
  - intros x Hx. by apply copy_bytes_out.
  - by eexists.
  - unfold read_leave, extract_handles.
    repeat change (ip_sched _) with (wake_thread (upd_thread (ip_sched w) ri (fun t => set_actual t (Z.of_nat n))) rid).
    rewrite !Hat. cbn [t_ipc_actual_len set_state set_actual set_ipc]. rewrite Nat2Z.id. by eexists _, _.
  - eexists. split; [by apply lookup_insert_eq|done].
Qed.

Lemma wake_waiters_none (w : Ipc) : wake_waiters w no_waiters no_waiters = w.
Proof. done. Qed.

(** A reader whose peer goes away is not told so: closing the other
    end of a channel wakes the blocked reader, but its read returns [Ok 0],
    an empty message, where every later read returns [PeerClosed]. *)
Theorem close_wakes_reader_with_zero (w : Ipc) ls a pa ch p rid ri rt dptr dlen hs :
  sched_ok (ip_sched w) ls -> a <> pa ->
  ip_chans w !! pa = Some p -> ch_peer p = Some a ->
  ch_send_waiters p = no_waiters -> ch_recv_waiters p = no_waiters ->
  ip_chans w !! a = Some ch -> ch_send_waiters ch = no_waiters ->
  ch_recv_waiters ch = waiters_of [rid] ->
  get_thread_ptr (ip_sched w) rid = Some ri -> thread_at (ip_sched w) ri = Some rt ->
  t_state rt = Blocked -> t_ipc_actual_len rt = 0%Z ->
  exists w', channel_close w pa = Some w' /\
    sched_ok (ip_sched w') (enqueue ls (priority_to_index (t_priority rt)) ri) /\
    (exists rt', thread_at (ip_sched w') ri = Some rt' /\ t_state rt' = Ready) /\
    (exists w'', read_leave w' ri [] = (Ok 0, [], w'')) /\
    read_enter w' a dptr dlen hs = Some (ReadDone (Err PeerClosed) hs, w').
Proof.
  intros Hok Hne Hp Hpp Hps Hpr Ha Has Har Hget Hrt Hst Hlen. unfold channel_close.
  rewrite Hp, Hps, Hpr, wake_waiters_none, Hpp. cbn [ip_chans with_chan].
  rewrite lookup_insert_ne by done. rewrite Ha.
  cbn [ch_send_waiters ch_recv_waiters set_closed set_peer]. rewrite Has, Har.
  eexists. split; [done|].
  assert (Hfind : find_slot (blocked_as rid) (threads (ip_sched w)) = Some ri) by (by eapply blocked_found).
  pose proof (wake_ok (ip_sched w) ls rid Hok) as Hwake. rewrite Hfind in Hwake.
  destruct Hwake as (t & Ht & _ & Hok3). rewrite Hrt in Ht. injection Ht as <-.
  assert (Hat : thread_at (wake_thread (ip_sched w) rid) ri = Some (set_state rt Ready)).
  { rewrite thread_at_wake, decide_True by done. by rewrite Hrt. }
  split_and!.
  - exact Hok3.
  - exists (set_state rt Ready). split; [exact Hat|done].
  - unfold read_leave, extract_handles.
    repeat change (ip_sched _) with (wake_thread (ip_sched w) rid). rewrite !Hat.
    cbn [t_ipc_actual_len set_state]. rewrite Hlen. by eexists.
  - unfold read_enter, read_common. cbn [ip_chans with_chan].
    rewrite lookup_insert_eq. by cbn.
Qed.

(** Only memory objects can be duplicated. *)
Lemma no_duplicate c (t : Table) slot :
  ht_wf c t -> slot ∈ live t -> (forall v, s_object slot <> KVmo v) ->
  ht_duplicate_handle c t (s_value slot) 0 = (Err NotAllowed, c, t).
Proof.
  intros Hwf Hs Hnv. destruct (find_slot_unique _ t slot Hwf Hs) as (i & Hfi & Hi & _).
  unfold ht_duplicate_handle. rewrite Hfi, Hi. cbn [check_rights negb Z.eqb].
  destruct (s_object slot) eqn:Ho; try done. by destruct (Hnv v).
Qed.

(** One handle that cannot be duplicated, sent to a table with room. *)
Lemma send_one (w : Ipc) from to ri tf tt slot :
  from <> to -> ip_tables w !! from = Some tf -> ip_tables w !! to = Some tt ->
  ht_wf (ip_counter w) tf -> ht_wf (ip_counter w) tt -> (0 <= ip_counter w < 2 ^ 32 - 1)%Z ->
  slot ∈ live tf -> (forall v, s_object slot <> KVmo v) -> length (live tt) < MAX_HANDLES ->
  exists tf' tt', send_handles w from to ri 0 [s_value slot] =
      Some (upd (with_table (with_table w from (ip_counter w) tf') to (ip_counter w + 1)%Z tt') ri
              (fun t => set_handle_out t 0 (Some (ip_counter w)))) /\
    live tf ≡ₚ slot :: live tf' /\
    live tt' ≡ₚ mkSlot (ip_counter w) (s_rights slot) (s_object slot) :: live tt.
Proof.
  intros Hne Hf Ht Hwf Hwt Hc Hs Hnv Hroom. cbn [send_handles]. unfold table_take. rewrite Hf.
  rewrite (no_duplicate _ tf slot Hwf Hs Hnv).
  destruct (ht_remove_ok _ tf slot Hwf Hs) as (tf' & Hrem & _ & Hpf). rewrite Hrem.
  unfold table_add. cbn [with_table ip_tables ip_counter]. rewrite lookup_insert_ne by done. rewrite Ht.
  destruct (ht_add_ok (ip_counter w) tt (s_object slot) (s_rights slot) Hwt Hc Hroom)
    as (tt' & Hadd & _ & Hpt). rewrite Hadd. by exists tf', tt'.
Qed.

(** Handles move with a message: when a writer passes the handle of an
    object that cannot be duplicated, the slot leaves its table; if the
    reader's table has room, the reader's table gets the same object with
    the same rights under a fresh number, which is put in the reader's
    first place; if it is full, the object is in neither table any more,
    and the writer is not told. *)
Theorem message_moves_handle (w : Ipc) from to ri rt tf tt slot :
  from <> to -> ip_tables w !! from = Some tf -> ip_tables w !! to = Some tt ->
  ht_wf (ip_counter w) tf -> ht_wf (ip_counter w) tt -> (0 <= ip_counter w < 2 ^ 32 - 1)%Z ->
  slot ∈ live tf -> (forall v, s_object slot <> KVmo v) ->
  (length (live tt) < MAX_HANDLES \/ forall ca, s_object slot <> KChannel ca) ->
  thread_at (ip_sched w) ri = Some rt -> length (t_ipc_transfer_handles rt) = 4 ->
  exists w' tf' tt' rt', send_handles w from to ri 0 [s_value slot] = Some w' /\
    ip_tables w' !! from = Some tf' /\ ip_tables w' !! to = Some tt' /\
    thread_at (ip_sched w') ri = Some rt' /\
    live tf ≡ₚ slot :: live tf' /\
    (if bool_decide (length (live tt) < MAX_HANDLES)
     then live tt' ≡ₚ mkSlot (ip_counter w) (s_rights slot) (s_object slot) :: live tt /\
          t_ipc_transfer_handles rt' !! 0 = Some (Some (ip_counter w))
     else tt' = tt /\ rt' = rt).
Proof.
  intros Hne Hf Ht Hwf Hwt Hc Hs Hnv Hnc Hrt Hl4.
  destruct (bool_decide (length (live tt) < MAX_HANDLES)) eqn:Hroom; [apply bool_decide_eq_true in Hroom|apply bool_decide_eq_false in Hroom].
  - destruct (send_one w from to ri tf tt slot) as (tf' & tt' & Hsend & Hpf & Hpt); try done.
    eexists _, tf', tt', _. split; [exact Hsend|]. cbn [upd with_sched with_table ip_tables ip_sched].
    split; [by rewrite lookup_insert_ne, lookup_insert_eq by done|].
    split; [apply lookup_insert_eq|]. split.
    { exact (thread_at_upd_eq _ ri (fun t => set_handle_out t 0 (Some (ip_counter w))) rt Hrt). }
    split; [done|]. split; [done|]. cbn. apply list_lookup_insert_eq. lia.
  - cbn [send_handles]. unfold table_take. rewrite Hf, (no_duplicate _ tf slot Hwf Hs Hnv).
    destruct (ht_remove_ok _ tf slot Hwf Hs) as (tf' & Hrem & _ & Hpf). rewrite Hrem.
    unfold table_add. cbn [with_table ip_tables ip_counter]. rewrite lookup_insert_ne by done. rewrite Ht.
    assert (Hlen : length tt = MAX_HANDLES) by apply Hwt.
    rewrite ht_add_full by (done || (pose proof (live_length_le tt); lia)).
    assert (Hdrop : forall w0 : Ipc, drop_object w0 (s_object slot) = Some w0).
    { intros w0. destruct Hnc as [?|Hnc]; [lia|]. destruct (s_object slot) eqn:Ho; try done. by destruct (Hnc addr). }
    rewrite Hdrop. eexists _, tf', tt, rt. split; [done|].
    cbn [with_table ip_tables ip_sched].
    split; [by rewrite lookup_insert_ne, lookup_insert_eq by done|].
    split; [apply lookup_insert_eq|]. done.
Qed.
End ipc.

(** ** Witnesses *)
Section witnesses.

#[local] Instance vmo_by_id : VmoLike Z :=
  {| vmo_ident := id; vmo_clone := id; vmo_clone_ident v := eq_refl |}.

Abbreviation WObj := (@KernelObject Z Z Port).

(** Thread [id] with an IPC buffer of 16 bytes and the handle table at [tbl]. *)
Definition wit_cthread (id : Z) (st : ThreadState) (buf tbl : Z) : Thread WObj PortPacket :=
  mkThread id "t"%string st Normal 5 5 7 0 0 0 0 context_default buf 16 0 (replicate 4 None) tbl
    (replicate 2 None) None.

(** Thread 1 runs, thread 2 is blocked in a read of its end, at address 200,
    of the channel whose other end is at address 100. *)
Definition wit_ipc : Ipc :=
  mkIpc (mkSched ([Some (wit_cthread 1 Running 4096 11); Some (wit_cthread 2 Blocked 8192 22)] ++
                  replicate 14 None)
           (map queue_of [[]; []; []; []; []]) (Some 0) true None)
    {[ 100%Z := mkChannel 1 Open 1 1 (Some 200%Z) no_waiters no_waiters;
       200%Z := mkChannel 2 Open 1 1 (Some 100%Z) no_waiters (waiters_of [2%Z]) ]}
    {[ 11%Z := Some (mkSlot 1000%Z 3%Z (KThread 5%Z)) :: replicate 11 None; 22%Z := ht_new ]}
    1001%Z {[ 4096%Z := 7%Z; 4097%Z := 8%Z ]}.

Lemma wit_ipc_ok : sched_ok (ip_sched wit_ipc) [[]; []; []; []; []].
Proof.
  constructor; [split; [constructor|]| | |]; try done.
  - constructor.
  - intros pr l i Hl Hi. destruct pr as [|[|[|[|[|pr]]]]]; try done;
      injection Hl as <-; by apply not_elem_of_nil in Hi.
  - intros c [= <-]. split; [by apply not_elem_of_nil|by eexists].
  - intros i t Ht. unfold thread_at in Ht. cbn in Ht.
    do 16 (destruct i as [|i]; [cbn in Ht; by simplify_eq|]). by cbn in Ht.
  - intros c t [= <-] Ht. by injection Ht as <-.
Qed.

(** Two bytes written; the reader gets them. *)
Lemma rendezvous_delivers_witness :
  exists w', write_enter wit_l0 wit_ipc 100 4096 2 [] = Some (WriteDone (Ok 2), w') /\
    ip_bytes w' !! 8192%Z = Some 7%Z /\ ip_bytes w' !! 8193%Z = Some 8%Z /\
    exists hs w'', read_leave w' 1 [] = (Ok 2, hs, w'').
Proof.
  destruct (rendezvous_delivers wit_l0 wit_ipc [[]; []; []; []; []] 100 200
    (mkChannel 1 Open 1 1 (Some 200%Z) no_waiters no_waiters)
    (mkChannel 2 Open 1 1 (Some 100%Z) no_waiters (waiters_of [2%Z])) 2 [] 0
    (wit_cthread 1 Running 4096 11) 1 (wit_cthread 2 Blocked 8192 22) 4096 2
    wit_ipc_ok eq_refl eq_refl eq_refl eq_refl eq_refl ltac:(cbn; unfold MAX_WAITERS; lia)
    eq_refl eq_refl eq_refl eq_refl eq_refl ltac:(right; vm_compute; discriminate))
    as (w' & Hw & Hin & _ & _ & _ & Hr & _).
  exists w'. split; [exact Hw|]. split; [exact (Hin 0 ltac:(apply Nat.ltb_lt; reflexivity))|].
  split; [exact (Hin 1 ltac:(apply Nat.ltb_lt; reflexivity))|exact Hr].
Defined.

Lemma close_wakes_reader_with_zero_witness :
  exists w', channel_close wit_ipc 100 = Some w' /\
    (exists w'', read_leave w' 1 [] = (Ok 0, [], w'')) /\
    read_enter wit_l0 w' 200 8192 16 [] = Some (ReadDone (Err PeerClosed) [], w').
Proof.
  destruct (close_wakes_reader_with_zero wit_l0 wit_ipc [[]; []; []; []; []] 200 100
    (mkChannel 2 Open 1 1 (Some 100%Z) no_waiters (waiters_of [2%Z]))
    (mkChannel 1 Open 1 1 (Some 200%Z) no_waiters no_waiters) 2 1
    (wit_cthread 2 Blocked 8192 22) 8192 16 [] wit_ipc_ok ltac:(lia)
    eq_refl eq_refl eq_refl eq_refl eq_refl eq_refl eq_refl eq_refl eq_refl eq_refl eq_refl)
    as (w' & Hc & _ & _ & Hl & Hr).
  exists w'. exact (conj Hc (conj Hl Hr)).
Defined.

(** The handle of a thread goes over. *)
Lemma message_moves_handle_witness :
  exists w' tf' tt', send_handles wit_ipc 11 22 1 0 [1000%Z] = Some w' /\
    ip_tables w' !! 11%Z = Some tf' /\ ip_tables w' !! 22%Z = Some tt' /\
    [mkSlot 1000%Z 3%Z (KThread 5%Z)] ≡ₚ mkSlot 1000%Z 3%Z (KThread 5%Z) :: live tf' /\
    live tt' ≡ₚ [mkSlot 1001%Z 3%Z (KThread 5%Z)].
Proof.
  destruct (message_moves_handle wit_ipc 11 22 1 (wit_cthread 2 Blocked 8192 22)
    (Some (mkSlot 1000%Z 3%Z (KThread 5%Z)) :: replicate 11 None) ht_new (mkSlot 1000%Z 3%Z (KThread 5%Z)))
    as (w' & tf' & tt' & rt' & Hs & Hf & Ht & _ & Hpf & Hpt).
  - lia.
  - exact eq_refl.
  - exact eq_refl.
  - split_and!; [exact eq_refl|apply NoDup_singleton|constructor; [cbn; lia|constructor]].
  - apply ht_new_wf.
  - cbn. lia.
  - by left.
  - discriminate.
  - right. discriminate.
  - exact eq_refl.
  - exact eq_refl.
  - exists w', tf', tt'. exact (conj Hs (conj Hf (conj Ht (conj Hpf (proj1 Hpt))))).
Defined.
End witnesses.
