(* ===== verification/Bytes.v ===== *)
(** * Bytes: little-endian fields of byte buffers

    [to_le_bytes], [from_le_bytes] and [copy_from_slice] into a place of a
    buffer.  A buffer is a [list Z] of values below 256. *)
From Stdlib Require Import ZArith Lia String Ascii.
From stdpp Require Import base tactics option list list_numbers.
From S2P Require Import Prelude.

Definition is_byte (b : Z) : Prop := (0 <= b < 256)%Z.

#[export] Instance is_byte_dec b : Decision (is_byte b).
Proof. unfold is_byte. apply _. Defined.

Definition byte_of (v : Z) (i : nat) : Z := Z.land (Z.shiftr v (8 * Z.of_nat i)) 255.

(** [v.to_le_bytes()] at a width of [n] bytes. *)
Definition le (n : nat) (v : Z) : list Z := map (byte_of v) (seq 0 n).

(** [from_le_bytes]. *)
Fixpoint unle (bs : list Z) : Z :=
  match bs with
  | [] => 0
  | b :: bs' => Z.lor b (Z.shiftl (unle bs') 8)
  end.

(** The integer in the [n] bytes from [off] on. *)
Definition rd (bs : list Z) (off n : nat) : Z := unle (take n (drop off bs)).

(** [buf[off..off + bs.len()].copy_from_slice(bs)] within bounds. *)
Definition put (off : nat) (bs buf : list Z) : list Z := list_inserts off bs buf.

(** ** Text *)

(** The characters of a literal of the source. *)
Definition lit (s : string) : list Z := map (fun c => Z.of_N (N_of_ascii c)) (list_ascii_of_string s).

Section text.
Local Open Scope Z_scope.

(** [core::str::from_utf8(bs).is_ok()]. *)
Definition cont (b : Z) : bool := (128 <=? b) && (b <=? 191).
Definition between (lo hi b : Z) : bool := (lo <=? b) && (b <=? hi).

Fixpoint utf8_valid (bs : list Z) : bool :=
  match bs with
  | [] => true
  | a :: r =>
      if a <=? 127 then utf8_valid r
      else if between 194 223 a then
        match r with b :: r => cont b && utf8_valid r | _ => false end
      else if between 224 239 a then
        match r with
        | b :: c :: r =>
            between (if a =? 224 then 160 else 128) (if a =? 237 then 159 else 191) b
            && cont c && utf8_valid r
        | _ => false
        end
      else if between 240 244 a then
        match r with
        | b :: c :: d :: r =>
            between (if a =? 240 then 144 else 128) (if a =? 244 then 143 else 191) b
            && cont c && cont d && utf8_valid r
        | _ => false
        end
      else false
  end.

(** The bytes before the first NUL. *)
Fixpoint until_nul (bs : list Z) : list Z :=
  match bs with
  | [] => []
  | b :: bs => if b =? 0 then [] else b :: until_nul bs
  end.

Lemma until_nul_app p k : 0 ∉ p -> until_nul (p ++ replicate k 0) = p.
Proof.
  induction p as [|b p IH]; intros Hp; [by destruct k|].
  apply not_elem_of_cons in Hp as [Hb Hp]. cbn. destruct (Z.eqb_spec b 0); [by subst|].
  by rewrite IH.
Qed.

Lemma until_nul_id p : 0 ∉ p -> until_nul p = p.
Proof.
  induction p as [|b p IH]; intros Hp; [done|]. apply not_elem_of_cons in Hp as [Hb Hp].
  cbn. destruct (Z.eqb_spec b 0); [by subst|]. by rewrite IH.
Qed.
End text.

(** ** Lemmas *)
Lemma length_le n v : length (le n v) = n.
Proof. unfold le. by rewrite length_map, length_seq. Qed.

Lemma byte_of_range v i : is_byte (byte_of v i).
Proof.
  unfold is_byte, byte_of. change 255%Z with (Z.ones 8). rewrite Z.land_ones by lia.
  apply Z.mod_pos_bound. lia.
Qed.

Lemma le_bytes n v : Forall is_byte (le n v).
Proof. apply Forall_forall. intros b (i & -> & _)%list_elem_of_fmap. apply byte_of_range. Qed.

Lemma le_S n v : le (S n) v = byte_of v 0 :: le n (Z.shiftr v 8).
Proof.
  unfold le. cbn [seq map]. f_equal. rewrite <- seq_shift, map_map. apply map_ext.
  intros i. unfold byte_of. rewrite Z.shiftr_shiftr by lia. do 2 f_equal. lia.
Qed.

Lemma byte_join b h : is_byte b -> Z.lor b (Z.shiftl h 8) = (b + 256 * h)%Z.
Proof.
  intros Hb.
  assert (Hd : Z.land b (Z.shiftl h 8) = 0%Z).
  { apply Z.bits_inj'. intros n Hn. rewrite Z.land_spec, Z.shiftl_spec, Z.bits_0 by lia.
    destruct (Z.ltb_spec n 8).
    - rewrite (Z.testbit_neg_r h) by lia. apply andb_false_r.
    - replace b with (b mod 2 ^ 8)%Z by (apply Z.mod_small; exact Hb).
      by rewrite Z.mod_pow2_bits_high by lia. }
  rewrite <- Z.lxor_lor, <- Z.add_nocarry_lxor by done. rewrite Z.shiftl_mul_pow2 by lia.
  change (2 ^ 8)%Z with 256%Z. lia.
Qed.

Lemma unle_cons b bs : is_byte b -> unle (b :: bs) = (b + 256 * unle bs)%Z.
Proof. intros Hb. by apply byte_join. Qed.

Lemma unle_range bs : Forall is_byte bs -> (0 <= unle bs < 2 ^ (8 * Z.of_nat (length bs)))%Z.
Proof.
  induction 1 as [|b bs Hb _ IH]; [cbn; lia|]. rewrite unle_cons by done. cbn [length].
  replace (8 * Z.of_nat (S (length bs)))%Z with (8 + 8 * Z.of_nat (length bs))%Z by lia.
  rewrite Z.pow_add_r by lia. change (2 ^ 8)%Z with 256%Z. unfold is_byte in Hb. lia.
Qed.

Lemma unle_le n v : (0 <= v < 2 ^ (8 * Z.of_nat n))%Z -> unle (le n v) = v.
Proof.
  revert v. induction n as [|n IH]; intros v Hv.
  - change (le 0 v) with (@nil Z). cbn in *. lia.
  - rewrite le_S, unle_cons by apply byte_of_range.
    replace (8 * Z.of_nat (S n))%Z with (8 + 8 * Z.of_nat n)%Z in Hv by lia.
    rewrite Z.pow_add_r in Hv by lia. change (2 ^ 8)%Z with 256%Z in Hv.
    rewrite IH; rewrite Z.shiftr_div_pow2 by lia; change (2 ^ 8)%Z with 256%Z.
    + unfold byte_of. change 255%Z with (Z.ones 8). rewrite Z.land_ones, Z.shiftr_0_r by lia.
      change (2 ^ 8)%Z with 256%Z. pose proof (Z.div_mod v 256). lia.
    + split; [apply Z.div_pos; lia|]. apply Z.div_lt_upper_bound; lia.
Qed.

Lemma le_unle bs : Forall is_byte bs -> le (length bs) (unle bs) = bs.
Proof.
  induction 1 as [|b bs Hb Hbs IH]; [done|]. cbn [length]. rewrite le_S, unle_cons by done.
  assert (Hd : Z.shiftr (b + 256 * unle bs) 8 = unle bs).
  { rewrite Z.shiftr_div_pow2 by lia. change (2 ^ 8)%Z with 256%Z. unfold is_byte in Hb.
    rewrite Z.mul_comm, Z.div_add, (Z.div_small b) by lia. lia. }
  rewrite Hd, IH. f_equal. unfold byte_of. change 255%Z with (Z.ones 8).
  rewrite Z.land_ones, Z.shiftr_0_r by lia. change (2 ^ 8)%Z with 256%Z. unfold is_byte in Hb.
  rewrite Z.mul_comm, Z.mod_add, Z.mod_small by lia. done.
Qed.

(** Only the low bytes count: a negative value is written in two's
    complement. *)
Lemma le_mod n v : le n v = le n (v mod 2 ^ (8 * Z.of_nat n)).
Proof.
  unfold le. apply map_ext_in. intros i [_ Hi]%in_seq. unfold byte_of.
  apply Z.bits_inj'. intros k Hk. rewrite !Z.land_spec, !Z.shiftr_spec by lia.
  destruct (Z.ltb_spec k 8) as [Hlt|Hge].
  - by rewrite Z.mod_pow2_bits_low by lia.
  - change 255%Z with (Z.ones 8). by rewrite Z.ones_spec_high, !andb_false_r by lia.
Qed.

(** [i64::from_le_bytes] undoes [to_le_bytes]. *)
Lemma i64_le v : (- 2 ^ 63 <= v < 2 ^ 63)%Z -> i64w (unle (le 8 v)) = v.
Proof.
  intros Hv. rewrite le_mod, unle_le by (apply Z.mod_pos_bound; lia).
  change (8 * Z.of_nat 8)%Z with 64%Z. unfold i64w. rewrite Z.add_mod_idemp_l by lia.
  rewrite Z.mod_small; lia.
Qed.

(** *** Reading and writing fields of a concatenation *)
Lemma rd_here bs r n : length bs = n -> rd (bs ++ r) 0 n = unle bs.
Proof. intros <-. unfold rd. by rewrite drop_0, take_app_length. Qed.

Lemma rd_skip bs r off n : length bs <= off -> rd (bs ++ r) off n = rd r (off - length bs) n.
Proof. intros H. unfold rd. by rewrite drop_app_ge. Qed.

Lemma slice_here {A} (l r : list A) n : length l = n -> take n (drop 0 (l ++ r)) = l.
Proof. intros <-. by rewrite drop_0, take_app_length. Qed.

Lemma length_put off bs buf : length (put off bs buf) = length buf.
Proof. apply length_inserts. Qed.

Lemma put_app pre bs old post :
  length old = length bs -> put (length pre) bs (pre ++ old ++ post) = pre ++ bs ++ post.
Proof.
  intros Hl. unfold put. rewrite <- (Nat.add_0_r (length pre)), list_inserts_app_r.
  by rewrite list_inserts_0_r.
Qed.

Lemma put_split off bs buf :
  off + length bs <= length buf ->
  put off bs buf = take off buf ++ bs ++ drop (off + length bs) buf.
Proof.
  intros Hl. assert (Hlo : length (take off buf) = off) by (rewrite length_take; lia).
  rewrite <- (take_drop off buf) at 1. rewrite <- (take_drop (length bs) (drop off buf)).
  rewrite drop_drop. rewrite <- Hlo at 1. apply put_app.
  rewrite length_take, length_drop. lia.
Qed.

(** Filling a zeroed buffer from left to right. *)
Lemma put_fill off pre bs m :
  length pre = off -> length bs <= m ->
  put off bs (pre ++ replicate m 0%Z) = (pre ++ bs) ++ replicate (m - length bs) 0%Z.
Proof.
  intros <- Hm. replace m with (length bs + (m - length bs)) at 1 by lia.
  rewrite replicate_add, put_app by (by rewrite length_replicate). by rewrite app_assoc.
Qed.

Lemma put_in off bs buf i :
  off + length bs <= length buf -> off <= i -> i < off + length bs ->
  put off bs buf !! i = bs !! (i - off).
Proof. intros ???. unfold put. apply list_lookup_inserts; lia. Qed.

Lemma put_out off bs buf i : i < off \/ off + length bs <= i -> put off bs buf !! i = buf !! i.
Proof.
  intros [Hi|Hi]; unfold put; [by apply list_lookup_inserts_lt|by apply list_lookup_inserts_ge].
Qed.

(** Reads the field at a known place of a concatenation. *)
Ltac read_field :=
  repeat first [rewrite rd_skip by (rewrite ?length_le; simpl; lia)
               |rewrite rd_here by (rewrite ?length_le; simpl; lia)];
  rewrite ?length_le; cbn [Nat.sub].

(** A run of [copy_from_slice]s. *)
Definition puts (l : list (nat * list Z)) (buf : list Z) : list Z :=
  foldl (fun buf f => put f.1 f.2 buf) buf l.

(** The fields follow one another from [off] on. *)
Fixpoint contiguous (off : nat) (l : list (nat * list Z)) : Prop :=
  match l with
  | [] => True
  | (o, bs) :: l' => o = off /\ contiguous (off + length bs) l'
  end.

Lemma length_puts l buf : length (puts l buf) = length buf.
Proof.
  unfold puts. revert buf. induction l as [|f l IH]; intros buf; [done|]. cbn.
  by rewrite IH, length_put.
Qed.

Lemma puts_fill l off pre m :
  contiguous off l -> length pre = off -> length (concat (map snd l)) <= m ->
  puts l (pre ++ replicate m 0%Z) =
  (pre ++ concat (map snd l)) ++ replicate (m - length (concat (map snd l))) 0%Z.
Proof.
  unfold puts. revert off pre m. induction l as [|[o bs] l IH]; intros off pre m Hc Hp Hm.
  - cbn. by rewrite app_nil_r, Nat.sub_0_r.
  - destruct Hc as [-> Hc]. cbn [map concat snd fst foldl] in *. rewrite length_app in Hm.
    rewrite put_fill by (done || lia).
    rewrite (IH (off + length bs)); [|done|rewrite length_app; lia|lia].
    rewrite <- !app_assoc, length_app. do 4 f_equal. lia.
Qed.
