(* ===== verification/Crc.v ===== *)
(** * Crc: the checksum of OHLINK files

    tools/ohlink-toolchain/crates/ohlink-format/src/crc32.rs.  The table is
    the source's; [crc32_spec] is the bit-by-bit definition of CRC32-IEEE
    with the reversed polynomial 0xEDB88320, which the format's document
    prescribes. *)
From Stdlib Require Import ZArith Lia.
From stdpp Require Import base tactics option list list_numbers.
From S2P Require Import Prelude Bytes.

Definition CRC32_TABLE : list Z :=
  [0x00000000; 0x77073096; 0xee0e612c; 0x990951ba; 0x076dc419; 0x706af48f; 0xe963a535; 0x9e6495a3;
   0x0edb8832; 0x79dcb8a4; 0xe0d5e91e; 0x97d2d988; 0x09b64c2b; 0x7eb17cbd; 0xe7b82d07; 0x90bf1d91;
   0x1db71064; 0x6ab020f2; 0xf3b97148; 0x84be41de; 0x1adad47d; 0x6ddde4eb; 0xf4d4b551; 0x83d385c7;
   0x136c9856; 0x646ba8c0; 0xfd62f97a; 0x8a65c9ec; 0x14015c4f; 0x63066cd9; 0xfa0f3d63; 0x8d080df5;
   0x3b6e20c8; 0x4c69105e; 0xd56041e4; 0xa2677172; 0x3c03e4d1; 0x4b04d447; 0xd20d85fd; 0xa50ab56b;
   0x35b5a8fa; 0x42b2986c; 0xdbbbc9d6; 0xacbcf940; 0x32d86ce3; 0x45df5c75; 0xdcd60dcf; 0xabd13d59;
   0x26d930ac; 0x51de003a; 0xc8d75180; 0xbfd06116; 0x21b4f4b5; 0x56b3c423; 0xcfba9599; 0xb8bda50f;
   0x2802b89e; 0x5f058808; 0xc60cd9b2; 0xb10be924; 0x2f6f7c87; 0x58684c11; 0xc1611dab; 0xb6662d3d;
   0x76dc4190; 0x01db7106; 0x98d220bc; 0xefd5102a; 0x71b18589; 0x06b6b51f; 0x9fbfe4a5; 0xe8b8d433;
   0x7807c9a2; 0x0f00f934; 0x9609a88e; 0xe10e9818; 0x7f6a0dbb; 0x086d3d2d; 0x91646c97; 0xe6635c01;
   0x6b6b51f4; 0x1c6c6162; 0x856530d8; 0xf262004e; 0x6c0695ed; 0x1b01a57b; 0x8208f4c1; 0xf50fc457;
   0x65b0d9c6; 0x12b7e950; 0x8bbeb8ea; 0xfcb9887c; 0x62dd1ddf; 0x15da2d49; 0x8cd37cf3; 0xfbd44c65;
   0x4db26158; 0x3ab551ce; 0xa3bc0074; 0xd4bb30e2; 0x4adfa541; 0x3dd895d7; 0xa4d1c46d; 0xd3d6f4fb;
   0x4369e96a; 0x346ed9fc; 0xad678846; 0xda60b8d0; 0x44042d73; 0x33031de5; 0xaa0a4c5f; 0xdd0d7cc9;
   0x5005713c; 0x270241aa; 0xbe0b1010; 0xc90c2086; 0x5768b525; 0x206f85b3; 0xb966d409; 0xce61e49f;
   0x5edef90e; 0x29d9c998; 0xb0d09822; 0xc7d7a8b4; 0x59b33d17; 0x2eb40d81; 0xb7bd5c3b; 0xc0ba6cad;
   0xedb88320; 0x9abfb3b6; 0x03b6e20c; 0x74b1d29a; 0xead54739; 0x9dd277af; 0x04db2615; 0x73dc1683;
   0xe3630b12; 0x94643b84; 0x0d6d6a3e; 0x7a6a5aa8; 0xe40ecf0b; 0x9309ff9d; 0x0a00ae27; 0x7d079eb1;
   0xf00f9344; 0x8708a3d2; 0x1e01f268; 0x6906c2fe; 0xf762575d; 0x806567cb; 0x196c3671; 0x6e6b06e7;
   0xfed41b76; 0x89d32be0; 0x10da7a5a; 0x67dd4acc; 0xf9b9df6f; 0x8ebeeff9; 0x17b7be43; 0x60b08ed5;
   0xd6d6a3e8; 0xa1d1937e; 0x38d8c2c4; 0x4fdff252; 0xd1bb67f1; 0xa6bc5767; 0x3fb506dd; 0x48b2364b;
   0xd80d2bda; 0xaf0a1b4c; 0x36034af6; 0x41047a60; 0xdf60efc3; 0xa867df55; 0x316e8eef; 0x4669be79;
   0xcb61b38c; 0xbc66831a; 0x256fd2a0; 0x5268e236; 0xcc0c7795; 0xbb0b4703; 0x220216b9; 0x5505262f;
   0xc5ba3bbe; 0xb2bd0b28; 0x2bb45a92; 0x5cb36a04; 0xc2d7ffa7; 0xb5d0cf31; 0x2cd99e8b; 0x5bdeae1d;
   0x9b64c2b0; 0xec63f226; 0x756aa39c; 0x026d930a; 0x9c0906a9; 0xeb0e363f; 0x72076785; 0x05005713;
   0x95bf4a82; 0xe2b87a14; 0x7bb12bae; 0x0cb61b38; 0x92d28e9b; 0xe5d5be0d; 0x7cdcefb7; 0x0bdbdf21;
   0x86d3d2d4; 0xf1d4e242; 0x68ddb3f8; 0x1fda836e; 0x81be16cd; 0xf6b9265b; 0x6fb077e1; 0x18b74777;
   0x88085ae6; 0xff0f6a70; 0x66063bca; 0x11010b5c; 0x8f659eff; 0xf862ae69; 0x616bffd3; 0x166ccf45;
   0xa00ae278; 0xd70dd2ee; 0x4e048354; 0x3903b3c2; 0xa7672661; 0xd06016f7; 0x4969474d; 0x3e6e77db;
   0xaed16a4a; 0xd9d65adc; 0x40df0b66; 0x37d83bf0; 0xa9bcae53; 0xdebb9ec5; 0x47b2cf7f; 0x30b5ffe9;
   0xbdbdf21c; 0xcabac28a; 0x53b39330; 0x24b4a3a6; 0xbad03605; 0xcdd70693; 0x54de5729; 0x23d967bf;
   0xb3667a2e; 0xc4614ab8; 0x5d681b02; 0x2a6f2b94; 0xb40bbe37; 0xc30c8ea1; 0x5a05df1b; 0x2d02ef8d]%Z.

(** One turn of the loop; the index is below 256. *)
Definition crc_step (crc byte : Z) : Z :=
  Z.lxor (Z.shiftr crc 8) (nth (Z.to_nat (Z.land (Z.lxor crc byte) 255)) CRC32_TABLE 0%Z).

Definition crc32_ieee (data : list Z) : Z :=
  Z.lxor (foldl crc_step 0xffffffff%Z data) 0xffffffff.

(** ** Reference definition *)
Definition crc_bit (c : Z) : Z :=
  if Z.testbit c 0 then Z.lxor (Z.shiftr c 1) 0xedb88320 else Z.shiftr c 1.

Definition crc_byte (c b : Z) : Z := Nat.iter 8 crc_bit (Z.lxor c b).

Definition crc32_spec (data : list Z) : Z :=
  Z.lxor (foldl crc_byte 0xffffffff%Z data) 0xffffffff.

(** ** Lemmas *)
Lemma table_is_iter :
  CRC32_TABLE = map (fun i => Nat.iter 8 crc_bit (Z.of_nat i)) (seq 0 256).
Proof. vm_compute. reflexivity. Qed.

Lemma crc_bit_lxor a b : crc_bit (Z.lxor a b) = Z.lxor (crc_bit a) (crc_bit b).
Proof.
  unfold crc_bit. rewrite Z.lxor_spec, Z.shiftr_lxor.
  set (p := 0xedb88320%Z). clearbody p.
  destruct (Z.testbit a 0), (Z.testbit b 0); cbn [xorb];
    apply Z.bits_inj'; intros n Hn; rewrite !Z.lxor_spec;
    by destruct (Z.testbit (Z.shiftr a 1) n), (Z.testbit (Z.shiftr b 1) n), (Z.testbit p n).
Qed.

Lemma iter_crc_bit_lxor n a b :
  Nat.iter n crc_bit (Z.lxor a b) = Z.lxor (Nat.iter n crc_bit a) (Nat.iter n crc_bit b).
Proof. induction n as [|n IH]; [done|]. rewrite !Nat.iter_succ. by rewrite IH, crc_bit_lxor. Qed.

Lemma iter_crc_bit_high n h : Nat.iter n crc_bit (Z.shiftl h (Z.of_nat n)) = h.
Proof.
  induction n as [|n IH]; [apply Z.shiftl_0_r|]. rewrite Nat.iter_succ_r.
  replace (crc_bit (Z.shiftl h (Z.of_nat (S n)))) with (Z.shiftl h (Z.of_nat n)); [done|].
  unfold crc_bit. rewrite Z.shiftl_spec_low by lia.
  rewrite Z.shiftr_shiftl_l by lia. f_equal. lia.
Qed.

Lemma low_byte_range x : is_byte (Z.land x 255).
Proof. exact (eq_ind _ is_byte (byte_of_range x 0) _ ltac:(unfold byte_of; by rewrite Z.shiftr_0_r)). Qed.

Lemma split_low x : x = Z.lxor (Z.shiftl (Z.shiftr x 8) 8) (Z.land x 255).
Proof.
  apply Z.bits_inj'. intros n Hn. rewrite Z.lxor_spec, Z.shiftl_spec, Z.land_spec by lia.
  change 255%Z with (Z.ones 8). destruct (Z.ltb_spec n 8).
  - rewrite Z.ones_spec_low, (Z.testbit_neg_r _ (n - 8)) by lia. by destruct (Z.testbit x n).
  - rewrite Z.ones_spec_high, Z.shiftr_spec by lia. replace (n - 8 + 8)%Z with n by lia.
    by destruct (Z.testbit x n).
Qed.

Lemma crc_step_byte c b : is_byte b -> crc_step c b = crc_byte c b.
Proof.
  intros Hb. unfold crc_step, crc_byte. rewrite (split_low (Z.lxor c b)) at 2.
  rewrite iter_crc_bit_lxor, (iter_crc_bit_high 8). f_equal.
  - rewrite Z.shiftr_lxor. replace (Z.shiftr b 8) with 0%Z; [by rewrite Z.lxor_0_r|].
    symmetry. rewrite Z.shiftr_div_pow2 by lia. apply Z.div_small. exact Hb.
  - pose proof (low_byte_range (Z.lxor c b)) as Hr. unfold is_byte in Hr.
    set (x := Z.land (Z.lxor c b) 255) in *. rewrite table_is_iter.
    rewrite (nth_indep _ _ (Nat.iter 8 crc_bit (Z.of_nat 0)))
      by (rewrite length_map, length_seq; lia).
    rewrite (map_nth (fun i => Nat.iter 8 crc_bit (Z.of_nat i))), seq_nth by lia.
    f_equal. lia.
Qed.

Lemma lxor_range n a b :
  (0 <= n)%Z -> (0 <= a < 2 ^ n)%Z -> (0 <= b < 2 ^ n)%Z -> (0 <= Z.lxor a b < 2 ^ n)%Z.
Proof.
  intros Hn Ha Hb.
  assert (H : Z.lxor a b = (Z.lxor a b mod 2 ^ n)%Z); [|rewrite H; apply Z.mod_pos_bound; lia].
  apply Z.bits_inj'. intros k Hk. destruct (Z.ltb_spec k n).
  - by rewrite Z.mod_pow2_bits_low.
  - rewrite Z.mod_pow2_bits_high, Z.lxor_spec by lia.
    rewrite <- (Z.mod_small a (2 ^ n)), <- (Z.mod_small b (2 ^ n)) by done.
    by rewrite !Z.mod_pow2_bits_high by lia.
Qed.

Definition word32 (c : Z) : Prop := (0 <= c < 2 ^ 32)%Z.

Lemma crc_bit_range c : word32 c -> word32 (crc_bit c).
Proof.
  intros Hc. unfold word32 in *.
  assert (Hs : (0 <= Z.shiftr c 1 < 2 ^ 32)%Z).
  { rewrite Z.shiftr_div_pow2 by lia. change (2 ^ 1)%Z with 2%Z.
    split; [apply Z.div_pos; lia|apply Z.div_lt_upper_bound; lia]. }
  unfold crc_bit. destruct (Z.testbit c 0); [|done]. by apply lxor_range.
Qed.

Lemma crc_bit_zero c : word32 c -> crc_bit c = 0%Z -> c = 0%Z.
Proof.
  unfold word32, crc_bit. intros Hc.
  assert (Hs : (Z.shiftr c 1 < 2 ^ 31)%Z).
  { rewrite Z.shiftr_div_pow2 by lia. apply Z.div_lt_upper_bound; lia. }
  destruct (Z.testbit c 0) eqn:Hb.
  - intros H%Z.lxor_eq. lia.
  - intros H. rewrite Z.shiftr_div_pow2 in H by lia. change (2 ^ 1)%Z with 2%Z in H.
    rewrite Z.bit0_odd in Hb. rewrite Zodd_mod in Hb. apply Z.eqb_neq in Hb.
    pose proof (Z.mod_pos_bound c 2 ltac:(lia)). pose proof (Z.div_mod c 2). lia.
Qed.

Lemma iter_crc_bit n c :
  word32 c -> word32 (Nat.iter n crc_bit c) /\ (Nat.iter n crc_bit c = 0%Z -> c = 0%Z).
Proof.
  intros Hc. induction n as [|n [IHr IH0]]; [done|]. rewrite Nat.iter_succ.
  split; [by apply crc_bit_range|]. intros H. by apply IH0, crc_bit_zero.
Qed.

Lemma byte_word32 b : is_byte b -> word32 b.
Proof. unfold is_byte, word32. lia. Qed.

Lemma crc_step_range c b : word32 c -> is_byte b -> word32 (crc_step c b).
Proof.
  intros Hc Hb. rewrite crc_step_byte by done. apply iter_crc_bit. by apply lxor_range, byte_word32.
Qed.

(** A step is injective in the register and in the byte. *)
Lemma crc_step_inj c1 c2 b1 b2 :
  word32 c1 -> word32 c2 -> is_byte b1 -> is_byte b2 ->
  crc_step c1 b1 = crc_step c2 b2 -> Z.lxor c1 b1 = Z.lxor c2 b2.
Proof.
  intros Hc1 Hc2 Hb1 Hb2 H. rewrite !crc_step_byte in H by done. unfold crc_byte in H.
  assert (Hr : forall c b, word32 c -> is_byte b -> word32 (Z.lxor c b))
    by (intros; apply lxor_range; [lia|done|by apply byte_word32]).
  apply Z.lxor_eq, (proj2 (iter_crc_bit 8 _ (lxor_range 32 _ _ ltac:(lia) (Hr _ _ Hc1 Hb1) (Hr _ _ Hc2 Hb2)))).
  rewrite iter_crc_bit_lxor, H. apply Z.lxor_nilpotent.
Qed.

Lemma lxor_cancel_r a b c : Z.lxor a c = Z.lxor b c -> a = b.
Proof.
  intros H. rewrite <- (Z.lxor_0_r a), <- (Z.lxor_nilpotent c), <- Z.lxor_assoc, H.
  by rewrite Z.lxor_assoc, Z.lxor_nilpotent, Z.lxor_0_r.
Qed.

Lemma crc_fold_range data c : word32 c -> Forall is_byte data -> word32 (foldl crc_step c data).
Proof.
  revert c. induction data as [|b data IH]; intros c Hc Hd; [done|].
  apply Forall_cons in Hd as [Hb Hd]. cbn [foldl]. by apply IH; [apply crc_step_range|].
Qed.

Lemma crc_fold_inj data c1 c2 :
  word32 c1 -> word32 c2 -> Forall is_byte data ->
  foldl crc_step c1 data = foldl crc_step c2 data -> c1 = c2.
Proof.
  revert c1 c2. induction data as [|b data IH]; intros c1 c2 Hc1 Hc2 Hd; [done|].
  apply Forall_cons in Hd as [Hb Hd]. cbn [foldl]. intros H.
  apply IH in H; [|by apply crc_step_range..|done].
  apply crc_step_inj in H; [|done..]. by apply lxor_cancel_r in H.
Qed.

(** Changing one byte changes the checksum. *)
Lemma crc32_one_byte pre post b b' :
  Forall is_byte (pre ++ b :: post) -> is_byte b' -> b <> b' ->
  crc32_ieee (pre ++ b :: post) <> crc32_ieee (pre ++ b' :: post).
Proof.
  intros (Hp & [Hb Hq]%Forall_cons)%Forall_app Hb' Hne H. unfold crc32_ieee in H.
  apply lxor_cancel_r in H. rewrite !foldl_app in H. cbn [foldl] in H.
  assert (Hr : word32 (foldl crc_step 0xffffffff%Z pre)) by (apply crc_fold_range; [done|done]).
  apply crc_fold_inj in H; [|by apply crc_step_range..|done].
  apply crc_step_inj in H; [|done..].
  rewrite !(Z.lxor_comm (foldl _ _ _)) in H. by apply lxor_cancel_r in H.
Qed.

Lemma crc32_range data : Forall is_byte data -> word32 (crc32_ieee data).
Proof. intros Hd. by apply lxor_range; [lia|apply crc_fold_range|]. Qed.

(** ** Properties *)

(** C32. The table-driven checksum is CRC32-IEEE: on any bytes it is the
    value the bit-by-bit definition gives. *)
Theorem crc32_is_ieee data : Forall is_byte data -> crc32_ieee data = crc32_spec data.
Proof.
  intros Hd. unfold crc32_ieee, crc32_spec. f_equal. generalize 0xffffffff%Z as c.
  induction Hd as [|b data Hb _ IH]; intros c; [done|]. cbn [foldl].
  by rewrite crc_step_byte, IH.
Qed.

(** The check value of the standard, "123456789". *)
Example crc32_check_value :
  crc32_ieee [49; 50; 51; 52; 53; 54; 55; 56; 57]%Z = 0xcbf43926%Z.
Proof. vm_compute. reflexivity. Qed.

Lemma crc32_is_ieee_witness : crc32_ieee [1; 2; 255]%Z = crc32_spec [1; 2; 255]%Z.
Proof. apply (crc32_is_ieee [1; 2; 255]%Z). repeat constructor; unfold is_byte; lia. Defined.
