(* ===== verification/Ohlk.v ===== *)
(** * Ohlk: the OHLINK executable format

    tools/ohlink-toolchain/crates/ohlink-format/src: the header, entry,
    symbol and relocation records with their byte layouts (header.rs,
    entry.rs, symbol.rs, reloc.rs), the builder the linker uses (builder.rs)
    and the parser the kernel, the bootloader and the tools use (parser.rs).

    [None] of [option] is a panic. *)
From Stdlib Require Import ZArith Lia.
From stdpp Require Import base tactics option list list_numbers.
From S2P Require Import Prelude Bytes Crc.

Inductive FormatError :=
| BufferTooSmall | InvalidMagic | InvalidVersion
| ChecksumMismatch (expected calculated : Z)
| InvalidEntryIndex | Utf8Error | ParseError | BuildError.

Abbreviation fresult := (result FormatError).

(** ** Header *)
Record OHLK_Header := mkHeader {
  h_magic : Z;
  h_version_major : Z;
  h_version_minor : Z;
  h_endian : Z;
  h_arch : Z;
  h_file_type : Z;
  h_header_count : Z;
  h_header_offset : Z;
  h_data_offset : Z;
  h_file_size : Z;
  h_checksum : Z;
  h_flags : Z;
  h_entry_point : Z;
  h_reserved : list Z
}.

Definition HEADER_MAGIC : Z := 0x4F484C4B.
Definition HEADER_SIZE : nat := 64.
Definition HEADER_OFFSET : Z := 0x40.

Definition header_fields (h : OHLK_Header) : list (nat * list Z) :=
  [(0, le 4 (h_magic h)); (4, le 2 (h_version_major h)); (6, le 2 (h_version_minor h));
   (8, [h_endian h]); (9, [h_arch h]); (10, le 2 (h_file_type h));
   (12, le 2 (h_header_count h)); (14, le 4 (h_header_offset h));
   (18, le 4 (h_data_offset h)); (22, le 8 (h_file_size h)); (30, le 4 (h_checksum h));
   (34, le 4 (h_flags h)); (38, le 8 (h_entry_point h)); (46, h_reserved h)].

Definition header_to_bytes (h : OHLK_Header) : list Z :=
  puts (header_fields h) (replicate HEADER_SIZE 0%Z).

Definition header_from_bytes (bytes : list Z) : fresult OHLK_Header :=
  if length bytes <? HEADER_SIZE then Err BufferTooSmall
  else
    let magic := rd bytes 0 4 in
    if negb (magic =? HEADER_MAGIC)%Z then Err InvalidMagic
    else
      let version_major := rd bytes 4 2 in
      let version_minor := rd bytes 6 2 in
      if negb (version_major =? 1)%Z then Err InvalidVersion
      else
        Ok (mkHeader magic version_major version_minor (rd bytes 8 1) (rd bytes 9 1)
              (rd bytes 10 2) (rd bytes 12 2) (rd bytes 14 4) (rd bytes 18 4) (rd bytes 22 8)
              (rd bytes 30 4) (rd bytes 34 4) (rd bytes 38 8) (take 18 (drop 46 bytes))).

Inductive FileType := Executable | Relocatable | SharedObject | KernelModule | Firmware | Bootloader.

Definition file_type_from_u16 (v : Z) : FileType :=
  match v with
  | 1 => Executable | 2 => Relocatable | 3 => SharedObject | 4 => KernelModule
  | 5 => Firmware | 6 => Bootloader | _ => Relocatable
  end%Z.

Definition file_type_to_u16 (t : FileType) : Z :=
  match t with
  | Executable => 1 | Relocatable => 2 | SharedObject => 3 | KernelModule => 4
  | Firmware => 5 | Bootloader => 6
  end.

(** ** Entries *)
Inductive SegmentType :=
| SText | SData | SRodata | SBss | SSymtab | SStrtab | SReloc | SDynamic | SImport | SExport
| SGot | SPlt | SHash | STls | SInit | SFini | SDebug | SLine | SCustom (v : Z).

Definition segment_type_from_u32 (v : Z) : SegmentType :=
  match v with
  | 1 => SText | 2 => SData | 3 => SRodata | 4 => SBss | 5 => SSymtab | 6 => SStrtab
  | 7 => SReloc | 8 => SDynamic | 9 => SImport | 10 => SExport | 11 => SGot | 12 => SPlt
  | 13 => SHash | 14 => STls | 15 => SInit | 16 => SFini | 17 => SDebug | 18 => SLine
  | other => SCustom other
  end%Z.

Definition segment_type_to_u32 (t : SegmentType) : Z :=
  match t with
  | SText => 1 | SData => 2 | SRodata => 3 | SBss => 4 | SSymtab => 5 | SStrtab => 6
  | SReloc => 7 | SDynamic => 8 | SImport => 9 | SExport => 10 | SGot => 11 | SPlt => 12
  | SHash => 13 | STls => 14 | SInit => 15 | SFini => 16 | SDebug => 17 | SLine => 18
  | SCustom v => v
  end.

Record OHLK_Entry := mkOhlkEntry {
  e_ty : Z;
  e_flags : Z;
  e_file_offset : Z;
  e_virtual_address : Z;
  e_file_size : Z;
  e_mem_size : Z;
  e_alignment : Z;
  e_link : Z;
  e_info : Z;
  e_name_offset : Z
}.

Definition ENTRY_SIZE : nat := 60.

Definition entry_fields (e : OHLK_Entry) : list (nat * list Z) :=
  [(0, le 4 (e_ty e)); (4, le 4 (e_flags e)); (8, le 8 (e_file_offset e));
   (16, le 8 (e_virtual_address e)); (24, le 8 (e_file_size e)); (32, le 8 (e_mem_size e));
   (40, le 8 (e_alignment e)); (48, le 4 (e_link e)); (52, le 4 (e_info e));
   (56, le 4 (e_name_offset e))].

Definition entry_to_bytes (e : OHLK_Entry) : list Z :=
  puts (entry_fields e) (replicate ENTRY_SIZE 0%Z).

Definition entry_from_bytes (bytes : list Z) : fresult OHLK_Entry :=
  if length bytes <? ENTRY_SIZE then Err BufferTooSmall
  else
    Ok (mkOhlkEntry (rd bytes 0 4) (rd bytes 4 4) (rd bytes 8 8) (rd bytes 16 8) (rd bytes 24 8)
          (rd bytes 32 8) (rd bytes 40 8) (rd bytes 48 4) (rd bytes 52 4) (rd bytes 56 4)).

(** ** Relocations *)
Inductive RelocType :=
| Abs64 | Call26 | AdrPrelPgHi21 | AddAbsLo12Nc | Ldst64AbsLo12Nc | Ldst32AbsLo12Nc
| RCustom (v : Z).

Definition reloc_type_from_u32 (v : Z) : RelocType :=
  match v with
  | 1 => Abs64 | 2 => Call26 | 3 => AdrPrelPgHi21 | 4 => AddAbsLo12Nc | 5 => Ldst64AbsLo12Nc
  | 6 => Ldst32AbsLo12Nc | other => RCustom other
  end%Z.

Definition reloc_type_to_u32 (t : RelocType) : Z :=
  match t with
  | Abs64 => 1 | Call26 => 2 | AdrPrelPgHi21 => 3 | AddAbsLo12Nc => 4 | Ldst64AbsLo12Nc => 5
  | Ldst32AbsLo12Nc => 6 | RCustom v => v
  end.

Record OHLK_Reloc := mkReloc {
  r_offset : Z;
  r_ty : Z;
  r_symbol_idx : Z;
  r_bit_size : Z;
  r_reserved8 : Z;
  r_reserved16 : Z;
  r_addend : Z;
  r_reserved : list Z
}.

Definition RELOC_SIZE : nat := 32.

(** The last four bytes stay zero. *)
Definition reloc_fields (r : OHLK_Reloc) : list (nat * list Z) :=
  [(0, le 8 (r_offset r)); (8, le 4 (r_ty r)); (12, le 4 (r_symbol_idx r));
   (16, [r_bit_size r]); (17, [r_reserved8 r]); (18, le 2 (r_reserved16 r));
   (20, le 8 (u64w (r_addend r)))].

Definition reloc_to_bytes (r : OHLK_Reloc) : list Z :=
  puts (reloc_fields r) (replicate RELOC_SIZE 0%Z).

Definition reloc_from_bytes (bytes : list Z) : fresult OHLK_Reloc :=
  if length bytes <? RELOC_SIZE then Err BufferTooSmall
  else
    Ok (mkReloc (rd bytes 0 8) (rd bytes 8 4) (rd bytes 12 4) (rd bytes 16 1) (rd bytes 17 1)
          (rd bytes 18 2) (i64w (rd bytes 20 8)) (take 4 (drop 28 bytes))).

(** ** Symbols *)
Inductive SymbolType := SymNone | SymFunction | SymData | SymFile | SymSection.
Definition symbol_type_from_u8 (v : Z) : SymbolType :=
  match v with
  | 1 => SymFunction | 2 => SymData | 3 => SymFile | 4 => SymSection | _ => SymNone
  end%Z.
Definition symbol_type_to_u8 (t : SymbolType) : Z :=
  match t with SymNone => 0 | SymFunction => 1 | SymData => 2 | SymFile => 3 | SymSection => 4 end.

Inductive SymbolBinding := BLocal | BGlobal | BWeak.
Definition symbol_binding_from_u8 (v : Z) : SymbolBinding :=
  match v with 1 => BGlobal | 2 => BWeak | _ => BLocal end%Z.
Definition symbol_binding_to_u8 (t : SymbolBinding) : Z :=
  match t with BLocal => 0 | BGlobal => 1 | BWeak => 2 end.

Inductive SymbolVisibility := VDefault | VHidden | VProtected.
Definition symbol_visibility_from_u8 (v : Z) : SymbolVisibility :=
  match v with 1 => VHidden | 2 => VProtected | _ => VDefault end%Z.
Definition symbol_visibility_to_u8 (t : SymbolVisibility) : Z :=
  match t with VDefault => 0 | VHidden => 1 | VProtected => 2 end.

Record OHLK_Symbol := mkSymbol {
  sy_name_offset : Z;
  sy_value : Z;
  sy_size : Z;
  sy_ty : Z;
  sy_binding : Z;
  sy_visibility : Z;
  sy_section_idx : Z;
  sy_reserved : list Z
}.

Definition SYMBOL_SIZE : nat := 32.
Definition UNDEFINED_SECTION : Z := 0xFFFF.

Definition symbol_fields (s : OHLK_Symbol) : list (nat * list Z) :=
  [(0, le 8 (sy_name_offset s)); (8, le 8 (sy_value s)); (16, le 8 (sy_size s));
   (24, [sy_ty s]); (25, [sy_binding s]); (26, [sy_visibility s]); (27, le 2 (sy_section_idx s))].

Definition symbol_to_bytes (s : OHLK_Symbol) : list Z :=
  puts (symbol_fields s) (replicate SYMBOL_SIZE 0%Z).

(** [dst.copy_from_slice(src)] for a whole array [dst]: the lengths must
    agree. *)
Definition copy_from_slice (dst src : list Z) : option (list Z) :=
  if length dst =? length src then Some src else None.

Definition symbol_from_bytes (bytes : list Z) : option (fresult OHLK_Symbol) :=
  if length bytes <? SYMBOL_SIZE then Some (Err BufferTooSmall)
  else
    match copy_from_slice (replicate 21 0%Z) (take 3 (drop 29 bytes)) with
    | None => None
    | Some reserved =>
        Some (Ok (mkSymbol (rd bytes 0 8) (rd bytes 8 8) (rd bytes 16 8) (rd bytes 24 1)
                    (rd bytes 25 1) (rd bytes 26 1) (rd bytes 27 2) reserved))
    end.

(** ** Builder *)
Record OHLK_Builder := mkBuilder {
  b_header : OHLK_Header;
  b_entries : list OHLK_Entry;
  b_sections : list (list Z)
}.

Definition builder_new (arch file_type flags entry_point : Z) : OHLK_Builder :=
  mkBuilder (mkHeader HEADER_MAGIC 1 1 0 arch file_type 0 HEADER_OFFSET 0 0 0 flags entry_point
               (replicate 18 0%Z)) [] [].

Definition set_header_count (h : OHLK_Header) (n : Z) : OHLK_Header :=
  mkHeader (h_magic h) (h_version_major h) (h_version_minor h) (h_endian h) (h_arch h)
    (h_file_type h) n (h_header_offset h) (h_data_offset h) (h_file_size h) (h_checksum h)
    (h_flags h) (h_entry_point h) (h_reserved h).

Definition set_sizes (h : OHLK_Header) (data_offset file_size : Z) : OHLK_Header :=
  mkHeader (h_magic h) (h_version_major h) (h_version_minor h) (h_endian h) (h_arch h)
    (h_file_type h) (h_header_count h) (h_header_offset h) data_offset file_size (h_checksum h)
    (h_flags h) (h_entry_point h) (h_reserved h).

Definition set_file_offset (e : OHLK_Entry) (off : Z) : OHLK_Entry :=
  mkOhlkEntry (e_ty e) (e_flags e) off (e_virtual_address e) (e_file_size e) (e_mem_size e)
    (e_alignment e) (e_link e) (e_info e) (e_name_offset e).

Definition add_segment (b : OHLK_Builder) (ty flags : Z) (data : list Z)
    (mem_size virtual_address alignment : Z) : Z * OHLK_Builder :=
  let index := u16w (Z.of_nat (length (b_entries b))) in
  let entry := mkOhlkEntry ty flags 0 virtual_address (Z.of_nat (length data)) mem_size alignment
                 0 0 0 in
  let entries := b_entries b ++ [entry] in
  (index, mkBuilder (set_header_count (b_header b) (u16w (Z.of_nat (length entries)))) entries
            (b_sections b ++ [data])).

(** [(current + alignment - 1) & !(alignment - 1)] on u64, 0 meaning 16. *)
Definition align_offset (current alignment : Z) : Z :=
  let a := if (0 <? alignment)%Z then alignment else 16%Z in
  Z.land (u64w (u64w (current + a) - 1)) (Z.lxor (a - 1) (2 ^ 64 - 1)).

(** The placement loop: padding, the entry's offset, the data. *)
Fixpoint place (es : list OHLK_Entry) (ds : list (list Z)) (current : Z) (buf : list Z)
  : list OHLK_Entry * list Z :=
  match es, ds with
  | e :: es', d :: ds' =>
      let aligned := align_offset current (e_alignment e) in
      let buf1 := if (current <? aligned)%Z
                  then buf ++ replicate (Z.to_nat (aligned - current)) 0%Z else buf in
      let '(es2, buf2) := place es' ds' (u64w (aligned + Z.of_nat (length d))) (buf1 ++ d) in
      (set_file_offset e aligned :: es2, buf2)
  | _, _ => (es, buf)
  end.

Fixpoint put_entries (i : nat) (es : list OHLK_Entry) (buf : list Z) : list Z :=
  match es with
  | [] => buf
  | e :: es' => put_entries (S i) es' (put (HEADER_SIZE + i * ENTRY_SIZE) (entry_to_bytes e) buf)
  end.

Definition build (b : OHLK_Builder) : fresult (list Z) :=
  let num_entries := length (b_entries b) in
  let data_start := HEADER_SIZE + num_entries * ENTRY_SIZE in
  let '(entries, buf) := place (b_entries b) (b_sections b) (Z.of_nat data_start)
                           (replicate data_start 0%Z) in
  let header := set_sizes (b_header b) (u32w (Z.of_nat data_start)) (Z.of_nat (length buf)) in
  let buf1 := put_entries 0 entries (put 0 (header_to_bytes header) buf) in
  let buf2 := put 30 (replicate 4 0%Z) buf1 in
  Ok (put 30 (le 4 (crc32_ieee buf2)) buf2).

(** ** Parser *)
Record OHLK_Parser := mkParser { p_data : list Z; p_header : OHLK_Header }.

(** The bytes the parser feeds its checksum: the first [limit] ones, with
    zeros for those of the checksum field. *)
Definition checked_bytes (data : list Z) (limit : nat) : list Z :=
  imap (fun i b => if (30 <=? i) && (i <? 34) then 0%Z else b) (take limit data).

Definition parser_new (data : list Z) : fresult OHLK_Parser :=
  if length data <? HEADER_SIZE then Err BufferTooSmall
  else
    match header_from_bytes data with
    | Err e => Err e
    | Ok header =>
        if (Z.of_nat (length data) <? h_file_size header)%Z then Err BufferTooSmall
        else
          let calculated :=
            if 32 <=? length data
            then crc32_ieee (checked_bytes data (Z.to_nat (h_file_size header))) else 0%Z in
          if negb (h_checksum header =? calculated)%Z
          then Err (ChecksumMismatch (h_checksum header) calculated)
          else Ok (mkParser data header)
    end.

Definition get_entry (p : OHLK_Parser) (index : Z) : fresult OHLK_Entry :=
  if (h_header_count (p_header p) <=? index)%Z then Err InvalidEntryIndex
  else
    let start := Z.to_nat (h_header_offset (p_header p)) + Z.to_nat index * ENTRY_SIZE in
    let stop := start + ENTRY_SIZE in
    if length (p_data p) <? stop then Err BufferTooSmall
    else entry_from_bytes (take ENTRY_SIZE (drop start (p_data p))).

(** The end of the range wraps at 64 bits: a range that ends before it
    begins panics. *)
Definition get_segment_data (p : OHLK_Parser) (e : OHLK_Entry) : option (fresult (list Z)) :=
  let start := e_file_offset e in
  let stop := u64w (start + e_file_size e) in
  if (Z.of_nat (length (p_data p)) <? stop)%Z then Some (Err BufferTooSmall)
  else Ok <$> slice (p_data p) (Z.to_nat start) (Z.to_nat stop).

(** [entries()]: the iterator stops at the first entry that cannot be read. *)
Fixpoint entries_from (p : OHLK_Parser) (current : Z) (n : nat) : list OHLK_Entry :=
  match n with
  | 0 => []
  | S n' =>
      match get_entry p current with
      | Ok e => e :: entries_from p (current + 1) n'
      | Err _ => []
      end
  end.

Definition entries (p : OHLK_Parser) : list OHLK_Entry :=
  entries_from p 0 (Z.to_nat (h_header_count (p_header p))).

(** ** Lemmas *)
Definition le_range (n : nat) (v : Z) : Prop := (0 <= v < 2 ^ (8 * Z.of_nat n))%Z.

(** Fields within their widths. *)
Record header_ranges (h : OHLK_Header) : Prop := {
  hr_magic : le_range 4 (h_magic h);
  hr_major : le_range 2 (h_version_major h);
  hr_minor : le_range 2 (h_version_minor h);
  hr_endian : is_byte (h_endian h);
  hr_arch : is_byte (h_arch h);
  hr_file_type : le_range 2 (h_file_type h);
  hr_count : le_range 2 (h_header_count h);
  hr_offset : le_range 4 (h_header_offset h);
  hr_data_offset : le_range 4 (h_data_offset h);
  hr_file_size : le_range 8 (h_file_size h);
  hr_checksum : le_range 4 (h_checksum h);
  hr_flags : le_range 4 (h_flags h);
  hr_entry_point : le_range 8 (h_entry_point h);
  hr_reserved_len : length (h_reserved h) = 18;
  hr_reserved_bytes : Forall is_byte (h_reserved h)
}.

Record entry_ranges (e : OHLK_Entry) : Prop := {
  er_ty : le_range 4 (e_ty e);
  er_flags : le_range 4 (e_flags e);
  er_file_offset : le_range 8 (e_file_offset e);
  er_virtual_address : le_range 8 (e_virtual_address e);
  er_file_size : le_range 8 (e_file_size e);
  er_mem_size : le_range 8 (e_mem_size e);
  er_alignment : le_range 8 (e_alignment e);
  er_link : le_range 4 (e_link e);
  er_info : le_range 4 (e_info e);
  er_name_offset : le_range 4 (e_name_offset e)
}.

Definition flat (l : list (nat * list Z)) : list Z := concat (map snd l).

Lemma header_bytes_flat h :
  length (h_reserved h) = 18 -> header_to_bytes h = flat (header_fields h).
Proof.
  intros Hr. unfold header_to_bytes.
  rewrite <- (app_nil_l (replicate _ _)), (puts_fill _ 0); fold (flat (header_fields h)).
  - replace (HEADER_SIZE - length (flat (header_fields h))) with 0; [by rewrite app_nil_r|].
    unfold flat, header_fields. cbn [map snd concat]. rewrite !length_app, !length_le, Hr. unfold HEADER_SIZE. cbn. lia.
  - repeat split.
  - done.
  - unfold flat, header_fields. cbn [map snd concat]. rewrite !length_app, !length_le, Hr. unfold HEADER_SIZE. cbn. lia.
Qed.

Lemma entry_bytes_flat e : entry_to_bytes e = flat (entry_fields e).
Proof.
  unfold entry_to_bytes. rewrite <- (app_nil_l (replicate _ _)), (puts_fill _ 0); try done.
Qed.

Lemma length_header_bytes h : length (header_to_bytes h) = 64.
Proof. unfold header_to_bytes. by rewrite length_puts, length_replicate. Qed.

Lemma length_entry_bytes e : length (entry_to_bytes e) = 60.
Proof. unfold entry_to_bytes. by rewrite length_puts, length_replicate. Qed.

Lemma unle_byte b : is_byte b -> unle [b] = b.
Proof. intros Hb. rewrite unle_cons by done. cbn. lia. Qed.

Lemma header_print_parse h rest :
  header_ranges h -> h_magic h = HEADER_MAGIC -> h_version_major h = 1%Z ->
  header_from_bytes (header_to_bytes h ++ rest) = Ok h.
Proof.
  intros [] Hm Hv. unfold header_from_bytes.
  rewrite length_app, length_header_bytes, (proj2 (Nat.ltb_ge _ _)) by (unfold HEADER_SIZE; lia).
  rewrite header_bytes_flat by done. unfold flat, header_fields. cbn [map snd concat].
  rewrite <- !app_assoc. read_field. rewrite !unle_le by done. rewrite !unle_byte by done.
  assert (Ht : forall l : list Z, take 18 (drop 46
    (le 4 (h_magic h) ++ le 2 (h_version_major h) ++ le 2 (h_version_minor h) ++ [h_endian h] ++
     [h_arch h] ++ le 2 (h_file_type h) ++ le 2 (h_header_count h) ++ le 4 (h_header_offset h) ++
     le 4 (h_data_offset h) ++ le 8 (h_file_size h) ++ le 4 (h_checksum h) ++ le 4 (h_flags h) ++
     le 8 (h_entry_point h) ++ h_reserved h ++ l)) = h_reserved h).
  { intros l. cbn -[byte_of]. rewrite drop_0. by apply take_app_length'. }
  rewrite Ht, Hm, Hv, Z.eqb_refl. cbn [negb Z.eqb Pos.eqb]. destruct h. cbn in *. by subst.
Qed.

Lemma entry_print_parse e rest :
  entry_ranges e -> entry_from_bytes (entry_to_bytes e ++ rest) = Ok e.
Proof.
  intros []. unfold entry_from_bytes.
  rewrite length_app, length_entry_bytes, (proj2 (Nat.ltb_ge _ _)) by (unfold ENTRY_SIZE; lia).
  rewrite entry_bytes_flat. unfold flat, entry_fields. cbn [map snd concat].
  rewrite <- !app_assoc. read_field. rewrite !unle_le by done. by destruct e.
Qed.

(** A field printed again is what was read. *)
Lemma le_rd bs off n :
  Forall is_byte bs -> off + n <= length bs -> le n (rd bs off n) = take n (drop off bs).
Proof.
  intros Hb Hl. unfold rd.
  rewrite <- (le_unle (take n (drop off bs))) at 2 by (by apply Forall_take, Forall_drop).
  f_equal. rewrite length_take, length_drop. lia.
Qed.

Lemma rd_range bs off n : Forall is_byte bs -> le_range n (rd bs off n).
Proof.
  intros Hb. unfold le_range, rd.
  pose proof (unle_range (take n (drop off bs)) ltac:(by apply Forall_take, Forall_drop)) as Hr.
  rewrite length_take, length_drop in Hr.
  assert (2 ^ (8 * Z.of_nat (Nat.min n (length bs - off))) <= 2 ^ (8 * Z.of_nat n))%Z
    by (apply Z.pow_le_mono_r; lia). lia.
Qed.

Lemma rd_byte bs off :
  Forall is_byte bs -> off < length bs -> [rd bs off 1] = take 1 (drop off bs) /\ is_byte (rd bs off 1).
Proof.
  intros Hb Hl. destruct (drop off bs) as [|b r] eqn:Hd.
  - apply (f_equal length) in Hd. rewrite length_drop in Hd. cbn in Hd. lia.
  - assert (is_byte b).
    { pose proof (Forall_drop is_byte off bs Hb) as H. rewrite Hd in H. by apply Forall_cons in H as []. }
    unfold rd. rewrite Hd. cbn [take]. rewrite take_0, unle_byte by done. done.
Qed.

Lemma cons_app_one {A} (x : A) l : x :: l = [x] ++ l.
Proof. done. Qed.

Lemma chunk_join {A} (l : list A) a b n m :
  b = a + n -> take n (drop a l) ++ take m (drop b l) = take (n + m) (drop a l).
Proof. intros ->. by rewrite <- drop_drop, take_take_drop. Qed.

(** Joins the adjacent pieces of a list, from the last to the first. *)
Ltac merge_chunks :=
  repeat rewrite chunk_join by reflexivity; cbn [Nat.add].

Lemma header_parse_print bs h :
  Forall is_byte bs -> header_from_bytes bs = Ok h ->
  header_ranges h /\ h_magic h = HEADER_MAGIC /\ h_version_major h = 1%Z /\
  header_to_bytes h = take 64 bs.
Proof.
  intros Hb. unfold header_from_bytes. case_bools; try done. reflect. intros [= <-].
  unfold HEADER_SIZE in *.
  assert (length (take 18 (drop 46 bs)) = 18) by (rewrite length_take, length_drop; lia).
  split_and!; [|done..|].
  - constructor; cbn; try (by apply rd_range); try (by apply rd_byte; [|lia]); [done|].
    by apply Forall_take, Forall_drop.
  - rewrite header_bytes_flat by done. unfold flat, header_fields. cbn -[le rd take drop].
    rewrite !le_rd by (done || lia).
    rewrite (cons_app_one (rd bs 8 1)), (cons_app_one (rd bs 9 1)).
    rewrite (proj1 (rd_byte bs 8 Hb ltac:(lia))), (proj1 (rd_byte bs 9 Hb ltac:(lia))).
    rewrite app_nil_r. merge_chunks. by rewrite drop_0.
Qed.

Lemma entry_parse_print bs e :
  Forall is_byte bs -> entry_from_bytes bs = Ok e ->
  entry_ranges e /\ entry_to_bytes e = take 60 bs.
Proof.
  intros Hb. unfold entry_from_bytes. case_bools; try done. reflect. intros [= <-].
  unfold ENTRY_SIZE in *. split.
  - by constructor; cbn; apply rd_range.
  - rewrite entry_bytes_flat. unfold flat, entry_fields. cbn -[le rd take drop].
    rewrite !le_rd by (done || lia). rewrite app_nil_r. merge_chunks. by rewrite drop_0.
Qed.

(** *** Placement *)
Lemma land_not x m :
  (0 <= x < 2 ^ 64)%Z -> (0 <= m < 2 ^ 64)%Z ->
  Z.land x (Z.lxor m (2 ^ 64 - 1)) = (x - Z.land x m)%Z.
Proof.
  intros Hx Hm.
  assert (Hd : Z.land x (Z.lxor m (2 ^ 64 - 1)) = Z.ldiff x m).
  { apply Z.bits_inj'. intros n Hn. change (2 ^ 64 - 1)%Z with (Z.ones 64).
    rewrite Z.land_spec, Z.ldiff_spec, Z.lxor_spec. destruct (Z.ltb_spec n 64).
    - rewrite Z.ones_spec_low by lia. by destruct (Z.testbit m n).
    - rewrite <- (Z.mod_small x (2 ^ 64)) by done. by rewrite Z.mod_pow2_bits_high by lia. }
  rewrite Hd. rewrite <- (Z.lor_ldiff_and x m) at 2.
  assert (H0 : Z.land (Z.ldiff x m) (Z.land x m) = 0%Z).
  { apply Z.bits_inj'. intros n Hn. rewrite !Z.land_spec, Z.ldiff_spec, Z.bits_0.
    by destruct (Z.testbit x n), (Z.testbit m n). }
  rewrite <- Z.lxor_lor, <- Z.add_nocarry_lxor by done. lia.
Qed.

(** Room taken by a segment at most. *)
Definition seg_room (alignment : Z) (d : list Z) : Z := (Z.max alignment 16 + Z.of_nat (length d))%Z.

Lemma align_offset_spec c al :
  (0 <= c)%Z -> (0 <= al)%Z -> (c + Z.max al 16 < 2 ^ 64)%Z ->
  (c <= align_offset c al <= c + Z.max al 16)%Z /\
  (forall k, (0 <= k)%Z -> al = (2 ^ k)%Z -> (align_offset c al mod al = 0)%Z).
Proof.
  intros Hc Hal Hm. unfold align_offset.
  set (a := if (0 <? al)%Z then al else 16%Z).
  assert (Ha : (1 <= a <= Z.max al 16)%Z) by (unfold a; destruct (Z.ltb_spec 0 al); lia).
  rewrite (u64w_small (c + a)), u64w_small, land_not by lia.
  pose proof (land_le_r (c + a - 1) (a - 1) ltac:(lia)). split; [lia|].
  intros k Hk ->. assert (Ha2 : a = (2 ^ k)%Z).
  { unfold a. rewrite (proj2 (Z.ltb_lt _ _)) by lia. done. }
  rewrite Ha2. replace (2 ^ k - 1)%Z with (Z.ones k) by (rewrite Z.ones_equiv; lia).
  rewrite Z.land_ones by lia. rewrite Zminus_mod_idemp_r, Z.sub_diag. apply Z.mod_0_l. lia.
Qed.

(** What the placement loop leaves: each entry has an offset, aligned to
    powers of two, at which the final buffer holds its data. *)
Definition placed (lo : Z) (buf : list Z) (e : OHLK_Entry) (d : list Z) (e' : OHLK_Entry) : Prop :=
  exists off, e' = set_file_offset e off /\ (lo <= off)%Z /\
    (off + Z.of_nat (length d) <= Z.of_nat (length buf))%Z /\
    take (length d) (drop (Z.to_nat off) buf) = d /\
    (forall k, (0 <= k)%Z -> e_alignment e = (2 ^ k)%Z -> (off mod e_alignment e = 0)%Z).

Definition rooms (es : list OHLK_Entry) (ds : list (list Z)) : Z :=
  foldr Z.add 0%Z (zip_with (fun e d => seg_room (e_alignment e) d) es ds).

Lemma rooms_nonneg es ds : Forall (fun e => (0 <= e_alignment e)%Z) es -> (0 <= rooms es ds)%Z.
Proof.
  intros H. revert ds. induction H as [|e es He _ IH]; intros [|d ds]; try done.
  unfold rooms in *. cbn [zip_with foldr]. specialize (IH ds). cbn beta in *.
  assert (0 <= seg_room (e_alignment e) d)%Z by (unfold seg_room; lia). lia.
Qed.

Lemma place_spec es ds buf :
  length es = length ds -> Forall (fun e => (0 <= e_alignment e)%Z) es ->
  (Z.of_nat (length buf) + rooms es ds < 2 ^ 64)%Z ->
  Forall (Forall is_byte) ds ->
  exists es' body, place es ds (Z.of_nat (length buf)) buf = (es', buf ++ body) /\
    Forall is_byte body /\ (Z.of_nat (length (buf ++ body)) <= Z.of_nat (length buf) + rooms es ds)%Z /\
    length es' = length es /\
    (forall i e d, es !! i = Some e -> ds !! i = Some d ->
       exists e', es' !! i = Some e' /\ placed (Z.of_nat (length buf)) (buf ++ body) e d e').
Proof.
  intros Hl Hal. revert ds buf Hl. induction Hal as [|e es He Hes IH]; intros [|d ds] buf Hl Hr Hb;
    try done.
  { exists [], []. rewrite app_nil_r. split_and!; try done. unfold rooms. cbn. lia. }
  apply Forall_cons in Hb as [Hd Hb]. cbn [place].
  assert (Hrr : rooms (e :: es) (d :: ds) = (seg_room (e_alignment e) d + rooms es ds)%Z) by done.
  rewrite Hrr in *. pose proof (rooms_nonneg es ds Hes). unfold seg_room in *.
  destruct (align_offset_spec (Z.of_nat (length buf)) (e_alignment e)) as [Hao Halign]; [lia..|].
  set (off := align_offset _ _) in *.
  set (pad := replicate (Z.to_nat (off - Z.of_nat (length buf))) 0%Z).
  assert (Hpad : (if (Z.of_nat (length buf) <? off)%Z then buf ++ pad else buf) = buf ++ pad).
  { destruct (Z.ltb_spec (Z.of_nat (length buf)) off); [done|]. unfold pad.
    replace (Z.to_nat _) with 0 by lia. by rewrite app_nil_r. }
  rewrite Hpad.
  assert (Hoff : off = Z.of_nat (length (buf ++ pad)))
    by (unfold pad; rewrite length_app, length_replicate; lia).
  rewrite u64w_small by lia.
  replace (off + Z.of_nat (length d))%Z with (Z.of_nat (length ((buf ++ pad) ++ d)))
    by (rewrite (length_app _ d); lia).
  destruct (IH ds ((buf ++ pad) ++ d)) as (es' & body & Hp & Hbody & Hlen & Hles & Hat);
    [cbn in Hl; lia|rewrite (length_app _ d); lia|done|].
  rewrite Hp. rewrite (length_app (buf ++ pad) d) in Hlen.
  exists (set_file_offset e off :: es'), (pad ++ d ++ body).
  rewrite <- !app_assoc in *.
  split_and!; [done|..].
  - apply Forall_app. split; [|by apply Forall_app]. apply Forall_replicate. unfold is_byte. lia.
  - lia.
  - cbn. by rewrite Hles.
  - intros [|i] e0 d0 He0 Hd0.
    + injection He0 as <-. injection Hd0 as <-. eexists. split; [done|].
      exists off. split_and!; [done|lia| | |done].
      * rewrite !length_app in *. lia.
      * rewrite Hoff, Nat2Z.id, app_assoc, drop_app_length. by apply take_app_length.
    + destruct (Hat i e0 d0 He0 Hd0) as (e' & He' & off' & Ho1 & Ho2 & Ho3).
      exists e'. split; [done|]. exists off'. split_and!; [done| |apply Ho3..].
      rewrite !length_app in *. lia.
Qed.

Lemma put_entries_flat es i pre m post :
  length pre = HEADER_SIZE + i * ENTRY_SIZE -> m = length es * ENTRY_SIZE ->
  put_entries i es (pre ++ replicate m 0%Z ++ post) = pre ++ concat (map entry_to_bytes es) ++ post.
Proof.
  revert i pre m. induction es as [|e es IH]; intros i pre m Hp ->; [done|].
  cbn [put_entries length Nat.mul map concat]. rewrite <- Hp. rewrite replicate_add, <- app_assoc.
  rewrite put_app by (by rewrite length_replicate, length_entry_bytes).
  rewrite (app_assoc pre), (IH (S i)); [by rewrite <- !app_assoc| |done].
  rewrite length_app, Hp, length_entry_bytes. unfold ENTRY_SIZE. lia.
Qed.

Lemma concat_entries_length es : length (concat (map entry_to_bytes es)) = length es * ENTRY_SIZE.
Proof.
  induction es as [|e es IH]; [done|]. cbn [map concat length Nat.mul].
  by rewrite length_app, length_entry_bytes, IH.
Qed.

(** The bytes of entry [i] in the table. *)
Lemma concat_entries_at es i e rest :
  es !! i = Some e ->
  exists tail, drop (i * ENTRY_SIZE) (concat (map entry_to_bytes es) ++ rest) = entry_to_bytes e ++ tail.
Proof.
  revert i. induction es as [|e0 es IH]; intros [|i] Hi; try done.
  - injection Hi as ->. cbn [map concat Nat.mul]. rewrite drop_0, <- app_assoc. by eexists.
  - cbn [map concat Nat.mul]. rewrite <- app_assoc, drop_app_ge by (rewrite length_entry_bytes; unfold ENTRY_SIZE; lia).
    rewrite length_entry_bytes. replace (ENTRY_SIZE + i * ENTRY_SIZE - 60) with (i * ENTRY_SIZE)
      by (unfold ENTRY_SIZE; lia). by apply IH.
Qed.

Definition set_checksum (h : OHLK_Header) (c : Z) : OHLK_Header :=
  mkHeader (h_magic h) (h_version_major h) (h_version_minor h) (h_endian h) (h_arch h)
    (h_file_type h) (h_header_count h) (h_header_offset h) (h_data_offset h) (h_file_size h) c
    (h_flags h) (h_entry_point h) (h_reserved h).

Lemma put_checksum h c rest :
  length (h_reserved h) = 18 ->
  put 30 (le 4 c) (header_to_bytes h ++ rest) = header_to_bytes (set_checksum h c) ++ rest.
Proof.
  intros Hr. rewrite !header_bytes_flat by done.
  set (hd := flat (take 10 (header_fields h))). set (tl := flat (drop 11 (header_fields h)) ++ rest).
  assert (H1 : flat (header_fields h) ++ rest = hd ++ le 4 (h_checksum h) ++ tl).
  { unfold hd, tl, flat, header_fields. cbn [take drop map snd concat]. by rewrite <- !app_assoc. }
  assert (H2 : flat (header_fields (set_checksum h c)) ++ rest = hd ++ le 4 c ++ tl).
  { unfold hd, tl, flat, header_fields. cbn [take drop map snd concat]. by rewrite <- !app_assoc. }
  rewrite H1, H2. change 30 with (length hd) at 1. by rewrite put_app.
Qed.

(** The parser's zeroed bytes of a file are the ones the builder summed. *)
Lemma checked_bytes_put bs data :
  length bs = 4 -> 34 <= length data ->
  checked_bytes (put 30 bs data) (length data) = put 30 (replicate 4 0%Z) data.
Proof.
  intros Hb Hl. unfold checked_bytes. rewrite take_ge by (by rewrite length_put).
  apply list_eq. intros i. rewrite list_lookup_imap.
  destruct (decide (30 <= i < 34)) as [Hi|Hi].
  - rewrite !put_in by (rewrite ?length_replicate; lia).
    rewrite (proj2 (lookup_replicate _ _ _ _)) by (split; [done|lia]).
    destruct (lookup_lt_is_Some_2 bs (i - 30)) as [b ->]; [lia|].
    assert (Hd : (30 <=? i) && (i <? 34) = true)
      by (apply andb_true_iff; rewrite Nat.leb_le, Nat.ltb_lt; lia).
    cbn [fmap option_fmap option_map]. by rewrite Hd.
  - rewrite !put_out by (rewrite ?length_replicate; lia).
    assert (Hd : (30 <=? i) && (i <? 34) = false)
      by (apply andb_false_iff; rewrite Nat.leb_gt, Nat.ltb_ge; lia).
    rewrite Hd. by destruct (data !! i).
Qed.

(** *** Whole files *)

(** The arguments of one [add_segment]. *)
Record Segment := mkSegment {
  sg_ty : Z;
  sg_flags : Z;
  sg_data : list Z;
  sg_mem_size : Z;
  sg_virtual_address : Z;
  sg_alignment : Z
}.

Definition add_seg (b : OHLK_Builder) (s : Segment) : OHLK_Builder :=
  (add_segment b (sg_ty s) (sg_flags s) (sg_data s) (sg_mem_size s) (sg_virtual_address s)
     (sg_alignment s)).2.

Definition add_segments (b : OHLK_Builder) (segs : list Segment) : OHLK_Builder := foldl add_seg b segs.

Definition seg_entry (s : Segment) : OHLK_Entry :=
  mkOhlkEntry (sg_ty s) (sg_flags s) 0 (sg_virtual_address s) (Z.of_nat (length (sg_data s)))
    (sg_mem_size s) (sg_alignment s) 0 0 0.

Record seg_ok (s : Segment) : Prop := {
  so_ty : le_range 4 (sg_ty s);
  so_flags : le_range 4 (sg_flags s);
  so_data : Forall is_byte (sg_data s);
  so_mem_size : le_range 8 (sg_mem_size s);
  so_virtual_address : le_range 8 (sg_virtual_address s);
  so_alignment : le_range 8 (sg_alignment s)
}.

(** Fewer than 2^16 segments, and the file below 2^64 bytes with all its
    padding. *)
Definition fits (segs : list Segment) : Prop :=
  (Z.of_nat (length segs) < 2 ^ 16)%Z /\
  (Z.of_nat (HEADER_SIZE + length segs * ENTRY_SIZE) +
   rooms (map seg_entry segs) (map sg_data segs) < 2 ^ 64)%Z.

Lemma add_segments_shape arch ft flags entry segs :
  add_segments (builder_new arch ft flags entry) segs =
  mkBuilder (set_header_count (b_header (builder_new arch ft flags entry))
               (u16w (Z.of_nat (length segs)))) (map seg_entry segs) (map sg_data segs).
Proof.
  induction segs as [|s segs IH] using rev_ind; [done|]. unfold add_segments in *.
  rewrite foldl_app, IH, !map_app. cbn [foldl add_seg add_segment snd b_header b_entries b_sections].
  rewrite !length_app, length_map. done.
Qed.

Definition final_header (arch ft flags entry : Z) (n : nat) (size crc : Z) : OHLK_Header :=
  mkHeader HEADER_MAGIC 1 1 0 arch ft (Z.of_nat n) HEADER_OFFSET
    (Z.of_nat (HEADER_SIZE + n * ENTRY_SIZE)) size crc flags entry (replicate 18 0%Z).

(** The file the builder makes: header, entries, data, the checksum over the
    whole with zeros for itself. *)
Lemma build_layout arch ft flags entry segs :
  Forall seg_ok segs -> fits segs ->
  exists es' body, let ds := HEADER_SIZE + length segs * ENTRY_SIZE in
    let size := ds + length body in
    let file c := header_to_bytes (final_header arch ft flags entry (length segs) (Z.of_nat size) c) ++
                  concat (map entry_to_bytes es') ++ body in
    build (add_segments (builder_new arch ft flags entry) segs) = Ok (file (crc32_ieee (file 0%Z))) /\
    (Z.of_nat size < 2 ^ 64)%Z /\ Forall is_byte body /\ length es' = length segs /\
    (forall i s, segs !! i = Some s ->
       exists e', es' !! i = Some e' /\
         placed (Z.of_nat ds) (replicate ds 0%Z ++ body) (seg_entry s) (sg_data s) e').
Proof.
  intros Hok [Hn Hfit]. rewrite add_segments_shape. unfold build.
  cbn [b_header b_entries b_sections]. rewrite length_map.
  set (ds := HEADER_SIZE + length segs * ENTRY_SIZE) in *.
  destruct (place_spec (map seg_entry segs) (map sg_data segs) (replicate ds 0%Z))
    as (es' & body & Hp & Hbody & Hlen & Hles & Hat).
  - by rewrite !length_map.
  - apply Forall_map. eapply Forall_impl; [exact Hok|]. intros s []. cbn. unfold le_range in *. lia.
  - by rewrite length_replicate.
  - apply Forall_map. eapply Forall_impl; [exact Hok|]. by intros s [].
  - rewrite length_replicate in *. rewrite Hp. rewrite length_app, length_replicate in *.
    exists es', body. rewrite length_map in Hles. cbn zeta. split_and!; [|lia|done|done|].
    + assert (Hds : ds = 64 + length es' * ENTRY_SIZE) by (unfold ds, HEADER_SIZE; lia).
      rewrite u32w_small by (unfold ds, HEADER_SIZE, ENTRY_SIZE; lia).
      assert (Hc : u16w (Z.of_nat (length segs)) = Z.of_nat (length segs))
        by (unfold u16w; apply Z.mod_small; lia).
      rewrite Hc.
      change (set_sizes _ _ _) with
        (final_header arch ft flags entry (length segs) (Z.of_nat (ds + length body)) 0).
      set (h := final_header arch ft flags entry (length segs) (Z.of_nat (ds + length body)) 0).
      assert (H1 : put 0 (header_to_bytes h) (replicate ds 0%Z ++ body) =
                   header_to_bytes h ++ replicate (length es' * ENTRY_SIZE) 0%Z ++ body).
      { rewrite Hds, replicate_add, <- app_assoc. apply (put_app [] (header_to_bytes h) (replicate 64 0%Z)).
        by rewrite length_header_bytes. }
      rewrite H1, put_entries_flat by (done || by rewrite length_header_bytes).
      change (replicate 4 0%Z) with (le 4 0). rewrite put_checksum by done.
      change (set_checksum h 0) with h. by rewrite put_checksum.
    + intros i s Hs. destruct (Hat i (seg_entry s) (sg_data s)) as (e' & He' & Hpl);
        [by rewrite list_lookup_fmap, Hs..|]. by exists e'.
Qed.

Lemma placed_ranges s lo buf e' :
  seg_ok s -> (0 <= lo)%Z -> (Z.of_nat (length buf) < 2 ^ 64)%Z ->
  placed lo buf (seg_entry s) (sg_data s) e' -> entry_ranges e'.
Proof.
  intros [] Hlo Hb (off & -> & Hoff & Hend & _).
  constructor; cbn [set_file_offset seg_entry e_ty e_flags e_file_offset e_virtual_address
    e_file_size e_mem_size e_alignment e_link e_info e_name_offset]; try done;
    unfold le_range; change (8 * Z.of_nat 8)%Z with 64%Z; try lia; try done.
Qed.

Lemma get_entry_ok p es n rest i e :
  h_header_offset (p_header p) = HEADER_OFFSET -> h_header_count (p_header p) = Z.of_nat n ->
  (exists h, p_data p = header_to_bytes h ++ concat (map entry_to_bytes es) ++ rest) ->
  length es = n -> es !! i = Some e -> entry_ranges e -> get_entry p (Z.of_nat i) = Ok e.
Proof.
  intros Ho Hc [h Hd] Hl Hi He. pose proof (lookup_lt_Some _ _ _ Hi). unfold get_entry.
  rewrite Hc, Ho, (proj2 (Z.leb_gt _ _)) by lia. rewrite Nat2Z.id.
  change (Z.to_nat HEADER_OFFSET) with 64. rewrite Hd.
  assert (Hlen : 64 + i * ENTRY_SIZE + ENTRY_SIZE <= 64 + (length es * ENTRY_SIZE + length rest))
    by (unfold ENTRY_SIZE; lia).
  rewrite !length_app, length_header_bytes, concat_entries_length, (proj2 (Nat.ltb_ge _ _)) by lia.
  rewrite drop_app_ge by (rewrite length_header_bytes; lia). rewrite length_header_bytes.
  replace (64 + i * ENTRY_SIZE - 64) with (i * ENTRY_SIZE) by lia.
  destruct (concat_entries_at es i e rest Hi) as [tail ->].
  rewrite take_app_length' by (by rewrite length_entry_bytes).
  rewrite <- (app_nil_r (entry_to_bytes e)). by apply entry_print_parse.
Qed.

Lemma get_segment_data_ok p pre body e d lo :
  p_data p = pre ++ body -> lo = length pre -> (Z.of_nat (length (p_data p)) < 2 ^ 64)%Z ->
  placed (Z.of_nat lo) (replicate lo 0%Z ++ body) e d (set_file_offset e (e_file_offset e)) ->
  e_file_size e = Z.of_nat (length d) -> get_segment_data p e = Some (Ok d).
Proof.
  intros Hd -> Hb (off & Heq & Hlo & Hend & Htake & _) Hsz.
  apply (f_equal e_file_offset) in Heq. cbn [set_file_offset e_file_offset] in Heq.
  rewrite length_app, length_replicate in Hend.
  unfold get_segment_data. rewrite Hsz, Heq, Hd in *. rewrite length_app in *.
  rewrite u64w_small, (proj2 (Z.ltb_ge _ _)) by lia.
  unfold slice. rewrite decide_True by (rewrite length_app; lia).
  cbn [fmap option_fmap option_map]. do 2 f_equal.
  rewrite drop_app_ge in Htake by (rewrite length_replicate; lia).
  rewrite drop_app_ge by lia. rewrite length_replicate in Htake.
  replace (Z.to_nat (off + Z.of_nat (length d)) - Z.to_nat off) with (length d) by lia. done.
Qed.

Lemma entries_from_ok p es :
  (forall i e, es !! i = Some e -> get_entry p (Z.of_nat i) = Ok e) ->
  forall i n, i + n = length es -> entries_from p (Z.of_nat i) n = drop i es.
Proof.
  intros Hg i n. revert i. induction n as [|n IH]; intros i Hi.
  - by rewrite drop_ge by lia.
  - destruct (lookup_lt_is_Some_2 es i) as [e He]; [lia|]. cbn [entries_from].
    rewrite (Hg i e He), (drop_S _ _ _ He). f_equal.
    replace (Z.of_nat i + 1)%Z with (Z.of_nat (S i)) by lia. apply IH. lia.
Qed.

Lemma final_header_ranges arch ft flags entry n size crc :
  is_byte arch -> le_range 2 ft -> le_range 4 flags -> le_range 8 entry ->
  (Z.of_nat n < 2 ^ 16)%Z -> (Z.of_nat size < 2 ^ 64)%Z -> word32 crc ->
  header_ranges (final_header arch ft flags entry n (Z.of_nat size) crc).
Proof.
  intros ?????? Hc. unfold word32 in Hc.
  constructor; cbn [final_header h_magic h_version_major h_version_minor h_endian h_arch h_file_type
    h_header_count h_header_offset h_data_offset h_file_size h_checksum h_flags h_entry_point
    h_reserved]; try done; unfold le_range, is_byte, HEADER_SIZE, ENTRY_SIZE;
    change (8 * Z.of_nat 2)%Z with 16%Z; change (8 * Z.of_nat 4)%Z with 32%Z;
    change (8 * Z.of_nat 8)%Z with 64%Z; try lia.
  apply Forall_replicate. unfold is_byte. lia.
Qed.

Lemma header_bytes_bytes h : header_ranges h -> Forall is_byte (header_to_bytes h).
Proof.
  intros []. rewrite header_bytes_flat by done. unfold flat, header_fields. cbn [map snd concat].
  repeat (apply Forall_app; split);
    first [apply le_bytes|done|by apply Forall_singleton|constructor].
Qed.

Lemma entries_bytes es : Forall is_byte (concat (map entry_to_bytes es)).
Proof.
  induction es as [|e es IH]; [constructor|]. cbn [map concat]. apply Forall_app. split; [|done].
  rewrite entry_bytes_flat. unfold flat, entry_fields. cbn [map snd concat].
  repeat (apply Forall_app; split); first [apply le_bytes|constructor].
Qed.

(** *** A file laid out by the builder

    [hd c] is its header with checksum [c], [tl] the rest. *)
Section layout.
Context (arch ft flags entry : Z) (segs : list Segment) (es' : list OHLK_Entry) (body : list Z).
Context (Harch : is_byte arch) (Hft : le_range 2 ft) (Hfl : le_range 4 flags)
  (Hen : le_range 8 entry) (Hok : Forall seg_ok segs)
  (Hn : (Z.of_nat (length segs) < 2 ^ 16)%Z) (Hbody : Forall is_byte body)
  (Hles : length es' = length segs).

Let ds := HEADER_SIZE + length segs * ENTRY_SIZE.
Let hd c := final_header arch ft flags entry (length segs) (Z.of_nat (ds + length body)) c.
Let tl := concat (map entry_to_bytes es') ++ body.
Let file c := header_to_bytes (hd c) ++ tl.
Let crc := crc32_ieee (file 0%Z).
Let parsed := mkParser (file crc) (hd crc).

Context (Hsz : (Z.of_nat (ds + length body) < 2 ^ 64)%Z)
  (Hat : forall i s, segs !! i = Some s ->
     exists e', es' !! i = Some e' /\
       placed (Z.of_nat ds) (replicate ds 0%Z ++ body) (seg_entry s) (sg_data s) e').

Lemma layout_length c : length (file c) = ds + length body.
Proof.
  unfold file, tl, ds, HEADER_SIZE.
  rewrite !length_app, length_header_bytes, concat_entries_length. lia.
Qed.

Lemma layout_crc : word32 crc.
Proof.
  apply crc32_range, Forall_app. split; [by apply header_bytes_bytes, final_header_ranges|].
  by apply Forall_app; split; [apply entries_bytes|].
Qed.

Lemma layout_parses : parser_new (file crc) = Ok parsed.
Proof.
  pose proof layout_crc as Hc. unfold parser_new. rewrite !layout_length.
  rewrite (proj2 (Nat.ltb_ge _ _)) by (unfold ds, HEADER_SIZE; lia).
  unfold file at 1. rewrite header_print_parse by (done || by apply final_header_ranges).
  cbn [hd final_header h_file_size h_checksum]. rewrite Z.ltb_irrefl, Nat2Z.id.
  rewrite (proj2 (Nat.leb_le _ _)) by (unfold ds, HEADER_SIZE; lia).
  assert (Hput : file crc = put 30 (le 4 crc) (file 0%Z)) by (symmetry; by apply put_checksum).
  rewrite Hput at 1. rewrite <- (layout_length 0), checked_bytes_put
    by (done || rewrite layout_length; unfold ds, HEADER_SIZE; lia).
  change (replicate 4 0%Z) with (le 4 0). unfold file at 1. rewrite put_checksum by done.
  change (set_checksum (hd 0%Z) 0) with (hd 0%Z). fold (file 0%Z) crc. by rewrite Z.eqb_refl.
Qed.

Lemma layout_entry i s :
  segs !! i = Some s -> exists off, let e := set_file_offset (seg_entry s) off in
    es' !! i = Some e /\ get_entry parsed (Z.of_nat i) = Ok e /\
    get_segment_data parsed e = Some (Ok (sg_data s)) /\
    (forall k, (0 <= k)%Z -> sg_alignment s = (2 ^ k)%Z -> (off mod sg_alignment s = 0)%Z).
Proof.
  intros Hs. destruct (Hat i s Hs) as (e' & He' & Hpl).
  pose proof (proj1 (Forall_forall _ _) Hok s (list_elem_of_lookup_2 _ _ _ Hs)) as Hso.
  pose proof (placed_ranges s _ _ e' Hso (Nat2Z.is_nonneg _)
    ltac:(rewrite length_app, length_replicate; exact Hsz) Hpl) as Her.
  destruct Hpl as (off & -> & Hrest). exists off. cbn zeta. split_and!; [done|..].
  - apply (get_entry_ok parsed es' (length segs) body); try done. by exists (hd crc).
  - apply (get_segment_data_ok parsed (header_to_bytes (hd crc) ++ concat (map entry_to_bytes es'))
             body _ _ ds).
    + unfold parsed, file, tl. cbn [p_data]. by rewrite app_assoc.
    + rewrite length_app, length_header_bytes, concat_entries_length. unfold ds, HEADER_SIZE. lia.
    + unfold parsed. cbn [p_data]. by rewrite layout_length.
    + exists off. exact (conj eq_refl Hrest).
    + done.
  - apply Hrest.
Qed.

Lemma layout_entries : map (fun e => set_file_offset e 0) (entries parsed) = map seg_entry segs.
Proof.
  unfold entries. change (h_header_count (p_header parsed)) with (Z.of_nat (length segs)).
  rewrite Nat2Z.id. change 0%Z with (Z.of_nat 0) at 2.
  assert (Hseg : forall i e, es' !! i = Some e -> exists s, segs !! i = Some s).
  { intros i e Hi%lookup_lt_Some. apply lookup_lt_is_Some_2. lia. }
  rewrite (entries_from_ok parsed es'); [rewrite drop_0| |by rewrite Hles].
  - apply list_eq. intros i. rewrite !list_lookup_fmap.
    destruct (es' !! i) as [e|] eqn:He.
    + destruct (Hseg i e He) as [s Hs]. destruct (layout_entry i s Hs) as (off & He2 & _).
      rewrite Hs. rewrite He in He2. by injection He2 as ->.
    + apply lookup_ge_None in He. by rewrite (proj2 (lookup_ge_None segs i)) by lia.
  - intros i e He. destruct (Hseg i e He) as [s Hs].
    destruct (layout_entry i s Hs) as (off & He2 & Hg & _). rewrite He in He2. by injection He2 as ->.
Qed.
End layout.

(** A file from the builder, as the parser reads it. *)
Record built_file (arch ft flags entry : Z) (segs : list Segment) (data : list Z) (p : OHLK_Parser) : Prop := {
  bf_build : build (add_segments (builder_new arch ft flags entry) segs) = Ok data;
  bf_parse : parser_new data = Ok p;
  bf_header : h_arch (p_header p) = arch /\ h_file_type (p_header p) = ft /\ h_flags (p_header p) = flags /\
    h_entry_point (p_header p) = entry;
  bf_count : h_header_count (p_header p) = Z.of_nat (length segs);
  bf_entries : map (fun e => set_file_offset e 0) (entries p) = map seg_entry segs;
  bf_segment : forall i s, segs !! i = Some s -> exists off, let e := set_file_offset (seg_entry s) off in
    get_entry p (Z.of_nat i) = Ok e /\ get_segment_data p e = Some (Ok (sg_data s)) /\
    (forall k, (0 <= k)%Z -> sg_alignment s = (2 ^ k)%Z -> (off mod sg_alignment s = 0)%Z)
}.

Lemma build_parses arch ft flags entry segs :
  is_byte arch -> le_range 2 ft -> le_range 4 flags -> le_range 8 entry ->
  Forall seg_ok segs -> fits segs -> exists data p, built_file arch ft flags entry segs data p.
Proof.
  intros Harch Hft Hfl Hen Hok Hfit.
  destruct (build_layout arch ft flags entry segs Hok Hfit)
    as (es' & body & Hb & Hsz & Hbody & Hles & Hat). cbn zeta in *. destruct Hfit as [Hn _].
  eexists _, _. constructor; [exact Hb|by apply layout_parses|done|done|by apply layout_entries|].
  intros i s Hs. edestruct layout_entry as (off & _ & H); [..|exact Hs|]; try done. by exists off.
Qed.

(** ** Properties *)

(** C13. What the builder writes the parser reads: a file built from any
    list of fewer than 2^16 segments is accepted, checksum included, with
    the header values given; its entries are the segments in order, at
    offsets aligned to the segment's alignment when that is a power of two,
    and the data at each entry is the segment's. *)
Theorem build_then_parse arch ft flags entry segs :
  is_byte arch -> le_range 2 ft -> le_range 4 flags -> le_range 8 entry ->
  Forall seg_ok segs -> fits segs ->
  exists data p, build (add_segments (builder_new arch ft flags entry) segs) = Ok data /\
    parser_new data = Ok p /\
    h_arch (p_header p) = arch /\ h_file_type (p_header p) = ft /\ h_flags (p_header p) = flags /\
    h_entry_point (p_header p) = entry /\
    map (fun e => set_file_offset e 0) (entries p) = map seg_entry segs /\
    (forall i s, segs !! i = Some s -> exists off,
       let e := set_file_offset (seg_entry s) off in
       get_entry p (Z.of_nat i) = Ok e /\ get_segment_data p e = Some (Ok (sg_data s)) /\
       (forall k, (0 <= k)%Z -> sg_alignment s = (2 ^ k)%Z -> (off mod sg_alignment s = 0)%Z)) /\
    get_entry p (Z.of_nat (length segs)) = Err InvalidEntryIndex.
Proof.
  intros Harch Hft Hfl Hen Hok Hfit.
  destruct (build_parses arch ft flags entry segs Harch Hft Hfl Hen Hok Hfit)
    as (data & p & [Hb Hp (H1 & H2 & H3 & H4) Hc He Hs]).
  exists data, p. split_and!; try done. unfold get_entry. by rewrite Hc, Z.leb_refl.
Qed.

Lemma rd_insert_high bs i b off n : off + n <= i -> rd (<[i := b]> bs) off n = rd bs off n.
Proof. intros Hi. unfold rd. by rewrite !take_drop_commute, take_insert_ge by lia. Qed.

Lemma header_insert_high bs i b : 64 <= i -> header_from_bytes (<[i := b]> bs) = header_from_bytes bs.
Proof.
  intros Hi. unfold header_from_bytes. rewrite length_insert, !rd_insert_high by lia.
  by rewrite !(take_drop_commute _ 18 46), take_insert_ge by lia.
Qed.

Lemma checked_bytes_insert bs i b n :
  64 <= i -> i < n -> checked_bytes (<[i := b]> bs) n = <[i := b]> (checked_bytes bs n).
Proof.
  intros Hi Hn. unfold checked_bytes. rewrite take_insert_lt by done. apply list_eq. intros j.
  destruct (decide (i = j)) as [<-|Hne].
  - rewrite list_lookup_imap. destruct (decide (i < length (take n bs))) as [Hl|Hl].
    + rewrite !list_lookup_insert_eq by (rewrite ?length_imap; done). cbn [fmap option_fmap option_map].
      by rewrite (proj2 (Nat.ltb_ge i 34)), andb_false_r by lia.
    + rewrite !list_insert_ge, list_lookup_imap by (rewrite ?length_imap; lia). done.
  - by rewrite list_lookup_imap, !list_lookup_insert_ne, list_lookup_imap.
Qed.

Lemma checked_bytes_bytes bs n : Forall is_byte bs -> Forall is_byte (checked_bytes bs n).
Proof.
  intros Hb. apply Forall_lookup. intros i x. unfold checked_bytes. rewrite list_lookup_imap.
  intros (y & Hy & ->)%fmap_Some. case_bools; [unfold is_byte; lia|].
  by apply (proj1 (Forall_lookup _ _) (Forall_take _ n _ Hb) i).
Qed.

(** A file the parser accepts is rejected, with a checksum mismatch,
    once any single byte of its entry table or its data is changed. *)
Theorem corruption_detected data p i b b' :
  Forall is_byte data -> parser_new data = Ok p -> HEADER_SIZE <= i ->
  (Z.of_nat i < h_file_size (p_header p))%Z -> data !! i = Some b -> is_byte b' -> b' <> b ->
  exists c, parser_new (<[i := b']> data) = Err (ChecksumMismatch (h_checksum (p_header p)) c).
Proof.
  unfold HEADER_SIZE. intros Hb Hp Hi Hsz Hat Hb' Hne. unfold parser_new in *.
  rewrite length_insert, header_insert_high by done.
  destruct (length data <? HEADER_SIZE); [done|].
  destruct (header_from_bytes data) as [h|] eqn:Hh; [|done].
  destruct (_ <? h_file_size h)%Z; [done|].
  destruct (32 <=? length data) eqn:H32.
  2: { reflect. pose proof (lookup_lt_Some _ _ _ Hat). lia. }
  destruct (negb _) eqn:Hc in Hp; [done|]. injection Hp as <-. cbn [p_header] in *. reflect.
  rewrite checked_bytes_insert by lia.
  set (l := checked_bytes data (Z.to_nat (h_file_size h))) in *.
  assert (Hl : l !! i = Some b).
  { unfold l, checked_bytes. rewrite list_lookup_imap, lookup_take_lt, Hat by lia.
    cbn [fmap option_fmap option_map]. by rewrite (proj2 (Nat.ltb_ge i 34)), andb_false_r by lia. }
  assert (Hlb : Forall is_byte l) by by apply checked_bytes_bytes.
  rewrite insert_take_drop by (by eapply lookup_lt_Some).
  pose proof (take_drop_middle l i b Hl) as Hsplit. rewrite <- Hsplit in Hlb, Hc.
  pose proof (crc32_one_byte _ _ b b' Hlb Hb' ltac:(done)) as Hdiff. rewrite <- Hc in Hdiff.
  rewrite (proj2 (Z.eqb_neq _ _)) by done. by eexists.
Qed.

(** Headers and entries and their byte layouts correspond one to one:
    fields within their widths are read back from what is printed, whatever
    follows, and any bytes that read as a header or an entry are what that
    header or entry prints to. *)
Theorem records_roundtrip :
  (forall h rest, header_ranges h -> h_magic h = HEADER_MAGIC -> h_version_major h = 1%Z ->
     header_from_bytes (header_to_bytes h ++ rest) = Ok h) /\
  (forall bs h, Forall is_byte bs -> header_from_bytes bs = Ok h -> header_to_bytes h = take 64 bs) /\
  (forall e rest, entry_ranges e -> entry_from_bytes (entry_to_bytes e ++ rest) = Ok e) /\
  (forall bs e, Forall is_byte bs -> entry_from_bytes bs = Ok e -> entry_to_bytes e = take 60 bs).
Proof.
  split_and!.
  - apply header_print_parse.
  - intros bs h Hb Hh. by apply header_parse_print in Hh as (_ & _ & _ & ?).
  - apply entry_print_parse.
  - intros bs e Hb He. by apply entry_parse_print in He as [_ ?].
Qed.

(** No symbol can be read: on any buffer of at least 32 bytes, printed
    symbols included, [OHLK_Symbol::from_bytes] panics, since it copies
    three bytes over an array of 21; printing keeps the other fields. *)
Theorem symbol_read_panics (s : OHLK_Symbol) (bs rest : list Z) :
  (32 <= length bs -> symbol_from_bytes bs = None) /\
  symbol_from_bytes (symbol_to_bytes s ++ rest) = None /\
  (le_range 8 (sy_value s) -> rd (symbol_to_bytes s) 8 8 = sy_value s).
Proof.
  assert (Hp : forall bs, 32 <= length bs -> symbol_from_bytes bs = None).
  { intros l Hl. unfold symbol_from_bytes, copy_from_slice, SYMBOL_SIZE.
    rewrite (proj2 (Nat.ltb_ge _ _)), length_replicate, length_take, length_drop by lia.
    by rewrite (proj2 (Nat.eqb_neq _ _)) by lia. }
  split_and!; [apply Hp| |].
  - apply Hp. unfold symbol_to_bytes. rewrite length_app, length_puts, length_replicate.
    unfold SYMBOL_SIZE. lia.
  - intros Hv. unfold symbol_to_bytes.
    rewrite <- (app_nil_l (replicate _ _)), (puts_fill _ 0); [|repeat split|done|].
    + cbn [symbol_fields map snd concat app]. rewrite <- !app_assoc. read_field. by apply unle_le.
    + cbn [symbol_fields map snd concat]. rewrite !length_app, !length_le. unfold SYMBOL_SIZE.
      cbn. lia.
Qed.

(** ** Witnesses *)
Definition wit_segs : list Segment :=
  [mkSegment 1 5 [0xaa; 0xbb; 0xcc]%Z 3 0x1000 4096; mkSegment 2 3 [0x11]%Z 9 0x2000 0].

Lemma wit_segs_ok : Forall seg_ok wit_segs /\ fits wit_segs.
Proof.
  split.
  - repeat constructor; unfold le_range, is_byte; cbn; lia.
  - split; vm_compute; reflexivity.
Qed.

Lemma build_then_parse_witness :
  exists data p, build (add_segments (builder_new 1 1 0 0x1000) wit_segs) = Ok data /\
    parser_new data = Ok p /\ length (entries p) = 2.
Proof.
  destruct (build_then_parse 1 1 0 0x1000 wit_segs) as (data & p & Hb & Hp & _ & _ & _ & _ & He & _).
  - unfold is_byte. lia.
  - unfold le_range. cbn. lia.
  - unfold le_range. cbn. lia.
  - unfold le_range. cbn. lia.
  - exact (proj1 wit_segs_ok).
  - exact (proj2 wit_segs_ok).
  - exists data, p. split; [exact Hb|]. split; [exact Hp|].
    apply (f_equal length) in He. rewrite length_map in He. exact He.
Defined.

Lemma records_roundtrip_witness :
  entry_from_bytes (entry_to_bytes (mkOhlkEntry 1 5 160 0x1000 3 3 16 0 0 0) ++ [7%Z]) =
  Ok (mkOhlkEntry 1 5 160 0x1000 3 3 16 0 0 0).
Proof.
  destruct records_roundtrip as (_ & _ & H & _). apply H.
  constructor; vm_compute; split; congruence.
Defined.

Definition wit_file : list Z :=
  match build (add_segments (builder_new 1 1 0 0x1000) [mkSegment 2 3 [0x11]%Z 9 0x2000 0]) with
  | Ok data => data
  | Err _ => []
  end.

Lemma wit_file_bytes : Forall is_byte wit_file.
Proof. apply (bool_decide_unpack _). vm_compute. exact I. Qed.

Lemma corruption_detected_witness :
  exists c, parser_new (<[128 := 0x12%Z]> wit_file) =
    Err (ChecksumMismatch (rd wit_file 30 4) c).
Proof.
  destruct (parser_new wit_file) as [p|e] eqn:Hp; [|vm_compute in Hp; discriminate].
  assert (Hc : h_checksum (p_header p) = rd wit_file 30 4 /\
    (128 < h_file_size (p_header p))%Z) by (vm_compute in Hp; injection Hp as <-; vm_compute; auto).
  rewrite <- (proj1 Hc).
  apply (corruption_detected wit_file p 128 0x11%Z 0x12%Z).
  - exact wit_file_bytes.
  - exact Hp.
  - unfold HEADER_SIZE. lia.
  - exact (proj2 Hc).
  - vm_compute. reflexivity.
  - unfold is_byte. lia.
  - lia.
Defined.

Lemma symbol_read_panics_witness : symbol_from_bytes (replicate 32 0%Z) = None.
Proof.
  refine (proj1 (symbol_read_panics (mkSymbol 0 0 0 0 0 0 0 []) (replicate 32 0%Z) []) _).
  rewrite length_replicate. lia.
Defined.
