(* ===== verification/Runner.v ===== *)
(** * Runner: the user-space AArch64 emulator

    tools/ohlink-toolchain/crates/ohlink-runner/src: memory (mmu.rs), the
    processor (cpu.rs) and the loading and running of a file (main.rs).
    RAM is a finite map from offsets to bytes, absent bytes being zero;
    bytes written to the UART are appended to [mm_uart].  Warnings printed
    about unknown instructions are left out. *)
From Stdlib Require Import ZArith Lia.
From stdpp Require Import base tactics option list list_numbers gmap.
From S2P Require Import Prelude Bytes Ohlk.

(** ** Memory *)
Definition UART_BASE : Z := 0x09000000.
Definition RAM_DEFAULT_BASE : Z := 0x40000000.
Definition RAM_SIZE : Z := 16 * 1024 * 1024.

Record Mmu := mkMmu { mm_ram_base : Z; mm_ram : gmap Z Z; mm_uart : list Z }.

Definition mmu_new : Mmu := mkMmu RAM_DEFAULT_BASE ∅ [].

Definition in_ram (m : Mmu) (addr : Z) : bool :=
  (mm_ram_base m <=? addr)%Z && (addr <? mm_ram_base m + RAM_SIZE)%Z.

Definition read8 (m : Mmu) (addr : Z) : Z :=
  if in_ram m addr then default 0%Z (mm_ram m !! (addr - mm_ram_base m)%Z) else 0%Z.

Definition read32 (m : Mmu) (addr : Z) : Z :=
  let b0 := read8 m addr in
  let b1 := read8 m (u64w (addr + 1)) in
  let b2 := read8 m (u64w (addr + 2)) in
  let b3 := read8 m (u64w (addr + 3)) in
  Z.lor (Z.lor (Z.lor b0 (Z.shiftl b1 8)) (Z.shiftl b2 16)) (Z.shiftl b3 24).

Definition read64 (m : Mmu) (addr : Z) : Z :=
  let w0 := read32 m addr in
  let w1 := read32 m (u64w (addr + 4)) in
  Z.lor w0 (Z.shiftl w1 32).

Definition write8 (m : Mmu) (addr v : Z) : Mmu :=
  if (addr =? UART_BASE)%Z then mkMmu (mm_ram_base m) (mm_ram m) (mm_uart m ++ [v])
  else if in_ram m addr then
    mkMmu (mm_ram_base m) (<[(addr - mm_ram_base m)%Z := v]> (mm_ram m)) (mm_uart m)
  else m.

Definition write32 (m : Mmu) (addr v : Z) : Mmu :=
  let m1 := write8 m addr (Z.land v 0xFF) in
  let m2 := write8 m1 (u64w (addr + 1)) (Z.land (Z.shiftr v 8) 0xFF) in
  let m3 := write8 m2 (u64w (addr + 2)) (Z.land (Z.shiftr v 16) 0xFF) in
  write8 m3 (u64w (addr + 3)) (Z.land (Z.shiftr v 24) 0xFF).

Definition write64 (m : Mmu) (addr v : Z) : Mmu :=
  write32 (write32 m addr (Z.land v 0xFFFFFFFF)) (u64w (addr + 4)) (Z.shiftr v 32).

Definition load_segment (m : Mmu) (start_addr : Z) (data : list Z) : Mmu :=
  foldl (fun m ib => write8 m (u64w (start_addr + Z.of_nat ib.1)) ib.2) m (imap pair data).

(** ** Processor *)
Record Cpu := mkCpu {
  c_regs : list Z;
  c_sp : Z;
  c_pc : Z;
  c_n : bool;
  c_z : bool;
  c_c : bool;
  c_v : bool
}.

Definition cpu_new (entry_point stack_pointer : Z) : Cpu :=
  mkCpu (replicate 31 0%Z) stack_pointer entry_point false false false false.

Definition get_reg (c : Cpu) (idx : Z) : Z :=
  if (idx <? 31)%Z then nth (Z.to_nat idx) (c_regs c) 0%Z else 0%Z.

Definition set_reg (c : Cpu) (idx v : Z) : Cpu :=
  if (idx <? 31)%Z
  then mkCpu (<[Z.to_nat idx := v]> (c_regs c)) (c_sp c) (c_pc c) (c_n c) (c_z c) (c_c c) (c_v c)
  else c.

Definition set_sp (c : Cpu) (v : Z) : Cpu :=
  mkCpu (c_regs c) v (c_pc c) (c_n c) (c_z c) (c_c c) (c_v c).
Definition set_pc (c : Cpu) (v : Z) : Cpu :=
  mkCpu (c_regs c) (c_sp c) v (c_n c) (c_z c) (c_c c) (c_v c).

(** The fields [rd]/[rt], [rn] and [imm12] of an instruction. *)
Definition rd_of (i : Z) : Z := Z.land i 0x1F.
Definition rn_of (i : Z) : Z := Z.land (Z.shiftr i 5) 0x1F.
Definition imm12_of (i : Z) : Z := Z.land (Z.shiftr i 10) 0xFFF.

(** [if r == 31 { sp } else { get_reg(r) }] and its assignment. *)
Definition reg_or_sp (c : Cpu) (r : Z) : Z := if (r =? 31)%Z then c_sp c else get_reg c r.
Definition set_reg_or_sp (c : Cpu) (r v : Z) : Cpu := if (r =? 31)%Z then set_sp c v else set_reg c r v.

(** Sign extension of the 26-bit branch offset. *)
Definition branch_offset (i : Z) : Z :=
  let raw := Z.land i 0x3FFFFFF in
  if negb (Z.land raw 0x2000000 =? 0)%Z then Z.lor raw (-67108864) else raw.

Definition step (c0 : Cpu) (m : Mmu) : bool * Cpu * Mmu :=
  let i := read32 m (c_pc c0) in
  if (i =? 0)%Z then (false, c0, m)
  else
    let curr_pc := c_pc c0 in
    let c := set_pc c0 (u64w (curr_pc + 4)) in
    if (Z.shiftr i 26 =? 0x5)%Z then
      let target := u64w (curr_pc + Z.shiftl (branch_offset i) 2) in
      if (target =? curr_pc)%Z then (false, c, m) else (true, set_pc c target, m)
    else if (Z.land i 0xFF800000 =? 0xD2800000)%Z then
      let imm := Z.land (Z.shiftr i 5) 0xFFFF in
      let hw := Z.land (Z.shiftr i 21) 0x3 in
      (true, set_reg c (rd_of i) (u64w (Z.shiftl imm (hw * 16))), m)
    else if (Z.land i 0xFF000000 =? 0x91000000)%Z then
      let sh := Z.land (Z.shiftr i 22) 1 in
      let added := u64w (Z.shiftl (imm12_of i) (sh * 12)) in
      (true, set_reg_or_sp c (rd_of i) (u64w (reg_or_sp c (rn_of i) + added)), m)
    else if (Z.land i 0xFFC00000 =? 0xF9000000)%Z then
      (true, c, write64 m (u64w (reg_or_sp c (rn_of i) + imm12_of i * 8)) (reg_or_sp c (rd_of i)))
    else if (Z.land i 0xFFC00000 =? 0x39000000)%Z then
      (true, c, write8 m (u64w (reg_or_sp c (rn_of i) + imm12_of i)) (Z.land (get_reg c (rd_of i)) 0xFF))
    else if (Z.land i 0xFFC00000 =? 0xF9400000)%Z then
      (true, set_reg_or_sp c (rd_of i) (read64 m (u64w (reg_or_sp c (rn_of i) + imm12_of i * 8))), m)
    else if (Z.land i 0xFFC00000 =? 0x39400000)%Z then
      (true, set_reg_or_sp c (rd_of i) (read8 m (u64w (reg_or_sp c (rn_of i) + imm12_of i))), m)
    else if (Z.land i 0xFFFFFC1F =? 0xD65F03C0)%Z then
      (true, set_pc c (get_reg c (rn_of i)), m)
    else (true, c, m).

(** ** Loading and running *)
Definition load_entry (p : OHLK_Parser) (st : Mmu * bool) (e : OHLK_Entry) : option (fresult (Mmu * bool)) :=
  match get_segment_data p e with
  | None => None
  | Some (Err x) => Some (Err x)
  | Some (Ok d) =>
      let '(m, has_text) := st in
      if (e_ty e =? segment_type_to_u32 SText)%Z
      then Some (Ok (load_segment m RAM_DEFAULT_BASE d, true))
      else if (e_ty e =? segment_type_to_u32 SData)%Z || (e_ty e =? segment_type_to_u32 SRodata)%Z
      then Some (Ok (load_segment m (RAM_DEFAULT_BASE + 0x100000) d, has_text))
      else Some (Ok (m, has_text))
  end.

Fixpoint load_entries (p : OHLK_Parser) (st : Mmu * bool) (es : list OHLK_Entry)
  : option (fresult (Mmu * bool)) :=
  match es with
  | [] => Some (Ok st)
  | e :: es' =>
      match load_entry p st e with
      | Some (Ok st') => load_entries p st' es'
      | r => r
      end
  end.

Definition MAX_CYCLES : nat := Z.to_nat 100000.

(** [while cpu.step(&mut mmu) { cycles += 1; if cycles >= max_cycles { break } }]. *)
Fixpoint run_loop (fuel : nat) (c : Cpu) (m : Mmu) : Cpu * Mmu :=
  match fuel with
  | 0 => (c, m)
  | S fuel' =>
      let '(go, c', m') := step c m in
      if go then run_loop fuel' c' m' else (c', m')
  end.

(** [main] from the parsed file on: [None] is a panic, [Err None] the exit
    for a file without code or for another processor. *)
Definition runner_main (p : OHLK_Parser) : option (result (option FormatError) (Cpu * Mmu)) :=
  if negb (h_arch (p_header p) =? 1)%Z then Some (Err None)
  else
    match load_entries p (mmu_new, false) (entries p) with
    | None => None
    | Some (Err e) => Some (Err (Some e))
    | Some (Ok (_, false)) => Some (Err None)
    | Some (Ok (m, true)) =>
        Some (Ok (run_loop MAX_CYCLES
                    (cpu_new RAM_DEFAULT_BASE (RAM_DEFAULT_BASE + 8 * 1024 * 1024)) m))
    end.

(** ** Lemmas *)

(** The signed value of the low 26 bits. *)
Definition sext26 (i : Z) : Z :=
  let k := (i mod 2 ^ 26)%Z in if (k <? 2 ^ 25)%Z then k else (k - 2 ^ 26)%Z.

Lemma branch_offset_sext i : branch_offset i = sext26 i.
Proof.
  unfold branch_offset, sext26. change 0x3FFFFFF%Z with (Z.ones 26).
  rewrite Z.land_ones by lia. set (k := (i mod 2 ^ 26)%Z).
  assert (Hk : (0 <= k < 2 ^ 26)%Z) by (apply Z.mod_pos_bound; lia). clearbody k.
  change 0x2000000%Z with (2 ^ 25)%Z. rewrite land_bit by lia.
  assert (Hb : Z.testbit k 25 = negb (k <? 2 ^ 25)%Z).
  { rewrite Z.testbit_odd, Z.shiftr_div_pow2 by lia. destruct (Z.ltb_spec k (2 ^ 25)).
    - rewrite Z.div_small by lia. done.
    - replace (k / 2 ^ 25)%Z with 1%Z; [done|]. apply (Z.div_unique_pos _ _ _ (k - 2 ^ 25)); lia. }
  rewrite Hb. destruct (k <? 2 ^ 25)%Z eqn:E; [done|]. reflect.
  transitivity (Z.lor k (-67108864)); [reflexivity|].
  assert (H0 : Z.land k (-67108864) = 0%Z).
  { change (-67108864)%Z with (Z.lnot (Z.ones 26)). rewrite <- Z.ldiff_land.
    apply Z.ldiff_ones_r_low; [lia|]. destruct (Z.eq_dec k 0%Z) as [->|]; [done|].
    apply (proj1 (Z.log2_lt_pow2 k 26 ltac:(lia))). lia. }
  rewrite <- Z.lxor_lor, <- Z.add_nocarry_lxor by done. lia.
Qed.

(** The test for RET can never succeed: its mask clears bit 6, which its
    pattern has set. *)
Lemma ret_test_false i : (Z.land i 0xFFFFFC1F =? 0xD65F03C0)%Z = false.
Proof.
  apply Z.eqb_neq. intros H. apply (f_equal (fun x => Z.testbit x 6)) in H.
  rewrite Z.land_spec in H. by rewrite andb_false_r in H.
Qed.

Lemma ret_fields n :
  (0 <= n < 32)%Z ->
  let i := (0xD65F0000 + 32 * n)%Z in
  Z.land i 0xFF800000 = 0xD6000000%Z /\ Z.land i 0xFF000000 = 0xD6000000%Z /\
  Z.land i 0xFFC00000 = 0xD6400000%Z /\ Z.shiftr i 26 = 53%Z.
Proof.
  intros Hn. cbn zeta. replace n with (Z.of_nat (Z.to_nat n)) by lia.
  assert (Hk : Z.to_nat n < 32) by lia. revert Hk. generalize (Z.to_nat n) as k. intros k Hk.
  do 32 (destruct k as [|k]; [by vm_compute|]). lia.
Qed.

Lemma set_reg_pc c r v : c_pc (set_reg c r v) = c_pc c.
Proof. unfold set_reg. by destruct (r <? 31)%Z. Qed.

Lemma set_reg_or_sp_pc c r v : c_pc (set_reg_or_sp c r v) = c_pc c.
Proof. unfold set_reg_or_sp. destruct (r =? 31)%Z; [done|apply set_reg_pc]. Qed.

(** ** Properties *)

(** Control flow of the emulated processor: a zero word stops it and
    changes nothing; an unconditional branch goes to the signed 26-bit word
    offset from its own address, or stops if that is itself; every other
    instruction is followed by the next one.  So a return, whatever its
    register, does nothing but go on to the next instruction. *)
Theorem step_next_pc (c : Cpu) (m : Mmu) :
  let i := read32 m (c_pc c) in
  let '(go, c', m') := step c m in
  (i = 0%Z -> go = false /\ c' = c /\ m' = m) /\
  (i <> 0%Z -> Z.shiftr i 26 = 5%Z ->
     let target := u64w (c_pc c + 4 * sext26 i) in
     m' = m /\ c_regs c' = c_regs c /\ c_sp c' = c_sp c /\
     if (target =? c_pc c)%Z then go = false else go = true /\ c_pc c' = target) /\
  (i <> 0%Z -> Z.shiftr i 26 <> 5%Z -> go = true /\ c_pc c' = u64w (c_pc c + 4)) /\
  (forall n, (0 <= n < 32)%Z -> i = (0xD65F0000 + 32 * n)%Z ->
     go = true /\ c' = set_pc c (u64w (c_pc c + 4)) /\ m' = m).
Proof.
  cbn zeta. unfold step. set (i := read32 m (c_pc c)). clearbody i.
  rewrite ret_test_false, branch_offset_sext, Z.shiftl_mul_pow2 by lia.
  change (2 ^ 2)%Z with 4%Z. rewrite (Z.mul_comm (sext26 i)).
  destruct (Z.eqb_spec i 0) as [->|Hi].
  { split_and!; try done. intros n ? ?. lia. }
  destruct (Z.eqb_spec (Z.shiftr i 26) 5) as [H5|H5].
  - destruct (_ =? c_pc c)%Z; split_and!; try done; intros n Hn ->;
      destruct (ret_fields n Hn) as (_ & _ & _ & R4); rewrite R4 in H5; discriminate.
  - destruct (Z.land i 0xFF800000 =? 0xD2800000)%Z eqn:E1;
    [|destruct (Z.land i 0xFF000000 =? 0x91000000)%Z eqn:E2];
    [| |destruct (Z.land i 0xFFC00000 =? 0xF9000000)%Z eqn:E3];
    [| | |destruct (Z.land i 0xFFC00000 =? 0x39000000)%Z eqn:E4];
    [| | | |destruct (Z.land i 0xFFC00000 =? 0xF9400000)%Z eqn:E5];
    [| | | | |destruct (Z.land i 0xFFC00000 =? 0x39400000)%Z eqn:E6];
    (split_and!; try done; try (intros; rewrite ?set_reg_pc, ?set_reg_or_sp_pc; done));
    intros n Hn ->; destruct (ret_fields n Hn) as (R1 & R2 & R3 & _);
    try rewrite R1 in E1; try rewrite R2 in E2; try rewrite R3 in E3; try rewrite R3 in E4;
    try rewrite R3 in E5; try rewrite R3 in E6; discriminate.
Qed.

(** ** Witnesses *)

(** Two words: RET X30, then a branch to itself. *)
Definition wit_mmu : Mmu := write32 (write32 mmu_new 0x40000000 0xD65F03C0) 0x40000004 0x14000000.

(** The return falls through and the branch stops the run. *)
Lemma step_next_pc_witness :
  let '(go, c', _) := step (cpu_new 0x40000000 0) wit_mmu in
  go = true /\ c' = set_pc (cpu_new 0x40000000 0) 0x40000004.
Proof.
  pose proof (step_next_pc (cpu_new 0x40000000 0) wit_mmu) as H. cbn zeta in H.
  destruct (step (cpu_new 0x40000000 0) wit_mmu) as [[go c'] m'].
  destruct H as (_ & _ & _ & Hret). destruct (Hret 30%Z ltac:(lia)) as (Hgo & Hc & _).
  - vm_compute. reflexivity.
  - split; [exact Hgo|]. rewrite Hc. vm_compute. reflexivity.
Defined.
