(* ===== verification/PageTable.v ===== *)
(** * PageTable: per-process translation tables

    kernel/src/arch/aarch64/page_table.rs ([PageTableTree]) and the walk of
    mmu.rs ([translate_user_va]).  Tables are frames of the modelled RAM,
    512 words of 8 bytes each.  Whether the MMU is on only changes the
    address through which the kernel reaches a frame, so [read_pte] and
    [write_pte] go to the frame itself; cache and TLB maintenance and logging
    have no effect on this state. *)
From Stdlib Require Import ZArith Lia.
From stdpp Require Import base tactics option list list_numbers gmap.
From S2P Require Import Prelude Shared Phys.
Local Open Scope Z_scope.

(** ** Entries *)
Definition PTE_VALID : Z := 1.
Definition PTE_TYPE_BLOCK : Z := 1.
Definition PTE_TYPE_TABLE : Z := 3.
Definition PTE_TYPE_PAGE : Z := 3.
Definition PTE_AF : Z := Z.shiftl 1 10.
Definition PTE_NSH : Z := Z.shiftl 0 8.
Definition PTE_ISH : Z := Z.shiftl 3 8.
Definition PTE_NORMAL_WB : Z := Z.lor (Z.lor (Z.shiftl 0 2) PTE_ISH) PTE_AF.
Definition PTE_DEVICE : Z := Z.lor (Z.lor (Z.shiftl 1 2) PTE_NSH) PTE_AF.
Definition PTE_USER : Z := Z.shiftl 1 6.
Definition PTE_AP_USER : Z := Z.shiftl 1 6.
Definition PTE_AP_RO : Z := Z.shiftl 1 7.
Definition PTE_USER_RW : Z := PTE_AP_USER.
Definition PTE_USER_RO : Z := Z.lor PTE_AP_USER PTE_AP_RO.
Definition PTE_XN : Z := Z.shiftl 1 54.
Definition PTE_UXN : Z := Z.shiftl 1 53.

Definition ADDR_MASK : Z := 0x0000FFFFFFFFF000.

Definition va_l0_index (va : Z) : Z := Z.land (Z.shiftr va 39) 0x1FF.
Definition va_l1_index (va : Z) : Z := Z.land (Z.shiftr va 30) 0x1FF.
Definition va_l2_index (va : Z) : Z := Z.land (Z.shiftr va 21) 0x1FF.
Definition va_l3_index (va : Z) : Z := Z.land (Z.shiftr va 12) 0x1FF.

Definition pa_to_pte_addr (pa : Z) : Z := Z.land pa ADDR_MASK.

Definition read_pte (m : Ram) (table_pa idx : Z) : Z := ram_read m (table_pa + 8 * idx).
Definition write_pte (m : Ram) (table_pa idx entry : Z) : Ram := ram_write m (table_pa + 8 * idx) entry.

(** [e & PTE_VALID != 0] and [e & 0b10 != 0]. *)
Definition is_valid (e : Z) : bool := negb (Z.land e PTE_VALID =? 0).
Definition is_table (e : Z) : bool := negb (Z.land e 2 =? 0).

Inductive MemAttr := NormalCacheable | Device.

Record MapFlags := mkFlags {
  mf_mem_attr : MemAttr;
  mf_readable : bool;
  mf_writable : bool;
  mf_executable : bool;
  mf_user : bool
}.

Definition kernel_rw := mkFlags NormalCacheable true true false false.
Definition kernel_ro := mkFlags NormalCacheable true false false false.
Definition kernel_rx := mkFlags NormalCacheable true false true false.
Definition user_rw := mkFlags NormalCacheable true true false true.
Definition user_ro := mkFlags NormalCacheable true false false true.
Definition user_rx := mkFlags NormalCacheable true false true true.
Definition device_rw := mkFlags Device true true false false.
Definition device_rw_user := mkFlags Device true true false true.

Definition pte_attr_bits (f : MapFlags) : Z :=
  let bits := match mf_mem_attr f with NormalCacheable => PTE_NORMAL_WB | Device => PTE_DEVICE end in
  let bits :=
    if mf_user f then
      if mf_writable f then Z.lor bits PTE_USER_RW else Z.lor bits PTE_USER_RO
    else if negb (mf_writable f) then Z.lor bits PTE_AP_USER else bits in
  let bits := if negb (mf_executable f) then Z.lor (Z.lor bits PTE_XN) PTE_UXN else bits in
  Z.lor bits PTE_AF.

(** ** The tree *)
Record PageTableTree := mkTree {
  pt_l0_pa : Z;
  pt_tracked : list Z;
  pt_count : nat;
  pt_generation : Z;
  pt_has_root : bool
}.

Definition tree_new : PageTableTree := mkTree 0 (replicate 64 0) 0 0 false.

Record PtState := mkPt { st_tree : PageTableTree; st_phys : Phys }.

Definition set_ram (p : Phys) (m : Ram) : Phys :=
  mkPhys (next_free p) (end_free p) (free_count p) (total_count p) (live_pt p) (tags p) (cache p) m.

Definition st_ram (st : PtState) : Ram := ram (st_phys st).
Definition upd_ram (st : PtState) (f : Ram -> Ram) : PtState :=
  mkPt (st_tree st) (set_ram (st_phys st) (f (st_ram st))).

(** Code that can panic, fail or go on. *)
Definition PT (A : Type) : Type := PtState -> option (kresult A * PtState).

#[export] Instance pt_ret : MRet PT := fun A a st => Some (Ok a, st).
#[export] Instance pt_bind : MBind PT := fun A B f x st =>
  match x st with
  | None => None
  | Some (Err e, st') => Some (Err e, st')
  | Some (Ok a, st') => f a st'
  end.

Definition pt_err {A} (e : Status) : PT A := fun st => Some (Err e, st).
Definition pt_modify (f : PtState -> PtState) : PT unit := fun st => Some (Ok tt, f st).
Definition pt_read (table idx : Z) : PT Z := fun st => Some (Ok (read_pte (st_ram st) table idx), st).
Definition pt_write (table idx entry : Z) : PT unit :=
  pt_modify (fun st => upd_ram st (fun m => write_pte m table idx entry)).

Definition pt_alloc : PT Z := fun st =>
  match alloc_pt_page (st_phys st) with
  | None => None
  | Some (r, p') => Some (r, mkPt (st_tree st) p')
  end.

Definition track (pa : Z) (st : PtState) : PtState :=
  let t := st_tree st in
  if (64 <=? pt_count t)%nat then st
  else if existsb (fun x => x =? pa) (take (pt_count t) (pt_tracked t)) then st
  else mkPt (mkTree (pt_l0_pa t) (<[pt_count t := pa]> (pt_tracked t)) (S (pt_count t))
               (pt_generation t) (pt_has_root t))
         (register_pt_page (st_phys st) pa).

Definition table_entry (pa : Z) : Z :=
  Z.land (Z.lor (Z.lor (pa_to_pte_addr pa) PTE_VALID) PTE_TYPE_TABLE) 0x0000FFFFFFFFF003.

(** [allocate_root]. *)
Definition allocate_root : PT unit := fun st =>
  if pt_has_root (st_tree st) then Some (Err AlreadyExists, st)
  else
    (l0 ← pt_alloc;
     l1 ← pt_alloc;
     pt_write l0 0 (table_entry l1);;
     pt_modify (fun st => mkPt (mkTree l0 (<[1%nat := l1]> (<[0%nat := l0]> (pt_tracked (st_tree st))))
                                  2 1 true) (st_phys st))) st.

Definition set_root_raw (l0_pa : Z) (st : PtState) : PtState :=
  let t := st_tree st in
  track l0_pa (mkPt (mkTree l0_pa (pt_tracked t) (pt_count t) (u64w (pt_generation t + 1)) true)
                 (st_phys st)).

(** [for idx in from..from + n] of [clone_high_half]. *)
Definition copy_entries (m : Ram) (dst src : Z) (from n : nat) : Ram :=
  foldl (fun m i => let e := read_pte m src (Z.of_nat i) in
                    if e =? 0 then m else write_pte m dst (Z.of_nat i) e) m (seq from n).

Definition clone_high_half (parent_l0_pa : Z) (st : PtState) : PtState :=
  if pt_has_root (st_tree st) then
    upd_ram st (fun m => copy_entries m (pt_l0_pa (st_tree st)) parent_l0_pa 256 256)
  else st.

(** Only entry 1 of the parent's first L1 table is taken over. *)
Definition clone_identity_block (parent_l0_pa : Z) (st : PtState) : PtState :=
  if pt_has_root (st_tree st) then
    let m := st_ram st in
    let entry_0 := read_pte m parent_l0_pa 0 in
    if entry_0 =? 0 then st
    else
      let parent_l1 := Z.land entry_0 ADDR_MASK in
      if parent_l1 =? 0 then st
      else
        let my_entry_0 := read_pte m (pt_l0_pa (st_tree st)) 0 in
        if my_entry_0 =? 0 then st
        else
          let my_l1 := Z.land my_entry_0 ADDR_MASK in
          if my_l1 =? 0 then st
          else upd_ram st (fun m => copy_entries m my_l1 parent_l1 1 1)
  else st.

(** ** Mapping *)

(** A table made for an empty entry. *)
Definition new_table (table idx : Z) : PT Z :=
  n ← pt_alloc;
  pt_write table idx (table_entry n);;
  pt_modify (track n);;
  mret n.

(** The attribute bits a shattered block hands down. *)
Definition shatter_attr (original : Z) : Z :=
  let a := Z.land original 0x000F000000000FFF in
  let a := Z.lor a PTE_USER in
  let a := Z.land a (Z.lxor PTE_XN (2 ^ 64 - 1)) in
  Z.land a (Z.lxor PTE_UXN (2 ^ 64 - 1)).

Definition fill_table (m : Ram) (table : Z) (f : Z -> Z) : Ram :=
  foldl (fun m i => write_pte m table (Z.of_nat i) (f (Z.of_nat i))) m (seq 0 512).

(** [shatter_l1_block] and [shatter_l2_block]: 512 entries of [size] bytes
    and type [ty] in place of the block. *)
Definition shatter (size ty : Z) (table idx original : Z) : PT Z :=
  n ← pt_alloc;
  pt_modify (track n);;
  (let base := Z.land original ADDR_MASK in
   let attr := shatter_attr original in
   pt_modify (fun st => upd_ram st (fun m => fill_table m n (fun i =>
     Z.lor (Z.lor (Z.lor (pa_to_pte_addr (u64w (base + i * size))) PTE_VALID) ty) attr))));;
  pt_write table idx (table_entry n);;
  mret n.

Definition shatter_l1_block := shatter 0x200000 PTE_TYPE_BLOCK.
Definition shatter_l2_block := shatter 0x1000 PTE_TYPE_PAGE.

(** The table below an entry: followed, made, or what [on_block] does. *)
Definition level (table idx : Z) (on_block : Z -> PT Z) : PT Z :=
  e ← pt_read table idx;
  if is_valid e && is_table e then mret (Z.land e ADDR_MASK)
  else if is_valid e then on_block e
  else new_table table idx.

Definition page_entry (pa : Z) (flags : MapFlags) : Z :=
  Z.lor (Z.lor (Z.lor (pa_to_pte_addr pa) PTE_VALID) PTE_TYPE_PAGE) (pte_attr_bits flags).

Definition map_va (va pa : Z) (flags : MapFlags) : PT unit := fun st =>
  if negb (Z.land va 0xFFF =? 0) || negb (Z.land pa 0xFFF =? 0) then Some (Err InvalidArgs, st)
  else if negb (pt_has_root (st_tree st)) then Some (Err InvalidArgs, st)
  else
    (let l0_pa := pt_l0_pa (st_tree st) in
     l1_pa ← level l0_pa (va_l0_index va) (fun _ => pt_err NotAllowed);
     l2_pa ← level l1_pa (va_l1_index va) (shatter_l1_block l1_pa (va_l1_index va));
     l3_pa ← level l2_pa (va_l2_index va) (shatter_l2_block l2_pa (va_l2_index va));
     pt_write l3_pa (va_l3_index va) (page_entry pa flags)) st.

(** ** Translation *)

(** [translate_user_va]. *)
Definition translate_user_va (m : Ram) (l0_pa va : Z) : option Z :=
  let l0e := read_pte m l0_pa (va_l0_index va) in
  if Z.land l0e 1 =? 0 then None
  else
    let l1e := read_pte m (Z.land l0e ADDR_MASK) (va_l1_index va) in
    if Z.land l1e 1 =? 0 then None
    else if Z.land l1e 2 =? 0 then
      Some (u64w (Z.land l1e 0x0000FFFFC0000000 + Z.land va 0x3FFFFFFF))
    else
      let l2e := read_pte m (Z.land l1e ADDR_MASK) (va_l2_index va) in
      if Z.land l2e 1 =? 0 then None
      else if Z.land l2e 2 =? 0 then
        Some (u64w (Z.land l2e 0x0000FFFFFFE00000 + Z.land va 0x1FFFFF))
      else
        let l3e := read_pte m (Z.land l2e ADDR_MASK) (va_l3_index va) in
        if Z.land l3e 1 =? 0 then None
        else Some (u64w (Z.land l3e ADDR_MASK + Z.land va 0xFFF)).

Definition translate_va (st : PtState) (va : Z) : option Z :=
  if pt_has_root (st_tree st) then translate_user_va (st_ram st) (pt_l0_pa (st_tree st)) va
  else None.

(** ** Freeing *)

(** [free_tree]: the tracked pages, last first; [None] is [free_page]'s
    panic. *)
Fixpoint free_pages (l : list Z) (p : Phys) : option Phys :=
  match l with
  | [] => Some p
  | pa :: l' =>
      if pa =? 0 then free_pages l' p
      else match free_page p pa with Some (_, p') => free_pages l' p' | None => None end
  end.

Definition free_tree (st : PtState) : option PtState :=
  let t := st_tree st in
  if pt_has_root t then
    match free_pages (rev (take (pt_count t) (pt_tracked t))) (st_phys st) with
    | Some p' => Some (mkPt (mkTree 0 (pt_tracked t) 0 0 false) p')
    | None => None
    end
  else Some st.

(** ** Lemmas *)

(** *** A walk by level

    [r] counts the levels below: 3 at L0, 0 at L3. *)
Definition index (r : nat) (va : Z) : Z := Z.land (Z.shiftr va (12 + 9 * Z.of_nat r)) 0x1FF.

Definition span (r : nat) : Z := 2 ^ (12 + 9 * Z.of_nat r).
Definition block_mask (r : nat) : Z := 2 ^ 48 - span r.

Fixpoint walk (m : Ram) (r : nat) (t va : Z) : option Z :=
  let e := read_pte m t (index r va) in
  if negb (is_valid e) then None
  else
    match r with
    | O => Some (u64w (Z.land e ADDR_MASK + va mod 4096))
    | S r' =>
        if (r <? 3)%nat && negb (is_table e)
        then Some (u64w (Z.land e (block_mask r) + va mod span r))
        else walk m r' (Z.land e ADDR_MASK) va
    end.

Lemma translate_walk m l0 va : translate_user_va m l0 va = walk m 3 l0 va.
Proof.
  unfold translate_user_va. cbn [walk]. unfold is_valid, is_table, PTE_VALID.
  change (index 3 va) with (va_l0_index va). change (index 2 va) with (va_l1_index va).
  change (index 1 va) with (va_l2_index va). change (index 0 va) with (va_l3_index va).
  change (3 <? 3)%nat with false. change (2 <? 3)%nat with true. change (1 <? 3)%nat with true.
  change (block_mask 2) with 0x0000FFFFC0000000. change (block_mask 1) with 0x0000FFFFFFE00000.
  change 0x3FFFFFFF with (Z.ones 30). change 0x1FFFFF with (Z.ones 21).
  change 0xFFF with (Z.ones 12). rewrite !Z.land_ones by lia.
  change (2 ^ 30) with (span 2). change (2 ^ 21) with (span 1). change (2 ^ 12) with 4096.
  cbn [andb]. rewrite !negb_involutive. done.
Qed.

Lemma index_range r va : 0 <= index r va < 512.
Proof.
  unfold index. change 0x1FF with (Z.ones 9). rewrite Z.land_ones by lia.
  apply Z.mod_pos_bound. lia.
Qed.

(** The page number a walk looks at: the 36 bits above the offset. *)
Definition page_no (va : Z) : Z := (va / 4096) mod 2 ^ 36.

Lemma index_div r va : index r va = (va / span r) mod 512.
Proof.
  unfold index, span. change 0x1FF with (Z.ones 9).
  rewrite Z.land_ones, Z.shiftr_div_pow2 by lia. done.
Qed.

Lemma page_no_indices va :
  page_no va = index 0 va + 512 * (index 1 va + 512 * (index 2 va + 512 * index 3 va)).
Proof.
  unfold page_no. rewrite !index_div. change (span 0) with 4096.
  change (span 1) with (4096 * 512). change (span 2) with (4096 * (512 * 512)).
  change (span 3) with (4096 * (512 * (512 * 512))).
  rewrite <- !Z.div_div by lia. set (p := va / 4096).
  change (2 ^ 36) with (512 * (512 * (512 * 512))).
  rewrite !Z.rem_mul_r by lia. lia.
Qed.

(** A walk reads 48 bits of the address. *)
Lemma low_bits va k : 0 <= k <= 48 -> (va mod 2 ^ 48) mod 2 ^ k = va mod 2 ^ k.
Proof.
  intros Hk. apply Z.mod_mod_divide. exists (2 ^ (48 - k)). rewrite <- Z.pow_add_r by lia. f_equal. lia.
Qed.

Lemma index_low r va : (r <= 3)%nat -> index r (va mod 2 ^ 48) = index r va.
Proof.
  intros Hr. unfold index. apply Z.bits_inj'. intros i Hi. change 0x1FF with (Z.ones 9). rewrite !Z.land_spec, !Z.shiftr_spec by lia.
  destruct (Z.ltb_spec i 9) as [Hlt|Hge].
  - rewrite Z.mod_pow2_bits_low by lia. done.
  - by rewrite Z.ones_spec_high, !andb_false_r by lia.
Qed.

Lemma walk_low m r t va : (r <= 3)%nat -> walk m r t (va mod 2 ^ 48) = walk m r t va.
Proof.
  revert t. induction r as [|r IH]; intros t Hr; cbn [walk]; rewrite index_low by done.
  - destruct (negb _); [done|]. change 4096 with (2 ^ 12). by rewrite low_bits.
  - destruct (negb _); [done|]. unfold span. rewrite low_bits by lia. destruct (_ && _); [done|]. apply IH. lia.
Qed.

Lemma translate_low m l0 va : translate_user_va m l0 (va mod 2 ^ 48) = translate_user_va m l0 va.
Proof. rewrite !translate_walk. by apply walk_low. Qed.

Lemma same_page va va' :
  page_no va = page_no va' <-> forall r, (r <= 3)%nat -> index r va = index r va'.
Proof.
  rewrite !page_no_indices. split.
  - intros H r Hr.
    pose proof (index_range 0 va). pose proof (index_range 1 va). pose proof (index_range 2 va).
    pose proof (index_range 3 va). pose proof (index_range 0 va'). pose proof (index_range 1 va').
    pose proof (index_range 2 va'). pose proof (index_range 3 va').
    assert (index 0 va = index 0 va' /\ index 1 va = index 1 va' /\ index 2 va = index 2 va' /\
            index 3 va = index 3 va') as (? & ? & ? & ?) by lia.
    destruct r as [|[|[|[|r]]]]; try done. lia.
  - intros H. rewrite !H by lia. done.
Qed.

(** *** Bits of entries *)
Lemma is_valid_bit e : is_valid e = Z.testbit e 0.
Proof.
  unfold is_valid, PTE_VALID. change 1 with (2 ^ 0) at 1. rewrite land_bit by lia.
  by destruct (Z.testbit e 0).
Qed.

Lemma is_table_bit e : is_table e = Z.testbit e 1.
Proof.
  unfold is_table. change 2 with (2 ^ 1) at 1. rewrite land_bit by lia.
  by destruct (Z.testbit e 1).
Qed.

(** Attribute bits stay out of the address. *)
Definition attr_ok (a : Z) : Prop := forall n, 12 <= n < 48 -> Z.testbit a n = false.

Lemma mask_bits k n :
  0 <= k <= 48 -> 0 <= n -> Z.testbit (2 ^ 48 - 2 ^ k) n = (k <=? n) && (n <? 48).
Proof.
  intros Hk Hn. replace (2 ^ 48 - 2 ^ k) with (Z.shiftl (Z.ones (48 - k)) k).
  - rewrite Z.shiftl_spec by lia. destruct (Z.leb_spec k n) as [Hl|Hl]; cbn [andb].
    + destruct (Z.ltb_spec n 48).
      * rewrite Z.ones_spec_low by lia. done.
      * rewrite Z.ones_spec_high by lia. done.
    + rewrite Z.testbit_neg_r by lia. done.
  - rewrite Z.shiftl_mul_pow2, Z.ones_equiv by lia.
    replace (2 ^ 48) with (2 ^ (48 - k) * 2 ^ k) by (rewrite <- Z.pow_add_r by lia; f_equal; lia).
    lia.
Qed.

Lemma addr_mask_bits n : 0 <= n -> Z.testbit ADDR_MASK n = (12 <=? n) && (n <? 48).
Proof. intros Hn. change ADDR_MASK with (2 ^ 48 - 2 ^ 12). apply mask_bits; lia. Qed.

Lemma aligned_bits x k n : 0 <= k -> x mod 2 ^ k = 0 -> 0 <= n < k -> Z.testbit x n = false.
Proof.
  intros Hk Hx Hn. rewrite <- (Z.mod_pow2_bits_low x k n) by lia. by rewrite Hx, Z.bits_0.
Qed.

Lemma small_bits x n : 0 <= x < 2 ^ 48 -> 48 <= n -> Z.testbit x n = false.
Proof.
  intros Hx Hn. rewrite <- (Z.mod_small x (2 ^ 48)) by done. by rewrite Z.mod_pow2_bits_high by lia.
Qed.

(** An entry gives its address back under the mask of its level. *)
Lemma entry_address x k ty a :
  12 <= k <= 48 -> 0 <= x < 2 ^ 48 -> x mod 2 ^ k = 0 -> ty = 1 \/ ty = 3 -> attr_ok a ->
  Z.land (Z.lor (Z.lor (Z.lor (pa_to_pte_addr x) PTE_VALID) ty) a) (2 ^ 48 - 2 ^ k) = x.
Proof.
  intros Hk Hx Hm Hty Ha. apply Z.bits_inj'. intros n Hn.
  rewrite Z.land_spec, !Z.lor_spec, mask_bits by lia. unfold pa_to_pte_addr.
  rewrite Z.land_spec, addr_mask_bits by done.
  destruct (Z.leb_spec k n) as [Hl|Hl]; cbn [andb].
  - destruct (Z.ltb_spec n 48) as [Hh|Hh].
    + rewrite Ha by lia. rewrite (proj2 (Z.leb_le 12 n)) by lia.
      assert (H1 : Z.testbit PTE_VALID n = false).
      { unfold PTE_VALID. change 1 with (2 ^ 0). rewrite Z.pow2_bits_eqb by lia. apply Z.eqb_neq. lia. }
      assert (H2 : Z.testbit ty n = false).
      { rewrite <- (Z.mod_small ty (2 ^ 2)) by lia. by rewrite Z.mod_pow2_bits_high by lia. }
      rewrite H1, H2. cbn [andb]. by rewrite !orb_false_r, !andb_true_r.
    + rewrite andb_false_r. by rewrite small_bits.
  - rewrite andb_false_r. symmetry. apply (aligned_bits x k); [lia|done|lia].
Qed.

Lemma entry_low x ty a n :
  n = 0 \/ n = 1 ->
  Z.testbit (Z.lor (Z.lor (Z.lor (pa_to_pte_addr x) PTE_VALID) ty) a) n =
  (n =? 0) || Z.testbit ty n || Z.testbit a n.
Proof.
  intros Hn. rewrite !Z.lor_spec. unfold pa_to_pte_addr. rewrite Z.land_spec, addr_mask_bits by lia.
  rewrite (proj2 (Z.leb_gt 12 n)) by lia. rewrite andb_false_r.
  by destruct Hn as [-> | ->].
Qed.

(** *** Reading and writing entries *)
Lemma pte_inj t1 t2 i1 i2 :
  t1 mod 4096 = 0 -> t2 mod 4096 = 0 -> 0 <= i1 < 512 -> 0 <= i2 < 512 ->
  t1 + 8 * i1 = t2 + 8 * i2 -> t1 = t2 /\ i1 = i2.
Proof.
  intros H1 H2 Hi1 Hi2 H. pose proof (Z.div_mod t1 4096). pose proof (Z.div_mod t2 4096). lia.
Qed.

Lemma read_write_eq m t i e : read_pte (write_pte m t i e) t i = e.
Proof. unfold read_pte, write_pte, ram_read, ram_write. by rewrite lookup_insert_eq. Qed.

Lemma read_write_ne m t i e t' i' :
  t mod 4096 = 0 -> t' mod 4096 = 0 -> 0 <= i < 512 -> 0 <= i' < 512 -> (t', i') <> (t, i) ->
  read_pte (write_pte m t i e) t' i' = read_pte m t' i'.
Proof.
  intros Ht Ht' Hi Hi' Hne. unfold read_pte, write_pte, ram_read, ram_write.
  rewrite lookup_insert_ne; [done|]. intros H. apply Hne.
  by destruct (pte_inj t t' i i' Ht Ht' Hi Hi' H) as [-> ->].
Qed.

Lemma fill_from m t f n k i :
  0 <= i < 512 -> (k + n <= 512)%nat ->
  read_pte (foldl (fun m i => write_pte m t (Z.of_nat i) (f (Z.of_nat i))) m (seq k n)) t i =
  if (Z.of_nat k <=? i) && (i <? Z.of_nat (k + n)) then f i else read_pte m t i.
Proof.
  revert m k. induction n as [|n IH]; intros m k Hi Hk.
  - cbn. destruct (Z.leb_spec (Z.of_nat k) i), (Z.ltb_spec i (Z.of_nat (k + 0))); cbn; try lia; done.
  - cbn [seq foldl]. rewrite IH by lia. unfold read_pte, write_pte, ram_read, ram_write.
    destruct (Z.eq_dec i (Z.of_nat k)) as [->|Hne].
    + rewrite lookup_insert_eq.
      destruct (Z.leb_spec (Z.of_nat (S k)) (Z.of_nat k)), (Z.leb_spec (Z.of_nat k) (Z.of_nat k)),
        (Z.ltb_spec (Z.of_nat k) (Z.of_nat (k + S n))); cbn; try lia; done.
    + rewrite lookup_insert_ne by lia.
      destruct (Z.leb_spec (Z.of_nat (S k)) i), (Z.leb_spec (Z.of_nat k) i),
        (Z.ltb_spec i (Z.of_nat (S k + n))), (Z.ltb_spec i (Z.of_nat (k + S n))); cbn; try lia; done.
Qed.

Lemma fill_in m t f i : 0 <= i < 512 -> read_pte (fill_table m t f) t i = f i.
Proof.
  intros Hi. unfold fill_table. rewrite fill_from by lia.
  rewrite (proj2 (Z.leb_le _ _)), (proj2 (Z.ltb_lt _ _)) by lia. done.
Qed.

Lemma fill_out m t f t' i' :
  t mod 4096 = 0 -> t' mod 4096 = 0 -> 0 <= i' < 512 -> t' <> t ->
  read_pte (fill_table m t f) t' i' = read_pte m t' i'.
Proof.
  intros Ht Ht' Hi' Hne. unfold fill_table.
  enough (H : forall n k, (k + n <= 512)%nat -> forall m,
    read_pte (foldl (fun m i => write_pte m t (Z.of_nat i) (f (Z.of_nat i))) m (seq k n)) t' i' =
    read_pte m t' i') by (apply H; lia).
  induction n as [|n IH]; intros k Hk m'; [done|]. cbn [seq foldl].
  rewrite IH by lia. apply read_write_ne; try done; [lia|]. intros [= ? ?]. done.
Qed.

Lemma zero_in m t i : 0 <= i < 512 -> read_pte (zero_page m t) t i = 0.
Proof.
  intros Hi. unfold read_pte. rewrite <- (Z2Nat.id i) by lia. apply zero_page_in. lia.
Qed.

Lemma zero_out m t t' i :
  t mod 4096 = 0 -> t' mod 4096 = 0 -> 0 <= i < 512 -> t' <> t ->
  read_pte (zero_page m t) t' i = read_pte m t' i.
Proof.
  intros Ht Ht' Hi Hne. unfold read_pte. apply zero_page_out.
  pose proof (Z.div_mod t 4096). pose proof (Z.div_mod t' 4096). lia.
Qed.

(** *** Well-formed trees

    [lv] gives the tables of the tree their level.  Every table is a frame
    below the allocator's cursor; a valid entry above L3 is a table of the
    next level, or at L1 and L2 a block aligned to its size; no table hangs
    from two entries. *)
Abbreviation Levels := (gmap Z nat).

Definition points (m : Ram) (t i c : Z) : Prop :=
  let e := read_pte m t i in is_valid e = true /\ is_table e = true /\ Z.land e ADDR_MASK = c.

Definition block_ok (r : nat) (e : Z) : Prop := Z.land e ADDR_MASK = Z.land e (block_mask r).

(** What a table of level [r] may hold. *)
Definition entry_ok (lv : Levels) (r : nat) (e : Z) : Prop :=
  match r with
  | O => True
  | S r' =>
      is_valid e = true ->
      if (r <? 3)%nat && negb (is_table e) then block_ok r e
      else is_table e = true /\ lv !! Z.land e ADDR_MASK = Some r'
  end.

Record tree_wf (m : Ram) (lv : Levels) (root cursor : Z) : Prop := {
  tw_root : lv !! root = Some 3%nat;
  tw_table : forall t r, lv !! t = Some r ->
    (r <= 3)%nat /\ t mod 4096 = 0 /\ 0 < t /\ t + 4096 <= cursor;
  tw_entry : forall t r i, lv !! t = Some r -> 0 <= i < 512 -> entry_ok lv r (read_pte m t i);
  tw_parent : forall t1 t2 r1 r2 i1 i2 c, lv !! t1 = Some (S r1) -> lv !! t2 = Some (S r2) ->
    0 <= i1 < 512 -> 0 <= i2 < 512 -> points m t1 i1 c -> points m t2 i2 c -> t1 = t2 /\ i1 = i2
}.

(** A walk only depends on the tables of the tree. *)
Lemma walk_ext m m' lv root cursor t0 i0 :
  tree_wf m lv root cursor ->
  (forall t r i, lv !! t = Some r -> 0 <= i < 512 -> (t, i) <> (t0, i0) ->
     read_pte m' t i = read_pte m t i) ->
  (forall r va, lv !! t0 = Some r -> index r va = i0 -> walk m' r t0 va = walk m r t0 va) ->
  forall r t va, lv !! t = Some r -> walk m' r t va = walk m r t va.
Proof.
  intros Hwf Hsame Hsub. induction r as [|r IH]; intros t va Ht.
  { destruct (decide ((t, index 0 va) = (t0, i0))) as [[= -> Hi]|Hne]; [by apply Hsub|].
    cbn [walk]. by rewrite (Hsame t _ _ Ht (index_range _ _) Hne). }
  destruct (decide ((t, index (S r) va) = (t0, i0))) as [[= -> Hi]|Hne]; [by apply Hsub|].
  cbn [walk]. rewrite (Hsame t _ _ Ht (index_range _ _) Hne).
  set (e := read_pte m t (index (S r) va)).
  pose proof (tw_entry m lv root cursor Hwf t (S r) (index (S r) va) Ht (index_range _ _)) as He.
  fold e in He. cbn [entry_ok] in He.
  destruct (is_valid e); [|done]. cbn [negb]. specialize (He eq_refl).
  destruct ((S r <? 3)%nat && negb (is_table e)); [done|]. apply IH, He.
Qed.

Lemma table_entry_spec n :
  0 <= n < 2 ^ 48 -> n mod 4096 = 0 ->
  is_valid (table_entry n) = true /\ is_table (table_entry n) = true /\
  Z.land (table_entry n) ADDR_MASK = n.
Proof.
  intros Hn Hm. unfold table_entry.
  assert (Hlow : forall k, k = 0 \/ k = 1 ->
    Z.testbit (Z.land (Z.lor (Z.lor (pa_to_pte_addr n) PTE_VALID) PTE_TYPE_TABLE) 0x0000FFFFFFFFF003) k
    = true).
  { intros k Hk. rewrite Z.land_spec, <- (Z.lor_0_r (Z.lor _ PTE_TYPE_TABLE)), entry_low by done.
    by destruct Hk as [-> | ->]. }
  rewrite is_valid_bit, is_table_bit, !Hlow by auto. split_and!; [done..|].
  rewrite <- Z.land_assoc. change (Z.land 0x0000FFFFFFFFF003 ADDR_MASK) with (2 ^ 48 - 2 ^ 12).
  rewrite <- (Z.lor_0_r (Z.lor _ PTE_TYPE_TABLE)). unfold PTE_TYPE_TABLE.
  apply entry_address; [lia|done|done|by right|]. intros k Hk. apply Z.bits_0.
Qed.

(** *** A new table hung below an entry *)

(** An entry of a new table: no table hangs from it. *)
Definition leaf_ok (r : nat) (e : Z) : Prop :=
  match r with
  | O => True
  | S _ => is_valid e = true -> is_table e = false /\ block_ok r e
  end.

Lemma walk_leaf m m' r n va :
  (r < 3)%nat ->
  (forall j, 0 <= j < 512 -> leaf_ok r (read_pte m n j) /\ read_pte m' n j = read_pte m n j) ->
  walk m' r n va = walk m r n va.
Proof.
  intros Hr Hl. destruct (Hl (index r va) (index_range _ _)) as [Hleaf Heq].
  destruct r as [|r]; cbn [walk]; rewrite Heq; [done|].
  destruct (is_valid (read_pte m n (index (S r) va))) eqn:Hv; [|done].
  destruct (Hleaf Hv) as [-> _]. by rewrite (proj2 (Nat.ltb_lt _ _)) by lia.
Qed.

Section install.
Context (m m1 : Ram) (lv : Levels) (root n t i : Z) (r : nat).
Context (Hwf : tree_wf m lv root n) (Ht : lv !! t = Some (S r)) (Hi : 0 <= i < 512)
  (Hn : n mod 4096 = 0) (Hn48 : 0 < n < 2 ^ 48)
  (Hsame : forall t' r' j, lv !! t' = Some r' -> 0 <= j < 512 -> read_pte m1 t' j = read_pte m t' j)
  (Hleaf : forall j, 0 <= j < 512 -> leaf_ok r (read_pte m1 n j))
  (Hsub : forall va, index (S r) va = i -> walk m1 r n va = walk m (S r) t va).

Let m' := write_pte m1 t i (table_entry n).
Let lv' := <[n := r]> lv.

Lemma install_fresh : lv !! n = None.
Proof.
  destruct (lv !! n) as [k|] eqn:Hk; [|done]. apply (tw_table m lv root n Hwf) in Hk. lia.
Qed.

Lemma install_ne : n <> t.
Proof. intros Heq. pose proof install_fresh as Hf. rewrite Heq in Hf. congruence. Qed.

Lemma install_level t' r' : lv !! t' = Some r' -> lv' !! t' = Some r'.
Proof.
  intros H. unfold lv'. rewrite lookup_insert_ne; [done|]. intros Heq. pose proof install_fresh.
  congruence.
Qed.

Lemma install_aligned t' r' : lv !! t' = Some r' -> t' mod 4096 = 0.
Proof. intros H. by apply (tw_table m lv root n Hwf) in H as (_ & ? & _). Qed.

Lemma install_new_entries j : 0 <= j < 512 -> read_pte m' n j = read_pte m1 n j.
Proof.
  intros Hj. apply read_write_ne; try done; [by eapply install_aligned|].
  intros [= Heq _]. by apply install_ne.
Qed.

Lemma install_frame t' r' j :
  lv !! t' = Some r' -> 0 <= j < 512 -> (t', j) <> (t, i) -> read_pte m' t' j = read_pte m t' j.
Proof.
  intros Ht' Hj Hne. unfold m'. rewrite read_write_ne; try done; [by eapply Hsame|..];
    by eapply install_aligned.
Qed.

Lemma install_points : points m' t i n.
Proof. unfold points, m'. rewrite read_write_eq. apply table_entry_spec; [lia|done]. Qed.

Lemma install_walk r' t' va : lv !! t' = Some r' -> walk m' r' t' va = walk m r' t' va.
Proof.
  apply (walk_ext m m' lv root n t i); [done|exact install_frame|].
  intros r0 va0 H0 Hidx. rewrite Ht in H0. injection H0 as <-. rewrite <- Hsub by done.
  cbn [walk]. rewrite Hidx. destruct install_points as (-> & -> & ->). cbn [negb].
  rewrite andb_false_r. apply walk_leaf.
  - apply (tw_table m lv root n Hwf) in Ht. lia.
  - intros j Hj. split; [by apply Hleaf|by apply install_new_entries].
Qed.

(** No entry of the new tree but [(t, i)] points to the new table. *)
Lemma install_child t' r' j c :
  lv' !! t' = Some (S r') -> 0 <= j < 512 -> points m' t' j c ->
  (t' = t /\ j = i /\ c = n) \/ (lv !! t' = Some (S r') /\ points m t' j c /\ is_Some (lv !! c)).
Proof.
  intros Ht' Hj Hp. unfold lv' in Ht'. apply lookup_insert_Some in Ht' as [[<- Hr]|[Hne Ht']].
  - destruct Hp as (Hv & Htb & _). rewrite install_new_entries in Hv, Htb by done. exfalso.
    pose proof (Hleaf j Hj) as Hl. rewrite Hr in Hl. destruct (Hl Hv) as [Hf _]. congruence.
  - destruct (decide ((t', j) = (t, i))) as [[= -> ->]|Hd].
    + left. destruct install_points as (_ & _ & Hn'), Hp as (_ & _ & Hc). by rewrite <- Hc.
    + right. unfold points in Hp. rewrite (install_frame t' (S r') j) in Hp by done.
      split_and!; [done|exact Hp|]. destruct Hp as (Hv & Htb & <-).
      pose proof (tw_entry m lv root n Hwf t' (S r') j Ht' Hj) as He. cbn [entry_ok] in He.
      specialize (He Hv). rewrite Htb, andb_false_r in He. exists r'. apply He.
Qed.

Lemma install_wf : tree_wf m' lv' root (n + 4096).
Proof.
  pose proof (tw_table m lv root n Hwf) as Htab. constructor.
  - apply install_level, Hwf.
  - intros t' r' [[<- <-]|[_ H]]%lookup_insert_Some; [|apply Htab in H; lia].
    apply Htab in Ht. split_and!; [lia|done|lia|lia].
  - intros t' r' j [[<- <-]|[_ H]]%lookup_insert_Some Hj.
    + rewrite install_new_entries by done. pose proof (Hleaf j Hj) as Hl.
      apply Htab in Ht. destruct r as [|r0]; [done|]. cbn [entry_ok leaf_ok] in *. intros Hv.
      destruct (Hl Hv) as [-> Hb]. by rewrite (proj2 (Nat.ltb_lt _ _)) by lia.
    + destruct (decide ((t', j) = (t, i))) as [[= -> ->]|Hd].
      * rewrite Ht in H. injection H as <-. cbn [entry_ok]. intros _.
        destruct install_points as (_ & -> & ->). rewrite andb_false_r. split; [done|].
        apply lookup_insert_eq.
      * rewrite (install_frame t' r' j) by done.
        pose proof (tw_entry m lv root n Hwf t' r' j H Hj) as He.
        destruct r' as [|r']; [done|]. cbn [entry_ok] in *. intros Hv. specialize (He Hv).
        destruct ((S r' <? 3)%nat && _); [done|]. destruct He as [Htb Hc]. split; [done|].
        by apply install_level.
  - intros t1 t2 r1 r2 i1 i2 c H1 H2 Hi1 Hi2 Hp1 Hp2. pose proof install_fresh as Hf.
    destruct (install_child t1 r1 i1 c H1 Hi1 Hp1) as [(-> & -> & ->)|(Hl1 & Hq1 & [k1 Hk1])],
      (install_child t2 r2 i2 _ H2 Hi2 Hp2) as [(-> & -> & Hc)|(Hl2 & Hq2 & [k2 Hk2])]; try done.
    + congruence.
    + subst. congruence.
    + by apply (tw_parent m lv root n Hwf t1 t2 r1 r2 i1 i2 c).
Qed.
End install.

(** *** Shattering a block *)
Lemma span_pos r : 4096 <= span r.
Proof. unfold span. change 4096 with (2 ^ 12). apply Z.pow_le_mono_r; lia. Qed.

Lemma span_S r : span (S r) = span r * 512.
Proof.
  unfold span. change 512 with (2 ^ 9). rewrite <- Z.pow_add_r by lia. f_equal. lia.
Qed.

Lemma masked_base e k :
  12 <= k <= 48 -> let x := Z.land e (2 ^ 48 - 2 ^ k) in 0 <= x <= 2 ^ 48 - 2 ^ k /\ x mod 2 ^ k = 0.
Proof.
  intros Hk. cbn zeta. assert (2 ^ k <= 2 ^ 48) by (apply Z.pow_le_mono_r; lia).
  split; [apply land_le_r; lia|]. rewrite <- Z.land_ones by lia.
  apply Z.bits_inj'. intros n Hn. rewrite !Z.land_spec, mask_bits, Z.bits_0 by lia.
  destruct (Z.ltb_spec n k).
  - rewrite (proj2 (Z.leb_gt k n)) by lia. by rewrite andb_false_r.
  - rewrite Z.ones_spec_high by lia. apply andb_false_r.
Qed.

Lemma shatter_attr_ok e : attr_ok (shatter_attr e) /\ Z.testbit (shatter_attr e) 1 = Z.testbit e 1.
Proof.
  unfold shatter_attr, PTE_USER, PTE_XN, PTE_UXN. split.
  - intros n Hn. rewrite !Z.land_spec, Z.lor_spec, Z.land_spec.
    assert (H : Z.testbit 0x000F000000000FFF n = false).
    { change 0x000F000000000FFF with (Z.lor (Z.shiftl (Z.ones 4) 48) (Z.ones 12)).
      rewrite Z.lor_spec, Z.shiftl_spec, Z.testbit_neg_r, Z.ones_spec_high by lia. done. }
    rewrite H. change (Z.shiftl 1 6) with (2 ^ 6). rewrite Z.pow2_bits_eqb by lia.
    rewrite (proj2 (Z.eqb_neq 6 n)) by lia. by rewrite andb_false_r.
  - rewrite !Z.land_spec, Z.lor_spec, Z.land_spec. cbn. by rewrite orb_false_r, !andb_true_r.
Qed.

(** Entry [j] of a table made from block [e]. *)
Definition shard (r : nat) (e j : Z) : Z :=
  Z.lor (Z.lor (Z.lor (pa_to_pte_addr (u64w (Z.land e ADDR_MASK + j * span r))) PTE_VALID)
    (match r with O => PTE_TYPE_PAGE | S _ => PTE_TYPE_BLOCK end)) (shatter_attr e).

Lemma shard_spec r e j :
  (r < 2)%nat -> block_ok (S r) e -> is_table e = false -> 0 <= j < 512 ->
  let x := Z.land e (block_mask (S r)) + j * span r in
  0 <= x < 2 ^ 48 /\ is_valid (shard r e j) = true /\ leaf_ok r (shard r e j) /\
  Z.land (shard r e j) (block_mask r) = x.
Proof.
  intros Hr Hb Ht Hj. cbn zeta. unfold block_ok in Hb. rewrite is_table_bit in Ht.
  destruct (shatter_attr_ok e) as [Hattr Hbit]. rewrite Ht in Hbit.
  pose proof (span_pos r). unfold block_mask.
  destruct (masked_base e (12 + 9 * Z.of_nat (S r)) ltac:(lia)) as [Hx Hxm].
  fold (span (S r)) in Hx, Hxm. fold (block_mask (S r)) in Hx, Hxm |- *.
  unfold shard. rewrite Hb. set (base := Z.land e (block_mask (S r))) in *.
  rewrite span_S in *. set (x := base + j * span r).
  assert (Hxl : base <= 2 ^ 48 - span r * 512) by (unfold block_mask in Hx; rewrite span_S in Hx; lia).
  assert (Hxr : 0 <= x < 2 ^ 48) by (unfold x; nia).
  assert (Hxa : x mod span r = 0).
  { unfold x. rewrite Z.mod_add by lia. apply Z.mod_divide in Hxm; [|nia].
    apply Z.mod_divide; [lia|]. destruct Hxm as [q ->]. exists (q * 512). lia. }
  rewrite u64w_small by lia. split; [done|]. split; [|split].
  - rewrite is_valid_bit, entry_low by auto. done.
  - destruct r as [|r]; [done|]. cbn [leaf_ok]. intros _. split.
    + rewrite is_table_bit, entry_low, Hbit by auto. done.
    + unfold block_ok. change ADDR_MASK with (2 ^ 48 - 2 ^ 12). unfold block_mask, span.
      rewrite !entry_address; try done; try lia; try (by left).
      change (2 ^ 12) with 4096. unfold span in Hxa. replace r with 0%nat in Hxa by lia.
      apply Z.mod_divide in Hxa as [q Hq]; [|lia]. rewrite Hq.
      change (2 ^ (12 + 9 * Z.of_nat 1)) with (512 * 4096). rewrite Z.mul_assoc. by apply Z.mod_mul.
  - unfold span at 1. apply entry_address; try done; [lia|]. destruct r; [by right|by left].
Qed.

Lemma va_split r va : va mod span (S r) = index r va * span r + va mod span r.
Proof.
  rewrite index_div, span_S. pose proof (span_pos r). rewrite Z.rem_mul_r by lia. lia.
Qed.

(** The new table translates as the block did. *)
Lemma shard_walk m1 m r t n va :
  (r < 2)%nat -> let e := read_pte m t (index (S r) va) in
  is_valid e = true -> is_table e = false -> block_ok (S r) e ->
  (forall j, 0 <= j < 512 -> read_pte m1 n j = shard r e j) ->
  walk m1 r n va = walk m (S r) t va.
Proof.
  intros Hr e Hv Ht Hb Hsh. destruct (shard_spec r e (index r va)) as (Hx & Hsv & Hl & Ha);
    [done..|apply index_range|].
  cbn [walk]. fold e. rewrite Hv, Ht, (proj2 (Nat.ltb_lt _ _)) by lia. cbn [negb andb].
  rewrite va_split, Z.add_assoc, <- Ha.
  destruct r as [|r]; cbn [walk]; rewrite Hsh, Hsv by apply index_range; cbn [negb]; [done|].
  destruct (Hl Hsv) as [-> _]. by rewrite (proj2 (Nat.ltb_lt _ _)) by lia.
Qed.

(** *** One level of the walk *)
Record pt_inv (st : PtState) (lv : Levels) : Prop := {
  pi_phys : phys_wf (st_phys st);
  pi_tree : tree_wf (st_ram st) lv (pt_l0_pa (st_tree st)) (next_free (st_phys st));
  pi_root : pt_has_root (st_tree st) = true
}.

(** What a step that hangs a table below [(t, i)] leaves alone. *)
Record extends (st st' : PtState) (lv lv' : Levels) (t i : Z) : Prop := {
  ex_root : pt_l0_pa (st_tree st') = pt_l0_pa (st_tree st);
  ex_levels : forall t' r', lv !! t' = Some r' -> lv' !! t' = Some r';
  ex_frame : forall t' r' j, lv !! t' = Some r' -> 0 <= j < 512 -> (t', j) <> (t, i) ->
    read_pte (st_ram st') t' j = read_pte (st_ram st) t' j;
  ex_walk : forall r' t' va, lv !! t' = Some r' ->
    walk (st_ram st') r' t' va = walk (st_ram st) r' t' va;
  ex_child : forall t' r' j c, lv' !! t' = Some (S r') -> 0 <= j < 512 -> points (st_ram st') t' j c ->
    (lv !! t' = Some (S r') /\ points (st_ram st) t' j c) \/
    (next_free (st_phys st) <= c /\ (lv !! t' = Some (S r') -> t' = t /\ j = i))
}.

(** What hanging tables leaves of the allocator and of the frames that are
    not tables: at most [k] frames taken, everything below the old cursor as
    it was. *)
Record grown (st st' : PtState) (lv lv' : Levels) (k : Z) : Prop := {
  gr_next : next_free (st_phys st) <= next_free (st_phys st') <= next_free (st_phys st) + 4096 * k;
  gr_end : end_free (st_phys st') = end_free (st_phys st);
  gr_tags : forall pa, RAM_BASE <= pa < next_free (st_phys st) ->
    default 0 (tags (st_phys st') !! pa_to_pfn pa) = default 0 (tags (st_phys st) !! pa_to_pfn pa);
  gr_levels : forall t r, lv !! t = Some r -> lv' !! t = Some r;
  gr_new : forall t, lv !! t = None -> t < next_free (st_phys st) -> lv' !! t = None;
  gr_data : forall t j, t mod 4096 = 0 -> 0 <= j < 512 -> t < next_free (st_phys st) -> lv !! t = None ->
    read_pte (st_ram st') t j = read_pte (st_ram st) t j
}.

Lemma grown_refl st lv : grown st st lv lv 0.
Proof. constructor; (done || lia). Qed.

Lemma grown_trans st1 st2 st3 lv1 lv2 lv3 k1 k2 :
  grown st1 st2 lv1 lv2 k1 -> grown st2 st3 lv2 lv3 k2 -> grown st1 st3 lv1 lv3 (k1 + k2).
Proof.
  intros [N1 E1 T1 L1 W1 D1] [N2 E2 T2 L2 W2 D2]. constructor.
  - lia.
  - congruence.
  - intros pa Hpa. rewrite T2, T1; [done|done|lia].
  - intros t r Ht. by apply L2, L1.
  - intros t Ht Hn. apply W2; [by apply W1|lia].
  - intros t j Hm Hj Hn Ht. rewrite D2, D1; [done|done|done|done|done|done|done|lia|by apply W1].
Qed.

Lemma grown_more st st' lv lv' k k' : k <= k' -> grown st st' lv lv' k -> grown st st' lv lv' k'.
Proof. intros Hk [N E T L W D]. constructor; try done. lia. Qed.

Lemma track_frame pa st :
  st_ram (track pa st) = st_ram st /\ pt_l0_pa (st_tree (track pa st)) = pt_l0_pa (st_tree st) /\
  pt_has_root (st_tree (track pa st)) = pt_has_root (st_tree st) /\
  next_free (st_phys (track pa st)) = next_free (st_phys st) /\
  end_free (st_phys (track pa st)) = end_free (st_phys st) /\
  tags (st_phys (track pa st)) = tags (st_phys st) /\
  (phys_wf (st_phys st) -> pa < next_free (st_phys st) -> phys_wf (st_phys (track pa st))).
Proof.
  unfold track. destruct (64 <=? _)%nat; [done|]. destruct (existsb _ _); [done|].
  cbn [st_tree st_phys st_ram pt_l0_pa pt_has_root]. split_and!; try done.
  - unfold st_ram, register_pt_page. cbn. by destruct (pa =? 0).
  - unfold register_pt_page. by destruct (pa =? 0).
  - unfold register_pt_page. by destruct (pa =? 0).
  - unfold register_pt_page. by destruct (pa =? 0).
  - apply register_wf.
Qed.

Lemma set_ram_wf p m : phys_wf p -> phys_wf (set_ram p m).
Proof. intros []. by constructor. Qed.

Lemma level_bounds st lv :
  pt_inv st lv -> let n := next_free (st_phys st) in
  n mod 4096 = 0 /\ 0 < n /\ (n < end_free (st_phys st) -> n < 2 ^ 48).
Proof. intros Hinv. destruct (pi_phys st lv Hinv). unfold RAM_BASE, RAM_SIZE in *. cbn zeta. lia. Qed.

Section level.
Context (st : PtState) (lv : Levels) (t i : Z) (r : nat).
Context (Hinv : pt_inv st lv) (Ht : lv !! t = Some (S r)) (Hi : 0 <= i < 512).

Let n := next_free (st_phys st).
Let e := read_pte (st_ram st) t i.

(** A new table with contents [c], installed. *)
Lemma install_state (c : Ram -> Ram) (st2 : PtState) :
  n < end_free (st_phys st) ->
  (forall t' j, t' mod 4096 = 0 -> 0 <= j < 512 -> t' <> n ->
     read_pte (c (zero_page (st_ram st) n)) t' j = read_pte (zero_page (st_ram st) n) t' j) ->
  (forall j, 0 <= j < 512 -> leaf_ok r (read_pte (c (zero_page (st_ram st) n)) n j)) ->
  (forall va, index (S r) va = i -> walk (c (zero_page (st_ram st) n)) r n va = walk (st_ram st) (S r) t va) ->
  st_ram st2 = write_pte (c (zero_page (st_ram st) n)) t i (table_entry n) ->
  pt_l0_pa (st_tree st2) = pt_l0_pa (st_tree st) -> pt_has_root (st_tree st2) = true ->
  phys_wf (st_phys st2) -> next_free (st_phys st2) = n + 4096 ->
  end_free (st_phys st2) = end_free (st_phys st) ->
  tags (st_phys st2) = tags (alloc_next TPageTable (st_phys st)) ->
  pt_inv st2 (<[n := r]> lv) /\ points (st_ram st2) t i n /\ extends st st2 lv (<[n := r]> lv) t i /\
  grown st st2 lv (<[n := r]> lv) 1.
Proof.
  intros Hroom Hout Hleaf Hsub Hram Hroot Hhas Hwf Hnext Hend Htags.
  destruct (level_bounds st lv Hinv) as (Hn & Hn0 & Hn48). fold n in Hn, Hn0, Hn48. specialize (Hn48 Hroom).
  pose proof (pi_tree st lv Hinv) as Htree. fold n in Htree.
  assert (Hsame : forall t' r' j, lv !! t' = Some r' -> 0 <= j < 512 ->
    read_pte (c (zero_page (st_ram st) n)) t' j = read_pte (st_ram st) t' j).
  { intros t' r' j Ht' Hj. apply (tw_table _ _ _ _ Htree) in Ht' as (_ & Ha & _ & Hb).
    rewrite Hout by (done || lia). apply zero_out; [done..|lia]. }
  assert (Hr48 : 0 < n < 2 ^ 48) by lia. split; [|split; [|split]].
  - constructor; [done| |done]. rewrite Hram, Hroot, Hnext. by apply (install_wf (st_ram st)).
  - rewrite Hram. by apply (install_points _ n t i).
  - constructor; [done|..].
    + intros t' r'. by apply (install_level (st_ram st) lv (pt_l0_pa (st_tree st)) n).
    + rewrite Hram. by apply (install_frame (st_ram st) _ lv (pt_l0_pa (st_tree st)) n t i r).
    + rewrite Hram. by apply (install_walk (st_ram st) _ lv (pt_l0_pa (st_tree st)) n t i r).
    + intros t' r' j c0 Ht' Hj. rewrite Hram. intros Hp.
      destruct (install_child (st_ram st) (c (zero_page (st_ram st) n)) lv (pt_l0_pa (st_tree st)) n t i r
        Htree Ht Hi Hn Hr48 Hsame Hleaf t' r' j c0 Ht' Hj Hp) as [(-> & -> & ->)|(? & ? & _)]; [by right|by left].
  - constructor; [rewrite Hnext; fold n; lia|done|..].
    + intros pa Hpa. rewrite Htags. apply alloc_next_tags; [apply Hinv|done|done].
    + intros t' r'. by apply (install_level (st_ram st) lv (pt_l0_pa (st_tree st)) n).
    + intros t' Ht' Hlt. rewrite lookup_insert_ne; [done|]. fold n in Hlt. lia.
    + intros t' j Hm Hj Hlt Ht'. fold n in Hlt. assert (Htm : t mod 4096 = 0) by (by apply (tw_table _ _ _ _ Htree) in Ht as (_ & ? & _)).
      rewrite Hram, read_write_ne; [|done..|intros [= -> _]; congruence].
      rewrite Hout by (done || lia). apply zero_out; [done..|lia].
Qed.
End level.

Definition level_result (st : PtState) (lv : Levels) (t i : Z) (r : nat)
    (res : option (kresult Z * PtState)) : Prop :=
  match res with
  | Some (Ok c, st') =>
      exists lv', pt_inv st' lv' /\ lv' !! c = Some r /\ points (st_ram st') t i c /\
        extends st st' lv lv' t i /\ grown st st' lv lv' 1
  | Some (Err e, st') => e = NoMemory /\ st' = st /\ end_free (st_phys st) <= next_free (st_phys st)
  | None => False
  end.

Lemma pt_alloc_eq st lv :
  pt_inv st lv ->
  pt_alloc st =
  if end_free (st_phys st) <=? next_free (st_phys st) then Some (Err NoMemory, st)
  else Some (Ok (next_free (st_phys st)), mkPt (st_tree st) (alloc_next TPageTable (st_phys st))).
Proof.
  intros []. unfold pt_alloc, alloc_pt_page. rewrite alloc_page_eq by done.
  destruct (_ <=? _); [|done]. by destruct st.
Qed.

Lemma level_new st lv t i r :
  pt_inv st lv -> lv !! t = Some (S r) -> 0 <= i < 512 ->
  is_valid (read_pte (st_ram st) t i) = false ->
  level_result st lv t i r (new_table t i st).
Proof.
  intros Hinv Ht Hi Hv. unfold new_table, mbind, pt_bind. rewrite (pt_alloc_eq st lv Hinv).
  destruct (end_free (st_phys st) <=? next_free (st_phys st)) eqn:E; reflect; [done|].
  unfold pt_write, pt_modify, mret, pt_ret, level_result. set (n := next_free (st_phys st)).
  match goal with |- context [track n ?s] => set (s1 := s) end.
  destruct (track_frame n s1) as (Hram & Hl0 & Hroot & Hnext & Hend & Htags & Hwf).
  destruct (install_state st lv t i r Hinv Ht Hi (fun m => m) (track n s1)) as (H1 & H2 & H3);
    [exact E|intros; reflexivity| | |exact Hram|exact Hl0| | |exact Hnext|exact Hend|exact Htags|].
  - intros j Hj. rewrite zero_in by done. by destruct r.
  - intros va Hidx. cbn [walk]. rewrite Hidx, Hv. destruct r; cbn [walk]; by rewrite zero_in by apply index_range.
  - by rewrite Hroot, <- (pi_root st lv Hinv).
  - apply Hwf; cbn; [|lia]. apply set_ram_wf, alloc_next_wf; [apply Hinv|lia].
  - eexists. split_and!; [exact H1|apply lookup_insert_eq|exact H2|apply H3..].
Qed.

Lemma level_shatter st lv t i r ty :
  pt_inv st lv -> lv !! t = Some (S r) -> 0 <= i < 512 -> (r < 2)%nat ->
  let e := read_pte (st_ram st) t i in
  is_valid e = true -> is_table e = false ->
  ty = (match r with O => PTE_TYPE_PAGE | S _ => PTE_TYPE_BLOCK end) ->
  level_result st lv t i r (shatter (span r) ty t i e st).
Proof.
  intros Hinv Ht Hi Hr e Hv Htb ->. unfold shatter, mbind, pt_bind. rewrite (pt_alloc_eq st lv Hinv).
  destruct (end_free (st_phys st) <=? next_free (st_phys st)) eqn:E; reflect; [done|].
  unfold pt_write, pt_modify, mret, pt_ret, level_result. set (n := next_free (st_phys st)).
  set (s1 := mkPt (st_tree st) (alloc_next TPageTable (st_phys st))).
  destruct (track_frame n s1) as (Hram & Hl0 & Hroot & Hnext & Hend & Htags & Hwf).
  destruct (level_bounds st lv Hinv) as (Hn & _ & _). fold n in Hn.
  assert (Hb : block_ok (S r) e).
  { pose proof (tw_entry _ _ _ _ (pi_tree st lv Hinv) t (S r) i Ht Hi) as He. fold e in He.
    cbn [entry_ok] in He. specialize (He Hv). by rewrite Htb, (proj2 (Nat.ltb_lt _ _)) in He by lia. }
  match goal with |- context [fill_table _ n ?f] => set (f0 := f) end.
  assert (Hf : forall m j, 0 <= j < 512 -> read_pte (fill_table m n f0) n j = shard r e j)
    by (intros m j Hj; by rewrite fill_in).
  match goal with |- exists lv', pt_inv ?s lv' /\ _ => set (s2 := s) end.
  destruct (install_state st lv t i r Hinv Ht Hi (fun m => fill_table m n f0) s2) as (H1 & H2 & H3);
    [exact E| | | | |exact Hl0| | |exact Hnext|exact Hend|exact Htags|].
  - intros t' j Ht' Hj Hne. by apply fill_out.
  - intros j Hj. rewrite Hf by done. by apply (shard_spec r e j).
  - intros va <-. apply shard_walk; [done..|]. intros j Hj. by apply Hf.
  - exact (f_equal (fun m => write_pte (fill_table m n f0) t i (table_entry n)) Hram).
  - cbn. by rewrite Hroot, <- (pi_root st lv Hinv).
  - cbn. apply set_ram_wf, set_ram_wf, Hwf; cbn; [|lia]. apply alloc_next_wf; [apply Hinv|lia].
  - eexists. split_and!; [exact H1|apply lookup_insert_eq|exact H2|apply H3..].
Qed.

(** One level: followed, made or shattered. *)
Lemma level_spec st lv t i r on_block :
  pt_inv st lv -> lv !! t = Some (S r) -> 0 <= i < 512 ->
  ((r < 2)%nat -> on_block = shatter (span r)
     (match r with O => PTE_TYPE_PAGE | S _ => PTE_TYPE_BLOCK end) t i) ->
  level_result st lv t i r (level t i on_block st).
Proof.
  intros Hinv Ht Hi Hob. unfold level, mbind, pt_bind, pt_read.
  set (e := read_pte (st_ram st) t i).
  destruct (is_valid e) eqn:Hv; cbn [andb]; [|by apply level_new].
  pose proof (tw_entry _ _ _ _ (pi_tree st lv Hinv) t (S r) i Ht Hi) as He. fold e in He.
  cbn [entry_ok] in He. specialize (He Hv).
  pose proof (tw_table _ _ _ _ (pi_tree st lv Hinv) t (S r) Ht) as (Hr3 & _).
  destruct (is_table e) eqn:Htb; cbn [negb] in He.
  - rewrite andb_false_r in He. exists lv. split_and!; [done|apply He|done|constructor; try done; by left|].
    apply (grown_more _ _ _ _ 0); [lia|apply grown_refl].
  - destruct (decide (r < 2)%nat) as [Hr|Hr].
    + rewrite Hob by done. by apply level_shatter.
    + rewrite (proj2 (Nat.ltb_ge _ _)) in He by lia. by destruct He.
Qed.

(** *** The L3 table of an address *)
Fixpoint path (m : Ram) (r : nat) (t va : Z) : option Z :=
  match r with
  | O => Some t
  | S r' =>
      let e := read_pte m t (index r va) in
      if is_valid e && is_table e then path m r' (Z.land e ADDR_MASK) va else None
  end.

Lemma path_points m r t va c l3 :
  points m t (index (S r) va) c -> path m r c va = Some l3 -> path m (S r) t va = Some l3.
Proof. intros (Hv & Ht & <-) Hp. cbn [path]. by rewrite Hv, Ht. Qed.

Lemma path_step m r t va l3 :
  path m (S r) t va = Some l3 -> exists c, points m t (index (S r) va) c /\ path m r c va = Some l3.
Proof.
  cbn [path]. destruct (is_valid _) eqn:Hv, (is_table _) eqn:Ht; try done. cbn [andb].
  intros Hp. by eexists.
Qed.

Lemma path_ext m va va' r t :
  (forall k, (1 <= k <= r)%nat -> index k va = index k va') -> path m r t va = path m r t va'.
Proof.
  revert t. induction r as [|r IH]; intros t H; [done|]. cbn [path]. rewrite (H (S r)) by lia.
  destruct (_ && _); [|done]. apply IH. intros k Hk. apply H. lia.
Qed.

Lemma child_level m lv root cur t r i c :
  tree_wf m lv root cur -> lv !! t = Some (S r) -> 0 <= i < 512 -> points m t i c -> lv !! c = Some r.
Proof.
  intros Hwf Ht Hi (Hv & Htb & <-). pose proof (tw_entry _ _ _ _ Hwf t (S r) i Ht Hi) as He.
  cbn [entry_ok] in He. specialize (He Hv). rewrite Htb, andb_false_r in He. apply He.
Qed.

Lemma path_unique m lv root cur va va' l3 r t t' :
  tree_wf m lv root cur -> lv !! t = Some r -> lv !! t' = Some r ->
  path m r t va = Some l3 -> path m r t' va' = Some l3 ->
  t = t' /\ forall k, (1 <= k <= r)%nat -> index k va = index k va'.
Proof.
  intros Hwf. revert t t'. induction r as [|r IH]; intros t t' Ht Ht' Hp Hp'.
  - injection Hp as ->. injection Hp' as ->. split; [done|]. intros k Hk. lia.
  - apply path_step in Hp as (c & Hc & Hp). apply path_step in Hp' as (c' & Hc' & Hp').
    destruct (IH c c') as [<- Hk]; try done;
      [exact (child_level m lv root cur t r _ c Hwf Ht (index_range _ _) Hc)
      |exact (child_level m lv root cur t' r _ c' Hwf Ht' (index_range _ _) Hc')|].
    destruct (tw_parent _ _ _ _ Hwf t t' r r _ _ c Ht Ht' (index_range _ _) (index_range _ _) Hc Hc')
      as [<- Hidx].
    split; [done|]. intros k Hk'. destruct (decide (k = S r)) as [->|]; [done|]. apply Hk. lia.
Qed.

(** Writing an L3 entry changes the translation of its page alone. *)
Lemma walk_write m lv root cur l3 i0 e r t va :
  tree_wf m lv root cur -> lv !! l3 = Some 0%nat -> 0 <= i0 < 512 -> lv !! t = Some r ->
  walk (write_pte m l3 i0 e) r t va =
  if decide (path m r t va = Some l3 /\ index 0 va = i0)
  then walk (write_pte m l3 i0 e) 0 l3 va else walk m r t va.
Proof.
  intros Hwf Hl3 Hi0. pose proof (tw_table _ _ _ _ Hwf) as Htab.
  assert (Hne : forall t' r' j, lv !! t' = Some r' -> 0 <= j < 512 -> (t', j) <> (l3, i0) ->
    read_pte (write_pte m l3 i0 e) t' j = read_pte m t' j).
  { intros t' r' j Ht' Hj Hd. apply Htab in Ht' as (_ & ? & _). apply Htab in Hl3 as (_ & ? & _).
    by apply read_write_ne. }
  revert t. induction r as [|r IH]; intros t Ht.
  - cbn [path]. destruct (decide _) as [[[= ->] _]|Hd]; [done|]. cbn [walk].
    rewrite (Hne t _ _ Ht (index_range _ _)); [done|]. intros [= -> Hidx]. by apply Hd.
  - assert (Hsame : read_pte (write_pte m l3 i0 e) t (index (S r) va) = read_pte m t (index (S r) va)).
    { apply (Hne t _ _ Ht (index_range _ _)). intros [= -> _]. congruence. }
    set (W := walk _ 0 l3 va) in *. cbn [walk path]. rewrite Hsame.
    set (e0 := read_pte m t (index (S r) va)).
    pose proof (tw_entry _ _ _ _ Hwf t (S r) (index (S r) va) Ht (index_range _ _)) as He.
    fold e0 in He. cbn [entry_ok] in He.
    destruct (is_valid e0) eqn:Hv; cbn [negb andb]; [|by rewrite decide_False by (by intros [? _])].
    specialize (He eq_refl). destruct (is_table e0) eqn:Htb; cbn [negb] in *.
    + rewrite andb_false_r in *. apply IH, He.
    + rewrite decide_False by (by intros [? _]). rewrite andb_true_r in *.
      destruct (S r <? 3)%nat; [done|by destruct He].
Qed.

Lemma attr_ok_mod a : (Z.shiftr a 12) mod 2 ^ 36 = 0 -> attr_ok a.
Proof.
  intros Ha n Hn. replace n with ((n - 12) + 12) by lia.
  rewrite <- Z.shiftr_spec by lia. rewrite <- (Z.mod_pow2_bits_low _ 36) by lia.
  by rewrite Ha, Z.bits_0.
Qed.

Lemma pte_attr_ok f : attr_ok (pte_attr_bits f).
Proof. apply attr_ok_mod. by destruct f as [[] r [] [] []]. Qed.

Lemma page_entry_spec pa f :
  0 <= pa < 2 ^ 48 -> pa mod 4096 = 0 ->
  is_valid (page_entry pa f) = true /\ Z.land (page_entry pa f) ADDR_MASK = pa.
Proof.
  intros Hpa Hm. unfold page_entry. split.
  - rewrite is_valid_bit, entry_low by auto. done.
  - change ADDR_MASK with (2 ^ 48 - 2 ^ 12).
    apply entry_address; [lia|done|done|by right|apply pte_attr_ok].
Qed.

Lemma page_write_wf m lv root cur l3 i0 e :
  tree_wf m lv root cur -> lv !! l3 = Some 0%nat -> 0 <= i0 < 512 ->
  tree_wf (write_pte m l3 i0 e) lv root cur.
Proof.
  intros Hwf Hl3 Hi0. pose proof (tw_table _ _ _ _ Hwf) as Htab.
  assert (Hne : forall t' r' j, lv !! t' = Some (S r') -> 0 <= j < 512 ->
    read_pte (write_pte m l3 i0 e) t' j = read_pte m t' j).
  { intros t' r' j Ht' Hj. pose proof (Htab _ _ Ht') as (_ & ? & _).
    pose proof (Htab _ _ Hl3) as (_ & ? & _). apply read_write_ne; try done. intros [= -> _]. congruence. }
  constructor; [apply Hwf|done|..].
  - intros t [|r] i Ht Hi; [done|]. rewrite (Hne t r i) by done. exact (tw_entry _ _ _ _ Hwf t (S r) i Ht Hi).
  - intros t1 t2 r1 r2 i1 i2 c H1 H2 Hi1 Hi2. unfold points.
    rewrite (Hne t1 r1 i1), (Hne t2 r2 i2) by done.
    exact (tw_parent _ _ _ _ Hwf t1 t2 r1 r2 i1 i2 c H1 H2 Hi1 Hi2).
Qed.

(** *** The tables a walk goes through *)
Fixpoint walk_tables (m : Ram) (r : nat) (t va : Z) : list Z :=
  t :: match r with
       | O => []
       | S r =>
           let e := read_pte m t (index (S r) va) in
           if is_valid e && is_table e then walk_tables m r (Z.land e ADDR_MASK) va else []
       end.

Definition tables_at (st : PtState) (va : Z) : list Z := walk_tables (st_ram st) 3 (pt_l0_pa (st_tree st)) va.

Lemma walk_tables_step m r t va c x :
  points m t (index (S r) va) c -> x ∈ walk_tables m r c va -> x ∈ walk_tables m (S r) t va.
Proof. intros (Hv & Ht & <-) Hx. cbn [walk_tables]. rewrite Hv, Ht. by right. Qed.

Lemma walk_tables_inv m r t va x :
  x ∈ walk_tables m r t va -> x = t \/ exists r' c, r = S r' /\ points m t (index r va) c /\ x ∈ walk_tables m r' c va.
Proof.
  destruct r as [|r]; cbn [walk_tables]; intros [->|Hx]%elem_of_cons; auto; [by apply not_elem_of_nil in Hx|].
  destruct (is_valid _) eqn:Hv, (is_table _) eqn:Ht; cbn [andb] in Hx; try by apply not_elem_of_nil in Hx.
  right. exists r. by eexists.
Qed.

Lemma walk_tables_head m r t va : t ∈ walk_tables m r t va.
Proof. destruct r; by left. Qed.

(** The tables are those of the tree. *)
Lemma walk_tables_in m lv root cur r t va x :
  tree_wf m lv root cur -> lv !! t = Some r -> x ∈ walk_tables m r t va -> is_Some (lv !! x).
Proof.
  intros Hwf. revert t. induction r as [|r IH]; intros t Ht [->|(r' & c & Hr & Hp & Hx)]%walk_tables_inv; [by eexists|done|by eexists|].
  injection Hr as <-. apply (IH c); [|done]. exact (child_level m lv root cur t r _ c Hwf Ht (index_range _ _) Hp).
Qed.

(** What hanging tables along the walks of the addresses [R] leaves: the
    other tables are as they were, and an entry that points to a table is an
    old one or points to a new frame. *)
Record spread (st st' : PtState) (lv lv' : Levels) (R : Z -> Prop) : Prop := {
  sd_root : pt_l0_pa (st_tree st') = pt_l0_pa (st_tree st);
  sd_same : forall x r j, lv !! x = Some r -> 0 <= j < 512 -> (forall va, R va -> x ∉ tables_at st va) ->
    read_pte (st_ram st') x j = read_pte (st_ram st) x j;
  sd_child : forall x r j c, lv' !! x = Some (S r) -> 0 <= j < 512 -> points (st_ram st') x j c ->
    (lv !! x = Some (S r) /\ points (st_ram st) x j c) \/
    (next_free (st_phys st) <= c /\ (lv !! x = Some (S r) -> exists va, R va /\ index (S r) va = j))
}.

Lemma spread_refl st lv R : spread st st lv lv R.
Proof. constructor; try done. by left. Qed.

Lemma spread_mono st st' lv lv' (R R' : Z -> Prop) : (forall va, R va -> R' va) -> spread st st' lv lv' R -> spread st st' lv lv' R'.
Proof.
  intros HR [Hr Hs Hc]. constructor; [done| |].
  - intros x r j Hx Hj Hn. apply (Hs x r j Hx Hj). intros va Hva. by apply Hn, HR.
  - intros x r j c Hx Hj Hp. destruct (Hc x r j c Hx Hj Hp) as [?|[? He]]; [by left|right]. split; [done|].
    intros Hl. destruct (He Hl) as (va & ? & ?). exists va. split; [by apply HR|done].
Qed.

(** The new frames only lead to new frames. *)
Lemma spread_fresh st st' lv lv' R r t va x :
  pt_inv st lv -> pt_inv st' lv' -> spread st st' lv lv' R -> lv' !! t = Some r -> next_free (st_phys st) <= t ->
  x ∈ walk_tables (st_ram st') r t va -> next_free (st_phys st) <= x.
Proof.
  intros Hi Hi' Hs. revert t. induction r as [|r IH]; intros t Ht Hn [->|(r' & c & Hr & Hp & Hx)]%walk_tables_inv; try done.
  injection Hr as <-.
  apply (IH c); [exact (child_level _ _ _ _ t r _ c (pi_tree _ _ Hi') Ht (index_range _ _) Hp)| |done].
  destruct (sd_child _ _ _ _ _ Hs t r _ c Ht (index_range _ _) Hp) as [[Hl _]|[? _]]; [|done].
  apply (tw_table _ _ _ _ (pi_tree _ _ Hi)) in Hl. lia.
Qed.

Lemma spread_walk st st' lv lv' R va x :
  pt_inv st lv -> pt_inv st' lv' -> spread st st' lv lv' R -> (forall t r, lv !! t = Some r -> lv' !! t = Some r) ->
  x ∈ tables_at st' va -> x ∈ tables_at st va \/ next_free (st_phys st) <= x.
Proof.
  intros Hi Hi' Hs Hl. unfold tables_at. rewrite (sd_root _ _ _ _ _ Hs).
  pose proof (tw_root _ _ _ _ (pi_tree _ _ Hi)) as Ht. revert Ht. generalize (pt_l0_pa (st_tree st)). generalize 3%nat as r.
  induction r as [|r IH]; intros t Ht [->|(r' & c & Hr & Hp & Hx)]%walk_tables_inv; try by left; apply walk_tables_head.
  { done. }
  injection Hr as <-. destruct (sd_child _ _ _ _ _ Hs t r _ c (Hl _ _ Ht) (index_range _ _) Hp) as [[_ Hp']|[Hn _]].
  - pose proof (child_level _ _ _ _ t r _ c (pi_tree _ _ Hi) Ht (index_range _ _) Hp') as Hc.
    destruct (IH c Hc Hx) as [H|H]; [left|by right]. by apply (walk_tables_step _ _ _ _ c).
  - right. eapply spread_fresh; [exact Hi|exact Hi'|exact Hs| |exact Hn|exact Hx].
    exact (child_level _ _ _ _ t r _ c (pi_tree _ _ Hi') (Hl _ _ Ht) (index_range _ _) Hp).
Qed.

Lemma spread_trans st1 st2 st3 lv1 lv2 lv3 R :
  pt_inv st1 lv1 -> pt_inv st2 lv2 -> (forall t r, lv1 !! t = Some r -> lv2 !! t = Some r) ->
  next_free (st_phys st1) <= next_free (st_phys st2) ->
  spread st1 st2 lv1 lv2 R -> spread st2 st3 lv2 lv3 R -> spread st1 st3 lv1 lv3 R.
Proof.
  intros Hi1 Hi2 Hl Hn Hs12 Hs23. pose proof Hs12 as [R1 S1 C1]. pose proof Hs23 as [R2 S2 C2]. constructor; [congruence| |].
  - intros x r j Hx Hj Hno. rewrite (S2 x r j (Hl _ _ Hx) Hj); [by apply (S1 x r)|].
    intros va Hva Hin. destruct (spread_walk _ _ _ _ _ va x Hi1 Hi2 Hs12 Hl Hin) as [H|H]; [by apply (Hno va)|].
    apply (tw_table _ _ _ _ (pi_tree _ _ Hi1)) in Hx. lia.
  - intros x r j c Hx Hj Hp. destruct (C2 x r j c Hx Hj Hp) as [[Hx2 Hp2]|[Hc He]]; [by apply (C1 x r j c)|].
    right. split; [lia|]. intros Hl1. by apply He, Hl.
Qed.

(** *** Addresses of pages *)
Lemma page_aligned_test x : (Z.land x 0xFFF =? 0) = (x mod 4096 =? 0).
Proof. change 0xFFF with (Z.ones 12). by rewrite Z.land_ones by lia. Qed.

(** The state after the walk of [map_va]: the three levels are there and
    nothing translates differently. *)
Record walked (st st3 : PtState) (lv : Levels) (va l3 : Z) (lv3 : Levels) : Prop := {
  wk_grown : grown st st3 lv lv3 3;
  wk_inv : pt_inv st3 lv3;
  wk_root : pt_l0_pa (st_tree st3) = pt_l0_pa (st_tree st);
  wk_level : lv3 !! l3 = Some 0%nat;
  wk_spread : spread st st3 lv lv3 (eq va);
  wk_table : l3 ∈ tables_at st3 va;
  wk_path : path (st_ram st3) 3 (pt_l0_pa (st_tree st)) va = Some l3;
  wk_walk : forall va', walk (st_ram st3) 3 (pt_l0_pa (st_tree st)) va' =
                        walk (st_ram st) 3 (pt_l0_pa (st_tree st)) va'
}.

(** The three levels of [map_va]. *)
Definition walk_levels (l0_pa va : Z) : PT Z :=
  l1_pa ← level l0_pa (va_l0_index va) (fun _ => pt_err NotAllowed);
  l2_pa ← level l1_pa (va_l1_index va) (shatter_l1_block l1_pa (va_l1_index va));
  level l2_pa (va_l2_index va) (shatter_l2_block l2_pa (va_l2_index va)).

Lemma map_va_levels va pa flags st :
  va mod 4096 = 0 -> pa mod 4096 = 0 -> pt_has_root (st_tree st) = true ->
  map_va va pa flags st =
  (l3_pa ← walk_levels (pt_l0_pa (st_tree st)) va;
   pt_write l3_pa (va_l3_index va) (page_entry pa flags)) st.
Proof.
  intros Hva Hpa Hroot. unfold map_va. rewrite !page_aligned_test, Hva, Hpa, Hroot. cbn [Z.eqb negb orb].
  unfold walk_levels, mbind, pt_bind.
  destruct (level _ _ _ st) as [[[l1|e1] s1]|]; [|done..].
  destruct (level _ _ _ s1) as [[[l2|e2] s2]|]; [|done..].
  by destruct (level _ _ _ s2) as [[[l3|e3] s3]|].
Qed.

(** A state after some levels: same root, same translations as [st]. *)
Record reached (st s : PtState) (lv0 lv : Levels) (va k : Z) : Prop := {
  re_inv : pt_inv s lv;
  re_spread : spread st s lv0 lv (eq va);
  re_grown : grown st s lv0 lv k;
  re_root : pt_l0_pa (st_tree s) = pt_l0_pa (st_tree st);
  re_walk : forall va', walk (st_ram s) 3 (pt_l0_pa (st_tree st)) va' =
                        walk (st_ram st) 3 (pt_l0_pa (st_tree st)) va'
}.

Lemma reached_refl st lv va : pt_inv st lv -> reached st st lv lv va 0.
Proof. constructor; try done. - apply spread_refl. - apply grown_refl. Qed.

(** One entry of a table on the walk. *)
Lemma extends_spread s s' lv lv' t r va :
  extends s s' lv lv' t (index (S r) va) -> lv !! t = Some (S r) -> t ∈ tables_at s va -> spread s s' lv lv' (eq va).
Proof.
  intros [Hr _ Hf _ Hc] Hl Ht. constructor; [done| |].
  - intros x k j Hx Hj Hno. apply (Hf x k j Hx Hj). intros [= -> _]. by apply (Hno va).
  - intros x k j c Hx Hj Hp. destruct (Hc x k j c Hx Hj Hp) as [?|[? He]]; [by left|right]. split; [done|].
    intros Hk. destruct (He Hk) as [-> ->]. exists va. split; [done|]. congruence.
Qed.

Lemma reached_extends st s s' lv0 lv lv' t r va k :
  pt_inv st lv0 -> reached st s lv0 lv va k -> pt_inv s' lv' -> lv !! t = Some (S r) -> t ∈ tables_at s va ->
  extends s s' lv lv' t (index (S r) va) /\ grown s s' lv lv' 1 ->
  reached st s' lv0 lv' va (k + 1).
Proof.
  intros Hinv0 [Hinv Hsp Hg Hroot Hwalk] Hinv' Hl Ht [Hx Hg']. pose proof Hx as [Hr' _ _ Hw' _].
  constructor; [done| |by eapply grown_trans|congruence|].
  - eapply spread_trans; [exact Hinv0|exact Hinv|apply Hg|apply Hg|exact Hsp|by eapply extends_spread].
  - intros va'. rewrite Hw'; [apply Hwalk|]. rewrite <- Hroot. apply Hinv.
Qed.

Lemma extends_points s s' lv lv' t i t0 i0 c r :
  extends s s' lv lv' t i -> lv !! t0 = Some r -> 0 <= i0 < 512 -> t0 <> t ->
  points (st_ram s) t0 i0 c -> points (st_ram s') t0 i0 c.
Proof.
  intros Hex Ht Hi Hne. unfold points. rewrite (ex_frame _ _ _ _ _ _ Hex t0 r i0); [done|done|done|].
  by intros [= ? ?].
Qed.

Lemma reached_more st s lv0 lv va k k' : k <= k' -> reached st s lv0 lv va k -> reached st s lv0 lv va k'.
Proof. intros Hk [Hinv Hsp Hg Hroot Hwalk]. constructor; try done. by eapply grown_more. Qed.

Lemma walk_levels_spec st lv va :
  pt_inv st lv ->
  match walk_levels (pt_l0_pa (st_tree st)) va st with
  | Some (Ok l3, st3) => exists lv3, walked st st3 lv va l3 lv3
  | Some (Err e, st') => e = NoMemory /\ end_free (st_phys st') <= next_free (st_phys st') /\
      exists lv', reached st st' lv lv' va 2
  | None => False
  end.
Proof.
  intros Hinv. set (l0 := pt_l0_pa (st_tree st)). unfold walk_levels, mbind, pt_bind.
  pose proof (tw_root _ _ _ _ (pi_tree st lv Hinv)) as H0. fold l0 in H0.
  pose proof (level_spec st lv l0 (index 3 va) 2 (fun _ => pt_err NotAllowed) Hinv H0
    (index_range _ _) ltac:(lia)) as H1. change (index 3 va) with (va_l0_index va) in H1.
  destruct (level l0 _ _ st) as [[[l1|e1] s1]|]; cbn [level_result] in H1; [| |done].
  2: { destruct H1 as (-> & -> & Hf). split; [done|]. split; [done|]. exists lv.
       apply (reached_more _ _ _ _ _ 0); [lia|by apply reached_refl]. }
  destruct H1 as (lv1 & Hi1 & Hl1 & Hp1 & Hx1).
  pose proof (reached_extends st st s1 lv lv lv1 _ 2 va 0 Hinv (reached_refl st lv va Hinv) Hi1 H0 (walk_tables_head _ _ _ _) Hx1) as Hre1.
  destruct Hx1 as [Hx1 _]. pose proof (re_root _ _ _ _ _ _ Hre1) as Hr1. fold l0 in Hr1.
  pose proof (ex_levels _ _ _ _ _ _ Hx1 _ _ H0) as H01.
  pose proof (level_spec s1 lv1 l1 (index 2 va) 1 (shatter_l1_block l1 (index 2 va)) Hi1 Hl1
    (index_range _ _) ltac:(done)) as H2. change (index 2 va) with (va_l1_index va) in H2.
  destruct (level l1 _ _ s1) as [[[l2|e2] s2]|]; cbn [level_result] in H2; [| |done].
  2: { destruct H2 as (-> & -> & Hf). split; [done|]. split; [done|]. exists lv1.
       by apply (reached_more _ _ _ _ _ 1). }
  destruct H2 as (lv2 & Hi2 & Hl2 & Hp2 & Hx2).
  assert (Hin1 : l1 ∈ tables_at s1 va).
  { unfold tables_at. rewrite Hr1. apply (walk_tables_step _ 2 _ _ l1); [done|apply walk_tables_head]. }
  pose proof (reached_extends st s1 s2 lv lv1 lv2 _ 1 va 1 Hinv Hre1 Hi2 Hl1 Hin1 Hx2) as Hre2.
  destruct Hx2 as [Hx2 _]. pose proof (re_root _ _ _ _ _ _ Hre2) as Hr2. fold l0 in Hr2.
  assert (Hp1' : points (st_ram s2) l0 (va_l0_index va) l1).
  { eapply extends_points; [exact Hx2|exact H01|apply (index_range 3)|congruence|done]. }
  pose proof (level_spec s2 lv2 l2 (index 1 va) 0 (shatter_l2_block l2 (index 1 va)) Hi2 Hl2
    (index_range _ _) ltac:(done)) as H3. change (index 1 va) with (va_l2_index va) in H3.
  destruct (level l2 _ _ s2) as [[[l3|e3] s3]|]; cbn [level_result] in H3; [| |done].
  2: { destruct H3 as (-> & -> & Hf). split; [done|]. split; [done|]. by exists lv2. }
  destruct H3 as (lv3 & Hi3 & Hl3 & Hp3 & Hx3).
  assert (Hin2 : l2 ∈ tables_at s2 va).
  { unfold tables_at. rewrite Hr2. apply (walk_tables_step _ 2 _ _ l1); [done|].
    apply (walk_tables_step _ 1 _ _ l2); [done|apply walk_tables_head]. }
  pose proof (reached_extends st s2 s3 lv lv2 lv3 _ 0 va 2 Hinv Hre2 Hi3 Hl2 Hin2 Hx3) as [_ Hsp Hg Hroot Hwalk].
  destruct Hx3 as [Hx3 _]. fold l0 in Hroot.
  pose proof (ex_levels _ _ _ _ _ _ Hx2 _ _ Hl1) as Hl1'.
  pose proof (ex_levels _ _ _ _ _ _ Hx2 _ _ H01) as H02.
  assert (Hq1 : points (st_ram s3) l0 (index 3 va) l1).
  { eapply extends_points; [exact Hx3|exact H02|apply (index_range 3)|unfold l0 in *; congruence|done]. }
  assert (Hq2 : points (st_ram s3) l1 (index 2 va) l2).
  { eapply extends_points; [exact Hx3|exact Hl1'|apply (index_range 2)|congruence|done]. }
  exists lv3. constructor; try done.
  - unfold tables_at. rewrite Hroot. apply (walk_tables_step _ 2 _ _ l1), (walk_tables_step _ 1 _ _ l2), (walk_tables_step _ 0 _ _ l3); try done.
    by left.
  - by apply (path_points _ 2 _ _ l1), (path_points _ 1 _ _ l2), (path_points _ 0 _ _ l3).
Qed.

(** *** Mapping a page *)

(** What a call that went through, or gave up, leaves. *)
Record page_mapped (st st' : PtState) (lv lv' : Levels) (va : Z) : Prop := {
  mp_inv : pt_inv st' lv';
  mp_root : pt_l0_pa (st_tree st') = pt_l0_pa (st_tree st);
  mp_grown : grown st st' lv lv' 3;
  mp_spread : spread st st' lv lv' (eq va)
}.

Lemma map_va_full st lv va pa flags :
  pt_inv st lv -> va mod 4096 = 0 -> pa mod 4096 = 0 -> 0 <= pa < 2 ^ 48 ->
  exists r st' lv', map_va va pa flags st = Some (r, st') /\ page_mapped st st' lv lv' va /\
    match r with
    | Ok _ => forall va', translate_va st' va' =
        if page_no va' =? page_no va then Some (pa + va' mod 4096) else translate_va st va'
    | Err e => e = NoMemory /\ end_free (st_phys st') <= next_free (st_phys st) + 8192 /\
        forall va', translate_va st' va' = translate_va st va'
    end.
Proof.
  intros Hinv Hva Hpa Hpr. rewrite map_va_levels by (done || apply Hinv).
  pose proof (walk_levels_spec st lv va Hinv) as Hw. unfold mbind, pt_bind.
  destruct (walk_levels _ va st) as [[[l3|e] st3]|]; [| |done].
  2: { destruct Hw as (-> & Hfull & lv' & [Hi Hsp Hg Hr Hwalk]). exists (Err NoMemory), st3, lv'.
       split; [done|]. split; [constructor; [done|done|by apply (grown_more _ _ _ _ 2)|done]|].
       split; [done|]. split; [destruct (gr_next _ _ _ _ _ Hg); lia|]. intros va'. unfold translate_va.
       rewrite (pi_root _ _ Hi), (pi_root _ _ Hinv), Hr, !translate_walk. apply Hwalk. }
  destruct Hw as [lv3 [Hg Hi Hr Hl3 Hsp Hl3at Hp Hwalk]]. unfold pt_write, pt_modify.
  set (e := page_entry pa flags). change (va_l3_index va) with (index 0 va).
  set (m' := write_pte (st_ram st3) l3 (index 0 va) e).
  exists (Ok tt), (upd_ram st3 (fun _ => m')), lv3. split; [done|].
  pose proof (pi_tree _ _ Hi) as Htree. split.
  - assert (Hlm : l3 mod 4096 = 0) by (by apply (tw_table _ _ _ _ Htree) in Hl3 as (_ & ? & _)).
    constructor; [|done| |].
    + constructor; [apply set_ram_wf, Hi| |apply Hi].
      apply page_write_wf; [apply Hi|done|apply index_range].
    + destruct Hg as [N E T L W D]. constructor; try done. intros t j Hm Hj Ht Hlt.
      change (st_ram (upd_ram st3 (fun _ => m'))) with m'. unfold m'.
      rewrite read_write_ne; [by apply D|done..|apply index_range|done|].
      intros [= -> _]. rewrite (W l3) in Hl3; done.
    + assert (Hne : forall x r j, lv3 !! x = Some r -> 0 <= j < 512 -> x <> l3 -> read_pte m' x j = read_pte (st_ram st3) x j).
      { intros x r j Hx Hj Hd. unfold m'. destruct (tw_table _ _ _ _ Htree x r Hx) as (_ & ? & _).
        apply read_write_ne; try done; [apply index_range|]. by intros [= ? _]. }
      eapply spread_trans; [exact Hinv|exact Hi|apply Hg|apply Hg|exact Hsp|]. constructor; [done| |].
      * intros x r j Hx Hj Hno. apply (Hne x r j Hx Hj). intros ->. by apply (Hno va).
      * intros x r j c Hx Hj Hpt. left. split; [done|]. change (points m' x j c) in Hpt. unfold points in *.
        rewrite (Hne x (S r) j Hx Hj) in Hpt; [done|]. intros ->. congruence.
  - intros va'. unfold translate_va. cbn [upd_ram st_tree].
    rewrite (pi_root _ _ Hi), (pi_root _ _ Hinv), Hr, !translate_walk.
    change (st_ram (upd_ram st3 (fun _ => m'))) with m'. rewrite <- Hwalk.
    rewrite Hr in Htree. pose proof (tw_root _ _ _ _ Htree) as H0.
    unfold m'. rewrite (walk_write _ _ _ _ l3 (index 0 va) e 3 _ va' Htree Hl3 (index_range _ _) H0).
    destruct (page_entry_spec pa flags Hpr Hpa) as [Hev Hea].
    destruct (Z.eqb_spec (page_no va') (page_no va)) as [Hpg|Hpg].
    + rewrite same_page in Hpg. rewrite decide_True.
      2: { split; [|by apply Hpg; lia]. rewrite <- Hp. apply path_ext. intros k Hk. apply Hpg. lia. }
      cbn [walk]. rewrite (Hpg 0%nat), read_write_eq by lia. fold e in Hev, Hea. rewrite Hev, Hea.
      cbn [negb]. rewrite u64w_small; [done|]. pose proof (Z.mod_pos_bound va' 4096). lia.
    + rewrite decide_False; [done|]. intros [Hp' Hidx]. apply Hpg, same_page. intros k Hk.
      destruct k as [|k]; [done|].
      destruct (path_unique _ _ _ _ va' va l3 3 _ _ Htree H0 H0 Hp' Hp) as [_ Hall]. apply Hall. lia.
Qed.

(** *** A fresh tree *)
Definition fresh_levels (l0 : Z) : Levels := <[l0 + 4096 := 2%nat]> {[l0 := 3%nat]}.

Lemma allocate_root_spec st :
  phys_wf (st_phys st) -> pt_has_root (st_tree st) = false ->
  next_free (st_phys st) + 8192 <= end_free (st_phys st) ->
  exists st', allocate_root st = Some (Ok tt, st') /\
    pt_inv st' (fresh_levels (next_free (st_phys st))) /\
    (forall va, translate_va st' va = None) /\
    (forall j, 0 < j < 512 -> is_valid (read_pte (st_ram st') (pt_l0_pa (st_tree st')) j) = false) /\
    grown st st' ∅ (fresh_levels (next_free (st_phys st))) 2.
Proof.
  intros Hwf Hroot Hroom. set (n := next_free (st_phys st)) in *.
  assert (Hb : n mod 4096 = 0 /\ 0 < n /\ n + 8192 <= 2 ^ 48).
  { destruct Hwf as [Hc He [Ha _] _ _]. unfold n, RAM_BASE, RAM_SIZE in *. lia. }
  destruct Hb as (Hn & Hn0 & Hn48).
  assert (Hn1 : (n + 4096) mod 4096 = 0) by (rewrite Zplus_mod, Hn; done).
  set (p1 := alloc_next TPageTable (st_phys st)).
  assert (Hwf1 : phys_wf p1) by (apply alloc_next_wf; [done|unfold n in *; lia]).
  unfold allocate_root, mbind, pt_bind, pt_alloc, alloc_pt_page. rewrite Hroot.
  rewrite alloc_page_eq, (proj2 (Z.leb_gt _ _)) by (done || (unfold n in *; lia)). fold p1.
  cbn [st_phys st_tree]. rewrite alloc_page_eq, (proj2 (Z.leb_gt _ _)) by (done || (cbn; unfold n in *; lia)).
  unfold pt_write, pt_modify. cbn [st_phys st_tree]. change (next_free p1) with (n + 4096). fold n.
  eexists. split; [done|].
  set (z := zero_page (zero_page (st_ram st) n) (n + 4096)).
  set (m := write_pte z n 0 (table_entry (n + 4096))).
  assert (Hz : forall t j, t = n \/ t = n + 4096 -> 0 <= j < 512 -> read_pte z t j = 0).
  { intros t j [-> | ->] Hj; unfold z; [|by apply zero_in].
    rewrite zero_out by (done || lia). by apply zero_in. }
  assert (Hm0 : points m n 0 (n + 4096)).
  { unfold points, m. rewrite read_write_eq. apply table_entry_spec; [lia|done]. }
  assert (Hm : forall t j, t = n \/ t = n + 4096 -> 0 <= j < 512 -> (t, j) <> (n, 0) -> read_pte m t j = 0).
  { intros t j Ht Hj Hne. unfold m. rewrite read_write_ne by (done || (by destruct Ht as [-> | ->])).
    by apply Hz. }
  assert (Hlv : forall t r, fresh_levels n !! t = Some r ->
            (t = n + 4096 /\ r = 2%nat) \/ (t = n /\ r = 3%nat)).
  { intros t r Hl. unfold fresh_levels in Hl.
    apply lookup_insert_Some in Hl as [[<- <-]|[_ [<- <-]%lookup_singleton_Some]]; auto. }
  assert (Hpts : forall t r i c, fresh_levels n !! t = Some r -> 0 <= i < 512 ->
            points m t i c -> t = n /\ i = 0).
  { intros t r i c Hl%Hlv Hi (Hv & _). destruct (decide ((t, i) = (n, 0))) as [[= -> ->]|Hne]; [done|].
    rewrite Hm in Hv by (done || tauto). done. }
  split_and!.
  - constructor; cbn [st_phys st_tree pt_l0_pa pt_has_root]; [apply set_ram_wf, alloc_next_wf; [done|cbn; unfold n in *; lia]| |done].
    change (tree_wf m (fresh_levels n) n (n + 4096 + 4096)). constructor.
    + unfold fresh_levels. rewrite lookup_insert_ne by lia. apply lookup_singleton_eq.
    + intros t r [[-> ->]|[-> ->]]%Hlv; split_and!; try lia; done.
    + intros t r i Hl Hi. pose proof (Hlv t r Hl) as Hcase.
      destruct (decide ((t, i) = (n, 0))) as [[= -> ->]|Hne].
      * destruct Hcase as [[? _]|[_ ->]]; [lia|]. destruct Hm0 as (Hv & Ht & Ha). cbn [entry_ok].
        intros _. rewrite Ht, Ha. split; [done|]. apply lookup_insert_eq.
      * rewrite Hm by (done || tauto). destruct r; [done|]. by intros Hv.
    + intros t1 t2 r1 r2 i1 i2 c H1 H2 Hi1 Hi2 Hp1 Hp2.
      destruct (Hpts _ _ _ _ H1 Hi1 Hp1) as [-> ->], (Hpts _ _ _ _ H2 Hi2 Hp2) as [-> ->]. done.
  - intros va. unfold translate_va. cbn [st_tree pt_has_root pt_l0_pa]. rewrite translate_walk.
    change (walk m 3 n va = None). cbn [walk].
    destruct (decide (index 3 va = 0)) as [Hi|Hi].
    + rewrite Hi. destruct Hm0 as (-> & -> & ->). cbn [negb]. rewrite andb_false_r.
      cbn [walk]. rewrite Hm; [done|by right|apply index_range|]. intros [= ? _]. lia.
    + rewrite Hm; [done|by left|apply index_range|]. by intros [= ?].
  - intros j Hj. change (is_valid (read_pte m n j) = false). rewrite Hm; [done|by left|lia|]. intros [= ?]. lia.
  - constructor.
    + change (n <= n + 4096 + 4096 <= n + 4096 * 2). lia.
    + done.
    + intros pa Hpa. change (default 0 (tags (alloc_next TPageTable p1) !! pa_to_pfn pa) =
        default 0 (tags (st_phys st) !! pa_to_pfn pa)).
      assert (Hlt1 : next_free p1 < end_free p1) by (cbn; unfold n in *; lia).
      assert (Hpa1 : RAM_BASE <= pa < next_free p1) by (cbn; lia).
      rewrite (alloc_next_tags TPageTable p1 pa Hwf1 Hlt1 Hpa1). apply alloc_next_tags; [done|unfold n in *; lia|done].
    + done.
    + intros t _ Hlt. fold n in Hlt. destruct (fresh_levels n !! t) eqn:Ht; [|done]. apply Hlv in Ht as [[? _]|[? _]]; lia.
    + intros t j Ht Hj Hlt _. fold n in Hlt.
      change (read_pte m t j = read_pte (st_ram st) t j). unfold m. rewrite read_write_ne; [|done..|intros [= ? _]; lia].
      unfold z. rewrite !zero_out by (done || lia). done.
Qed.

(** ** Properties *)

(** C4. Mapping a page: on a well-formed tree [map_va] does not panic; it
    either runs out of memory, and then no address translates differently,
    or maps exactly the one page: every address on the page of [va]
    translates to the same offset from [pa], and every other address
    translates as before, also inside 1 GiB and 2 MiB blocks that had to be
    broken up.  The tree stays well-formed. *)
Theorem map_va_spec st lv va pa flags :
  pt_inv st lv -> va mod 4096 = 0 -> pa mod 4096 = 0 -> 0 <= pa < 2 ^ 48 ->
  exists r st' lv', map_va va pa flags st = Some (r, st') /\ pt_inv st' lv' /\
    match r with
    | Ok _ => forall va', translate_va st' va' =
        if page_no va' =? page_no va then Some (pa + va' mod 4096) else translate_va st va'
    | Err e => e = NoMemory /\ forall va', translate_va st' va' = translate_va st va'
    end.
Proof.
  intros Hinv Hva Hpa Hpr. destruct (map_va_full st lv va pa flags Hinv Hva Hpa Hpr) as (r & st' & lv' & He & Hm & Hr).
  exists r, st', lv'. split; [done|]. split; [apply Hm|]. destruct r as [[]|e]; [done|].
  destruct Hr as (-> & _ & Hr). done.
Qed.

(** The protection a page gets: EL0 may access it exactly when it is
    mapped for users or not writable, it is read-only exactly when it is for
    users and not writable, and it cannot be executed exactly when it is not
    executable.  So a read-only page of the kernel is readable and writable
    from EL0; and the entries of a broken-up block are open to EL0 and
    executable whatever the block was. *)
Theorem page_permissions pa f :
  0 <= pa < 2 ^ 48 -> pa mod 4096 = 0 ->
  Z.testbit (page_entry pa f) 6 = mf_user f || negb (mf_writable f) /\
  Z.testbit (page_entry pa f) 7 = mf_user f && negb (mf_writable f) /\
  Z.testbit (page_entry pa f) 53 = negb (mf_executable f) /\
  Z.testbit (page_entry pa f) 54 = negb (mf_executable f) /\
  (forall r e j, Z.testbit (shard r e j) 6 = true /\ Z.testbit (shard r e j) 53 = false /\
                 Z.testbit (shard r e j) 54 = false).
Proof.
  intros Hpa Hm.
  assert (Hbit : forall x ty a n, n = 6 \/ n = 7 \/ n = 53 \/ n = 54 -> ty = 1 \/ ty = 3 ->
    Z.testbit (Z.lor (Z.lor (Z.lor (pa_to_pte_addr x) PTE_VALID) ty) a) n = Z.testbit a n).
  { intros x ty a n Hn Hty. rewrite !Z.lor_spec. unfold pa_to_pte_addr.
    rewrite Z.land_spec, addr_mask_bits by lia.
    destruct Hn as [-> |[-> |[-> | ->]]], Hty as [-> | ->]; cbn -[Z.testbit]; by rewrite andb_false_r. }
  unfold page_entry. rewrite !Hbit by (auto || by right).
  split_and!; try (by destruct f as [[] ? [] [] []]).
  intros r e j. unfold shard. rewrite !Hbit by (auto || (destruct r; auto)).
  unfold shatter_attr. rewrite !Z.land_spec, Z.lor_spec. unfold PTE_USER, PTE_XN, PTE_UXN.
  change (Z.testbit (Z.shiftl 1 6) 6) with true.
  change (Z.testbit (Z.lxor (Z.shiftl 1 54) (2 ^ 64 - 1)) 6) with true.
  change (Z.testbit (Z.lxor (Z.shiftl 1 53) (2 ^ 64 - 1)) 6) with true.
  change (Z.testbit (Z.lxor (Z.shiftl 1 53) (2 ^ 64 - 1)) 53) with false.
  change (Z.testbit (Z.lxor (Z.shiftl 1 54) (2 ^ 64 - 1)) 54) with false.
  rewrite !andb_false_r, orb_true_r. done.
Qed.

(** ** Witnesses *)
Definition wit_tree : PtState :=
  match allocate_root (mkPt tree_new wit_phys) with Some (_, st) => st | None => mkPt tree_new wit_phys end.

Lemma wit_tree_inv : pt_inv wit_tree (fresh_levels (next_free wit_phys)).
Proof.
  destruct (allocate_root_spec (mkPt tree_new wit_phys)) as (st' & He & Hinv & _).
  - exact wit_phys_wf.
  - reflexivity.
  - vm_compute. discriminate.
  - unfold wit_tree. rewrite He. exact Hinv.
Qed.

(** The page at 0x200000 mapped to the frame at 0x48000000. *)
Lemma map_va_spec_witness :
  exists r st' lv', map_va 0x200000 0x48000000 user_rw wit_tree = Some (r, st') /\ pt_inv st' lv' /\
    match r with
    | Ok _ => translate_va st' 0x200123 = Some 0x48000123
    | Err e => e = NoMemory
    end.
Proof.
  destruct (map_va_spec wit_tree _ 0x200000 0x48000000 user_rw wit_tree_inv) as (r & st' & lv' & Hm & Hi & Hr).
  - reflexivity.
  - reflexivity.
  - split; [discriminate|reflexivity].
  - exists r, st', lv'. split; [exact Hm|]. split; [exact Hi|]. destruct r as [u|e].
    + rewrite Hr. reflexivity.
    + exact (proj1 Hr).
Defined.

(** A read-only kernel page: EL0 has access, and it is not read-only. *)
Lemma page_permissions_witness :
  Z.testbit (page_entry 0x48000000 kernel_ro) 6 = true /\
  Z.testbit (page_entry 0x48000000 kernel_ro) 7 = false.
Proof.
  destruct (page_permissions 0x48000000 kernel_ro) as (H6 & H7 & _).
  - split; [discriminate|reflexivity].
  - reflexivity.
  - exact (conj H6 H7).
Defined.
