(* ===== verification/PtClone.v ===== *)
(** * PtClone: taking over parts of another tree

    What [clone_high_half] and [clone_identity_block] of PageTable.v make of
    a tree that is being set up while another one is in use: the tables below
    the entries taken over belong to both from then on. *)
From Stdlib Require Import ZArith Lia.
From stdpp Require Import base tactics option list list_numbers gmap.
From S2P Require Import Prelude Shared Phys PageTable.
Local Open Scope Z_scope.

(** *** Entries taken over from another tree *)
Lemma copy_entries_read m dst src from n t j :
  dst mod 4096 = 0 -> src mod 4096 = 0 -> t mod 4096 = 0 -> dst <> src ->
  (from + n <= 512)%nat -> 0 <= j < 512 ->
  read_pte (copy_entries m dst src from n) t j =
  if (t =? dst) && (Z.of_nat from <=? j) && (j <? Z.of_nat (from + n)) && negb (read_pte m src j =? 0)
  then read_pte m src j else read_pte m t j.
Proof.
  intros Hd Hs Ht Hne. unfold copy_entries. revert m from.
  induction n as [|n IH]; intros m from Hn Hj; cbn [seq foldl].
  { replace (from + 0)%nat with from by lia. case_match; [reflect; lia|done]. }
  set (m1 := if read_pte m src (Z.of_nat from) =? 0 then m else _).
  assert (Hr : forall t' j', t' mod 4096 = 0 -> 0 <= j' < 512 ->
    read_pte m1 t' j' = if (t' =? dst) && (j' =? Z.of_nat from) && negb (read_pte m src j' =? 0)
                        then read_pte m src j' else read_pte m t' j').
  { intros t' j' Ht' Hj'. unfold m1. destruct (decide (t' = dst /\ j' = Z.of_nat from)) as [[-> ->]|Hc].
    - rewrite !Z.eqb_refl. cbn [andb]. destruct (Z.eqb_spec (read_pte m src (Z.of_nat from)) 0); [done|].
      by rewrite read_write_eq.
    - assert ((t' =? dst) && (j' =? Z.of_nat from) = false) as ->.
      { apply andb_false_iff. rewrite !Z.eqb_neq. lia. }
      cbn [andb]. destruct (_ =? 0); [done|]. apply read_write_ne; try done; [lia|]. intros [= -> ->]. by apply Hc. }
  rewrite IH by lia. rewrite !Hr by done.
  assert ((src =? dst) = false) as -> by (apply Z.eqb_neq; congruence). cbn [andb].
  destruct (Z.eqb_spec t dst) as [->|?]; cbn [andb]; [|done].
  destruct (Z.eqb_spec j (Z.of_nat from)) as [->|?].
  - destruct (Z.leb_spec (Z.of_nat (S from)) (Z.of_nat from)); [lia|]. cbn [andb].
    rewrite Z.leb_refl. destruct (Z.ltb_spec (Z.of_nat from) (Z.of_nat (from + S n))); [|lia]. done.
  - cbn [andb]. replace (Z.of_nat (S from) <=? j) with (Z.of_nat from <=? j).
    2:{ destruct (Z.leb_spec (Z.of_nat from) j), (Z.leb_spec (Z.of_nat (S from)) j); try done; lia. }
    by replace (from + S n)%nat with (S from + n)%nat by lia.
Qed.

Section graft.
(** [m'] is [m] with some entries of the tables [lv] replaced by entries of
    the tables [lq], where no table of [lq] that stays points to what a
    replaced entry points to. *)
Context (m m' : Ram) (lv lq : Levels) (root cur : Z).
Context (Hwf : tree_wf m lv root cur) (Hdis : lv ##ₘ lq).
Context (Htab : forall t r, lq !! t = Some r -> (r <= 3)%nat /\ t mod 4096 = 0 /\ 0 < t /\ t + 4096 <= cur).
Context (Hent : forall t r i, lq !! t = Some r -> 0 <= i < 512 ->
  read_pte m' t i = read_pte m t i /\ entry_ok lq r (read_pte m t i)).
Context (Hpar : forall t1 t2 r1 r2 i1 i2 c, lq !! t1 = Some (S r1) -> lq !! t2 = Some (S r2) ->
    0 <= i1 < 512 -> 0 <= i2 < 512 -> points m t1 i1 c -> points m t2 i2 c -> t1 = t2 /\ i1 = i2).
(** What an entry of [lv] has become: kept, or new and owned by nobody else. *)
Context (Hnew : forall t r i, lv !! t = Some r -> 0 <= i < 512 ->
  read_pte m' t i = read_pte m t i \/
  (entry_ok lq r (read_pte m' t i) /\
   forall c t2 r2 i2, points m' t i c -> 0 <= i2 < 512 ->
     (lq !! t2 = Some (S r2) -> points m t2 i2 c -> False) /\
     (lv !! t2 = Some (S r2) -> points m' t2 i2 c -> is_Some (lq !! c) -> t2 = t /\ i2 = i))).

Lemma entry_ok_mono l l' r e :
  (forall t k, l !! t = Some k -> l' !! t = Some k) -> entry_ok l r e -> entry_ok l' r e.
Proof.
  intros Hl. destruct r as [|r]; [done|]. cbn [entry_ok]. intros H Hv. specialize (H Hv).
  destruct (_ && _); [done|]. destruct H as [? ?]. split; [done|]. by apply Hl.
Qed.

(** A pointed-to table is where the entry's table lives. *)
Lemma points_in l r t i c :
  l !! t = Some (S r) -> entry_ok l (S r) (read_pte m t i) -> points m t i c -> l !! c = Some r.
Proof.
  intros Ht He (Hv & Htb & <-). cbn [entry_ok] in He. specialize (He Hv).
  rewrite Htb, andb_false_r in He. apply He.
Qed.

Lemma points_same t i c : read_pte m' t i = read_pte m t i -> points m' t i c -> points m t i c.
Proof. unfold points. by intros ->. Qed.

Lemma graft_points t r i c :
  lv !! t = Some (S r) -> 0 <= i < 512 -> points m' t i c ->
  (read_pte m' t i = read_pte m t i /\ points m t i c /\ lv !! c = Some r) \/
  (lq !! c = Some r /\
   forall t2 r2 i2, 0 <= i2 < 512 ->
     (lq !! t2 = Some (S r2) -> points m t2 i2 c -> False) /\
     (lv !! t2 = Some (S r2) -> points m' t2 i2 c -> t2 = t /\ i2 = i)).
Proof.
  intros Ht Hi Hp. destruct (Hnew t (S r) i Ht Hi) as [He|[He Hu]].
  - left. pose proof (points_same t i c He Hp) as Hp0. split; [done|]. split; [done|].
    apply (points_in lv r t i c Ht); [|done]. exact (tw_entry _ _ _ _ Hwf t (S r) i Ht Hi).
  - right. assert (Hc : lq !! c = Some r).
    { destruct Hp as (Hv & Htb & <-). cbn [entry_ok] in He. specialize (He Hv).
      rewrite Htb, andb_false_r in He. apply He. }
    split; [done|]. intros t2 r2 i2 Hi2. destruct (Hu c t2 r2 i2 Hp Hi2) as [H1 H2]. split; [done|].
    intros Ht2 Hp2. apply H2; [done|done|by eexists].
Qed.

Lemma lq_points t r i c : lq !! t = Some (S r) -> 0 <= i < 512 -> points m' t i c -> points m t i c /\ lq !! c = Some r.
Proof.
  intros Ht Hi Hp. destruct (Hent t (S r) i Ht Hi) as [He Hok].
  pose proof (points_same t i c He Hp). split; [done|]. by apply (points_in lq r t i c).
Qed.

Lemma graft_wf : tree_wf m' (lv ∪ lq) root cur.
Proof.
  assert (Hl : forall t r, (lv ∪ lq) !! t = Some r <-> lv !! t = Some r \/ lq !! t = Some r).
  { intros t r. by apply lookup_union_Some. }
  assert (Hno : forall t r1 r2, lv !! t = Some r1 -> lq !! t = Some r2 -> False).
  { intros t r1 r2 H1 H2. by apply (map_disjoint_spec lv lq) with (i := t) (x := r1) (y := r2). }
  constructor.
  - apply Hl. left. apply Hwf.
  - intros t r [H|H]%Hl; [by apply (tw_table _ _ _ _ Hwf)|by apply Htab].
  - intros t r i [H|H]%Hl Hi.
    + destruct (Hnew t r i H Hi) as [->|[He _]].
      * apply (entry_ok_mono lv); [intros ? ? ?; apply Hl; by left|exact (tw_entry _ _ _ _ Hwf t r i H Hi)].
      * apply (entry_ok_mono lq); [intros ? ? ?; apply Hl; by right|done].
    + destruct (Hent t r i H Hi) as [-> He]. apply (entry_ok_mono lq); [intros ? ? ?; apply Hl; by right|done].
  - intros t1 t2 r1 r2 i1 i2 c [H1|H1]%Hl [H2|H2]%Hl Hi1 Hi2 Hp1 Hp2.
    + destruct (graft_points t1 r1 i1 c H1 Hi1 Hp1) as [(_ & Hq1 & Hc1)|[Hc1 Hu]].
      * destruct (graft_points t2 r2 i2 c H2 Hi2 Hp2) as [(_ & Hq2 & _)|[Hc2 _]]; [|by destruct (Hno c r1 r2)].
        by apply (tw_parent _ _ _ _ Hwf t1 t2 r1 r2 i1 i2 c).
      * destruct (Hu t2 r2 i2 Hi2) as [_ Hu2]. by destruct (Hu2 H2 Hp2).
    + destruct (lq_points t2 r2 i2 c H2 Hi2 Hp2) as [Hq2 Hc2].
      destruct (graft_points t1 r1 i1 c H1 Hi1 Hp1) as [(_ & _ & Hc1)|[_ Hu]]; [by destruct (Hno c r1 r2)|].
      destruct (Hu t2 r2 i2 Hi2) as [Hu1 _]. by destruct (Hu1 H2 Hq2).
    + destruct (lq_points t1 r1 i1 c H1 Hi1 Hp1) as [Hq1 Hc1].
      destruct (graft_points t2 r2 i2 c H2 Hi2 Hp2) as [(_ & _ & Hc2)|[_ Hu]]; [by destruct (Hno c r2 r1)|].
      destruct (Hu t1 r1 i1 Hi1) as [Hu1 _]. by destruct (Hu1 H1 Hq1).
    + destruct (lq_points t1 r1 i1 c H1 Hi1 Hp1) as [Hq1 _], (lq_points t2 r2 i2 c H2 Hi2 Hp2) as [Hq2 _].
      by apply (Hpar t1 t2 r1 r2 i1 i2 c).
Qed.
End graft.

Section clone.
(** The tables [lvp] of the tree in use, rooted at [src], next to those of
    the tree [lv] being set up.  [pl1] is its first L1 table, if any. *)
Context (m m' : Ram) (lv lvp : Levels) (root l1 src pl1 cur : Z).
Context (Hwf : tree_wf m lv root cur) (Hsrc : tree_wf m lvp src cur) (Hdis : lv ##ₘ lvp).
Context (Hl1 : lv !! l1 = Some 2%nat) (Hpl : pl1 = 0 \/ points m src 0 pl1).
Context (Hm : forall t i, t mod 4096 = 0 -> 0 <= i < 512 ->
  read_pte m' t i = read_pte m t i \/
  (t = root /\ 0 < i /\ read_pte m' t i = read_pte m src i) \/
  (t = l1 /\ i = 1 /\ points m src 0 pl1 /\ read_pte m' t i = read_pte m pl1 1)).

Definition taken_over : Levels := delete pl1 (delete src lvp).

Lemma taken_Some t r : taken_over !! t = Some r <-> t <> pl1 /\ t <> src /\ lvp !! t = Some r.
Proof.
  unfold taken_over. rewrite !lookup_delete_Some.
  split; intros (H1 & H2 & H3); split_and!; done || congruence.
Qed.

Lemma lvp_points t r i c : lvp !! t = Some (S r) -> 0 <= i < 512 -> points m t i c -> lvp !! c = Some r.
Proof. intros Ht Hi Hp. apply (points_in m lvp r t i c Ht); [|done]. exact (tw_entry _ _ _ _ Hsrc t (S r) i Ht Hi). Qed.

Lemma lvp_apart t r r' : lvp !! t = Some r -> lv !! t = Some r' -> False.
Proof. intros Ht Ht'. exact (proj1 (map_disjoint_spec lv lvp) Hdis t _ _ Ht' Ht). Qed.

Lemma pl1_level : points m src 0 pl1 -> lvp !! pl1 = Some 2%nat.
Proof. apply (lvp_points src 2 0); [apply Hsrc|lia]. Qed.

Lemma pl1_not_src : pl1 <> src.
Proof.
  intros Heq. pose proof (tw_root _ _ _ _ Hsrc) as H3. destruct Hpl as [H0|Hp].
  - apply (tw_table _ _ _ _ Hsrc) in H3 as (_ & _ & ? & _). lia.
  - apply pl1_level in Hp. congruence.
Qed.

(** A table below one taken over, or below [src] or [pl1] but at their
    replaced entries, is taken over. *)
Lemma child_taken t r i c :
  lvp !! t = Some (S r) -> 0 <= i < 512 -> points m t i c -> (t, i) <> (src, 0) -> taken_over !! c = Some r.
Proof.
  intros Ht Hi Hp Hne. pose proof (lvp_points t r i c Ht Hi Hp) as Hc. apply taken_Some. split_and!; [| |done].
  - intros ->. destruct Hpl as [->|Hp0].
    + apply (tw_table _ _ _ _ Hsrc) in Hc as (_ & _ & ? & _). lia.
    + pose proof (tw_root _ _ _ _ Hsrc) as H3.
      destruct (tw_parent _ _ _ _ Hsrc t src r 2 i 0 pl1) as [-> ->]; done || lia.
  - intros ->. rewrite (tw_root _ _ _ _ Hsrc) in Hc. injection Hc as <-.
    apply (tw_table _ _ _ _ Hsrc) in Ht. lia.
Qed.

Lemma clone_entry t r i :
  lvp !! t = Some (S r) -> 0 <= i < 512 -> (t, i) <> (src, 0) -> entry_ok taken_over (S r) (read_pte m t i).
Proof.
  intros Ht Hi Hne. pose proof (tw_entry _ _ _ _ Hsrc t (S r) i Ht Hi) as He. cbn [entry_ok] in *.
  intros Hv. specialize (He Hv). destruct (_ && _); [done|]. destruct He as [Htb _]. split; [done|].
  by apply (child_taken t r i).
Qed.

(** Two entries of the new tree that point to the same taken-over table. *)
Lemma clone_unique t i c :
  0 <= i < 512 -> t mod 4096 = 0 -> points m' t i c -> is_Some (taken_over !! c) ->
  (exists r, lv !! t = Some (S r)) ->
  exists p j, points m p j c /\ 0 <= j < 512 /\ (exists r, lvp !! p = Some (S r)) /\
    ((t = root /\ p = src /\ j = i) \/ (t = l1 /\ i = 1 /\ p = pl1 /\ j = 1)).
Proof.
  intros Hi Ht Hp [rc [_ [_ Hc]]%taken_Some] [r Hlv]. destruct (Hm t i Ht Hi) as [He|[(-> & _ & He)|(-> & -> & H0 & He)]].
  - exfalso. pose proof (points_same m m' t i c He Hp) as Hp0.
    pose proof (points_in m lv r t i c Hlv (tw_entry _ _ _ _ Hwf t (S r) i Hlv Hi) Hp0) as Hin.
    by apply (lvp_apart c rc r).
  - exists src, i. unfold points in *. rewrite He in Hp. split; [done|]. split; [done|]. split; [|by left].
    exists 2%nat. apply Hsrc.
  - exists pl1, 1. unfold points in Hp |- *. rewrite He in Hp. split; [done|]. split; [lia|]. split; [|by right].
    exists 1%nat. by apply pl1_level.
Qed.

Lemma clone_wf : tree_wf m' (lv ∪ taken_over) root cur.
Proof.
  pose proof (tw_root _ _ _ _ Hsrc) as H3.
  apply (graft_wf m); [done|..].
  - apply map_disjoint_spec. intros t r r' Ht (_ & _ & Ht')%taken_Some. by apply (lvp_apart t r' r).
  - intros t r (_ & _ & Ht)%taken_Some. by apply (tw_table _ _ _ _ Hsrc).
  - intros t r i (Hn1 & Hn2 & Ht)%taken_Some Hi. pose proof (tw_table _ _ _ _ Hsrc t r Ht) as (_ & Hal & _ & _).
    destruct (Hm t i Hal Hi) as [->|[(-> & _)|(-> & _)]].
    + split; [done|]. destruct r as [|r]; [done|]. apply clone_entry; [done|done|congruence].
    + destruct (lvp_apart root r 3 Ht). apply Hwf.
    + by destruct (lvp_apart l1 r 2 Ht).
  - intros t1 t2 r1 r2 i1 i2 c (_ & _ & H1)%taken_Some (_ & _ & H2)%taken_Some Hi1 Hi2.
    by apply (tw_parent _ _ _ _ Hsrc t1 t2 r1 r2).
  - intros t r i Ht Hi. pose proof (tw_table _ _ _ _ Hwf t r Ht) as (_ & Hal & _ & _).
    destruct (Hm t i Hal Hi) as [->|Hcase]; [by left|right].
    assert (Hsome : (exists r0, r = S r0) /\ entry_ok taken_over r (read_pte m' t i)).
    { destruct Hcase as [(-> & Hi0 & ->)|(-> & -> & H0 & ->)].
      - assert (r = 3%nat) as -> by (pose proof (tw_root _ _ _ _ Hwf); congruence).
        split; [by eexists|]. apply clone_entry; [done|done|]. intros [= ?]. lia.
      - assert (r = 2%nat) as -> by congruence. split; [by eexists|].
        apply clone_entry; [by apply pl1_level|lia|by intros [=]]. }
    destruct Hsome as [[r0 ->] He]. split; [done|]. intros c t2 r2 i2 Hp Hi2.
    assert (Hc : is_Some (taken_over !! c)).
    { destruct Hp as (Hv & Htb & <-). cbn [entry_ok] in He. specialize (He Hv).
      rewrite Htb, andb_false_r in He. eexists. apply He. }
    destruct (clone_unique t i c Hi Hal Hp Hc ltac:(by eexists)) as (p & j & Hpj & Hj & [rp Hrp] & Hwho). split.
    + intros (Hn1 & Hn2 & Ht2)%taken_Some Hp2.
      destruct (tw_parent _ _ _ _ Hsrc t2 p r2 rp i2 j c) as [-> _]; try done.
      by destruct Hwho as [(_ & -> & _)|(_ & _ & -> & _)].
    + intros Ht2 Hp2 _. pose proof (tw_table _ _ _ _ Hwf t2 _ Ht2) as (_ & Hal2 & _ & _).
      destruct (clone_unique t2 i2 c Hi2 Hal2 Hp2 Hc ltac:(by eexists)) as (p2 & j2 & Hpj2 & Hj2 & [rp2 Hrp2] & Hwho2).
      destruct (tw_parent _ _ _ _ Hsrc p2 p rp2 rp j2 j c) as [Hpp Hjj]; try done.
      pose proof pl1_not_src as Hnp.
      destruct Hwho as [(-> & -> & ->)|(-> & -> & -> & ->)]; [destruct Hwho2 as [(E1 & E2 & E3)|(E1 & E2 & E3 & E4)]|destruct Hwho2 as [(E1 & E2 & E3)|(E1 & E2 & E3 & E4)]]; subst;
        done || (by destruct Hnp).
Qed.
End clone.

(** An address that translates has the table of its L0 entry. *)
Lemma translate_points st lv va pa :
  pt_inv st lv -> translate_va st va = Some pa ->
  exists c, points (st_ram st) (pt_l0_pa (st_tree st)) (index 3 va) c /\ lv !! c = Some 2%nat.
Proof.
  intros Hinv. unfold translate_va. rewrite (pi_root _ _ Hinv), translate_walk. cbn [walk].
  pose proof (tw_entry _ _ _ _ (pi_tree _ _ Hinv) _ 3 (index 3 va) (tw_root _ _ _ _ (pi_tree _ _ Hinv)) (index_range _ _)) as He.
  destruct (is_valid _) eqn:Hv; [|done]. intros _. cbn [entry_ok] in He. destruct (He Hv) as [Ht Hc].
  eexists. split; [|exact Hc]. by split_and!.
Qed.

#[local] Opaque copy_entries.

(** What the entries of the new tree, with root [root] and first table [l1],
    have become: their own, or those of the tree in use. *)
Definition copied_entries (m m' : Ram) (root l1 src : Z) : Prop := forall t i, t mod 4096 = 0 -> 0 <= i < 512 ->
  read_pte m' t i = read_pte m t i \/
  (t = root /\ 256 <= i /\ read_pte m' t i = read_pte m src i) \/
  (t = l1 /\ i = 1 /\ exists pl1, points m src 0 pl1 /\ read_pte m' t i = read_pte m pl1 1).

(** The upper half and the identity block of the tree in use are taken over. *)
Lemma clone_spec st lv lvp src l1 :
  pt_inv st lv -> tree_wf (st_ram st) lvp src (next_free (st_phys st)) -> lv ##ₘ lvp ->
  points (st_ram st) (pt_l0_pa (st_tree st)) 0 l1 ->
  read_pte (st_ram st) src 0 = 0 \/ is_valid (read_pte (st_ram st) src 0) = true ->
  exists lvq m', (forall t r, lvq !! t = Some r -> lvp !! t = Some r) /\
    clone_identity_block src (clone_high_half src st) = mkPt (st_tree st) (set_ram (st_phys st) m') /\
    pt_inv (mkPt (st_tree st) (set_ram (st_phys st) m')) (lv ∪ lvq) /\
    (forall t j, t mod 4096 = 0 -> 0 <= j < 512 -> lv !! t = None -> read_pte m' t j = read_pte (st_ram st) t j) /\
    copied_entries (st_ram st) m' (pt_l0_pa (st_tree st)) l1 src /\
    (forall j, 256 <= j < 512 -> read_pte m' (pt_l0_pa (st_tree st)) j =
       if read_pte (st_ram st) src j =? 0 then read_pte (st_ram st) (pt_l0_pa (st_tree st)) j else read_pte (st_ram st) src j).
Proof.
  intros Hinv Hsrc Hdis Hp Hs0. set (m := st_ram st) in *. set (root := pt_l0_pa (st_tree st)) in *.
  pose proof (pi_tree _ _ Hinv) as Hwf. fold m root in Hwf.
  assert (Hl1 : lv !! l1 = Some 2%nat).
  { apply (points_in m lv 2 root 0); [apply Hwf| |done]. apply (tw_entry _ _ _ _ Hwf); [apply Hwf|lia]. }
  destruct (tw_table _ _ _ _ Hwf root 3 (tw_root _ _ _ _ Hwf)) as (_ & Har & _ & _).
  destruct (tw_table _ _ _ _ Hwf l1 2 Hl1) as (_ & Hal & Hl0 & _).
  destruct (tw_table _ _ _ _ Hsrc src 3 (tw_root _ _ _ _ Hsrc)) as (_ & Has & _ & _).
  assert (Hap : forall t r r', lvp !! t = Some r -> lv !! t = Some r' -> False).
  { intros t r r'. by apply (lvp_apart lv lvp). }
  assert (Hrs : root <> src) by (intros ->; eapply Hap; [apply Hsrc|apply Hwf]).
  set (m1 := copy_entries m root src 256 256).
  assert (H1 : forall t j, t mod 4096 = 0 -> 0 <= j < 512 -> read_pte m1 t j =
    if (t =? root) && (256 <=? j) && (j <? 512) && negb (read_pte m src j =? 0)
    then read_pte m src j else read_pte m t j).
  { intros t j Ht Hj. unfold m1. by rewrite copy_entries_read. }
  assert (Hlow : forall t, t mod 4096 = 0 -> t <> root \/ True -> read_pte m1 t 0 = read_pte m t 0).
  { intros t Ht _. rewrite H1 by (done || lia). change (256 <=? 0) with false. by rewrite andb_false_r. }
  assert (Heq1 : clone_high_half src st = upd_ram st (fun _ => m1)).
  { unfold clone_high_half. rewrite (pi_root _ _ Hinv). unfold upd_ram. fold m root m1. reflexivity. }
  set (pl1 := if read_pte m src 0 =? 0 then 0 else Z.land (read_pte m src 0) ADDR_MASK).
  assert (Hpl : pl1 = 0 \/ points m src 0 pl1).
  { unfold pl1. destruct (Z.eqb_spec (read_pte m src 0) 0); [by left|]. right. destruct Hs0 as [?|Hv]; [done|].
    pose proof (tw_entry _ _ _ _ Hsrc src 3 0 (tw_root _ _ _ _ Hsrc) ltac:(lia)) as He. cbn [entry_ok] in He.
    destruct (He Hv) as [Ht _]. by split_and!. }
  set (m2 := if pl1 =? 0 then m1 else copy_entries m1 l1 pl1 1 1).
  exists (taken_over lvp src pl1), m2. split; [by intros t r (_ & _ & ?)%taken_Some|].
  assert (Heq2 : clone_identity_block src (clone_high_half src st) = mkPt (st_tree st) (set_ram (st_phys st) m2)).
  { rewrite Heq1. unfold clone_identity_block. cbn [st_tree upd_ram]. rewrite (pi_root _ _ Hinv). cbn zeta.
    change (st_ram (upd_ram st (fun _ => m1))) with m1. fold root. rewrite !Hlow by auto.
    destruct Hp as (Hv & _ & Hla). unfold m2, pl1. destruct (Z.eqb_spec (read_pte m src 0) 0) as [H0|H0]; [done|].
    destruct (Z.eqb_spec (Z.land (read_pte m src 0) ADDR_MASK) 0); [done|].
    destruct (Z.eqb_spec (read_pte m root 0) 0) as [H0'|_]; [rewrite H0' in Hv; done|].
    rewrite Hla. destruct (Z.eqb_spec l1 0); [lia|]. done. }
  split; [exact Heq2|].
  enough (HM : forall t j, t mod 4096 = 0 -> 0 <= j < 512 -> read_pte m2 t j = read_pte m t j \/
    (t = root /\ 256 <= j /\ read_pte m2 t j = read_pte m src j) \/
    (t = l1 /\ j = 1 /\ points m src 0 pl1 /\ read_pte m2 t j = read_pte m pl1 1)).
  { split; [|split; [|split]].
    - constructor; [apply set_ram_wf, Hinv| |apply Hinv]. apply (clone_wf m m2 lv lvp root l1 src pl1); try done.
      intros t i Ht Hi. destruct (HM t i Ht Hi) as [?|[(? & ? & ?)|?]]; [by left|right; left; split_and!; done || lia|by right; right].
    - intros t j Ht Hj Hnone. destruct (HM t j Ht Hj) as [?|[[-> _]|[-> _]]]; [done| |congruence].
      pose proof (tw_root _ _ _ _ Hwf). congruence.
    - intros t j Ht Hj. destruct (HM t j Ht Hj) as [?|[?|(? & ? & ? & ?)]]; [by left|by right; left|right; right].
      split; [done|]. split; [done|]. by exists pl1.
    - intros j Hj. assert (Hlr : l1 <> root) by (intros ->; pose proof (tw_root _ _ _ _ Hwf); congruence).
      assert (read_pte m2 root j = read_pte m1 root j) as ->.
      { unfold m2. destruct (Z.eqb_spec pl1 0) as [_|Hne]; [done|]. destruct Hpl as [?|Hp0]; [done|].
        pose proof (pl1_level m lvp src pl1 _ Hsrc Hp0) as Hpl2. destruct (tw_table _ _ _ _ Hsrc pl1 2 Hpl2) as (_ & Hapl & _ & _).
        rewrite copy_entries_read; [|done|done|done|intros <-; by eapply Hap|lia|lia].
        by rewrite (proj2 (Z.eqb_neq root l1)) by congruence. }
      rewrite H1 by (done || lia). rewrite Z.eqb_refl. destruct (Z.leb_spec 256 j), (Z.ltb_spec j 512); try lia. cbn [andb].
      by destruct (read_pte m src j =? 0). }
  intros t j Ht Hj.
  assert (Hm1 : read_pte m1 t j = read_pte m t j \/ (t = root /\ 256 <= j /\ read_pte m1 t j = read_pte m src j)).
  { rewrite H1 by done. case_match eqn:E; [right|by left]. reflect. split_and!; [done|lia|done]. }
  unfold m2. destruct (Z.eqb_spec pl1 0) as [_|Hne]; [tauto|]. destruct Hpl as [?|Hp0]; [done|].
  pose proof (pl1_level m lvp src pl1 _ Hsrc Hp0) as Hpl2. destruct (tw_table _ _ _ _ Hsrc pl1 2 Hpl2) as (_ & Hapl & _ & _).
  rewrite copy_entries_read; [|done|done|done| |lia|done]; [|intros <-; by eapply Hap].
  destruct ((t =? l1) && _ && _ && _) eqn:E; [|tauto]. reflect. right. right.
  assert (j = 1) as -> by lia. split_and!; try done.
  rewrite H1 by (done || lia). change (256 <=? 1) with false. by rewrite andb_false_r.
Qed.
