(* ===== verification/RamFs.v ===== *)
(** * RamFs: the file agent's tree of files in memory

    userspace/services/fileagent/src/ramfs.rs.  The nine static arrays of
    [MAX_FILES] elements ([NAMES], [NAME_LENS], [NTYPES], [SIZES], [PARENTS],
    [FIRST_CHILD], [NEXT_SIBLING], [CHILD_COUNTS], [DATAS]) are one list of
    [MAX_FILES] nodes: an index in range for one array is in range for all.
    Names, paths and contents are byte lists.  The walks over sibling links
    take fuel; the theorems show how much is enough and when none is. *)
From Stdlib Require Import ZArith Lia.
From stdpp Require Import base tactics option list list_numbers.
From S2P Require Import Prelude Shared Bytes.
Local Open Scope Z_scope.

(** ** State *)
Definition MAX_FILES : Z := 16.
Definition MAX_NAME : Z := 64.
Definition FILE_SIZE : Z := 4096.

Inductive NodeType := File | Directory.

Record Node := mkNode {
  name : list Z; name_len : Z; ntype : Z; size : Z; parent : Z;
  first_child : Z; next_sibling : Z; child_count : Z; data : list Z }.

Record Ram := mkRam { nodes : list Node; ROOT : Z; NEXT_IDX : Z }.

Definition zeros (n : Z) : list Z := replicate (Z.to_nat n) 0.

(** The initial values of the static arrays. *)
Definition empty_node : Node :=
  mkNode (zeros MAX_NAME) 0 0 0 (-1) (-1) (-1) 0 (zeros FILE_SIZE).
Definition ram_static : Ram := mkRam (replicate (Z.to_nat MAX_FILES) empty_node) (-1) 0.

Definition node (st : Ram) (i : Z) : option Node := at_z (nodes st) i.
Definition set_at (i : Z) (nd : Node) (st : Ram) : Ram :=
  mkRam (set_z i nd (nodes st)) (ROOT st) (NEXT_IDX st).

(** Assignments to one array. *)
Definition with_first_child v nd :=
  mkNode (name nd) (name_len nd) (ntype nd) (size nd) (parent nd) v (next_sibling nd)
    (child_count nd) (data nd).
Definition with_next_sibling v nd :=
  mkNode (name nd) (name_len nd) (ntype nd) (size nd) (parent nd) (first_child nd) v
    (child_count nd) (data nd).
Definition with_child_count v nd :=
  mkNode (name nd) (name_len nd) (ntype nd) (size nd) (parent nd) (first_child nd)
    (next_sibling nd) v (data nd).
Definition with_contents d s nd :=
  mkNode (name nd) (name_len nd) (ntype nd) s (parent nd) (first_child nd)
    (next_sibling nd) (child_count nd) d.

Definition init (st : Ram) : exec Ram :=
  nd ← or_panic (node st 0);
  Ret (mkRam
    (set_z 0 (mkNode (set_z 0 47 (name nd)) 1 2 (size nd) (parent nd) (first_child nd)
                (next_sibling nd) (child_count nd) (data nd)) (nodes st)) 0 1).

(** ** Allocation *)
Definition alloc_idx (st : Ram) : option Z * Ram :=
  let i := NEXT_IDX st in
  if (0 <=? i) && (i <? MAX_FILES) then (Some i, mkRam (nodes st) (ROOT st) (i + 1))
  else match list_find (fun nd => ntype nd = 0) (drop 1 (nodes st)) with
       | Some (n, _) =>
           let j := Z.of_nat n + 1 in (Some j, mkRam (nodes st) (ROOT st) (j + 1))
       | None => (None, st)
       end.

(** The loop that looks for the last sibling. *)
Fixpoint last_sibling (fuel : nat) (st : Ram) (cur : Z) : exec Z :=
  match fuel with
  | O => Running
  | S fuel =>
      nd ← or_panic (node st cur);
      let next := next_sibling nd in
      if next <? 0 then Ret cur else last_sibling fuel st next
  end.

Definition ntype_code (t : NodeType) : Z := match t with File => 1 | Directory => 2 end.

(** The fresh entry for a new name: only [DATAS] is left as it is. *)
Definition new_node (nm : list Z) (t : NodeType) (par : Z) (old : Node) : Node :=
  let name_len := Z.min (Z.of_nat (length nm)) (MAX_NAME - 1) in
  mkNode (take (Z.to_nat name_len) nm ++ drop (Z.to_nat name_len) (name old))
    (u8w name_len) (ntype_code t) 0 par (-1) (-1) 0 (data old).

(** Hanging [idx] behind the last child of [pu]. *)
Definition link_child (fuel : nat) (st : Ram) (pu idx : Z) : exec Ram :=
  pd ← or_panic (node st pu);
  let first := first_child pd in
  st1 ← (if first <? 0 then Ret (set_at pu (with_first_child idx pd) st)
         else last ← last_sibling fuel st first;
              ld ← or_panic (node st last);
              Ret (set_at last (with_next_sibling idx ld) st));
  pd1 ← or_panic (node st1 pu);
  Ret (set_at pu (with_child_count (u8w (child_count pd1 + 1)) pd1) st1).

Definition set_node (fuel : nat) (st : Ram) (nm : list Z) (t : NodeType) (par : Z) :
    exec (option Z * Ram) :=
  match alloc_idx st with
  | (None, st1) => Ret (None, st1)
  | (Some idx, st1) =>
      old ← or_panic (node st1 idx);
      let st2 := set_at idx (new_node nm t par old) st1 in
      if 0 <=? par then st3 ← link_child fuel st2 par idx; Ret (Some idx, st3)
      else Ret (Some idx, st2)
  end.

(** ** Lookup *)

(** [NAME_LENS[cu] == name.len() && &NAMES[cu][..len] == name.as_bytes()]. *)
Definition name_is (nd : Node) (nm : list Z) : exec bool :=
  if name_len nd =? Z.of_nat (length nm)
  then b ← or_panic (slice (name nd) 0 (Z.to_nat (name_len nd))); Ret (bool_decide (b = nm))
  else Ret false.

(** The walk over the siblings from [cur]: the matching node, or -1. *)
Fixpoint search (fuel : nat) (st : Ram) (cur : Z) (nm : list Z) : exec Z :=
  match fuel with
  | O => Running
  | S fuel =>
      if cur <? 0 then Ret (-1)
      else nd ← or_panic (node st cur);
           b ← name_is nd nm;
           if (b : bool) then Ret cur else search fuel st (next_sibling nd) nm
  end.

Definition in_files (i : Z) : bool := (0 <=? i) && (i <? MAX_FILES).

Definition find_child (fuel : nat) (st : Ram) (par : Z) (nm : list Z) : exec (option Z) :=
  if negb (in_files par) then Ret None
  else pd ← or_panic (node st par);
       found ← search fuel st (first_child pd) nm;
       Ret (if found <? 0 then None else Some found).

Definition create_file (fuel : nat) (st : Ram) (par : Z) (nm : list Z) :
    exec (option Z * Ram) :=
  if negb (in_files par) then Ret (None, st)
  else pd ← or_panic (node st par);
       if negb (ntype pd =? 2) then Ret (None, st)
       else c ← find_child fuel st par nm;
            if bool_decide (is_Some c) then Ret (None, st)
            else set_node fuel st nm File par.

Definition create_dir (fuel : nat) (st : Ram) (par : Z) (nm : list Z) :
    exec (option Z * Ram) :=
  if negb (in_files par) then Ret (None, st)
  else pd ← or_panic (node st par);
       if negb (ntype pd =? 2) then Ret (None, st)
       else c ← find_child fuel st par nm;
            if bool_decide (is_Some c) then Ret (None, st)
            else set_node fuel st nm Directory par.

(** ** Paths *)

(** [path.split('/')]. *)
Fixpoint split_slash (p : list Z) : list (list Z) :=
  match p with
  | [] => [[]]
  | b :: p' =>
      if b =? 47 then [] :: split_slash p'
      else match split_slash p' with
           | w :: ws => (b :: w) :: ws
           | [] => [[b]]
           end
  end.

(** [.filter(|c| !c.is_empty())]. *)
Definition components (p : list Z) : list (list Z) :=
  filter (fun c => c <> []) (split_slash p).

(** [if path.starts_with('/') { &path[1..] } else { path }]. *)
Definition clean (p : list Z) : list Z :=
  match p with b :: p' => if b =? 47 then p' else p | [] => p end.

Fixpoint resolve_from (fuel : nat) (st : Ram) (current : Z) (cs : list (list Z)) :
    exec (option Z) :=
  match cs with
  | [] => Ret (Some current)
  | c :: cs =>
      nd ← or_panic (node st current);
      found ← search fuel st (first_child nd) c;
      if found <? 0 then Ret None else resolve_from fuel st found cs
  end.

Definition resolve (fuel : nat) (st : Ram) (path : list Z) : exec (option Z) :=
  if bool_decide (clean path = []) then Ret (if 0 <=? ROOT st then Some (ROOT st) else None)
  else if ROOT st <? 0 then Ret None
  else resolve_from fuel st (ROOT st) (components (clean path)).

Fixpoint mkdir_from (fuel : nat) (st : Ram) (current : Z) (cs : list (list Z)) :
    exec (Z * Ram) :=
  match cs with
  | [] => Ret (0, st)
  | c :: rest =>
      nd ← or_panic (node st current);
      found ← search fuel st (first_child nd) c;
      if 0 <=? found then
        match rest with
        | [] => Ret (status_i32 AlreadyExists, st)
        | _ :: _ =>
            fd ← or_panic (node st found);
            if negb (ntype fd =? 2) then Ret (status_i32 WrongType, st)
            else mkdir_from fuel st found rest
        end
      else
        new ← create_dir fuel st current c;
        match new with
        | (Some n, st') => mkdir_from fuel st' n rest
        | (None, st') => Ret (status_i32 NoMemory, st')
        end
  end.

Definition mkdir_path (fuel : nat) (st : Ram) (path : list Z) : exec (Z * Ram) :=
  if bool_decide (clean path = []) then Ret (0, st)
  else if ROOT st <? 0 then Ret (status_i32 NotFound, st)
  else mkdir_from fuel st (ROOT st) (components (clean path)).

(** [clean.rfind('/')]. *)
Fixpoint rfind_slash (p : list Z) : option nat :=
  match p with
  | [] => None
  | b :: p' =>
      match rfind_slash p' with
      | Some i => Some (S i)
      | None => if b =? 47 then Some O else None
      end
  end.

Definition create_file_path (fuel : nat) (st : Ram) (path : list Z) : exec (option Z * Ram) :=
  let c := clean path in
  if bool_decide (c = []) then Ret (None, st)
  else match rfind_slash c with
       | Some i =>
           p ← resolve fuel st (take i c);
           match p with
           | Some p_idx => create_file fuel st p_idx (drop (S i) c)
           | None => Ret (None, st)
           end
       | None => create_file fuel st (ROOT st) c
       end.

(** ** Contents *)

(** The result and the caller's buffer. *)
Definition read (st : Ram) (idx : Z) (buf : list Z) (offset : Z) : exec (Z * list Z) :=
  if negb (in_files idx) then Ret (-1, buf)
  else nd ← or_panic (node st idx);
       if ntype nd =? 0 then Ret (-1, buf)
       else if size nd <=? offset then Ret (0, buf)
       else let avail := size nd - offset in
            let read_len := Z.min (Z.of_nat (length buf)) avail in
            d ← or_panic (slice (data nd) (Z.to_nat offset) (Z.to_nat (offset + read_len)));
            Ret (i32w read_len, d ++ drop (Z.to_nat read_len) buf).

Definition write (st : Ram) (idx : Z) (bytes : list Z) (offset : Z) : exec (Z * Ram) :=
  if negb (in_files idx) then Ret (-1, st)
  else nd ← or_panic (node st idx);
       if negb (ntype nd =? 1) then Ret (-1, st)
       else let write_len := Z.min (Z.of_nat (length bytes)) (u64w (FILE_SIZE - offset)) in
            let o := Z.to_nat offset in
            let w := Z.to_nat write_len in
            _ ← or_panic (slice (data nd) o (o + w));
            let d := take o (data nd) ++ take w bytes ++ drop (o + w) (data nd) in
            let new_size := u32w (offset + write_len) in
            let s := if size nd <? new_size then new_size else size nd in
            Ret (i32w write_len, set_at idx (with_contents d s nd) st).

Definition stat_size (st : Ram) (idx : Z) : exec Z :=
  if negb (in_files idx) then Ret (-1)
  else nd ← or_panic (node st idx);
       Ret (if ntype nd =? 0 then -1 else i32w (size nd)).

Definition stat_type (st : Ram) (idx : Z) : exec (option NodeType) :=
  if negb (in_files idx) then Ret None
  else nd ← or_panic (node st idx);
       Ret (match ntype nd with 1 => Some File | 2 => Some Directory | _ => None end).

Definition parent_of (st : Ram) (child : Z) : exec Z :=
  if negb (in_files child) then Ret (-1)
  else nd ← or_panic (node st child); Ret (parent nd).

(** ** Removal *)

(** The arrays after the entry [nd] has been taken out: its name stays. *)
Definition cleared (nd : Node) : Node :=
  mkNode (name nd) 0 0 0 (-1) (-1) (-1) 0 (zeros FILE_SIZE).

(** From [CHILD_COUNTS[pu] -= 1] on. *)
Definition clear_child (st : Ram) (pu child : Z) : exec (bool * Ram) :=
  pd ← or_panic (node st pu);
  let st1 := set_at pu (with_child_count (u8w (child_count pd - 1)) pd) st in
  cd ← or_panic (node st1 child);
  Ret (true, set_at child (cleared cd) st1).

(** [cur] is the child and [prev] the sibling before it, or -1. *)
Definition unlink (st : Ram) (pu prev child : Z) : exec (bool * Ram) :=
  cd ← or_panic (node st child);
  st1 ← (if prev <? 0
         then pd ← or_panic (node st pu);
              Ret (set_at pu (with_first_child (next_sibling cd) pd) st)
         else vd ← or_panic (node st prev);
              Ret (set_at prev (with_next_sibling (next_sibling cd) vd) st));
  clear_child st1 pu child.

Fixpoint remove_walk (fuel : nat) (st : Ram) (pu child prev cur : Z) : exec (bool * Ram) :=
  match fuel with
  | O => Running
  | S fuel =>
      if cur <? 0 then Ret (false, st)
      else if cur =? child then unlink st pu prev child
      else nd ← or_panic (node st cur);
           remove_walk fuel st pu child cur (next_sibling nd)
  end.

Definition remove (fuel : nat) (st : Ram) (par child : Z) : exec (bool * Ram) :=
  if negb (in_files par) || negb (in_files child) then Ret (false, st)
  else cd ← or_panic (node st child);
       if (ntype cd =? 2) && (0 <? child_count cd) then Ret (false, st)
       else if ntype cd =? 0 then Ret (false, st)
       else pd ← or_panic (node st par);
            remove_walk fuel st par child (-1) (first_child pd).

(** ** Listing *)

(** The loop over the children: [out] holds the [written] bytes so far, [cap]
    is [buf.len()]. *)
Fixpoint list_names (fuel : nat) (st : Ram) (cap : nat) (first : bool) (out : list Z)
    (cur : Z) : exec (list Z) :=
  match fuel with
  | O => Running
  | S fuel =>
      if cur <? 0 then Ret out
      else if negb first && (cap <=? length out)%nat then Ret out
      else
        let out1 := if first then out else out ++ [10] in
        nd ← or_panic (node st cur);
        let copy_len := Nat.min (Z.to_nat (name_len nd)) (cap - length out1) in
        nm ← or_panic (slice (name nd) 0 copy_len);
        list_names fuel st cap false (out1 ++ nm) (next_sibling nd)
  end.

Definition readdir_names (fuel : nat) (st : Ram) (par : Z) (buf : list Z) : exec (Z * list Z) :=
  if negb (in_files par) then Ret (-1, buf)
  else pd ← or_panic (node st par);
       if negb (ntype pd =? 2) then Ret (-1, buf)
       else out ← list_names fuel st (length buf) true [] (first_child pd);
            Ret (i32w (Z.of_nat (length out)), out ++ drop (length out) buf).

(** ** Well-formed trees

    [kids i] is the list of children of node [i], in sibling order. *)
Fixpoint chain (st : Ram) (cur : Z) (cs : list Z) : Prop :=
  match cs with
  | [] => cur < 0
  | c :: cs => cur = c /\ exists nd, node st c = Some nd /\ chain st (next_sibling nd) cs
  end.

Record node_ok (nd : Node) : Prop := {
  ok_name : length (name nd) = 64%nat;
  ok_name_len : 0 <= name_len nd <= 63;
  ok_ntype : 0 <= ntype nd <= 2;
  ok_size : 0 <= size nd <= FILE_SIZE;
  ok_data : length (data nd) = 4096%nat }.

Record wf (kids : Z -> list Z) (st : Ram) : Prop := {
  wf_len : length (nodes st) = 16%nat;
  wf_ok : forall i nd, node st i = Some nd -> node_ok nd;
  wf_root : ROOT st = 0 /\
    exists rd, node st 0 = Some rd /\ ntype rd = 2 /\ parent rd = -1;
  wf_kids : forall i nd, node st i = Some nd ->
    chain st (first_child nd) (kids i) /\ child_count nd = Z.of_nat (length (kids i)) /\
    (kids i <> [] -> ntype nd = 2);
  wf_nodup : forall i, NoDup (kids i);
  wf_child : forall i c, c ∈ kids i ->
    (exists pd, node st i = Some pd) /\
    exists cd, node st c = Some cd /\ ntype cd <> 0 /\ parent cd = i;
  wf_up : forall c cd, node st c = Some cd -> ntype cd <> 0 -> c <> 0 -> c ∈ kids (parent cd);
  wf_depth : exists depth : Z -> nat, forall i c, c ∈ kids i -> (depth i < depth c)%nat }.

(** No entry at or after [NEXT_IDX] is in use. *)
Definition fresh (st : Ram) : Prop :=
  1 <= NEXT_IDX st /\ forall i nd, NEXT_IDX st <= i -> node st i = Some nd -> ntype nd = 0.

(** The name of a node. *)
Definition label (nd : Node) : list Z := take (Z.to_nat (name_len nd)) (name nd).

(** The first of [cs] with the name [nm]. *)
Definition named (st : Ram) (nm : list Z) (c : Z) : bool :=
  match node st c with Some nd => bool_decide (label nd = nm) | None => false end.

Fixpoint pick (st : Ram) (nm : list Z) (cs : list Z) : option Z :=
  match cs with
  | [] => None
  | c :: cs => if named st nm c then Some c else pick st nm cs
  end.

(** Following a path from the node [i]. *)
Fixpoint follow (kids : Z -> list Z) (st : Ram) (i : Z) (path : list (list Z)) : option Z :=
  match path with
  | [] => Some i
  | nm :: path =>
      match pick st nm (kids i) with
      | Some c => follow kids st c path
      | None => None
      end
  end.

Definition upd_kids (kids : Z -> list Z) (i : Z) (cs : list Z) : Z -> list Z :=
  fun j => if j =? i then cs else kids j.

(** *** Lookups *)
Lemma node_range st i nd : node st i = Some nd -> 0 <= i < Z.of_nat (length (nodes st)).
Proof. intros [H _]%at_z_Some. done. Qed.

Lemma node_in st i : 0 <= i < Z.of_nat (length (nodes st)) -> exists nd, node st i = Some nd.
Proof. apply at_z_in. Qed.

Lemma node_set_at st i j x y :
  node st i = Some y -> node (set_at i x st) j = if j =? i then Some x else node st j.
Proof. apply at_set_z. Qed.

Lemma node_set_eq st i x y : node st i = Some y -> node (set_at i x st) i = Some x.
Proof. apply at_set_z_eq. Qed.

Lemma node_set_ne st i j x y : node st i = Some y -> j <> i -> node (set_at i x st) j = node st j.
Proof. intros H Hne. rewrite (node_set_at _ _ _ _ _ H). by destruct (Z.eqb_spec j i). Qed.

Lemma length_set_at i x st : length (nodes (set_at i x st)) = length (nodes st).
Proof. apply length_set_z. Qed.

Lemma in_files_node st i :
  length (nodes st) = 16%nat -> in_files i = true <-> exists nd, node st i = Some nd.
Proof.
  intros Hl. unfold in_files, MAX_FILES. rewrite andb_true_iff, Z.leb_le, Z.ltb_lt. split.
  - intros H. apply node_in. lia.
  - intros [nd H%node_range]. lia.
Qed.

(** *** Chains *)
Lemma chain_node st cur cs c : chain st cur cs -> c ∈ cs -> exists nd, node st c = Some nd.
Proof.
  revert cur. induction cs as [|c' cs IH]; cbn; intros cur Hc Hin; [by apply elem_of_nil in Hin|].
  destruct Hc as (_ & nd & Hn & Hc). apply elem_of_cons in Hin as [->|Hin]; [by exists nd|].
  by apply (IH (next_sibling nd)).
Qed.

Lemma chain_ext st st' cur cs :
  (forall c nd, c ∈ cs -> node st c = Some nd ->
    exists nd', node st' c = Some nd' /\ next_sibling nd' = next_sibling nd) ->
  chain st cur cs -> chain st' cur cs.
Proof.
  revert cur. induction cs as [|c cs IH]; cbn; intros cur Hext Hc; [done|].
  destruct Hc as (-> & nd & Hn & Hc). split; [done|].
  destruct (Hext c nd) as (nd' & Hn' & Heq); [by apply elem_of_cons; left|done|].
  exists nd'. split; [done|]. rewrite Heq. apply IH; [|done].
  intros c' nd'' Hin. apply Hext. apply elem_of_cons. by right.
Qed.

(** Redirecting the link of one member. *)
Lemma chain_splice st cur pre l mid tail ld v :
  chain st cur (pre ++ l :: mid) -> l ∉ pre -> l ∉ tail -> node st l = Some ld ->
  chain st v tail ->
  chain (set_at l (with_next_sibling v ld) st) cur (pre ++ l :: tail).
Proof.
  intros Hc Hpre Htail Hl Ht. set (st' := set_at _ _ _).
  assert (Hext : forall c nd, c <> l -> node st c = Some nd -> node st' c = Some nd).
  { intros c nd Hne Hn. unfold st'. by rewrite (node_set_ne _ _ _ _ _ Hl) by done. }
  revert cur Hc. induction pre as [|c pre IH]; cbn; intros cur.
  - intros (-> & _). split; [done|]. exists (with_next_sibling v ld).
    split; [apply (node_set_eq _ _ _ _ Hl)|]. cbn. apply (chain_ext st); [|done].
    intros c nd Hin Hn. exists nd. split; [|done]. apply Hext; [|done]. by intros ->.
  - intros (-> & nd & Hn & Hr). apply not_elem_of_cons in Hpre as [Hne Hpre].
    split; [done|]. exists nd. split; [by apply Hext|]. by apply IH.
Qed.

Lemma chain_fun st cur cs cs' : chain st cur cs -> chain st cur cs' -> cs = cs'.
Proof.
  revert cur cs'. induction cs as [|c cs IH]; intros cur [|c' cs']; cbn; intros H1 H2; [done|..].
  - destruct H2 as (-> & nd & Hn%node_range & _). lia.
  - destruct H1 as (-> & nd & Hn%node_range & _). lia.
  - destruct H1 as (-> & nd & Hn & H1), H2 as (-> & nd' & Hn' & H2). f_equal.
    rewrite Hn in Hn'. injection Hn' as <-. by eapply IH.
Qed.

(** A list of distinct node numbers is no longer than the table. *)
Lemma kids_length st cs :
  length (nodes st) = 16%nat -> NoDup cs -> (forall c, c ∈ cs -> exists nd, node st c = Some nd) ->
  (length cs <= 16)%nat.
Proof.
  intros Hl Hnd Hn. change 16%nat with (length (seqZ 0 16)).
  apply submseteq_length, NoDup_submseteq; [done|].
  intros c Hc. destruct (Hn c Hc) as [nd Hr%node_range]. apply elem_of_seqZ. lia.
Qed.

Lemma wf_kids_length kids st i : wf kids st -> (length (kids i) <= 16)%nat.
Proof.
  intros Hwf. apply (kids_length st); [apply (wf_len _ _ Hwf)|apply (wf_nodup _ _ Hwf)|].
  intros c Hc. destruct (wf_child _ _ Hwf i c Hc) as (_ & cd & Hn & _). by exists cd.
Qed.

(** ** The walks *)
Lemma last_sibling_spec fuel st cur cs l :
  chain st cur (cs ++ [l]) -> (length cs < fuel)%nat -> last_sibling fuel st cur = Ret l.
Proof.
  revert fuel cur. induction cs as [|c cs IH]; cbn; intros [|fuel] cur Hc Hf; try lia; cbn.
  - destruct Hc as (-> & nd & -> & Hn). cbn. apply Z.ltb_lt in Hn. by rewrite Hn.
  - destruct Hc as (-> & nd & -> & Hc). cbn.
    destruct (Z.ltb_spec (next_sibling nd) 0).
    + destruct cs; cbn in Hc; destruct Hc as (He & nd' & Hr%node_range & _); lia.
    + apply IH; [done|lia].
Qed.

Lemma name_is_spec nd nm :
  node_ok nd -> name_is nd nm = Ret (bool_decide (label nd = nm)).
Proof.
  intros [Hn Hl _ _ _]. unfold name_is, label.
  assert (Hlen : length (take (Z.to_nat (name_len nd)) (name nd)) = Z.to_nat (name_len nd))
    by (rewrite length_take; lia).
  destruct (Z.eqb_spec (name_len nd) (Z.of_nat (length nm))) as [He|He].
  - unfold slice. rewrite decide_True by lia. cbn. by rewrite drop_0, Nat.sub_0_r.
  - f_equal. symmetry. apply bool_decide_eq_false. intros <-. rewrite Hlen in He. lia.
Qed.

Lemma search_spec fuel kids st cur cs nm :
  wf kids st -> chain st cur cs -> (length cs < fuel)%nat ->
  search fuel st cur nm = Ret (default (-1) (pick st nm cs)).
Proof.
  intros Hwf. revert fuel cur.
  induction cs as [|c cs IH]; cbn; intros [|fuel] cur Hc Hf; try lia; cbn.
  - apply Z.ltb_lt in Hc. by rewrite Hc.
  - destruct Hc as (-> & nd & Hn & Hc). pose proof (node_range _ _ _ Hn).
    destruct (Z.ltb_spec c 0); [lia|]. unfold named. rewrite Hn. cbn.
    rewrite name_is_spec by apply (wf_ok _ _ Hwf _ _ Hn). cbn.
    destruct (bool_decide _); [done|]. apply IH; [done|lia].
Qed.

Lemma pick_Some st nm cs c :
  pick st nm cs = Some c -> c ∈ cs /\ exists nd, node st c = Some nd /\ label nd = nm.
Proof.
  induction cs as [|c' cs IH]; cbn; [done|]. unfold named. intros H.
  destruct (node st c') as [nd|] eqn:Hn; [|].
  - destruct (decide (label nd = nm)) as [He|He].
    + rewrite bool_decide_true in H by done. injection H as <-.
      split; [by apply elem_of_cons; left|]. by exists nd.
    + rewrite bool_decide_false in H by done. destruct (IH H) as [? ?].
      split; [by apply elem_of_cons; right|done].
  - destruct (IH H) as [? ?]. split; [by apply elem_of_cons; right|done].
Qed.

Lemma pick_None st nm cs :
  pick st nm cs = None <->
  (forall c nd, c ∈ cs -> node st c = Some nd -> label nd <> nm).
Proof.
  induction cs as [|c' cs IH]; cbn.
  { split; [|done]. intros _ c nd Hin. by apply elem_of_nil in Hin. }
  unfold named. split.
  - intros H c nd [->|Hin]%elem_of_cons Hn.
    + rewrite Hn in H. by destruct (decide (label nd = nm)) as [E|E];
        [rewrite bool_decide_true in H by done|].
    + destruct (match node st c' with Some _ => _ | None => _ end); [done|].
      by eapply (proj1 IH H).
  - intros H. destruct (node st c') as [nd|] eqn:Hn.
    + rewrite bool_decide_false by (apply (H c'); [by apply elem_of_cons; left|done]).
      apply IH. intros c nd' Hin. apply H. apply elem_of_cons. by right.
    + apply IH. intros c nd' Hin. apply H. apply elem_of_cons. by right.
Qed.

(** Every child number is in range, so a found child is never taken for -1. *)
Lemma kids_pos kids st i c : wf kids st -> c ∈ kids i -> 0 < c < 16.
Proof.
  intros Hwf Hc. destruct (wf_child _ _ Hwf i c Hc) as ((pd & Hp) & cd & Hn & _ & Hpar).
  pose proof (node_range _ _ _ Hn) as Hr. rewrite (wf_len _ _ Hwf) in Hr.
  destruct (wf_root _ _ Hwf) as (_ & rd & Hr0 & _ & Hrp).
  destruct (decide (c = 0)) as [->|]; [|lia].
  rewrite Hr0 in Hn. injection Hn as <-. apply node_range in Hp. lia.
Qed.

Lemma search_kids kids st i nd nm :
  wf kids st -> node st i = Some nd ->
  search 17 st (first_child nd) nm = Ret (default (-1) (pick st nm (kids i))).
Proof.
  intros Hwf Hn. destruct (wf_kids _ _ Hwf i nd Hn) as (Hc & _ & _).
  apply (search_spec _ kids); [done|done|]. pose proof (wf_kids_length kids st i Hwf). lia.
Qed.

Lemma found_neg kids st i nm :
  wf kids st -> (default (-1) (pick st nm (kids i)) <? 0) = bool_decide (pick st nm (kids i) = None).
Proof.
  intros Hwf. destruct (pick st nm (kids i)) as [c|] eqn:Hp; cbn; [|done].
  apply pick_Some in Hp as [Hc _]. pose proof (kids_pos _ _ _ _ Hwf Hc).
  destruct (Z.ltb_spec c 0); [lia|done].
Qed.

(** Running binds, without unfolding the walks. *)
Ltac run_binds := cbn [or_panic mbind exec_bind mret exec_ret negb].

Lemma find_child_spec kids st par nm :
  wf kids st ->
  find_child 17 st par nm =
  Ret (match node st par with Some _ => pick st nm (kids par) | None => None end).
Proof.
  intros Hwf. unfold find_child.
  pose proof (in_files_node st par (wf_len _ _ Hwf)) as Hin.
  destruct (node st par) as [pd|] eqn:Hp.
  - rewrite (proj2 Hin) by by exists pd. run_binds. rewrite (search_kids kids st par pd) by done. run_binds.
    rewrite (found_neg kids) by done. by destruct (pick st nm (kids par)).
  - destruct (in_files par); [|done]. destruct (proj1 Hin eq_refl) as [? [=]].
Qed.

Lemma resolve_from_spec kids st i cs :
  wf kids st -> (exists nd, node st i = Some nd) ->
  resolve_from 17 st i cs = Ret (follow kids st i cs).
Proof.
  intros Hwf. revert i. induction cs as [|c cs IH]; intros i [nd Hn]; [done|].
  cbn [resolve_from follow]. rewrite Hn. run_binds.
  rewrite (search_kids kids st i nd) by done. run_binds. rewrite (found_neg kids) by done.
  destruct (pick st c (kids i)) as [k|] eqn:Hp; cbn; [|done].
  apply IH. apply pick_Some in Hp as (_ & nd' & Hn' & _). by exists nd'.
Qed.

Lemma follow_node kids st i cs j :
  wf kids st -> (exists nd, node st i = Some nd) -> follow kids st i cs = Some j ->
  exists nd, node st j = Some nd.
Proof.
  intros Hwf. revert i. induction cs as [|c cs IH]; intros i Hi; cbn; [by intros [= <-]|].
  destruct (pick st c (kids i)) as [k|] eqn:Hp; [|done]. apply IH.
  apply pick_Some in Hp as (_ & nd' & Hn' & _). by exists nd'.
Qed.

(** ** Linking a new child *)
Lemma link_child_spec st par k pd kd cs :
  node st par = Some pd -> node st k = Some kd -> next_sibling kd < 0 ->
  chain st (first_child pd) cs -> NoDup cs -> par ∉ cs -> k ∉ cs -> k <> par ->
  (length cs <= 16)%nat ->
  exists st', link_child 17 st par k = Ret st' /\
    ROOT st' = ROOT st /\ NEXT_IDX st' = NEXT_IDX st /\
    length (nodes st') = length (nodes st) /\
    (exists f, node st' par = Some (with_child_count (u8w (child_count pd + 1))
                                      (with_first_child f pd)) /\ chain st' f (cs ++ [k])) /\
    (forall j nd, j <> par -> node st j = Some nd ->
       exists v, node st' j = Some (with_next_sibling v nd) /\
                 (j ∉ cs -> v = next_sibling nd)).
Proof.
  intros Hp Hk Hkn Hc Hnd Hpc Hkc Hkp Hlen. unfold link_child. rewrite Hp. run_binds.
  assert (Hcount : forall st1 pd1, node st1 par = Some pd1 ->
    forall j nd, j <> par -> node st1 j = Some nd ->
    node (set_at par (with_child_count (u8w (child_count pd1 + 1)) pd1) st1) j = Some nd).
  { intros st1 pd1 H1 j nd Hj Hn. by rewrite (node_set_ne _ _ _ _ _ H1). }
  destruct cs as [|l pre _] using rev_ind.
  - cbn in Hc. apply Z.ltb_lt in Hc. rewrite Hc. run_binds.
    pose proof (node_set_eq st par (with_first_child k pd) pd Hp) as H1. rewrite H1. run_binds.
    eexists. split; [done|]. split; [done|]. split; [done|].
    split; [by rewrite !length_set_at|]. split.
    + exists k. split; [by rewrite (node_set_eq _ _ _ _ H1)|]. cbn [chain app]. split; [done|]. exists kd.
      split; [|done]. apply Hcount; [done|done|]. by rewrite (node_set_ne _ _ _ _ _ Hp).
    + intros j nd Hj Hn. exists (next_sibling nd). split; [|done].
      rewrite (Hcount _ _ H1 j nd Hj); [by destruct nd|]. by rewrite (node_set_ne _ _ _ _ _ Hp).
  - apply NoDup_app in Hnd as (Hnd & Hdis & _).
    assert (Hlp : l ∉ pre) by (intros Hin; apply (Hdis l Hin); by apply list_elem_of_singleton).
    rewrite elem_of_app, list_elem_of_singleton in Hpc, Hkc.
    destruct (chain_node _ _ _ l Hc) as [ld Hl]; [apply elem_of_app; right; by constructor|].
    assert (Hpos : (first_child pd <? 0) = false).
    { destruct pre; cbn in Hc; destruct Hc as (-> & nd & Hr%node_range & _);
        apply Z.ltb_ge; lia. }
    rewrite Hpos, (last_sibling_spec 17 st _ pre l) by
      (try done; rewrite length_app in Hlen; cbn in Hlen; lia). run_binds.
    rewrite Hl. run_binds.
    assert (H1 : node (set_at l (with_next_sibling k ld) st) par = Some pd).
    { rewrite (node_set_ne _ _ _ _ _ Hl); [done|]. intros ->. tauto. }
    rewrite H1. run_binds.
    eexists. split; [done|]. split; [done|]. split; [done|].
    split; [by rewrite !length_set_at|]. split.
    + exists (first_child pd). split; [rewrite (node_set_eq _ _ _ _ H1); by destruct pd|].
      apply (chain_ext (set_at l (with_next_sibling k ld) st)).
      * intros c nd Hin Hn. destruct (decide (c = par)) as [->|Hne].
        -- exists (with_child_count (u8w (child_count pd + 1)) pd).
           rewrite (node_set_eq _ _ _ _ H1). split; [done|].
           rewrite H1 in Hn. injection Hn as <-. done.
        -- exists nd. split; [|done]. by apply Hcount.
      * rewrite <- app_assoc. apply (chain_splice st _ pre l [] [k]); [done|done| |done|].
        -- rewrite list_elem_of_singleton. intros ->. tauto.
        -- cbn. split; [done|]. by exists kd.
    + intros j nd Hj Hn. destruct (decide (j = l)) as [->|Hjl].
      * exists k. split; [|intros []; apply elem_of_app; right; by constructor].
        rewrite (Hcount _ _ H1 l (with_next_sibling k ld) Hj); [|by rewrite (node_set_eq _ _ _ _ Hl)].
        congruence.
      * exists (next_sibling nd). split; [|done].
        rewrite (Hcount _ _ H1 j nd Hj); [by destruct nd|]. by rewrite (node_set_ne _ _ _ _ _ Hl).
Qed.

(** *** Allocation *)
Definition is_free_node (st : Ram) (i : Z) : Prop := exists nd, node st i = Some nd /\ ntype nd = 0.

Lemma alloc_idx_spec st k st1 :
  length (nodes st) = 16%nat -> fresh st -> alloc_idx st = (k, st1) ->
  nodes st1 = nodes st /\ ROOT st1 = ROOT st /\
  match k with
  | Some i => is_free_node st i /\ NEXT_IDX st1 = i + 1 /\ (NEXT_IDX st < 16 -> i = NEXT_IDX st) /\
              0 < i
  | None => st1 = st /\ forall i nd, 0 < i -> node st i = Some nd -> ntype nd <> 0
  end.
Proof.
  intros Hl [H0 Hf]. unfold alloc_idx, MAX_FILES. case_bools; reflect.
  - intros [= <- <-]. cbn. split_and!; try done; [|lia].
    destruct (node_in st (NEXT_IDX st)) as [nd Hn]; [lia|]. exists nd. split; [done|].
    apply (Hf (NEXT_IDX st)); [lia|done].
  - destruct (list_find _ _) as [[n nd]|] eqn:Hfind; intros [= <- <-]; cbn.
    + apply list_find_Some in Hfind as (Hn & Ht & _). rewrite lookup_drop in Hn.
      split_and!; [done|done| |done| |lia].
      * exists nd. split; [|done]. unfold node, at_z. destruct (Z.leb_spec 0 (Z.of_nat n + 1)); [|lia].
        by replace (Z.to_nat (Z.of_nat n + 1)) with (1 + n)%nat by lia.
      * intros Hlt. apply andb_false_iff in Heqb as [?%Z.leb_gt|?%Z.ltb_ge]; lia.
    + split_and!; [done..|]. intros i nd Hi Hn Ht. apply list_find_None in Hfind.
      rewrite Forall_forall in Hfind. apply (Hfind nd); [|done].
      apply at_z_Some in Hn as [_ Hn]. apply list_elem_of_lookup. exists (Z.to_nat i - 1)%nat.
      rewrite lookup_drop. by replace (1 + (Z.to_nat i - 1))%nat with (Z.to_nat i) by lia.
Qed.

(** ** Creating an entry *)

(** The entry but for its links. *)
Definition same_entry (nd nd' : Node) : Prop :=
  name nd' = name nd /\ name_len nd' = name_len nd /\ ntype nd' = ntype nd /\
  size nd' = size nd /\ parent nd' = parent nd /\ data nd' = data nd.

Lemma same_entry_ok nd nd' : same_entry nd nd' -> node_ok nd -> node_ok nd'.
Proof.
  intros (H1 & H2 & H3 & H4 & _ & H6) [].
  by constructor; rewrite ?H1, ?H2, ?H3, ?H4, ?H6.
Qed.

(** What a creation does: a free entry becomes the last child of [par]. *)
Record created (kids : Z -> list Z) (st : Ram) (par : Z) (nm : list Z) (t : NodeType) (k : Z)
    (st' : Ram) : Prop := {
  cr_free : is_free_node st k;
  cr_wf : wf (upd_kids kids par (kids par ++ [k])) st';
  cr_node : exists nd, node st' k = Some nd /\ label nd = take 63 nm /\
                       ntype nd = ntype_code t /\ size nd = 0;
  cr_frame : forall j nd, j <> k -> node st j = Some nd ->
    exists nd', node st' j = Some nd' /\ same_entry nd nd';
  cr_next : NEXT_IDX st' = k + 1 /\ (NEXT_IDX st < 16 -> k = NEXT_IDX st) }.

Lemma new_node_ok nm t par old : node_ok old -> node_ok (new_node nm t par old).
Proof.
  intros [Hn Hl Ht Hs Hd]. unfold new_node, MAX_NAME. constructor; cbn.
  - rewrite length_app, length_take, length_drop. lia.
  - unfold u8w. rewrite Z.mod_small; lia.
  - destruct t; cbn; lia.
  - unfold FILE_SIZE. lia.
  - done.
Qed.

Lemma new_node_label nm t par old :
  label (new_node nm t par old) = take 63 nm.
Proof.
  unfold label, new_node, MAX_NAME. cbn [name_len name]. unfold u8w. rewrite Z.mod_small by lia.
  set (n := Z.to_nat _). assert (Hn : n = Nat.min (length nm) 63) by lia.
  rewrite take_app_le by (rewrite length_take; lia). rewrite take_take, Nat.min_id.
  destruct (decide (length nm <= 63)%nat).
  - rewrite !take_ge by lia. done.
  - by replace n with 63%nat by lia.
Qed.

Lemma kids_disjoint kids st i j c : wf kids st -> c ∈ kids i -> c ∈ kids j -> i = j.
Proof.
  intros Hwf Hi Hj.
  destruct (wf_child _ _ Hwf _ _ Hi) as (_ & cd & Hn & _ & <-),
           (wf_child _ _ Hwf _ _ Hj) as (_ & cd' & Hn' & _ & <-). congruence.
Qed.

Lemma kids_irrefl kids st i : wf kids st -> i ∉ kids i.
Proof. intros Hwf Hi. destruct (wf_depth _ _ Hwf) as [d Hd]. specialize (Hd i i Hi). lia. Qed.

Lemma free_no_kid kids st k i : wf kids st -> is_free_node st k -> k ∉ kids i.
Proof.
  intros Hwf (kd & Hk & Ht) Hin. destruct (wf_child _ _ Hwf _ _ Hin) as (_ & cd & Hn & Hne & _).
  congruence.
Qed.

Lemma free_no_kids kids st k : wf kids st -> is_free_node st k -> kids k = [].
Proof.
  intros Hwf (kd & Hk & Ht). destruct (wf_kids _ _ Hwf _ _ Hk) as (_ & _ & H).
  destruct (kids k) as [|c cs]; [done|]. rewrite H in Ht by done. done.
Qed.

Lemma free_not_parent kids st k c : wf kids st -> is_free_node st k -> c ∉ kids k.
Proof. intros Hwf Hk. rewrite (free_no_kids kids st) by done. apply not_elem_of_nil. Qed.

Lemma elem_upd_kids kids i cs j c :
  c ∈ upd_kids kids i cs j <-> (j = i /\ c ∈ cs) \/ (j <> i /\ c ∈ kids j).
Proof. unfold upd_kids. destruct (Z.eqb_spec j i); tauto. Qed.

(** The links of one directory [par] and one of its members [k] change, the
    entries of all other nodes stay. *)
Section relinking.
Context (kids : Z -> list Z) (st st' : Ram) (par k : Z) (pd : Node) (cs' : list Z) (cnt : Z).
Hypothesis Hwf : wf kids st.
Hypothesis Hk0 : kids k = [].
Hypothesis Hkout : forall i, i <> par -> k ∉ kids i.
Hypothesis Hpar : node st par = Some pd.
Hypothesis Hlen : length (nodes st') = length (nodes st).
Hypothesis Hpar' : exists f,
  node st' par = Some (with_child_count cnt (with_first_child f pd)) /\ chain st' f cs'.
Hypothesis Hrest : forall j nd, j <> par -> j <> k -> node st j = Some nd ->
  exists v, node st' j = Some (with_next_sibling v nd) /\ (j ∉ kids par -> v = next_sibling nd).

Lemma relink_entry j nd :
  j <> k -> node st j = Some nd -> exists nd', node st' j = Some nd' /\ same_entry nd nd' /\
    (j <> par -> first_child nd' = first_child nd /\ child_count nd' = child_count nd) /\
    (j ∉ kids par -> next_sibling nd' = next_sibling nd).
Proof using Hpar Hpar' Hrest.
  intros Hjk Hn. destruct (decide (j = par)) as [->|Hjp].
  - destruct Hpar' as (f & H & _). rewrite Hpar in Hn. injection Hn as <-.
    eexists. split; [exact H|]. split; [by split_and!|]. split; [done|]. done.
  - destruct (Hrest j nd Hjp Hjk Hn) as (v & H & Hv).
    eexists. split; [exact H|]. split; [by split_and!|]. split; [done|]. exact Hv.
Qed.

Lemma relink_back j nd' :
  j <> k -> node st' j = Some nd' -> exists nd, node st j = Some nd /\ same_entry nd nd'.
Proof using Hlen Hpar Hpar' Hrest.
  intros Hjk Hn. destruct (node_in st j) as [nd Hn0].
  { rewrite <- Hlen. by eapply node_range. }
  exists nd. split; [done|]. destruct (relink_entry j nd Hjk Hn0) as (nd2 & H & He & _).
  congruence.
Qed.

(** Same live entry in both states. *)
Lemma relink_live j nd :
  j <> k -> node st j = Some nd -> ntype nd <> 0 ->
  exists nd', node st' j = Some nd' /\ ntype nd' <> 0 /\ parent nd' = parent nd.
Proof using Hpar Hpar' Hrest.
  intros Hj Hn Ht. destruct (relink_entry j nd Hj Hn) as (nd' & H & (_ & _ & E3 & _ & E5 & _) & _).
  exists nd'. by rewrite E3, E5.
Qed.

Lemma relink_kids i nd :
  i <> par -> i <> k -> node st' i = Some nd ->
  chain st' (first_child nd) (kids i) /\ child_count nd = Z.of_nat (length (kids i)) /\
  (kids i <> [] -> ntype nd = 2).
Proof using All.
  intros Hip Hik Hn. destruct (relink_back i nd Hik Hn) as (nd0 & Hn0 & _).
  destruct (relink_entry i nd0 Hik Hn0) as (nd2 & H2 & He & Hf & _).
  rewrite Hn in H2. injection H2 as <-. destruct (Hf Hip) as [-> ->].
  destruct (wf_kids _ _ Hwf _ _ Hn0) as (Hc & -> & Ht).
  split; [|split; [done|intros Hne; destruct He as (_ & _ & -> & _); by apply Ht]].
  apply (chain_ext st); [|done]. intros c cd Hin Hcn.
  destruct (relink_entry c cd) as (cd' & H' & _ & _ & Hx); [|done|].
  { intros ->. by apply (Hkout i). }
  exists cd'. split; [done|]. apply Hx. intros Hin'. apply Hip. by eapply kids_disjoint.
Qed.

Lemma relink_root :
  k <> 0 -> exists rd, node st' 0 = Some rd /\ ntype rd = 2 /\ parent rd = -1.
Proof using Hwf Hpar Hpar' Hrest.
  intros Hne. destruct (wf_root _ _ Hwf) as (_ & rd & Hr0 & Hr1 & Hr2).
  destruct (relink_entry 0 rd) as (rd' & Hrd & (_ & _ & E3 & _ & E5 & _) & _); [done|done|].
  exists rd'. split; [done|]. by rewrite E3, E5.
Qed.
End relinking.

Section linking.
Context (kids : Z -> list Z) (st st' : Ram) (par k : Z) (pd kd : Node).
Hypothesis Hwf : wf kids st.
Hypothesis Hk : is_free_node st k.
Hypothesis Hpar : node st par = Some pd.
Hypothesis Hdir : ntype pd = 2.
Hypothesis Hok : node_ok kd.
Hypothesis Hkd : ntype kd <> 0 /\ parent kd = par /\ first_child kd = -1 /\ child_count kd = 0.
Hypothesis Hlen : length (nodes st') = length (nodes st).
Hypothesis Hroot : ROOT st' = ROOT st.
Hypothesis Hnew : node st' k = Some kd.
Hypothesis Hpar' : exists f,
  node st' par = Some (with_child_count (u8w (child_count pd + 1)) (with_first_child f pd)) /\
  chain st' f (kids par ++ [k]).
Hypothesis Hrest : forall j nd, j <> par -> j <> k -> node st j = Some nd ->
  exists v, node st' j = Some (with_next_sibling v nd) /\ (j ∉ kids par -> v = next_sibling nd).

Lemma link_kids i nd :
  node st' i = Some nd ->
  chain st' (first_child nd) (upd_kids kids par (kids par ++ [k]) i) /\
  child_count nd = Z.of_nat (length (upd_kids kids par (kids par ++ [k]) i)) /\
  (upd_kids kids par (kids par ++ [k]) i <> [] -> ntype nd = 2).
Proof using All.
  intros Hn. unfold upd_kids. destruct (Z.eqb_spec i par) as [->|Hip].
  - destruct Hpar' as (f & H & Hc). rewrite H in Hn. injection Hn as <-. cbn.
    split; [done|]. split; [|done]. rewrite length_app. cbn.
    destruct (wf_kids _ _ Hwf _ _ Hpar) as (_ & -> & _).
    pose proof (wf_kids_length kids st par Hwf). unfold u8w. rewrite Z.mod_small; lia.
  - destruct (decide (i = k)) as [->|Hik].
    + rewrite Hnew in Hn. injection Hn as <-. rewrite (free_no_kids kids st) by done.
      destruct Hkd as (_ & _ & -> & ->). done.
    + apply (relink_kids kids st st' par k pd (kids par ++ [k]) (u8w (child_count pd + 1)));
        try done; [by apply (free_no_kids kids st)|].
      intros i' _. by apply (free_no_kid kids st).
Qed.

Lemma link_wf : wf (upd_kids kids par (kids par ++ [k])) st'.
Proof using All.
  assert (Hkp : k <> par) by (destruct Hk as (kd0 & H0 & H1); intros ->; congruence).
  assert (Hk0 : k <> 0).
  { intros ->. destruct (wf_root _ _ Hwf) as (_ & rd & Hr & Hr2 & _), Hk as (? & ? & ?). congruence. }
  destruct Hkd as (Hkt & Hkpar & _).
  pose proof (relink_live kids st st' par k pd _ _ Hpar Hpar' Hrest) as Hlive.
  pose proof (relink_back kids st st' par k pd _ _ Hpar Hlen Hpar' Hrest) as Hback.
  constructor.
  - rewrite Hlen. apply (wf_len _ _ Hwf).
  - intros i nd Hn. destruct (decide (i = k)) as [->|Hne]; [congruence|].
    destruct (Hback i nd Hne Hn) as (nd0 & H0 & He). apply (same_entry_ok nd0); [done|].
    apply (wf_ok _ _ Hwf _ _ H0).
  - split; [rewrite Hroot; apply (wf_root _ _ Hwf)|].
    by apply (relink_root kids st st' par k pd _ _ Hwf Hpar Hpar' Hrest).
  - apply link_kids.
  - intros i. unfold upd_kids. destruct (i =? par); [|apply (wf_nodup _ _ Hwf)].
    apply NoDup_app. split; [apply (wf_nodup _ _ Hwf)|]. split; [|apply NoDup_singleton].
    intros c Hc ->%list_elem_of_singleton. by apply (free_no_kid kids st k par).
  - intros i c. rewrite elem_upd_kids, elem_of_app, list_elem_of_singleton.
    intros [[-> [Hin| ->]]|[Hne Hin]].
    + split; [destruct Hpar' as (f & H & _); by eexists|].
      destruct (wf_child _ _ Hwf _ _ Hin) as (_ & cd & Hn & Ht & <-). apply Hlive; [|done..].
      intros ->. by apply (free_no_kid kids st k (parent cd)).
    + split; [destruct Hpar' as (f & H & _); by eexists|]. by exists kd.
    + destruct (wf_child _ _ Hwf _ _ Hin) as ((pd0 & Hp0) & cd & Hn & Ht & Hp).
      split.
      * destruct (wf_kids _ _ Hwf _ _ Hp0) as (_ & _ & Ht0).
        destruct (Hlive i pd0) as (pd0' & H' & _); [|done| |by exists pd0'].
        -- intros ->. by apply (free_not_parent kids st k c).
        -- rewrite Ht0; [done|]. intros E. rewrite E in Hin. by apply elem_of_nil in Hin.
      * rewrite <- Hp. apply Hlive; [|done..]. intros ->. by apply (free_no_kid kids st k i).
  - intros c cd Hn Ht H0. rewrite elem_upd_kids, elem_of_app, list_elem_of_singleton.
    destruct (decide (c = k)) as [->|Hne].
    + rewrite Hnew in Hn. injection Hn as <-. left. split; [done|]. by right.
    + destruct (Hback c cd Hne Hn) as (cd0 & Hn0 & (_ & _ & E3 & _ & E5 & _)).
      rewrite E3 in Ht. pose proof (wf_up _ _ Hwf _ _ Hn0 Ht H0) as Hin. rewrite E5.
      destruct (decide (parent cd0 = par)) as [E|E]; [left|by right].
      split; [done|]. left. by rewrite <- E.
  - destruct (wf_depth _ _ Hwf) as [d Hd].
    exists (fun j => if j =? k then S (d par) else d j). intros i c.
    rewrite elem_upd_kids, elem_of_app, list_elem_of_singleton.
    intros [[-> [Hin| ->]]|[Hne Hin]].
    + destruct (Z.eqb_spec par k), (Z.eqb_spec c k) as [->|]; try done; [|by apply Hd].
      exfalso. by apply (free_no_kid kids st k par).
    + rewrite Z.eqb_refl. destruct (Z.eqb_spec par k); [done|]. lia.
    + destruct (Z.eqb_spec i k) as [->|]; [by destruct (free_not_parent kids st k c)|].
      destruct (Z.eqb_spec c k) as [->|]; [by destruct (free_no_kid kids st k i)|]. by apply Hd.
Qed.
End linking.

(** [link_child] on the table in which the fresh entry has been written. *)
Lemma fill_and_link kids st par k pd kd :
  wf kids st -> is_free_node st k -> node st par = Some pd -> ntype pd = 2 -> node_ok kd ->
  ntype kd <> 0 /\ parent kd = par /\ first_child kd = -1 /\ child_count kd = 0 ->
  next_sibling kd = -1 ->
  exists st', link_child 17 (set_at k kd st) par k = Ret st' /\
    wf (upd_kids kids par (kids par ++ [k])) st' /\ NEXT_IDX st' = NEXT_IDX st /\
    (exists kd', node st' k = Some kd' /\ same_entry kd kd') /\
    (forall j nd, j <> k -> node st j = Some nd ->
       exists nd', node st' j = Some nd' /\ same_entry nd nd').
Proof.
  intros Hwf Hk Hp Hdir Hok Hkd Hnext. pose proof Hk as (old & Hold & Ht).
  assert (Hkp : k <> par) by (intros ->; congruence).
  destruct (wf_kids _ _ Hwf _ _ Hp) as (Hc & _ & _).
  destruct (link_child_spec (set_at k kd st) par k pd kd (kids par))
    as (st' & Hrun & Hroot & Hidx & Hlen & Hpar' & Hrest).
  - by rewrite (node_set_ne _ _ _ _ _ Hold).
  - apply (node_set_eq _ _ _ _ Hold).
  - lia.
  - apply (chain_ext st); [|done]. intros c nd Hin Hn. exists nd. split; [|done].
    rewrite (node_set_ne _ _ _ _ _ Hold); [done|]. intros ->. by apply (free_no_kid kids st k par).
  - apply (wf_nodup _ _ Hwf).
  - by apply (kids_irrefl kids st).
  - by apply (free_no_kid kids st).
  - done.
  - by apply (wf_kids_length kids st).
  - exists st'. split; [done|].
    assert (Hnew : node st' k = Some kd).
    { destruct (Hrest k kd Hkp (node_set_eq _ _ _ _ Hold)) as (v & H & Hv).
      rewrite H, Hv by by apply (free_no_kid kids st). by destruct kd. }
    assert (Hrest' : forall j nd, j <> par -> j <> k -> node st j = Some nd ->
      exists v, node st' j = Some (with_next_sibling v nd) /\
                (j ∉ kids par -> v = next_sibling nd)).
    { intros j nd Hjp Hjk Hn. apply Hrest; [done|]. by rewrite (node_set_ne _ _ _ _ _ Hold). }
    rewrite length_set_at in Hlen.
    split; [by apply (link_wf kids st st' par k pd kd)|]. split; [done|].
    split; [exists kd; split; [done|by split_and!]|].
    intros j nd Hj Hn.
    destruct (relink_entry kids st st' par k pd _ _ Hp Hpar' Hrest' j nd Hj Hn) as (nd' & H & He & _).
    by exists nd'.
Qed.

Lemma wf_nodes kids st st1 :
  nodes st1 = nodes st -> ROOT st1 = ROOT st -> wf kids st -> wf kids st1.
Proof.
  intros Hn Hr [H1 H2 H3 H4 H5 H6 H7 H8].
  assert (Hnode : forall i, node st1 i = node st i) by (intros; unfold node; by rewrite Hn).
  constructor.
  - by rewrite Hn.
  - intros i nd. rewrite Hnode. apply H2.
  - rewrite Hr, Hnode. done.
  - intros i nd Hi. rewrite Hnode in Hi. destruct (H4 i nd Hi) as (Hc & ? & ?).
    split; [|done]. apply (chain_ext st); [|done]. intros c cd _ Hcn. exists cd. by rewrite Hnode.
  - done.
  - intros i c Hin. rewrite !Hnode. by apply H6.
  - intros c cd. rewrite Hnode. apply H7.
  - done.
Qed.

Lemma set_node_spec kids st nm t par pd :
  wf kids st -> fresh st -> node st par = Some pd -> ntype pd = 2 ->
  match set_node 17 st nm t par with
  | Ret (Some k, st') => created kids st par nm t k st'
  | Ret (None, st') => st' = st /\ forall i nd, 0 < i -> node st i = Some nd -> ntype nd <> 0
  | _ => False
  end.
Proof.
  intros Hwf Hf Hp Hdir. unfold set_node. destruct (alloc_idx st) as [[k|] st1] eqn:Ha.
  - destruct (alloc_idx_spec st (Some k) st1 (wf_len _ _ Hwf) Hf Ha) as (Hn & Hr & Hk & Hi & Hnx & _).
    assert (Hwf1 : wf kids st1) by by apply (wf_nodes _ st).
    assert (Hnode : forall i, node st1 i = node st i) by (intros; unfold node; by rewrite Hn).
    destruct Hk as (old & Hold & Ht). rewrite Hnode, Hold. run_binds.
    pose proof (node_range _ _ _ Hp) as Hpr. destruct (Z.leb_spec 0 par); [|lia].
    destruct (fill_and_link kids st1 par k pd (new_node nm t par old))
      as (st' & -> & Hwf' & Hidx & Hkn & Hrest); try done.
    + exists old. by rewrite Hnode.
    + by rewrite Hnode.
    + apply new_node_ok, (wf_ok _ _ Hwf k old Hold).
    + by destruct t.
    + run_binds. constructor.
      * by exists old.
      * done.
      * destruct Hkn as (kd' & Hk' & E1 & E2 & E3 & E4 & _). exists kd'.
        split; [done|]. rewrite <- (new_node_label nm t par old), E3, E4. unfold label.
        by rewrite E1, E2.
      * intros j nd Hj. rewrite <- Hnode. by apply Hrest.
      * by rewrite Hidx, Hi.
  - by destruct (alloc_idx_spec st None st1 (wf_len _ _ Hwf) Hf Ha) as (_ & _ & ? & ?).
Qed.

(** The creation calls, for both types of entries. *)
Definition create (fuel : nat) (st : Ram) (t : NodeType) (par : Z) (nm : list Z) :
    exec (option Z * Ram) :=
  match t with File => create_file fuel st par nm | Directory => create_dir fuel st par nm end.

Definition table_full (st : Ram) : Prop :=
  forall i nd, 0 < i -> node st i = Some nd -> ntype nd <> 0.

Lemma create_spec kids st t par nm :
  wf kids st -> fresh st ->
  match create 17 st t par nm with
  | Ret (Some k, st') =>
      (exists pd, node st par = Some pd /\ ntype pd = 2) /\ pick st nm (kids par) = None /\
      created kids st par nm t k st'
  | Ret (None, st') =>
      st' = st /\
      ((forall pd, node st par = Some pd -> ntype pd <> 2) \/
       (exists c, pick st nm (kids par) = Some c) \/ table_full st)
  | _ => False
  end.
Proof.
  intros Hwf Hf. pose proof (in_files_node st par (wf_len _ _ Hwf)) as Hin.
  assert (Hgo : match
      (if negb (in_files par) then Ret (None, st)
       else pd ← or_panic (node st par);
            if negb (ntype pd =? 2) then Ret (None, st)
            else c ← find_child 17 st par nm;
                 if bool_decide (is_Some c) then Ret (None, st) else set_node 17 st nm t par)
    with
    | Ret (Some k, st') =>
        (exists pd, node st par = Some pd /\ ntype pd = 2) /\ pick st nm (kids par) = None /\
        created kids st par nm t k st'
    | Ret (None, st') => st' = st /\
       ((forall pd, node st par = Some pd -> ntype pd <> 2) \/
        (exists c, pick st nm (kids par) = Some c) \/ table_full st)
    | _ => False end).
  { destruct (node st par) as [pd|] eqn:Hp.
    - rewrite (proj2 Hin) by by exists pd. run_binds.
      destruct (Z.eqb_spec (ntype pd) 2) as [Hd|Hd]; run_binds.
      + rewrite (find_child_spec kids) by done. rewrite Hp. run_binds.
        destruct (pick st nm (kids par)) as [c|] eqn:Hpk.
        * rewrite bool_decide_true by by eexists. split; [done|]. right. left. by exists c.
        * rewrite bool_decide_false by by intros [? ?].
          pose proof (set_node_spec kids st nm t par pd Hwf Hf Hp Hd) as Hs.
          destruct (set_node 17 st nm t par) as [[[k|] st']| |]; [|destruct Hs..]; [|by auto].
          split; [by exists pd|]. done.
      + split; [done|]. left. by intros ? [= <-].
    - destruct (in_files par); [by destruct (proj1 Hin eq_refl)|]. cbn.
      split; [done|]. by left. }
  destruct t; exact Hgo.
Qed.

(** ** Removing an entry *)
Lemma remove_child_walk fuel st pu child prev cur cs1 cs2 :
  chain st cur (cs1 ++ child :: cs2) -> child ∉ cs1 -> (length cs1 < fuel)%nat ->
  remove_walk fuel st pu child prev cur = unlink st pu (default prev (last cs1)) child.
Proof.
  revert fuel prev cur. induction cs1 as [|c cs1 IH]; cbn [app chain];
    intros [|fuel] prev cur Hc Hn Hf; cbn [length] in Hf; try lia; cbn [remove_walk].
  - destruct Hc as (-> & nd & Hr%node_range & _). destruct (Z.ltb_spec child 0); [lia|].
    by rewrite Z.eqb_refl.
  - destruct Hc as (-> & nd & Hnd & Hc). pose proof (node_range _ _ _ Hnd).
    apply not_elem_of_cons in Hn as [Hne Hn].
    destruct (Z.ltb_spec c 0); [lia|]. destruct (Z.eqb_spec c child); [by subst|].
    rewrite Hnd. run_binds. rewrite IH by (done || lia).
    rewrite last_cons. by destruct (last cs1).
Qed.

Lemma remove_walk_absent fuel st pu child prev cur cs :
  chain st cur cs -> child ∉ cs -> (length cs < fuel)%nat ->
  remove_walk fuel st pu child prev cur = Ret (false, st).
Proof.
  revert fuel prev cur. induction cs as [|c cs IH]; cbn [chain];
    intros [|fuel] prev cur Hc Hn Hf; cbn [length] in Hf; try lia; cbn [remove_walk].
  - apply Z.ltb_lt in Hc. by rewrite Hc.
  - destruct Hc as (-> & nd & Hnd & Hc). pose proof (node_range _ _ _ Hnd).
    apply not_elem_of_cons in Hn as [Hne Hn].
    destruct (Z.ltb_spec c 0); [lia|]. destruct (Z.eqb_spec c child); [by subst|].
    rewrite Hnd. run_binds. apply IH; (done || lia).
Qed.

Lemma clear_child_spec st par child pd f cd cs :
  node st par = Some (with_first_child f pd) -> node st child = Some cd -> child <> par ->
  chain st f cs -> child ∉ cs -> par ∉ cs ->
  exists st', clear_child st par child = Ret (true, st') /\
    ROOT st' = ROOT st /\ NEXT_IDX st' = NEXT_IDX st /\ length (nodes st') = length (nodes st) /\
    node st' par = Some (with_child_count (u8w (child_count pd - 1)) (with_first_child f pd)) /\
    chain st' f cs /\ node st' child = Some (cleared cd) /\
    (forall j, j <> par -> j <> child -> node st' j = node st j).
Proof.
  intros Hp Hcd Hcp Hc Hcc Hpc. unfold clear_child. rewrite Hp. run_binds.
  set (st2 := set_at par _ st).
  assert (Hch2 : node st2 child = Some cd) by (unfold st2; by rewrite (node_set_ne _ _ _ _ _ Hp)).
  rewrite Hch2. run_binds. eexists. split; [done|]. split; [done|]. split; [done|].
  split; [unfold st2; by rewrite !length_set_at|].
  assert (Hx : forall j, j <> child -> j <> par -> node (set_at child (cleared cd) st2) j = node st j).
  { intros j H1 H2. rewrite (node_set_ne _ _ _ _ _ Hch2) by done.
    unfold st2. by rewrite (node_set_ne _ _ _ _ _ Hp). }
  split; [|split; [|split]].
  - rewrite (node_set_ne _ _ _ _ _ Hch2) by done. unfold st2. by rewrite (node_set_eq _ _ _ _ Hp).
  - apply (chain_ext st); [|done]. intros c nd Hin Hn. exists nd. split; [|done].
    rewrite Hx; [done| |]; by intros ->.
  - apply (node_set_eq _ _ _ _ Hch2).
  - intros j Hj Hjc. by apply Hx.
Qed.

Lemma chain_suffix st cur pre c rest :
  chain st cur (pre ++ c :: rest) -> exists nd, node st c = Some nd /\ chain st (next_sibling nd) rest.
Proof.
  revert cur. induction pre as [|c' pre IH]; cbn; intros cur.
  - by intros (_ & H).
  - intros (_ & nd & _ & H). by eapply IH.
Qed.

Lemma unlink_spec st par child pd cd cs1 cs2 :
  node st par = Some pd -> node st child = Some cd ->
  chain st (first_child pd) (cs1 ++ child :: cs2) ->
  NoDup (cs1 ++ child :: cs2) -> par ∉ cs1 ++ child :: cs2 ->
  exists st', unlink st par (default (-1) (last cs1)) child = Ret (true, st') /\
    ROOT st' = ROOT st /\ NEXT_IDX st' = NEXT_IDX st /\
    length (nodes st') = length (nodes st) /\
    (exists f, node st' par = Some (with_child_count (u8w (child_count pd - 1))
                                      (with_first_child f pd)) /\ chain st' f (cs1 ++ cs2)) /\
    node st' child = Some (cleared cd) /\
    (forall j nd, j <> par -> j <> child -> node st j = Some nd ->
       exists v, node st' j = Some (with_next_sibling v nd) /\
                 (j ∉ cs1 ++ child :: cs2 -> v = next_sibling nd)).
Proof.
  intros Hp Hcd Hc Hnd Hpar. unfold unlink. rewrite Hcd. run_binds.
  destruct (chain_suffix _ _ _ _ _ Hc) as (cd' & Hcd' & Hc2). rewrite Hcd in Hcd'.
  injection Hcd' as <-. rewrite <- Permutation_middle, NoDup_cons in Hnd.
  destruct Hnd as (Hch & Hnd). rewrite <- Permutation_middle, elem_of_cons in Hpar.
  apply Decidable.not_or in Hpar as [Hpc Hpar].
  destruct cs1 as [|l pre _] using rev_ind.
  - cbn [last default]. rewrite Hp. run_binds.
    assert (Hext : forall j nd, j <> par -> node st j = Some nd ->
      node (set_at par (with_first_child (next_sibling cd) pd) st) j = Some nd).
    { intros j nd Hj. by rewrite (node_set_ne _ _ _ _ _ Hp). }
    destruct (clear_child_spec (set_at par (with_first_child (next_sibling cd) pd) st) par child pd
      (next_sibling cd) cd cs2) as (st' & Hrun & Hr & Hi & Hl & H1 & H2 & H3 & H4); try done.
    + apply (node_set_eq _ _ _ _ Hp).
    + by apply Hext.
    + apply (chain_ext st); [|done]. intros c nd Hin Hn. exists nd. split; [|done].
      apply Hext; [by intros ->|done].
    + exists st'. rewrite length_set_at in Hl. split_and!; try done; [by eexists|].
      intros j nd Hj Hjc Hn. exists (next_sibling nd). split; [|done].
      rewrite H4, (Hext _ _ Hj Hn) by done. by destruct nd.
  - rewrite last_snoc. change (default (-1) (Some l)) with l. rewrite <- !app_assoc in *. cbn [app] in *.
    destruct (chain_node _ _ _ l Hc) as [ld Hl]; [apply elem_of_app; right; by constructor|].
    pose proof (node_range _ _ _ Hl). destruct (Z.ltb_spec l 0); [lia|]. rewrite Hl. run_binds.
    pose proof (NoDup_app pre (l :: cs2)) as [(Hnp & Hdis & (Hlc & _)%NoDup_cons) _]; [done|].
    assert (Hlp : l ∉ pre) by (intros Hin; apply (Hdis l Hin); by constructor).
    assert (Hpl : par <> l /\ child <> l).
    { split; intros ->; [apply Hpar|apply Hch]; rewrite elem_of_app, elem_of_cons; tauto. }
    destruct (clear_child_spec (set_at l (with_next_sibling (next_sibling cd) ld) st) par child pd
      (first_child pd) cd (pre ++ l :: cs2)) as (st' & Hrun & Hr & Hi & Hlen & H1 & H2 & H3 & H4);
      try done.
    + rewrite (node_set_ne _ _ _ _ _ Hl) by tauto. rewrite Hp. by destruct pd.
    + rewrite (node_set_ne _ _ _ _ _ Hl) by tauto. done.
    + by apply (chain_splice st _ pre l (child :: cs2)).
    + exists st'. rewrite length_set_at in Hlen. split_and!; try done; [by eexists|].
      intros j nd Hj Hjc Hn. rewrite H4 by done. destruct (decide (j = l)) as [->|Hne].
      * exists (next_sibling cd). split; [rewrite (node_set_eq _ _ _ _ Hl); congruence|].
        intros []. rewrite elem_of_app. right. by constructor.
      * exists (next_sibling nd). split; [|done].
        rewrite (node_set_ne _ _ _ _ _ Hl) by done. rewrite Hn. by destruct nd.
Qed.

(** What a removal does. *)
Record removed (kids : Z -> list Z) (st : Ram) (par child : Z) (st' : Ram) : Prop := {
  rm_child : child ∈ kids par /\ kids child = [];
  rm_wf : exists cs1 cs2, kids par = cs1 ++ child :: cs2 /\ wf (upd_kids kids par (cs1 ++ cs2)) st';
  rm_free : is_free_node st' child;
  rm_frame : forall j nd, j <> child -> node st j = Some nd ->
    exists nd', node st' j = Some nd' /\ same_entry nd nd';
  rm_next : NEXT_IDX st' = NEXT_IDX st }.

Lemma cleared_ok nd : node_ok nd -> node_ok (cleared nd).
Proof. intros []. constructor; cbn; unfold FILE_SIZE; try lia; done. Qed.

Section unlinking.
Context (kids : Z -> list Z) (st st' : Ram) (par child : Z) (pd cd : Node) (cs1 cs2 : list Z).
Hypothesis Hwf : wf kids st.
Hypothesis Hpar : node st par = Some pd.
Hypothesis Hch : node st child = Some cd.
Hypothesis Hsplit : kids par = cs1 ++ child :: cs2.
Hypothesis Hleaf : kids child = [].
Hypothesis Hlen : length (nodes st') = length (nodes st).
Hypothesis Hroot : ROOT st' = ROOT st.
Hypothesis Hpar' : exists f,
  node st' par = Some (with_child_count (u8w (child_count pd - 1)) (with_first_child f pd)) /\
  chain st' f (cs1 ++ cs2).
Hypothesis Hcleared : node st' child = Some (cleared cd).
Hypothesis Hrest : forall j nd, j <> par -> j <> child -> node st j = Some nd ->
  exists v, node st' j = Some (with_next_sibling v nd) /\ (j ∉ kids par -> v = next_sibling nd).

Lemma child_in : child ∈ kids par.
Proof using Hsplit. rewrite Hsplit, elem_of_app. right. by constructor. Qed.

Lemma rest_in c : c ∈ cs1 ++ cs2 <-> c ∈ kids par /\ c <> child.
Proof using Hsplit Hwf.
  pose proof (wf_nodup _ _ Hwf par) as Hnd. rewrite Hsplit in Hnd |- *.
  rewrite <- Permutation_middle in Hnd |- *. rewrite elem_of_cons. apply NoDup_cons in Hnd as [Hx _].
  split; [|tauto]. intros Hin. split; [by right|]. by intros ->.
Qed.

Lemma unlink_out i : i <> par -> child ∉ kids i.
Proof using Hsplit Hwf. intros Hne Hin. apply Hne. eapply kids_disjoint; [done|done|apply child_in]. Qed.

Lemma unlink_wf : wf (upd_kids kids par (cs1 ++ cs2)) st'.
Proof using All.
  assert (Hcp : child <> par) by (intros E; apply (kids_irrefl kids st par Hwf); rewrite <- E at 1; apply child_in).
  pose proof (kids_pos _ _ _ _ Hwf child_in) as Hpos.
  pose proof (relink_live kids st st' par child pd _ _ Hpar Hpar' Hrest) as Hlive.
  pose proof (relink_back kids st st' par child pd _ _ Hpar Hlen Hpar' Hrest) as Hback.
  constructor.
  - rewrite Hlen. apply (wf_len _ _ Hwf).
  - intros i nd Hn. destruct (decide (i = child)) as [->|Hne].
    + rewrite Hcleared in Hn. injection Hn as <-. apply cleared_ok, (wf_ok _ _ Hwf _ _ Hch).
    + destruct (Hback i nd Hne Hn) as (nd0 & H0 & He). apply (same_entry_ok nd0); [done|].
      apply (wf_ok _ _ Hwf _ _ H0).
  - split; [rewrite Hroot; apply (wf_root _ _ Hwf)|].
    apply (relink_root kids st st' par child pd _ _ Hwf Hpar Hpar' Hrest). lia.
  - intros i nd Hn. unfold upd_kids. destruct (Z.eqb_spec i par) as [->|Hip].
    + destruct Hpar' as (f & H & Hc). rewrite H in Hn. injection Hn as <-. cbn.
      split; [done|]. destruct (wf_kids _ _ Hwf _ _ Hpar) as (_ & -> & Ht).
      pose proof (wf_kids_length kids st par Hwf) as Hl. rewrite Hsplit, length_app in *. cbn in *.
      split; [unfold u8w; rewrite length_app, Z.mod_small; lia|]. intros _. apply Ht. by destruct cs1.
    + destruct (decide (i = child)) as [->|Hic].
      * rewrite Hcleared in Hn. injection Hn as <-. by rewrite Hleaf.
      * apply (relink_kids kids st st' par child pd (cs1 ++ cs2) (u8w (child_count pd - 1)));
          try done. apply unlink_out.
  - intros i. unfold upd_kids. pose proof (wf_nodup _ _ Hwf i) as Hnd.
    destruct (Z.eqb_spec i par) as [->|]; [|done]. rewrite Hsplit, <- Permutation_middle in Hnd.
    by apply NoDup_cons in Hnd as [_ Hnd].
  - intros i c. rewrite elem_upd_kids, rest_in. intros Hin.
    assert (Hic : c ∈ kids i /\ c <> child).
    { destruct Hin as [[-> [? ?]]|[Hne ?]]; split; try done. intros ->. by apply (unlink_out i). }
    destruct Hic as [Hic Hne].
    destruct (wf_child _ _ Hwf _ _ Hic) as ((pd0 & Hp0) & cd0 & Hn & Ht & Hp).
    split; [|rewrite <- Hp; by apply Hlive].
    destruct (wf_kids _ _ Hwf _ _ Hp0) as (_ & _ & Ht0).
    destruct (Hlive i pd0) as (pd0' & H' & _); [|done| |by exists pd0'].
    + intros ->. rewrite Hleaf in Hic. by apply elem_of_nil in Hic.
    + rewrite Ht0; [done|]. intros E. rewrite E in Hic. by apply elem_of_nil in Hic.
  - intros c c' Hn Ht H0. rewrite elem_upd_kids, rest_in.
    destruct (decide (c = child)) as [->|Hne].
    + rewrite Hcleared in Hn. injection Hn as <-. done.
    + destruct (Hback c c' Hne Hn) as (c0 & Hn0 & (_ & _ & E3 & _ & E5 & _)).
      rewrite E3 in Ht. pose proof (wf_up _ _ Hwf _ _ Hn0 Ht H0) as Hin. rewrite E5.
      destruct (decide (parent c0 = par)) as [E|E]; [left|by right].
      split; [done|]. split; [by rewrite <- E|done].
  - destruct (wf_depth _ _ Hwf) as [d Hd]. exists d. intros i c.
    rewrite elem_upd_kids, rest_in. intros [[-> [? ?]]|[? ?]]; by apply Hd.
Qed.
End unlinking.

Lemma remove_walk_in kids st par child pd cd :
  wf kids st -> node st par = Some pd -> node st child = Some cd -> child ∈ kids par ->
  kids child = [] ->
  exists st', remove_walk 17 st par child (-1) (first_child pd) = Ret (true, st') /\
    removed kids st par child st'.
Proof.
  intros Hwf Hp Hc Hin Hleaf. destruct (wf_kids _ _ Hwf _ _ Hp) as (Hch & _ & _).
  pose proof (wf_nodup _ _ Hwf par) as Hnd. pose proof (wf_kids_length kids st par Hwf) as Hl.
  destruct (list_elem_of_split _ _ Hin) as (cs1 & cs2 & Hs).
  pose proof Hnd as Hnd'. rewrite Hs in Hch, Hnd', Hl.
  rewrite (remove_child_walk 17 st par child (-1) _ cs1 cs2); [|done| |].
  - destruct (unlink_spec st par child pd cd cs1 cs2)
      as (st' & Hrun & Hr & Hi & Hlen & Hpar' & Hcl & Hrest); try done.
    { rewrite <- Hs. by apply (kids_irrefl kids st). }
    exists st'. split; [done|]. rewrite <- Hs in Hrest. constructor.
    + done.
    + exists cs1, cs2. split; [done|]. by apply (unlink_wf kids st st' par child pd cd).
    + exists (cleared cd). done.
    + intros j nd Hj Hn.
      destruct (relink_entry kids st st' par child pd _ _ Hp Hpar' Hrest j nd Hj Hn)
        as (nd' & H & He & _). by exists nd'.
    + done.
  - apply NoDup_app in Hnd' as (_ & Hdis & _). intros H. apply (Hdis _ H). by constructor.
  - rewrite length_app in Hl. cbn in Hl. lia.
Qed.

Lemma remove_spec kids st par child :
  wf kids st ->
  match remove 17 st par child with
  | Ret (true, st') => removed kids st par child st'
  | Ret (false, st') => st' = st /\ (child ∉ kids par \/ kids child <> [])
  | _ => False
  end.
Proof.
  intros Hwf. unfold remove. pose proof (wf_len _ _ Hwf) as Hl.
  pose proof (in_files_node st par Hl) as Hip. pose proof (in_files_node st child Hl) as Hic.
  assert (Hout : (node st par = None \/ node st child = None) -> child ∉ kids par).
  { intros Ho Hin. destruct (wf_child _ _ Hwf _ _ Hin) as ((? & ?) & ? & ? & _).
    destruct Ho; congruence. }
  destruct (node st par) as [pd|] eqn:Hp.
  2:{ destruct (in_files par); [by destruct (proj1 Hip eq_refl)|]. cbn. auto. }
  destruct (node st child) as [cd|] eqn:Hc.
  2:{ destruct (in_files child); [by destruct (proj1 Hic eq_refl)|]. cbn.
      rewrite orb_true_r. auto. }
  rewrite (proj2 Hip), (proj2 Hic) by by eexists. cbn [negb orb]. run_binds.
  destruct (wf_kids _ _ Hwf _ _ Hc) as (_ & Hcnt & Hdir).
  assert (Hleaf : ntype cd <> 0 -> (ntype cd =? 2) && (0 <? child_count cd) = false -> kids child = []).
  { intros _ Hb. destruct (kids child) as [|c cs]; [done|]. rewrite Hdir, Hcnt in Hb by done.
    cbn [length Z.eqb andb Pos.eqb] in Hb. apply Z.ltb_ge in Hb. lia. }
  destruct ((ntype cd =? 2) && (0 <? child_count cd)) eqn:Hfull.
  { split; [done|]. right. intros E. rewrite Hcnt, E in Hfull. cbn in Hfull.
    by rewrite andb_false_r in Hfull. }
  destruct (Z.eqb_spec (ntype cd) 0) as [Ht|Ht].
  { split; [done|]. left. apply (free_no_kid kids st); [done|]. by exists cd. }
  destruct (decide (child ∈ kids par)) as [Hin|Hin].
  - destruct (remove_walk_in kids st par child pd cd) as (st' & -> & Hr); auto.
  - rewrite (remove_walk_absent 17 st par child (-1) _ (kids par)); [auto| |done|].
    + apply (wf_kids _ _ Hwf _ _ Hp).
    + pose proof (wf_kids_length kids st par Hwf). lia.
Qed.

(** ** Contents *)
Lemma wf_contents kids st i nd d s :
  wf kids st -> node st i = Some nd -> length d = 4096%nat -> 0 <= s <= FILE_SIZE ->
  wf kids (set_at i (with_contents d s nd) st).
Proof.
  intros Hwf Hn Hd Hs. set (nd' := with_contents d s nd). set (st' := set_at i nd' st).
  assert (Hx : forall j x, node st j = Some x -> exists x', node st' j = Some x' /\
    ntype x' = ntype x /\ parent x' = parent x /\ first_child x' = first_child x /\
    next_sibling x' = next_sibling x /\ child_count x' = child_count x /\ (node_ok x -> node_ok x')).
  { intros j x Hj. unfold st'. rewrite (node_set_at _ _ _ _ _ Hn).
    destruct (Z.eqb_spec j i) as [->|]; [|by exists x].
    rewrite Hn in Hj. injection Hj as <-. exists nd'. split_and!; try done.
    intros []. by constructor. }
  assert (Hback : forall j x', node st' j = Some x' -> exists x, node st j = Some x).
  { intros j x' Hj. apply node_in. apply node_range in Hj. by rewrite <- (length_set_at i nd' st). }
  destruct Hwf as [H1 H2 H3 H4 H5 H6 H7 H8]. constructor; try done.
  - unfold st'. by rewrite length_set_at.
  - intros j x' Hj. destruct (Hback _ _ Hj) as [x Hx0].
    destruct (Hx _ _ Hx0) as (x2 & Hx2 & _ & _ & _ & _ & _ & Hok). rewrite Hj in Hx2.
    injection Hx2 as <-. apply Hok. by eapply H2.
  - destruct H3 as (Hr & rd & Hr0 & Hr1 & Hr2). split; [done|].
    destruct (Hx _ _ Hr0) as (x2 & Hx2 & E1 & E2 & _). exists x2. by rewrite E1, E2.
  - intros j x' Hj. destruct (Hback _ _ Hj) as [x Hx0].
    destruct (Hx _ _ Hx0) as (x2 & Hx2 & E1 & _ & E3 & _ & E5 & _). rewrite Hj in Hx2.
    injection Hx2 as <-. destruct (H4 _ _ Hx0) as (Hc & Hcnt & Ht). rewrite E1, E3, E5.
    split; [|done]. apply (chain_ext st); [|done]. intros c cd _ Hcn.
    destruct (Hx _ _ Hcn) as (cd' & Hc' & _ & _ & _ & E4 & _). by exists cd'.
  - intros j c Hin. destruct (H6 j c Hin) as ((pd & Hp) & cd & Hc & Ht & Hpar). split.
    + destruct (Hx _ _ Hp) as (x2 & Hx2 & _). by exists x2.
    + destruct (Hx _ _ Hc) as (x2 & Hx2 & E1 & E2 & _). exists x2. by rewrite E1, E2.
  - intros c cd Hc Ht H0. destruct (Hback _ _ Hc) as [x Hx0].
    destruct (Hx _ _ Hx0) as (x2 & Hx2 & E1 & E2 & _). rewrite Hc in Hx2. injection Hx2 as <-.
    rewrite E2. apply (H7 c); congruence.
Qed.

(** [write] on every branch, at an offset within the file area. *)
Lemma write_spec kids st idx bytes offset :
  wf kids st -> 0 <= offset <= FILE_SIZE -> Z.of_nat (length bytes) < 2 ^ 31 ->
  write st idx bytes offset =
  match node st idx with
  | Some nd =>
      if ntype nd =? 1 then
        let n := Nat.min (length bytes) (Z.to_nat (FILE_SIZE - offset)) in
        Ret (Z.of_nat n,
             set_at idx (with_contents (put (Z.to_nat offset) (take n bytes) (data nd))
                           (Z.max (size nd) (offset + Z.of_nat n)) nd) st)
      else Ret (-1, st)
  | None => Ret (-1, st)
  end.
Proof.
  intros Hwf Ho Hb. unfold write. unfold FILE_SIZE in *.
  pose proof (in_files_node st idx (wf_len _ _ Hwf)) as Hin.
  destruct (node st idx) as [nd|] eqn:Hn.
  2:{ destruct (in_files idx); [by destruct (proj1 Hin eq_refl)|done]. }
  rewrite (proj2 Hin) by by exists nd. run_binds.
  destruct (Z.eqb_spec (ntype nd) 1) as [Ht|Ht]; run_binds; [|done].
  destruct (wf_ok _ _ Hwf _ _ Hn) as [_ _ _ Hs Hd]. unfold FILE_SIZE in Hs.
  set (n := Nat.min _ _).
  assert (Hw : Z.min (Z.of_nat (length bytes)) (u64w (4096 - offset)) = Z.of_nat n).
  { unfold u64w. rewrite Z.mod_small by lia. lia. }
  rewrite Hw, Nat2Z.id. unfold slice. rewrite decide_True by lia. run_binds.
  unfold u32w, i32w. rewrite !Z.mod_small by lia. f_equal. f_equal; [lia|].
  do 2 f_equal.
  - rewrite put_split by (rewrite length_take; lia). rewrite length_take. do 3 f_equal. lia.
  - destruct (Z.ltb_spec (size nd) (offset + Z.of_nat n)); lia.
Qed.

(** [read] on every branch. *)
Lemma read_spec kids st idx buf offset :
  wf kids st -> 0 <= offset -> 
  read st idx buf offset =
  match node st idx with
  | Some nd =>
      if ntype nd =? 0 then Ret (-1, buf)
      else let n := Nat.min (length buf) (Z.to_nat (size nd - offset)) in
           Ret (Z.of_nat n, take n (drop (Z.to_nat offset) (data nd)) ++ drop n buf)
  | None => Ret (-1, buf)
  end.
Proof.
  intros Hwf Ho. unfold read. pose proof (in_files_node st idx (wf_len _ _ Hwf)) as Hin.
  destruct (node st idx) as [nd|] eqn:Hn.
  2:{ destruct (in_files idx); [by destruct (proj1 Hin eq_refl)|done]. }
  rewrite (proj2 Hin) by by exists nd. run_binds.
  destruct (Z.eqb_spec (ntype nd) 0) as [Ht|Ht]; run_binds; [done|].
  destruct (wf_ok _ _ Hwf _ _ Hn) as [_ _ _ Hs Hd]. unfold FILE_SIZE in Hs.
  destruct (Z.leb_spec (size nd) offset).
  - replace (Z.to_nat (size nd - offset)) with 0%nat by lia. by rewrite Nat.min_0_r.
  - set (n := Nat.min _ _).
    assert (Hw : Z.min (Z.of_nat (length buf)) (size nd - offset) = Z.of_nat n) by lia.
    rewrite Hw. unfold slice. rewrite decide_True by lia. run_binds.
    unfold i32w. rewrite !Z.mod_small by lia. rewrite Nat2Z.id.
    replace (Z.to_nat (offset + Z.of_nat n) - Z.to_nat offset)%nat with n by lia.
    do 2 f_equal. lia.
Qed.

(** ** Paths *)
Lemma split_slash_ne p : exists w ws, split_slash p = w :: ws.
Proof.
  induction p as [|b p (w & ws & IH)]; cbn; [by do 2 eexists|].
  destruct (b =? 47); [by do 2 eexists|]. rewrite IH. by do 2 eexists.
Qed.

Lemma components_slash p : components (47 :: p) = components p.
Proof. done. Qed.

Lemma components_clean p : components (clean p) = components p.
Proof.
  destruct p as [|b p]; [done|]. cbn [clean]. by destruct (Z.eqb_spec b 47) as [->|].
Qed.

Lemma split_slash_app d b :
  47 ∉ b -> split_slash (d ++ 47 :: b) = split_slash d ++ [b].
Proof.
  intros Hb. induction d as [|x d IH]; cbn.
  - induction b as [|y b IHb]; [done|]. apply not_elem_of_cons in Hb as [Hy Hb].
    specialize (IHb Hb). cbn in IHb |- *. injection IHb as IHb. destruct (Z.eqb_spec y 47); [by subst|].
    by rewrite IHb.
  - cbn in IH. rewrite IH. destruct (x =? 47); [done|].
    destruct (split_slash_ne d) as (w & ws & ->). done.
Qed.

Lemma components_app d b :
  47 ∉ b -> components (d ++ 47 :: b) = components d ++ (if decide (b = []) then [] else [b]).
Proof.
  intros Hb. unfold components. rewrite split_slash_app by done. rewrite filter_app. f_equal.
  cbn. by destruct b.
Qed.

Lemma components_single b : 47 ∉ b -> b <> [] -> components b = [b].
Proof.
  intros Hb Hne. pose proof (components_app [] b Hb) as H. cbn [app] in H.
  rewrite components_slash, decide_False in H by done. exact H.
Qed.

Lemma rfind_slash_None p : rfind_slash p = None <-> 47 ∉ p.
Proof.
  induction p as [|b p IH]; cbn; [split; [intros _; apply not_elem_of_nil|done]|].
  rewrite not_elem_of_cons.
  destruct (rfind_slash p) as [n|]; [split; [done|intros [_ Hp]; by apply IH in Hp]|].
  destruct (Z.eqb_spec b 47) as [->|]; [split; [done|by intros []]|].
  split; [|done]. intros _. split; [congruence|by apply IH].
Qed.

Lemma rfind_slash_Some p i :
  rfind_slash p = Some i -> p = take i p ++ 47 :: drop (S i) p /\ 47 ∉ drop (S i) p.
Proof.
  revert i. induction p as [|b p IH]; intros i; cbn; [done|].
  destruct (rfind_slash p) as [j|] eqn:Hr.
  - intros [= <-]. destruct (IH j eq_refl) as [H1 H2]. cbn. split; [|done]. by f_equal.
  - destruct (Z.eqb_spec b 47) as [->|]; [|done]. intros [= <-]. cbn. rewrite drop_0.
    split; [done|]. by apply rfind_slash_None.
Qed.

(** [resolve] follows the names of the path, whatever slashes separate them. *)
Lemma resolve_follow kids st path :
  wf kids st -> resolve 17 st path = Ret (follow kids st 0 (components path)).
Proof.
  intros Hwf. destruct (wf_root _ _ Hwf) as (Hr & rd & Hr0 & _).
  unfold resolve. rewrite Hr. destruct (decide (clean path = [])) as [E|E].
  - rewrite bool_decide_true by done. rewrite <- components_clean, E. done.
  - rewrite bool_decide_false by done. cbn [Z.ltb Z.compare].
    rewrite components_clean. apply resolve_from_spec; [done|by exists rd].
Qed.

(** ** Creation along a path *)
Lemma same_entry_label nd nd' : same_entry nd nd' -> label nd' = label nd.
Proof. intros (E1 & E2 & _). unfold label. by rewrite E1, E2. Qed.

Lemma created_fresh kids st par nm t k st' :
  wf kids st -> fresh st -> NEXT_IDX st < 16 -> created kids st par nm t k st' -> fresh st'.
Proof.
  intros Hwf [H0 Hf] Hlt [(old & Hold & _) Hwf' _ Hfr [Hnx Hk]]. specialize (Hk Hlt). subst k.
  split; [lia|]. rewrite Hnx. intros i nd Hi Hn.
  destruct (node_in st i) as [nd0 Hn0].
  { apply node_range in Hn. rewrite (wf_len _ _ Hwf') in Hn. rewrite (wf_len _ _ Hwf). lia. }
  destruct (Hfr i nd0) as (nd' & H & (_ & _ & E & _)); [lia|done|].
  rewrite Hn in H. injection H as <-. rewrite E. apply (Hf i); [lia|done].
Qed.

Lemma named_frame kids st par nm t k st' x c :
  created kids st par nm t k st' -> c <> k -> (exists nd, node st c = Some nd) ->
  named st' x c = named st x c.
Proof.
  intros Hc Hne [nd Hn]. destruct (cr_frame _ _ _ _ _ _ _ Hc c nd Hne Hn) as (nd' & H & He).
  unfold named. by rewrite Hn, H, (same_entry_label _ _ He).
Qed.

Lemma pick_frame kids st par nm t k st' x i :
  wf kids st -> created kids st par nm t k st' -> pick st' x (kids i) = pick st x (kids i).
Proof.
  intros Hwf Hc. assert (Hall : forall c, c ∈ kids i -> named st' x c = named st x c).
  { intros c Hin. eapply named_frame; [done| |].
    - intros ->. by apply (free_no_kid kids st k i Hwf (cr_free _ _ _ _ _ _ _ Hc)).
    - destruct (wf_child _ _ Hwf _ _ Hin) as (_ & cd & Hn & _). by exists cd. }
  induction (kids i) as [|c cs IH]; [done|]. cbn.
  rewrite Hall by by constructor. rewrite IH; [done|]. intros c' Hin. apply Hall. by constructor.
Qed.

Lemma pick_app st x cs c : pick st x (cs ++ [c]) =
  match pick st x cs with Some y => Some y | None => if named st x c then Some c else None end.
Proof. induction cs as [|c' cs IH]; cbn; [done|]. by destruct (named st x c'). Qed.

(** Old paths lead where they led, and the new one to the new node. *)
Lemma follow_created kids st par nm t k st' i path j :
  wf kids st -> created kids st par nm t k st' ->
  follow kids st i path = Some j -> follow (upd_kids kids par (kids par ++ [k])) st' i path = Some j.
Proof.
  intros Hwf Hc. revert i. induction path as [|x path IH]; intros i; [done|]. cbn.
  destruct (pick st x (kids i)) as [c|] eqn:Hp; [|done]. intros Hf.
  assert (Hp' : pick st' x (upd_kids kids par (kids par ++ [k]) i) = Some c).
  { unfold upd_kids. destruct (Z.eqb_spec i par) as [->|].
    - by rewrite pick_app, (pick_frame kids st par nm t k), Hp.
    - by rewrite (pick_frame kids st par nm t k). }
  rewrite Hp'. by apply IH.
Qed.

Lemma follow_app kids st i p q :
  follow kids st i (p ++ q) = follow kids st i p ≫= fun j => follow kids st j q.
Proof.
  revert i. induction p as [|x p IH]; intros i; [done|]. cbn.
  destruct (pick st x (kids i)); [apply IH|done].
Qed.

Lemma follow_new kids st par nm t k st' path :
  wf kids st -> created kids st par nm t k st' -> pick st nm (kids par) = None ->
  (length nm <= 63)%nat -> follow kids st 0 path = Some par ->
  follow (upd_kids kids par (kids par ++ [k])) st' 0 (path ++ [nm]) = Some k.
Proof.
  intros Hwf Hc Hp Hl Hf. rewrite follow_app.
  rewrite (follow_created kids st par nm t k st' 0 path par) by done. cbn.
  unfold upd_kids at 1. rewrite Z.eqb_refl, pick_app, (pick_frame kids st par nm t k), Hp by done.
  destruct (cr_node _ _ _ _ _ _ _ Hc) as (nd & Hn & Hlab & _).
  unfold named. rewrite Hn, Hlab, take_ge by lia. by rewrite bool_decide_true.
Qed.

(** The directory and the last name of a path, as [create_file_path] takes
    them apart. *)
Definition split_path (path : list Z) : list (list Z) * list Z :=
  match rfind_slash (clean path) with
  | Some i => (components (take i (clean path)), drop (S i) (clean path))
  | None => ([], clean path)
  end.

(** A further leading slash changes nothing. *)
Lemma split_path_clean path : split_path (clean path) = split_path path.
Proof.
  unfold split_path. destruct (clean path) as [|b x]; [done|]. cbn [clean rfind_slash].
  destruct (Z.eqb_spec b 47) as [->|];
    [|cbn [rfind_slash]; by destruct (Z.eqb_spec b 47)].
  destruct (rfind_slash x) as [i|]; cbn [take drop]; [by rewrite components_slash|].
  by rewrite drop_0.
Qed.

Lemma split_path_components path :
  snd (split_path path) <> [] ->
  components path = fst (split_path path) ++ [snd (split_path path)].
Proof.
  unfold split_path. rewrite <- (components_clean path).
  destruct (rfind_slash (clean path)) as [i|] eqn:Hr; cbn; intros Hne.
  - apply rfind_slash_Some in Hr as [Heq Hn]. rewrite Heq at 1. rewrite components_app by done.
    by rewrite decide_False.
  - apply components_single; [by apply rfind_slash_None|done].
Qed.

Lemma create_file_path_spec kids st path :
  wf kids st -> clean path <> [] ->
  create_file_path 17 st path =
  match follow kids st 0 (fst (split_path path)) with
  | Some par => create_file 17 st par (snd (split_path path))
  | None => Ret (None, st)
  end.
Proof.
  intros Hwf Hne. unfold create_file_path, split_path. rewrite bool_decide_false by done.
  destruct (rfind_slash (clean path)) as [i|]; cbn [fst snd].
  - rewrite (resolve_follow kids) by done. run_binds. by destruct (follow _ _ _ _).
  - destruct (wf_root _ _ Hwf) as (Hr & _). by rewrite Hr.
Qed.

(** ** Runs of operations *)
Inductive op :=
| OpFile (par : Z) (nm : list Z)
| OpDir (par : Z) (nm : list Z)
| OpRemove (par child : Z)
| OpWrite (idx : Z) (bytes : list Z) (offset : Z)
| OpMkdir (path : list Z)
| OpCreate (path : list Z).

Definition run_op (st : Ram) (o : op) : exec Ram :=
  match o with
  | OpFile par nm => r ← create_file 17 st par nm; Ret (snd r)
  | OpDir par nm => r ← create_dir 17 st par nm; Ret (snd r)
  | OpRemove par child => r ← remove 17 st par child; Ret (snd r)
  | OpWrite idx bytes offset => r ← write st idx bytes offset; Ret (snd r)
  | OpMkdir path => r ← mkdir_path 17 st path; Ret (snd r)
  | OpCreate path => r ← create_file_path 17 st path; Ret (snd r)
  end.

Fixpoint run_ops (st : Ram) (os : list op) : exec Ram :=
  match os with [] => Ret st | o :: os => st1 ← run_op st o; run_ops st1 os end.

(** How many entries an operation creates at most. *)
Definition cost (o : op) : Z :=
  match o with
  | OpFile _ _ | OpDir _ _ | OpCreate _ => 1
  | OpRemove _ _ | OpWrite _ _ _ => 0
  | OpMkdir path => Z.of_nat (length (components path))
  end.

Definition costs (os : list op) : Z := foldr (fun o n => cost o + n) 0 os.

Definition op_ok (o : op) : Prop :=
  match o with
  | OpWrite _ bytes offset => 0 <= offset <= FILE_SIZE /\ Z.of_nat (length bytes) < 2 ^ 31
  | _ => True
  end.

Definition tree_ok (st : Ram) : Prop := (exists kids, wf kids st) /\ fresh st.

(** One step keeps the tree and uses up at most [n] fresh entries. *)
Definition good_step (n : Z) (st st' : Ram) : Prop :=
  tree_ok st' /\ NEXT_IDX st' <= NEXT_IDX st + n.

Lemma create_good st t par nm :
  tree_ok st -> NEXT_IDX st < 16 ->
  exists r st', create 17 st t par nm = Ret (r, st') /\ good_step 1 st st' /\
    (forall k, r = Some k -> exists nd, node st' k = Some nd).
Proof.
  intros [[kids Hwf] Hf] Hlt. pose proof (create_spec kids st t par nm Hwf Hf) as Hc.
  destruct (create 17 st t par nm) as [[[k|] st']| |]; [|..|destruct Hc|destruct Hc].
  - destruct Hc as (_ & _ & Hc). exists (Some k), st'. split; [done|].
    pose proof (created_fresh _ _ _ _ _ _ _ Hwf Hf Hlt Hc) as Hf'.
    destruct Hc as [_ Hwf' (nd & Hn & _) _ [Hnx Hk]]. specialize (Hk Hlt).
    split; [split; [by split; [eexists|]|lia]|]. intros k' [= <-]. by exists nd.
  - destruct Hc as [-> _]. exists None, st. split; [done|].
    split; [split; [by split; [exists kids|]|lia]|done].
Qed.

Lemma remove_good st par child :
  tree_ok st -> exists r st', remove 17 st par child = Ret (r, st') /\ good_step 0 st st'.
Proof.
  intros [[kids Hwf] [H0 Hf]]. pose proof (remove_spec kids st par child Hwf) as Hr.
  destruct (remove 17 st par child) as [[[] st']| |]; [| |destruct Hr..].
  - exists true, st'. split; [done|].
    destruct Hr as [_ (cs1 & cs2 & _ & Hwf') (nd & Hn & Ht) Hfr Hnx].
    split; [|lia]. split; [by eexists|]. split; [lia|]. rewrite Hnx. intros i nd' Hi Hn'.
    destruct (decide (i = child)) as [->|Hne]; [congruence|].
    destruct (node_in st i) as [nd0 Hn0].
    { apply node_range in Hn'. rewrite (wf_len _ _ Hwf') in Hn'. rewrite (wf_len _ _ Hwf). lia. }
    destruct (Hfr i nd0 Hne Hn0) as (nd2 & H2 & (_ & _ & E & _)).
    rewrite Hn' in H2. injection H2 as <-. rewrite E. by apply (Hf i).
  - destruct Hr as [-> _]. exists false, st. split; [done|].
    split; [|lia]. split; [by exists kids|done].
Qed.

Lemma write_good st idx bytes offset :
  tree_ok st -> 0 <= offset <= FILE_SIZE -> Z.of_nat (length bytes) < 2 ^ 31 ->
  exists r st', write st idx bytes offset = Ret (r, st') /\ good_step 0 st st'.
Proof.
  intros [[kids Hwf] [H0 Hf]] Ho Hb. rewrite (write_spec kids) by done.
  assert (Hsame : good_step 0 st st) by (split; [split; [by exists kids|done]|lia]).
  destruct (node st idx) as [nd|] eqn:Hn; [|by do 2 eexists].
  destruct (Z.eqb_spec (ntype nd) 1) as [Ht|Ht]; [|by do 2 eexists].
  do 2 eexists. split; [done|]. destruct (wf_ok _ _ Hwf _ _ Hn) as [_ _ _ Hs Hd].
  unfold FILE_SIZE in *. split; [|cbn; lia]. split.
  - exists kids. apply wf_contents; [done|done|by rewrite length_put|]. unfold FILE_SIZE. lia.
  - split; [done|]. intros i nd' Hi. rewrite (node_set_at _ _ _ _ _ Hn).
    destruct (Z.eqb_spec i idx) as [->|]; [|by apply Hf]. intros [= <-]. exact (Hf idx nd Hi Hn).
Qed.

Lemma mkdir_from_good st i cs :
  tree_ok st -> (exists nd, node st i = Some nd) -> NEXT_IDX st + Z.of_nat (length cs) <= 16 ->
  exists r st', mkdir_from 17 st i cs = Ret (r, st') /\
    good_step (Z.of_nat (length cs)) st st'.
Proof.
  revert st i. induction cs as [|c cs IH]; intros st i Hok [nd Hn] Hroom; cbn [mkdir_from].
  { exists 0, st. split; [done|]. split; [done|]. cbn. lia. }
  cbn [length] in *. rewrite Hn. run_binds. pose proof Hok as [[kids Hwf] Hf].
  rewrite (search_kids kids st i nd) by done. run_binds.
  assert (Hsame : forall n, 0 <= n -> good_step n st st) by (intros; split; [done|lia]).
  destruct (pick st c (kids i)) as [k|] eqn:Hp.
  - destruct (pick_Some _ _ _ _ Hp) as (Hin & kd & Hk & _).
    pose proof (kids_pos _ _ _ _ Hwf Hin). change (default (-1) (Some k)) with k.
    destruct (Z.leb_spec 0 k); [|lia].
    destruct cs as [|c' cs]; [do 2 eexists; split; [done|apply Hsame; lia]|].
    rewrite Hk. run_binds. destruct (Z.eqb_spec (ntype kd) 2); run_binds;
      [|do 2 eexists; split; [done|apply Hsame; lia]].
    destruct (IH st k Hok) as (r & st' & Hrun & Ht & Hnx); [by exists kd|lia|].
    exists r, st'. split; [done|]. split; [done|]. lia.
  - change (default (-1) None) with (-1). cbn [Z.leb Z.compare].
    destruct (create_good st Directory i c) as (r & st1 & Hrun & (Hok1 & Hn1) & Hnode); [done|lia|].
    cbn [create] in Hrun. rewrite Hrun. run_binds. destruct r as [k|].
    + destruct (IH st1 k Hok1 (Hnode k eq_refl)) as (r & st' & Hrun' & Ht & Hnx); [lia|].
      exists r, st'. split; [done|]. split; [done|]. lia.
    + do 2 eexists. split; [done|]. split; [done|]. lia.
Qed.

Lemma run_op_good st o :
  tree_ok st -> op_ok o -> NEXT_IDX st + cost o <= 16 ->
  exists st', run_op st o = Ret st' /\ good_step (cost o) st st'.
Proof.
  intros Hok Ho Hroom. destruct o; cbn [run_op cost op_ok] in *.
  - destruct (create_good st File par nm) as (r & st' & Hr & Hg & _); [done|lia|].
    cbn [create] in Hr. rewrite Hr. by exists st'.
  - destruct (create_good st Directory par nm) as (r & st' & Hr & Hg & _); [done|lia|].
    cbn [create] in Hr. rewrite Hr. by exists st'.
  - destruct (remove_good st par child) as (r & st' & Hr & Hg); [done|].
    rewrite Hr. by exists st'.
  - destruct (write_good st idx bytes offset) as (r & st' & Hr & Hg); [done|tauto..|].
    rewrite Hr. by exists st'.
  - unfold mkdir_path. pose proof Hok as [[kids Hwf] _].
    destruct (wf_root _ _ Hwf) as (Hr & rd & Hrd & _). rewrite Hr. cbn [Z.ltb Z.compare].
    rewrite components_clean. destruct (bool_decide _).
    + exists st. split; [done|]. split; [done|]. lia.
    + destruct (mkdir_from_good st 0 (components path) Hok) as (r & st' & -> & Hg);
        [by exists rd|done|]. by exists st'.
  - assert (Hsame : good_step 1 st st) by (split; [done|lia]). pose proof Hok as [[kids Hwf] _].
    destruct (decide (clean path = [])) as [E|E].
    { exists st. split; [|done]. unfold create_file_path. by rewrite bool_decide_true. }
    rewrite (create_file_path_spec kids) by done.
    destruct (follow kids st 0 _) as [par|]; [|by exists st].
    destruct (create_good st File par (snd (split_path path))) as (r & st' & Hr & Hg & _);
      [done|lia|]. cbn [create] in Hr. rewrite Hr. by exists st'.
Qed.

Lemma run_ops_good st os :
  tree_ok st -> Forall op_ok os -> NEXT_IDX st + costs os <= 16 ->
  exists st', run_ops st os = Ret st' /\ good_step (costs os) st st'.
Proof.
  intros Hok Ho. revert st Hok. induction Ho as [|o os Ho Hos IH]; intros st Hok Hroom.
  { exists st. split; [done|]. split; [done|]. cbn. lia. }
  change (costs (o :: os)) with (cost o + costs os) in *. cbn [run_ops].
  assert (Hnn : 0 <= costs os).
  { clear. induction os as [|o os IH]; [done|].
    change (costs (o :: os)) with (cost o + costs os). destruct o; cbn [cost]; lia. }
  destruct (run_op_good st o Hok Ho) as (st1 & -> & Hok1 & Hn1); [lia|]. run_binds.
  destruct (IH st1 Hok1) as (st2 & -> & Hok2 & Hn2); [lia|].
  exists st2. split; [done|]. split; [done|]. lia.
Qed.

(** ** Listing a directory *)
Definition labels (st : Ram) (cs : list Z) : list (list Z) :=
  omap (fun c => label <$> node st c) cs.

(** The names separated by line feeds. *)
Definition join_names (names : list (list Z)) : list Z :=
  match names with
  | [] => []
  | nm :: names => nm ++ concat (map (fun n => 10 :: n) names)
  end.

Lemma list_name_take nd k :
  node_ok nd ->
  slice (name nd) 0 (Nat.min (Z.to_nat (name_len nd)) k) = Some (take k (label nd)).
Proof.
  intros [Hn Hl _ _ _]. unfold slice, label. rewrite decide_True by lia.
  rewrite drop_0, Nat.sub_0_r, take_take. do 2 f_equal. lia.
Qed.

Lemma list_names_rest fuel kids st cap out cur cs :
  wf kids st -> chain st cur cs -> (length cs < fuel)%nat -> (length out <= cap)%nat ->
  list_names fuel st cap false out cur =
  Ret (take cap (out ++ concat (map (fun n => 10 :: n) (labels st cs)))).
Proof.
  intros Hwf. revert fuel out cur. induction cs as [|c cs IH]; cbn [chain];
    intros [|fuel] out cur Hc Hf Ho; cbn [length] in Hf; try lia; cbn [list_names].
  - apply Z.ltb_lt in Hc. rewrite Hc. cbn. by rewrite app_nil_r, take_ge by lia.
  - destruct Hc as (-> & nd & Hn & Hc). pose proof (node_range _ _ _ Hn).
    destruct (Z.ltb_spec c 0); [lia|]. cbn [negb andb].
    destruct (Nat.leb_spec cap (length out)); [by rewrite take_app_le, take_ge by lia|].
    rewrite Hn. run_binds. rewrite list_name_take by apply (wf_ok _ _ Hwf _ _ Hn). run_binds.
    rewrite IH; [|done|lia|rewrite !length_app, length_take; cbn; lia].
    unfold labels. cbn [omap list_omap]. rewrite Hn. cbn [fmap option_fmap option_map map concat].
    f_equal. change (omap _ cs) with (labels st cs). rewrite <- !app_assoc. cbn [app].
    set (rest := concat _). rewrite !take_app. f_equal. cbn [length].
    destruct (cap - length out)%nat as [|n] eqn:Hcap; [lia|]. rewrite !firstn_cons. f_equal.
    rewrite !take_app, take_take. replace (cap - length (out ++ [10%Z]))%nat with n
      by (rewrite length_app; cbn; lia).
    rewrite Nat.min_id. f_equal. f_equal. rewrite length_take. lia.
Qed.

Lemma readdir_spec kids st par buf :
  wf kids st -> Z.of_nat (length buf) < 2 ^ 31 ->
  readdir_names 17 st par buf =
  match node st par with
  | Some pd =>
      if ntype pd =? 2 then
        let out := take (length buf) (join_names (labels st (kids par))) in
        Ret (Z.of_nat (length out), out ++ drop (length out) buf)
      else Ret (-1, buf)
  | None => Ret (-1, buf)
  end.
Proof.
  intros Hwf Hb. unfold readdir_names.
  pose proof (in_files_node st par (wf_len _ _ Hwf)) as Hin.
  destruct (node st par) as [pd|] eqn:Hp.
  2:{ destruct (in_files par); [by destruct (proj1 Hin eq_refl)|done]. }
  rewrite (proj2 Hin) by by exists pd. run_binds.
  destruct (ntype pd =? 2); run_binds; [|done].
  destruct (wf_kids _ _ Hwf _ _ Hp) as (Hc & _ & _).
  pose proof (wf_kids_length kids st par Hwf) as Hl.
  assert (Hout : forall fuel, (16 <= fuel)%nat ->
    list_names (S fuel) st (length buf) true [] (first_child pd) =
    Ret (take (length buf) (join_names (labels st (kids par))))).
  { intros fuel Hfuel. destruct (kids par) as [|c cs]; cbn [chain] in Hc.
    - apply Z.ltb_lt in Hc. cbn. by rewrite Hc, take_nil.
    - destruct Hc as (-> & nd & Hn & Hc). pose proof (node_range _ _ _ Hn).
      cbn [list_names]. destruct (Z.ltb_spec c 0); [lia|]. cbn [negb andb].
      rewrite Hn. run_binds. cbn [length]. rewrite Nat.sub_0_r.
      rewrite list_name_take by apply (wf_ok _ _ Hwf _ _ Hn). run_binds. cbn [app].
      cbn [length] in Hl.
      rewrite (list_names_rest fuel kids st _ _ _ cs); [|done..|lia|rewrite length_take; lia].
      f_equal. unfold labels. cbn [omap list_omap]. rewrite Hn.
      cbn [fmap option_fmap option_map join_names]. change (list_omap _ _ _ cs) with (labels st cs).
      rewrite !take_app, take_take, Nat.min_id. f_equal. f_equal. rewrite length_take. lia. }
  rewrite (Hout 16%nat) by lia. run_binds. rewrite length_take. f_equal. f_equal.
  unfold i32w. rewrite Z.mod_small; lia.
Qed.

(** ** The state after [init] *)
Lemma boot_tree_ok : exists st, init ram_static = Ret st /\ NEXT_IDX st = 1 /\ tree_ok st.
Proof.
  unfold init. change (node ram_static 0) with (Some empty_node). run_binds.
  set (rd := mkNode _ 1 2 _ _ _ _ _ _). eexists. split; [done|]. split; [done|].
  set (st := mkRam _ 0 1).
  assert (Hnode : forall i nd, node st i = Some nd -> (i = 0 /\ nd = rd) \/ nd = empty_node).
  { intros i nd Hn. unfold st in Hn. unfold node in Hn. cbn [nodes] in Hn.
    destruct (decide (i = 0)) as [->|Hne].
    - left. split; [done|]. rewrite (at_set_z_eq _ _ _ empty_node) in Hn by done. congruence.
    - right. rewrite at_set_z_ne in Hn by (congruence || lia).
      apply at_z_Some in Hn as [_ Hn]. cbn [nodes ram_static] in Hn.
      by apply lookup_replicate in Hn as [-> _]. }
  assert (Hok : node_ok empty_node /\ node_ok rd).
  { split; constructor; cbn [name name_len ntype size data empty_node rd]; unfold FILE_SIZE;
      rewrite ?length_set_z; unfold zeros; rewrite ?length_replicate; unfold MAX_NAME, FILE_SIZE; lia. }
  split; [exists (fun _ => [])|].
  - constructor.
    + unfold st. cbn [nodes]. rewrite length_set_z. apply length_replicate.
    + intros i nd [[_ ->]| ->]%Hnode; apply Hok.
    + split; [done|]. by exists rd.
    + intros i nd [[_ ->]| ->]%Hnode; by split_and!.
    + intros i. apply NoDup_nil_2.
    + intros i c Hin. by apply elem_of_nil in Hin.
    + intros c cd [[-> ->]| ->]%Hnode; done.
    + exists (fun _ => 0%nat). intros i c Hin. by apply elem_of_nil in Hin.
  - split; [done|]. intros i nd Hi [[-> _]| ->]%Hnode; [|done]. cbn in Hi. lia.
Qed.

(** ** Reuse of an entry in use

    After the table has been full once, [alloc_idx] hands out the entry after
    the last one it reused without looking whether it is in use. *)
Lemma search_self_loop fuel st k nd x :
  node st k = Some nd -> next_sibling nd = k -> node_ok nd -> label nd <> x ->
  search fuel st k x = Running.
Proof.
  intros Hn Hs Hok Hx. induction fuel as [|fuel IH]; [done|]. cbn [search].
  pose proof (node_range _ _ _ Hn). destruct (Z.ltb_spec k 0); [lia|].
  rewrite Hn. run_binds. rewrite name_is_spec by done. run_binds.
  by rewrite bool_decide_false, Hs.
Qed.

Lemma search_into_loop fuel kids st st' cur pre k post nd x :
  wf kids st -> chain st cur (pre ++ k :: post) ->
  (forall c cd, c ∈ pre -> node st c = Some cd -> node st' c = Some cd /\ label cd <> x) ->
  node st' k = Some nd -> next_sibling nd = k -> node_ok nd -> label nd <> x ->
  search fuel st' cur x = Running.
Proof.
  intros Hwf Hc Hpre Hn Hs Hok Hx. revert fuel cur Hc.
  induction pre as [|c pre IH]; intros fuel cur; cbn [app chain].
  - intros (-> & _). by apply (search_self_loop _ _ _ nd).
  - intros (-> & cd & Hcd & Hc). destruct fuel as [|fuel]; [done|]. cbn [search].
    destruct (Hpre c cd) as [Hc' Hl]; [by constructor|done|].
    pose proof (node_range _ _ _ Hcd). destruct (Z.ltb_spec c 0); [lia|].
    rewrite Hc'. run_binds. rewrite name_is_spec by apply (wf_ok _ _ Hwf _ _ Hcd). run_binds.
    rewrite bool_decide_false by done. apply IH; [|done].
    intros c' cd' Hin. apply Hpre. by constructor.
Qed.

(** The effect of linking an entry that is already among the children. *)
Lemma relink_live_child kids st par k pd kd nk pre post :
  wf kids st -> node st par = Some pd -> node st k = Some kd -> kids par = pre ++ k :: post ->
  next_sibling nk = -1 ->
  exists st', link_child 17 (set_at k nk st) par k = Ret st' /\
    node st' k = Some (with_next_sibling k nk) /\
    (forall j, j <> k -> j <> par -> node st' j = node st j) /\
    node st' par = Some (with_child_count (u8w (child_count pd + 1)) pd).
Proof.
  intros Hwf Hp Hk Hkids Hnk. destruct (wf_kids _ _ Hwf _ _ Hp) as (Hc & _ & _).
  pose proof (kids_irrefl kids st par Hwf) as Hirr. pose proof (wf_nodup _ _ Hwf par) as Hnd.
  pose proof (wf_kids_length kids st par Hwf) as Hlen. rewrite Hkids in *.
  rewrite elem_of_app, elem_of_cons in Hirr. apply NoDup_app in Hnd as (_ & Hdis & _).
  assert (Hkpre : k ∉ pre) by (intros H; apply (Hdis _ H); by constructor).
  set (st2 := set_at k nk st).
  assert (Hk2 : node st2 k = Some nk) by apply (node_set_eq _ _ _ _ Hk).
  assert (Hj2 : forall j, j <> k -> node st2 j = node st j).
  { intros j Hj. by apply (node_set_ne _ _ _ _ _ Hk). }
  assert (Hc2 : chain st2 (first_child pd) (pre ++ [k])).
  { apply (chain_ext (set_at k (with_next_sibling (-1) kd) st)).
    - intros c nd _. rewrite (node_set_at _ _ _ _ _ Hk).
      destruct (Z.eqb_spec c k) as [->|Hne]; [intros [= <-]; by exists nk|].
      intros Hn. exists nd. by rewrite Hj2.
    - apply (chain_splice st _ pre k post []); [done|done|apply not_elem_of_nil|done|done]. }
  unfold link_child. rewrite Hj2 by (intros <-; tauto). rewrite Hp. run_binds.
  assert (Hpos : (first_child pd <? 0) = false).
  { apply Z.ltb_ge. destruct pre; cbn in Hc; destruct Hc as (-> & nd & Hr%node_range & _); lia. }
  rewrite Hpos, (last_sibling_spec 17 st2 _ pre k) by
    (done || (rewrite length_app in Hlen; cbn in Hlen; lia)). run_binds. rewrite Hk2. run_binds.
  assert (Hkp : par <> k) by (intros <-; tauto).
  assert (H1 : node (set_at k (with_next_sibling k nk) st2) par = Some pd)
    by by rewrite (node_set_ne _ _ _ _ _ Hk2), Hj2.
  rewrite H1. run_binds. eexists. split; [done|]. split_and!.
  - rewrite (node_set_ne _ _ _ _ _ H1) by done. apply (node_set_eq _ _ _ _ Hk2).
  - intros j Hj Hjp. rewrite (node_set_ne _ _ _ _ _ H1), (node_set_ne _ _ _ _ _ Hk2) by done.
    by apply Hj2.
  - apply (node_set_eq _ _ _ _ H1).
Qed.

(** ** Theorems *)

(** A write that starts behind the end of the array of a file panics. *)
Lemma write_behind_end kids st idx nd bytes offset :
  wf kids st -> node st idx = Some nd -> ntype nd = 1 -> FILE_SIZE < offset -> write st idx bytes offset = Panics.
Proof.
  intros Hwf Hn Ht Ho. pose proof (node_range _ _ _ Hn) as Hr. destruct (wf_ok _ _ Hwf _ _ Hn) as [_ _ _ _ Hd].
  assert (Hin : in_files idx = true) by (pose proof (wf_len _ _ Hwf); unfold in_files, MAX_FILES; lia).
  unfold write. rewrite Hin. cbn [negb]. rewrite Hn. run_binds. rewrite Ht. cbn [negb Z.eqb Pos.eqb].
  unfold slice. rewrite decide_False; [done|]. unfold FILE_SIZE in Ho. lia.
Qed.

(** C25. From any well-formed tree, any sequence of creations (by node or by
    path), removals and writes that asks for no more entries than are left
    before the first slot reuse, and whose writes start inside a file or at
    its end (offset 0 to 4096) with fewer than 2^31 bytes, returns, every loop
    within seventeen steps, no index out of range, and leaves a well-formed
    tree: sibling lists are finite, without repetition and agree with the
    parent links and the child counts, every entry in use hangs below the
    root, and all lengths fit.  A write that starts further on panics
    ([write_behind_end]); the reads and writes of the service keep the offset
    of an open file inside. *)
Theorem tree_stays_wellformed st os :
  tree_ok st -> Forall op_ok os -> NEXT_IDX st + costs os <= MAX_FILES ->
  exists st', run_ops st os = Ret st' /\ tree_ok st' /\ NEXT_IDX st' <= MAX_FILES.
Proof.
  intros Hok Hos Hroom. unfold MAX_FILES in *.
  destruct (run_ops_good st os Hok Hos Hroom) as (st' & Hrun & Hok' & Hn).
  exists st'. split; [exact Hrun|]. split; [exact Hok'|]. lia.
Qed.

Lemma tree_stays_wellformed_witness :
  exists st st', init ram_static = Ret st /\
    run_ops st [OpMkdir [47; 100; 101; 118]; OpCreate [47; 100; 101; 118; 47; 97];
                OpWrite 2 [1; 2; 3] 0; OpRemove 1 2; OpFile 0 [98]] = Ret st' /\
    tree_ok st' /\ NEXT_IDX st' <= MAX_FILES.
Proof.
  destruct boot_tree_ok as (st & Hi & Hn & Hok).
  destruct (tree_stays_wellformed st
    [OpMkdir [47; 100; 101; 118]; OpCreate [47; 100; 101; 118; 47; 97];
     OpWrite 2 [1; 2; 3] 0; OpRemove 1 2; OpFile 0 [98]] Hok) as (st' & H).
  - repeat constructor; cbn; unfold FILE_SIZE; lia.
  - rewrite Hn. vm_compute. discriminate.
  - exists st, st'. split; [exact Hi|exact H].
Defined.

(** C26. In a well-formed tree every walk ends within seventeen steps, and with
    the right answer: a path resolves to the node that its names lead to
    whatever slashes separate them, a name to the first child that has it,
    and a listing is the children's names separated by line feeds, cut at the
    end of the buffer. *)
Theorem walks_terminate kids st path par nm buf :
  wf kids st -> Z.of_nat (length buf) < 2 ^ 31 ->
  resolve 17 st path = Ret (follow kids st 0 (components path)) /\
  find_child 17 st par nm =
    Ret (match node st par with Some _ => pick st nm (kids par) | None => None end) /\
  readdir_names 17 st par buf =
    match node st par with
    | Some pd =>
        if ntype pd =? 2 then
          let out := take (length buf) (join_names (labels st (kids par))) in
          Ret (Z.of_nat (length out), out ++ drop (length out) buf)
        else Ret (-1, buf)
    | None => Ret (-1, buf)
    end.
Proof.
  intros Hwf Hb. split; [|split].
  - by apply resolve_follow.
  - by apply find_child_spec.
  - by apply readdir_spec.
Qed.

Lemma walks_terminate_witness :
  exists kids st, init ram_static = Ret st /\
    resolve 17 st [47; 47] = Ret (follow kids st 0 (components [47; 47])).
Proof.
  destruct boot_tree_ok as (st & Hi & _ & (kids & Hwf) & _). exists kids, st.
  split; [exact Hi|]. apply (walks_terminate kids st [47; 47] 0 [] [] Hwf). cbn. lia.
Defined.

(** [alloc_idx] does not check that [NEXT_IDX] is free.  Once it points at
    an entry in use (the table was full, an entry was removed and reused), the
    next creation beside that entry overwrites it, links it to itself, and
    from then on the search for any name the directory does not have never
    ends, at any fuel. *)
Theorem slot_reuse_hangs kids st par nm k kd :
  wf kids st -> NEXT_IDX st = k -> node st k = Some kd -> ntype kd <> 0 -> k ∈ kids par ->
  pick st nm (kids par) = None ->
  exists st', create_file 17 st par nm = Ret (Some k, st') /\
    (exists nd, node st' k = Some nd /\ label nd = take 63 nm /\ next_sibling nd = k) /\
    (forall x, pick st x (kids par) = None -> x <> take 63 nm ->
       forall fuel, find_child fuel st' par x = Running).
Proof.
  intros Hwf Hidx Hk Ht Hin Hfree.
  destruct (wf_child _ _ Hwf _ _ Hin) as ((pd & Hp) & _).
  destruct (wf_kids _ _ Hwf _ _ Hp) as (Hc & _ & Hdir).
  destruct (list_elem_of_split _ _ Hin) as (pre & post & Hs).
  pose proof (kids_pos _ _ _ _ Hwf Hin) as Hkr.
  pose proof (proj2 (in_files_node st par (wf_len _ _ Hwf)) (ex_intro _ pd Hp)) as Hif.
  set (st1 := mkRam (nodes st) (ROOT st) (k + 1)).
  assert (Hwf1 : wf kids st1) by by apply (wf_nodes _ st).
  destruct (relink_live_child kids st1 par k pd kd (new_node nm File par kd) pre post)
    as (st' & Hrun & Hk' & Hj & Hp'); [done..|]. exists st'.
  assert (Hcreate : create_file 17 st par nm = Ret (Some k, st')).
  { unfold create_file. rewrite Hif. run_binds. rewrite Hp. run_binds.
    rewrite Hdir by (intros E; by rewrite E in Hs; destruct pre). run_binds.
    rewrite (find_child_spec kids), Hp by done. cbn [Z.eqb Pos.eqb negb]. run_binds.
    rewrite Hfree, bool_decide_false by by intros [? ?].
    unfold set_node, alloc_idx, MAX_FILES. rewrite Hidx.
    destruct (Z.leb_spec 0 k); [|lia]. destruct (Z.ltb_spec k 16); [|lia]. cbn [andb].
    fold st1. change (node st1 k) with (node st k). rewrite Hk. run_binds.
    pose proof (node_range _ _ _ Hp). destruct (Z.leb_spec 0 par); [|lia]. by rewrite Hrun. }
  split; [exact Hcreate|]. split.
  { eexists. split; [exact Hk'|]. split; [apply new_node_label|done]. }
  intros x Hx Hxn fuel. unfold find_child. rewrite Hif, Hp'. run_binds. cbn [first_child with_child_count].
  rewrite (search_into_loop fuel kids st st' _ pre k post (with_next_sibling k (new_node nm File par kd)));
    try done.
  - by rewrite <- Hs.
  - intros c cd Hcin Hcn. rewrite pick_None in Hx. split.
    + rewrite Hj; [done| |].
      * intros ->. pose proof (wf_nodup _ _ Hwf par) as Hnd. rewrite Hs in Hnd.
        apply NoDup_app in Hnd as (_ & Hdis & _). apply (Hdis _ Hcin). by constructor.
      * intros ->. apply (kids_irrefl kids st par Hwf). rewrite Hs, elem_of_app. by left.
    + apply (Hx c); [|done]. rewrite Hs, elem_of_app. by left.
  - assert (Hok : node_ok (new_node nm File par kd)) by apply new_node_ok, (wf_ok _ _ Hwf _ _ Hk).
    by destruct Hok; constructor.
  - change (label (new_node nm File par kd) <> x). rewrite new_node_label. congruence.
Qed.

(** Fifteen files in the root, the third removed and its entry reused. *)
Definition reuse_demo : exec Ram :=
  st0 ← init ram_static;
  st1 ← run_ops st0 (map (fun i => OpFile 0 [i])
          [97; 98; 99; 100; 101; 102; 103; 104; 105; 106; 107; 108; 109; 110; 111]);
  st2 ← run_op st1 (OpRemove 0 3);
  run_op st2 (OpFile 0 [112]).

Lemma reuse_demo_facts st :
  reuse_demo = Ret st ->
  NEXT_IDX st = 4 /\ find_child 17 st 0 [113] = Ret None /\ find_child 17 st 0 [120] = Ret None /\
  exists kd, node st 4 = Some kd /\ ntype kd = 1 /\ parent kd = 0.
Proof.
  assert (H : match reuse_demo with
    | Ret st => bool_decide (NEXT_IDX st = 4 /\ find_child 17 st 0 [113] = Ret None /\
        find_child 17 st 0 [120] = Ret None /\
        (fun nd => (ntype nd, parent nd)) <$> node st 4 = Some (1, 0))
    | _ => false end = true) by (vm_compute; reflexivity).
  intros E. rewrite E in H. clear E. apply bool_decide_eq_true in H as (H1 & H2 & H3 & H4).
  apply fmap_Some in H4 as (kd & Hkd & [= Ht Hp]).
  split; [exact H1|]. split; [exact H2|]. split; [exact H3|]. exists kd.
  split; [exact Hkd|]. split; symmetry; assumption.
Qed.

Lemma reuse_demo_wf : exists kids st, reuse_demo = Ret st /\ wf kids st.
Proof.
  destruct boot_tree_ok as (st0 & Hi & Hn & Hok). unfold reuse_demo. rewrite Hi. run_binds.
  destruct (run_ops_good st0 (map (fun i => OpFile 0 [i])
    [97; 98; 99; 100; 101; 102; 103; 104; 105; 106; 107; 108; 109; 110; 111]))
    as (st1 & -> & Hok1 & _); [done|by repeat constructor|rewrite Hn; vm_compute; done|].
  run_binds. destruct (remove_good st1 0 3 Hok1) as (r & st2 & Hr & Hok2 & _).
  cbn [run_op]. rewrite Hr. run_binds. cbn [snd]. destruct Hok2 as [[kids Hwf] Hf].
  pose proof (create_spec kids st2 File 0 [112] Hwf Hf) as Hc. cbn [create] in Hc.
  destruct (create_file 17 st2 0 [112]) as [[[k|] st]| |]; [| |destruct Hc..]; run_binds.
  - destruct Hc as (_ & _ & Hc). do 2 eexists. split; [done|]. apply (cr_wf _ _ _ _ _ _ _ Hc).
  - destruct Hc as [-> _]. by exists kids, st2.
Qed.

Lemma slot_reuse_hangs_witness :
  exists st st', reuse_demo = Ret st /\ create_file 17 st 0 [113] = Ret (Some 4, st') /\
    forall fuel, find_child fuel st' 0 [120] = Running.
Proof.
  destruct reuse_demo_wf as (kids & st & Hrun & Hwf).
  destruct (reuse_demo_facts st Hrun) as (Hn & H1 & H2 & kd & Hkd & Ht & Hp).
  assert (Hin : 4 ∈ kids 0).
  { rewrite <- Hp. apply (wf_up _ _ Hwf 4 kd Hkd); [rewrite Ht|]; discriminate. }
  destruct (wf_child _ _ Hwf _ _ Hin) as ((rd & Hrd) & _).
  rewrite (find_child_spec kids), Hrd in H1, H2 by exact Hwf.
  injection H1 as H1. injection H2 as H2.
  destruct (slot_reuse_hangs kids st 0 [113] 4 kd Hwf Hn Hkd) as (st' & Hc & _ & Hloop);
    [rewrite Ht; discriminate|exact Hin|exact H1|].
  exists st, st'. split; [exact Hrun|]. split; [exact Hc|].
  apply (Hloop [120] H2). discriminate.
Defined.
