(* ===== verification/FileAgent.v ===== *)
(** * FileAgent: the file service

    userspace/services/fileagent/src: protocol.rs (command codes), vfs.rs
    (sessions, open files and the operations on them) and main.rs (decoding
    of commands, replies, and the service loop).  The tree of files is
    RamFs.v.  Replies are the byte strings passed to [channel_write]. *)
From Stdlib Require Import ZArith Lia.
From stdpp Require Import base tactics option list list_numbers.
From S2P Require Import Prelude Shared Bytes RamFs.
Local Open Scope Z_scope.

(** ** protocol.rs *)
Definition VFS_OPEN : Z := 1.
Definition VFS_CLOSE : Z := 2.
Definition VFS_READ : Z := 3.
Definition VFS_WRITE : Z := 5.
Definition VFS_MKDIR : Z := 6.
Definition VFS_RMDIR : Z := 7.
Definition VFS_UNLINK : Z := 8.
Definition VFS_READDIR : Z := 9.
Definition VFS_STAT : Z := 10.

(** ** State of vfs.rs *)
Definition MAX_SESSIONS : Z := 8.
Definition MAX_FDS : Z := 16.

Record OpenFile := mkOpenFile { node_idx : Z; offset : Z }.
Record Session := mkSession { server_chan : Z; fds : list (option OpenFile) }.
Record Agent := mkAgent { ram : Ram; SESSIONS : list (option Session) }.

Definition tty_fd : Z := 100.

Definition new_session (chan : Z) : Session :=
  mkSession chan (replicate (Z.to_nat MAX_FDS) None).

Definition set_ram (r : Ram) (ag : Agent) : Agent := mkAgent r (SESSIONS ag).
Definition set_session (i : Z) (s : option Session) (ag : Agent) : Agent :=
  mkAgent (ram ag) (set_z i s (SESSIONS ag)).
Definition set_fd (fd : Z) (o : option OpenFile) (s : Session) : Session :=
  mkSession (server_chan s) (set_z fd o (fds s)).

(** ["dev/tty"]. *)
Definition DEV_TTY : list Z := [100; 101; 118; 47; 116; 116; 121].

Definition do_open (fuel : nat) (ag : Agent) (session_idx : Z) (path : list Z) (flags : Z) :
    exec (Z * Agent) :=
  slot ← or_panic (at_z (SESSIONS ag) session_idx);
  match slot with
  | None => Ret (-1, ag)
  | Some sess =>
      if bool_decide (path = DEV_TTY) || bool_decide (path = 47 :: DEV_TTY) then Ret (tty_fd, ag)
      else
        let c := clean path in
        n ← resolve fuel (ram ag) c;
        r ← (match n with
             | None =>
                 if negb (Z.land flags 64 =? 0) then create_file_path fuel (ram ag) c
                 else Ret (None, ram ag)
             | Some _ => Ret (n, ram ag)
             end);
        let ag1 := set_ram (snd r) ag in
        match fst r with
        | Some idx =>
            match first_free (fds sess) with
            | Some fd =>
                let fd := Z.of_nat fd in
                Ret (fd, set_session session_idx (Some (set_fd fd (Some (mkOpenFile idx 0)) sess)) ag1)
            | None => Ret (status_i32 NoMemory, ag1)
            end
        | None => Ret (status_i32 NotFound, ag1)
        end
  end.

Definition do_close (ag : Agent) (session_idx fd : Z) : exec (Z * Agent) :=
  if fd =? tty_fd then Ret (0, ag)
  else
    slot ← or_panic (at_z (SESSIONS ag) session_idx);
    match slot with
    | None => Ret (-1, ag)
    | Some sess =>
        if fd <? MAX_FDS then Ret (0, set_session session_idx (Some (set_fd fd None sess)) ag)
        else Ret (-1, ag)
    end.

(** [of_mut.offset += result as u32] after a positive result. *)
Definition advance (ag : Agent) (session_idx fd : Z) (sess : Session) (f : OpenFile) (result : Z) :
    Agent :=
  if 0 <? result then
    set_session session_idx
      (Some (set_fd fd (Some (mkOpenFile (node_idx f) (u32w (offset f + u32w result)))) sess)) ag
  else ag.

Definition do_read (ag : Agent) (session_idx fd : Z) (buf : list Z) :
    exec (Z * list Z * Agent) :=
  if fd =? tty_fd then Ret (0, buf, ag)
  else
    slot ← or_panic (at_z (SESSIONS ag) session_idx);
    match slot with
    | None => Ret (-1, buf, ag)
    | Some sess =>
        slot_fd ← or_panic (at_z (fds sess) fd);
        match slot_fd with
        | None => Ret (-1, buf, ag)
        | Some f =>
            r ← read (ram ag) (node_idx f) buf (offset f);
            Ret (fst r, snd r, advance ag session_idx fd sess f (fst r))
        end
    end.

Definition do_write (ag : Agent) (session_idx fd : Z) (bytes : list Z) : exec (Z * Agent) :=
  if fd =? tty_fd then Ret (i32w (Z.of_nat (length bytes)), ag)
  else
    slot ← or_panic (at_z (SESSIONS ag) session_idx);
    match slot with
    | None => Ret (-1, ag)
    | Some sess =>
        slot_fd ← or_panic (at_z (fds sess) fd);
        match slot_fd with
        | None => Ret (-1, ag)
        | Some f =>
            r ← write (ram ag) (node_idx f) bytes (offset f);
            Ret (fst r, advance (set_ram (snd r) ag) session_idx fd sess f (fst r))
        end
    end.

Definition do_mkdir (fuel : nat) (ag : Agent) (path : list Z) : exec (Z * Agent) :=
  r ← mkdir_path fuel (ram ag) path; Ret (fst r, set_ram (snd r) ag).

Definition do_rmdir (fuel : nat) (ag : Agent) (path : list Z) : exec (Z * Agent) :=
  child ← resolve fuel (ram ag) path;
  match child with
  | Some idx =>
      par ← parent_of (ram ag) idx;
      if par <? 0 then Ret (status_i32 InvalidArgs, ag)
      else r ← remove fuel (ram ag) par idx;
           Ret (if fst r : bool then 0 else status_i32 NotEmpty, set_ram (snd r) ag)
  | None => Ret (status_i32 NotFound, ag)
  end.

Definition do_unlink (fuel : nat) (ag : Agent) (path : list Z) : exec (Z * Agent) :=
  child ← resolve fuel (ram ag) path;
  match child with
  | Some idx =>
      par ← parent_of (ram ag) idx;
      if par <? 0 then Ret (status_i32 InvalidArgs, ag)
      else r ← remove fuel (ram ag) par idx;
           Ret (if fst r : bool then 0 else -1, set_ram (snd r) ag)
  | None => Ret (status_i32 NotFound, ag)
  end.

Definition do_readdir (fuel : nat) (ag : Agent) (session_idx fd : Z) (buf : list Z) :
    exec (Z * list Z * Agent) :=
  slot ← or_panic (at_z (SESSIONS ag) session_idx);
  match slot with
  | None => Ret (-1, buf, ag)
  | Some sess =>
      slot_fd ← or_panic (at_z (fds sess) fd);
      match slot_fd with
      | None => Ret (-1, buf, ag)
      | Some f =>
          r ← readdir_names fuel (ram ag) (node_idx f) buf;
          Ret (fst r, snd r, advance ag session_idx fd sess f (fst r))
      end
  end.

Definition do_stat (fuel : nat) (ag : Agent) (path : list Z) : exec (Z * Z) :=
  n ← resolve fuel (ram ag) (clean path);
  match n with
  | Some idx =>
      size ← stat_size (ram ag) idx;
      t ← stat_type (ram ag) idx;
      Ret (size, match t with Some File => 1 | Some Directory => 2 | None => 0 end)
  | None => Ret (-1, 0)
  end.

(** ** main.rs: decoding a command *)

Definition cmd_path (buf : list Z) : list Z :=
  if (length buf <=? 20)%nat then []
  else let p := until_nul (drop 20 buf) in if utf8_valid p then p else [].

Definition cmd_arg32_1 (buf : list Z) : Z := if (length buf <? 8)%nat then 0 else rd buf 4 4.
Definition cmd_arg32_2 (buf : list Z) : Z := if (length buf <? 12)%nat then 0 else rd buf 8 4.
Definition cmd_arg64 (buf : list Z) : Z := if (length buf <? 20)%nat then 0 else rd buf 12 8.

(** [(val as i64).to_le_bytes()]. *)
Definition write_response (val : Z) : list Z := le 8 val.

Definition write_response_data (val : Z) (bytes : list Z) : list Z :=
  le 8 val ++ take (Nat.min (length bytes) 128) bytes.

(** The data of a VFS_WRITE command. *)
Definition write_data (buf : list Z) : exec (list Z) :=
  let len := Z.to_nat (cmd_arg32_2 buf) in
  if (20 <? length buf)%nat && (0 <? len)%nat then or_panic (slice buf 20 (20 + len))
  else if (20 <? length buf)%nat then Ret (drop 20 buf)
  else Ret [].

(** The reply of VFS_READ and VFS_READDIR. *)
Definition data_reply (result : Z) (bytes : list Z) : list Z :=
  if 0 <=? result then write_response_data result (take (Z.to_nat result) bytes)
  else write_response result.

(** The [match cmd]: the new state and the reply, if any. *)
Definition dispatch (fuel : nat) (ag : Agent) (session_idx : Z) (cmd : Z) (buf : list Z) :
    exec (Agent * option (list Z)) :=
  if cmd =? VFS_OPEN then
    r ← do_open fuel ag session_idx (cmd_path buf) (cmd_arg32_1 buf);
    Ret (snd r, Some (write_response (fst r)))
  else if cmd =? VFS_CLOSE then
    r ← do_close ag session_idx (cmd_arg32_1 buf);
    Ret (snd r, Some (write_response (fst r)))
  else if cmd =? VFS_READ then
    r ← do_read ag session_idx (cmd_arg32_1 buf) (zeros 1024);
    Ret (snd r, Some (data_reply (fst (fst r)) (snd (fst r))))
  else if cmd =? VFS_WRITE then
    bytes ← write_data buf;
    r ← do_write ag session_idx (cmd_arg32_1 buf) bytes;
    Ret (snd r, Some (write_response (fst r)))
  else if cmd =? VFS_MKDIR then
    r ← do_mkdir fuel ag (cmd_path buf);
    Ret (snd r, Some (write_response (fst r)))
  else if cmd =? VFS_RMDIR then
    r ← do_rmdir fuel ag (cmd_path buf);
    Ret (snd r, Some (write_response (fst r)))
  else if cmd =? VFS_UNLINK then
    r ← do_unlink fuel ag (cmd_path buf);
    Ret (snd r, Some (write_response (fst r)))
  else if cmd =? VFS_READDIR then
    r ← do_readdir fuel ag session_idx (cmd_arg32_1 buf) (zeros 1024);
    Ret (snd r, Some (data_reply (fst (fst r)) (snd (fst r))))
  else if cmd =? VFS_STAT then
    r ← do_stat fuel ag (cmd_path buf);
    Ret (ag, Some (le 8 (fst r) ++ le 8 (snd r)))
  else Ret (ag, Some (write_response (to_raw InvalidArgs))).

Definition handle_cmd (fuel : nat) (ag : Agent) (session_idx : Z) (buf : list Z) :
    exec (Agent * option (list Z)) :=
  match buf with
  | [] => Ret (ag, None)
  | cmd :: _ => dispatch fuel ag session_idx cmd buf
  end.

(** ** main.rs: the service loop

    [active] is the session being driven: its slot and its channel.  Every
    successful [channel_read] fills both entries of the handle buffer, with 0
    for a handle that did not come. *)
Record Server := mkServer { agent : Agent; active : option (Z * Z) }.

(** What the blocking [channel_read] of the loop returns: on the server's
    channel while no session is active, on the session's otherwise. *)
Inductive event :=
| EvMessage (bytes : list Z) (handle : Z)
| EvError.

Inductive output :=
| OutReply (chan : Z) (bytes : list Z)
| OutClose (chan : Z).

Definition boot (fuel : nat) : exec (option Server) :=
  st ← init ram_static;
  r ← mkdir_path fuel st [47; 100; 101; 118];
  if fst r <? 0 then Ret None
  else Ret (Some (mkServer (mkAgent (snd r) (replicate (Z.to_nat MAX_SESSIONS) None)) None)).

(** A connection. *)
Definition accept (sv : Server) (h : Z) : Server * list output :=
  if h =? 0 then (sv, [])
  else match first_free (SESSIONS (agent sv)) with
       | Some i =>
           let i := Z.of_nat i in
           (mkServer (set_session i (Some (new_session h)) (agent sv)) (Some (i, h)), [])
       | None => (sv, [OutClose h])
       end.

Definition serve (fuel : nat) (sv : Server) (ev : event) : exec (Server * list output) :=
  match active sv with
  | None =>
      match ev with
      | EvError => Ret (sv, [])
      | EvMessage _ h => Ret (accept sv h)
      end
  | Some (idx, chan) =>
      match ev with
      | EvMessage bytes _ =>
          if (length bytes =? 0)%nat then Ret (sv, [])
          else r ← handle_cmd fuel (agent sv) idx bytes;
               Ret (mkServer (fst r) (Some (idx, chan)),
                    match snd r with Some reply => [OutReply chan reply] | None => [] end)
      | EvError =>
          Ret (mkServer (set_session idx None (agent sv)) None, [OutClose chan])
      end
  end.

(** ** Well-formed service states *)
Definition session_ok (s : Session) : Prop :=
  length (fds s) = 16%nat /\
  forall fd f, at_z (fds s) fd = Some (Some f) -> 0 <= offset f <= FILE_SIZE.

Record agent_ok (ag : Agent) : Prop := {
  ag_tree : tree_ok (ram ag);
  ag_len : length (SESSIONS ag) = 8%nat;
  ag_sessions : forall i s, at_z (SESSIONS ag) i = Some (Some s) -> session_ok s }.

(** The commands that index the table of open files out of range, or slice
    their buffer past its end. *)
Definition bad_fd (buf : list Z) : bool :=
  let cmd := hd 0 buf in
  let fd := cmd_arg32_1 buf in
  (MAX_FDS <=? fd) &&
  ((cmd =? VFS_READDIR) || (((cmd =? VFS_READ) || (cmd =? VFS_WRITE)) && negb (fd =? tty_fd))).

Definition bad_len (buf : list Z) : bool :=
  (hd 0 buf =? VFS_WRITE) && (20 <? length buf)%nat &&
  (length buf <? 20 + Z.to_nat (cmd_arg32_2 buf))%nat.

Lemma rd_nonneg bs o n : Forall is_byte bs -> 0 <= rd bs o n.
Proof. intros H. apply unle_range. by apply Forall_take, Forall_drop. Qed.

Lemma cmd_arg32_1_nonneg buf : Forall is_byte buf -> 0 <= cmd_arg32_1 buf.
Proof. intros H. unfold cmd_arg32_1. case_match; [done|]. by apply rd_nonneg. Qed.

Lemma open_file_in ag i s :
  agent_ok ag -> at_z (SESSIONS ag) i = Some (Some s) -> forall fd, 0 <= fd ->
  at_z (fds s) fd = None <-> MAX_FDS <= fd.
Proof.
  intros Hok Hs fd Hfd. destruct (ag_sessions _ Hok _ _ Hs) as [Hl _]. unfold at_z, MAX_FDS.
  destruct (Z.leb_spec 0 fd); [|lia]. rewrite lookup_ge_None. lia.
Qed.

Definition returns {A} (r : exec A) : Prop := exists a, r = Ret a.

Lemma returns_bind {A B} (r : exec A) (f : A -> exec B) :
  returns r -> (forall a, r = Ret a -> returns (f a)) -> returns (r ≫= f).
Proof. intros [a ->] H. by apply H. Qed.

Lemma run_op_returns {A} (r : exec (A * Ram)) st' :
  (x ← r; Ret (snd x)) = Ret st' -> exists a, r = Ret (a, st').
Proof. intros H. apply exec_bind_Ret in H as ([a s] & -> & [= <-]). by exists a. Qed.

Section returning.
Context (ag : Agent) (i : Z) (sess : Session) (buf : list Z).
Hypothesis Hok : agent_ok ag.
Hypothesis Hsess : at_z (SESSIONS ag) i = Some (Some sess).

Lemma do_open_returns path flags :
  NEXT_IDX (ram ag) < 16 -> returns (do_open 17 ag i path flags).
Proof using Hok Hsess.
  intros Hroom. unfold do_open. rewrite Hsess. run_binds.
  destruct (bool_decide _ || bool_decide _); [by eexists|].
  pose proof (ag_tree _ Hok) as [[kids Hwf] Hf]. rewrite (resolve_follow kids) by done. run_binds.
  assert (Hr : forall r : option Z * Ram, returns (
    let ag1 := set_ram (snd r) ag in
    match fst r with
    | Some idx =>
        match first_free (fds sess) with
        | Some fd =>
            let fd := Z.of_nat fd in
            Ret (fd, set_session i (Some (set_fd fd (Some (mkOpenFile idx 0)) sess)) ag1)
        | None => Ret (status_i32 NoMemory, ag1)
        end
    | None => Ret (status_i32 NotFound, ag1)
    end)).
  { intros [[idx|] st]; cbn; [|by eexists]. destruct (first_free (fds sess)); by eexists. }
  destruct (follow _ _ _ _); [apply Hr|]. destruct (negb _); [|apply Hr].
  destruct (run_op_good (ram ag) (OpCreate (clean path))) as (st' & Hrun & _);
    [by split; [exists kids|]|done|cbn; lia|].
  apply run_op_returns in Hrun as [r ->]. apply Hr.
Qed.

Lemma do_close_returns fd : 0 <= fd -> returns (do_close ag i fd).
Proof using Hsess.
  intros Hfd. unfold do_close. destruct (fd =? tty_fd); [by eexists|]. rewrite Hsess. run_binds.
  destruct (fd <? MAX_FDS); by eexists.
Qed.

Lemma do_read_outcome fd b :
  0 <= fd -> Z.of_nat (length b) < 2 ^ 31 ->
  if (MAX_FDS <=? fd) && negb (fd =? tty_fd) then do_read ag i fd b = Panics
  else returns (do_read ag i fd b).
Proof using Hok Hsess.
  intros Hfd Hb. unfold do_read. rewrite Hsess. run_binds.
  destruct (fd =? tty_fd); [rewrite andb_false_r; by eexists|]. rewrite andb_true_r.
  pose proof (open_file_in ag i sess Hok Hsess fd Hfd) as Hslot.
  destruct (Z.leb_spec MAX_FDS fd) as [Hle|Hlt]; [by rewrite (proj2 Hslot Hle)|].
  destruct (at_z (fds sess) fd) as [[f|]|] eqn:Hat; run_binds; [|by eexists|].
  - pose proof (ag_tree _ Hok) as [[kids Hwf] _].
    destruct (proj2 (ag_sessions _ Hok _ _ Hsess) _ _ Hat) as [Ho _].
    rewrite (read_spec kids) by done.
    destruct (node _ _) as [nd|]; [|by eexists]. destruct (ntype nd =? 0); by eexists.
  - pose proof (proj1 Hslot eq_refl). lia.
Qed.

Lemma do_write_outcome fd b :
  0 <= fd -> Z.of_nat (length b) < 2 ^ 31 ->
  if (MAX_FDS <=? fd) && negb (fd =? tty_fd) then do_write ag i fd b = Panics
  else returns (do_write ag i fd b).
Proof using Hok Hsess.
  intros Hfd Hb. unfold do_write. rewrite Hsess. run_binds.
  destruct (fd =? tty_fd); [rewrite andb_false_r; by eexists|]. rewrite andb_true_r.
  pose proof (open_file_in ag i sess Hok Hsess fd Hfd) as Hslot.
  destruct (Z.leb_spec MAX_FDS fd) as [Hle|Hlt]; [by rewrite (proj2 Hslot Hle)|].
  destruct (at_z (fds sess) fd) as [[f|]|] eqn:Hat; run_binds; [|by eexists|].
  - pose proof (ag_tree _ Hok) as Ht.
    destruct (write_good (ram ag) (node_idx f) b (offset f)) as (r & st' & -> & _);
      [done|by apply (proj2 (ag_sessions _ Hok _ _ Hsess) fd)|done|]. by eexists.
  - pose proof (proj1 Hslot eq_refl). lia.
Qed.

Lemma do_readdir_outcome fd b :
  0 <= fd -> Z.of_nat (length b) < 2 ^ 31 ->
  if MAX_FDS <=? fd then do_readdir 17 ag i fd b = Panics else returns (do_readdir 17 ag i fd b).
Proof using Hok Hsess.
  intros Hfd Hb. unfold do_readdir. rewrite Hsess. run_binds.
  pose proof (open_file_in ag i sess Hok Hsess fd Hfd) as Hslot.
  destruct (Z.leb_spec MAX_FDS fd) as [Hle|Hlt]; [by rewrite (proj2 Hslot Hle)|].
  destruct (at_z (fds sess) fd) as [[f|]|] eqn:Hat; run_binds; [|by eexists|].
  - pose proof (ag_tree _ Hok) as [[kids Hwf] _]. rewrite (readdir_spec kids) by done.
    destruct (node _ _) as [nd|]; [|by eexists]. destruct (ntype nd =? 2); by eexists.
  - pose proof (proj1 Hslot eq_refl). lia.
Qed.

Lemma do_mkdir_returns path :
  NEXT_IDX (ram ag) + Z.of_nat (length (components path)) <= 16 -> returns (do_mkdir 17 ag path).
Proof using Hok.
  intros Hroom. unfold do_mkdir.
  destruct (run_op_good (ram ag) (OpMkdir path) (ag_tree _ Hok) I Hroom) as (st' & Hrun & _).
  apply run_op_returns in Hrun as [r ->]. by eexists.
Qed.

(** The removal part of [do_rmdir] and [do_unlink]. *)
Lemma removal_returns path bad :
  returns (child ← resolve 17 (ram ag) path;
    match child with
    | Some idx =>
        par ← parent_of (ram ag) idx;
        if par <? 0 then Ret (status_i32 InvalidArgs, ag)
        else r ← remove 17 (ram ag) par idx;
             Ret (if fst r : bool then 0 else bad, set_ram (snd r) ag)
    | None => Ret (status_i32 NotFound, ag)
    end).
Proof using Hok.
  pose proof (ag_tree _ Hok) as Ht. pose proof Ht as [[kids Hwf] _].
  rewrite (resolve_follow kids) by done. run_binds. destruct (follow _ _ _ _) as [idx|]; [|by eexists].
  assert (Hp : returns (parent_of (ram ag) idx)).
  { unfold parent_of. pose proof (in_files_node (ram ag) idx (wf_len _ _ Hwf)) as Hin.
    destruct (in_files idx); [|by eexists]. destruct (proj1 Hin eq_refl) as [nd ->]. by eexists. }
  destruct Hp as [par ->]. run_binds. destruct (par <? 0); [by eexists|].
  destruct (remove_good (ram ag) par idx Ht) as (r & st' & -> & _). by eexists.
Qed.

Lemma do_stat_returns path : returns (do_stat 17 ag path).
Proof using Hok.
  pose proof (ag_tree _ Hok) as [[kids Hwf] _]. unfold do_stat.
  rewrite (resolve_follow kids) by done. run_binds. destruct (follow _ _ _ _) as [idx|]; [|by eexists].
  unfold stat_size, stat_type. pose proof (in_files_node (ram ag) idx (wf_len _ _ Hwf)) as Hin.
  destruct (in_files idx); [|by eexists]. destruct (proj1 Hin eq_refl) as [nd ->]. by eexists.
Qed.

Lemma write_data_outcome :
  Z.of_nat (length buf) < 2 ^ 31 ->
  if (20 <? length buf)%nat && (length buf <? 20 + Z.to_nat (cmd_arg32_2 buf))%nat
  then write_data buf = Panics
  else exists b, write_data buf = Ret b /\ Z.of_nat (length b) < 2 ^ 31.
Proof.
  intros Hb. unfold write_data. set (len := Z.to_nat (cmd_arg32_2 buf)).
  destruct (Nat.ltb_spec 20 (length buf)); cbn [andb]; [|by exists []].
  destruct (Nat.ltb_spec (length buf) (20 + len)) as [Hbad|Hgood].
  - destruct (Nat.ltb_spec 0 len); [|lia]. unfold slice. by rewrite decide_False by lia.
  - destruct (Nat.ltb_spec 0 len).
    + unfold slice. rewrite decide_True by lia. eexists. split; [done|].
      rewrite length_take, length_drop. lia.
    + exists (drop 20 buf). split; [done|]. rewrite length_drop. lia.
Qed.
End returning.

(** *** The state after booting, and a first connection *)
Lemma boot_facts : exists sv, boot 17 = Ret (Some sv) /\
  agent_ok (agent sv) /\ SESSIONS (agent sv) = replicate 8 None /\ NEXT_IDX (ram (agent sv)) = 2 /\
  active sv = None.
Proof.
  assert (H : match boot 17 with
    | Ret (Some sv) => NEXT_IDX (ram (agent sv)) =? 2 | _ => false end = true)
    by (vm_compute; reflexivity).
  unfold boot in *. destruct boot_tree_ok as (st & Hi & Hn & Hok).
  rewrite Hi in H |- *. cbn [mbind exec_bind] in H |- *.
  destruct (run_op_good st (OpMkdir [47; 100; 101; 118]) Hok I) as (st' & Hrun & Hok' & _);
    [rewrite Hn; vm_compute; discriminate|].
  apply run_op_returns in Hrun as [r Hrun]. rewrite Hrun in H |- *.
  cbn [mbind exec_bind fst snd] in H |- *. destruct (r <? 0); [discriminate H|]. apply Z.eqb_eq in H.
  eexists. split; [reflexivity|]. split; [|split; [reflexivity|split; [exact H|reflexivity]]].
  constructor; [exact Hok'|reflexivity|].
  intros i s Hs. apply at_z_Some in Hs as [_ Hs]. cbn [SESSIONS agent] in Hs.
  apply lookup_replicate in Hs as [[=] _].
Qed.

Lemma new_session_ok h : session_ok (new_session h).
Proof.
  split; [reflexivity|]. intros fd f Hf. apply at_z_Some in Hf as [_ Hf]. cbn [fds new_session] in Hf.
  by apply lookup_replicate in Hf as [[=] _].
Qed.

Lemma set_session_ok ag i s s' :
  agent_ok ag -> at_z (SESSIONS ag) i = Some s' -> (forall x, s = Some x -> session_ok x) ->
  agent_ok (set_session i s ag).
Proof.
  intros [Ht Hl Hs] Hi Hnew. constructor; [done|by cbn; rewrite length_set_z|].
  intros j x Hj. cbn in Hj. rewrite (at_set_z _ _ _ _ _ Hi) in Hj.
  destruct (j =? i); [|by eapply Hs]. injection Hj as ->. by apply Hnew.
Qed.

Lemma accept_ok sv h :
  agent_ok (agent sv) -> SESSIONS (agent sv) = replicate 8 None -> h <> 0 ->
  agent_ok (agent (fst (accept sv h))) /\ active (fst (accept sv h)) = Some (0, h) /\
  at_z (SESSIONS (agent (fst (accept sv h)))) 0 = Some (Some (new_session h)) /\
  ram (agent (fst (accept sv h))) = ram (agent sv).
Proof.
  intros Hok Hs Hh. unfold accept. destruct (Z.eqb_spec h 0); [done|]. rewrite Hs.
  change (first_free (replicate 8 None)) with (Some 0%nat). cbn [fst agent active].
  split; [|split; [done|split; [|done]]].
  - apply (set_session_ok _ _ _ None); [done|by rewrite Hs|]. intros x [= <-]. apply new_session_ok.
  - cbn [SESSIONS set_session]. by rewrite Hs.
Qed.

Ltac bools := cbn [Z.eqb Pos.eqb orb andb]; rewrite ?andb_false_r; cbn [orb].

(** ** Theorems *)

(** While the table of files has room, a command makes the service panic
    exactly when it names an open file out of range (100, the terminal, is
    exempt for reading and writing only) or announces more data for a write
    than the message holds; every other command, whatever its bytes, is
    answered or dropped with every loop ended within seventeen steps. *)
Theorem handle_cmd_panics_iff ag i sess buf :
  agent_ok ag -> at_z (SESSIONS ag) i = Some (Some sess) ->
  Forall is_byte buf -> Z.of_nat (length buf) < 2 ^ 31 ->
  NEXT_IDX (ram ag) < 16 ->
  NEXT_IDX (ram ag) + Z.of_nat (length (components (cmd_path buf))) <= 16 ->
  if bad_fd buf || bad_len buf then handle_cmd 17 ag i buf = Panics
  else returns (handle_cmd 17 ag i buf).
Proof.
  intros Hok Hs Hb Hl Hlt Hroom. pose proof (cmd_arg32_1_nonneg buf Hb) as Hfd.
  destruct buf as [|cmd rest]; [by eexists|]. set (buf := cmd :: rest) in *.
  change (handle_cmd 17 ag i buf) with (dispatch 17 ag i cmd buf).
  unfold bad_fd, bad_len, dispatch. change (hd 0 buf) with cmd. set (fd := cmd_arg32_1 buf) in *.
  assert (Hcase : forall {A} (r : exec A) (g : A -> Agent * option (list Z)) (b : bool),
    (if b then r = Panics else returns r) ->
    if b then (x ← r; Ret (g x)) = Panics else returns (x ← r; Ret (g x))).
  { intros A r g [|]; [by intros ->|]. intros [a ->]. by eexists. }
  unfold VFS_OPEN, VFS_CLOSE, VFS_READ, VFS_WRITE, VFS_MKDIR, VFS_RMDIR, VFS_UNLINK, VFS_READDIR,
    VFS_STAT.
  assert (Hz : Z.of_nat (length (zeros 1024)) < 2 ^ 31) by done.
  destruct (Z.eqb_spec cmd 1) as [->|]; [|destruct (Z.eqb_spec cmd 2) as [->|];
    [|destruct (Z.eqb_spec cmd 3) as [->|]; [|destruct (Z.eqb_spec cmd 5) as [->|]]]];
    bools.
  - apply (Hcase _ _ _ false). by apply (do_open_returns ag i sess).
  - apply (Hcase _ _ _ false). by apply (do_close_returns ag i sess).
  - rewrite orb_false_r. apply Hcase. by apply (do_read_outcome ag i sess).
  - pose proof (write_data_outcome buf Hl) as Hw.
    destruct ((20 <? length buf)%nat && _) eqn:Hbad; rewrite ?orb_true_r, ?orb_false_r.
    + by rewrite Hw.
    + destruct Hw as (bytes & -> & Hbl). run_binds. apply Hcase. by apply (do_write_outcome ag i sess).
  - destruct (Z.eqb_spec cmd 6) as [->|]; [bools; apply (Hcase _ _ _ false); by apply do_mkdir_returns|].
    destruct (Z.eqb_spec cmd 7) as [->|]; [bools; apply (Hcase _ _ _ false); by apply removal_returns|].
    destruct (Z.eqb_spec cmd 8) as [->|]; [bools; apply (Hcase _ _ _ false); by apply removal_returns|].
    destruct (Z.eqb_spec cmd 9) as [->|]; cbn [orb]; rewrite ?andb_true_r, ?andb_false_r, ?orb_false_r.
    + bools. apply Hcase. by apply (do_readdir_outcome ag i sess).
    + destruct (Z.eqb_spec cmd 10) as [->|]; bools; [|by eexists].
      apply (Hcase _ _ _ false). by apply do_stat_returns.
Qed.

Lemma handle_cmd_panics_iff_witness :
  exists sv, boot 17 = Ret (Some sv) /\
    let ag := agent (fst (accept sv 7)) in
    handle_cmd 17 ag 0 (VFS_WRITE :: zeros 7 ++ le 4 200 ++ zeros 136) = Panics /\
    handle_cmd 17 ag 0 (VFS_READ :: zeros 3 ++ le 4 16 ++ zeros 140) = Panics /\
    returns (handle_cmd 17 ag 0 (VFS_STAT :: zeros 19 ++ [47] ++ zeros 127)).
Proof.
  destruct boot_facts as (sv & Hb & Hok & Hs & Hn & _). exists sv. split; [exact Hb|]. cbv zeta.
  destruct (accept_ok sv 7 Hok Hs ltac:(discriminate)) as (Hok' & _ & Hsess & Hram).
  assert (Hroom : NEXT_IDX (ram (agent (fst (accept sv 7)))) = 2) by (rewrite Hram; exact Hn).
  split; [|split].
  - refine (handle_cmd_panics_iff _ 0 _ (VFS_WRITE :: zeros 7 ++ le 4 200 ++ zeros 136) Hok' Hsess
      _ _ _ _); rewrite ?Hroom; [by apply (bool_decide_unpack _)|reflexivity|reflexivity|].
    vm_compute. discriminate.
  - refine (handle_cmd_panics_iff _ 0 _ (VFS_READ :: zeros 3 ++ le 4 16 ++ zeros 140) Hok' Hsess
      _ _ _ _); rewrite ?Hroom; [by apply (bool_decide_unpack _)|reflexivity|reflexivity|].
    vm_compute. discriminate.
  - refine (handle_cmd_panics_iff _ 0 _ (VFS_STAT :: zeros 19 ++ [47] ++ zeros 127) Hok' Hsess
      _ _ _ _); rewrite ?Hroom; [by apply (bool_decide_unpack _)|reflexivity|reflexivity|].
    vm_compute. discriminate.
Defined.
