(* ===== verification/Libc.v ===== *)
(** * Libc: the user programs' side of the file service

    libraries/libc/src/lib.rs: byte copying, the argument table, and the
    POSIX-like calls, which turn into commands on a channel to the file
    service.  The kernel's channel and console calls are the operations of an
    interface, [VfsWorld]; its instance at the end connects the calls to the
    service of FileAgent.v. *)
From Stdlib Require Import ZArith Lia.
From stdpp Require Import base tactics option list list_numbers.
From S2P Require Import Prelude Shared Bytes RamFs FileAgent.
Local Open Scope Z_scope.

(** ** Memory functions

    Memory as a function from addresses to bytes. *)
Definition mem : Type := Z -> Z.
Definition store (m : mem) (a v : Z) : mem := fun x => if x =? a then v else m x.

Definition bytes_at (m : mem) (a : Z) (n : nat) : list Z :=
  map (fun i => m (a + Z.of_nat i)) (seq 0 n).

(** Copying upwards, [n] bytes left, the next at offset [i]. *)
Fixpoint copy_up (m : mem) (dest src : Z) (i : Z) (n : nat) : mem :=
  match n with
  | O => m
  | S n => copy_up (store m (dest + i) (m (src + i))) dest src (i + 1) n
  end.

Fixpoint copy_down (m : mem) (dest src : Z) (n : nat) : mem :=
  match n with
  | O => m
  | S n => copy_down (store m (dest + Z.of_nat n) (m (src + Z.of_nat n))) dest src n
  end.

Definition memcpy (m : mem) (dest src : Z) (n : nat) : mem := copy_up m dest src 0 n.

Definition memmove (m : mem) (dest src : Z) (n : nat) : mem :=
  if src <? dest then copy_down m dest src n else copy_up m dest src 0 n.

Fixpoint memcmp_from (m : mem) (s1 s2 i : Z) (n : nat) : Z :=
  match n with
  | O => 0
  | S n =>
      let a := m (s1 + i) in
      let b := m (s2 + i) in
      if negb (a =? b) then (if a <? b then -1 else 1) else memcmp_from m s1 s2 (i + 1) n
  end.

Definition memcmp (m : mem) (s1 s2 : Z) (n : nat) : Z := memcmp_from m s1 s2 0 n.

Fixpoint memset_from (m : mem) (s c i : Z) (n : nat) : mem :=
  match n with
  | O => m
  | S n => memset_from (store m (s + i) (u8w c)) s c (i + 1) n
  end.

Definition memset (m : mem) (s c : Z) (n : nat) : mem := memset_from m s c 0 n.

(** ** Decimal numbers *)

(** The digits of [v], least significant first; [room] is what the buffer
    still holds. *)
Fixpoint digits (v : Z) (room : nat) : list Z :=
  match room with
  | O => []
  | S room => if 0 <? v then (48 + u8w (v mod 10)) :: digits (v / 10) room else []
  end.

(** Swapping from both ends while [lo < hi]. *)
Fixpoint reverse_in_place (fuel : nat) (buf : list Z) (lo hi : nat) : list Z :=
  match fuel with
  | O => buf
  | S fuel =>
      if (lo <? hi)%nat then
        match buf !! lo, buf !! hi with
        | Some t, Some x => reverse_in_place fuel (<[hi := t]> (<[lo := x]> buf)) (S lo) (hi - 1)
        | _, _ => buf
        end
      else buf
  end.

(** The buffer of sixteen bytes and the number of bytes written. *)
Definition format_u32_into (v : Z) (buf : list Z) : list Z * nat :=
  if v =? 0 then (put 0 [48] buf, 1%nat)
  else let ds := digits v 16 in
       (reverse_in_place 16 (put 0 ds buf) 0 (length ds - 1), length ds).

(** ** The argument table *)
Definition read_u64 (m : mem) (a : Z) : Z := unle (bytes_at m a 8).

Record ArgTable := mkArgTable { HNX_ARGC : Z; ARGV_PTRS : list Z; ARGV_LENS : list Z }.

Definition args_static : ArgTable :=
  mkArgTable 0 (replicate 16 0xDEADBEEF) (replicate 16 (2 ^ 64 - 1)).

(** The scan for the end of the string at [s], below [next]. *)
Fixpoint arg_len (fuel : nat) (m : mem) (s next : Z) (len : nat) : nat :=
  match fuel with
  | O => len
  | S fuel =>
      if (s + Z.of_nat len <? next) && negb (m (s + Z.of_nat len) =? 0)
      then arg_len fuel m s next (S len) else len
  end.

(** The loop of [_hnx_user_entry]: [n] arguments left, the next being [i]. *)
Fixpoint entry_args (m : mem) (argc argv i : Z) (n : nat) (t : ArgTable) : ArgTable :=
  match n with
  | O => t
  | S n =>
      if 16 <=? i then t
      else
        let s := read_u64 m (argv + 8 * i) in
        let next := if i + 1 <? argc then read_u64 m (argv + 8 * (i + 1)) else s + 4096 in
        let len := arg_len (Z.to_nat (next - s)) m s next 0 in
        entry_args m argc argv (i + 1) n
          (mkArgTable (HNX_ARGC t) (set_z i s (ARGV_PTRS t))
             (set_z i (Z.of_nat len) (ARGV_LENS t)))
  end.

Definition user_entry (m : mem) (argc_raw argv : Z) (t : ArgTable) : ArgTable :=
  let argc := i32w argc_raw in
  if (0 <? argc) && negb (argv =? 0) then
    let t1 := entry_args m argc argv 0 (Z.to_nat argc) t in
    mkArgTable argc (ARGV_PTRS t1) (ARGV_LENS t1)
  else mkArgTable 0 (ARGV_PTRS t) (ARGV_LENS t).

Definition hnx_arg (m : mem) (t : ArgTable) (i : Z) : list Z :=
  if (HNX_ARGC t <=? i32w i) || (16 <=? i) then []
  else match at_z (ARGV_PTRS t) i, at_z (ARGV_LENS t) i with
       | Some p, Some l => if (p =? 0) || (l =? 0) then [] else bytes_at m p (Z.to_nat l)
       | _, _ => []
       end.

(** ** Files *)

(** The kernel calls: [channel_lookup("svc.vfs")], [channel_write],
    [channel_read] into a buffer of the given size (the bytes received),
    [close], and the console calls for descriptors below 3. *)
Class VfsWorld (W : Type) := {
  channel_lookup : W -> exec (option Z * W);
  channel_write : W -> Z -> list Z -> exec (bool * W);
  channel_read : W -> Z -> nat -> exec (option (list Z) * W);
  chan_close : W -> Z -> exec W;
  console_read : W -> Z -> nat -> exec (Z * list Z * W);
  console_write : W -> Z -> list Z -> exec (Z * W) }.

Inductive FdType := Console | FdFile (channel_handle remote_fd : Z).
Record FdEntry := mkFdEntry { fd_type : FdType; fd_flags : Z }.

Definition USER_FD_TABLE : list (option FdEntry) :=
  [Some (mkFdEntry Console 0); Some (mkFdEntry Console 1); Some (mkFdEntry Console 2)]
  ++ replicate 61 None.

(** A command: [cmd[0]], [cmd[4..8]], [cmd[8..12]] and [cmd[20..]] of a zeroed
    buffer.  A field the source leaves alone is written as 0 here. *)
Definition cmd_buf (c a1 a2 : Z) (payload : list Z) : list Z :=
  put 20 payload (put 8 (le 4 a2) (put 4 (le 4 a1) (put 0 [c] (zeros 148)))).

(** The bytes of a C string that the calls look at. *)
Definition c_path (p : list Z) : list Z := take 127 (until_nul p).

Section files.
Context {W : Type} `{!VfsWorld W}.

Record Lib := mkLib { table : list (option FdEntry); world : W }.

Definition set_world (w : W) (l : Lib) : Lib := mkLib (table l) w.

Definition send_vfs_cmd (w : W) (ch : Z) (cmd : list Z) : exec (Z * W) :=
  wr ← channel_write w ch cmd;
  if negb (fst wr) then Ret (-1, snd wr)
  else rr ← channel_read (snd wr) ch 8;
       Ret (match fst rr with
            | Some resp => if (8 <=? length resp)%nat then i64w (unle (take 8 resp)) else -1
            | None => -1
            end, snd rr).

Definition open (l : Lib) (path : list Z) (flags : Z) : exec (Z * Lib) :=
  lk ← channel_lookup (world l);
  match fst lk with
  | None => Ret (-1, set_world (snd lk) l)
  | Some ch =>
      r ← send_vfs_cmd (snd lk) ch (cmd_buf VFS_OPEN (u32w flags) 0 (c_path path));
      if fst r <? 0 then w ← chan_close (snd r) ch; Ret (-1, set_world w l)
      else match first_free (drop 3 (table l)) with
           | Some i =>
               let fd := Z.of_nat i + 3 in
               Ret (fd, mkLib (set_z fd (Some (mkFdEntry (FdFile ch (u32w (fst r))) flags)) (table l))
                          (snd r))
           | None => w ← chan_close (snd r) ch; Ret (-1, set_world w l)
           end
  end.

Definition open_str (l : Lib) (path : list Z) (flags : Z) : exec (Z * Lib) :=
  open l (take 255 path) flags.

(** The reply to VFS_READ or VFS_READDIR: the result and what is copied to the
    caller's buffer of [count] bytes. *)
Definition take_data (resp : option (list Z)) (count : nat) : Z * list Z :=
  match resp with
  | Some resp =>
      if (8 <=? length resp)%nat then
        let buf := put 0 resp (zeros 136) in
        let result := i64w (unle (take 8 buf)) in
        if result <? 0 then (-1, [])
        else if 0 <? result then
          let copy_len := Nat.min (Nat.min (Z.to_nat result) count) 128 in
          (Z.of_nat copy_len, take copy_len (drop 8 buf))
        else (0, [])
      else (-1, [])
  | None => (-1, [])
  end.

(** Descriptor lookup of [read], [write], [readdir]. *)
Definition entry_of (l : Lib) (fd : Z) : option FdEntry :=
  if (fd <? 0) || (64 <=? fd) then None else default None (at_z (table l) fd).

Definition data_call (l : Lib) (cmd : Z) (ch remote_fd : Z) (count : nat) :
    exec (Z * list Z * Lib) :=
  wr ← channel_write (world l) ch (cmd_buf cmd remote_fd (u32w (Z.of_nat count)) []);
  if negb (fst wr) then Ret (-1, [], set_world (snd wr) l)
  else rr ← channel_read (snd wr) ch 136;
       Ret (take_data (fst rr) count, set_world (snd rr) l).

Definition read (l : Lib) (fd : Z) (count : nat) : exec (Z * list Z * Lib) :=
  if (count =? 0)%nat then Ret (0, [], l)
  else match entry_of l fd with
       | None => Ret (-1, [], l)
       | Some e =>
           match fd_type e with
           | Console =>
               r ← console_read (world l) fd count; Ret (fst r, set_world (snd r) l)
           | FdFile ch remote_fd => data_call l VFS_READ ch remote_fd count
           end
       end.

Definition write (l : Lib) (fd : Z) (bytes : list Z) : exec (Z * Lib) :=
  let count := length bytes in
  if (count =? 0)%nat then Ret (0, l)
  else match entry_of l fd with
       | None => Ret (-1, l)
       | Some e =>
           match fd_type e with
           | Console => r ← console_write (world l) fd bytes; Ret (fst r, set_world (snd r) l)
           | FdFile ch remote_fd =>
               let copy_len := Nat.min count 128 in
               r ← send_vfs_cmd (world l) ch
                     (cmd_buf VFS_WRITE remote_fd (u32w (Z.of_nat count)) (take copy_len bytes));
               Ret (if fst r <? 0 then -1 else fst r, set_world (snd r) l)
           end
       end.

Definition close (l : Lib) (fd : Z) : exec (Z * Lib) :=
  match entry_of l fd with
  | None => Ret (-1, l)
  | Some e =>
      let t := set_z fd None (table l) in
      match fd_type e with
      | Console => Ret (0, mkLib t (world l))
      | FdFile ch remote_fd =>
          wr ← channel_write (world l) ch (cmd_buf VFS_CLOSE remote_fd 0 []);
          w ← chan_close (snd wr) ch;
          Ret (0, mkLib t w)
      end
  end.

(** [mkdir], [rmdir] and [unlink] differ in the command. *)
Definition path_call (l : Lib) (cmd : Z) (path : list Z) : exec (Z * Lib) :=
  lk ← channel_lookup (world l);
  match fst lk with
  | None => Ret (-1, set_world (snd lk) l)
  | Some ch =>
      r ← send_vfs_cmd (snd lk) ch (cmd_buf cmd 0 0 (c_path path));
      w ← chan_close (snd r) ch;
      Ret (i32w (fst r), set_world w l)
  end.

Definition mkdir (l : Lib) (path : list Z) : exec (Z * Lib) := path_call l VFS_MKDIR path.
Definition rmdir (l : Lib) (path : list Z) : exec (Z * Lib) := path_call l VFS_RMDIR path.
Definition unlink (l : Lib) (path : list Z) : exec (Z * Lib) := path_call l VFS_UNLINK path.

(** The result, and [st_size] and [st_mode] when the call fills them in. *)
Definition stat (l : Lib) (path : list Z) : exec (Z * option (Z * Z) * Lib) :=
  lk ← channel_lookup (world l);
  match fst lk with
  | None => Ret (-1, None, set_world (snd lk) l)
  | Some ch =>
      wr ← channel_write (snd lk) ch (cmd_buf VFS_STAT 0 0 (c_path path));
      if negb (fst wr) then w ← chan_close (snd wr) ch; Ret (-1, None, set_world w l)
      else
        rr ← channel_read (snd wr) ch 16;
        w ← chan_close (snd rr) ch;
        Ret (match fst rr with
             | Some resp =>
                 if (16 <=? length resp)%nat then
                   let ntype := i64w (rd resp 8 8) in
                   (0, Some (i64w (rd resp 0 8),
                             if ntype =? 2 then 16384 else if ntype =? 1 then 32768 else 0))
                 else (-1, None)
             | None => (-1, None)
             end, set_world w l)
  end.

Definition readdir (l : Lib) (fd : Z) (count : nat) : exec (Z * list Z * Lib) :=
  if (count =? 0)%nat then Ret (0, [], l)
  else match entry_of l fd with
       | None => Ret (-1, [], l)
       | Some e =>
           match fd_type e with
           | Console => Ret (-1, [], l)
           | FdFile ch remote_fd => data_call l VFS_READDIR ch remote_fd count
           end
       end.

Definition putchar (l : Lib) (c : Z) : exec Lib := r ← write l 1 [c]; Ret (snd r).

Definition getchar (l : Lib) : exec (option Z * Lib) :=
  r ← read l 0 1;
  Ret (if 0 <? fst (fst r) then head (snd (fst r)) else None, snd r).
End files.
Arguments Lib W : clear implicits.
Arguments mkLib {W} _ _.
Arguments table {W} _.
Arguments world {W} _.

(** ** One program and the file service

    The messages of the channel to the session being served are answered by
    [serve].  A connection hands a channel over to the service, which takes it
    when it reads its own channel again, after the current session: until then
    the lookup blocks, as does reading where nothing has been sent.  Console
    output is accepted whole, console input is empty. *)
Record Sys := mkSys { service : Server; next_chan : Z; inbox : list (list Z) }.

Definition served (s : Sys) (ch : Z) : bool :=
  match active (service s) with Some (_, c) => c =? ch | None => false end.

Definition replies (outs : list output) : list (list Z) :=
  omap (fun o => match o with OutReply _ bs => Some bs | OutClose _ => None end) outs.

Definition sys_lookup (s : Sys) : exec (option Z * Sys) :=
  let h := next_chan s in
  match active (service s) with
  | Some _ => Running
  | None =>
      r ← serve 17 (service s) (EvMessage [] h);
      Ret (Some h, mkSys (fst r) (h + 1) [])
  end.

Definition sys_write (s : Sys) (ch : Z) (bytes : list Z) : exec (bool * Sys) :=
  if served s ch then
    r ← serve 17 (service s) (EvMessage (take 148 bytes) 0);
    Ret (true, mkSys (fst r) (next_chan s) (inbox s ++ replies (snd r)))
  else Ret (true, s).

Definition sys_read (s : Sys) (ch : Z) (cap : nat) : exec (option (list Z) * Sys) :=
  if served s ch then
    match inbox s with
    | m :: rest => Ret (Some (take cap m), mkSys (service s) (next_chan s) rest)
    | [] => Running
    end
  else Running.

Definition sys_close (s : Sys) (ch : Z) : exec Sys :=
  if served s ch then
    r ← serve 17 (service s) EvError; Ret (mkSys (fst r) (next_chan s) [])
  else Ret s.

#[export] Instance sys_world : VfsWorld Sys := {|
  channel_lookup := sys_lookup;
  channel_write := sys_write;
  channel_read := sys_read;
  chan_close := sys_close;
  console_read := fun s _ _ => Ret (0, [], s);
  console_write := fun s _ bytes => Ret (Z.of_nat (length bytes), s) |}.

(** ** The memory functions *)
Ltac addr_cases :=
  unfold store;
  repeat match goal with
  | |- context [?a <=? ?b] => destruct (Z.leb_spec a b)
  | |- context [?a <? ?b] => destruct (Z.ltb_spec a b)
  | |- context [?a =? ?b] => destruct (Z.eqb_spec a b)
  end; cbn [andb]; try reflexivity; try lia; try (f_equal; lia).

Lemma copy_up_spec m dest src i n x :
  dest <= src ->
  copy_up m dest src i n x =
  if (dest + i <=? x) && (x <? dest + i + Z.of_nat n) then m (src + (x - dest)) else m x.
Proof.
  intros Hle. revert m i.
  induction n as [|n IH]; intros m i; cbn [copy_up]; [|rewrite IH]; addr_cases.
Qed.

Lemma copy_down_spec m dest src n x :
  src < dest ->
  copy_down m dest src n x =
  if (dest <=? x) && (x <? dest + Z.of_nat n) then m (src + (x - dest)) else m x.
Proof.
  intros Hlt. revert m.
  induction n as [|n IH]; intros m; cbn [copy_down]; [|rewrite IH]; addr_cases.
Qed.

(** [memmove] copies as if through a buffer, however the areas overlap. *)
Lemma memmove_spec m dest src n x :
  memmove m dest src n x =
  if (dest <=? x) && (x <? dest + Z.of_nat n) then m (src + (x - dest)) else m x.
Proof.
  unfold memmove. destruct (Z.ltb_spec src dest); [by apply copy_down_spec|].
  rewrite copy_up_spec by done. by rewrite Z.add_0_r.
Qed.

Lemma memset_spec m s c n x :
  memset m s c n x = if (s <=? x) && (x <? s + Z.of_nat n) then u8w c else m x.
Proof.
  unfold memset. rewrite <- (Z.add_0_r s) at 2 3. generalize 0 as i. revert m.
  induction n as [|n IH]; intros m i; cbn [memset_from]; [|rewrite IH]; addr_cases.
Qed.

(** The sign of the first difference. *)
Lemma memcmp_spec m s1 s2 n :
  (memcmp m s1 s2 n = 0 <-> bytes_at m s1 n = bytes_at m s2 n) /\
  (forall k, (k < n)%nat -> bytes_at m s1 k = bytes_at m s2 k ->
     m (s1 + Z.of_nat k) <> m (s2 + Z.of_nat k) ->
     memcmp m s1 s2 n = if m (s1 + Z.of_nat k) <? m (s2 + Z.of_nat k) then -1 else 1).
Proof.
  assert (Hgen : forall n i, 
    (memcmp_from m s1 s2 i n = 0 <->
      forall j, (j < n)%nat -> m (s1 + i + Z.of_nat j) = m (s2 + i + Z.of_nat j)) /\
    (forall k, (k < n)%nat ->
       (forall j, (j < k)%nat -> m (s1 + i + Z.of_nat j) = m (s2 + i + Z.of_nat j)) ->
       m (s1 + i + Z.of_nat k) <> m (s2 + i + Z.of_nat k) ->
       memcmp_from m s1 s2 i n =
       if m (s1 + i + Z.of_nat k) <? m (s2 + i + Z.of_nat k) then -1 else 1)).
  { clear n. induction n as [|n IH]; intros i; cbn [memcmp_from].
    { split; [split; [intros _; lia|done]|lia]. }
    destruct (IH (i + 1)) as [IH1 IH2]. rewrite Z.add_assoc in *.
    assert (Hs : forall j, s1 + i + 1 + Z.of_nat j = s1 + i + Z.of_nat (S j) /\
                           s2 + (i + 1) + Z.of_nat j = s2 + i + Z.of_nat (S j)) by lia.
    destruct (Z.eqb_spec (m (s1 + i)) (m (s2 + i))) as [He|Hne]; cbn [negb].
    - split.
      + rewrite IH1. split.
        * intros H [|j] Hj; [by rewrite !Z.add_0_r|]. destruct (Hs j) as [<- <-]. apply H. lia.
        * intros H j Hj. destruct (Hs j) as [-> ->]. apply H. lia.
      + intros [|k] Hk Hj Hd; [by rewrite !Z.add_0_r in Hd|].
        destruct (Hs k) as [E1 E2]. rewrite <- E1, <- E2 in Hd |- *. apply IH2; [lia| |done].
        intros j Hjk. destruct (Hs j) as [-> ->]. apply Hj. lia.
    - split.
      + split; [by destruct (_ <? _)|]. intros H. specialize (H 0%nat ltac:(lia)).
        by rewrite !Z.add_0_r in H.
      + intros [|k] Hk Hj Hd; [by rewrite !Z.add_0_r|]. specialize (Hj 0%nat ltac:(lia)).
        by rewrite !Z.add_0_r in Hj. }
  destruct (Hgen n 0) as [H1 H2]. rewrite !Z.add_0_r in *.
  assert (Hb : forall k, bytes_at m s1 k = bytes_at m s2 k <->
    forall j, (j < k)%nat -> m (s1 + Z.of_nat j) = m (s2 + Z.of_nat j)).
  { intros k. unfold bytes_at. rewrite map_ext_in_iff. split; intros H j Hj; apply H.
    - apply in_seq. lia.
    - apply in_seq in Hj. lia. }
  split; [by rewrite Hb|]. intros k Hk He Hd. apply H2; [done|by apply Hb|done].
Qed.

(** The decimal digits denote the number. *)
Fixpoint decimal (ds : list Z) : Z :=
  match ds with [] => 0 | d :: ds => (d - 48) + 10 * decimal ds end.

Lemma digits_spec v room :
  0 <= v < 10 ^ Z.of_nat room ->
  decimal (digits v room) = v /\ Forall (fun d => 48 <= d <= 57) (digits v room).
Proof.
  revert v. induction room as [|room IH]; intros v Hv; cbn [digits].
  { cbn in *. split; [lia|constructor]. }
  destruct (Z.ltb_spec 0 v); [|cbn; split; [lia|constructor]].
  assert (Hm : 0 <= v mod 10 < 10) by (apply Z.mod_pos_bound; lia).
  assert (Hu : u8w (v mod 10) = v mod 10) by (unfold u8w; rewrite Z.mod_small; lia).
  rewrite Hu. destruct (IH (v / 10)) as [IH1 IH2].
  { rewrite Nat2Z.inj_succ, Z.pow_succ_r in Hv by lia. split; [apply Z.div_pos; lia|].
    apply Z.div_lt_upper_bound; lia. }
  cbn [decimal]. rewrite IH1. split; [pose proof (Z.div_mod v 10); lia|].
  constructor; [lia|done].
Qed.

(** ** The bytes of a command *)
Lemma cmd_buf_shape c a1 a2 payload :
  (length payload <= 128)%nat ->
  cmd_buf c a1 a2 payload =
  ((c :: zeros 3) ++ le 4 a1 ++ le 4 a2 ++ zeros 8) ++ payload ++ replicate (128 - length payload) 0.
Proof.
  intros Hl. unfold cmd_buf.
  change (put 8 (le 4 a2) (put 4 (le 4 a1) (put 0 [c] (zeros 148)))) with
    (((c :: zeros 3) ++ le 4 a1 ++ le 4 a2 ++ zeros 8) ++ replicate 128 0).
  rewrite put_fill by done. by rewrite <- app_assoc.
Qed.

Section command.
Context (c a1 a2 : Z) (payload : list Z).
Hypothesis Hl : (length payload <= 128)%nat.
Hypothesis Ha1 : 0 <= a1 < 2 ^ 32.
Hypothesis Ha2 : 0 <= a2 < 2 ^ 32.
Let buf := cmd_buf c a1 a2 payload.

Lemma cmd_length : length buf = 148%nat.
Proof using Hl. unfold buf. rewrite cmd_buf_shape by done. rewrite !length_app, !length_le, length_replicate. cbn [length].
  change (length (zeros 3)) with 3%nat. change (length (zeros 8)) with 8%nat. cbn [length]. lia. Qed.

Lemma cmd_head : exists r, buf = c :: r.
Proof using Hl. unfold buf. rewrite cmd_buf_shape by done. by eexists. Qed.

Lemma cmd_arg1 : cmd_arg32_1 buf = a1.
Proof using Hl Ha1.
  unfold cmd_arg32_1. rewrite cmd_length. unfold buf. rewrite cmd_buf_shape by done.
  cbn [Nat.ltb Nat.leb]. rewrite <- !app_assoc. read_field. apply unle_le. exact Ha1.
Qed.

Lemma cmd_arg2 : cmd_arg32_2 buf = a2.
Proof using Hl Ha2.
  unfold cmd_arg32_2. rewrite cmd_length. unfold buf. rewrite cmd_buf_shape by done.
  cbn [Nat.ltb Nat.leb]. rewrite <- !app_assoc. read_field. apply unle_le. exact Ha2.
Qed.

Lemma cmd_payload : drop 20 buf = payload ++ replicate (128 - length payload) 0.
Proof using Hl. unfold buf. rewrite cmd_buf_shape by done. by rewrite drop_app_length'. Qed.

Lemma cmd_path_buf : 0 ∉ payload -> utf8_valid payload = true -> cmd_path buf = payload.
Proof using Hl.
  intros H0 Hu. unfold cmd_path. rewrite cmd_length. cbn [Nat.leb].
  rewrite cmd_payload, until_nul_app, Hu by done. done.
Qed.

Lemma write_data_buf :
  a2 = Z.of_nat (length payload) -> (0 < length payload)%nat -> write_data buf = Ret payload.
Proof using Hl Ha2.
  intros He Hp. unfold write_data. rewrite cmd_arg2, cmd_length, He, Nat2Z.id.
  destruct (Nat.ltb_spec 0 (length payload)); [|lia]. cbn [Nat.ltb Nat.leb andb].
  unfold slice. rewrite cmd_length, decide_True by lia. cbn [or_panic]. f_equal.
  rewrite cmd_payload. by rewrite take_app_length' by lia.
Qed.

Lemma write_data_long :
  Z.of_nat 128 < a2 -> write_data buf = Panics.
Proof using Hl Ha2.
  intros Hgt. unfold write_data. rewrite cmd_arg2, cmd_length.
  destruct (Nat.ltb_spec 0 (Z.to_nat a2)); [|lia]. cbn [Nat.ltb Nat.leb andb].
  unfold slice. by rewrite cmd_length, decide_False by lia.
Qed.
End command.

(** ** One call to the service *)

(** The system with the service driving session 0 on channel [ch]. *)
Definition driving (ag : Agent) (ch next : Z) (mail : list (list Z)) : Sys :=
  mkSys (mkServer ag (Some (0, ch))) next mail.
Definition quiet (ag : Agent) (next : Z) : Sys := mkSys (mkServer ag None) next [].

Lemma write_served ag ch next c a1 a2 payload ag' reply :
  (length payload <= 128)%nat ->
  dispatch 17 ag 0 c (cmd_buf c a1 a2 payload) = Ret (ag', Some reply) ->
  sys_write (driving ag ch next []) ch (cmd_buf c a1 a2 payload) =
  Ret (true, driving ag' ch next [reply]).
Proof.
  intros Hl Hd. unfold sys_write, served. cbn [service driving active]. rewrite Z.eqb_refl.
  pose proof (cmd_length c a1 a2 payload Hl) as Hlen. unfold serve. cbn [active].
  rewrite take_ge by lia. rewrite Hlen. cbn [Nat.eqb].
  destruct (cmd_head c a1 a2 payload Hl) as [r Hr]. unfold handle_cmd. rewrite Hr in Hd |- *.
  cbn [agent]. rewrite Hd. reflexivity.
Qed.

Lemma send_served ag ch next c a1 a2 payload ag' v :
  (length payload <= 128)%nat -> - 2 ^ 63 <= v < 2 ^ 63 ->
  dispatch 17 ag 0 c (cmd_buf c a1 a2 payload) = Ret (ag', Some (write_response v)) ->
  send_vfs_cmd (driving ag ch next []) ch (cmd_buf c a1 a2 payload) = Ret (v, driving ag' ch next []).
Proof.
  intros Hl Hv Hd. unfold send_vfs_cmd. cbn [channel_write channel_read sys_world].
  rewrite (write_served ag ch next c a1 a2 payload ag' (write_response v)) by done.
  cbn [mbind exec_bind fst snd negb]. unfold sys_read, served. cbn [service driving active inbox].
  rewrite Z.eqb_refl. cbn [mbind exec_bind fst snd]. unfold write_response.
  rewrite (take_ge (le 8 v)), length_le by (rewrite length_le; lia). cbn [Nat.leb].
  rewrite take_ge by (rewrite length_le; lia). f_equal. f_equal.
  by apply i64_le.
Qed.

(** A path that arrives unchanged. *)
Definition path_ok (p : list Z) : Prop :=
  (0 ∉ p) /\ utf8_valid p = true /\ (length p <= 127)%nat.

Lemma c_path_ok p : path_ok p -> c_path p = p.
Proof. intros (H0 & _ & Hl). unfold c_path. by rewrite until_nul_id, take_ge by (done || lia). Qed.

(** A session table whose first slot is free. *)
Definition idle_slot (ag : Agent) : Prop := at_z (SESSIONS ag) 0 = Some None.

Definition connected (ag : Agent) (h : Z) : Agent := set_session 0 (Some (new_session h)) ag.

Lemma lookup_quiet ag h :
  idle_slot ag -> h <> 0 -> sys_lookup (quiet ag h) = Ret (Some h, driving (connected ag h) h (h + 1) []).
Proof.
  intros Hs Hh. unfold sys_lookup. cbn [service quiet active next_chan]. unfold serve.
  cbn [active agent]. unfold accept. destruct (Z.eqb_spec h 0); [done|]. cbn [agent].
  assert (Hf : first_free (SESSIONS ag) = Some 0%nat).
  { unfold idle_slot, at_z in Hs. cbn in Hs. destruct (SESSIONS ag) as [|x l]; [done|].
    cbn in Hs. injection Hs as ->. done. }
  by rewrite Hf.
Qed.

Lemma close_driving ag ch next mail :
  sys_close (driving ag ch next mail) ch = Ret (quiet (set_session 0 None ag) next).
Proof. unfold sys_close, served. cbn [service driving active]. by rewrite Z.eqb_refl. Qed.

Section calls.
Context (ag : Agent) (l : Lib Sys).
Implicit Types (fd ch next : Z).

Lemma open_spec h path flags rfd ag' n :
  world l = quiet ag h -> idle_slot ag -> h <> 0 -> path_ok path -> 0 <= rfd < 2 ^ 32 ->
  do_open 17 (connected ag h) 0 path (u32w flags) = Ret (rfd, ag') ->
  first_free (drop 3 (table l)) = Some n ->
  open l path flags =
  Ret (Z.of_nat n + 3,
       mkLib (set_z (Z.of_nat n + 3) (Some (mkFdEntry (FdFile h rfd) flags)) (table l))
             (driving ag' h (h + 1) [])).
Proof.
  intros Hw Hs Hh Hp Hrfd Hdo Hn. unfold open. cbn [channel_lookup sys_world].
  rewrite Hw, lookup_quiet by done. cbn [mbind exec_bind fst snd].
  rewrite c_path_ok by done. destruct Hp as (H0 & Hu & Hl).
  pose proof (u32w_range flags) as Hf. change (2 ^ 32) with 4294967296 in *.
  rewrite (send_served _ h (h + 1) VFS_OPEN (u32w flags) 0 path ag' rfd); [| lia | lia |].
  - cbn [mbind exec_bind fst snd]. destruct (Z.ltb_spec rfd 0); [lia|]. rewrite Hn.
    by rewrite u32w_small by lia.
  - unfold dispatch. cbn [Z.eqb Pos.eqb VFS_OPEN].
    rewrite cmd_path_buf, cmd_arg1 by (done || lia). by rewrite Hdo.
Qed.

Lemma write_call_spec fd ch next rfd flags bytes res ag' :
  world l = driving ag ch next [] -> entry_of l fd = Some (mkFdEntry (FdFile ch rfd) flags) ->
  0 <= rfd < 2 ^ 32 -> (1 <= length bytes <= 128)%nat -> - 2 ^ 63 <= res < 2 ^ 63 ->
  do_write ag 0 rfd bytes = Ret (res, ag') ->
  write l fd bytes = Ret (if res <? 0 then -1 else res, set_world (driving ag' ch next []) l).
Proof.
  intros Hw He Hr Hl Hres Hdo. unfold write. rewrite He. cbn [fd_type].
  destruct (Nat.eqb_spec (length bytes) 0); [lia|]. rewrite take_ge by lia.
  rewrite u32w_small by lia. rewrite Hw.
  rewrite (send_served ag ch next VFS_WRITE rfd (Z.of_nat (length bytes)) bytes ag' res);
    [done|lia|done|].
  unfold dispatch. cbn [Z.eqb Pos.eqb VFS_WRITE VFS_OPEN VFS_CLOSE VFS_READ].
  rewrite write_data_buf, cmd_arg1 by (done || lia). cbn [mbind exec_bind]. by rewrite Hdo.
Qed.

Lemma close_spec fd ch next rfd flags res ag' :
  world l = driving ag ch next [] -> entry_of l fd = Some (mkFdEntry (FdFile ch rfd) flags) ->
  0 <= rfd < 2 ^ 32 -> do_close ag 0 rfd = Ret (res, ag') ->
  close l fd = Ret (0, mkLib (set_z fd None (table l)) (quiet (set_session 0 None ag') next)).
Proof.
  intros Hw He Hr Hdo. unfold close. rewrite He. cbn [fd_type channel_write chan_close sys_world].
  rewrite Hw. rewrite (write_served ag ch next VFS_CLOSE rfd 0 [] ag' (write_response res));
    [|cbn; lia|].
  - cbn [mbind exec_bind fst snd]. by rewrite close_driving.
  - unfold dispatch. cbn [Z.eqb Pos.eqb VFS_WRITE VFS_OPEN VFS_CLOSE VFS_READ].
    rewrite cmd_arg1 by (done || cbn; lia). by rewrite Hdo.
Qed.

(** What a reader gets of [n] bytes read by the service into its buffer. *)
Lemma take_data_reply n bytes count :
  (0 <= n <= 1024)%nat -> length bytes = 1024%nat ->
  take_data (Some (take 136 (data_reply (Z.of_nat n) bytes))) count =
  (Z.of_nat (Nat.min (Nat.min n count) 128), take (Nat.min (Nat.min n count) 128) bytes).
Proof.
  intros Hn Hb. unfold data_reply, write_response_data. destruct (Z.leb_spec 0 (Z.of_nat n)); [|lia].
  rewrite Nat2Z.id, length_take, Hb, take_take.
  replace (Nat.min (Nat.min (Nat.min n 1024) 128) n) with (Nat.min n 128) by lia.
  set (m := Nat.min n 128). set (t := take m bytes).
  assert (Ht : length t = m) by (unfold t; rewrite length_take; lia).
  unfold take_data. rewrite (take_ge (le 8 _ ++ t)) by (rewrite length_app, length_le; lia).
  rewrite length_app, length_le. cbn [Nat.leb Nat.add].
  assert (Hput : put 0 (le 8 (Z.of_nat n) ++ t) (zeros 136) = le 8 (Z.of_nat n) ++ t ++ replicate (128 - m) 0).
  { change (zeros 136) with ([] ++ replicate 136 0).
    rewrite put_fill by (try done; rewrite length_app, length_le; lia). cbn [app].
    rewrite length_app, length_le, Ht, <- app_assoc. by do 3 f_equal. }
  rewrite Hput, take_app_length', drop_app_length' by by rewrite length_le.
  rewrite i64_le by lia. destruct (Z.ltb_spec (Z.of_nat n) 0); [lia|]. rewrite Nat2Z.id.
  destruct (Z.ltb_spec 0 (Z.of_nat n)).
  - f_equal. rewrite take_app_le by lia. unfold t. rewrite take_take. f_equal. lia.
  - assert (n = 0%nat) as -> by lia. done.
Qed.

Lemma read_call_spec fd ch next rfd flags n bytes ag' count :
  world l = driving ag ch next [] -> entry_of l fd = Some (mkFdEntry (FdFile ch rfd) flags) ->
  0 <= rfd < 2 ^ 32 -> (0 < count)%nat -> (0 <= n <= 1024)%nat -> length bytes = 1024%nat ->
  do_read ag 0 rfd (zeros 1024) = Ret (Z.of_nat n, bytes, ag') ->
  read l fd count =
  Ret (Z.of_nat (Nat.min (Nat.min n count) 128), take (Nat.min (Nat.min n count) 128) bytes,
       set_world (driving ag' ch next []) l).
Proof.
  intros Hw He Hr Hc Hn Hb Hdo. unfold read. destruct (Nat.eqb_spec count 0); [lia|].
  rewrite He. cbn [fd_type]. unfold data_call. cbn [channel_write channel_read sys_world]. rewrite Hw.
  rewrite (write_served ag ch next VFS_READ rfd (u32w (Z.of_nat count)) [] ag'
    (data_reply (Z.of_nat n) bytes)); [|cbn; lia|].
  - cbn [mbind exec_bind fst snd negb]. unfold sys_read, served.
    cbn [service driving active inbox]. rewrite Z.eqb_refl. cbn [mbind exec_bind fst snd].
    by rewrite take_data_reply by lia.
  - unfold dispatch. cbn [Z.eqb Pos.eqb VFS_WRITE VFS_OPEN VFS_CLOSE VFS_READ].
    rewrite cmd_arg1 by (done || cbn; lia). by rewrite Hdo.
Qed.
End calls.

(** ** What the service does for the calls *)
Definition not_tty (p : list Z) : Prop := p <> DEV_TTY /\ p <> 47 :: DEV_TTY.

Lemma set_ram_id ag : set_ram (ram ag) ag = ag.
Proof. by destruct ag. Qed.

Lemma do_open_existing ag i sess kids path flags idx fd :
  wf kids (ram ag) -> at_z (SESSIONS ag) i = Some (Some sess) -> not_tty path ->
  follow kids (ram ag) 0 (components path) = Some idx -> first_free (fds sess) = Some fd ->
  do_open 17 ag i path flags =
  Ret (Z.of_nat fd,
       set_session i (Some (set_fd (Z.of_nat fd) (Some (mkOpenFile idx 0)) sess)) ag).
Proof.
  intros Hwf Hs [Ht1 Ht2] Hf Hfd. unfold do_open. rewrite Hs. cbn [or_panic mbind exec_bind].
  rewrite !bool_decide_false by done. cbn [orb].
  rewrite (resolve_follow kids), components_clean, Hf by done. cbn [mbind exec_bind fst snd].
  by rewrite Hfd, set_ram_id.
Qed.

(** The state after creating a file: [created] of RamFs.v. *)
Lemma do_open_create ag i sess kids path flags par fd :
  wf kids (ram ag) -> fresh (ram ag) -> NEXT_IDX (ram ag) < 16 ->
  at_z (SESSIONS ag) i = Some (Some sess) -> not_tty path -> Z.land flags 64 <> 0 ->
  snd (split_path path) <> [] -> 
  follow kids (ram ag) 0 (fst (split_path path)) = Some par ->
  (exists pd, node (ram ag) par = Some pd /\ ntype pd = 2) ->
  pick (ram ag) (snd (split_path path)) (kids par) = None -> first_free (fds sess) = Some fd ->
  exists k st', created kids (ram ag) par (snd (split_path path)) File k st' /\
    do_open 17 ag i path flags =
    Ret (Z.of_nat fd,
         set_session i (Some (set_fd (Z.of_nat fd) (Some (mkOpenFile k 0)) sess)) (set_ram st' ag)).
Proof.
  intros Hwf Hfr Hroom Hs [Ht1 Ht2] Hfl Hbase Hdir Hpar Hpick Hfd.
  unfold do_open. rewrite Hs. cbn [or_panic mbind exec_bind].
  rewrite !bool_decide_false by done. cbn [orb].
  assert (Hnone : follow kids (ram ag) 0 (components path) = None).
  { rewrite split_path_components, follow_app, Hdir by done. cbn. by rewrite Hpick. }
  rewrite (resolve_follow kids), components_clean, Hnone by done. cbn [mbind exec_bind fst snd].
  destruct (Z.eqb_spec (Z.land flags 64) 0); [done|]. cbn [negb].
  assert (Hclean : clean (clean path) <> []).
  { intros E. apply Hbase. rewrite <- split_path_clean. unfold split_path. by rewrite E. }
  assert (Hsp : create_file_path 17 (ram ag) (clean path) =
    create_file 17 (ram ag) par (snd (split_path path))).
  { by rewrite (create_file_path_spec kids), split_path_clean, Hdir. }
  rewrite Hsp. pose proof (create_spec kids (ram ag) File par (snd (split_path path)) Hwf Hfr) as Hc.
  cbn [create] in Hc.
  destruct (create_file 17 (ram ag) par (snd (split_path path))) as [[[k|] st']| |]; [| |destruct Hc..].
  - destruct Hc as (_ & _ & Hc). exists k, st'. split; [done|]. cbn [mbind exec_bind fst snd].
    by rewrite Hfd.
  - destruct Hc as [_ [H|[[c H]|H]]].
    + destruct Hpar as (pd & Hp & Ht). by destruct (H pd Hp).
    + congruence.
    + destruct (node_in (ram ag) (NEXT_IDX (ram ag))) as [nd Hn].
      { rewrite (wf_len _ _ Hwf). destruct Hfr. lia. }
      destruct Hfr as [H1 Hfr]. exfalso. apply (H (NEXT_IDX (ram ag)) nd); [lia|done|].
      apply (Hfr (NEXT_IDX (ram ag))); [lia|done].
Qed.

(** *** Reading and writing an open file *)
Definition holds (sess : Session) (rfd : Z) (f : OpenFile) : Prop :=
  at_z (fds sess) rfd = Some (Some f) /\ rfd <> tty_fd.

Lemma do_write_file kids ag i sess rfd f nd bytes :
  wf kids (ram ag) -> at_z (SESSIONS ag) i = Some (Some sess) -> holds sess rfd f ->
  0 <= offset f <= FILE_SIZE -> node (ram ag) (node_idx f) = Some nd -> ntype nd = 1 ->
  (0 < length bytes)%nat -> Z.of_nat (length bytes) < 2 ^ 31 -> offset f < FILE_SIZE ->
  let n := Nat.min (length bytes) (Z.to_nat (FILE_SIZE - offset f)) in
  do_write ag i rfd bytes =
  Ret (Z.of_nat n,
       set_session i (Some (set_fd rfd (Some (mkOpenFile (node_idx f) (offset f + Z.of_nat n))) sess))
         (set_ram (set_at (node_idx f)
           (with_contents (put (Z.to_nat (offset f)) (take n bytes) (data nd))
              (Z.max (size nd) (offset f + Z.of_nat n)) nd) (ram ag)) ag)).
Proof.
  intros Hwf Hs [Hf Ht] Ho Hn Hty Hpos Hb Hlt n. unfold do_write.
  destruct (Z.eqb_spec rfd tty_fd); [done|]. rewrite Hs. cbn [or_panic mbind exec_bind].
  rewrite Hf. cbn [or_panic mbind exec_bind]. rewrite (write_spec kids), Hn, Hty by done.
  cbn [Z.eqb Pos.eqb mbind exec_bind fst snd]. fold n. unfold advance.
  destruct (Z.ltb_spec 0 (Z.of_nat n)); [|lia].
  unfold FILE_SIZE in *. rewrite !u32w_small by (rewrite ?u32w_small; lia). done.
Qed.

Lemma do_read_file kids ag i sess rfd f nd :
  wf kids (ram ag) -> at_z (SESSIONS ag) i = Some (Some sess) -> holds sess rfd f ->
  0 <= offset f -> node (ram ag) (node_idx f) = Some nd -> ntype nd <> 0 ->
  let n := Nat.min 1024 (Z.to_nat (size nd - offset f)) in
  do_read ag i rfd (zeros 1024) =
  Ret (Z.of_nat n, take n (drop (Z.to_nat (offset f)) (data nd)) ++ drop n (zeros 1024),
       if (0 <? n)%nat then
         set_session i (Some (set_fd rfd (Some (mkOpenFile (node_idx f) (offset f + Z.of_nat n))) sess)) ag
       else ag).
Proof.
  intros Hwf Hs [Hf Ht] Ho Hn Hty n. unfold do_read.
  destruct (Z.eqb_spec rfd tty_fd); [done|]. rewrite Hs. cbn [or_panic mbind exec_bind].
  rewrite Hf. cbn [or_panic mbind exec_bind]. rewrite (read_spec kids), Hn by done.
  destruct (Z.eqb_spec (ntype nd) 0); [done|]. change (length (zeros 1024)) with 1024%nat. fold n.
  cbn [mbind exec_bind fst snd]. f_equal. f_equal. unfold advance.
  destruct (Nat.ltb_spec 0 n), (Z.ltb_spec 0 (Z.of_nat n)); try lia; [|done].
  destruct (wf_ok _ _ Hwf _ _ Hn) as [_ _ _ Hsz _]. unfold FILE_SIZE in Hsz.
  by rewrite !u32w_small by (rewrite ?u32w_small; lia).
Qed.

Lemma follow_contents kids st i d s nd p path :
  node st i = Some nd -> follow kids (set_at i (with_contents d s nd) st) p path = follow kids st p path.
Proof.
  intros Hn. assert (Hnamed : forall x c, named (set_at i (with_contents d s nd) st) x c = named st x c).
  { intros x c. unfold named. rewrite (node_set_at _ _ _ _ _ Hn).
    destruct (Z.eqb_spec c i) as [->|]; [|done]. by rewrite Hn. }
  assert (Hpick : forall x cs, pick (set_at i (with_contents d s nd) st) x cs = pick st x cs).
  { intros x cs. induction cs as [|c cs IH]; [done|]. cbn. by rewrite Hnamed, IH. }
  revert p. induction path as [|x path IH]; intros p; [done|]. cbn. rewrite Hpick.
  by destruct (pick st x (kids p)).
Qed.

(** *** A new file written, then read through a second descriptor *)
Section round_trip.
Context (kids : Z -> list Z) (ag : Agent) (h par : Z) (path bytes : list Z) (count : nat).
Hypothesis Hwf : wf kids (ram ag).
Hypothesis Hfresh : fresh (ram ag).
Hypothesis Hroom : NEXT_IDX (ram ag) < 16.
Hypothesis Hidle : idle_slot ag.
Hypothesis Hh : 0 < h.
Hypothesis Hpath : path_ok path.
Hypothesis Htty : not_tty path.
Hypothesis Hbase : snd (split_path path) <> [] /\ (length (snd (split_path path)) <= 63)%nat.
Hypothesis Hdir : follow kids (ram ag) 0 (fst (split_path path)) = Some par.
Hypothesis Hpar : exists pd, node (ram ag) par = Some pd /\ ntype pd = 2.
Hypothesis Hnew : pick (ram ag) (snd (split_path path)) (kids par) = None.
Hypothesis Hbytes : (1 <= length bytes <= 128)%nat.
Hypothesis Hcount : (length bytes <= count)%nat.

(** The session and the file during the exchange. *)
Definition session_with (h' : Z) (o : option OpenFile) : Session := set_fd 0 o (new_session h').

Definition after_write (nd : Node) : Node := with_contents (put 0 bytes (data nd))
  (Z.max (size nd) (Z.of_nat (length bytes))) nd.

Lemma create_phase :
  exists k st1, created kids (ram ag) par (snd (split_path path)) File k st1 /\
    do_open 17 (connected ag h) 0 path (u32w 64) =
    Ret (0, set_session 0 (Some (session_with h (Some (mkOpenFile k 0)))) (set_ram st1 (connected ag h))).
Proof using All.
  destruct Hbase as [Hb1 Hb2].
  apply (do_open_create (connected ag h) 0 (new_session h) kids path (u32w 64) par 0%nat);
    try done. unfold connected. cbn [SESSIONS set_session]. by apply (at_set_z_eq _ _ _ None).
Qed.

Lemma session_slot a s : idle_slot a \/ (exists s', at_z (SESSIONS a) 0 = Some s') ->
  at_z (SESSIONS (set_session 0 s a)) 0 = Some s.
Proof using. intros [H|[s' H]]; by apply (at_set_z_eq _ _ _ _ H). Qed.

Lemma set_session_twice a s s' : set_session 0 s' (set_session 0 s a) = set_session 0 s' a.
Proof using. unfold set_session, set_z. cbn. by rewrite list_insert_insert_eq. Qed.
Lemma session_ag a s : ram (set_session 0 s a) = ram a.
Proof using. done. Qed.

Lemma write_phase k st1 :
  created kids (ram ag) par (snd (split_path path)) File k st1 ->
  exists nd, node st1 k = Some nd /\ ntype nd = 1 /\ size nd = 0 /\ length (data nd) = 4096%nat /\
  do_write (set_session 0 (Some (session_with h (Some (mkOpenFile k 0)))) (set_ram st1 (connected ag h)))
    0 0 bytes =
  Ret (Z.of_nat (length bytes),
       set_session 0 (Some (session_with h (Some (mkOpenFile k (Z.of_nat (length bytes))))))
         (set_ram (set_at k (after_write nd) st1) (connected ag h))).
Proof using All.
  intros Hc. destruct (cr_node _ _ _ _ _ _ _ Hc) as (nd & Hn & _ & Ht & Hs).
  exists nd. split; [done|]. split; [done|]. split; [done|].
  split; [apply (ok_data _ (wf_ok _ _ (cr_wf _ _ _ _ _ _ _ Hc) _ _ Hn))|].
  set (S1 := session_with h (Some (mkOpenFile k 0))).
  set (A1 := set_session 0 (Some S1) (set_ram st1 (connected ag h))).
  pose proof (do_write_file (upd_kids kids par (kids par ++ [k])) A1 0 S1 0 (mkOpenFile k 0) nd bytes)
    as Hw. rewrite Hw; clear Hw.
  - cbn [offset node_idx]. unfold FILE_SIZE. rewrite Nat.min_l by lia.
    rewrite (take_ge bytes), Z.add_0_l by lia. f_equal. f_equal. unfold A1, S1, session_with, set_fd.
    unfold set_session, set_ram, set_z. cbn [fds server_chan ram SESSIONS new_session connected].
    by rewrite !list_insert_insert_eq.
  - apply (cr_wf _ _ _ _ _ _ _ Hc).
  - apply session_slot. right. unfold connected. cbn [set_ram SESSIONS].
    eexists. apply session_slot. by left.
  - split; [|done]. unfold S1, session_with. cbn [fds set_fd]. by apply (at_set_z_eq _ _ _ None).
  - cbn [offset]. unfold FILE_SIZE. lia.
  - done.
  - done.
  - lia.
  - lia.
  - cbn [offset]. unfold FILE_SIZE. lia.
Qed.

(** The service after [close]: as before, but for the tree. *)
Definition closed_agent (st : Ram) : Agent := set_session 0 None (set_ram st ag).

Lemma close_phase st o :
  let A := set_session 0 (Some (session_with h o)) (set_ram st (connected ag h)) in
  exists A', do_close A 0 0 = Ret (0, A') /\ set_session 0 None A' = closed_agent st.
Proof using Hidle.
  intros A. unfold do_close. cbn [Z.eqb tty_fd].
  assert (HA : at_z (SESSIONS A) 0 = Some (Some (session_with h o))).
  { apply session_slot. right. unfold connected. cbn [set_ram SESSIONS].
    eexists. apply session_slot. by left. }
  rewrite HA. cbn [or_panic mbind exec_bind Z.ltb Z.compare MAX_FDS]. eexists. split; [done|].
  rewrite set_session_twice. unfold A, closed_agent. rewrite set_session_twice. unfold connected.
  unfold set_session, set_ram, set_z. cbn. by rewrite list_insert_insert_eq.
Qed.

Lemma reread_phase k st1 nd h' :
  created kids (ram ag) par (snd (split_path path)) File k st1 ->
  node st1 k = Some nd -> ntype nd = 1 -> size nd = 0 -> length (data nd) = 4096%nat ->
  let B := connected (closed_agent (set_at k (after_write nd) st1)) h' in
  let S2 := session_with h' (Some (mkOpenFile k 0)) in
  do_open 17 B 0 path (u32w 0) = Ret (0, set_session 0 (Some S2) B) /\
  exists tail A', length tail = (1024 - length bytes)%nat /\
    do_read (set_session 0 (Some S2) B) 0 0 (zeros 1024) =
      Ret (Z.of_nat (length bytes), bytes ++ tail, A').
Proof using All.
  intros Hc Hn Ht Hs Hd B S2. pose proof (cr_wf _ _ _ _ _ _ _ Hc) as Hwf1.
  set (st2 := set_at k (after_write nd) st1) in *.
  assert (Hwf2 : wf (upd_kids kids par (kids par ++ [k])) st2).
  { apply wf_contents; [done|done|by rewrite length_put|]. unfold FILE_SIZE. lia. }
  assert (HB : at_z (SESSIONS B) 0 = Some (Some (new_session h'))).
  { apply session_slot. right. eexists. apply session_slot. by left. }
  destruct Hbase as [Hb1 Hb2]. split.
  - apply (do_open_existing B 0 (new_session h') (upd_kids kids par (kids par ++ [k])) path _ k 0%nat);
      try done.
    change (ram B) with st2. unfold st2, after_write. rewrite follow_contents by done.
    rewrite split_path_components by done. by apply (follow_new kids (ram ag) par _ File).
  - eexists (drop (length bytes) (zeros 1024)), _. split; [by rewrite length_drop|].
    rewrite (do_read_file (upd_kids kids par (kids par ++ [k])) _ 0 S2 0 (mkOpenFile k 0) (after_write nd)).
    + cbn [offset node_idx after_write size data with_contents]. rewrite Hs.
      replace (Nat.min 1024 _) with (length bytes) by lia. f_equal. f_equal. f_equal.
      rewrite drop_0, put_split by lia. change (Z.to_nat 0) with 0%nat.
      rewrite ?take_0. cbn [app]. by rewrite take_app_length.
    + done.
    + apply session_slot. right. by eexists.
    + split; [|done]. unfold S2, session_with. cbn [fds set_fd]. by apply (at_set_z_eq _ _ _ None).
    + done.
    + apply (node_set_eq _ _ _ _ Hn).
    + cbn [after_write ntype with_contents]. lia.
Qed.
End round_trip.

(** A free descriptor of the program. *)
Lemma free_fd (t : list (option FdEntry)) n :
  length t = 64%nat -> first_free (drop 3 t) = Some n ->
  (3 <= n + 3 < 64)%nat /\ at_z t (Z.of_nat n + 3) = Some None.
Proof.
  intros Hl (Hn & Hlt & _)%first_free_Some. rewrite length_drop in Hlt. split; [lia|].
  unfold at_z. destruct (Z.leb_spec 0 (Z.of_nat n + 3)); [|lia].
  rewrite lookup_drop in Hn. by replace (Z.to_nat (Z.of_nat n + 3)) with (3 + n)%nat by lia.
Qed.

Lemma entry_of_new (t : list (option FdEntry)) n e (w : Sys) :
  length t = 64%nat -> first_free (drop 3 t) = Some n ->
  entry_of (mkLib (set_z (Z.of_nat n + 3) (Some e) t) w) (Z.of_nat n + 3) = Some e.
Proof.
  intros Hl Hn. destruct (free_fd t n Hl Hn) as [Hr Hat]. unfold entry_of.
  destruct (Z.ltb_spec (Z.of_nat n + 3) 0); [lia|]. destruct (Z.leb_spec 64 (Z.of_nat n + 3)); [lia|].
  cbn [orb table]. by rewrite (at_set_z_eq _ _ _ _ Hat).
Qed.

(** ** Theorems *)

(** C30. A program that creates a file through the library (any path whose
    directory exists, new name of at most 63 bytes), writes up to 128 bytes,
    closes it, opens it again and reads gets descriptors from its own table,
    every call succeeds, and the bytes read are the bytes written. *)
Theorem file_round_trip kids ag par h n t path bytes count :
  wf kids (ram ag) -> fresh (ram ag) -> NEXT_IDX (ram ag) < 16 -> idle_slot ag -> 0 < h ->
  path_ok path -> not_tty path ->
  snd (split_path path) <> [] /\ (length (snd (split_path path)) <= 63)%nat ->
  follow kids (ram ag) 0 (fst (split_path path)) = Some par ->
  (exists pd, node (ram ag) par = Some pd /\ ntype pd = 2) ->
  pick (ram ag) (snd (split_path path)) (kids par) = None ->
  (1 <= length bytes <= 128)%nat -> (length bytes <= count)%nat ->
  length t = 64%nat -> first_free (drop 3 t) = Some n ->
  let fd := Z.of_nat n + 3 in
  exists l1 l2 l3 l4 l5,
    open (mkLib t (quiet ag h)) path 64 = Ret (fd, l1) /\
    write l1 fd bytes = Ret (Z.of_nat (length bytes), l2) /\
    close l2 fd = Ret (0, l3) /\ table l3 = t /\
    open l3 path 0 = Ret (fd, l4) /\
    read l4 fd count = Ret (Z.of_nat (length bytes), bytes, l5).
Proof.
  intros Hwf Hfr Hroom Hidle Hh Hp Htty Hbase Hdir Hpar Hnew Hbytes Hcount Hl Hn fd.
  destruct (free_fd t n Hl Hn) as [Hr Hat].
  destruct (create_phase kids ag h par path bytes count) as (k & st1 & Hc & Hopen); [done..|].
  destruct (write_phase kids ag h par path bytes count) with (k := k) (st1 := st1)
    as (nd & Hnd & Hty & Hsz & Hd & Hw); [done..|].
  set (A1 := set_session 0 _ (set_ram st1 _)) in *.
  set (e1 := mkFdEntry (FdFile h 0) 64).
  pose proof (open_spec ag (mkLib t (quiet ag h)) h path 64 0 A1 n eq_refl Hidle ltac:(lia) Hp
    ltac:(lia) Hopen Hn) as H1. fold fd in H1. cbn [table] in H1.
  set (l1 := mkLib _ (driving A1 _ _ _)) in H1.
  pose proof (entry_of_new t n e1 (driving A1 h (h + 1) []) Hl Hn) as He1. fold fd l1 in He1.
  set (A2 := set_session 0 _ (set_ram (set_at _ _ _) _)) in Hw.
  pose proof (write_call_spec A1 l1 fd h (h + 1) 0 64 bytes (Z.of_nat (length bytes)) A2 eq_refl He1 ltac:(lia) Hbytes
    ltac:(lia) Hw) as H2.
  destruct (Z.ltb_spec (Z.of_nat (length bytes)) 0); [lia|].
  destruct (close_phase ag h Hidle (set_at k (after_write bytes nd) st1)
    (Some (mkOpenFile k (Z.of_nat (length bytes))))) as (A3 & Hcl & HA3).
  set (l2 := set_world (driving A2 h (h + 1) []) l1) in H2.
  pose proof (close_spec A2 l2 fd h (h + 1) 0 64 0 A3 eq_refl He1 ltac:(lia) Hcl) as H3.
  rewrite HA3 in H3.
  assert (Ht3 : set_z fd None (table l2) = t).
  { cbn [l2 l1 table set_world]. unfold set_z. rewrite list_insert_insert_eq.
    apply list_insert_id. unfold at_z in Hat. fold fd in Hat. by destruct (0 <=? fd). }
  rewrite Ht3 in H3.
  destruct (reread_phase kids ag h par path bytes count) with (k := k) (st1 := st1) (nd := nd)
    (h' := h + 1) as (Hopen2 & tail & A5 & Htail & Hread); [done..|].
  set (ag4 := closed_agent ag _) in *. set (l3 := mkLib t (quiet ag4 (h + 1))) in H3.
  assert (Hidle4 : idle_slot ag4) by (apply session_slot; by left).
  pose proof (open_spec ag4 l3 (h + 1) path 0 0 _ n eq_refl Hidle4 ltac:(lia) Hp ltac:(lia) Hopen2 Hn)
    as H4. fold fd in H4. cbn [l3 table] in H4. set (l4 := mkLib _ (driving _ _ _ _)) in H4.
  pose proof (entry_of_new t n (mkFdEntry (FdFile (h + 1) 0) 0) (world l4) Hl Hn) as He4.
  eexists l1, l2, l3, l4, _. split; [exact H1|]. split; [exact H2|]. split; [exact H3|].
  split; [done|]. split; [exact H4|].
  pose proof (read_call_spec _ l4 fd (h + 1) (h + 1 + 1) 0 0 (length bytes) (bytes ++ tail) A5 count
    eq_refl He4 ltac:(lia) ltac:(lia) ltac:(lia) ltac:(rewrite length_app; lia) Hread) as H5.
  rewrite H5. rewrite !Nat.min_l by lia. by rewrite take_app_length.
Qed.

Lemma boot_tree_facts sv :
  boot 17 = Ret (Some sv) ->
  resolve 17 (ram (agent sv)) [47; 100; 101; 118] = Ret (Some 1) /\
  find_child 17 (ram (agent sv)) 1 [97] = Ret None /\
  exists nd, node (ram (agent sv)) 1 = Some nd /\ ntype nd = 2.
Proof.
  assert (H : match boot 17 with
    | Ret (Some sv) => bool_decide (resolve 17 (ram (agent sv)) [47; 100; 101; 118] = Ret (Some 1) /\
        find_child 17 (ram (agent sv)) 1 [97] = Ret None /\
        ntype <$> node (ram (agent sv)) 1 = Some 2)
    | _ => false end = true) by (vm_compute; reflexivity).
  intros E. rewrite E in H. clear E. apply bool_decide_eq_true in H as (H1 & H2 & H3).
  split; [exact H1|]. split; [exact H2|]. apply fmap_Some in H3 as (nd & Hn & Ht).
  exists nd. split; [exact Hn|symmetry; exact Ht].
Qed.

Lemma file_round_trip_witness :
  exists sv l1 l2 l3 l4 l5, boot 17 = Ret (Some sv) /\
    open (mkLib USER_FD_TABLE (quiet (agent sv) 5)) [47; 100; 101; 118; 47; 97] 64 = Ret (3, l1) /\
    write l1 3 [7; 8; 9] = Ret (3, l2) /\ close l2 3 = Ret (0, l3) /\ table l3 = USER_FD_TABLE /\
    open l3 [47; 100; 101; 118; 47; 97] 0 = Ret (3, l4) /\ read l4 3 10 = Ret (3, [7; 8; 9], l5).
Proof.
  destruct boot_facts as (sv & Hb & Hok & Hs & Hn & _). exists sv.
  destruct (boot_tree_facts sv Hb) as (H1 & H2 & nd & Hnd & Ht).
  destruct (ag_tree _ Hok) as [[kids Hwf] Hf].
  rewrite (resolve_follow kids) in H1 by exact Hwf. injection H1 as H1.
  rewrite (find_child_spec kids), Hnd in H2 by exact Hwf. injection H2 as H2.
  destruct (file_round_trip kids (agent sv) 1 5 0 USER_FD_TABLE [47; 100; 101; 118; 47; 97] [7; 8; 9] 10)
    as (l1 & l2 & l3 & l4 & l5 & H).
  - exact Hwf.
  - exact Hf.
  - rewrite Hn. reflexivity.
  - unfold idle_slot. rewrite Hs. reflexivity.
  - reflexivity.
  - by apply (bool_decide_unpack _).
  - by apply (bool_decide_unpack _).
  - by apply (bool_decide_unpack _).
  - exact H1.
  - exists nd. split; [exact Hnd|exact Ht].
  - exact H2.
  - cbn. lia.
  - cbn. lia.
  - reflexivity.
  - reflexivity.
  - exists l1, l2, l3, l4, l5. split; [exact Hb|exact H].
Defined.

(** A read through the library returns at most 128 bytes of the file from
    the descriptor's offset on, but moves the offset past everything the
    service read, up to 1024 bytes: what lies between is never delivered by
    reading on. *)
Theorem read_skips_bytes kids ag l fd ch next rfd flags sess f nd count :
  wf kids (ram ag) -> world l = driving ag ch next [] ->
  entry_of l fd = Some (mkFdEntry (FdFile ch rfd) flags) -> 0 <= rfd < 2 ^ 32 ->
  at_z (SESSIONS ag) 0 = Some (Some sess) -> holds sess rfd f -> 0 <= offset f ->
  node (ram ag) (node_idx f) = Some nd -> ntype nd <> 0 -> (0 < count)%nat ->
  let n := Nat.min 1024 (Z.to_nat (size nd - offset f)) in
  let m := Nat.min (Nat.min n count) 128 in
  exists ag', read l fd count =
    Ret (Z.of_nat m, take m (drop (Z.to_nat (offset f)) (data nd)),
         set_world (driving ag' ch next []) l) /\
    ((0 < n)%nat -> exists sess', at_z (SESSIONS ag') 0 = Some (Some sess') /\
       holds sess' rfd (mkOpenFile (node_idx f) (offset f + Z.of_nat n))).
Proof.
  intros Hwf Hw He Hr Hs Hh Ho Hn Ht Hc n m.
  pose proof (do_read_file kids ag 0 sess rfd f nd Hwf Hs Hh Ho Hn Ht) as Hread.
  cbv zeta in Hread. fold n in Hread.
  set (out := take n (drop _ _) ++ drop n (zeros 1024)) in Hread.
  set (ag' := if (0 <? n)%nat then _ else _) in Hread.
  destruct (wf_ok _ _ Hwf _ _ Hn) as [_ _ _ Hsz Hd]. unfold FILE_SIZE in Hsz.
  assert (Htake : length (take n (drop (Z.to_nat (offset f)) (data nd))) = n).
  { rewrite length_take, length_drop, Hd. unfold n. lia. }
  assert (Hout : length out = 1024%nat).
  { unfold out. rewrite length_app, Htake, length_drop. change (length (zeros 1024)) with 1024%nat.
    unfold n. lia. }
  exists ag'. split.
  - rewrite (read_call_spec ag l fd ch next rfd flags n out ag' count) by (done || lia).
    fold m. f_equal. f_equal. f_equal. unfold out.
    rewrite take_app_le by (rewrite Htake; unfold m; lia). rewrite take_take. f_equal. unfold m. lia.
  - intros Hpos. unfold ag'. destruct (Nat.ltb_spec 0 n); [|lia]. eexists. split.
    + cbn [SESSIONS set_session]. by apply (at_set_z_eq _ _ _ _ Hs).
    + destruct Hh as [Hf Htty]. split; [|done]. cbn [fds set_fd]. by apply (at_set_z_eq _ _ _ _ Hf).
Qed.

(** A file of two thousand bytes, open as descriptor 3 of a program. *)
Definition big_file_ram : exec Ram :=
  st ← init ram_static; run_ops st [OpCreate [47; 97]; OpWrite 1 (replicate 2000 7) 0].

Definition big_file_session : Session := session_with 9 (Some (mkOpenFile 1 0)).
Definition big_file_agent (st : Ram) : Agent := mkAgent st [Some big_file_session].
Definition big_file_lib (st : Ram) : Lib Sys :=
  mkLib (set_z 3 (Some (mkFdEntry (FdFile 9 0) 0)) USER_FD_TABLE)
        (driving (big_file_agent st) 9 10 []).

Lemma big_file_facts : exists kids st nd, big_file_ram = Ret st /\ wf kids st /\
  node st 1 = Some nd /\ ntype nd = 1 /\ size nd = 2000.
Proof.
  assert (H : match big_file_ram with
    | Ret st => bool_decide ((fun nd => (ntype nd, size nd)) <$> node st 1 = Some (1, 2000))
    | _ => false end = true) by (vm_compute; reflexivity).
  unfold big_file_ram in *. destruct boot_tree_ok as (st & Hi & Hn & Hok).
  rewrite Hi in H |- *. cbn [mbind exec_bind] in H |- *.
  destruct (run_ops_good st [OpCreate [47; 97]; OpWrite 1 (replicate 2000 7) 0] Hok)
    as (st' & Hrun & ([kids Hwf] & _) & _).
  - apply Forall_cons; split; [exact I|]. apply Forall_cons; split; [|apply Forall_nil; exact I].
    split; [unfold FILE_SIZE; lia|]. rewrite length_replicate. lia.
  - rewrite Hn. vm_compute. discriminate.
  - rewrite Hrun in H |- *. apply bool_decide_eq_true, fmap_Some in H as (nd & Hnd & [= Ht Hs]).
    exists kids, st', nd. split_and!; [reflexivity|exact Hwf|exact Hnd|symmetry; exact Ht|symmetry; exact Hs].
Qed.

Lemma read_skips_bytes_witness :
  exists st nd ag' sess', big_file_ram = Ret st /\ node st 1 = Some nd /\
    read (big_file_lib st) 3 2000 =
      Ret (128, take 128 (drop 0 (data nd)), set_world (driving ag' 9 10 []) (big_file_lib st)) /\
    at_z (SESSIONS ag') 0 = Some (Some sess') /\ holds sess' 0 (mkOpenFile 1 1024).
Proof.
  destruct big_file_facts as (kids & st & nd & Hrun & Hwf & Hn & Ht & Hs).
  destruct (read_skips_bytes kids (big_file_agent st) (big_file_lib st) 3 9 10 0 0 big_file_session
    (mkOpenFile 1 0) nd 2000) as (ag' & Hread & Hoff).
  - exact Hwf.
  - reflexivity.
  - reflexivity.
  - split; [discriminate|reflexivity].
  - reflexivity.
  - split; [reflexivity|discriminate].
  - discriminate.
  - exact Hn.
  - rewrite Ht. discriminate.
  - apply (bool_decide_unpack _). vm_compute. exact I.
  - cbn [offset node_idx] in Hread, Hoff. rewrite Hs in Hread, Hoff.
    destruct (Hoff ltac:(apply (bool_decide_unpack _); vm_compute; exact I)) as (sess' & H1 & H2).
    exists st, nd, ag', sess'. split; [exact Hrun|]. split; [exact Hn|].
    split; [exact Hread|]. split; [exact H1|exact H2].
Defined.

(** Two calls no program should make while it has a file open: writing
    more than 128 bytes at once makes the service panic, and any call that
    names a path (opening a second file included) blocks for ever, because the
    service drives one session at a time. *)
Theorem file_service_hazards ag l fd ch next rfd flags bytes path how cmd :
  world l = driving ag ch next [] -> entry_of l fd = Some (mkFdEntry (FdFile ch rfd) flags) ->
  0 <= rfd < 2 ^ 32 -> 128 < Z.of_nat (length bytes) < 2 ^ 32 ->
  write l fd bytes = Panics /\ open l path how = Running /\
  path_call l cmd path = Running /\ stat l path = Running.
Proof.
  intros Hw He Hr Hb. split; [|split; [|split]].
  - unfold write. rewrite He. cbn [fd_type]. destruct (Nat.eqb_spec (length bytes) 0); [lia|].
    rewrite u32w_small, Hw by lia. rewrite Nat.min_r by lia.
    unfold send_vfs_cmd. cbn [channel_write sys_world]. unfold sys_write, served.
    cbn [service driving active]. rewrite Z.eqb_refl.
    assert (Hlt : (length (take 128 bytes) <= 128)%nat) by (rewrite length_take; lia).
    set (buf := cmd_buf _ _ _ _). unfold serve. cbn [active].
    rewrite take_ge by (unfold buf; rewrite cmd_length by done; lia).
    replace (length buf) with 148%nat by (unfold buf; by rewrite cmd_length). cbn [Nat.eqb].
    destruct (cmd_head VFS_WRITE rfd (Z.of_nat (length bytes)) (take 128 bytes) Hlt) as [r Hr'].
    fold buf in Hr'. unfold handle_cmd. rewrite Hr'. rewrite <- Hr'. unfold dispatch.
    cbn [Z.eqb Pos.eqb VFS_WRITE VFS_OPEN VFS_CLOSE VFS_READ]. unfold buf.
    by rewrite write_data_long by lia.
  - unfold open. cbn [channel_lookup sys_world]. by rewrite Hw.
  - unfold path_call. cbn [channel_lookup sys_world]. by rewrite Hw.
  - unfold stat. cbn [channel_lookup sys_world]. by rewrite Hw.
Qed.

Lemma file_service_hazards_witness :
  write (big_file_lib ram_static) 3 (replicate 129 7) = Panics /\
  open (big_file_lib ram_static) [47; 98] 64 = Running /\
  path_call (big_file_lib ram_static) VFS_MKDIR [47; 98] = Running /\
  stat (big_file_lib ram_static) [47; 98] = Running.
Proof.
  apply (file_service_hazards (big_file_agent ram_static) (big_file_lib ram_static) 3 9 10 0 0
    (replicate 129 7) [47; 98] 64 VFS_MKDIR);
    [reflexivity|reflexivity|split; [discriminate|reflexivity]|split; reflexivity].
Defined.
