(* ===== verification/Std.v ===== *)
(** * Std: the vectors, strings and arguments of libstd

    libraries/libstd/src/vec.rs, string.rs, fmt.rs and env/mod.rs.  A vector
    is an array of 64 cells and a length; a string is a vector of bytes. *)
From Stdlib Require Import ZArith Lia String.
From stdpp Require Import base tactics option list list_numbers.
From S2P Require Import Prelude Shared Bytes RamFs FileAgent Libc.
Local Open Scope Z_scope.

(** ** Vectors *)
Definition VEC_CAP : nat := 64.
Definition CAPACITY_EXCEEDED : string := "Vec: capacity exceeded"%string.

Section vec.
Context {T : Type}.

(** A cell that was never written is [None]. *)
Record Vec := mkVec { vec_buf : list (option T); vec_len : nat }.

Definition vec_new : Vec := mkVec (replicate VEC_CAP None) 0.

Definition push (v : Vec) (value : T) : result string unit * Vec :=
  if (length (vec_buf v) <=? vec_len v)%nat then (Err CAPACITY_EXCEEDED, v)
  else (Ok tt, mkVec (<[vec_len v := Some value]> (vec_buf v)) (S (vec_len v))).

(** [None] outside is a read of a cell that was never written. *)
Definition pop (v : Vec) : option (option T * Vec) :=
  match vec_len v with
  | O => Some (None, v)
  | S n => value ← mjoin (vec_buf v !! n); Some (Some value, mkVec (vec_buf v) n)
  end.

Definition as_slice (v : Vec) : option (list T) := mapM id (take (vec_len v) (vec_buf v)).

(** The contents of a vector. *)
Definition holds (v : Vec) (xs : list T) : Prop :=
  length (vec_buf v) = VEC_CAP /\ vec_len v = length xs /\ (length xs <= VEC_CAP)%nat /\
  take (length xs) (vec_buf v) = map Some xs.

Lemma new_holds : holds vec_new [].
Proof. unfold VEC_CAP. split_and!; try done. cbn [length]. lia. Qed.

Lemma holds_slice v xs : holds v xs -> as_slice v = Some xs.
Proof.
  intros (_ & Hl & _ & Ht). unfold as_slice. rewrite Hl, Ht. apply mapM_Some. clear. by induction xs; constructor.
Qed.

Lemma holds_len v xs : holds v xs -> vec_len v = length xs.
Proof. by intros (_ & H & _). Qed.

Lemma vec_push_ok v xs x : holds v xs -> (length xs < VEC_CAP)%nat -> exists v', push v x = (Ok tt, v') /\ holds v' (xs ++ [x]).
Proof.
  intros (Hc & Hl & Hm & Ht) Hlt. unfold push. rewrite Hc, Hl, (proj2 (Nat.leb_gt _ _)) by lia. eexists. split; [done|].
  split_and!; cbn [vec_buf vec_len]; rewrite ?length_insert, ?length_app; cbn [length]; try lia.
  rewrite Nat.add_1_r, (take_S_r _ _ (Some x)) by (apply list_lookup_insert_eq; lia).
  by rewrite take_insert_ge, Ht, map_app by lia.
Qed.

Lemma push_full v xs x : holds v xs -> length xs = VEC_CAP -> push v x = (Err CAPACITY_EXCEEDED, v).
Proof. intros (Hc & Hl & _) Hn. unfold push. by rewrite Hc, Hl, Hn. Qed.

(** What was pushed last is popped first. *)
Lemma vec_pop_ok v xs x : holds v (xs ++ [x]) -> exists v', pop v = Some (Some x, v') /\ holds v' xs.
Proof.
  intros (Hc & Hl & Hm & Ht). rewrite length_app in Hl, Hm, Ht. cbn [length] in Hl, Hm, Ht. rewrite Nat.add_1_r in Hl, Ht.
  unfold pop. rewrite Hl.
  assert (Hx : vec_buf v !! length xs = Some (Some x)).
  { rewrite <- (lookup_take_lt (vec_buf v) (S (length xs))) by lia. rewrite Ht, map_app, lookup_app_r by (rewrite length_map; lia).
    by rewrite length_map, Nat.sub_diag. }
  rewrite Hx. cbn [mjoin option_join mbind option_bind]. eexists. split; [done|]. split_and!; cbn [vec_buf vec_len]; try done; [lia|].
  rewrite (take_S_r _ _ _ Hx) in Ht. rewrite map_app in Ht. by apply app_inj_tail in Ht as [Ht _].
Qed.

Lemma pop_empty v : holds v [] -> pop v = Some (None, v).
Proof. intros (_ & Hl & _). unfold pop. by rewrite Hl. Qed.
End vec.
Arguments Vec : clear implicits.

(** ** Strings *)
Abbreviation Str := (Vec Z).

(** [for &b in s { let _ = s2.push(b); }]. *)
Fixpoint push_all (v : Str) (s : list Z) : Str :=
  match s with [] => v | b :: s => push_all (snd (push v b)) s end.

Definition from_str (s : list Z) : Str := push_all vec_new s.
Definition from_byte (b : Z) : Str := snd (push vec_new b).

(** Stops at the first byte that does not fit. *)
Fixpoint push_str (v : Str) (s : list Z) : result string unit * Str :=
  match s with
  | [] => (Ok tt, v)
  | b :: s => match push v b with (Ok _, v) => push_str v s | (Err e, v) => (Err e, v) end
  end.

Lemma push_all_holds v xs s : holds v xs -> holds (push_all v s) (take VEC_CAP (xs ++ s)).
Proof.
  revert v xs. induction s as [|b s IH]; intros v xs Hv; cbn [push_all].
  - rewrite app_nil_r, take_ge; [done|]. by destruct Hv as (_ & _ & ? & _).
  - destruct (decide (length xs = VEC_CAP)) as [Hf|Hf].
    + rewrite (push_full v xs b Hv Hf). cbn [snd]. specialize (IH v xs Hv).
      rewrite !take_app_le in * by lia. exact IH.
    + assert (length xs < VEC_CAP)%nat by (destruct Hv as (_ & _ & ? & _); lia).
      destruct (vec_push_ok v xs b Hv) as (v' & -> & Hv'); [done|]. cbn [snd]. rewrite (cons_middle b xs s), app_assoc. by apply IH.
Qed.

Lemma push_str_holds v xs s :
  holds v xs ->
  holds (snd (push_str v s)) (take VEC_CAP (xs ++ s)) /\
  fst (push_str v s) = if (length (xs ++ s) <=? VEC_CAP)%nat then Ok tt else Err CAPACITY_EXCEEDED.
Proof.
  revert v xs. induction s as [|b s IH]; intros v xs Hv; cbn [push_str].
  - assert (length xs <= VEC_CAP)%nat by (by destruct Hv as (_ & _ & ? & _)).
    rewrite app_nil_r, take_ge, (proj2 (Nat.leb_le _ _)) by done. done.
  - destruct (decide (length xs = VEC_CAP)) as [Hf|Hf].
    + rewrite (push_full v xs b Hv Hf). cbn [fst snd]. rewrite take_app_le, take_ge by lia. split; [done|].
      rewrite (proj2 (Nat.leb_gt _ _)); [done|]. rewrite length_app. cbn [length]. lia.
    + assert (length xs < VEC_CAP)%nat by (destruct Hv as (_ & _ & ? & _); lia).
      destruct (vec_push_ok v xs b Hv) as (v' & -> & Hv'); [done|]. rewrite (cons_middle b xs s), app_assoc. by apply IH.
Qed.

(** ** Formatting (fmt.rs)

    [{}] is written as it stands. *)
Definition OPEN_BRACE : Z := 123.
Definition CLOSE_BRACE : Z := 125.

Definition write_byte (v : Str) (b : Z) : result unit unit * Str :=
  match push v b with (Ok _, v) => (Ok tt, v) | (Err _, v) => (Err tt, v) end.

(** [n] rounds left; [s] is what is not yet looked at. *)
Fixpoint format_loop (n : nat) (v : Str) (s : list Z) : result unit unit * Str :=
  match n, s with
  | O, _ | _, [] => (Ok tt, v)
  | S n, b :: s' =>
      match s' with
      | b' :: s'' =>
          if (b =? OPEN_BRACE) && (b' =? CLOSE_BRACE) then
            match write_byte v OPEN_BRACE with
            | (Ok _, v) => match write_byte v CLOSE_BRACE with (Ok _, v) => format_loop n v s'' | r => r end
            | r => r
            end
          else match write_byte v b with (Ok _, v) => format_loop n v s' | r => r end
      | [] => match write_byte v b with (Ok _, v) => format_loop n v s' | r => r end
      end
  end.
Definition format_to (v : Str) (s : list Z) : result unit unit * Str := format_loop (length s) v s.

(** [format!]: the arguments are not looked at; [None] is the panic of
    [unwrap]. *)
Definition format (s : list Z) : option Str :=
  match format_to vec_new s with (Ok _, v) => Some v | (Err _, _) => None end.

(** ** The arguments of a program (env/mod.rs) *)
Record Args := mkArgs { ar_index : Z; ar_count : Z }.

(** [hnx_argc() as usize] *)
Definition args (t : ArgTable) : Args := mkArgs 0 (u64w (HNX_ARGC t)).

Definition next (m : mem) (t : ArgTable) (a : Args) : option Str * Args :=
  if ar_count a <=? ar_index a then (None, a)
  else
    let arg_bytes := hnx_arg m t (ar_index a) in
    let a := mkArgs (u64w (ar_index a + 1)) (ar_count a) in
    match arg_bytes with
    | [] => (None, a)
    | _ => (Some (push_all vec_new arg_bytes), a)
    end.

(** A [for] loop over the arguments. *)
Fixpoint collect (n : nat) (m : mem) (t : ArgTable) (a : Args) : list Str :=
  match n with
  | O => []
  | S n => match next m t a with (None, _) => [] | (Some s, a) => s :: collect n m t a end
  end.

(** [current_dir]: [getcwd] gives a length and the buffer, or an error. *)
Definition current_dir (getcwd : kresult (Z * list Z)) : result unit (option Str) :=
  match getcwd with
  | Ok (len, buf) => Ok (bs ← slice buf 0 (Z.to_nat len); Some (push_all vec_new (until_nul bs)))
  | Err _ => Err tt
  end.

(** ** Claims *)
Lemma write_byte_push v b : write_byte v b = (match fst (push v b) with Ok _ => Ok tt | Err _ => Err tt end, snd (push v b)).
Proof. unfold write_byte. by destruct (push v b) as [[|] ?]. Qed.

(** Formatting writes the text as it stands. *)
Lemma format_loop_push n v s :
  (length s <= n)%nat ->
  format_loop n v s = (match fst (push_str v s) with Ok _ => Ok tt | Err _ => Err tt end, snd (push_str v s)).
Proof.
  revert v s. induction n as [|n IH]; intros v s Hn; [by destruct s; [|cbn in Hn; lia]|].
  destruct s as [|b [|b' s]]; [done| |]; cbn [format_loop push_str]; cbn [length] in Hn.
  - rewrite write_byte_push. destruct (push v b) as [[]  v']; [|done]. cbn [fst snd]. by rewrite IH by (cbn; lia).
  - destruct ((b =? OPEN_BRACE) && (b' =? CLOSE_BRACE)) eqn:E.
    + apply andb_prop in E as [->%Z.eqb_eq ->%Z.eqb_eq]. rewrite write_byte_push.
      destruct (push v OPEN_BRACE) as [[]  v1]; [|done]. cbn [fst snd]. rewrite write_byte_push.
      destruct (push v1 CLOSE_BRACE) as [[]  v2]; [|done]. cbn [fst snd]. by rewrite IH by lia.
    + rewrite write_byte_push. destruct (push v b) as [[]  v']; [|done]. cbn [fst snd]. rewrite IH by (cbn [length]; lia). done.
Qed.

(** [format!] gives its first argument as it stands, or panics beyond 64
    bytes. *)
Lemma format_literal s :
  if (length s <=? VEC_CAP)%nat then exists v, format s = Some v /\ holds v s else format s = None.
Proof.
  unfold format, format_to. rewrite format_loop_push by lia.
  destruct (push_str_holds vec_new [] s new_holds) as [Hh Hr]. cbn [app] in Hh, Hr. rewrite Hr.
  destruct (Nat.leb_spec (length s) VEC_CAP); [|done]. eexists. split; [done|]. by rewrite take_ge in Hh by lia.
Qed.

(** The arguments before the first empty one. *)
Fixpoint until_empty (ls : list (list Z)) : list (list Z) :=
  match ls with [] :: _ | [] => [] | l :: ls => l :: until_empty ls end.

Definition given (m : mem) (t : ArgTable) : list (list Z) := map (hnx_arg m t) (seqZ 0 (HNX_ARGC t)).

Lemma collect_from m t n i count :
  0 <= i -> i + Z.of_nat n = count -> count < 2 ^ 64 ->
  Forall2 holds (collect n m t (mkArgs i count)) (map (take VEC_CAP) (until_empty (map (hnx_arg m t) (seqZ i (Z.of_nat n))))).
Proof.
  revert i. induction n as [|n IH]; intros i Hi Hn Hc; [constructor|].
  rewrite seqZ_cons by lia. replace (Z.pred (Z.of_nat (S n))) with (Z.of_nat n) by lia. cbn [collect map]. unfold next.
  cbn [ar_count ar_index]. destruct (Z.leb_spec count i); [lia|].
  destruct (hnx_arg m t i) as [|b bs] eqn:E; [constructor|]. cbn [until_empty map]. rewrite u64w_small by lia.
  constructor; [exact (push_all_holds vec_new [] (b :: bs) new_holds)|]. apply IH; lia.
Qed.

(** A loop over [std::env::args] sees the arguments the program was
    started with, in order, each cut after 64 bytes, and ends at the first
    empty one or when there are no more. *)
Theorem args_iterate m t :
  0 <= HNX_ARGC t < 2 ^ 31 ->
  Forall2 holds (collect (Z.to_nat (HNX_ARGC t)) m t (args t)) (map (take VEC_CAP) (until_empty (given m t))).
Proof.
  intros Ht. unfold given, args. rewrite u64w_small by lia. rewrite <- (Z2Nat.id (HNX_ARGC t)) at 2 3 by lia. apply collect_from; lia.
Qed.

(** Two arguments around an empty one. *)
Definition std_mem : mem := fun a => if a =? 0x100 then 97 else if a =? 0x101 then 98 else if a =? 0x200 then 99 else 0.
Definition std_args : ArgTable :=
  mkArgTable 3 ([0x100; 0x180; 0x200] ++ replicate 13 0) ([2; 0; 1] ++ replicate 13 0).

Lemma args_iterate_witness : exists v, collect 3 std_mem std_args (args std_args) = [v] /\ as_slice v = Some [97; 98].
Proof.
  pose proof (args_iterate std_mem std_args ltac:(cbn; lia)) as Ha.
  change (map (take VEC_CAP) (until_empty (given std_mem std_args))) with [[97; 98]] in Ha.
  apply Forall2_cons_inv_r in Ha as (v & rest & Hv & Hn & Heq). apply Forall2_nil_inv_r in Hn as ->.
  exists v. split; [exact Heq|by apply holds_slice].
Defined.
