(* ===== verification/Osh.v ===== *)
(** * Osh: the command lines of the shell

    userspace/programs/osh/src/parser.rs.  A line is cut at every [|] into
    stages and a stage at blanks into words, by loops that remember where the
    current piece started.  A [&str] is the list of its characters (Unicode
    scalar values); the pieces are cut at ASCII characters, so an index into
    the bytes always falls between two of them and the model counts
    characters. *)
From Stdlib Require Import ZArith Lia String.
From stdpp Require Import base tactics option list list_numbers.
From S2P Require Import Prelude Bytes.
Local Open Scope Z_scope.

Abbreviation text := (list Z).

(** ** The string functions of the standard library that the parser uses *)

(** [char::is_whitespace]. *)
Definition is_whitespace (c : Z) : bool :=
  ((9 <=? c) && (c <=? 13)) || (c =? 32) || (c =? 133) || (c =? 160) || (c =? 5760)
  || ((8192 <=? c) && (c <=? 8202)) || (c =? 8232) || (c =? 8233) || (c =? 8239)
  || (c =? 8287) || (c =? 12288).

Fixpoint drop_while (p : Z -> bool) (t : text) : text :=
  match t with
  | [] => []
  | c :: t' => if p c then drop_while p t' else t
  end.

Definition trim_end (p : Z -> bool) (t : text) : text := reverse (drop_while p (reverse t)).

(** [str::trim]. *)
Definition trim (t : text) : text := trim_end is_whitespace (drop_while is_whitespace t).

Definition is_empty (t : text) : bool := match t with [] => true | _ => false end.

(** [&t[a..b]] for [a <= b <= t.len()]. *)
Definition sub (t : text) (a b : nat) : text := take (b - a) (drop a t).

(** ** Data *)
Record Command := mkCommand { name : text; args : list text; arg_count : nat }.

Definition Command_empty : Command := mkCommand [] (replicate 16 []) 0.

Record Pipeline := mkPipeline { stages : list Command; stage_count : nat }.

Definition make_empty_pipeline : Pipeline := mkPipeline (replicate 4 Command_empty) 0.

(** ** [split_words] *)

(** The locals of the loop. *)
Record Splitter := mkSplitter {
  sp_name : text;
  sp_args : list text;
  sp_arg_count : nat;
  sp_word_count : nat;
  sp_in_word : bool;
  sp_start : nat
}.

Definition is_blank (c : Z) : bool := (c =? 32) || (c =? 9) || (c =? 13) || (c =? 10).

(** What is done with a word: the first is the name, sixteen more are kept. *)
Definition take_word (w : text) (s : Splitter) : Splitter :=
  if (sp_word_count s =? 0)%nat then
    mkSplitter w (sp_args s) (sp_arg_count s) (sp_word_count s) (sp_in_word s) (sp_start s)
  else if (sp_arg_count s <? 16)%nat then
    mkSplitter (sp_name s) (<[sp_arg_count s := w]> (sp_args s)) (S (sp_arg_count s))
      (sp_word_count s) (sp_in_word s) (sp_start s)
  else s.

Definition end_word (s : Splitter) : Splitter :=
  mkSplitter (sp_name s) (sp_args s) (sp_arg_count s) (S (sp_word_count s)) false (sp_start s).

Definition split_step (t : text) (i : nat) (c : Z) (s : Splitter) : Splitter :=
  if is_blank c then
    if sp_in_word s then end_word (take_word (sub t (sp_start s) i) s) else s
  else if sp_in_word s then s
  else mkSplitter (sp_name s) (sp_args s) (sp_arg_count s) (sp_word_count s) true i.

Fixpoint split_loop (t rest : text) (i : nat) (s : Splitter) : Splitter :=
  match rest with
  | [] => s
  | c :: rest => split_loop t rest (S i) (split_step t i c s)
  end.

Definition split_words (line : text) : option Command :=
  let t := trim line in
  if is_empty t then None
  else
    let s := split_loop t t 0 (mkSplitter [] (replicate 16 []) 0 0 false 0) in
    let s := if sp_in_word s then take_word (sub t (sp_start s) (length t)) s else s in
    if is_empty (sp_name s) then None
    else Some (mkCommand (sp_name s) (sp_args s) (sp_arg_count s)).

(** ** [parse_line] *)
Definition add_stage (seg : text) (p : Pipeline) : Pipeline :=
  if is_empty (trim seg) then p
  else match split_words seg with
       | None => p
       | Some cmd =>
           if (stage_count p <? 4)%nat
           then mkPipeline (<[stage_count p := cmd]> (stages p)) (S (stage_count p))
           else p
       end.

(** The walk over the line: the start of the current stage and the pipeline. *)
Fixpoint stage_loop (t rest : text) (i start : nat) (p : Pipeline) : nat * Pipeline :=
  match rest with
  | [] => (start, p)
  | c :: rest =>
      if c =? 124 then stage_loop t rest (S i) (S i) (add_stage (sub t start i) p)
      else stage_loop t rest (S i) start p
  end.

Definition parse_line (line : text) : option Pipeline :=
  let t := trim line in
  if is_empty t then None
  else
    let (start, p) := stage_loop t t 0 0 make_empty_pipeline in
    let p := add_stage (sub t start (length t)) p in
    if (stage_count p =? 0)%nat then None else Some p.

(** ** Reference: lines as lists of lists of words *)

(** The pieces of a text between the characters that [p] holds of. *)
Fixpoint split_from (p : Z -> bool) (cur t : text) : list text :=
  match t with
  | [] => [cur]
  | c :: t => if p c then cur :: split_from p [] t else split_from p (cur ++ [c]) t
  end.

Definition nonempty (t : text) : bool := negb (is_empty t).

Definition words (t : text) : list text := List.filter nonempty (split_from is_blank [] t).

(** A command of a name and the arguments, sixteen of them at most. *)
Definition command_of (ws : list text) : option Command :=
  match ws with
  | [] => None
  | n :: l =>
      let k := (length l `min` 16)%nat in
      Some (mkCommand n (take 16 l ++ replicate (16 - k) []) k)
  end.

Definition pipeline_of (cmds : list Command) : option Pipeline :=
  match take 4 cmds with
  | [] => None
  | l => Some (mkPipeline (l ++ replicate (4 - length l) Command_empty) (length l))
  end.

Definition is_bar (c : Z) : bool := c =? 124.

(** The stages of a line, each as its words. *)
Definition line_words (line : text) : list (list text) :=
  map (fun seg => words (trim seg)) (split_from is_bar [] (trim line)).

Definition show (o : option Pipeline) : option (list (text * list text)) :=
  (fun p => map (fun c => (name c, take (arg_count c) (args c))) (take (stage_count p) (stages p))) <$> o.

Example parse_pipe :
  show (parse_line (lit "  cat /etc/hostname | grep .  ")) =
  Some [(lit "cat", [lit "/etc/hostname"]); (lit "grep", [lit "."])].
Proof. reflexivity. Qed.
Example parse_or :
  show (parse_line (lit "a || b")) = Some [(lit "a", []); (lit "b", [])].
Proof. reflexivity. Qed.
Example parse_five :
  show (parse_line (lit "a|b|c|d|rm x")) = Some [(lit "a", []); (lit "b", []); (lit "c", []); (lit "d", [])].
Proof. reflexivity. Qed.

(** ** Filling the fixed arrays *)

(** The contents of an array of [k] places after the items [l] were offered. *)
Definition filled {A} (k : nat) (x : A) (l : list A) : list A :=
  take k l ++ replicate (k - length l) x.

Lemma filled_insert {A} k (x y : A) l :
  (length l < k)%nat -> <[length l := y]> (filled k x l) = filled k x (l ++ [y]).
Proof.
  intros Hl. unfold filled. rewrite length_app; cbn [length].
  rewrite (take_ge l), (take_ge (l ++ [y])) by (rewrite ?length_app; cbn; lia).
  rewrite insert_app_r_alt, Nat.sub_diag by lia.
  replace (k - length l)%nat with (S (k - (length l + 1))) by lia. cbn. by rewrite <- app_assoc.
Qed.

Lemma filled_full {A} k (x y : A) l : (k <= length l)%nat -> filled k x (l ++ [y]) = filled k x l.
Proof.
  intros Hl. unfold filled. rewrite length_app; cbn [length].
  rewrite take_app_le by lia. f_equal. f_equal. lia.
Qed.

(** ** The loops against the reference *)
Lemma sub_mid d cur rest : sub (d ++ cur ++ rest) (length d) (length d + length cur) = cur.
Proof.
  unfold sub. rewrite drop_app_length. replace (length d + length cur - length d)%nat with (length cur) by lia.
  apply take_app_length.
Qed.

Lemma sub_end d cur : sub (d ++ cur) (length d) (length (d ++ cur)) = cur.
Proof. rewrite length_app. rewrite <- (app_nil_r cur) at 1. apply sub_mid. Qed.

(** The words seen so far, without the locals that delimit the current one. *)
Definition seen (s : Splitter) : text * list text * nat * nat :=
  (sp_name s, sp_args s, sp_arg_count s, sp_word_count s).

Definition feed (st : text * list text * nat * nat) (w : text) : text * list text * nat * nat :=
  let '(n, a, k, c) := st in
  if (c =? 0)%nat then (w, a, k, S c)
  else if (k <? 16)%nat then (n, <[k := w]> a, S k, S c)
  else (n, a, k, S c).

Lemma seen_end_word w s : seen (end_word (take_word w s)) = feed (seen s) w.
Proof.
  destruct s as [n a k c b i]. unfold feed, seen, take_word, end_word.
  cbn [sp_name sp_args sp_arg_count sp_word_count]. by destruct (c =? 0)%nat, (k <? 16)%nat.
Qed.

(** [w] is what is left of the current word when the text ends. *)
Definition finish (t : text) (s : Splitter) : Splitter :=
  if sp_in_word s then end_word (take_word (sub t (sp_start s) (length t)) s) else s.

Lemma split_loop_words rest : forall d cur s,
  sp_in_word s = nonempty cur -> (cur <> [] -> sp_start s = length d) ->
  let t := d ++ cur ++ rest in
  seen (finish t (split_loop t rest (length d + length cur) s)) =
  foldl feed (seen s) (List.filter nonempty (split_from is_blank cur rest)).
Proof.
  induction rest as [|c rest IH]; intros d cur s Hin Hst; cbn zeta.
  - rewrite app_nil_r. cbn. unfold finish. rewrite Hin.
    destruct cur as [|c cur]; [done|]. cbn -[take_word sub length].
    rewrite Hst by done. rewrite sub_end. apply seen_end_word.
  - cbn [split_loop split_from]. unfold split_step. rewrite Hin.
    destruct (is_blank c).
    + assert (Hsp : d ++ cur ++ c :: rest = (d ++ cur ++ [c]) ++ [] ++ rest)
        by (by rewrite <- !app_assoc).
      assert (Hlen : S (length d + length cur) = (length (d ++ cur ++ [c]) + length (@nil Z))%nat)
        by (rewrite !length_app; cbn; lia).
      destruct cur as [|b cur]; cbn [nonempty is_empty negb List.filter].
      * rewrite Hsp, Hlen. by apply IH.
      * rewrite Hst by done. rewrite sub_mid. rewrite Hsp, Hlen, IH by done.
        cbn [foldl]. by rewrite seen_end_word.
    + assert (Hsp : d ++ cur ++ c :: rest = d ++ (cur ++ [c]) ++ rest) by (by rewrite <- !app_assoc).
      assert (Hlen : S (length d + length cur) = (length d + length (cur ++ [c]))%nat)
        by (rewrite !length_app; cbn; lia).
      assert (Hne : nonempty (cur ++ [c]) = true) by (by destruct cur).
      destruct cur as [|b cur]; cbn [nonempty is_empty negb].
      * rewrite Hsp, Hlen. rewrite IH; [done|done|]. intros _. apply Nat.add_0_r.
      * rewrite Hsp, Hlen. rewrite IH; [done|by rewrite Hne|]. intros _. by apply Hst.
Qed.

Lemma feed_args n l :
  foldl feed ([], replicate 16 [], 0%nat, 0%nat) (n :: l) =
  (n, filled 16 [] l, (length l `min` 16)%nat, S (length l)).
Proof.
  induction l as [|w l IH] using rev_ind; [done|].
  rewrite app_comm_cons, foldl_app, IH. cbn [foldl feed].
  rewrite length_app; cbn [length Nat.eqb]. rewrite (Nat.add_1_r (length l)).
  destruct (Nat.ltb_spec (length l `min` 16) 16).
  - rewrite (Nat.min_l (length l) 16) by lia. rewrite filled_insert by lia.
    by rewrite (Nat.min_l (S (length l))) by lia.
  - rewrite filled_full by lia. by rewrite !Nat.min_r by lia.
Qed.

Lemma words_nonempty t : Forall (fun w => nonempty w = true) (words t).
Proof. apply Forall_forall. intros w [? ?]%list_elem_of_In%List.filter_In. done. Qed.

(** A stage is its words: the first the name, the next sixteen the arguments. *)
Lemma split_words_spec line : split_words line = command_of (words (trim line)).
Proof.
  unfold split_words. pose proof (words_nonempty (trim line)) as Hne. remember (trim line) as t eqn:Ht.
  clear Ht line. destruct t as [|c0 t0]; [done|]. cbn [is_empty].
  set (t := c0 :: t0) in *. set (s0 := mkSplitter _ _ _ _ _ _).
  pose proof (split_loop_words t [] [] s0 eq_refl ltac:(done)) as Hs. cbn [length app Nat.add] in Hs.
  fold (words t) in Hs. cbn zeta in Hs.
  set (s := split_loop t t 0 s0) in *. set (e := if sp_in_word s then _ else _).
  assert (He : exists k, seen (finish t s) = (sp_name e, sp_args e, sp_arg_count e, k)).
  { subst e. unfold finish. destruct (sp_in_word s); by eexists. }
  destruct He as [k He]. rewrite He in Hs.
  destruct (words t) as [|n l].
  - cbn in Hs. injection Hs as -> _ _ _. done.
  - rewrite feed_args in Hs. injection Hs as -> -> -> _.
    apply Forall_cons in Hne as [Hn _]. destruct n as [|x n]; [done|]. cbn [is_empty command_of]. unfold filled.
    by replace (16 - length l `min` 16)%nat with (16 - length l)%nat by lia.
Qed.

Definition push (p : Pipeline) (cmd : Command) : Pipeline :=
  if (stage_count p <? 4)%nat
  then mkPipeline (<[stage_count p := cmd]> (stages p)) (S (stage_count p)) else p.

Lemma add_stage_push seg p :
  add_stage seg p = match command_of (words (trim seg)) with Some cmd => push p cmd | None => p end.
Proof.
  unfold add_stage. rewrite split_words_spec. by destruct (trim seg).
Qed.

Lemma stage_loop_pieces rest : forall d cur p,
  let t := d ++ cur ++ rest in
  let (start, p') := stage_loop t rest (length d + length cur) (length d) p in
  add_stage (sub t start (length t)) p' =
  foldl (fun p seg => add_stage seg p) p (split_from is_bar cur rest).
Proof.
  induction rest as [|c rest IH]; intros d cur p; cbn zeta.
  - rewrite app_nil_r. cbn [stage_loop split_from foldl]. by rewrite sub_end.
  - cbn [stage_loop split_from]. unfold is_bar at 1. destruct (c =? 124).
    + specialize (IH (d ++ cur ++ [c]) [] (add_stage cur p)).
      rewrite sub_mid. cbn [foldl]. rewrite <- !app_assoc in IH. cbn [app] in IH.
      rewrite !length_app in IH. cbn [length] in IH.
      rewrite Nat.add_0_r, Nat.add_assoc, Nat.add_1_r in IH. by rewrite !length_app.
    + specialize (IH d (cur ++ [c]) p). rewrite <- !app_assoc in IH. cbn [app] in IH.
      rewrite (length_app cur) in IH. cbn [length] in IH.
      rewrite Nat.add_assoc, Nat.add_1_r in IH. exact IH.
Qed.

Lemma push_all cmds :
  foldl push make_empty_pipeline cmds = mkPipeline (filled 4 Command_empty cmds) (length cmds `min` 4).
Proof.
  induction cmds as [|c cmds IH] using rev_ind; [done|].
  rewrite foldl_app, IH. cbn [foldl]. unfold push. cbn [stage_count stages].
  rewrite length_app; cbn [length]. rewrite (Nat.add_1_r (length cmds)).
  destruct (Nat.ltb_spec (length cmds `min` 4) 4).
  - rewrite (Nat.min_l (length cmds)), filled_insert by lia. by rewrite Nat.min_l by lia.
  - rewrite filled_full by lia. by rewrite !Nat.min_r by lia.
Qed.

Lemma pipeline_of_pushed cmds :
  pipeline_of cmds =
  let p := foldl push make_empty_pipeline cmds in if (stage_count p =? 0)%nat then None else Some p.
Proof.
  cbn zeta. rewrite push_all. unfold pipeline_of, filled. destruct cmds as [|c cmds]; [done|].
  cbn [stage_count]. destruct (take 4 (c :: cmds)) as [|b l] eqn:E; [done|].
  assert (Hl : length (b :: l) = (length (c :: cmds) `min` 4)%nat)
    by (rewrite <- E, length_take; lia).
  rewrite Hl. cbn [length] in Hl |- *. rewrite <- Hl at 3. cbn [Nat.eqb]. do 4 f_equal. lia.
Qed.

Lemma parse_line_pieces line : parse_line line = pipeline_of (omap command_of (line_words line)).
Proof.
  unfold parse_line, line_words. destruct (trim line) as [|c0 t0] eqn:E; [done|].
  cbn [is_empty]. set (t := c0 :: t0).
  pose proof (stage_loop_pieces t [] [] make_empty_pipeline) as H. cbn [length app Nat.add] in H.
  cbn zeta in H. destruct (stage_loop t t 0 0 make_empty_pipeline) as [start p]. rewrite H.
  rewrite pipeline_of_pushed. cbn zeta.
  assert (Hf : forall segs p0, foldl (fun p seg => add_stage seg p) p0 segs =
            foldl push p0 (omap command_of (map (fun seg => words (trim seg)) segs))).
  { induction segs as [|seg segs IH]; intros p0; [done|]. cbn [foldl map].
    rewrite IH, add_stage_push. cbn. by destruct (command_of (words (trim seg))). }
  by rewrite Hf.
Qed.

(** C24. The parser gives what the line means: the stages are the pieces of the
    trimmed line between bars that have a word, the first four of them; the
    words of a stage are its pieces between blanks, the first the name and the
    next sixteen the arguments; a line without a word gives nothing.  What is
    over four stages or sixteen arguments is dropped without a word. *)
Theorem parse_line_spec line : parse_line line = pipeline_of (omap command_of (line_words line)).
Proof. apply parse_line_pieces. Qed.
(** ** Lines that are written out *)
Fixpoint join (sep : text) (l : list text) : text :=
  match l with
  | [] => []
  | [t] => t
  | t :: l => t ++ sep ++ join sep l
  end.

Definition render_stage (c : text * list text) : text := join [32] (c.1 :: c.2).
Definition render (l : list (text * list text)) : text := join [32; 124; 32] (map render_stage l).

(** A character that a word can have. *)
Definition word_char (c : Z) : bool := negb (is_whitespace c) && negb (is_bar c).

Record word_ok (w : text) : Prop := {
  wo_nonempty : w <> [];
  wo_chars : forall c, c ∈ w -> word_char c = true
}.

Record stage_ok (c : text * list text) : Prop := {
  so_words : Forall word_ok (c.1 :: c.2);
  so_args : (length c.2 <= 16)%nat
}.

(** A text that [trim] leaves alone. *)
Definition tight (t : text) : Prop :=
  exists a b, head t = Some a /\ last t = Some b /\ is_whitespace a = false /\ is_whitespace b = false.

Lemma drop_while_all p s t : Forall (fun c => p c = true) s -> drop_while p (s ++ t) = drop_while p t.
Proof. induction 1 as [|c s Hc _ IH]; [done|]. cbn. by rewrite Hc. Qed.

Lemma drop_while_head p t a : head t = Some a -> p a = false -> drop_while p t = t.
Proof. destruct t as [|c t]; [done|]. intros [= ->] Ha. cbn. by rewrite Ha. Qed.

Lemma trim_around s1 t s2 :
  Forall (fun c => is_whitespace c = true) s1 -> Forall (fun c => is_whitespace c = true) s2 ->
  tight t -> trim (s1 ++ t ++ s2) = t.
Proof.
  intros H1 H2 (a & b & Ha & Hb & Hwa & Hwb). unfold trim, trim_end.
  rewrite drop_while_all by done.
  rewrite (drop_while_head _ (t ++ s2) a) by (by destruct t).
  rewrite reverse_app, drop_while_all by (by apply Forall_reverse).
  rewrite (drop_while_head _ (reverse t) b); [apply reverse_involutive|by rewrite head_reverse|done].
Qed.

Lemma trim_tight t : tight t -> trim t = t.
Proof. intros H. rewrite <- (trim_around [] t []) at 2; [by rewrite app_nil_r|constructor..|done]. Qed.

Lemma join_cons sep t l : l <> [] -> join sep (t :: l) = t ++ sep ++ join sep l.
Proof. by destruct l. Qed.

Lemma join_tight sep l : l <> [] -> Forall tight l -> tight (join sep l).
Proof.
  intros Hne Hl. induction Hl as [|t l Ht Hl IH]; [done|]. destruct l as [|t' l]; [done|].
  rewrite join_cons by done. destruct Ht as (a & _ & Ha & _ & Hwa & _).
  destruct (IH ltac:(done)) as (_ & b & _ & Hb & _ & Hwb). exists a, b. split_and!; [|..|done].
  - by destruct t.
  - by rewrite !last_app, Hb.
  - done.
Qed.

Lemma word_not_white w c : word_ok w -> c ∈ w -> is_whitespace c = false.
Proof. intros Hw Hc. apply (wo_chars _ Hw), andb_true_iff in Hc as [Hc _]. by destruct (is_whitespace c). Qed.

Lemma word_not_bar w c : word_ok w -> c ∈ w -> is_bar c = false.
Proof. intros Hw Hc. apply (wo_chars _ Hw), andb_true_iff in Hc as [_ Hc]. by destruct (is_bar c). Qed.

Lemma blank_white c : is_blank c = true -> is_whitespace c = true.
Proof.
  unfold is_blank. rewrite !orb_true_iff, !Z.eqb_eq. intros [[[-> | ->] | ->] | ->]; done.
Qed.

Lemma word_tight w : word_ok w -> tight w.
Proof.
  intros Hw. pose proof (wo_nonempty _ Hw) as Hne. destruct w as [|c w]; [done|].
  destruct (last (c :: w)) as [b|] eqn:Hb; [|by apply last_None in Hb].
  exists c, b. split_and!; [done|done|..]; apply (word_not_white _ _ Hw); [left|].
  by apply last_Some_elem_of in Hb.
Qed.

(** Pieces. *)
Lemma split_none p t : (forall c, c ∈ t -> p c = false) -> forall cur, split_from p cur t = [cur ++ t].
Proof.
  induction t as [|c t IH]; intros Ht cur; cbn; [by rewrite app_nil_r|].
  rewrite (Ht c) by left. rewrite IH by (intros; apply Ht; by right). by rewrite <- app_assoc.
Qed.

Lemma split_at p t c r :
  (forall c, c ∈ t -> p c = false) -> p c = true ->
  forall cur, split_from p cur (t ++ c :: r) = (cur ++ t) :: split_from p [] r.
Proof.
  intros Ht Hc. induction t as [|d t IH]; intros cur; cbn; [by rewrite Hc, app_nil_r|].
  rewrite (Ht d) by left. rewrite IH by (intros; apply Ht; by right). by rewrite <- app_assoc.
Qed.

Lemma words_join ws : ws <> [] -> Forall word_ok ws -> words (join [32] ws) = ws.
Proof.
  intros Hne Hws. unfold words. induction Hws as [|w ws Hw Hws IH]; [done|].
  assert (Hb : forall c, c ∈ w -> is_blank c = false).
  { intros c Hc. destruct (is_blank c) eqn:E; [|done]. apply blank_white in E.
    by rewrite (word_not_white w c) in E. }
  assert (Hn : nonempty w = true) by (by pose proof (wo_nonempty _ Hw); destruct w).
  destruct ws as [|w' ws].
  - cbn [join]. rewrite split_none by done. cbn. by rewrite Hn.
  - rewrite join_cons by done. cbn [app]. rewrite split_at by done. cbn [app List.filter].
    rewrite Hn. f_equal. by apply IH.
Qed.

Lemma render_stage_bar c x : stage_ok c -> x ∈ render_stage c -> is_bar x = false.
Proof.
  intros [Hws _]. unfold render_stage. induction Hws as [|w ws Hw Hws IH]; [by intros ?%not_elem_of_nil|].
  destruct ws as [|w' ws]; [by apply word_not_bar|]. rewrite join_cons by done.
  rewrite !elem_of_app. intros [H|[H|H]]; [by apply (word_not_bar w)|..|by apply IH].
  by apply list_elem_of_singleton in H as ->.
Qed.

Lemma render_stage_tight c : stage_ok c -> tight (render_stage c).
Proof.
  intros [Hws _]. apply join_tight; [done|]. apply (Forall_impl _ _ _ Hws), word_tight.
Qed.

Lemma render_stages l : Forall stage_ok l -> l <> [] -> forall cur,
  Forall (fun c => is_whitespace c = true) cur ->
  map trim (split_from is_bar cur (render l)) = map render_stage l.
Proof.
  unfold render. induction 1 as [|c l Hc Hl IH]; intros Hne cur Hcur; [done|].
  pose proof (render_stage_tight _ Hc) as Ht. pose proof (render_stage_bar c) as Hb.
  destruct l as [|c' l]; cbn [map].
  - cbn [join]. rewrite split_none by eauto. cbn [map]. f_equal.
    rewrite <- (app_nil_r (render_stage c)) at 1. by apply trim_around.
  - cbn [map] in IH. rewrite join_cons by done.
    change ([32; 124; 32] ++ ?t) with ([32] ++ 124 :: 32 :: t). rewrite app_assoc.
    rewrite split_at; [|intros x [H| ->%list_elem_of_singleton]%elem_of_app; eauto|done].
    cbn [map]. f_equal.
    + apply trim_around; [done|by repeat constructor|done].
    + cbn [split_from]. change (is_bar 32) with false. cbn iota. apply IH; [done|by repeat constructor].
Qed.

Lemma line_words_render l :
  l <> [] -> Forall stage_ok l -> line_words (render l) = map (fun c => c.1 :: c.2) l.
Proof.
  intros Hne Hl. unfold line_words. rewrite trim_tight.
  - rewrite <- (map_map trim words), render_stages by done. rewrite map_map.
    apply map_ext_in. intros c Hc. apply list_elem_of_In in Hc.
    apply words_join; [done|]. by apply so_words, (proj1 (Forall_forall _ _) Hl).
  - apply join_tight; [by destruct l|]. apply Forall_fmap. apply (Forall_impl _ _ _ Hl), render_stage_tight.
Qed.

(** The command of a name and at most sixteen arguments. *)
Definition command_with (c : text * list text) : Command :=
  mkCommand c.1 (filled 16 [] c.2) (length c.2).

Lemma command_of_words c : (length c.2 <= 16)%nat -> command_of (c.1 :: c.2) = Some (command_with c).
Proof.
  intros H. unfold command_of, command_with, filled. by rewrite Nat.min_l by done.
Qed.

Lemma pipeline_show l :
  l <> [] -> (length l <= 4)%nat -> Forall stage_ok l ->
  show (pipeline_of (map command_with l)) = Some l.
Proof.
  intros Hne H4 Hl. unfold pipeline_of. rewrite take_ge by (by rewrite length_map).
  destruct (map command_with l) as [|c0 cs] eqn:E; [by destruct l|]. cbv iota. rewrite <- E.
  unfold show. cbn [fmap option_fmap option_map stage_count stages]. rewrite take_app_length. f_equal. rewrite map_map.
  transitivity (map (fun c => c) l); [|apply map_id]. apply map_ext_in. intros [n a] Hc. apply list_elem_of_In in Hc.
  apply (proj1 (Forall_forall _ _) Hl) in Hc. pose proof (so_args _ Hc) as Ha. cbn in Ha |- *.
  unfold filled. by rewrite (take_ge a), take_app_length by done.
Qed.

(** A line that is written out parses to its commands. *)
Lemma parse_line_render l : l <> [] -> Forall stage_ok l -> parse_line (render l) = pipeline_of (map command_with l).
Proof.
  intros Hne Hl. rewrite parse_line_pieces, line_words_render by done. f_equal.
  clear Hne. induction Hl as [|c l Hc Hl IH]; [done|]. cbn [map]. rewrite <- IH.
  cbn [omap list_omap]. by rewrite (command_of_words c) by apply Hc.
Qed.

(** What is typed is what is run: a pipeline of one to four commands of at
    most sixteen arguments each, written out with spaces between the words and
    bars between the commands, is read back as exactly these commands. *)
Theorem parse_render l :
  l <> [] -> (length l <= 4)%nat -> Forall stage_ok l -> show (parse_line (render l)) = Some l.
Proof.
  intros Hne H4 Hl. rewrite parse_line_render by done. by apply pipeline_show.
Qed.

Lemma parse_render_witness :
  show (parse_line (render [(lit "cat", [lit "/etc/hostname"]); (lit "grep", [lit "-v"; lit "x"])])) =
  Some [(lit "cat", [lit "/etc/hostname"]); (lit "grep", [lit "-v"; lit "x"])].
Proof.
  apply parse_render; [done|cbn; lia|].
  repeat constructor; cbn; try lia; try done;
    intros c Hc; repeat (apply elem_of_cons in Hc as [->|Hc]; [done|]); by apply not_elem_of_nil in Hc.
Defined.
