(* ===== verification/Shell.v ===== *)
(** * Shell: running command lines

    userspace/programs/osh/src/shell.rs and builtins/: what the shell does
    with a line, a script, and the lines it reads.  The operations of
    env/mod.rs are the class [Environment]; strings are texts (Osh.v), also
    where they are written out as bytes. *)
From Stdlib Require Import ZArith Lia String.
From stdpp Require Import base tactics option list list_numbers.
From S2P Require Import Prelude Bytes Osh Libc.
Local Open Scope Z_scope.

Inductive ShellError := IoError | PathNotFound | PermissionDenied | Unknown.

(** [getcwd] gives the length and the buffer, [read_line] and [read_file]
    what they put into a buffer of the given size. *)
Class Environment (W : Type) := {
  write_stdout : text -> W -> W;
  write_stderr : text -> W -> W;
  read_line : nat -> W -> result ShellError (list Z) * W;
  env_getcwd : nat -> W -> result ShellError (nat * text) * W;
  env_chdir : text -> W -> result ShellError unit * W;
  set_env : text -> text -> W -> result ShellError unit * W;
  print_envs : W -> W;
  env_spawn : text -> list text -> W -> result ShellError Z * W;
  env_wait : Z -> W -> result ShellError Z * W;
  env_yield : W -> W;
  env_open : text -> Z -> W -> result ShellError Z * W;
  env_write : Z -> text -> W -> result ShellError nat * W;
  env_close : Z -> W -> W;
  read_file : text -> nat -> W -> result ShellError (list Z) * W
}.

(** Why a program stops before its end. *)
Inductive stop := Exited (code : Z) | Panicked.

(** [core::str::from_utf8] on valid bytes. *)
Fixpoint utf8_decode (bs : list Z) : text :=
  match bs with
  | [] => []
  | a :: r =>
      if a <=? 127 then a :: utf8_decode r
      else if a <=? 223 then
        match r with b :: r => (a - 192) * 64 + (b - 128) :: utf8_decode r | _ => [] end
      else if a <=? 239 then
        match r with b :: c :: r => ((a - 224) * 64 + (b - 128)) * 64 + (c - 128) :: utf8_decode r | _ => [] end
      else
        match r with
        | b :: c :: d :: r => (((a - 240) * 64 + (b - 128)) * 64 + (c - 128)) * 64 + (d - 128) :: utf8_decode r
        | _ => []
        end
  end.

Section shell.
Context {W : Type} `{!Environment W}.

Definition SM (A : Type) : Type := W -> result stop A * W.
#[export] Instance sm_ret : MRet SM := fun A a w => (Ok a, w).
#[export] Instance sm_bind : MBind SM := fun A B f x w =>
  match x w with
  | (Ok a, w') => f a w'
  | (Err e, w') => (Err e, w')
  end.

Definition do_ (f : W -> W) : SM unit := fun w => (Ok tt, f w).
Definition call {A} (f : W -> result ShellError A * W) : SM (result ShellError A) := fun w =>
  let '(r, w') := f w in (Ok r, w').
Definition exit (code : Z) : SM unit := fun w => (Err (Exited code), w).
Definition panic {A} : SM A := fun w => (Err Panicked, w).

Definition out (s : string) : SM unit := do_ (write_stdout (lit s)).
Definition err (s : string) : SM unit := do_ (write_stderr (lit s)).
Definition newline : text := [10].

(** A message that is written with its line end in one call. *)
Definition outln (s : string) : SM unit := do_ (write_stdout (lit s ++ newline)).
Definition errln (s : string) : SM unit := do_ (write_stderr (lit s ++ newline)).

(** [&cmd.args[..cmd.arg_count]] *)
Definition stage_args (cmd : Command) : list text := take (arg_count cmd) (args cmd).

(** ** The builtins *)
Definition run_cd (cmd : Command) : SM unit :=
  if (0 <? arg_count cmd)%nat then
    let target_path := nth 0 (args cmd) [] in
    r ← call (env_chdir target_path);
    match r with
    | Ok _ => mret tt
    | Err PathNotFound => err "Error: Path not found: ";; do_ (write_stderr target_path);; do_ (write_stderr newline)
    | Err PermissionDenied => errln "Error: Permission denied"
    | Err _ => errln "Error: Failed to change directory"
    end
  else errln "Error: cd requires a path argument".

Definition run_pwd : SM unit :=
  r ← call (env_getcwd 512);
  match r with
  | Ok (len, buf) =>
      match slice buf 0 len with
      | Some bs => do_ (write_stdout bs);; do_ (write_stdout newline)
      | None => panic
      end
  | Err _ => errln "Error: Failed to get current directory"
  end.

(** [i] arguments are written. *)
Fixpoint echo_args (i : nat) (l : list text) : SM unit :=
  match l with
  | [] => mret tt
  | a :: l => (if (0 <? i)%nat then out " " else mret tt);; do_ (write_stdout a);; echo_args (S i) l
  end.
Definition run_echo (cmd : Command) : SM unit := echo_args 0 (stage_args cmd);; do_ (write_stdout newline).

(** [find('=')]: the text before and behind the first one. *)
Fixpoint split_eq (t : text) : option (text * text) :=
  match t with
  | [] => None
  | c :: t => if c =? 61 then Some ([], t) else '(k, v) ← split_eq t; Some (c :: k, v)
  end.

Definition run_export (cmd : Command) : SM unit :=
  if (arg_count cmd =? 0)%nat then errln "Error: export requires an argument like KEY=VALUE"
  else
    match split_eq (nth 0 (args cmd) []) with
    | Some (key, val) =>
        if is_empty key then errln "Error: Invalid export key"
        else call (set_env key val);; mret tt
    | None => errln "Error: Invalid export format, use KEY=VALUE"
    end.

Definition shell_builtins : list text := map lit ["cd"; "pwd"; "exit"; "help"; "echo"; "export"; "env"; "type"]%string.

Definition run_type (cmd : Command) : SM unit :=
  if (arg_count cmd =? 0)%nat then errln "Error: type requires an argument"
  else
    let target := nth 0 (args cmd) [] in
    do_ (write_stdout target);;
    if bool_decide (target ∈ shell_builtins) then outln " is a shell builtin" else outln " not found as a builtin".

Definition help_lines : list string :=
  ["osh - Capsule OS Shell"; "Built-in commands:"; "  cd <path>       Change current working directory";
   "  pwd             Print current working directory"; "  echo [args]     Print messages to standard output";
   "  export K=V      Set an environment variable"; "  env             Print all environment variables";
   "  type <cmd>      Describe a command type"; "  exit            Exit the shell"; "  help            Show this help message"]%string.

Definition run_help : SM unit := foldr (fun l k => outln l;; k) (mret tt) help_lines.

Definition run_exit : SM unit := outln "Goodbye!";; exit 0.

(** The escape sequence that clears the screen. *)
Definition CLEAR : text := [27; 91; 50; 74; 27; 91; 72].

Definition builtin (name : text) : option (Command -> SM unit) :=
  if bool_decide (name = lit "cd") then Some run_cd
  else if bool_decide (name = lit "pwd") then Some (fun _ => run_pwd)
  else if bool_decide (name = lit "echo") then Some run_echo
  else if bool_decide (name = lit "export") then Some run_export
  else if bool_decide (name = lit "env") then Some (fun _ => do_ print_envs)
  else if bool_decide (name = lit "type") then Some run_type
  else if bool_decide (name = lit "help") then Some (fun _ => run_help)
  else if bool_decide (name = lit "exit") then Some (fun _ => run_exit)
  else if bool_decide (name = lit "clear") then Some (fun _ => do_ (write_stdout CLEAR))
  else None.

Definition execute_builtin (cmd : Command) : SM bool :=
  match builtin (name cmd) with
  | Some run => run cmd;; mret true
  | None => mret false
  end.

(** ** Lines *)
Definition format_u32 (v : Z) : text := let '(buf, n) := format_u32_into v (replicate 16 0) in take n buf.

(** [for i in 0..p.stage_count]; a stage that cannot be spawned ends the
    pipeline before the processor is given away. *)
Fixpoint run_stages (i : nat) (l : list Command) : SM bool :=
  match l with
  | [] => mret true
  | cmd :: l =>
      r ← call (env_spawn (name cmd) (stage_args cmd));
      match r with
      | Ok _ =>
          err "osh: pipe stage ";; do_ (write_stderr (format_u32 (Z.of_nat i)));; err " -> ";;
          do_ (write_stderr (name cmd));; do_ (write_stderr newline);; run_stages (S i) l
      | Err _ => err "osh: spawn failed: ";; do_ (write_stderr (name cmd));; do_ (write_stderr newline);; mret false
      end
  end.

Definition run_pipeline (p : Pipeline) : SM unit :=
  all ← run_stages 0 (take (stage_count p) (stages p));
  if (all : bool) then do_ env_yield else mret tt.

Definition run_single (cmd : Command) : SM unit :=
  done ← execute_builtin cmd;
  if (done : bool) then mret tt
  else
    r ← call (env_spawn (name cmd) (stage_args cmd));
    match r with
    | Ok pid => call (env_wait pid);; mret tt
    | Err _ => err "osh: command not found: ";; do_ (write_stderr (name cmd));; do_ (write_stderr newline)
    end.

Definition execute_pipeline (line : text) : SM unit :=
  let trimmed := trim_end (fun c => (c =? 13) || (c =? 10)) line in
  if is_empty trimmed || bool_decide (head trimmed = Some 35) then mret tt
  else
    match parse_line trimmed with
    | None => mret tt
    | Some p =>
        if (stage_count p =? 0)%nat then mret tt
        else if (stage_count p =? 1)%nat then run_single (nth 0 (stages p) Command_empty)
        else run_pipeline p
    end.

(** ** The interactive loop and scripts *)

(** A round of the loop of [run_shell]. *)
Definition shell_round : SM unit :=
  out "osh$ ";;
  r ← call (read_line 256);
  match r with
  | Ok bytes =>
      if (length bytes =? 0)%nat then mret tt
      else if utf8_valid bytes then execute_pipeline (utf8_decode bytes)
      else errln "Error: Invalid UTF-8 input"
  | Err _ => mret tt
  end.

Fixpoint shell_rounds (n : nat) : SM unit :=
  match n with O => mret tt | S n => shell_round;; shell_rounds n end.

(** The first [n] rounds; the terminal is closed when its [File] is dropped. *)
Definition run_shell (n : nat) : SM unit :=
  tty ← call (env_open (lit "/dev/tty") 0);
  match tty with Ok fd => call (env_write fd CLEAR);; do_ (env_close fd) | Err _ => mret tt end;;
  shell_rounds n.

(** [for i in 0..bytes.len()]: the line that ends at each line feed is run;
    the result is where the next one starts. *)
Fixpoint script_loop (script rest : text) (i start : nat) : SM nat :=
  match rest with
  | [] => mret start
  | c :: rest =>
      if c =? 10 then execute_pipeline (sub script start i);; script_loop script rest (S i) (S i)
      else script_loop script rest (S i) start
  end.

Definition run_script (path : text) : SM unit :=
  r ← call (read_file path 4096);
  match r with
  | Ok bytes =>
      if utf8_valid bytes then
        let script := utf8_decode bytes in
        start ← script_loop script script 0 0;
        let tail := drop start script in
        if is_empty tail then mret tt else execute_pipeline tail
      else errln "Error: Script file contains invalid UTF-8"
  | Err _ => err "osh: cannot open script: ";; do_ (write_stderr path);; do_ (write_stderr newline)
  end.
(** ** What a line does *)

(** The stages of a pipeline by name and arguments. *)
Fixpoint spawn_stages (i : nat) (l : list (text * list text)) : SM bool :=
  match l with
  | [] => mret true
  | c :: l =>
      r ← call (env_spawn c.1 c.2);
      match r with
      | Ok _ =>
          err "osh: pipe stage ";; do_ (write_stderr (format_u32 (Z.of_nat i)));; err " -> ";;
          do_ (write_stderr c.1);; do_ (write_stderr newline);; spawn_stages (S i) l
      | Err _ => err "osh: spawn failed: ";; do_ (write_stderr c.1);; do_ (write_stderr newline);; mret false
      end
  end.

(** A program that is started and waited for. *)
Definition spawn_and_wait (c : text * list text) : SM unit :=
  r ← call (env_spawn c.1 c.2);
  match r with
  | Ok pid => call (env_wait pid);; mret tt
  | Err _ => err "osh: command not found: ";; do_ (write_stderr c.1);; do_ (write_stderr newline)
  end.

Definition run_commands (l : list (text * list text)) : SM unit :=
  match l with
  | [c] => match builtin c.1 with Some run => run (command_with c) | None => spawn_and_wait c end
  | _ => all ← spawn_stages 0 l; if (all : bool) then do_ env_yield else mret tt
  end.

Lemma stage_args_with c : (length c.2 <= 16)%nat -> stage_args (command_with c) = c.2.
Proof.
  intros Hc. unfold stage_args, command_with, filled. cbn [args arg_count]. rewrite (take_ge c.2) by done. apply take_app_length.
Qed.

Lemma sm_bind_ext {A B} (x : SM A) (f g : A -> SM B) w : (forall a w, f a w = g a w) -> (x ≫= f) w = (x ≫= g) w.
Proof. intros H. unfold mbind, sm_bind. by destruct (x w) as [[a|] w']. Qed.

Lemma run_stages_eq l i w : Forall stage_ok l -> run_stages i (map command_with l) w = spawn_stages i l w.
Proof.
  intros Hl. revert i w. induction Hl as [|c l Hc Hl IH]; intros i w; [done|]. cbn [map run_stages spawn_stages].
  rewrite (stage_args_with c) by apply Hc. cbn [command_with name]. apply sm_bind_ext. intros [pid|e] w1; [|done].
  do 5 (apply sm_bind_ext; intros [] ?). apply IH.
Qed.

Lemma single_eq c w : stage_ok c -> run_single (command_with c) w = run_commands [c] w.
Proof.
  intros Hc. unfold run_single, run_commands, execute_builtin. cbn [command_with name].
  destruct (builtin c.1) as [run|].
  - unfold mbind, sm_bind. fold (command_with c). by destruct (run (command_with c) w) as [[[]|] w'].
  - fold (command_with c). rewrite (stage_args_with c) by apply Hc. done.
Qed.

Lemma trim_newlines t : tight t -> trim_end (fun c => (c =? 13) || (c =? 10)) t = t.
Proof.
  intros (a & b & _ & Hb & _ & Hw). unfold trim_end. rewrite (drop_while_head _ _ b); [apply reverse_involutive|by rewrite head_reverse|].
  destruct (Z.eqb_spec b 13) as [->|]; [done|]. destruct (Z.eqb_spec b 10) as [->|]; done.
Qed.

Lemma render_tight l : l <> [] -> Forall stage_ok l -> tight (render l).
Proof.
  intros Hne Hl. apply join_tight; [by destruct l|]. apply Forall_fmap. apply (Forall_impl _ _ _ Hl), render_stage_tight.
Qed.

(** C34. The shell runs what is typed.  A line that is written out from one to
    four commands, of at most sixteen arguments each, and does not start with
    [#], which makes it a comment, does exactly this: a
    single command is the builtin of its name, or else a program that is
    started with its arguments and waited for; of several, each is started in
    order with its arguments until one fails, and if none does the processor
    is given away once. *)
Theorem line_runs_commands l w :
  l <> [] -> (length l <= 4)%nat -> Forall stage_ok l -> head (render l) <> Some 35 ->
  execute_pipeline (render l) w = run_commands l w.
Proof.
  intros Hne H4 Hl Hc. pose proof (render_tight l Hne Hl) as Ht. unfold execute_pipeline. rewrite trim_newlines by done.
  assert (is_empty (render l) = false) as -> by (destruct Ht as (a & _ & Ha & _); by destruct (render l)).
  rewrite bool_decide_false by done. cbn [orb]. rewrite parse_line_render by done. unfold pipeline_of.
  rewrite take_ge by (by rewrite length_map). destruct (map command_with l) as [|c0 cs] eqn:E; [by destruct l|]. rewrite <- E.
  cbn [stage_count stages]. rewrite length_map. destruct l as [|c [|c' l]]; [done| |].
  - cbn [length]. apply Forall_cons in Hl as [Hc0 _]. exact (single_eq c w Hc0).
  - cbn [length Nat.eqb]. unfold run_pipeline, run_commands. cbn [stage_count stages].
    rewrite <- (length_map command_with (c :: c' :: l)) at 1. rewrite take_app_length. unfold mbind, sm_bind at 1 2.
    by rewrite (run_stages_eq (c :: c' :: l)).
Qed.

(** ** What a script does *)

(** The lines of a text; the last one may lack its line feed. *)
Fixpoint lines_from (cur rest : text) : list text :=
  match rest with
  | [] => if is_empty cur then [] else [cur]
  | c :: rest => if c =? 10 then cur :: lines_from [] rest else lines_from (cur ++ [c]) rest
  end.

Fixpoint run_lines (ls : list text) : SM unit :=
  match ls with [] => mret tt | l :: ls => execute_pipeline l;; run_lines ls end.

Lemma script_loop_lines rest d cur w :
  (start ← script_loop (d ++ cur ++ rest) rest (length d + length cur) (length d);
   let tail := drop start (d ++ cur ++ rest) in if is_empty tail then mret tt else execute_pipeline tail) w =
  run_lines (lines_from cur rest) w.
Proof.
  revert d cur w. induction rest as [|c rest IH]; intros d cur w; cbn [script_loop lines_from].
  - unfold mbind at 1, sm_bind at 1, mret, sm_ret. rewrite app_nil_r, drop_app_length. destruct cur as [|c cur]; [done|].
    cbn [is_empty run_lines]. unfold mbind, sm_bind, mret, sm_ret. by destruct (execute_pipeline _ w) as [[[]|] w'].
  - destruct (c =? 10) eqn:Ec.
    + apply Z.eqb_eq in Ec as ->. rewrite sub_mid. cbn [run_lines]. unfold mbind at 1 2 3, sm_bind at 1 2 3.
      destruct (execute_pipeline cur w) as [[[]|] w'] eqn:E; [|done].
      specialize (IH (d ++ cur ++ [10]) [] w'). cbn [app length] in IH. rewrite <- !app_assoc in IH. cbn [app] in IH.
      replace (length (d ++ cur ++ [10%Z]) + 0)%nat with (S (length d + length cur)) in IH by (rewrite !length_app; cbn; lia).
      replace (length (d ++ cur ++ [10%Z])) with (S (length d + length cur)) in IH by (rewrite !length_app; cbn; lia).
      exact IH.
    + specialize (IH d (cur ++ [c]) w). rewrite <- !app_assoc in IH. cbn [app] in IH.
      replace (length d + length (cur ++ [c]))%nat with (S (length d + length cur)) in IH by (rewrite length_app; cbn; lia).
      exact IH.
Qed.

(** A script is its lines, one after the other, each as if it had been
    typed, until one of them leaves the shell. *)
Theorem script_runs_lines path bytes w w' :
  read_file path 4096 w = (Ok bytes, w') -> utf8_valid bytes = true ->
  run_script path w = run_lines (lines_from [] (utf8_decode bytes)) w'.
Proof.
  intros Hr Hv. unfold run_script, call. unfold mbind at 1, sm_bind at 1. rewrite Hr, Hv.
  exact (script_loop_lines (utf8_decode bytes) [] [] w').
Qed.
End shell.

(** ** A terminal that records what happens *)
Inductive shell_event :=
| EvOut (t : text) | EvErr (t : text) | EvSpawn (name : text) (args : list text) | EvWait (pid : Z) | EvYield.

(** Programs get numbers from 7 on; there is no program called [x]. *)
#[export] Instance recorder : Environment (list shell_event) := {
  write_stdout t w := w ++ [EvOut t];
  write_stderr t w := w ++ [EvErr t];
  read_line _ w := (Err IoError, w);
  env_getcwd _ w := (Ok (1%nat, [47]), w);
  env_chdir _ w := (Err PathNotFound, w);
  set_env _ _ w := (Ok tt, w);
  print_envs w := w;
  env_spawn n l w := if bool_decide (n = lit "x") then (Err IoError, w) else (Ok (7 + Z.of_nat (length w)), w ++ [EvSpawn n l]);
  env_wait pid w := (Ok 0, w ++ [EvWait pid]);
  env_yield w := w ++ [EvYield];
  env_open _ _ w := (Err PathNotFound, w);
  env_write _ _ w := (Err IoError, w);
  env_close _ w := w;
  read_file _ _ w := (Ok (lit "echo a  b" ++ [10] ++ lit "ls"), w)
}.

Lemma line_runs_commands_witness :
  execute_pipeline (render [(lit "ls", [lit "-l"])]) [] = (Ok tt, [EvSpawn (lit "ls") [lit "-l"]; EvWait 7]).
Proof.
  rewrite (line_runs_commands [(lit "ls", [lit "-l"])] []); [vm_compute; reflexivity|done|cbn; lia| |vm_compute; congruence].
  repeat constructor; cbn; try lia; try done;
    intros c Hc; repeat (apply elem_of_cons in Hc as [->|Hc]; [done|]); by apply not_elem_of_nil in Hc.
Defined.

Lemma script_runs_lines_witness :
  run_script (lit "s") [] =
  (Ok tt, [EvOut (lit "a"); EvOut (lit " "); EvOut (lit "b"); EvOut [10]; EvSpawn (lit "ls") []; EvWait 11]).
Proof.
  rewrite (script_runs_lines (lit "s") (lit "echo a  b" ++ [10] ++ lit "ls") [] []); [vm_compute; reflexivity|reflexivity|vm_compute; reflexivity].
Defined.
