(* ===== verification/Mem.v ===== *)
(** * Mem: RAM by bytes

    What a pointer into the kernel's direct map reads and writes: the words
    of Phys.v one byte at a time, little-endian. *)
From Stdlib Require Import ZArith Lia.
From stdpp Require Import base tactics option list list_numbers gmap.
From S2P Require Import Prelude Bytes Phys.
Local Open Scope Z_scope.

Definition byte_at (m : Ram) (a : Z) : Z := byte_of (ram_read m (8 * (a / 8))) (Z.to_nat (a mod 8)).

Definition set_byte (m : Ram) (a v : Z) : Ram :=
  ram_write m (8 * (a / 8))
    (unle (<[Z.to_nat (a mod 8) := v]> (le 8 (ram_read m (8 * (a / 8)))))).

(** [copy_nonoverlapping] to and from a place of RAM. *)
Fixpoint copy_to (m : Ram) (dst : Z) (bs : list Z) : Ram :=
  match bs with [] => m | b :: bs => copy_to (set_byte m dst b) (dst + 1) bs end.

Definition copy_from (m : Ram) (src : Z) (n : nat) : list Z :=
  map (fun i => byte_at m (src + Z.of_nat i)) (seq 0 n).

(** ** Lemmas *)
Lemma byte_of_unle bs k : Forall is_byte bs -> (k < length bs)%nat -> bs !! k = Some (byte_of (unle bs) k).
Proof.
  intros Hb Hk. rewrite <- (le_unle bs Hb) at 1. unfold le. rewrite list_lookup_fmap, lookup_seq_lt by done.
  done.
Qed.

Lemma byte_set m a v b :
  is_byte v -> byte_at (set_byte m a v) b = if b =? a then v else byte_at m b.
Proof.
  intros Hv. unfold byte_at, set_byte, ram_read, ram_write.
  pose proof (Z.div_mod a 8). pose proof (Z.div_mod b 8).
  pose proof (Z.mod_pos_bound a 8). pose proof (Z.mod_pos_bound b 8).
  destruct (decide (b / 8 = a / 8)) as [He|Hne].
  - rewrite He, lookup_insert_eq. cbn [default from_option id].
    set (l := <[Z.to_nat (a mod 8) := v]> _).
    assert (Hl : length l = 8%nat) by (unfold l; by rewrite length_insert, length_le).
    assert (Hlb : Forall is_byte l) by (apply Forall_insert; [apply le_bytes|done]).
    assert (Hk : l !! Z.to_nat (b mod 8) = Some (byte_of (unle l) (Z.to_nat (b mod 8)))).
    { apply byte_of_unle; [done|lia]. }
    apply Some_inj. etransitivity; [symmetry; exact Hk|]. unfold l.
    destruct (Z.eqb_spec b a) as [->|Hn].
    + apply list_lookup_insert_eq. rewrite length_le. lia.
    + rewrite list_lookup_insert_ne by lia. unfold le. rewrite list_lookup_fmap, lookup_seq_lt by lia. done.
  - rewrite lookup_insert_ne by lia. destruct (Z.eqb_spec b a); [congruence|done].
Qed.

Lemma byte_copy m dst bs b :
  Forall is_byte bs ->
  byte_at (copy_to m dst bs) b =
  if (dst <=? b) && (b <? dst + Z.of_nat (length bs)) then nth (Z.to_nat (b - dst)) bs 0 else byte_at m b.
Proof.
  intros Hb. revert m dst. induction Hb as [|x bs Hx _ IH]; intros m dst; cbn [copy_to length].
  - case_bools; reflect; [lia|done].
  - rewrite IH, byte_set by done.
    destruct (decide (b = dst)) as [->|Hne].
    + rewrite Z.eqb_refl, Z.sub_diag.
      destruct (Z.leb_spec (dst + 1) dst); [lia|]. destruct (Z.leb_spec dst dst); [|lia].
      destruct (Z.ltb_spec dst (dst + Z.of_nat (S (length bs)))); [done|lia].
    + assert ((b =? dst) = false) as -> by (by apply Z.eqb_neq).
      destruct (dst + 1 <=? b) eqn:E1, (dst <=? b) eqn:E2; reflect; try lia; cbn [andb]; [|done].
      replace (b <? dst + Z.of_nat (S (length bs))) with (b <? dst + 1 + Z.of_nat (length bs))
        by (f_equal; lia).
      case_match; [|done]. replace (Z.to_nat (b - dst)) with (S (Z.to_nat (b - (dst + 1)))) by lia. done.
Qed.

Lemma byte_zero_page m pa b :
  pa mod 4096 = 0 -> byte_at (zero_page m pa) b = if (pa <=? b) && (b <? pa + 4096) then 0 else byte_at m b.
Proof.
  intros Hm. unfold byte_at.
  pose proof (Z.div_mod b 8). pose proof (Z.mod_pos_bound b 8).
  assert (Hp : pa = 8 * (512 * (pa / 4096))) by (pose proof (Z.div_mod pa 4096); lia).
  destruct (_ && _) eqn:E; [reflect|].
  - replace (8 * (b / 8)) with (pa + 8 * Z.of_nat (Z.to_nat (b / 8 - 512 * (pa / 4096)))) by lia.
    rewrite zero_page_in by lia. unfold byte_of. by rewrite Z.shiftr_0_l.
  - rewrite zero_page_out; [done|]. apply andb_false_iff in E as [E|E]; reflect; lia.
Qed.

(** A word outside the bytes stored is kept. *)
Lemma copy_word m dst bs w :
  w mod 8 = 0 -> (forall k, 0 <= k < Z.of_nat (length bs) -> dst + k < w \/ w + 8 <= dst + k) ->
  ram_read (copy_to m dst bs) w = ram_read m w.
Proof.
  intros Hw. revert m dst. induction bs as [|b bs IH]; intros m dst H; cbn [copy_to]; [done|].
  rewrite IH.
  - unfold set_byte, ram_read, ram_write. rewrite lookup_insert_ne; [done|].
    specialize (H 0 ltac:(cbn [length]; lia)). pose proof (Z.div_mod dst 8). pose proof (Z.mod_pos_bound dst 8).
    pose proof (Z.div_mod w 8). lia.
  - intros k Hk. specialize (H (k + 1) ltac:(cbn [length]; lia)). lia.
Qed.
