(* ===== verification/Slab.v ===== *)
(** * Slab: the kernel heap

    kernel/src/arch/aarch64/slab.rs: seven size classes, each a singly linked
    list of free blocks threaded through the blocks themselves; a class with
    no block takes a page from the allocator of Phys.v.  Blocks are kernel
    addresses; memory is that of Phys.v, a word at a time (every block is
    8-aligned).  One CPU runs, so a compare-exchange succeeds at once. *)
From Stdlib Require Import ZArith Lia.
From stdpp Require Import base tactics option list list_numbers gmap.
From S2P Require Import Prelude Shared Phys Thread.
Local Open Scope Z_scope.

Definition CLASS_SIZES : list Z := [32; 64; 128; 256; 512; 1024; 2048].
Definition PAGE_HEADER : Z := 8.

Fixpoint class_from (need : Z) (i : nat) (l : list Z) : option nat :=
  match l with
  | [] => None
  | cs :: l => if need <=? cs then Some i else class_from need (S i) l
  end.

Definition class_index (size align : Z) : option nat := class_from (Z.max size align) 0 CLASS_SIZES.

Definition blocks_per_page (block_size : Z) : Z := (4096 - PAGE_HEADER) / block_size.

Definition class_size (ci : nat) : Z := nth ci CLASS_SIZES 0.

(** ** Memory through the kernel's mapping *)
Definition mem_read (m : Ram) (va : Z) : Z := ram_read m (va - KERNEL_OFFSET).
Definition mem_write (va v : Z) (p : Phys) : Phys := with_ram p (ram_write (ram p) (va - KERNEL_OFFSET) v).

(** ** Operations

    [heads] has the first free block of each class, 0 for none. *)
Definition slab_new : list Z := replicate 7 0.

(** [for i in 0..last]. *)
Fixpoint link_blocks (n : nat) (block block_size : Z) (p : Phys) : Phys :=
  match n with
  | O => p
  | S n => link_blocks n (block + block_size) block_size (mem_write block (block + block_size) p)
  end.

Definition refill (ci : nat) (heads : list Z) (p : Phys) : option (Z * list Z * Phys) :=
  let block_size := class_size ci in
  let n := blocks_per_page block_size in
  if n =? 0 then Some (0, heads, p)
  else
    match alloc_kheap_page p with
    | None => None
    | Some (Err _, p1) => Some (0, heads, p1)
    | Some (Ok pa, p1) =>
        let kva := pa_to_kernel_va pa in
        let p2 := mem_write kva (nth ci heads 0) p1 in
        let data_start := kva + PAGE_HEADER in
        let last := n - 1 in
        let p3 := link_blocks (Z.to_nat last) data_start block_size p2 in
        let p4 := mem_write (data_start + last * block_size) 0 p3 in
        Some (data_start, <[ci := data_start]> heads, p4)
    end.

Fixpoint allocate_loop (fuel : nat) (ci : nat) (heads : list Z) (p : Phys) : exec (Z * list Z * Phys) :=
  match fuel with
  | O => Prelude.Running
  | S fuel =>
      let head := nth ci heads 0 in
      if negb (head =? 0) then Ret (head, <[ci := mem_read (ram p) head]> heads, p)
      else
        match refill ci heads p with
        | None => Panics
        | Some (_, heads1, p1) =>
            if nth ci heads1 0 =? 0 then Ret (0, heads1, p1) else allocate_loop fuel ci heads1 p1
        end
  end.

(** 0 is the null pointer. *)
Definition allocate (fuel : nat) (size align : Z) (heads : list Z) (p : Phys) : exec (Z * list Z * Phys) :=
  if 64 <? align then Ret (0, heads, p)
  else match class_index size align with
       | None => Ret (0, heads, p)
       | Some ci => allocate_loop fuel ci heads p
       end.

Definition deallocate (ptr size align : Z) (heads : list Z) (p : Phys) : list Z * Phys :=
  match class_index size align with
  | None => (heads, p)
  | Some ci => (<[ci := ptr]> heads, mem_write ptr (nth ci heads 0) p)
  end.

(** ** Invariant *)

(** The free blocks of a class from [h] on, in the order they will be handed
    out. *)
Fixpoint chain (m : Ram) (h : Z) (l : list Z) : Prop :=
  match l with
  | [] => h = 0
  | b :: l => h = b /\ b <> 0 /\ chain m (mem_read m b) l
  end.

(** A block is an address and its class; blocks lie at the places of a heap
    page handed out by the page allocator. *)
Definition place (p : Phys) (b : Z * nat) : Prop :=
  (b.2 < 7)%nat /\ exists pa k, RAM_BASE <= pa /\ pa + 4096 <= next_free p /\ pa mod 4096 = 0 /\
    0 <= k < blocks_per_page (class_size b.2) /\
    b.1 = pa + KERNEL_OFFSET + PAGE_HEADER + k * class_size b.2.

Definition apart_blocks (b c : Z * nat) : Prop :=
  b.1 + class_size b.2 <= c.1 \/ c.1 + class_size c.2 <= b.1.

(** All free blocks, class by class from [k] on. *)
Fixpoint free_blocks (k : nat) (fr : list (list Z)) : list (Z * nat) :=
  match fr with
  | [] => []
  | l :: fr => map (fun b => (b, k)) l ++ free_blocks (S k) fr
  end.

Record slab_ok (heads : list Z) (p : Phys) (fr : list (list Z)) (live : list (Z * nat)) : Prop := {
  so_len : length heads = 7%nat /\ length fr = 7%nat;
  so_chain : forall ci h l, heads !! ci = Some h -> fr !! ci = Some l -> chain (ram p) h l;
  so_place : forall b, b ∈ free_blocks 0 fr ++ live -> place p b;
  so_apart : ForallOrdPairs apart_blocks (free_blocks 0 fr ++ live)
}.

Definition slab_inv (heads : list Z) (p : Phys) (live : list (Z * nat)) : Prop :=
  exists fr, slab_ok heads p fr live.

(** ** Lemmas *)
Lemma fop_perm {A} (R : A -> A -> Prop) l l' :
  (forall x y, R x y -> R y x) -> l ≡ₚ l' -> ForallOrdPairs R l -> ForallOrdPairs R l'.
Proof.
  intros Hs. induction 1 as [|x l l' Hp IH|x y l|l1 l2 l3 _ IH1 _ IH2]; intros H.
  - done.
  - inversion H as [|? ? Hx Hl]; subst. constructor; [by rewrite <- Hp|by apply IH].
  - inversion H as [|? ? Hy Hl]; subst. inversion Hl as [|? ? Hx Hl']; subst.
    inversion Hy; subst. constructor; [constructor; [by apply Hs|done]|by constructor].
  - by apply IH2, IH1.
Qed.

Lemma fop_app {A} (R : A -> A -> Prop) l l' :
  ForallOrdPairs R l -> ForallOrdPairs R l' -> (forall x y, x ∈ l -> y ∈ l' -> R x y) ->
  ForallOrdPairs R (l ++ l').
Proof.
  intros Hl Hl' Hx. induction Hl as [|x l Hf _ IH]; cbn; [done|]. constructor.
  - apply Forall_app. split; [done|]. apply Forall_forall. intros y Hy. apply Hx; [by left|done].
  - apply IH. intros a y Ha. apply Hx. by right.
Qed.

Lemma fop_cons_in {A} (R : A -> A -> Prop) x l y : ForallOrdPairs R (x :: l) -> y ∈ l -> R x y.
Proof. intros H Hy. inversion H as [|? ? Hf _]; subst. by apply (proj1 (Forall_forall _ _) Hf). Qed.

Lemma apart_sym b c : apart_blocks b c -> apart_blocks c b.
Proof. unfold apart_blocks. tauto. Qed.

Lemma free_blocks_split k fr i l :
  fr !! i = Some l ->
  free_blocks k fr ≡ₚ map (fun b => (b, (k + i)%nat)) l ++ free_blocks k (<[i := []]> fr).
Proof.
  revert k i. induction fr as [|l0 fr IH]; intros k [|i] H; cbn in H; [done|done| |].
  - injection H as ->. cbn. by rewrite Nat.add_0_r.
  - cbn [free_blocks insert list_insert]. rewrite (IH (S k) i H). replace (k + S i)%nat with (S k + i)%nat by lia.
    rewrite !app_assoc. apply Permutation_app_tail. apply Permutation_app_comm.
Qed.

Lemma free_blocks_set fr i l l' :
  fr !! i = Some l ->
  free_blocks 0 (<[i := l']> fr) ≡ₚ map (fun b => (b, i)) l' ++ free_blocks 0 (<[i := []]> fr).
Proof.
  intros H. rewrite (free_blocks_split 0 (<[i := l']> fr) i l').
  - by rewrite list_insert_insert_eq.
  - apply list_lookup_insert_eq. by eapply lookup_lt_Some.
Qed.

Lemma chain_frame m m' h l :
  (forall b, b ∈ l -> mem_read m' b = mem_read m b) -> chain m h l -> chain m' h l.
Proof.
  revert h. induction l as [|b l IH]; intros h Hm; cbn [chain]; [done|].
  intros (-> & Hb & Hc). split_and!; [done|done|]. rewrite Hm by (by left). apply IH; [|done].
  intros c Hin. apply Hm. by right.
Qed.

Lemma mem_read_write a v p b :
  mem_read (ram (mem_write a v p)) b = if b =? a then v else mem_read (ram p) b.
Proof.
  unfold mem_read, mem_write, ram_read, ram_write. cbn [with_ram ram].
  destruct (Z.eqb_spec b a) as [->|Hne]; [by rewrite lookup_insert_eq|].
  rewrite lookup_insert_ne by lia. done.
Qed.

Lemma class_size_pos ci : (ci < 7)%nat -> 32 <= class_size ci <= 2048.
Proof. intros H. do 7 (destruct ci as [|ci]; [cbn; lia|]). lia. Qed.

Lemma class_size_mod ci : class_size ci mod 32 = 0.
Proof. do 7 (destruct ci as [|ci]; [done|]). by destruct ci. Qed.

Lemma blocks_fit ci : (ci < 7)%nat ->
  1 <= blocks_per_page (class_size ci) /\ PAGE_HEADER + blocks_per_page (class_size ci) * class_size ci <= 4096.
Proof. intros H. do 7 (destruct ci as [|ci]; [vm_compute; split; congruence|]). lia. Qed.

Lemma class_index_spec size align ci :
  class_index size align = Some ci -> (ci < 7)%nat /\ Z.max size align <= class_size ci.
Proof.
  unfold class_index, CLASS_SIZES. cbn [class_from].
  repeat (case_match eqn:E; [intros [= <-]; apply Z.leb_le in E; cbn; split; [lia|exact E]|clear E]). done.
Qed.

Lemma class_index_none size align : class_index size align = None -> 2048 < Z.max size align.
Proof.
  unfold class_index, CLASS_SIZES. cbn [class_from].
  repeat (case_match; [done|]). intros _. reflect. done.
Qed.

(** Where a block lies. *)
Lemma place_bounds p b :
  place p b -> RAM_BASE + KERNEL_OFFSET < b.1 /\ b.1 + class_size b.2 <= next_free p + KERNEL_OFFSET /\
    32 <= class_size b.2 /\ b.1 mod 32 = 8.
Proof.
  intros (Hc & pa & k & H1 & H2 & H3 & Hk & ->). destruct (blocks_fit _ Hc) as [_ Hf].
  pose proof (class_size_pos _ Hc) as Hs. unfold PAGE_HEADER in *. split_and!; [nia|nia|lia|].
  pose proof (class_size_mod b.2) as Hm.
  rewrite Zplus_mod, Zmult_mod, Hm, Z.mul_0_r, Zmod_0_l, Z.add_0_r, Zmod_mod.
  rewrite Zplus_mod, (Zplus_mod pa). pose proof (Z.div_mod pa 4096 ltac:(lia)) as Hd. rewrite H3 in Hd.
  replace pa with (0 + (128 * (pa / 4096)) * 32) by lia. rewrite Z.mod_add by done. done.
Qed.

Lemma place_mono p p' b : place p b -> next_free p <= next_free p' -> place p' b.
Proof.
  intros (Hc & pa & k & H1 & H2 & H3 & Hk & He) Hle. split; [done|]. exists pa, k. split_and!; try done; lia.
Qed.

(** *** Building a page of blocks *)
Definition page_blocks (start : Z) (ci : nat) (k n : nat) : list Z :=
  map (fun i => start + Z.of_nat i * class_size ci) (seq k n).

Lemma link_out n b bs p a :
  (forall k, 0 <= k < Z.of_nat n -> a <> b + k * bs) ->
  mem_read (ram (link_blocks n b bs p)) a = mem_read (ram p) a.
Proof.
  revert b p. induction n as [|n IH]; intros b p H; cbn [link_blocks]; [done|].
  rewrite IH, mem_read_write.
  - destruct (Z.eqb_spec a b) as [->|?]; [|done]. destruct (H 0); lia.
  - intros k Hk Heq. apply (H (k + 1)); lia.
Qed.

Lemma link_in n b bs p k :
  0 < bs -> 0 <= k < Z.of_nat n -> mem_read (ram (link_blocks n b bs p)) (b + k * bs) = b + (k + 1) * bs.
Proof.
  intros Hbs. revert b p k. induction n as [|n IH]; intros b p k Hk; [lia|]. cbn [link_blocks].
  destruct (decide (k = 0)) as [->|Hne].
  - rewrite link_out by (intros; nia). rewrite mem_read_write.
    replace (b + 0 * bs) with b by lia. rewrite Z.eqb_refl. lia.
  - replace (b + k * bs) with (b + bs + (k - 1) * bs) by lia. rewrite IH by lia. lia.
Qed.

Lemma link_next n b bs p :
  next_free (link_blocks n b bs p) = next_free p /\ end_free (link_blocks n b bs p) = end_free p.
Proof. revert b p. induction n as [|n IH]; intros b p; cbn [link_blocks]; [done|]. by rewrite !(proj1 (IH _ _)), !(proj2 (IH _ _)). Qed.

Lemma store_wf va v p : phys_wf p -> phys_wf (mem_write va v p).
Proof. intros []. by constructor. Qed.

Lemma link_blocks_wf n b bs p : phys_wf p -> phys_wf (link_blocks n b bs p).
Proof. revert b p. induction n as [|n IH]; intros b p H; cbn [link_blocks]; [done|]. by apply IH, store_wf. Qed.

(** Blocks that are linked in a row form a chain. *)
Lemma chain_run m start ci k n :
  (forall i, (k <= i < k + n)%nat -> start + Z.of_nat i * class_size ci <> 0) ->
  (forall i, (k <= i < k + n)%nat -> mem_read m (start + Z.of_nat i * class_size ci) =
     if (S i =? k + n)%nat then 0 else start + Z.of_nat (S i) * class_size ci) ->
  chain m (if (n =? 0)%nat then 0 else start + Z.of_nat k * class_size ci) (page_blocks start ci k n).
Proof.
  unfold page_blocks. revert k. induction n as [|n IH]; intros k Hz Hm; [done|]. cbn [seq map chain Nat.eqb].
  split_and!; [done|apply Hz; lia|]. rewrite Hm by lia.
  replace (if (S k =? k + S n)%nat then 0 else start + Z.of_nat (S k) * class_size ci)
    with (if (n =? 0)%nat then 0 else start + Z.of_nat (S k) * class_size ci).
  - apply IH; [intros; apply Hz; lia|]. intros i Hi. rewrite Hm by lia.
    by replace (k + S n)%nat with (S k + n)%nat by lia.
  - destruct (Nat.eqb_spec n 0), (Nat.eqb_spec (S k) (k + S n)); done || lia.
Qed.

(** What [refill] does to a class that is out of blocks. *)
Lemma refill_eq ci heads p :
  phys_wf p -> (ci < 7)%nat ->
  refill ci heads p =
  if end_free p <=? next_free p then Some (0, heads, p)
  else
    let start := next_free p + KERNEL_OFFSET + PAGE_HEADER in
    let n := blocks_per_page (class_size ci) in
    Some (start, <[ci := start]> heads,
          mem_write (start + (n - 1) * class_size ci) 0
            (link_blocks (Z.to_nat (n - 1)) start (class_size ci)
               (mem_write (next_free p + KERNEL_OFFSET) (nth ci heads 0) (alloc_next TKernelHeap p)))).
Proof.
  intros Hw Hci. unfold refill. destruct (blocks_fit _ Hci) as [H1 _].
  destruct (Z.eqb_spec (blocks_per_page (class_size ci)) 0); [lia|].
  unfold alloc_kheap_page. rewrite alloc_page_eq by done.
  destruct (end_free p <=? next_free p) eqn:E; [done|]. reflect. destruct Hw.
  assert (Hk : pa_to_kernel_va (next_free p) = next_free p + KERNEL_OFFSET); [|by rewrite Hk].
  unfold pa_to_kernel_va. apply u64w_small. unfold KERNEL_OFFSET, RAM_BASE, RAM_SIZE in *. lia.
Qed.

Lemma new_page_frame ci heads p a :
  phys_wf p -> (ci < 7)%nat -> a < next_free p + KERNEL_OFFSET ->
  let start := next_free p + KERNEL_OFFSET + PAGE_HEADER in
  let n := blocks_per_page (class_size ci) in
  mem_read (ram (mem_write (start + (n - 1) * class_size ci) 0
    (link_blocks (Z.to_nat (n - 1)) start (class_size ci)
      (mem_write (next_free p + KERNEL_OFFSET) (nth ci heads 0) (alloc_next TKernelHeap p))))) a =
  mem_read (ram p) a.
Proof.
  intros Hw Hci Ha. cbn zeta. pose proof (class_size_pos _ Hci) as Hs. destruct (blocks_fit _ Hci) as [H1 _].
  set (n := blocks_per_page (class_size ci)) in *. unfold PAGE_HEADER.
  rewrite mem_read_write. destruct (Z.eqb_spec a (next_free p + KERNEL_OFFSET + 8 + (n - 1) * class_size ci)); [nia|].
  rewrite link_out by (intros; nia). rewrite mem_read_write.
  destruct (Z.eqb_spec a (next_free p + KERNEL_OFFSET)); [lia|].
  unfold mem_read. cbn [alloc_next ram]. rewrite zero_page_out by lia. done.
Qed.

Lemma new_page_chain ci p q :
  phys_wf p -> (ci < 7)%nat ->
  let start := next_free p + KERNEL_OFFSET + PAGE_HEADER in
  let n := blocks_per_page (class_size ci) in
  chain (ram (mem_write (start + (n - 1) * class_size ci) 0
    (link_blocks (Z.to_nat (n - 1)) start (class_size ci) q))) start (page_blocks start ci 0 (Z.to_nat n)).
Proof.
  intros Hw Hci. cbn zeta. pose proof (class_size_pos _ Hci) as Hs. destruct (blocks_fit _ Hci) as [H1 _].
  set (n := blocks_per_page (class_size ci)) in *. set (start := next_free p + KERNEL_OFFSET + PAGE_HEADER).
  assert (Hst : 0 < start) by (destruct Hw; unfold start, RAM_BASE, KERNEL_OFFSET, PAGE_HEADER in *; lia).
  replace start with (if (Z.to_nat n =? 0)%nat then 0 else start + Z.of_nat 0 * class_size ci) at 3
    by (destruct (Nat.eqb_spec (Z.to_nat n) 0); lia).
  apply chain_run.
  - intros i Hi. nia.
  - intros i Hi. rewrite mem_read_write.
    destruct (Z.eqb_spec (start + Z.of_nat i * class_size ci) (start + (n - 1) * class_size ci)) as [He|He],
      (Nat.eqb_spec (S i) (0 + Z.to_nat n)) as [Hi2|Hi2]; [done|nia|nia|].
    rewrite link_in by lia. lia.
Qed.

(** *** The invariant is kept *)
Lemma ok_slot heads p fr live ci :
  slab_ok heads p fr live -> (ci < 7)%nat ->
  exists l, heads !! ci = Some (nth ci heads 0) /\ fr !! ci = Some l /\ chain (ram p) (nth ci heads 0) l.
Proof.
  intros Ho Hci. destruct (so_len _ _ _ _ Ho) as [H1 H2].
  destruct (lookup_lt_is_Some_2 fr ci) as [l Hl]; [lia|].
  destruct (lookup_lt_is_Some_2 heads ci) as [h Hh]; [lia|].
  exists l. rewrite nth_lookup, Hh. split_and!; [done|done|]. by apply (so_chain _ _ _ _ Ho ci).
Qed.

(** Changing one class, with the blocks the same or new ones added. *)
Lemma ok_change heads p fr live ci l p' h' l' live' :
  slab_ok heads p fr live -> fr !! ci = Some l -> next_free p <= next_free p' ->
  (forall cj h k, cj <> ci -> heads !! cj = Some h -> fr !! cj = Some k -> chain (ram p') h k) ->
  chain (ram p') h' l' ->
  (forall b, b ∈ map (fun b => (b, ci)) l' ++ free_blocks 0 (<[ci := []]> fr) ++ live' -> place p' b) ->
  ForallOrdPairs apart_blocks (map (fun b => (b, ci)) l' ++ free_blocks 0 (<[ci := []]> fr) ++ live') ->
  slab_ok (<[ci := h']> heads) p' (<[ci := l']> fr) live'.
Proof.
  intros Ho Hl Hn Hother Hc Hp Ha. destruct (so_len _ _ _ _ Ho) as [H1 H2].
  pose proof (free_blocks_set fr ci l l' Hl) as Hperm. constructor.
  - by rewrite !length_insert.
  - intros cj h k Hh Hk. destruct (decide (cj = ci)) as [->|Hne].
    + pose proof (lookup_lt_Some _ _ _ Hl). rewrite list_lookup_insert_eq in Hh by lia. rewrite list_lookup_insert_eq in Hk by lia.
      by injection Hh as <-; injection Hk as <-.
    + rewrite list_lookup_insert_ne in Hh by done. rewrite list_lookup_insert_ne in Hk by done. by eapply Hother.
  - intros b Hb. apply Hp. rewrite Hperm, <- app_assoc in Hb. done.
  - eapply fop_perm; [apply apart_sym| |exact Ha]. by rewrite Hperm, app_assoc.
Qed.

Lemma ok_split heads p fr live ci l :
  slab_ok heads p fr live -> fr !! ci = Some l ->
  (forall b, b ∈ map (fun b => (b, ci)) l ++ free_blocks 0 (<[ci := []]> fr) ++ live -> place p b) /\
  ForallOrdPairs apart_blocks (map (fun b => (b, ci)) l ++ free_blocks 0 (<[ci := []]> fr) ++ live).
Proof.
  intros Ho Hl. pose proof (free_blocks_split 0 fr ci l Hl) as Hp. cbn [Nat.add] in Hp. split.
  - intros b Hb. apply (so_place _ _ _ _ Ho). by rewrite Hp, <- app_assoc.
  - eapply fop_perm; [apply apart_sym| |apply (so_apart _ _ _ _ Ho)]. by rewrite Hp, app_assoc.
Qed.

(** Blocks on the other lists are free blocks too. *)
Lemma other_free fr ci cj k b :
  fr !! cj = Some k -> cj <> ci -> b ∈ k -> (b, cj) ∈ free_blocks 0 (<[ci := []]> fr).
Proof.
  intros Hk Hne Hb. rewrite (free_blocks_split 0 (<[ci := []]> fr) cj k) by by rewrite list_lookup_insert_ne.
  apply elem_of_app. left. apply list_elem_of_fmap. by exists b.
Qed.

Lemma pop_ok heads p fr live ci :
  slab_ok heads p fr live -> (ci < 7)%nat -> nth ci heads 0 <> 0 ->
  slab_inv (<[ci := mem_read (ram p) (nth ci heads 0)]> heads) p ((nth ci heads 0, ci) :: live).
Proof.
  intros Ho Hci Hz. destruct (ok_slot _ _ _ _ ci Ho Hci) as (l & Hh & Hl & Hc).
  destruct l as [|b l]; cbn [chain] in Hc; [done|]. destruct Hc as (Hb & _ & Hc). rewrite <- Hb in Hc.
  destruct (ok_split _ _ _ _ _ _ Ho Hl) as [Hp Ha].
  assert (Hperm : map (fun b => (b, ci)) (b :: l) ++ free_blocks 0 (<[ci := []]> fr) ++ live ≡ₚ
    map (fun b => (b, ci)) l ++ free_blocks 0 (<[ci := []]> fr) ++ (nth ci heads 0, ci) :: live).
  { rewrite Hb. cbn [map app]. by rewrite !app_assoc, <- Permutation_middle. }
  exists (<[ci := l]> fr). eapply ok_change; [done|done|lia| |done| |].
  - intros cj h k _ Hh' Hk. by apply (so_chain _ _ _ _ Ho cj).
  - intros x Hx. apply Hp. by rewrite Hperm.
  - eapply fop_perm; [apply apart_sym|exact Hperm|done].
Qed.

Lemma heap_push_ok heads p b ci fr live :
  slab_ok heads p fr ((b, ci) :: live) ->
  slab_inv (<[ci := b]> heads) (mem_write b (nth ci heads 0) p) live /\
  forall c a, c ∈ live -> c.1 <= a < c.1 + class_size c.2 ->
    mem_read (ram (mem_write b (nth ci heads 0) p)) a = mem_read (ram p) a.
Proof.
  intros Ho.
  assert (Hpb : place p (b, ci)) by (apply (so_place _ _ _ _ Ho), elem_of_app; right; by left).
  assert (Hci : (ci < 7)%nat) by by destruct Hpb.
  destruct (ok_slot _ _ _ _ ci Ho Hci) as (l & Hh & Hl & Hc).
  destruct (ok_split _ _ _ _ _ _ Ho Hl) as [Hp Ha].
  assert (Hperm : map (fun b => (b, ci)) l ++ free_blocks 0 (<[ci := []]> fr) ++ (b, ci) :: live ≡ₚ
    map (fun b => (b, ci)) (b :: l) ++ free_blocks 0 (<[ci := []]> fr) ++ live).
  { cbn [map app]. by rewrite !app_assoc, <- Permutation_middle. }
  assert (Ha' : ForallOrdPairs apart_blocks (map (fun b => (b, ci)) (b :: l) ++ free_blocks 0 (<[ci := []]> fr) ++ live))
    by (eapply fop_perm; [apply apart_sym|exact Hperm|done]).
  assert (Hne : forall x cx a, (x, cx) ∈ map (fun b => (b, ci)) l ++ free_blocks 0 (<[ci := []]> fr) ++ live ->
    x <= a < x + class_size cx -> a <> b).
  { intros x cx a Hx Hr. cbn [map app] in Ha'. pose proof (fop_cons_in _ _ _ _ Ha' Hx) as Hd.
    destruct (place_bounds p (b, ci) Hpb) as (_ & _ & Hs & _). unfold apart_blocks in Hd. cbn [fst snd] in *. lia. }
  assert (Hsz : forall x cx, (x, cx) ∈ map (fun b => (b, ci)) l ++ free_blocks 0 (<[ci := []]> fr) ++ live -> x <> b).
  { intros x cx Hx. apply (Hne x cx); [done|].
    assert (Hpx : place p (x, cx)) by (apply Hp; rewrite Hperm; by right).
    destruct (place_bounds _ _ Hpx) as (_ & _ & ? & _). cbn [fst snd] in *. lia. }
  assert (Hkeep : forall h k, (forall x, x ∈ k -> x <> b) -> chain (ram p) h k ->
    chain (ram (mem_write b (nth ci heads 0) p)) h k).
  { intros h k Hk. apply chain_frame. intros x Hx. rewrite mem_read_write.
    destruct (Z.eqb_spec x b); [by destruct (Hk x Hx)|done]. }
  split.
  - exists (<[ci := b :: l]> fr). eapply ok_change; [done|done|done| | | |exact Ha'].
    + intros cj h k Hcj Hh' Hk. apply Hkeep; [|by apply (so_chain _ _ _ _ Ho cj)].
      intros x Hx. apply (Hsz x cj). apply elem_of_app. right. apply elem_of_app. left. by apply (other_free _ _ _ k).
    + cbn [chain]. split_and!; [done| |].
      * destruct (place_bounds _ _ Hpb) as (Hbd & _). unfold RAM_BASE, KERNEL_OFFSET in Hbd. cbn [fst] in Hbd. lia.
      * rewrite mem_read_write, Z.eqb_refl. apply Hkeep; [|done]. intros x Hx. apply (Hsz x ci).
        apply elem_of_app. left. apply list_elem_of_fmap. by exists x.
    + intros x Hx. rewrite <- Hperm in Hx. by apply Hp.
  - intros [x cx] a Hx Hr. rewrite mem_read_write. destruct (Z.eqb_spec a b) as [->|?]; [|done].
    destruct (Hne x cx b); [|done|done]. apply elem_of_app. right. apply elem_of_app. by right.
Qed.

Lemma page_blocks_in start ci n b :
  b ∈ page_blocks start ci 0 n <-> exists i, (i < n)%nat /\ b = start + Z.of_nat i * class_size ci.
Proof.
  unfold page_blocks. rewrite list_elem_of_fmap. split.
  - intros (i & -> & Hi%elem_of_seq). exists i. split; [lia|done].
  - intros (i & Hi & ->). exists i. split; [done|]. apply elem_of_seq. lia.
Qed.

Lemma page_blocks_apart start ci k n :
  0 < class_size ci -> ForallOrdPairs apart_blocks (map (fun b => (b, ci)) (page_blocks start ci k n)).
Proof.
  intros Hs. unfold page_blocks. revert k. induction n as [|n IH]; intros k; cbn [seq map]; constructor; [|apply IH].
  apply Forall_forall. intros x (b & -> & (i & -> & Hi%elem_of_seq)%list_elem_of_fmap)%list_elem_of_fmap.
  left. cbn [fst snd]. nia.
Qed.

Lemma refill_ok heads p fr live ci :
  slab_ok heads p fr live -> phys_wf p -> (ci < 7)%nat -> nth ci heads 0 = 0 -> next_free p < end_free p ->
  exists start p', refill ci heads p = Some (start, <[ci := start]> heads, p') /\ start <> 0 /\
    slab_inv (<[ci := start]> heads) p' live /\ phys_wf p' /\
    forall a, a < next_free p + KERNEL_OFFSET -> mem_read (ram p') a = mem_read (ram p) a.
Proof.
  intros Ho Hw Hci Hz Hlt. rewrite refill_eq by done.
  destruct (end_free p <=? next_free p) eqn:E; reflect; [lia|]. cbn zeta.
  set (start := next_free p + KERNEL_OFFSET + PAGE_HEADER). set (n := blocks_per_page (class_size ci)).
  set (q := mem_write (next_free p + KERNEL_OFFSET) (nth ci heads 0) (alloc_next TKernelHeap p)).
  set (p' := mem_write _ 0 _). exists start, p'. split; [done|].
  destruct (blocks_fit _ Hci) as [Hn Hf]. pose proof (class_size_pos _ Hci) as Hs. fold n in Hn, Hf.
  assert (Hst : 0 < start) by (destruct Hw; unfold start, RAM_BASE, KERNEL_OFFSET, PAGE_HEADER in *; lia).
  assert (Hnext : next_free p' = next_free p + 4096).
  { unfold p', mem_write at 1. cbn [with_ram next_free]. by rewrite (proj1 (link_next _ _ _ _)). }
  assert (Hframe : forall a, a < next_free p + KERNEL_OFFSET -> mem_read (ram p') a = mem_read (ram p) a)
    by (intros a Ha; by apply (new_page_frame ci heads p a)).
  destruct (ok_slot _ _ _ _ ci Ho Hci) as (l & Hh & Hl & Hc). rewrite Hz in Hc.
  assert (l = []) as -> by (destruct l as [|b l]; [done|]; by destruct Hc as (<- & ? & _)).
  destruct (ok_split _ _ _ _ _ _ Ho Hl) as [Hp Ha]. cbn [map app] in Hp, Ha.
  split_and!; [lia| | |done].
  2:{ unfold p', q. apply store_wf, link_blocks_wf, store_wf, alloc_next_wf; done. }
  exists (<[ci := page_blocks start ci 0 (Z.to_nat n)]> fr). eapply ok_change; [done|done|lia| | | |].
  - intros cj h k Hcj Hh' Hk. apply (chain_frame (ram p)); [|by apply (so_chain _ _ _ _ Ho cj)].
    intros b Hb. apply Hframe. assert (Hpb : place p (b, cj)).
    { apply Hp, elem_of_app. left. by apply (other_free _ _ _ k). }
    destruct (place_bounds _ _ Hpb) as (_ & ? & ? & _). cbn [fst snd] in *. lia.
  - by apply new_page_chain.
  - intros b [(x & -> & (i & Hi & ->)%page_blocks_in)%list_elem_of_fmap|Hb]%elem_of_app.
    + split; [done|]. cbn [fst snd]. exists (next_free p), (Z.of_nat i). rewrite Hnext. destruct Hw as [? ? [? ?] ? ?].
      split_and!; [done|lia|done|lia|unfold n in Hi; lia|done].
    + apply (place_mono p); [by apply Hp|lia].
  - apply fop_app; [apply page_blocks_apart; lia|done|].
    intros x y (b & -> & (i & Hi & ->)%page_blocks_in)%list_elem_of_fmap Hy. right. cbn [fst snd].
    destruct (place_bounds _ _ (Hp y Hy)) as (_ & ? & _ & _). unfold start, PAGE_HEADER in *. nia.
Qed.

(** ** Runs

    Calls of the allocator, a client storing a word in a block it holds, and
    other parts of the kernel taking pages. *)
Inductive heap_event :=
| HAlloc (size align b : Z)
| HFree (size align b : Z)
| HStore (b : Z * nat) (a v : Z)
| HPage (tag : PageTag).

Abbreviation heap_state := (list Z * Phys * list (Z * nat))%type.

Inductive heap_step : heap_state -> heap_event -> heap_state -> Prop :=
| hs_alloc hs p live size align b hs' p' ci :
    allocate 2 size align hs p = Ret (b, hs', p') -> class_index size align = Some ci -> b <> 0 ->
    heap_step (hs, p, live) (HAlloc size align b) (hs', p', (b, ci) :: live)
| hs_null hs p live size align hs' p' :
    allocate 2 size align hs p = Ret (0, hs', p') ->
    heap_step (hs, p, live) (HAlloc size align 0) (hs', p', live)
| hs_free hs p live live' size align b ci hs' p' :
    live ≡ₚ (b, ci) :: live' -> class_index size align = Some ci ->
    deallocate b size align hs p = (hs', p') ->
    heap_step (hs, p, live) (HFree size align b) (hs', p', live')
| hs_store hs p live b a v :
    b ∈ live -> a mod 8 = 0 -> b.1 <= a -> a + 8 <= b.1 + class_size b.2 ->
    heap_step (hs, p, live) (HStore b a v) (hs, mem_write a v p, live)
| hs_page hs p live tag :
    next_free p < end_free p ->
    heap_step (hs, p, live) (HPage tag) (hs, alloc_next tag p, live).

Lemma fop_app_in {A} (R : A -> A -> Prop) l l' x y :
  ForallOrdPairs R (l ++ l') -> x ∈ l -> y ∈ l' -> R x y.
Proof.
  induction l as [|z l IH]; cbn [app]; [by intros _ ?%elem_of_nil|].
  intros H Hx Hy. apply elem_of_cons in Hx as [->|Hx].
  - apply (fop_cons_in R z (l ++ l')); [done|]. apply elem_of_app. by right.
  - inversion H; subst. by apply IH.
Qed.

Lemma slot_free fr cj k x : fr !! cj = Some k -> x ∈ k -> (x, cj) ∈ free_blocks 0 fr.
Proof.
  intros Hk Hx. rewrite (free_blocks_split 0 fr cj k Hk). apply elem_of_app. left.
  apply list_elem_of_fmap. by exists x.
Qed.

(** Stores that leave the first words of the free blocks alone. *)
Lemma ok_ram heads p p' fr live :
  slab_ok heads p fr live -> next_free p <= next_free p' ->
  (forall x, x ∈ free_blocks 0 fr -> mem_read (ram p') x.1 = mem_read (ram p) x.1) ->
  slab_ok heads p' fr live.
Proof.
  intros Ho Hn Hm. constructor; [apply Ho| | |apply Ho].
  - intros cj h k Hh Hk. apply (chain_frame (ram p)); [|by apply (so_chain _ _ _ _ Ho cj)].
    intros x Hx. apply (Hm (x, cj)). by apply (slot_free _ _ k).
  - intros b Hb. apply (place_mono p); [by apply (so_place _ _ _ _ Ho)|done].
Qed.

Lemma store_ok heads p live b a v :
  slab_inv heads p live -> b ∈ live -> b.1 <= a < b.1 + class_size b.2 -> slab_inv heads (mem_write a v p) live.
Proof.
  intros [fr Ho] Hb Ha. exists fr. apply (ok_ram _ p); [done|done|].
  intros x Hx. rewrite mem_read_write. destruct (Z.eqb_spec x.1 a) as [He|]; [|done].
  pose proof (fop_app_in _ _ _ _ _ (so_apart _ _ _ _ Ho) Hx Hb) as Hd.
  assert (Hp : place p x) by (apply (so_place _ _ _ _ Ho), elem_of_app; by left).
  destruct (place_bounds _ _ Hp) as (_ & _ & ? & _). unfold apart_blocks in Hd. lia.
Qed.

Lemma page_frame tag p a :
  a < next_free p + KERNEL_OFFSET -> mem_read (ram (alloc_next tag p)) a = mem_read (ram p) a.
Proof. intros Ha. unfold mem_read. cbn [alloc_next ram]. rewrite zero_page_out by lia. done. Qed.

Lemma page_ok heads p live tag : slab_inv heads p live -> slab_inv heads (alloc_next tag p) live.
Proof.
  intros [fr Ho]. exists fr. apply (ok_ram _ p); [done|cbn [alloc_next next_free]; lia|].
  intros x Hx. apply page_frame. assert (Hp : place p x) by (apply (so_place _ _ _ _ Ho), elem_of_app; by left).
  destruct (place_bounds _ _ Hp) as (_ & ? & ? & _). lia.
Qed.

Lemma live_place heads p live b : slab_inv heads p live -> b ∈ live -> place p b.
Proof. intros [fr Ho] Hb. apply (so_place _ _ _ _ Ho), elem_of_app. by right. Qed.

(** What [allocate] returns. *)
Lemma allocate_cases heads p live size align :
  slab_inv heads p live -> phys_wf p ->
  exists b heads' p', allocate 2 size align heads p = Ret (b, heads', p') /\ phys_wf p' /\
    (forall c a, c ∈ live -> c.1 <= a < c.1 + class_size c.2 -> mem_read (ram p') a = mem_read (ram p) a) /\
    ((b = 0 /\ slab_inv heads' p' live /\
       (64 < align \/ class_index size align = None \/ end_free p <= next_free p)) \/
     exists ci, b <> 0 /\ align <= 64 /\ class_index size align = Some ci /\ slab_inv heads' p' ((b, ci) :: live)).
Proof.
  intros Hi Hw. unfold allocate. destruct (64 <? align) eqn:Ea; reflect.
  { exists 0, heads, p. split_and!; [done..|]. left. split_and!; [done|done|by left]. }
  destruct (class_index size align) as [ci|] eqn:Ec.
  2:{ exists 0, heads, p. split_and!; [done..|]. left. split_and!; [done|done|by right; left]. }
  destruct (class_index_spec _ _ _ Ec) as [Hci _]. destruct Hi as [fr Ho]. cbn [allocate_loop].
  destruct (Z.eqb_spec (nth ci heads 0) 0) as [Hz|Hz]; cbn [negb].
  2:{ eexists _, _, p. split_and!; [done|done|done|]. right. exists ci. split_and!; [done|done|done|].
      by apply (pop_ok _ _ fr). }
  destruct (decide (end_free p <= next_free p)) as [Hfull|Hroom].
  { rewrite refill_eq by done. destruct (Z.leb_spec (end_free p) (next_free p)); [|lia].
    rewrite Hz. exists 0, heads, p. split_and!; [done..|]. left. split_and!; [done|by exists fr|by right; right]. }
  destruct (refill_ok heads p fr live ci Ho Hw Hci Hz) as (start & p' & -> & Hs & Hi' & Hw' & Hfr); [lia|].
  pose proof (so_len _ _ _ _ Ho) as [Hlen _].
  assert (Hn : nth ci (<[ci := start]> heads) 0 = start) by (by rewrite nth_lookup, list_lookup_insert_eq by lia).
  rewrite Hn. destruct (Z.eqb_spec start 0); [done|]. cbn [negb].
  eexists _, _, p'. split_and!; [done|done| |].
  - intros c a Hc Ha. apply Hfr. assert (Hp : place p c) by (apply (live_place heads p live); [by exists fr|done]).
    destruct (place_bounds _ _ Hp) as (_ & ? & _ & _). lia.
  - right. exists ci. split_and!; [done|done|done|]. destruct Hi' as [fr' Ho'].
    pose proof (pop_ok (<[ci := start]> heads) p' fr' live ci Ho' Hci ltac:(by rewrite Hn)) as Hpop.
    rewrite Hn in Hpop. exact Hpop.
Qed.

Lemma heap_step_ok s e s' :
  heap_step s e s' -> slab_inv s.1.1 s.1.2 s.2 /\ phys_wf s.1.2 -> slab_inv s'.1.1 s'.1.2 s'.2 /\ phys_wf s'.1.2.
Proof.
  destruct 1 as [hs p live size align b hs' p' ci Ha Hc Hb|hs p live size align hs' p' Ha|
    hs p live live' size align b ci hs' p' Hperm Hc Hd|hs p live b a v Hb Hm Ha1 Ha2|hs p live tag Hlt];
    cbn [fst snd]; intros [Hi Hw].
  - destruct (allocate_cases hs p live size align Hi Hw) as (b2 & hs2 & p2 & Ha2 & Hw2 & _ & Hcase).
    rewrite Ha in Ha2. injection Ha2 as <- <- <-. destruct Hcase as [(Hb0 & _)|(cj & _ & _ & Hcj & Hok)]; [done|].
    rewrite Hc in Hcj. injection Hcj as <-. done.
  - destruct (allocate_cases hs p live size align Hi Hw) as (b2 & hs2 & p2 & Ha2 & Hw2 & _ & Hcase).
    rewrite Ha in Ha2. injection Ha2 as <- <- <-. by destruct Hcase as [(_ & Hok & _)|(cj & ? & _)].
  - unfold deallocate in Hd. rewrite Hc in Hd. injection Hd as <- <-. split; [|by apply store_wf].
    destruct Hi as [fr Ho]. apply (heap_push_ok hs p b ci fr live'). destruct Ho as [H1 H2 H3 H4]. constructor; try done.
    + intros x Hx. apply H3. by rewrite Hperm.
    + eapply fop_perm; [apply apart_sym| |exact H4]. by rewrite Hperm.
  - split; [|by apply store_wf]. apply (store_ok _ _ _ b); [done|done|lia].
  - split; [by apply page_ok|by apply alloc_next_wf].
Qed.

Lemma slab_new_inv p : slab_inv slab_new p [].
Proof.
  exists (replicate 7 []). constructor; [done| |by intros b ?%elem_of_nil|constructor].
  intros ci h l [-> _]%lookup_replicate [-> _]%lookup_replicate. done.
Qed.

(** ** Claims *)

(** C17. The heap never hands out memory twice.  From an empty heap, through
    any calls of [allocate] and [deallocate] (of blocks held, with a layout
    of their class), stores by clients into the blocks they hold and page
    allocations by the rest of the kernel, the blocks held are pairwise
    disjoint and lie inside pages of RAM already handed out. *)
Theorem heap_blocks_disjoint p0 tr hs p live :
  phys_wf p0 -> rtc_steps heap_step (slab_new, p0, []) tr (hs, p, live) ->
  ForallOrdPairs apart_blocks live /\
  forall b, b ∈ live -> RAM_BASE + KERNEL_OFFSET <= b.1 /\ b.1 + class_size b.2 <= next_free p + KERNEL_OFFSET.
Proof.
  intros Hw Hr.
  pose proof (steps_invariant heap_step (fun s => slab_inv s.1.1 s.1.2 s.2 /\ phys_wf s.1.2)
    (fun s e s' Hi Hs => heap_step_ok s e s' Hs Hi) _ _ _ Hr) as Hinv.
  destruct Hinv as [[fr Ho] _]; [split; [apply slab_new_inv|done]|]. cbn [fst snd] in Ho. split.
  - pose proof (so_apart _ _ _ _ Ho) as Ha. induction (free_blocks 0 fr) as [|x l IH]; [done|].
    apply IH. by inversion Ha.
  - intros b Hb. assert (Hp : place p b) by (apply (live_place hs p live); [by exists fr|done]).
    destruct (place_bounds _ _ Hp) as (? & ? & _). lia.
Qed.

(** What [alloc] promises.  It always returns (within two rounds of its
    loop, never a panic) and keeps every word of the blocks held.  It returns
    null only when the alignment is above 64, the request is over 2048 bytes
    or no page is left; otherwise a block that is not
    held, of the class of the request and at least as long. *)
Theorem heap_alloc_spec heads p live size align :
  slab_inv heads p live -> phys_wf p ->
  exists b heads' p', allocate 2 size align heads p = Ret (b, heads', p') /\ phys_wf p' /\
    (forall c a, c ∈ live -> c.1 <= a < c.1 + class_size c.2 -> mem_read (ram p') a = mem_read (ram p) a) /\
    (b = 0 -> slab_inv heads' p' live /\ (64 < align \/ 2048 < Z.max size align \/ end_free p <= next_free p)) /\
    (b <> 0 -> align <= 64 /\ exists ci, class_index size align = Some ci /\ Z.max size align <= class_size ci /\
       slab_inv heads' p' ((b, ci) :: live)).
Proof.
  intros Hi Hw. destruct (allocate_cases heads p live size align Hi Hw) as (b & hs' & p' & Ha & Hw' & Hf & Hcase).
  exists b, hs', p'. split_and!; [done..| |]; intros Hb;
    destruct Hcase as [(Hb0 & Hi' & Hwhy)|(ci & Hb0 & Hal & Hc & Hi')]; try done.
  - split; [done|]. destruct Hwhy as [?|[?%class_index_none|?]]; tauto.
  - split; [done|]. exists ci. split_and!; [done| |done]. by apply (class_index_spec _ _ _ Hc).
Qed.

(** Alignments above 8 are accepted and not kept.  The block area of a
    heap page starts 8 bytes into the page, so a block asked for with an
    alignment of 16, 32 or 64 is never a multiple of it. *)
Theorem heap_blocks_misaligned heads p live size align b heads' p' :
  slab_inv heads p live -> phys_wf p -> align = 16 \/ align = 32 \/ align = 64 ->
  allocate 2 size align heads p = Ret (b, heads', p') -> b <> 0 -> b mod align <> 0.
Proof.
  intros Hi Hw Hal Ha Hb. destruct (allocate_cases heads p live size align Hi Hw) as (b2 & hs2 & p2 & Ha2 & _ & _ & Hcase).
  rewrite Ha in Ha2. injection Ha2 as <- <- <-. destruct Hcase as [(Hb0 & _)|(ci & _ & _ & _ & Hi')]; [done|].
  assert (Hp : place p' (b, ci)) by (apply (live_place heads' p' ((b, ci) :: live)); [done|by left]).
  destruct (place_bounds _ _ Hp) as (_ & _ & _ & Hm). cbn [fst] in Hm.
  pose proof (Z.div_mod b 32 ltac:(lia)) as Hd. rewrite Hm in Hd.
  destruct Hal as [->|[-> | ->]]; intros H0; apply Z.mod_divide in H0 as [z Hz]; lia.
Qed.

(** ** Examples *)
Definition demo_alloc : exec (Z * list Z * Phys) := allocate 2 40 16 slab_new demo_phys.

Lemma demo_alloc_ret :
  exists hs p, demo_alloc = Ret (0x40010000 + KERNEL_OFFSET + 8, hs, p).
Proof.
  unfold demo_alloc, allocate. change (64 <? 16) with false. change (class_index 40 16) with (Some 1%nat).
  cbv iota. cbn [allocate_loop]. rewrite refill_eq by (apply demo_phys_wf || lia).
  change (end_free demo_phys <=? next_free demo_phys) with false. by eexists _, _.
Qed.

Lemma heap_blocks_disjoint_witness :
  exists hs p, rtc_steps heap_step (slab_new, demo_phys, [])
      [HAlloc 40 16 (0x40010000 + KERNEL_OFFSET + 8)] (hs, p, [(0x40010000 + KERNEL_OFFSET + 8, 1%nat)]) /\
    0x40010000 + KERNEL_OFFSET + 8 + 64 <= next_free p + KERNEL_OFFSET.
Proof.
  destruct demo_alloc_ret as (hs & p & Hd). exists hs, p.
  assert (Hr : rtc_steps heap_step (slab_new, demo_phys, [])
      [HAlloc 40 16 (0x40010000 + KERNEL_OFFSET + 8)] (hs, p, [(0x40010000 + KERNEL_OFFSET + 8, 1%nat)])).
  { econstructor; [|constructor]. constructor; [exact Hd|reflexivity|discriminate]. }
  split; [exact Hr|].
  destruct (heap_blocks_disjoint _ _ _ _ _ demo_phys_wf Hr) as [_ H].
  apply (H (0x40010000 + KERNEL_OFFSET + 8, 1%nat)). by left.
Defined.

Lemma heap_alloc_spec_witness :
  exists b heads' p', allocate 2 40 16 slab_new demo_phys = Ret (b, heads', p') /\ phys_wf p'.
Proof.
  destruct (heap_alloc_spec slab_new demo_phys [] 40 16 (slab_new_inv _) demo_phys_wf)
    as (b & hs & p & Ha & Hw & _).
  exists b, hs, p. split; [exact Ha|exact Hw].
Defined.

Lemma heap_blocks_misaligned_witness : (0x40010000 + KERNEL_OFFSET + 8) mod 16 <> 0.
Proof.
  destruct demo_alloc_ret as (hs & p & Hd).
  apply (heap_blocks_misaligned slab_new demo_phys [] 40 16 _ hs p (slab_new_inv _) demo_phys_wf);
    [by left|exact Hd|discriminate].
Defined.
