(* ===== verification/Asid.v ===== *)
(** * Asid: address-space identifiers

    kernel/src/arch/aarch64/asid.rs: identifiers 1 to 255 handed out by a
    16-bit counter, with a generation that counts the roll-overs, and the word
    written to TTBR0_EL1. *)
From Stdlib Require Import ZArith Lia.
From stdpp Require Import base tactics option list.
From S2P Require Import Prelude.
Local Open Scope Z_scope.

Definition TTBR_ASID_SHIFT : Z := 48.
Definition ASID_KERNEL : Z := 0.
Definition MAX_USER_ASID : Z := 255.

(** [NEXT_ASID] and [ROLLOVER_GEN]. *)
Record Asids := mkAsids { next_asid : Z; rollover_gen : Z }.

Definition asids_static : Asids := mkAsids 1 0.

Definition asid_alloc (s : Asids) : option Z * Asids :=
  let next := next_asid s in
  if (next =? 0) || (MAX_USER_ASID <? next)
  then (Some 1, mkAsids 1 (u32w (rollover_gen s + 1)))
  else (Some next, mkAsids (u16w (next + 1)) (rollover_gen s)).

Definition asid_free (_ : Z) (s : Asids) : Asids := s.

Definition rollover_generation (s : Asids) : Z := rollover_gen s.

Definition pack_ttbr (l0_base_pa asid : Z) : Z :=
  Z.lor (Z.land l0_base_pa 0x0000FFFFFFFFF000) (u64w (Z.shiftl asid TTBR_ASID_SHIFT)).

(** [n] calls of [alloc]: each result with the generation read after it. *)
Fixpoint alloc_n (n : nat) (s : Asids) : list (Z * Z) * Asids :=
  match n with
  | O => ([], s)
  | S n =>
      let '(a, s1) := asid_alloc s in
      let '(l, s2) := alloc_n n s1 in
      ((default 0 a, rollover_generation s1) :: l, s2)
  end.

(** ** Lemmas *)
Definition asids_wf (s : Asids) : Prop := 1 <= next_asid s <= 256 /\ 0 <= rollover_gen s < 2 ^ 32.

Lemma asid_alloc_wf s a s' :
  asids_wf s -> asid_alloc s = (a, s') ->
  asids_wf s' /\ exists v, a = Some v /\ 1 <= v <= MAX_USER_ASID.
Proof.
  unfold asids_wf, asid_alloc, MAX_USER_ASID. intros [H1 H2].
  destruct ((next_asid s =? 0) || (255 <? next_asid s)) eqn:E; intros [= <- <-]; cbn.
  - split; [split; [lia|apply u32w_range]|]. exists 1. split; [done|lia].
  - reflect. unfold u16w. rewrite Z.mod_small by lia. split; [lia|]. exists (next_asid s). split; [done|lia].
Qed.

Lemma pack_ttbr_asid pa asid : 0 <= asid < 2 ^ 16 -> Z.shiftr (pack_ttbr pa asid) TTBR_ASID_SHIFT = asid.
Proof.
  intros Ha. unfold pack_ttbr, TTBR_ASID_SHIFT. rewrite Z.shiftr_lor, Z.shiftr_land.
  change (Z.shiftr 0x0000FFFFFFFFF000 48) with 0. rewrite Z.land_0_r, Z.lor_0_l.
  rewrite u64w_small by (rewrite Z.shiftl_mul_pow2 by lia; lia). by rewrite Z.shiftr_shiftl_l, Z.shiftl_0_r by lia.
Qed.

(** ** Claims *)

(** The translation-table word keeps its two parts.  For a page-aligned
    48-bit table address and an 8-bit identifier, the identifier is the top
    sixteen bits of [pack_ttbr] and the address the rest. *)
Theorem pack_ttbr_fields pa asid :
  0 <= pa < 2 ^ 48 -> pa mod 4096 = 0 -> 0 <= asid <= MAX_USER_ASID ->
  Z.shiftr (pack_ttbr pa asid) TTBR_ASID_SHIFT = asid /\ Z.land (pack_ttbr pa asid) (2 ^ 48 - 1) = pa.
Proof.
  unfold MAX_USER_ASID. intros Hp Hm Ha. split; [apply pack_ttbr_asid; lia|].
  assert (Hl : Z.land pa 0x0000FFFFFFFFF000 = pa).
  { change 0x0000FFFFFFFFF000 with (Z.shiftl (Z.ones 36) 12).
    pose proof (Z.div_mod pa 4096 ltac:(lia)) as Hd. rewrite Hm in Hd.
    replace pa with (Z.shiftl (pa / 4096) 12) by (rewrite Z.shiftl_mul_pow2 by lia; change (2 ^ 12) with 4096; lia).
    rewrite <- Z.shiftl_land, Z.land_ones by lia. f_equal. apply Z.mod_small.
    split; [apply Z.div_pos; lia|]. apply Z.div_lt_upper_bound; lia. }
  unfold pack_ttbr, TTBR_ASID_SHIFT. rewrite Hl, u64w_small by (rewrite Z.shiftl_mul_pow2 by lia; lia).
  change (2 ^ 48 - 1) with (Z.ones 48). rewrite Z.land_lor_distr_l, !Z.land_ones, Z.shiftl_mul_pow2 by lia.
  rewrite Z.mod_mul, Z.lor_0_r by lia. apply Z.mod_small. lia.
Qed.

(** Identifiers stay in range but not apart.  Every call answers an
    identifier between 1 and 255, never the kernel's 0; a roll-over answers 1
    and leaves the counter at 1, so the next call answers 1 again in the same
    generation: two live address spaces share their TLB entries. *)
Theorem asid_rollover_duplicates s :
  asids_wf s -> next_asid s = MAX_USER_ASID + 1 ->
  (forall n a g, (a, g) ∈ fst (alloc_n n s) -> 1 <= a <= MAX_USER_ASID) /\
  exists g, fst (alloc_n 2 s) = [(1, g); (1, g)].
Proof.
  intros Hw Hn. split.
  - clear Hn. intros n. revert s Hw. induction n as [|n IH]; intros s Hw a g; cbn [alloc_n].
    + by intros ?%elem_of_nil.
    + destruct (asid_alloc s) as [o s1] eqn:E. destruct (asid_alloc_wf _ _ _ Hw E) as (Hw1 & v & -> & Hv).
      destruct (alloc_n n s1) as [l s2] eqn:En. cbn [fst]. intros [[= -> ->]|Hin]%elem_of_cons; [done|].
      apply (IH s1 Hw1 a g). by rewrite En.
  - unfold alloc_n, asid_alloc. rewrite Hn. cbn. by eexists.
Qed.

(** ** Examples *)
Lemma pack_ttbr_fields_witness : Z.shiftr (pack_ttbr 0x40081000 7) 48 = 7.
Proof. apply (pack_ttbr_fields 0x40081000 7); [lia|reflexivity|unfold MAX_USER_ASID; lia]. Defined.

(** From the boot state, calls 256 and 257. *)
Lemma asid_rollover_duplicates_witness :
  exists g, fst (alloc_n 2 (snd (alloc_n 255 asids_static))) = [(1, g); (1, g)].
Proof.
  apply (asid_rollover_duplicates (snd (alloc_n 255 asids_static)));
    [vm_compute; repeat split; congruence|reflexivity].
Defined.
