(* ===== verification/Vmar.v ===== *)
(** * Vmar: regions of an address space

    kernel/src/memory/vmar.rs: the book-keeping of a process's address space,
    sub-regions and mappings as lists of intervals.  Addresses are 64-bit
    words and every sum wraps, as compiled.  The metadata page of a region
    comes from the allocator of Phys.v. *)
From Stdlib Require Import ZArith Lia.
From stdpp Require Import base tactics option list gmap.
From S2P Require Import Prelude Shared Phys.
Local Open Scope Z_scope.

Definition PAGE_SIZE : Z := 4096.

(** ** Flags *)
Definition VMAR_READ : Z := Z.shiftl 1 0.
Definition VMAR_WRITE : Z := Z.shiftl 1 1.
Definition VMAR_EXECUTE : Z := Z.shiftl 1 2.
Definition VMAR_USER : Z := Z.shiftl 1 3.

Definition readable (f : Z) : bool := negb (Z.land f VMAR_READ =? 0).
Definition writable (f : Z) : bool := negb (Z.land f VMAR_WRITE =? 0).
Definition executable (f : Z) : bool := negb (Z.land f VMAR_EXECUTE =? 0).
Definition user (f : Z) : bool := negb (Z.land f VMAR_USER =? 0).

(** ** State *)
Definition MAX_CHILDREN : nat := 32.
Definition MAX_MAPPINGS : nat := 32.

Record Mapping := mkMapping {
  mp_vmo_id : Z; mp_vmo_offset : Z; mp_virt_addr : Z; mp_size : Z; mp_flags : Z;
  mp_installed : bool }.

Record SubRegion := mkSubRegion { sr_base : Z; sr_size : Z; sr_meta_pa : option Z }.

Record Vmar := mkVmar {
  vr_base : Z; vr_size : Z; vr_meta : Z; vr_children : list SubRegion; vr_mappings : list Mapping }.

Definition vmar_new_dummy : Vmar := mkVmar 0 0 0 [] [].

(** [x & (PAGE_SIZE - 1) != 0]. *)
Definition unaligned (x : Z) : bool := negb (Z.land x (PAGE_SIZE - 1) =? 0).

Definition vmar_create (base size : Z) (p : Phys) : option (kresult Vmar * Phys) :=
  if unaligned base || (size =? 0) then Some (Err InvalidArgs, p)
  else match alloc_vmar_meta p with
       | None => None
       | Some (Err e, p') => Some (Err e, p')
       | Some (Ok meta, p') => Some (Ok (mkVmar base (page_up size) meta [] []), p')
       end.

(** ** Sub-regions *)

(** [candidate] and [size] against the interval of [len] bytes at [start]: the
    next candidate when they meet. *)
Definition clash (candidate size start len : Z) : option Z :=
  if (candidate <? u64w (start + len)) && (start <? u64w (candidate + size))
  then Some (page_up (u64w (start + len))) else None.

Fixpoint clash_children (candidate size : Z) (l : list SubRegion) : option Z :=
  match l with
  | [] => None
  | c :: l =>
      match (if bool_decide (is_Some (sr_meta_pa c))
             then clash candidate size (sr_base c) (sr_size c) else None) with
      | Some n => Some n
      | None => clash_children candidate size l
      end
  end.

Fixpoint clash_mappings (candidate size : Z) (l : list Mapping) : option Z :=
  match l with
  | [] => None
  | m :: l =>
      match clash candidate size (mp_virt_addr m) (mp_size m) with
      | Some n => Some n
      | None => clash_mappings candidate size l
      end
  end.

(** ['outer: loop]. *)
Fixpoint find_gap (fuel : nat) (v : Vmar) (size candidate : Z) : exec (kresult Z) :=
  match fuel with
  | O => Running
  | S fuel =>
      if u64w (vr_base v + vr_size v) <? u64w (candidate + size) then Ret (Err NoMemory)
      else match clash_children candidate size (vr_children v) with
           | Some n => find_gap fuel v size n
           | None =>
               match clash_mappings candidate size (vr_mappings v) with
               | Some n => find_gap fuel v size n
               | None => Ret (Ok candidate)
               end
           end
  end.

Definition allocate_subregion (fuel : nat) (v : Vmar) (size : Z) (p : Phys) :
    exec (kresult Vmar * Vmar * Phys) :=
  if size =? 0 then Ret (Err InvalidArgs, v, p)
  else
    let size := page_up size in
    if (MAX_CHILDREN <=? length (vr_children v))%nat then Ret (Err NoMemory, v, p)
    else
      g ← find_gap fuel v size (vr_base v);
      match g with
      | Err e => Ret (Err e, v, p)
      | Ok candidate =>
          r ← or_panic (vmar_create candidate size p);
          match r with
          | (Err e, p') => Ret (Err e, v, p')
          | (Ok child, p') =>
              Ret (Ok child,
                   mkVmar (vr_base v) (vr_size v) (vr_meta v)
                     (vr_children v ++ [mkSubRegion candidate size (Some (vr_meta child))])
                     (vr_mappings v), p')
          end
      end.

Definition reserve_mapping (v : Vmar) (vmo_id vmo_offset virt_addr size flags : Z) :
    kresult Vmar :=
  if (size =? 0) || unaligned virt_addr || unaligned vmo_offset then Err InvalidArgs
  else if (virt_addr <? vr_base v) ||
          (u64w (vr_base v + vr_size v) <? u64w (virt_addr + size)) then Err InvalidArgs
  else if (MAX_MAPPINGS <=? length (vr_mappings v))%nat then Err NoMemory
  else Ok (mkVmar (vr_base v) (vr_size v) (vr_meta v) (vr_children v)
             (vr_mappings v ++ [mkMapping vmo_id vmo_offset virt_addr size flags true])).

(** ** Specification

    The occupied intervals of a region, and where a new one fits. *)
Definition intervals (v : Vmar) : list (Z * Z) :=
  map (fun c => (sr_base c, sr_size c)) (vr_children v) ++
  map (fun m => (mp_virt_addr m, mp_size m)) (vr_mappings v).

Definition disjoint (a n b m : Z) : Prop := a + n <= b \/ b + m <= a.

Record vmar_ok (v : Vmar) : Prop := {
  vk_base : 0 <= vr_base v /\ vr_base v mod 4096 = 0;
  vk_end : 0 < vr_size v /\ vr_size v mod 4096 = 0 /\ vr_base v + vr_size v <= 2 ^ 63;
  vk_children : forall c, c ∈ vr_children v -> is_Some (sr_meta_pa c);
  vk_inside : forall a n, (a, n) ∈ intervals v ->
    vr_base v <= a /\ 0 < n /\ a + n <= vr_base v + vr_size v }.

(** A page-aligned place of [size] bytes that meets no occupied interval. *)
Definition fits (v : Vmar) (size c : Z) : Prop :=
  vr_base v <= c /\ c mod 4096 = 0 /\ c + size <= vr_base v + vr_size v /\
  forall a n, (a, n) ∈ intervals v -> disjoint c size a n.

Lemma unaligned_spec x : 0 <= x -> unaligned x = negb (x mod 4096 =? 0).
Proof.
  intros Hx. unfold unaligned, PAGE_SIZE. change (4096 - 1) with (Z.ones 12).
  by rewrite Z.land_ones by lia.
Qed.

Lemma page_up_least a c :
  0 <= a < 2 ^ 64 - 4096 -> a <= c -> c mod 4096 = 0 -> page_up a <= c.
Proof.
  intros Ha Hle Hc. rewrite page_up_spec by done. pose proof (Z.div_mod c 4096).
  assert ((a + 4095) / 4096 <= c / 4096); [|lia].
  apply Z.lt_succ_r, Z.div_lt_upper_bound; lia.
Qed.

Lemma page_up_aligned a : 0 <= a < 2 ^ 64 - 4096 -> a mod 4096 = 0 -> page_up a = a.
Proof.
  intros Ha Hm. pose proof (page_up_bounds a Ha) as [[? ?] ?].
  pose proof (page_up_least a a Ha). lia.
Qed.

Section first_fit.
Context (v : Vmar) (size : Z).
Hypothesis Hv : vmar_ok v.
Hypothesis Hsize : 0 < size /\ size < 2 ^ 63.

(** The intervals that a candidate has not passed yet. *)
Definition ahead (candidate : Z) : nat :=
  length (filter (fun i => candidate < fst i + snd i) (intervals v)).

Lemma clash_spec candidate a n :
  vr_base v <= candidate <= vr_base v + vr_size v -> (a, n) ∈ intervals v ->
  match clash candidate size a n with
  | Some next => candidate < a + n /\ a < candidate + size /\ next = page_up (a + n)
  | None => disjoint candidate size a n
  end.
Proof using Hv Hsize.
  intros Hc Hin. destruct (vk_inside _ Hv _ _ Hin) as (Ha & Hn & He).
  destruct (vk_base _ Hv) as [Hb _]. destruct (vk_end _ Hv) as (_ & _ & Hend). unfold clash, disjoint.
  rewrite !u64w_small by lia.
  destruct (Z.ltb_spec candidate (a + n)), (Z.ltb_spec a (candidate + size)); cbn; lia.
Qed.

(** The first conflict, children before mappings. *)
Lemma clashes_spec candidate :
  vr_base v <= candidate <= vr_base v + vr_size v ->
  match (match clash_children candidate size (vr_children v) with
         | Some n => Some n
         | None => clash_mappings candidate size (vr_mappings v)
         end) with
  | Some next => exists a n, (a, n) ∈ intervals v /\
      candidate < a + n /\ a < candidate + size /\ next = page_up (a + n)
  | None => forall a n, (a, n) ∈ intervals v -> disjoint candidate size a n
  end.
Proof using Hv Hsize.
  intros Hc.
  assert (Hch : forall l, (forall c, c ∈ l -> c ∈ vr_children v) ->
    match clash_children candidate size l with
    | Some next => exists a n, (a, n) ∈ intervals v /\
        candidate < a + n /\ a < candidate + size /\ next = page_up (a + n)
    | None => forall c, c ∈ l -> disjoint candidate size (sr_base c) (sr_size c)
    end).
  { induction l as [|c l IH]; intros Hl; cbn [clash_children]; [intros c Hin; by apply elem_of_nil in Hin|].
    assert (Hcl : c ∈ vr_children v) by (apply Hl; by constructor).
    rewrite bool_decide_true by by apply (vk_children _ Hv).
    assert (Hin : (sr_base c, sr_size c) ∈ intervals v).
    { apply elem_of_app. left. apply list_elem_of_fmap. by exists c. }
    pose proof (clash_spec candidate _ _ Hc Hin) as Hs.
    destruct (clash candidate size (sr_base c) (sr_size c)); [by exists (sr_base c), (sr_size c)|].
    specialize (IH (fun c' H => Hl c' (list_elem_of_further _ _ _ H))).
    destruct (clash_children candidate size l); [done|].
    intros c' [->|Hc']%elem_of_cons; [done|by apply IH]. }
  assert (Hmp : forall l, (forall m, m ∈ l -> m ∈ vr_mappings v) ->
    match clash_mappings candidate size l with
    | Some next => exists a n, (a, n) ∈ intervals v /\
        candidate < a + n /\ a < candidate + size /\ next = page_up (a + n)
    | None => forall m, m ∈ l -> disjoint candidate size (mp_virt_addr m) (mp_size m)
    end).
  { induction l as [|m l IH]; intros Hl; cbn [clash_mappings]; [intros m Hin; by apply elem_of_nil in Hin|].
    assert (Hin : (mp_virt_addr m, mp_size m) ∈ intervals v).
    { apply elem_of_app. right. apply list_elem_of_fmap. exists m. split; [done|].
      apply Hl. by constructor. }
    pose proof (clash_spec candidate _ _ Hc Hin) as Hs.
    destruct (clash candidate size (mp_virt_addr m) (mp_size m));
      [by exists (mp_virt_addr m), (mp_size m)|].
    specialize (IH (fun m' H => Hl m' (list_elem_of_further _ _ _ H))).
    destruct (clash_mappings candidate size l); [done|].
    intros m' [->|Hm']%elem_of_cons; [done|by apply IH]. }
  specialize (Hch (vr_children v) (fun _ H => H)). specialize (Hmp (vr_mappings v) (fun _ H => H)).
  destruct (clash_children _ _ _); [done|]. destruct (clash_mappings _ _ _); [done|].
  intros a n [(c & [= -> ->] & Hin)%list_elem_of_fmap|(m & [= -> ->] & Hin)%list_elem_of_fmap]%elem_of_app;
    [by apply Hch|by apply Hmp].
Qed.
Lemma next_candidate candidate a n :
  vr_base v <= candidate -> (a, n) ∈ intervals v -> candidate < a + n ->
  candidate < page_up (a + n) <= vr_base v + vr_size v /\ page_up (a + n) mod 4096 = 0 /\
  a + n <= page_up (a + n) /\ (ahead (page_up (a + n)) < ahead candidate)%nat.
Proof using Hv.
  intros Hc Hin Hlt. destruct (vk_inside _ Hv _ _ Hin) as (Ha & Hn & He).
  destruct (vk_base _ Hv) as [Hb Hba], (vk_end _ Hv) as (Hs & Hsa & Hend).
  destruct (page_up_bounds (a + n)) as [[Hge _] Hal]; [lia|].
  assert (Hle : page_up (a + n) <= vr_base v + vr_size v).
  { apply page_up_least; [lia|done|]. by rewrite Zplus_mod, Hba, Hsa. }
  split; [lia|]. split; [done|]. split; [done|]. unfold ahead.
  assert (Hsub : forall l, (a, n) ∈ l ->
    (length (filter (fun i : Z * Z => (page_up (a + n) < fst i + snd i)%Z) l) <
     length (filter (fun i : Z * Z => (candidate < fst i + snd i)%Z) l))%nat); [|by apply Hsub].
  assert (Hmono : forall l,
    (length (filter (fun i : Z * Z => (page_up (a + n) < fst i + snd i)%Z) l) <=
     length (filter (fun i : Z * Z => (candidate < fst i + snd i)%Z) l))%nat).
  { induction l as [|i l IH]; [done|]. rewrite !filter_cons.
    repeat case_decide; cbn [length]; lia. }
  induction l as [|i l IH]; intros Hi; [by apply elem_of_nil in Hi|].
  rewrite !filter_cons. apply elem_of_cons in Hi as [<-|Hi].
  - rewrite decide_False, decide_True by (cbn; lia). cbn [length]. specialize (Hmono l). lia.
  - specialize (IH Hi). repeat case_decide; cbn [length]; lia.
Qed.

(** The search ends, with the lowest place that fits or because none does. *)
Lemma find_gap_spec fuel candidate :
  vr_base v <= candidate <= vr_base v + vr_size v -> candidate mod 4096 = 0 ->
  (ahead candidate < fuel)%nat -> (forall c, fits v size c -> candidate <= c) ->
  exists r, find_gap fuel v size candidate = Ret r /\
    match r with
    | Ok c => fits v size c /\ forall c', fits v size c' -> c <= c'
    | Err e => e = NoMemory /\ forall c', ~ fits v size c'
    end.
Proof using Hv Hsize.
  revert candidate. induction fuel as [|fuel IH]; intros candidate Hc Hal Hf Hlow; [lia|].
  cbn [find_gap]. destruct (vk_base _ Hv) as [Hb Hba], (vk_end _ Hv) as (Hs & Hsa & Hend).
  rewrite !u64w_small by lia.
  destruct (Z.ltb_spec (vr_base v + vr_size v) (candidate + size)) as [Hover|Hroom].
  - eexists. split; [done|]. split; [done|]. intros c' Hfit. pose proof (Hlow c' Hfit).
    destruct Hfit as (_ & _ & ? & _). lia.
  - pose proof (clashes_spec candidate Hc) as Hcl.
    assert (Hmove : forall next, (exists a n, (a, n) ∈ intervals v /\ candidate < a + n /\
        a < candidate + size /\ next = page_up (a + n)) ->
      exists r, find_gap fuel v size next = Ret r /\
        match r with
        | Ok c => fits v size c /\ forall c', fits v size c' -> c <= c'
        | Err e => e = NoMemory /\ forall c', ~ fits v size c'
        end).
    { intros next (a & n & Hin & Hlt & Hlt2 & ->).
      destruct (next_candidate candidate a n) as ([H1 H2] & H3 & H4 & H5); [lia|done|done|].
      apply IH; [lia|done|lia|]. intros c' Hfit. pose proof (Hlow c' Hfit).
      destruct Hfit as (_ & Hal' & _ & Hdis). destruct (Hdis a n Hin) as [?|?]; [lia|].
      destruct (vk_inside _ Hv _ _ Hin) as (? & ? & ?). apply page_up_least; [lia|done|done]. }
    destruct (clash_children candidate size (vr_children v)); [by apply Hmove|].
    destruct (clash_mappings candidate size (vr_mappings v)); [by apply Hmove|].
    eexists. split; [done|]. split; [|done]. split_and!; [lia|done|lia|done].
Qed.
End first_fit.

Lemma ahead_length v c : (ahead v c <= length (vr_children v) + length (vr_mappings v))%nat.
Proof.
  unfold ahead. etransitivity; [apply length_filter|]. unfold intervals.
  by rewrite length_app, !length_map.
Qed.

(** ** Theorems *)

(** C27. [allocate_subregion] on a well-formed region ends within one round per
    recorded interval, and is a complete first fit: it succeeds exactly when
    some page-aligned place for the rounded size lies inside the region and
    meets no child and no mapping (and a metadata page and a child slot are
    left), takes the lowest such place, and records it. *)
Theorem allocate_subregion_first_fit v size p fuel :
  vmar_ok v -> phys_wf p -> 0 < size < 2 ^ 62 ->
  (length (vr_children v) + length (vr_mappings v) < fuel)%nat ->
  exists r, allocate_subregion fuel v size p = Ret r /\
  match r with
  | (Ok child, v', p') =>
      fits v (page_up size) (vr_base child) /\ vr_size child = page_up size /\
      (forall c, fits v (page_up size) c -> vr_base child <= c) /\
      vmar_ok child /\ vmar_ok v' /\
      intervals v' ≡ₚ (vr_base child, page_up size) :: intervals v /\
      vr_meta child = next_free p
  | (Err e, v', p') =>
      e = NoMemory /\ v' = v /\ p' = p /\
      ((MAX_CHILDREN <= length (vr_children v))%nat \/ end_free p <= next_free p \/
       forall c, ~ fits v (page_up size) c)
  end.
Proof.
  intros Hv Hp Hsz Hfuel. unfold allocate_subregion. destruct (Z.eqb_spec size 0); [lia|].
  destruct (page_up_bounds size) as [Hpu Hpa]; [lia|].
  destruct (Nat.leb_spec MAX_CHILDREN (length (vr_children v))).
  { eexists. split; [done|]. split_and!; [done..|by left]. }
  pose proof (vk_base _ Hv) as [Hb Hba]. pose proof (vk_end _ Hv) as (Hs & Hsa & Hend).
  destruct (find_gap_spec v (page_up size) Hv ltac:(lia) fuel (vr_base v)) as (g & -> & Hg);
    [lia|done|pose proof (ahead_length v (vr_base v)); lia|by intros c (? & _)|].
  cbn [mbind exec_bind]. destruct g as [c|e].
  2:{ eexists. split; [done|]. destruct Hg as [-> Hno]. split_and!; [done..|]. right. by right. }
  destruct Hg as [Hfit Hleast]. pose proof Hfit as (Hc1 & Hc2 & Hc3 & Hdis).
  unfold vmar_create. rewrite unaligned_spec, Hc2 by lia.
  destruct (Z.eqb_spec (page_up size) 0); [lia|]. cbn [Z.eqb negb orb].
  unfold alloc_vmar_meta. rewrite alloc_page_eq by done.
  destruct (Z.leb_spec (end_free p) (next_free p)); cbn [or_panic mbind exec_bind].
  { eexists. split; [done|]. split_and!; [done..|]. right. by left. }
  rewrite (page_up_aligned (page_up size)) by (done || lia).
  eexists. split; [done|]. cbn [vr_base vr_size vr_meta].
  assert (Hperm : intervals (mkVmar (vr_base v) (vr_size v) (vr_meta v)
      (vr_children v ++ [mkSubRegion c (page_up size) (Some (next_free p))]) (vr_mappings v))
    ≡ₚ (c, page_up size) :: intervals v).
  { unfold intervals. cbn [vr_children vr_mappings]. rewrite map_app, <- app_assoc. cbn.
    symmetry. apply Permutation_middle. }
  split_and!; try done.
  - constructor; cbn [vr_base vr_size vr_children intervals vr_mappings].
    + split; [lia|done].
    + split_and!; [lia|done|lia].
    + intros x Hx. by apply elem_of_nil in Hx.
    + intros a m Hx. by apply elem_of_nil in Hx.
  - constructor; cbn [vr_base vr_size vr_children].
    + done.
    + done.
    + intros x [Hx| ->%list_elem_of_singleton]%elem_of_app; [by apply (vk_children _ Hv)|]. by eexists.
    + intros a m. rewrite Hperm. intros [[= -> ->]|Hin]%elem_of_cons; [lia|]. by apply (vk_inside _ Hv).
Qed.

Definition demo_vmar : Vmar :=
  mkVmar 0x100000 0x10000 0x40000000 [mkSubRegion 0x100000 0x1000 (Some 0x40001000)]
    [mkMapping 1 0 0x102000 0x1800 3 true].
Lemma demo_vmar_ok : vmar_ok demo_vmar.
Proof.
  constructor; cbn [vr_base vr_size vr_children demo_vmar intervals vr_mappings map app].
  - split; [lia|reflexivity].
  - split_and!; [lia|reflexivity|lia].
  - intros c Hc%list_elem_of_singleton. subst c. by eexists.
  - intros a n Hin. cbn in Hin. rewrite !elem_of_cons, elem_of_nil in Hin.
    destruct Hin as [[= -> ->]|[[= -> ->]|[]]]; lia.
Qed.

Lemma allocate_subregion_first_fit_witness :
  exists r, allocate_subregion 3 demo_vmar 0x2000 demo_phys = Ret r /\
    match r with
    | (Ok child, _, _) => fits demo_vmar (page_up 0x2000) (vr_base child)
    | (Err e, _, _) => e = NoMemory
    end.
Proof.
  destruct (allocate_subregion_first_fit demo_vmar 0x2000 demo_phys 3 demo_vmar_ok demo_phys_wf)
    as (r & Hr & H); [lia|cbn; lia|].
  exists r. split; [exact Hr|]. destruct r as [[[child|e] v'] p']; [exact (proj1 H)|exact (proj1 H)].
Defined.

(** [reserve_mapping] compares wrapped sums and looks at no other mapping: any
    page-aligned address from the base on can be reserved with a size that
    wraps past the end of the address space, and as often as there are slots. *)
Theorem reserve_mapping_escapes v id off va flags :
  vmar_ok v -> vr_base v <= va < 2 ^ 64 -> va mod 4096 = 0 -> 0 <= off -> off mod 4096 = 0 ->
  va <> 0 -> (S (length (vr_mappings v)) < MAX_MAPPINGS)%nat ->
  let size := 2 ^ 64 - va in
  exists v1 v2, reserve_mapping v id off va size flags = Ok v1 /\
    reserve_mapping v1 id off va size flags = Ok v2 /\
    (va, size) ∈ intervals v2 /\ vr_base v + vr_size v < va + size.
Proof.
  intros Hv Hva Hal Hoff Hoal Hne Hlen size. pose proof (vk_base _ Hv) as [Hb _].
  pose proof (vk_end _ Hv) as (Hs & _ & Hend). unfold size.
  assert (Hw : u64w (va + (2 ^ 64 - va)) = 0).
  { replace (va + (2 ^ 64 - va)) with (2 ^ 64) by lia. reflexivity. }
  assert (Hgo : forall w, vr_base w = vr_base v -> vr_size w = vr_size v ->
    (length (vr_mappings w) < MAX_MAPPINGS)%nat ->
    reserve_mapping w id off va (2 ^ 64 - va) flags =
    Ok (mkVmar (vr_base w) (vr_size w) (vr_meta w) (vr_children w)
          (vr_mappings w ++ [mkMapping id off va (2 ^ 64 - va) flags true]))).
  { intros w Hwb Hws Hwl. unfold reserve_mapping. rewrite Hwb, Hws, Hw.
    rewrite !unaligned_spec, Hal, Hoal by lia. cbn [Z.eqb negb].
    destruct (Z.eqb_spec (2 ^ 64 - va) 0); [lia|]. cbn [orb].
    destruct (Z.ltb_spec va (vr_base v)); [lia|]. rewrite u64w_small by lia.
    destruct (Z.ltb_spec (vr_base v + vr_size v) 0); [lia|]. cbn [orb].
    destruct (Nat.leb_spec MAX_MAPPINGS (length (vr_mappings w))); [lia|]. done. }
  do 2 eexists. split; [apply Hgo; [done|done|lia]|]. split.
  - apply Hgo; [done|done|]. cbn [vr_mappings]. rewrite length_app. cbn. lia.
  - split; [|lia]. unfold intervals. cbn [vr_mappings vr_children].
    rewrite map_app, !elem_of_app. right. right. cbn. by constructor.
Qed.
