(* ===== verification/Vmo.v ===== *)
(** * Vmo: memory objects

    kernel/src/memory/vmo.rs and the page owner of memory/phys.rs.  A memory
    object owns a metadata page (with up to eight more) and its data pages,
    committed one at a time; dropping an owner frees its page.  The array of
    page slots, which the code keeps inside the metadata pages, is a list
    here; [slot_place] gives the place of each slot, and the theorems show
    that the places are disjoint and inside their pages.  RAM is that of
    Phys.v, read and written by bytes.  [None] is a panic. *)
From Stdlib Require Import ZArith Lia.
From stdpp Require Import base tactics option list list_numbers gmap.
From S2P Require Import Prelude Shared Bytes Phys Mem.
Local Open Scope Z_scope.

(** ** State *)
Definition VMO_MAX_PAGES : Z := 2048.
Definition PA_TABLE_SIZE : Z := 64.
Definition PA_TABLE_BASE : Z := 4096 - PA_TABLE_SIZE.

(** Sizes of [VmoHeader] (six words) and of [Option<PhysAddr>] (two). *)
Definition header_size : Z := 48.
Definition slot_size : Z := 16.
Definition slots_per_page : Z := (PA_TABLE_BASE - header_size) / slot_size.
Definition meta_pages_needed (page_count : Z) : Z := (page_count + slots_per_page - 1) / slots_per_page.

Record Vmo := mkVmo {
  vo_id : Z; vo_meta_page : Z; vo_size : Z; vo_is_cow : bool; vo_parent_id : option Z;
  vo_extra_meta_pages : list (option Z); vo_committed_pages : list (option Z);
  vo_slots : list (option Z); vo_committed : Z }.

Definition page_count (v : Vmo) : Z := vo_size v / 4096.

(** Index of the metadata page of a slot, and its offset there. *)
Definition slot_place (page_idx : Z) : Z * Z :=
  (page_idx / slots_per_page, header_size + (page_idx mod slots_per_page) * slot_size).

(** The address of a slot: page 0 is the metadata page itself, the others are
    found in the table at [PA_TABLE_BASE]. *)
Definition slot_ptr (v : Vmo) (page_idx : Z) : option Z :=
  let '(meta_idx, off) := slot_place page_idx in
  if meta_idx =? 0 then Some (vo_meta_page v + off)
  else match at_z (vo_extra_meta_pages v) (meta_idx - 1) with
       | Some (Some pa) => Some (pa + off)
       | _ => None
       end.

(** ** Owners of pages *)

(** [Drop for PhysPage] on the pages in turn. *)
Fixpoint drop_pages (l : list Z) (p : Phys) : option Phys :=
  match l with
  | [] => Some p
  | pa :: l =>
      if pa =? 0 then drop_pages l p
      else match free_page p pa with
           | None => None
           | Some (_, p') => drop_pages l p'
           end
  end.

Definition owned_pages (v : Vmo) : list Z :=
  vo_meta_page v :: omap id (vo_extra_meta_pages v) ++ omap id (vo_committed_pages v).

Definition drop_vmo (v : Vmo) (p : Phys) : option Phys := drop_pages (owned_pages v) p.

(** ** Creation *)
Definition VM (A : Type) : Type := Phys -> option (kresult A * Phys).

#[export] Instance vm_ret : MRet VM := fun A a p => Some (Ok a, p).
#[export] Instance vm_bind : MBind VM := fun A B f x p =>
  match x p with
  | None => None
  | Some (Err e, p') => Some (Err e, p')
  | Some (Ok a, p') => f a p'
  end.

Definition vm_err {A} (e : Status) : VM A := fun p => Some (Err e, p).
Definition vm_panic {A} : VM A := fun _ => None.

(** [x?] when an error drops the pages owned so far. *)
Definition or_drop {A} (x : VM A) (owned : list Z) : VM A := fun p =>
  match x p with
  | Some (Err e, p') =>
      match drop_pages owned p' with Some p'' => Some (Err e, p'') | None => None end
  | r => r
  end.

(** The loop over the further metadata pages. *)
Fixpoint extra_meta (n : nat) (meta : Z) (got : list Z) : VM (list Z) :=
  match n with
  | O => mret got
  | S n => pa ← or_drop alloc_vmo_meta (got ++ [meta]); extra_meta n meta (got ++ [pa])
  end.

Definition pad_extra (got : list Z) : list (option Z) := take 8 (map Some got ++ replicate 8 None).

(** [create_with_size] and [create_physical] up to the page slots.  [next_id]
    is [VMO_ID_COUNTER]. *)
Definition vmo_pages (size : Z) : Z := u64w (size + 4095) / 4096.

Definition create_with_size (next_id size : Z) : VM Vmo :=
  if size =? 0 then vm_err InvalidArgs
  else
    let pages := vmo_pages size in
    if VMO_MAX_PAGES <? pages then vm_err InvalidArgs
    else
      meta ← alloc_vmo_meta;
      extra ← extra_meta (Z.to_nat (meta_pages_needed pages - 1)) meta [];
      mret (mkVmo next_id meta (pages * 4096) false None (pad_extra extra)
              (replicate (Z.to_nat pages) None) (replicate (Z.to_nat pages) None) 0).

Definition create_physical (next_id phys_addr size : Z) : VM Vmo :=
  if size =? 0 then vm_err InvalidArgs
  else
    let pages := vmo_pages size in
    if VMO_MAX_PAGES <? pages then vm_err InvalidArgs
    else
      meta ← alloc_vmo_meta;
      extra ← extra_meta (Z.to_nat (meta_pages_needed pages - 1)) meta [];
      mret (mkVmo next_id meta (pages * 4096) false None (pad_extra extra) []
              (map (fun i => Some (u64w (phys_addr + Z.of_nat i * 4096))) (seq 0 (Z.to_nat pages)))
              pages).

(** ** Committing *)
Definition set_slot (i : Z) (o : option Z) (v : Vmo) : Vmo :=
  mkVmo (vo_id v) (vo_meta_page v) (vo_size v) (vo_is_cow v) (vo_parent_id v) (vo_extra_meta_pages v)
    (vo_committed_pages v) (set_z i o (vo_slots v)) (vo_committed v).

Definition own_page (i pa : Z) (v : Vmo) : Vmo :=
  mkVmo (vo_id v) (vo_meta_page v) (vo_size v) (vo_is_cow v) (vo_parent_id v) (vo_extra_meta_pages v)
    (set_z i (Some pa) (vo_committed_pages v)) (vo_slots v) (u64w (vo_committed v + 1)).

Definition commit_page (v : Vmo) (offset : Z) : VM (option Z * Vmo) :=
  if vo_size v <=? offset then vm_err InvalidArgs
  else
    let page_idx := offset / 4096 in
    if (length (vo_committed_pages v) =? 0)%nat then vm_err NotAllowed
    else match at_z (vo_committed_pages v) page_idx with
         | None => vm_panic
         | Some (Some _) => mret (None, v)
         | Some None =>
             pa ← alloc_vmo_data;
             mret (Some pa, own_page page_idx pa (set_slot page_idx (Some pa) v))
         end.

(** The pages committed before an error stay committed. *)
Fixpoint commit_range (n : nat) (i : Z) (v : Vmo) (p : Phys) : option (kresult unit * Vmo * Phys) :=
  match n with
  | O => Some (Ok tt, v, p)
  | S n =>
      match commit_page v (i * 4096) p with
      | None => None
      | Some (Err e, p') => Some (Err e, v, p')
      | Some (Ok (_, v'), p') => commit_range n (i + 1) v' p'
      end
  end.

Definition commit_all (v : Vmo) (p : Phys) : option (kresult unit * Vmo * Phys) :=
  commit_range (Z.to_nat (page_count v)) 0 v p.

Definition get_page_phys (v : Vmo) (offset : Z) : option Z :=
  if vo_size v <=? offset then None
  else match at_z (vo_slots v) (offset / 4096) with Some o => o | None => None end.

(** ** Reading and writing

    One round per page touched; [fuel] bounds the rounds, [n] is what is left
    to read. *)
Fixpoint read_loop (fuel : nat) (v : Vmo) (m : Ram) (cur : Z) (n : nat) : option (list Z) :=
  match fuel with
  | O => None
  | S fuel =>
      if (0 <? n)%nat && (cur <? vo_size v) then
        match at_z (vo_slots v) (cur / 4096) with
        | None => None
        | Some pa =>
            let in_page := cur mod 4096 in
            let want := Z.min (4096 - in_page) (Z.of_nat n) in
            let real := Z.min (cur + want) (vo_size v) - cur in
            let chunk := match pa with
                         | Some p => copy_from m (p + in_page) (Z.to_nat real)
                         | None => replicate (Z.to_nat real) 0
                         end in
            app chunk <$> read_loop fuel v m (cur + real) (n - Z.to_nat real)
        end
      else Some []
  end.

Definition vmo_fuel (v : Vmo) : nat := S (Z.to_nat (page_count v)).

(** The bytes placed in a buffer of [n] bytes; their number is the result. *)
Definition vmo_read (v : Vmo) (m : Ram) (offset : Z) (n : nat) : option (list Z) :=
  if vo_size v <=? offset then Some [] else read_loop (vmo_fuel v) v m offset n.

(** The slot of [page_idx], committed if it is empty. *)
Definition committed_slot (v : Vmo) (page_idx : Z) : VM (Z * Vmo) :=
  match at_z (vo_slots v) page_idx with
  | None => vm_panic
  | Some (Some pa) => mret (pa, v)
  | Some None =>
      r ← commit_page v (4096 * page_idx);
      match at_z (vo_slots (snd r)) page_idx with
      | Some (Some pa) => mret (pa, snd r)
      | _ => vm_panic
      end
  end.

(** The first component is the number of bytes written. *)
Fixpoint write_loop (fuel : nat) (v : Vmo) (cur : Z) (bs : list Z) (p : Phys) :
    option (kresult Z * Vmo * Phys) :=
  match fuel with
  | O => None
  | S fuel =>
      if (0 <? length bs)%nat && (cur <? vo_size v) then
        match committed_slot v (cur / 4096) p with
        | None => None
        | Some (Err e, p1) => Some (Err e, v, p1)
        | Some (Ok (pa, v1), p1) =>
            let in_page := cur mod 4096 in
            let want := Z.min (4096 - in_page) (Z.of_nat (length bs)) in
            let real := Z.min (cur + want) (vo_size v) - cur in
            let p2 := with_ram p1 (copy_to (ram p1) (pa + in_page) (take (Z.to_nat real) bs)) in
            match write_loop fuel v1 (cur + real) (drop (Z.to_nat real) bs) p2 with
            | Some (Ok n, v2, p3) => Some (Ok (real + n), v2, p3)
            | r => r
            end
        end
      else Some (Ok 0, v, p)
  end.

Definition vmo_write (v : Vmo) (offset : Z) (bs : list Z) (p : Phys) :
    option (kresult Z * Vmo * Phys) :=
  if vo_size v <=? offset then Some (Ok 0, v, p) else write_loop (vmo_fuel v) v offset bs p.

(** ** Copies *)

(** The loop of [fork] over the pages from [i] on: [has i] tells which pages
    the parent has.  An error drops the copy. *)
Fixpoint fork_pages (n : nat) (i : Z) (parent fork : Vmo) (p : Phys) : option (kresult Vmo * Phys) :=
  match n with
  | O => Some (Ok fork, p)
  | S n =>
      let has := if (length (vo_committed_pages parent) =? 0)%nat
                 then at_z (vo_slots parent) i else at_z (vo_committed_pages parent) i in
      match has with
      | None => None
      | Some None => fork_pages n (i + 1) parent fork p
      | Some (Some _) =>
          match commit_page fork (i * 4096) p with
          | None => None
          | Some (Err e, p1) => match drop_vmo fork p1 with Some p2 => Some (Err e, p2) | None => None end
          | Some (Ok (_, fork1), p1) =>
              match vmo_read parent (ram p1) (i * 4096) 4096 with
              | None => None
              | Some got =>
                  match vmo_write fork1 (i * 4096) (got ++ replicate (4096 - length got) 0) p1 with
                  | None => None
                  | Some (Err e, fork2, p2) =>
                      match drop_vmo fork2 p2 with Some p3 => Some (Err e, p3) | None => None end
                  | Some (Ok _, fork2, p2) => fork_pages n (i + 1) parent fork2 p2
                  end
              end
          end
      end
  end.

Definition renamed (id : Z) (cow : bool) (parent : Z) (v : Vmo) : Vmo :=
  mkVmo id (vo_meta_page v) (vo_size v) cow (Some parent) (vo_extra_meta_pages v)
    (vo_committed_pages v) (vo_slots v) (vo_committed v).

Definition fork (next_id : Z) (v : Vmo) (new_id : Z) (p : Phys) : option (kresult Vmo * Phys) :=
  match create_with_size next_id (vo_size v) p with
  | None => None
  | Some (Err e, p1) => Some (Err e, p1)
  | Some (Ok f, p1) =>
      fork_pages (Z.to_nat (page_count v)) 0 v (renamed new_id true (vo_id v) f) p1
  end.

(** The slots of a child slice: those of the parent from [start] on, out of
    range being a panic. *)
Fixpoint slice_slots (n : nat) (parent : Vmo) (start : Z) : option (list (option Z)) :=
  match n with
  | O => Some []
  | S n =>
      o ← at_z (if (length (vo_committed_pages parent) =? 0)%nat
                then vo_slots parent else vo_committed_pages parent) start;
      rest ← slice_slots n parent (start + 1);
      Some (o :: rest)
  end.

Definition create_child_slice (next_id : Z) (v : Vmo) (new_id offset size : Z) : VM Vmo := fun p =>
  if negb (Z.land offset (4096 - 1) =? 0) || negb (Z.land size (4096 - 1) =? 0)
  then Some (Err InvalidArgs, p)
  else if vo_size v <? u64w (offset + size) then Some (Err InvalidArgs, p)
  else
    match create_with_size next_id size p with
    | None => None
    | Some (Err e, p1) => Some (Err e, p1)
    | Some (Ok c, p1) =>
        match slice_slots (Z.to_nat (size / 4096)) v (offset / 4096) with
        | None => None
        | Some slots =>
            Some (Ok (mkVmo new_id (vo_meta_page c) (vo_size c) (vo_is_cow c) (Some (vo_id v))
                        (vo_extra_meta_pages c) (vo_committed_pages c) slots (size / 4096)), p1)
        end
    end.

Definition make_cow (v : Vmo) : Vmo :=
  mkVmo (vo_id v) (vo_meta_page v) (vo_size v) true (vo_parent_id v) (vo_extra_meta_pages v)
    (vo_committed_pages v) (vo_slots v) (vo_committed v).

(** [Clone for Vmo]: the same pages with new owners.  [forget] is applied to
    copies of the addresses, which forgets nothing; the slots are in the
    shared metadata pages. *)
Definition vmo_clone (v : Vmo) : Vmo :=
  mkVmo (vo_id v) (vo_meta_page v) (vo_size v) (vo_is_cow v) (vo_parent_id v) (vo_extra_meta_pages v)
    (if (length (vo_committed_pages v) =? 0)%nat then []
     else take (Z.to_nat (page_count v)) (vo_committed_pages v))
    (vo_slots v) (vo_committed v).

(** ** Invariant

    An object made by [create_with_size] and its copies own the pages their
    slots name: whole pages already handed out by the allocator, each in one
    slot. *)
Record vmo_wf (v : Vmo) (p : Phys) : Prop := {
  vw_size : vo_size v = 4096 * Z.of_nat (length (vo_slots v));
  vw_nonempty : vo_slots v <> [];
  vw_owned : vo_committed_pages v = vo_slots v;
  vw_page : forall i pa, at_z (vo_slots v) i = Some (Some pa) ->
    RAM_BASE <= pa /\ pa + 4096 <= next_free p /\ pa mod 4096 = 0;
  vw_distinct : forall i j pa, at_z (vo_slots v) i = Some (Some pa) ->
    at_z (vo_slots v) j = Some (Some pa) -> i = j
}.

(** The contents: what is not committed reads as zero. *)
Definition vmo_byte (v : Vmo) (m : Ram) (i : Z) : Z :=
  match at_z (vo_slots v) (i / 4096) with Some (Some pa) => byte_at m (pa + i mod 4096) | _ => 0 end.

Definition in_pages (v : Vmo) (a : Z) : Prop :=
  exists i pa, at_z (vo_slots v) i = Some (Some pa) /\ pa <= a < pa + 4096.

(** Pages still to be committed. *)
Definition holes (v : Vmo) : Z := Z.of_nat (length (vo_slots v)) - Z.of_nat (length (live (vo_slots v))).

Lemma holes_range v : 0 <= holes v.
Proof. unfold holes. pose proof (live_length_le (vo_slots v)). lia. Qed.

Lemma holes_fill v i x :
  at_z (vo_slots v) i = Some None -> holes (set_slot i (Some x) v) = holes v - 1.
Proof.
  intros [_ Hi]%at_z_Some. unfold holes, set_slot. cbn [vo_slots]. rewrite length_set_z.
  pose proof (Permutation_length (live_insert_free _ _ x Hi)) as H. cbn [length] in H.
  unfold set_z. lia.
Qed.

(** Frames with one owner each: distinct, handed out and tagged. *)
Record frames_ok (p : Phys) (l : list Z) : Prop := {
  fo_distinct : NoDup l;
  fo_frame : forall pa, pa ∈ l -> RAM_BASE <= pa < RAM_BASE + RAM_SIZE /\ pa + 4096 <= next_free p /\
    pa mod 4096 = 0 /\ default 0 (tags p !! pa_to_pfn pa) <> 0
}.

(** A state with more frames taken. *)
Lemma frames_kept p p' l :
  frames_ok p l -> next_free p <= next_free p' ->
  (forall pa, RAM_BASE <= pa < next_free p ->
     default 0 (tags p' !! pa_to_pfn pa) = default 0 (tags p !! pa_to_pfn pa)) ->
  frames_ok p' l.
Proof.
  intros [Hd Hf] Hn Ht. constructor; [done|]. intros pa Hin. destruct (Hf pa Hin) as (H1 & H2 & H3 & H4).
  split_and!; [lia|lia|lia|done|]. rewrite Ht; [done|lia].
Qed.

Lemma frames_fresh tag p l :
  tag <> TFree -> phys_wf p -> next_free p < end_free p -> frames_ok p l -> frames_ok (alloc_next tag p) (next_free p :: l).
Proof.
  intros Htag Hw Hlt Hl. pose proof (frames_kept p (alloc_next tag p) l Hl ltac:(cbn; lia)
    (fun pa => alloc_next_tags tag p pa Hw Hlt)) as [Hd Hf].
  pose proof Hw as [Hc He [Ha _] _ _]. constructor.
  - constructor; [|done]. intros Hin. destruct (fo_frame _ _ Hl _ Hin) as (_ & ? & _). lia.
  - intros pa [->|Hin]%elem_of_cons; [|by apply Hf].
    split_and!; [lia|lia|cbn; lia|done|]. cbn [alloc_next tags]. rewrite lookup_insert_eq. by destruct tag.
Qed.

Lemma frames_perm p l l' : l ≡ₚ l' -> frames_ok p l -> frames_ok p l'.
Proof.
  intros Hp [Hd Hf]. constructor; [by rewrite <- Hp|]. intros pa Hin. apply Hf. by rewrite Hp.
Qed.

(** Dropping the owner of such frames cannot panic; it changes tags only. *)
Lemma drop_ok l p :
  phys_wf p -> frames_ok p l ->
  exists p', drop_pages l p = Some p' /\ phys_wf p' /\ next_free p' = next_free p /\ end_free p' = end_free p /\
    ram p' = ram p /\ (forall x, x ∈ l -> default 0 (tags p' !! pa_to_pfn x) = 0) /\
    forall x, RAM_BASE <= x < RAM_BASE + RAM_SIZE -> (forall y, y ∈ l -> x < y \/ y + 4096 <= x) ->
      default 0 (tags p' !! pa_to_pfn x) = default 0 (tags p !! pa_to_pfn x).
Proof.
  intros Hw Hf. revert p Hw Hf. induction l as [|pa l IH]; intros p Hw Hf.
  { exists p. split_and!; try done. by intros x ?%elem_of_nil. }
  destruct (fo_frame _ _ Hf pa ltac:(apply elem_of_cons; by left)) as (H1 & H2 & H3 & H4).
  pose proof (NoDup_cons_1_1 _ _ (fo_distinct _ _ Hf)) as Hni.
  assert (Hap : forall x, x ∈ l -> x < pa \/ pa + 4096 <= x).
  { intros x Hx. destruct (fo_frame _ _ Hf x ltac:(apply elem_of_cons; by right)) as (_ & _ & Hx3 & _).
    pose proof (Z.div_mod x 4096). pose proof (Z.div_mod pa 4096).
    destruct (decide (x = pa)) as [->|]; [done|]. lia. }
  assert (Hpf : forall x, RAM_BASE <= x < RAM_BASE + RAM_SIZE -> x < pa \/ pa + 4096 <= x -> pa_to_pfn x <> pa_to_pfn pa).
  { intros x Hx Hd Heq. symmetry in Heq. apply pfn_inj in Heq; [lia|done|done|done]. }
  cbn [drop_pages]. destruct (Z.eqb_spec pa 0); [unfold RAM_BASE in *; lia|].
  unfold free_page. pose proof (pfn_spec pa H1) as [_ Hpfn].
  destruct (Z.leb_spec MAX_PAGES (pa_to_pfn pa)); [lia|].
  destruct (Z.eqb_spec (default 0 (tags p !! pa_to_pfn pa)) 0); [done|].
  set (p1 := if default 0 (tags p !! pa_to_pfn pa) =? tag_u8 TPageTable then unregister_pt_page p pa else p).
  assert (Hp1 : phys_wf p1 /\ next_free p1 = next_free p /\ end_free p1 = end_free p /\ tags p1 = tags p /\ ram p1 = ram p).
  { unfold p1. case_match; [|done]. destruct (unregister_frame p pa) as (-> & -> & ->).
    split; [by apply unregister_wf|]. split_and!; try done. unfold unregister_pt_page. by case_match. }
  destruct Hp1 as ([Hc He Hal Hfr Hlv] & Hn1 & He1 & Ht1 & Hr1).
  set (p2 := mkPhys _ _ _ _ _ _ _ _).
  assert (Ht2 : forall x, RAM_BASE <= x < RAM_BASE + RAM_SIZE -> x < pa \/ pa + 4096 <= x ->
    default 0 (tags p2 !! pa_to_pfn x) = default 0 (tags p !! pa_to_pfn x)).
  { intros x Hx Hd. cbn [p2 tags]. rewrite lookup_insert_ne, Ht1; [done|]. intros Heq. by apply (Hpf x). }
  assert (Hw2 : phys_wf p2).
  { constructor; cbn [p2 next_free end_free tags live_pt]; try done.
    intros x Hx. destruct (decide (pa_to_pfn x = pa_to_pfn pa)) as [->|Hne]; [by rewrite lookup_insert_eq|].
    rewrite lookup_insert_ne by done. by apply Hfr. }
  destruct (IH p2 Hw2) as (p' & -> & Hw' & Hn' & He' & Hr' & Hz & Hk).
  { constructor; [by apply NoDup_cons in Hf as [[_ ?]%NoDup_cons _] || (destruct Hf as [[_ ?]%NoDup_cons _]; done)|].
    intros x Hx. destruct (fo_frame _ _ Hf x ltac:(apply elem_of_cons; by right)) as (Hx1 & Hx2 & Hx3 & Hx4).
    split_and!; [lia|lia|cbn [p2 next_free]; lia|done|]. rewrite Ht2; [done|done|by apply Hap]. }
  exists p'. cbn [p2 next_free end_free ram] in *. split_and!; [done|done|congruence|congruence|congruence| |].
  - intros x [->|Hx]%elem_of_cons; [|by apply Hz]. rewrite Hk; [|done|].
    + cbn [p2 tags]. by rewrite lookup_insert_eq.
    + intros y Hy. destruct (Hap y Hy); [|lia]. destruct (fo_frame _ _ Hf y ltac:(apply elem_of_cons; by right)) as (_ & _ & Hy3 & _).
      pose proof (Z.div_mod y 4096). pose proof (Z.div_mod pa 4096). lia.
  - intros x Hx Hd. rewrite Hk by (intros; try apply Hd; try apply elem_of_cons; auto).
    apply Ht2; [done|]. apply Hd, elem_of_cons. by left.
Qed.

(** What an operation may do: commit further pages and write in the pages of
    the object, nothing else. *)
Record vmo_ext (v : Vmo) (p : Phys) (v' : Vmo) (p' : Phys) : Prop := {
  ve_wf : vmo_wf v' p';
  ve_phys : phys_wf p';
  ve_id : vo_id v' = vo_id v;
  ve_len : length (vo_slots v') = length (vo_slots v);
  ve_next : next_free p <= next_free p';
  ve_end : end_free p' = end_free p;
  ve_cost : next_free p' + 4096 * holes v' = next_free p + 4096 * holes v;
  ve_kept : forall i pa, at_z (vo_slots v) i = Some (Some pa) -> at_z (vo_slots v') i = Some (Some pa);
  ve_new : forall i pa, at_z (vo_slots v') i = Some (Some pa) ->
    at_z (vo_slots v) i = Some (Some pa) \/ next_free p <= pa;
  ve_frame : forall a, a < next_free p -> ~ in_pages v a -> byte_at (ram p') a = byte_at (ram p) a;
  ve_words : forall w, w mod 8 = 0 -> w < next_free p -> ~ in_pages v w -> ram_read (ram p') w = ram_read (ram p) w;
  ve_tags : forall pa, RAM_BASE <= pa < next_free p ->
    default 0 (tags p' !! pa_to_pfn pa) = default 0 (tags p !! pa_to_pfn pa);
  ve_owned : frames_ok p (owned_pages v) -> frames_ok p' (owned_pages v');
  ve_fresh : forall y, y ∈ owned_pages v' -> y ∈ owned_pages v \/ next_free p <= y
}.

Lemma vmo_ext_refl v p : vmo_wf v p -> phys_wf p -> vmo_ext v p v p.
Proof. intros. constructor; try done; try lia; by left. Qed.

Lemma vmo_ext_trans v1 p1 v2 p2 v3 p3 :
  vmo_ext v1 p1 v2 p2 -> vmo_ext v2 p2 v3 p3 -> vmo_ext v1 p1 v3 p3.
Proof.
  intros H1 H2. destruct H1 as [W1 P1 I1 L1 N1 E1 C1 K1 F1 R1 D1 T1 O1 Y1],
    H2 as [W2 P2 I2 L2 N2 E2 C2 K2 F2 R2 D2 T2 O2 Y2].
  assert (Hout : forall x, x < next_free p1 -> ~ in_pages v1 x -> ~ in_pages v2 x).
  { intros x Hx Hn (i & pa & Hi & Hr). destruct (F1 i pa Hi) as [Hi1|?]; [|lia]. apply Hn. by exists i, pa. }
  constructor; try done; [congruence|congruence|lia|congruence|lia|eauto| | | | |eauto|].
  - intros i pa Hi. destruct (F2 i pa Hi) as [Hi2|?]; [|right; lia]. apply F1 in Hi2 as [?|?]; [by left|by right].
  - intros a Ha Hn. rewrite R2; [by apply R1|lia|by apply Hout].
  - intros w Hw Ha Hn. rewrite D2; [by apply D1|done|lia|by apply Hout].
  - intros pa Hpa. rewrite T2; [by apply T1|lia].
  - intros y [Hy|Hy]%Y2; [by apply Y1|right; lia].
Qed.

Lemma div_page_bound cur n : 0 <= cur < 4096 * n -> 0 <= cur / 4096 < n.
Proof. intros H. split; [apply Z.div_pos; lia|]. apply Z.div_lt_upper_bound; lia. Qed.

(** A slot inside the object is there. *)
Lemma slot_in v p cur :
  vmo_wf v p -> 0 <= cur < vo_size v -> exists o, at_z (vo_slots v) (cur / 4096) = Some o.
Proof. intros Hw Hc. rewrite (vw_size v p Hw) in Hc. apply at_z_in. by apply div_page_bound. Qed.

Lemma page_in_object v a pa i :
  at_z (vo_slots v) i = Some (Some pa) -> 0 <= a < 4096 -> in_pages v (pa + a).
Proof. intros Hi Ha. exists i, pa. split; [done|lia]. Qed.

Lemma wf_pages_apart v p i j a b :
  vmo_wf v p -> at_z (vo_slots v) i = Some (Some a) -> at_z (vo_slots v) j = Some (Some b) ->
  i <> j -> a + 4096 <= b \/ b + 4096 <= a.
Proof.
  intros Hw Hi Hj Hne. destruct (vw_page v p Hw i a Hi) as (_ & _ & Ha).
  destruct (vw_page v p Hw j b Hj) as (_ & _ & Hb).
  pose proof (Z.div_mod a 4096). pose proof (Z.div_mod b 4096).
  destruct (decide (a = b)) as [->|Hn]; [|lia]. by destruct (Hne (vw_distinct v p Hw i j b Hi Hj)).
Qed.

(** *** Committing a page *)
Definition commit_next (idx : Z) (v : Vmo) (p : Phys) : Vmo :=
  own_page idx (next_free p) (set_slot idx (Some (next_free p)) v).

Ltac commit_cbn :=
  cbn [commit_next own_page set_slot alloc_next ram next_free end_free vo_slots vo_size vo_committed_pages].

Lemma commit_next_ext idx v p :
  vmo_wf v p -> phys_wf p -> next_free p < end_free p -> at_z (vo_slots v) idx = Some None ->
  vmo_ext v p (commit_next idx v p) (alloc_next TVmoData p).
Proof.
  intros [Hs Hn Ho Hp Hd] Hw Hlt Hi. pose proof (aligned_room p Hw Hlt) as Hr. pose proof Hw as Hwf.
  destruct Hw as [Hc He [Ha1 Ha2] Hf Hl] eqn:EW. clear EW.
  assert (Hsl : forall j pa, at_z (set_z idx (Some (next_free p)) (vo_slots v)) j = Some (Some pa) ->
    (j = idx /\ pa = next_free p) \/ (j <> idx /\ at_z (vo_slots v) j = Some (Some pa))).
  { intros j pa. rewrite (at_set_z _ _ _ _ _ Hi). destruct (Z.eqb_spec j idx) as [->|?].
    - intros [= ->]. by left.
    - intros ?. by right. }
  assert (Hown : next_free p :: owned_pages v ≡ₚ owned_pages (commit_next idx v p)).
  { unfold owned_pages, commit_next. cbn [own_page set_slot vo_meta_page vo_extra_meta_pages vo_committed_pages].
    rewrite Ho. pose proof (proj2 (at_z_Some _ _ _ Hi)) as Hi2.
    pose proof (live_insert_free _ _ (next_free p) Hi2) as Hperm. unfold live in Hperm. unfold set_z. rewrite Hperm.
    solve_Permutation. }
  constructor; commit_cbn.
  - constructor; commit_cbn.
    + by rewrite length_set_z.
    + intros H0%(f_equal length). rewrite length_set_z in H0. by destruct (vo_slots v).
    + by rewrite Ho.
    + intros j pa [[-> ->]|[_ Hj]]%Hsl; [split_and!; [lia|lia|done]|].
      destruct (Hp j pa Hj) as (?&?&?). split_and!; [lia|lia|done].
    + intros i j pa [[-> ->]|[_ Hi']]%Hsl [[-> Hx]|[_ Hj']]%Hsl; [done| | |by eapply Hd].
      * apply Hp in Hj' as (_&?&_). lia.
      * subst pa. apply Hp in Hi' as (_&?&_). lia.
  - apply alloc_next_wf; [|done]. done.
  - done.
  - by rewrite length_set_z.
  - lia.
  - done.
  - pose proof (holes_fill v idx (next_free p) Hi) as Hh. unfold holes in *. commit_cbn.
    unfold set_slot in Hh. cbn [vo_slots] in Hh. lia.
  - intros j pa Hj. rewrite (at_set_z _ _ _ _ _ Hi). destruct (Z.eqb_spec j idx) as [->|?]; [congruence|done].
  - intros j pa [[-> ->]|[_ Hj]]%Hsl; [right; lia|by left].
  - intros a Hlta _. rewrite byte_zero_page by done.
    destruct (Z.leb_spec (next_free p) a); [lia|done].
  - intros w Hw8 Hltw _. apply zero_page_out. by left.
  - intros pa Hpa. by apply alloc_next_tags.
  - intros Hok. apply (frames_perm _ (next_free p :: owned_pages v)); [done|by apply frames_fresh].
  - intros y. rewrite <- Hown. intros [->|Hy]%elem_of_cons; [by right|by left].
Qed.

(** Committing changes no byte of the object: the new page is zeroed. *)
Lemma commit_next_bytes idx v p i :
  vmo_wf v p -> phys_wf p -> next_free p < end_free p -> at_z (vo_slots v) idx = Some None ->
  vmo_byte (commit_next idx v p) (ram (alloc_next TVmoData p)) i = vmo_byte v (ram p) i.
Proof.
  intros Hv Hw Hlt Hi. unfold vmo_byte. commit_cbn. rewrite (at_set_z _ _ _ _ _ Hi).
  pose proof (Z.mod_pos_bound i 4096 ltac:(lia)) as Hb.
  destruct (wf_align p Hw) as [Ha _].
  destruct (Z.eqb_spec (i / 4096) idx) as [E|Hne].
  - rewrite E, Hi. cbv beta iota. rewrite byte_zero_page by done. case_match; [done|].
    apply andb_false_iff in H as [?|?]; reflect; lia.
  - destruct (at_z (vo_slots v) (i / 4096)) as [[pa|]|] eqn:E; [|done..].
    destruct (vw_page v p Hv _ _ E) as (_ & Hpa & _). rewrite byte_zero_page by done.
    case_match; [reflect; lia|done].
Qed.

Lemma commit_page_eq v p off :
  vmo_wf v p -> phys_wf p -> 0 <= off < vo_size v ->
  commit_page v off p =
  match at_z (vo_slots v) (off / 4096) with
  | Some None => if end_free p <=? next_free p then Some (Err NoMemory, p)
      else Some (Ok (Some (next_free p), commit_next (off / 4096) v p), alloc_next TVmoData p)
  | _ => Some (Ok (None, v), p)
  end.
Proof.
  intros Hv Hw Ho. unfold commit_page.
  assert ((vo_size v <=? off) = false) as -> by (apply Z.leb_gt; lia).
  rewrite (vw_owned v p Hv).
  assert ((length (vo_slots v) =? 0)%nat = false) as ->.
  { apply Nat.eqb_neq. intros H0%length_zero_iff_nil. by apply (vw_nonempty v p Hv). }
  destruct (slot_in v p off Hv Ho) as [[pa|] ->]; [done|].
  unfold mbind, vm_bind, alloc_vmo_data. cbv beta. rewrite alloc_page_eq by done.
  destruct (end_free p <=? next_free p); reflexivity.
Qed.

Lemma committed_slot_spec v p cur :
  vmo_wf v p -> phys_wf p -> 0 <= cur < vo_size v ->
  (committed_slot v (cur / 4096) p = Some (Err NoMemory, p) /\ end_free p <= next_free p /\ 0 < holes v) \/
  exists pa v1 p1, committed_slot v (cur / 4096) p = Some (Ok (pa, v1), p1) /\
    vmo_ext v p v1 p1 /\ at_z (vo_slots v1) (cur / 4096) = Some (Some pa) /\
    forall i, vmo_byte v1 (ram p1) i = vmo_byte v (ram p) i.
Proof.
  intros Hv Hw Hc. unfold committed_slot. destruct (slot_in v p cur Hv Hc) as [[pa|] Hs]; rewrite Hs.
  - right. exists pa, v, p. split_and!; [done|by apply vmo_ext_refl|done|done].
  - unfold mbind, vm_bind. pose proof (Z.div_mod cur 4096). pose proof (Z.mod_pos_bound cur 4096).
    rewrite commit_page_eq by (done || lia). rewrite (Z.mul_comm 4096), Z.div_mul, Hs by done.
    destruct (end_free p <=? next_free p) eqn:E; reflect; [left|right].
    { split_and!; [done|done|]. pose proof (holes_fill v _ 0 Hs). pose proof (holes_range (set_slot (cur / 4096) (Some 0) v)). lia. }
    exists (next_free p), (commit_next (cur / 4096) v p), (alloc_next TVmoData p).
    assert (Ha : at_z (vo_slots (commit_next (cur / 4096) v p)) (cur / 4096) = Some (Some (next_free p))).
    { commit_cbn. by eapply at_set_z_eq. }
    cbn [snd]. rewrite Ha. split_and!; [done|by apply commit_next_ext|done|].
    intros i. by apply commit_next_bytes.
Qed.

(** *** Storing bytes in one page *)
Lemma page_index i a : 0 <= a < 4096 -> (4096 * i + a) / 4096 = i /\ (4096 * i + a) mod 4096 = a.
Proof.
  intros Ha. rewrite Z.mul_comm, Z.add_comm. split.
  - rewrite Z.div_add, Z.div_small by lia. lia.
  - rewrite Z.mod_add, Z.mod_small; lia.
Qed.

Lemma store_ext v p i pa a bs :
  vmo_wf v p -> phys_wf p -> at_z (vo_slots v) i = Some (Some pa) -> Forall is_byte bs ->
  0 <= a -> a + Z.of_nat (length bs) <= 4096 ->
  vmo_ext v p v (with_ram p (copy_to (ram p) (pa + a) bs)).
Proof.
  intros Hv Hw Hi Hb Ha Hl. constructor; [|by destruct Hw|done|done|done|done|done|done|by left| | |done| |by left].
  - destruct Hv. by constructor.
  - intros x Hx Hn. cbn [with_ram ram]. rewrite byte_copy by done. case_match eqn:E; [reflect|done].
    destruct Hn. exists i, pa. split; [done|lia].
  - intros w Hw8 Hx Hn. apply copy_word; [done|]. intros k Hk. destruct (vw_page v p Hv i pa Hi) as (_ & _ & Hal).
    assert (w < pa \/ pa + 4096 <= w).
    { destruct (decide (pa <= w < pa + 4096)); [|lia]. destruct Hn. by exists i, pa. }
    pose proof (Z.div_mod w 8). pose proof (Z.div_mod pa 4096). lia.
  - intros [Hd Hf]. by constructor.
Qed.

Lemma store_bytes v p i pa a bs k :
  vmo_wf v p -> at_z (vo_slots v) i = Some (Some pa) -> Forall is_byte bs ->
  0 <= a -> a + Z.of_nat (length bs) <= 4096 ->
  vmo_byte v (copy_to (ram p) (pa + a) bs) k =
  if (4096 * i + a <=? k) && (k <? 4096 * i + a + Z.of_nat (length bs))
  then nth (Z.to_nat (k - (4096 * i + a))) bs 0 else vmo_byte v (ram p) k.
Proof.
  intros Hv Hi Hb Ha Hl. unfold vmo_byte.
  pose proof (Z.div_mod k 4096). pose proof (Z.mod_pos_bound k 4096).
  destruct (decide (k / 4096 = i)) as [<-|Hne].
  - rewrite Hi, byte_copy by done.
    replace (pa + k mod 4096 - (pa + a)) with (k - (4096 * (k / 4096) + a)) by lia.
    assert (((pa + a <=? pa + k mod 4096) && (pa + k mod 4096 <? pa + a + Z.of_nat (length bs))) =
            ((4096 * (k / 4096) + a <=? k) && (k <? 4096 * (k / 4096) + a + Z.of_nat (length bs)))) as ->;
      [|done]. apply eq_true_iff_eq. rewrite !andb_true_iff, !Z.leb_le, !Z.ltb_lt. lia.
  - assert (((4096 * i + a <=? k) && (k <? 4096 * i + a + Z.of_nat (length bs))) = false) as ->.
    { apply not_true_is_false. intros E. reflect. apply Hne. lia. }
    destruct (at_z (vo_slots v) (k / 4096)) as [[pb|]|] eqn:E; [|done..].
    rewrite byte_copy by done. case_match eqn:E2; [reflect|done].
    destruct (wf_pages_apart v p i (k / 4096) pa pb Hv Hi E); [congruence|lia|lia].
Qed.

(** *** The write loop *)

(** What a write of [bs] at [cur] that went through leaves. *)
Definition written (v : Vmo) (m : Ram) (v' : Vmo) (m' : Ram) (cur : Z) (bs : list Z) (n : Z) : Prop :=
  forall k, vmo_byte v' m' k =
    if (cur <=? k) && (k <? cur + n) then nth (Z.to_nat (k - cur)) bs 0 else vmo_byte v m k.

Lemma written_app v m v1 m1 v2 m2 cur n n2 bs :
  0 <= n <= Z.of_nat (length bs) -> 0 <= n2 ->
  written v m v1 m1 cur (take (Z.to_nat n) bs) n ->
  written v1 m1 v2 m2 (cur + n) (drop (Z.to_nat n) bs) n2 ->
  written v m v2 m2 cur bs (n + n2).
Proof.
  intros Hn Hn2 H1 H2 k. rewrite H2, H1.
  destruct (Z.leb_spec (cur + n) k), (Z.ltb_spec k (cur + n + n2)), (Z.leb_spec cur k),
    (Z.ltb_spec k (cur + n)), (Z.ltb_spec k (cur + (n + n2))); try lia; cbn [andb]; try done.
  - rewrite !nth_lookup, lookup_drop. do 2 f_equal. lia.
  - rewrite !nth_lookup, lookup_take_lt by lia. done.
Qed.

Definition write_outcome (v : Vmo) (p : Phys) (cur : Z) (bs : list Z)
    (out : option (kresult Z * Vmo * Phys)) : Prop :=
  exists r v' p', out = Some (r, v', p') /\ vmo_ext v p v' p' /\
    match r with
    | Ok n => n = Z.max 0 (Z.min (Z.of_nat (length bs)) (vo_size v - cur)) /\
              written v (ram p) v' (ram p') cur bs n
    | Err e => e = NoMemory /\ end_free p' <= next_free p' /\ 0 < holes v'
    end.

Lemma ext_size v p v' p' : vmo_ext v p v' p' -> vmo_wf v p -> vo_size v' = vo_size v.
Proof.
  intros H Hv. rewrite (vw_size _ _ Hv), (vw_size _ _ (ve_wf _ _ _ _ H)).
  by rewrite (ve_len _ _ _ _ H).
Qed.

(** One round writes at least a byte and ends at a page boundary, at the end
    of the object or with the buffer used up. *)
Lemma round_progress sz cur n :
  0 <= cur < sz -> 0 < n -> sz mod 4096 = 0 ->
  let real := Z.min (cur + Z.min (4096 - cur mod 4096) n) sz - cur in
  0 < real <= n /\ cur mod 4096 + real <= 4096 /\ cur + real <= sz /\
  (real = n \/ (cur + real) / 4096 = cur / 4096 + 1).
Proof.
  intros Hc Hn Hm. pose proof (Z.div_mod cur 4096). pose proof (Z.mod_pos_bound cur 4096).
  pose proof (Z.div_mod sz 4096). assert (cur + (4096 - cur mod 4096) <= sz).
  { assert (cur / 4096 < sz / 4096) by (apply Z.div_lt_upper_bound; lia). lia. }
  cbn zeta. split_and!; [lia..|].
  destruct (decide (n <= 4096 - cur mod 4096)); [left; lia|right].
  replace (cur + _) with (4096 * (cur / 4096 + 1)) by lia. by rewrite Z.mul_comm, Z.div_mul.
Qed.

Lemma wf_size_mod v p : vmo_wf v p -> vo_size v mod 4096 = 0 /\ 0 < vo_size v.
Proof.
  intros Hv. rewrite (vw_size v p Hv). split; [rewrite Z.mul_comm; by apply Z.mod_mul|].
  pose proof (vw_nonempty v p Hv). destruct (vo_slots v); [done|cbn [length]; lia].
Qed.

Lemma page_count_size v : vo_size v mod 4096 = 0 -> vo_size v = 4096 * page_count v.
Proof. unfold page_count. pose proof (Z.div_mod (vo_size v) 4096). lia. Qed.

Lemma write_loop_spec fuel v cur bs p :
  vmo_wf v p -> phys_wf p -> Forall is_byte bs -> 0 <= cur -> (1 <= fuel)%nat ->
  bs = [] \/ page_count v - cur / 4096 < Z.of_nat fuel ->
  write_outcome v p cur bs (write_loop fuel v cur bs p).
Proof.
  revert v cur bs p. induction fuel as [|fuel IH]; intros v cur bs p Hv Hw Hb Hc Hf1 Hf; [lia|].
  cbn [write_loop]. destruct (wf_size_mod v p Hv) as [Hm _].
  destruct ((0 <? length bs)%nat && (cur <? vo_size v)) eqn:E.
  2:{ apply andb_false_iff in E. rewrite Nat.ltb_ge, Z.ltb_ge in E.
      exists (Ok 0), v, p. split_and!; [done|by apply vmo_ext_refl|lia|].
      intros k. destruct (Z.leb_spec cur k), (Z.ltb_spec k (cur + 0)); try done; lia. }
  reflect. destruct Hf as [->|Hf]; [cbn in *; lia|].
  destruct (committed_slot_spec v p cur Hv Hw ltac:(lia)) as [(-> & Hfull & Hh)|(pa & v1 & p1 & -> & Hx & Hs & Hsame)].
  { exists (Err NoMemory), v, p. split_and!; [done|by apply vmo_ext_refl|done|done|done]. }
  destruct (round_progress (vo_size v) cur (Z.of_nat (length bs))) as (Hr1 & Hr2 & Hr3 & Hr4); [lia|lia|done|].
  set (real := Z.min (cur + Z.min (4096 - cur mod 4096) (Z.of_nat (length bs))) (vo_size v) - cur) in *.
  set (p2 := with_ram p1 _). pose proof (ve_wf _ _ _ _ Hx) as Hv1.
  pose proof (Z.div_mod cur 4096) as Hdm. pose proof (Z.mod_pos_bound cur 4096) as Hmb.
  assert (Hlt : Z.of_nat (length (take (Z.to_nat real) bs)) = real) by (rewrite length_take; lia).
  assert (Hst : vmo_ext v1 p1 v1 p2).
  { apply (store_ext v1 p1 (cur / 4096)); [done|by apply Hx|done|by apply Forall_take|lia|lia]. }
  pose proof (ext_size _ _ _ _ Hx Hv) as Hsz.
  assert (Hpc : cur / 4096 < page_count v).
  { pose proof (page_count_size v Hm). apply Z.div_lt_upper_bound; lia. }
  destruct (IH v1 (cur + real) (drop (Z.to_nat real) bs) p2) as (r & v3 & p3 & -> & Hx3 & Hr).
  { by apply Hst. }
  { by apply Hst. }
  { by apply Forall_drop. }
  { lia. }
  { lia. }
  { destruct Hr4 as [Hr4|Hr4]; [left; apply drop_ge; lia|right].
    unfold page_count in *. rewrite Hsz, Hr4. lia. }
  assert (Hx' : vmo_ext v p v3 p3) by (eapply vmo_ext_trans; [|done]; by eapply vmo_ext_trans).
  destruct r as [n|e]; [|by exists (Err e), v3, p3].
  destruct Hr as [Hn Hwr]. rewrite Hsz, length_drop in Hn.
  exists (Ok (real + n)), v3, p3. split_and!; [done|done|lia|].
  apply (written_app _ _ v1 (ram p2) _ _ _ real n); [lia|lia| |done].
  intros k. unfold p2. cbn [with_ram ram].
  rewrite (store_bytes v1 p1 (cur / 4096)), Hlt, <- Hdm, Hsame;
    [done|lia|done|done|by apply Forall_take|lia|lia].
Qed.

(** *** Reading *)

(** The bytes of the object from [cur] on. *)
Definition content (v : Vmo) (m : Ram) (cur : Z) (n : nat) : list Z :=
  map (fun i => vmo_byte v m (cur + Z.of_nat i)) (seq 0 n).

Lemma content_app v m cur a b :
  content v m cur (a + b) = content v m cur a ++ content v m (cur + Z.of_nat a) b.
Proof.
  unfold content. rewrite seq_app, map_app. f_equal. rewrite Nat.add_0_l.
  rewrite <- (Nat.add_0_r a) at 1. rewrite <- fmap_add_seq, map_map.
  apply map_ext. intros i. f_equal. lia.
Qed.

Lemma map_const_seq {A} (x : A) k n : map (fun _ => x) (seq k n) = replicate n x.
Proof. revert k. induction n as [|n IH]; intros k; cbn; [done|by rewrite IH]. Qed.

Lemma content_page v m i a n o :
  at_z (vo_slots v) i = Some o -> 0 <= a -> a + Z.of_nat n <= 4096 ->
  content v m (4096 * i + a) n =
  match o with Some pa => copy_from m (pa + a) n | None => replicate n 0 end.
Proof.
  intros Hi Ha Hn.
  transitivity (map (fun k => match o with Some pa => byte_at m (pa + a + Z.of_nat k) | None => 0 end) (seq 0 n)).
  - unfold content. apply map_ext_in. intros k [_ Hk]%in_seq. unfold vmo_byte.
    rewrite <- Z.add_assoc. destruct (page_index i (a + Z.of_nat k)) as [-> ->]; [lia|].
    rewrite Hi. destruct o; [|done]. f_equal. lia.
  - destruct o; [done|apply map_const_seq].
Qed.

Lemma read_loop_spec fuel v p m cur n :
  vmo_wf v p -> 0 <= cur -> (1 <= fuel)%nat -> n = 0%nat \/ page_count v - cur / 4096 < Z.of_nat fuel ->
  read_loop fuel v m cur n = Some (content v m cur (Z.to_nat (Z.min (Z.of_nat n) (vo_size v - cur)))).
Proof.
  revert cur n. induction fuel as [|fuel IH]; intros cur n Hv Hc Hf1 Hf; [lia|].
  cbn [read_loop]. destruct (wf_size_mod v p Hv) as [Hm _].
  destruct ((0 <? n)%nat && (cur <? vo_size v)) eqn:E.
  2:{ apply andb_false_iff in E. rewrite Nat.ltb_ge, Z.ltb_ge in E.
      replace (Z.to_nat _) with 0%nat by lia. done. }
  reflect. destruct Hf as [->|Hf]; [lia|].
  destruct (slot_in v p cur Hv ltac:(lia)) as [o Ho]. rewrite Ho.
  destruct (round_progress (vo_size v) cur (Z.of_nat n)) as (Hr1 & Hr2 & Hr3 & Hr4); [lia|lia|done|].
  set (real := Z.min (cur + Z.min (4096 - cur mod 4096) (Z.of_nat n)) (vo_size v) - cur) in *.
  pose proof (Z.div_mod cur 4096) as Hdm. pose proof (Z.mod_pos_bound cur 4096) as Hmb.
  assert (Hpc : cur / 4096 < page_count v).
  { pose proof (page_count_size v Hm). apply Z.div_lt_upper_bound; lia. }
  rewrite IH; [|done|lia|lia|destruct Hr4 as [Hr4|Hr4]; [left|right]; lia].
  cbn [fmap option_fmap option_map]. f_equal.
  transitivity (content v m cur (Z.to_nat real) ++
    content v m (cur + real) (Z.to_nat (Z.min (Z.of_nat n) (vo_size v - cur) - real))).
  - f_equal.
    + rewrite <- (content_page v m (cur / 4096) (cur mod 4096)) by (done || lia). by rewrite <- Hdm.
    + f_equal. lia.
  - replace (cur + real) with (cur + Z.of_nat (Z.to_nat real)) by lia. rewrite <- content_app.
    f_equal. lia.
Qed.

Lemma vmo_read_spec v p m off n :
  vmo_wf v p -> 0 <= off ->
  vmo_read v m off n = Some (content v m off (Z.to_nat (Z.min (Z.of_nat n) (vo_size v - off)))).
Proof.
  intros Hv Ho. unfold vmo_read. destruct (vo_size v <=? off) eqn:E; reflect.
  - by replace (Z.to_nat _) with 0%nat by lia.
  - apply (read_loop_spec _ _ p); [done|done|unfold vmo_fuel; lia|right].
    unfold vmo_fuel. pose proof (Z.div_pos off 4096 Ho ltac:(lia)).
    destruct (wf_size_mod v p Hv) as [Hm Hp]. pose proof (page_count_size v Hm). lia.
Qed.

Lemma vmo_write_spec v p off bs :
  vmo_wf v p -> phys_wf p -> Forall is_byte bs -> 0 <= off ->
  write_outcome v p off bs (vmo_write v off bs p).
Proof.
  intros Hv Hw Hb Ho. unfold vmo_write. destruct (vo_size v <=? off) eqn:E; reflect.
  - exists (Ok 0), v, p. split_and!; [done|by apply vmo_ext_refl|lia|].
    intros k. destruct (Z.leb_spec off k), (Z.ltb_spec k (off + 0)); try done; lia.
  - apply write_loop_spec; [done..|unfold vmo_fuel; lia|right].
    unfold vmo_fuel. pose proof (Z.div_pos off 4096 Ho ltac:(lia)).
    destruct (wf_size_mod v p Hv) as [Hm Hp]. pose proof (page_count_size v Hm). lia.
Qed.

Lemma content_written v m v' m' cur bs n :
  written v m v' m' cur bs (Z.of_nat n) -> (n <= length bs)%nat -> content v' m' cur n = take n bs.
Proof.
  intros H Hn. apply list_eq_same_length with n; [rewrite length_take; lia|unfold content; rewrite length_map, length_seq; lia|].
  intros i x y Hi Hx Hy. unfold content in Hx. rewrite list_lookup_fmap, lookup_seq_lt in Hx by done.
  injection Hx as <-. rewrite lookup_take_lt in Hy by done. rewrite H.
  destruct (Z.leb_spec cur (cur + Z.of_nat i)); [|lia].
  destruct (Z.ltb_spec (cur + Z.of_nat i) (cur + Z.of_nat n)); [|lia]. cbn [andb].
  rewrite nth_lookup. replace (Z.to_nat _) with i by lia. by rewrite Hy.
Qed.

(** *** Creation with enough memory *)
Definition room (p : Phys) (k : Z) : Prop := next_free p + 4096 * k <= end_free p.

Record fresh_ext (p p' : Phys) (k : Z) : Prop := {
  fe_phys : phys_wf p';
  fe_next : next_free p' = next_free p + 4096 * k;
  fe_end : end_free p' = end_free p;
  fe_frame : forall a, a < next_free p -> byte_at (ram p') a = byte_at (ram p) a;
  fe_words : forall w, w < next_free p -> ram_read (ram p') w = ram_read (ram p) w;
  fe_tags : forall pa, RAM_BASE <= pa < next_free p ->
    default 0 (tags p' !! pa_to_pfn pa) = default 0 (tags p !! pa_to_pfn pa)
}.

Lemma fresh_ext_trans p1 p2 p3 k1 k2 :
  0 <= k1 -> fresh_ext p1 p2 k1 -> fresh_ext p2 p3 k2 -> fresh_ext p1 p3 (k1 + k2).
Proof.
  intros Hk H1 H2. destruct H1 as [W1 N1 E1 R1 D1 T1], H2 as [W2 N2 E2 R2 D2 T2].
  constructor; [done|lia|congruence|..].
  - intros a Ha. rewrite R2, R1 by lia. done.
  - intros w Hw. rewrite D2, D1 by lia. done.
  - intros pa Hpa. rewrite T2, T1 by lia. done.
Qed.

Lemma alloc_with_room tag p k :
  phys_wf p -> room p k -> 1 <= k ->
  alloc_page tag p = Some (Ok (next_free p), alloc_next tag p) /\ fresh_ext p (alloc_next tag p) 1.
Proof.
  intros Hw Hr Hk. unfold room in Hr. rewrite alloc_page_eq by done.
  destruct (end_free p <=? next_free p) eqn:E; reflect; [lia|]. split; [done|].
  constructor; [by apply alloc_next_wf|done|done|..].
  - intros a Ha. cbn [alloc_next ram]. destruct (wf_align p Hw). rewrite byte_zero_page by done.
    case_match; [reflect; lia|done].
  - intros w Hlt. apply zero_page_out. by left.
  - intros pa Hpa. by apply alloc_next_tags.
Qed.

Lemma extra_meta_spec n meta got p :
  phys_wf p -> room p (Z.of_nat n) ->
  exists got' p', extra_meta n meta got p = Some (Ok got', p') /\ fresh_ext p p' (Z.of_nat n) /\
    length got' = (length got + n)%nat /\ (forall y, y ∈ got' -> y ∈ got \/ next_free p <= y) /\
    (frames_ok p (meta :: got) -> frames_ok p' (meta :: got')).
Proof.
  revert got p. induction n as [|n IH]; intros got p Hw Hr.
  - exists got, p. split_and!; [done| |lia|by left|done]. constructor; [done|lia|done..].
  - destruct (alloc_with_room TVmoData p _ Hw Hr ltac:(lia)) as [Ha Hf].
    destruct (IH (got ++ [next_free p]) (alloc_next TVmoData p)) as (got' & p' & He & Hf' & Hl & Hy & Hfo).
    { apply Hf. }
    { unfold room in *. rewrite (fe_next _ _ _ Hf), (fe_end _ _ _ Hf). lia. }
    exists got', p'. split_and!.
    + cbn [extra_meta]. unfold mbind, vm_bind, or_drop, alloc_vmo_meta. cbv beta. by rewrite Ha.
    + replace (Z.of_nat (S n)) with (1 + Z.of_nat n) by lia. by eapply fresh_ext_trans.
    + rewrite Hl, length_app. cbn [length]. lia.
    + intros y [Hin|Hge]%Hy; [|right; cbn [alloc_next next_free] in Hge; lia].
      apply elem_of_app in Hin as [Hin| ->%list_elem_of_singleton]; [by left|by right].
    + intros Hok. apply Hfo. apply (frames_perm _ (next_free p :: meta :: got)); [solve_Permutation|].
      unfold room in Hr. apply frames_fresh; [done|done|lia|done].
Qed.

Lemma at_replicate {A} n (x : A) i y : at_z (replicate n x) i = Some y -> y = x.
Proof. intros [_ Hl]%at_z_Some. by apply lookup_replicate_1 in Hl as [-> _]. Qed.

Lemma live_replicate {A} n : live (replicate n (@None A)) = [].
Proof. by induction n. Qed.

Lemma pad_extra_live got : (length got <= 8)%nat -> omap id (pad_extra got) = got.
Proof.
  intros Hl. unfold pad_extra. rewrite take_app_ge by (rewrite length_map; lia). rewrite omap_app.
  assert (omap id (map Some got) = got) as -> by (clear Hl; induction got as [|x l IH]; cbn; [done|by rewrite IH]).
  rewrite take_replicate. change (omap id (replicate ?n None)) with (live (replicate n (@None Z))).
  by rewrite live_replicate, app_nil_r.
Qed.

Lemma create_ok id size p :
  phys_wf p -> 0 < vmo_pages size <= VMO_MAX_PAGES -> size <> 0 ->
  room p (Z.max 1 (meta_pages_needed (vmo_pages size))) ->
  exists v p', create_with_size id size p = Some (Ok v, p') /\
    fresh_ext p p' (Z.max 1 (meta_pages_needed (vmo_pages size))) /\
    vmo_wf v p' /\ vo_size v = vmo_pages size * 4096 /\
    vo_slots v = replicate (Z.to_nat (vmo_pages size)) None /\
    vo_meta_page v = next_free p /\
    frames_ok p' (owned_pages v) /\ (forall y, y ∈ owned_pages v -> next_free p <= y).
Proof.
  intros Hw Hp Hs Hr. unfold create_with_size.
  assert ((size =? 0) = false) as -> by (by apply Z.eqb_neq). cbn zeta.
  destruct (VMO_MAX_PAGES <? vmo_pages size) eqn:E; reflect; [lia|].
  destruct (alloc_with_room TVmoData p _ Hw Hr ltac:(lia)) as [Ha Hf].
  destruct (extra_meta_spec (Z.to_nat (meta_pages_needed (vmo_pages size) - 1)) (next_free p) []
    (alloc_next TVmoData p)) as (got & p' & He & Hf' & Hlen & Hy & Hfo); [apply Hf| |].
  { unfold room in *. rewrite (fe_next _ _ _ Hf), (fe_end _ _ _ Hf). lia. }
  unfold mbind, vm_bind, alloc_vmo_meta. cbv beta. rewrite Ha, He.
  assert (Hownd : forall id size cow parent n slots c,
    owned_pages (mkVmo id (next_free p) size cow parent (pad_extra got) (replicate n None) slots c) = next_free p :: got).
  { intros. unfold owned_pages. cbn [vo_meta_page vo_extra_meta_pages vo_committed_pages].
    assert (meta_pages_needed (vmo_pages size) <= 9).
    { unfold meta_pages_needed. change slots_per_page with 249. unfold VMO_MAX_PAGES in Hp.
      assert ((vmo_pages size + 249 - 1) / 249 < 10) by (apply Z.div_lt_upper_bound; lia). lia. }
    rewrite pad_extra_live by (cbn [length] in Hlen; lia).
    pose proof (@live_replicate Z n) as Hnone. unfold live in Hnone. by rewrite Hnone, app_nil_r. }
  eexists _, p'. split; [done|]. split_and!.
  - replace (Z.max 1 _) with (1 + Z.of_nat (Z.to_nat (meta_pages_needed (vmo_pages size) - 1))) by lia.
    by eapply fresh_ext_trans.
  - constructor; cbn [vo_size vo_slots vo_committed_pages].
    + rewrite length_replicate. lia.
    + intros H0%(f_equal length). rewrite length_replicate in H0. cbn in H0. lia.
    + done.
    + by intros i pa ?%at_replicate.
    + by intros i j pa ?%at_replicate.
  - done.
  - done.
  - done.
  - rewrite Hownd. apply Hfo. apply frames_fresh; [done|done|unfold room in Hr; lia|].
    constructor; [constructor|by intros pa ?%elem_of_nil].
  - intros y. rewrite Hownd. intros [->|[Hin|Hge]%Hy]%elem_of_cons; [done|by apply elem_of_nil in Hin|].
    cbn [alloc_next next_free] in Hge. lia.
Qed.

Lemma content_empty v m : live (vo_slots v) = [] -> forall i, vmo_byte v m i = 0.
Proof.
  intros Hl i. unfold vmo_byte. destruct (at_z (vo_slots v) (i / 4096)) as [[pa|]|] eqn:E; [|done..].
  apply at_z_Some in E as [_ E]. assert (Hin : pa ∈ live (vo_slots v)) by (apply elem_of_live; by eexists).
  rewrite Hl in Hin. by apply elem_of_nil in Hin.
Qed.

(** *** An operation on one object leaves the others alone *)
Definition apart (v w : Vmo) : Prop := forall x, in_pages v x -> ~ in_pages w x.

Lemma wf_mono v p p' : vmo_wf v p -> next_free p <= next_free p' -> vmo_wf v p'.
Proof.
  intros [Hs Hn Ho Hp Hd] Hle. constructor; try done.
  intros i pa Hi. destruct (Hp i pa Hi) as (?&?&?). split_and!; [done|lia|done].
Qed.

Lemma in_pages_below v p x : vmo_wf v p -> in_pages v x -> x < next_free p.
Proof. intros Hv (i & pa & Hi & Hx). destruct (vw_page v p Hv i pa Hi) as (_ & ? & _). lia. Qed.

Lemma other_kept o v p v' p' :
  vmo_wf o p -> apart o v -> vmo_ext v p v' p' ->
  vmo_wf o p' /\ apart o v' /\ forall k, vmo_byte o (ram p') k = vmo_byte o (ram p) k.
Proof.
  intros Ho Ha Hx. split_and!.
  - apply (wf_mono _ _ _ Ho). apply Hx.
  - intros x Hin (i & pa & Hi & Hr). destruct (ve_new _ _ _ _ Hx i pa Hi) as [Hi'|Hge].
    + apply (Ha x Hin). by exists i, pa.
    + pose proof (in_pages_below o p x Ho Hin). lia.
  - intros k. unfold vmo_byte. destruct (at_z (vo_slots o) (k / 4096)) as [[pa|]|] eqn:E; [|done..].
    pose proof (Z.mod_pos_bound k 4096 ltac:(lia)) as Hb.
    assert (Hin : in_pages o (pa + k mod 4096)) by by eapply page_in_object.
    apply (ve_frame _ _ _ _ Hx); [by apply (in_pages_below o p)|by apply Ha].
Qed.

Lemma room_kept v p v' p' : room p (holes v) -> vmo_ext v p v' p' -> room p' (holes v').
Proof. unfold room. intros Hr Hx. rewrite (ve_end _ _ _ _ Hx). pose proof (ve_cost _ _ _ _ Hx). lia. Qed.

Lemma commit_ok v p off :
  vmo_wf v p -> phys_wf p -> room p (holes v) -> 0 <= off < vo_size v ->
  exists o v1 p1, commit_page v off p = Some (Ok (o, v1), p1) /\ vmo_ext v p v1 p1 /\
    forall k, vmo_byte v1 (ram p1) k = vmo_byte v (ram p) k.
Proof.
  intros Hv Hw Hr Ho. rewrite commit_page_eq by done. destruct (slot_in v p off Hv Ho) as [[pa|] Hs]; rewrite Hs.
  - exists None, v, p. split_and!; [done|by apply vmo_ext_refl|done].
  - pose proof (holes_fill v _ 0 Hs). pose proof (holes_range (set_slot (off / 4096) (Some 0) v)).
    unfold room in Hr. destruct (end_free p <=? next_free p) eqn:E; reflect; [lia|].
    eexists _, _, _. split_and!; [done|by apply commit_next_ext|].
    intros k. by apply commit_next_bytes.
Qed.

Lemma write_ok v p off bs :
  vmo_wf v p -> phys_wf p -> Forall is_byte bs -> 0 <= off -> room p (holes v) ->
  exists n v' p', vmo_write v off bs p = Some (Ok n, v', p') /\ vmo_ext v p v' p' /\
    n = Z.max 0 (Z.min (Z.of_nat (length bs)) (vo_size v - off)) /\
    written v (ram p) v' (ram p') off bs n.
Proof.
  intros Hv Hw Hb Ho Hr. destruct (vmo_write_spec v p off bs Hv Hw Hb Ho) as (r & v' & p' & He & Hx & Hcase).
  destruct r as [n|e]; [by exists n, v', p'|].
  destruct Hcase as (_ & Hfull & Hh). pose proof (room_kept _ _ _ _ Hr Hx) as Hr'. unfold room in Hr'. lia.
Qed.

Lemma length_content v m cur n : length (content v m cur n) = n.
Proof. unfold content. by rewrite length_map, length_seq. Qed.

Lemma content_bytes v m cur n : Forall is_byte (content v m cur n).
Proof.
  apply Forall_forall. intros b (k & -> & _)%list_elem_of_fmap. unfold vmo_byte.
  case_match; [case_match; [apply byte_of_range|]|]; unfold is_byte; lia.
Qed.

Lemma nth_content v m cur n k :
  (k < n)%nat -> nth k (content v m cur n) 0 = vmo_byte v m (cur + Z.of_nat k).
Proof. intros Hk. rewrite nth_lookup. unfold content. by rewrite list_lookup_fmap, lookup_seq_lt. Qed.

(** One page copied by [fork]. *)
Lemma fork_page parent fk p i :
  vmo_wf parent p -> vmo_wf fk p -> phys_wf p -> apart parent fk -> vo_size fk = vo_size parent ->
  room p (holes fk) -> 0 <= i < page_count parent ->
  exists o fk1 p1 got n fk2 p2, commit_page fk (i * 4096) p = Some (Ok (o, fk1), p1) /\
    vmo_read parent (ram p1) (i * 4096) 4096 = Some got /\
    vmo_write fk1 (i * 4096) (got ++ replicate (4096 - length got) 0) p1 = Some (Ok n, fk2, p2) /\
    vmo_ext fk p fk2 p2 /\
    forall k, vmo_byte fk2 (ram p2) k =
      if (4096 * i <=? k) && (k <? 4096 * i + 4096) then vmo_byte parent (ram p) k else vmo_byte fk (ram p) k.
Proof.
  intros Hp Hf Hw Ha Hsz Hr Hi. destruct (wf_size_mod _ _ Hp) as [Hm _]. pose proof (page_count_size _ Hm) as Hps.
  destruct (commit_ok fk p (i * 4096)) as (o & fk1 & p1 & Hc & Hx1 & Hb1); [done..|lia|].
  destruct (other_kept _ _ _ _ _ Hp Ha Hx1) as (Hp1 & Ha1 & Hk1).
  pose proof (vmo_read_spec parent p1 (ram p1) (i * 4096) 4096 Hp1 ltac:(lia)) as Hrd.
  replace (Z.to_nat _) with 4096%nat in Hrd by lia.
  set (got := content parent (ram p1) (i * 4096) 4096) in *.
  assert (Hg : got ++ replicate (4096 - length got) 0 = got).
  { unfold got at 2. by rewrite length_content, Nat.sub_diag, app_nil_r. }
  destruct (write_ok fk1 p1 (i * 4096) got) as (n & fk2 & p2 & Hwr & Hx2 & Hn & Hwt);
    [apply Hx1|apply Hx1|apply content_bytes|lia|by eapply room_kept|].
  exists o, fk1, p1, got, n, fk2, p2. rewrite Hg. split_and!; [done..|by eapply vmo_ext_trans|].
  rewrite (ext_size _ _ _ _ Hx1 Hf), Hsz in Hn. unfold got in Hn at 1. rewrite length_content in Hn.
  assert (n = 4096) as -> by lia. clear Hn. intros k. rewrite Hwt, Hb1.
  rewrite (Z.mul_comm i). destruct (_ && _) eqn:E; [reflect|done].
  unfold got. rewrite nth_content by lia. rewrite Hk1. f_equal. lia.
Qed.

Lemma owned_not_empty v p : vmo_wf v p -> (length (vo_committed_pages v) =? 0)%nat = false.
Proof.
  intros Hv. rewrite (vw_owned v p Hv). apply Nat.eqb_neq. intros H0%length_zero_iff_nil.
  by apply (vw_nonempty v p Hv).
Qed.

(** A page the parent has not committed reads as zero. *)
Lemma hole_bytes v m i k :
  at_z (vo_slots v) i = Some None -> 4096 * i <= k < 4096 * i + 4096 -> vmo_byte v m k = 0.
Proof.
  intros Hi Hk. unfold vmo_byte. replace (k / 4096) with i; [by rewrite Hi|].
  pose proof (Z.div_mod k 4096). pose proof (Z.mod_pos_bound k 4096). lia.
Qed.

Lemma fork_pages_spec n parent fk p i :
  vmo_wf parent p -> vmo_wf fk p -> phys_wf p -> apart parent fk -> vo_size fk = vo_size parent ->
  room p (holes fk) -> 0 <= i -> i + Z.of_nat n = page_count parent ->
  (forall k, 4096 * i <= k -> vmo_byte fk (ram p) k = 0) ->
  exists fk' p', fork_pages n i parent fk p = Some (Ok fk', p') /\ vmo_ext fk p fk' p' /\
    forall k, 0 <= k < vo_size parent ->
      vmo_byte fk' (ram p') k = if k <? 4096 * i then vmo_byte fk (ram p) k else vmo_byte parent (ram p) k.
Proof.
  revert fk p i. induction n as [|n IH]; intros fk p i Hp Hf Hw Ha Hsz Hr Hi Hn Hz;
    destruct (wf_size_mod _ _ Hp) as [Hm _]; pose proof (page_count_size _ Hm) as Hps.
  { exists fk, p. split_and!; [done|by apply vmo_ext_refl|]. intros k Hk.
    destruct (Z.ltb_spec k (4096 * i)); [done|lia]. }
  cbn [fork_pages]. rewrite (owned_not_empty _ _ Hp), (vw_owned _ _ Hp).
  destruct (at_z_in (vo_slots parent) i) as [[pa|] Hs].
  { pose proof (vw_size _ _ Hp). lia. }
  - rewrite Hs. destruct (fork_page parent fk p i) as (o & fk1 & p1 & got & w & fk2 & p2 & -> & -> & -> & Hx & Hb);
      [done..|lia|].
    destruct (other_kept _ _ _ _ _ Hp Ha Hx) as (Hp2 & Ha2 & Hk2).
    destruct (IH fk2 p2 (i + 1)) as (fk' & p' & -> & Hx' & Hall).
    { done. } { apply Hx. } { apply Hx. } { done. }
    { by rewrite (ext_size _ _ _ _ Hx Hf). } { by eapply room_kept. } { lia. } { lia. }
    { intros k Hk. rewrite Hb. destruct (Z.ltb_spec k (4096 * i + 4096)); [lia|].
      rewrite andb_false_r. apply Hz. lia. }
    exists fk', p'. split_and!; [done|by eapply vmo_ext_trans|]. intros k Hk. rewrite Hall, Hk2, Hb by done.
    destruct (Z.ltb_spec k (4096 * (i + 1))), (Z.ltb_spec k (4096 * i)), (Z.leb_spec (4096 * i) k),
      (Z.ltb_spec k (4096 * i + 4096)); try lia; done.
  - rewrite Hs. destruct (IH fk p (i + 1)) as (fk' & p' & -> & Hx' & Hall); [done..|lia|lia| |].
    { intros k Hk. apply Hz. lia. }
    exists fk', p'. split_and!; [done|done|]. intros k Hk. rewrite Hall by done.
    destruct (Z.ltb_spec k (4096 * (i + 1))), (Z.ltb_spec k (4096 * i)); try done; [|lia].
    rewrite Hz by done. symmetry. apply (hole_bytes _ _ i); [done|lia].
Qed.

Lemma vmo_pages_aligned size :
  size mod 4096 = 0 -> 0 <= size < 2 ^ 64 - 4095 -> vmo_pages size = size / 4096.
Proof.
  intros Hm Hs. unfold vmo_pages. rewrite u64w_small by lia. pose proof (Z.div_mod size 4096 ltac:(lia)) as Hd.
  rewrite Hm in Hd. rewrite Hd at 1. rewrite Z.add_comm, Z.add_0_r, Z.mul_comm, Z.div_add by done. done.
Qed.

Lemma vmo_pages_size v p :
  vmo_wf v p -> vo_size v < 2 ^ 64 - 4095 -> vmo_pages (vo_size v) = page_count v.
Proof. intros Hv Hs. destruct (wf_size_mod _ _ Hv). apply vmo_pages_aligned; [done|lia]. Qed.

Lemma fresh_keeps v p p' k :
  vmo_wf v p -> fresh_ext p p' k -> forall i, vmo_byte v (ram p') i = vmo_byte v (ram p) i.
Proof.
  intros Hv Hf i. unfold vmo_byte. destruct (at_z (vo_slots v) (i / 4096)) as [[pa|]|] eqn:E; [|done..].
  apply (fe_frame _ _ _ Hf). apply (in_pages_below v p _ Hv). apply (page_in_object v _ pa (i / 4096)); [done|].
  apply Z.mod_pos_bound. lia.
Qed.

(** ** Claims *)

(** C14. A write and a read back.  On an object that owns its pages, [write]
    stores exactly the bytes that fit between the offset and the end of the
    object and says how many, or says that memory ran out; what was stored is
    what [read] gives back, bytes outside the range read as before, and no
    byte of memory outside the object's pages (other than pages that were
    free) changes.  With enough free memory for the pages not committed yet
    it does not fail. *)
Theorem vmo_write_then_read v p off bs :
  vmo_wf v p -> phys_wf p -> Forall is_byte bs -> 0 <= off ->
  exists r v' p', vmo_write v off bs p = Some (r, v', p') /\ vmo_wf v' p' /\ phys_wf p' /\
    (forall a, a < next_free p -> ~ in_pages v a -> byte_at (ram p') a = byte_at (ram p) a) /\
    match r with
    | Ok n => n = Z.max 0 (Z.min (Z.of_nat (length bs)) (vo_size v - off)) /\
        vmo_read v' (ram p') off (length bs) = Some (take (Z.to_nat n) bs) /\
        forall o k, 0 <= o -> o + Z.of_nat k <= off \/ off + n <= o ->
          vmo_read v' (ram p') o k = vmo_read v (ram p) o k
    | Err e => e = NoMemory /\ ~ room p (holes v)
    end.
Proof.
  intros Hv Hw Hb Ho. destruct (vmo_write_spec v p off bs Hv Hw Hb Ho) as (r & v' & p' & He & Hx & Hcase).
  pose proof (ve_wf _ _ _ _ Hx) as Hv'. pose proof (ext_size _ _ _ _ Hx Hv) as Hsz.
  exists r, v', p'. split_and!; [done|done|apply Hx|apply Hx|]. destruct r as [n|e].
  - destruct Hcase as [Hn Hwt]. split_and!; [done| |].
    + rewrite (vmo_read_spec v' p') by done. rewrite Hsz. f_equal.
      replace (Z.to_nat (Z.min _ _)) with (Z.to_nat n) by lia.
      apply (content_written v (ram p)); [|lia]. by replace (Z.of_nat (Z.to_nat n)) with n by lia.
    + intros o k Ho' Hout. rewrite (vmo_read_spec v' p'), (vmo_read_spec v p), Hsz by done. f_equal.
      unfold content. apply map_ext_in. intros j [_ Hj]%in_seq. rewrite Hwt.
      destruct (Z.leb_spec off (o + Z.of_nat j)), (Z.ltb_spec (o + Z.of_nat j) (off + n)); try done; lia.
  - destruct Hcase as (He' & Hfull & Hh). split; [done|]. intros Hr.
    pose proof (room_kept _ _ _ _ Hr Hx) as Hr'. unfold room in Hr'. lia.
Qed.

(** [fork] copies.  With enough free memory, forking an object that owns
    its pages returns an object of the same size with the same bytes and
    pages of its own, disjoint from the parent's, which keeps its contents. *)
Theorem fork_copies v p next_id new_id :
  vmo_wf v p -> phys_wf p -> vo_size v <= VMO_MAX_PAGES * 4096 ->
  room p (Z.max 1 (meta_pages_needed (page_count v)) + page_count v) ->
  exists f p', fork next_id v new_id p = Some (Ok f, p') /\ vmo_wf f p' /\ vmo_wf v p' /\ phys_wf p' /\
    vo_id f = new_id /\ vo_size f = vo_size v /\ apart v f /\
    (forall n off, 0 <= off -> vmo_read f (ram p') off n = vmo_read v (ram p) off n) /\
    (forall n off, 0 <= off -> vmo_read v (ram p') off n = vmo_read v (ram p) off n).
Proof.
  intros Hv Hw Hmax Hr. destruct (wf_size_mod _ _ Hv) as [Hm Hpos]. pose proof (page_count_size _ Hm) as Hps.
  unfold VMO_MAX_PAGES in Hmax. pose proof (vmo_pages_size v p Hv ltac:(lia)) as Hvp.
  destruct (create_ok next_id (vo_size v) p) as (f0 & p1 & He & Hf & Hfw & Hfs & Hfl & _);
    [done|rewrite Hvp; unfold VMO_MAX_PAGES; lia|lia|rewrite Hvp; unfold room in *; lia|].
  rewrite Hvp in *. set (f := renamed new_id true (vo_id v) f0).
  assert (Hfw' : vmo_wf f p1) by (destruct Hfw; by constructor).
  assert (Hnone : live (vo_slots f) = []) by (unfold f; cbn [renamed vo_slots]; rewrite Hfl; by apply live_replicate).
  assert (Hap : apart v f).
  { intros x _ (i & pa & Hi & _). unfold f in Hi. cbn [renamed vo_slots] in Hi. rewrite Hfl in Hi. by apply at_replicate in Hi. }
  pose proof (wf_mono v p p1 Hv ltac:(rewrite (fe_next _ _ _ Hf); lia)) as Hv1.
  assert (Hk1 : forall k, vmo_byte v (ram p1) k = vmo_byte v (ram p) k) by by apply (fresh_keeps _ _ _ _ Hv Hf).
  destruct (fork_pages_spec (Z.to_nat (page_count v)) v f p1 0) as (f' & p' & Hfk & Hx & Hall);
    [done|done|apply Hf|done|unfold f; cbn [renamed vo_size]; lia| |done|lia|by intros; apply content_empty|].
  { unfold room, holes in *. rewrite Hnone. unfold f. cbn [renamed vo_slots length].
    rewrite Hfl, length_replicate, (fe_next _ _ _ Hf), (fe_end _ _ _ Hf). lia. }
  destruct (other_kept _ _ _ _ _ Hv1 Hap Hx) as (Hv' & Hap' & Hk').
  assert (Hsz : vo_size f' = vo_size v).
  { rewrite (ext_size _ _ _ _ Hx Hfw'). unfold f. cbn [renamed vo_size]. lia. }
  exists f', p'. split_and!; [unfold fork; by rewrite He|apply Hx|done|apply Hx| |done|done| |].
  - by rewrite (ve_id _ _ _ _ Hx).
  - intros n off Ho. rewrite (vmo_read_spec f' p'), (vmo_read_spec v p), Hsz by (done || apply Hx).
    f_equal. unfold content. apply map_ext_in. intros j [_ Hj]%in_seq. rewrite Hall by lia.
    destruct (Z.ltb_spec (off + Z.of_nat j) (4096 * 0)); [lia|]. apply Hk1.
  - intros n off Ho. rewrite (vmo_read_spec v p'), (vmo_read_spec v p) by done.
    f_equal. unfold content. apply map_ext. intros j. by rewrite Hk', Hk1.
Qed.

(** *** Dropping an object and its clone *)
Definition untagged (p : Phys) (pa : Z) : Prop := default 0 (tags p !! pa_to_pfn pa) = 0.

Lemma free_untags p pa st p' :
  free_page p pa = Some (st, p') -> untagged p' pa /\ forall x, untagged p x -> untagged p' x.
Proof.
  unfold free_page, untagged. case_match; [done|]. case_match; [done|]. intros [= <- <-]. cbn [tags]. split.
  - by rewrite lookup_insert_eq.
  - intros x Hx. destruct (decide (pa_to_pfn x = pa_to_pfn pa)) as [->|Hne].
    + by rewrite lookup_insert_eq.
    + rewrite lookup_insert_ne by done. case_match; [|exact Hx]. by destruct (unregister_frame p pa) as (_ & _ & ->).
Qed.

Lemma drop_untags l p p' :
  drop_pages l p = Some p' ->
  (forall x, x ∈ l -> x <> 0 -> untagged p' x) /\ forall x, untagged p x -> untagged p' x.
Proof.
  revert p. induction l as [|pa l IH]; intros p; cbn [drop_pages].
  - intros [= <-]. split; [by intros x ?%elem_of_nil|done].
  - destruct (Z.eqb_spec pa 0) as [->|Hne].
    + intros [H1 H2]%IH. split; [|done]. by intros x [->|Hx]%elem_of_cons Hx0; [|apply H1].
    + destruct (free_page p pa) as [[st q]|] eqn:E; [|done]. intros [H1 H2]%IH.
      apply free_untags in E as [E1 E2]. split.
      * intros x [->|Hx]%elem_of_cons Hx0; [by apply H2|by apply H1].
      * intros x Hx. by apply H2, E2.
Qed.

Lemma free_untagged p pa : untagged p pa -> free_page p pa = None.
Proof. unfold free_page, untagged. intros ->. by case_match. Qed.

(** The owners of a clone are real owners.  [clone] forgets copies of
    the addresses, not the owners it makes, so once an object has been
    dropped dropping its clone frees its metadata page again, which panics. *)
Theorem cloned_vmo_double_free v p p1 :
  vo_meta_page v <> 0 -> drop_vmo v p = Some p1 -> drop_vmo (vmo_clone v) p1 = None.
Proof.
  intros Hm Hd. apply drop_untags in Hd as [Hd _].
  assert (Hu : untagged p1 (vo_meta_page v)) by (apply Hd; [apply elem_of_cons; by left|done]).
  unfold drop_vmo, owned_pages, vmo_clone. cbn [vo_meta_page drop_pages].
  destruct (Z.eqb_spec (vo_meta_page v) 0); [done|]. by rewrite free_untagged.
Qed.

(** *** Child slices *)
Lemma slice_slots_spec n v p start :
  vmo_wf v p -> 0 <= start -> start + Z.of_nat n <= page_count v ->
  slice_slots n v start = Some (take n (drop (Z.to_nat start) (vo_slots v))).
Proof.
  intros Hv. destruct (wf_size_mod _ _ Hv) as [Hm _]. pose proof (page_count_size _ Hm) as Hps.
  pose proof (vw_size _ _ Hv) as Hsz.
  revert start. induction n as [|n IH]; intros start Hs Hn; [done|]. cbn [slice_slots].
  rewrite (owned_not_empty _ _ Hv), (vw_owned _ _ Hv).
  destruct (at_z_in (vo_slots v) start) as [o Ho]; [lia|]. rewrite Ho. cbn [mbind option_bind].
  rewrite IH by lia. cbn [mbind option_bind]. f_equal.
  apply at_z_Some in Ho as [_ Ho]. rewrite (drop_S _ _ _ Ho). cbn [take].
  by replace (Z.to_nat (start + 1)) with (S (Z.to_nat start)) by lia.
Qed.

Lemma aligned_land x : 0 <= x -> Z.land x (4096 - 1) = 0 <-> x mod 4096 = 0.
Proof. intros Hx. change (4096 - 1) with (Z.ones 12). by rewrite Z.land_ones by lia. Qed.

Lemma slice_at v offset size o :
  0 <= offset -> offset mod 4096 = 0 -> size mod 4096 = 0 -> 0 <= o < size ->
  at_z (take (Z.to_nat (size / 4096)) (drop (Z.to_nat (offset / 4096)) (vo_slots v))) (o / 4096) =
  at_z (vo_slots v) ((offset + o) / 4096).
Proof.
  intros Ho Hom Hsm Hor. pose proof (Z.div_mod offset 4096). pose proof (Z.div_mod size 4096).
  pose proof (Z.div_pos o 4096 ltac:(lia) ltac:(lia)). pose proof (Z.div_pos offset 4096 Ho ltac:(lia)).
  assert (o / 4096 < size / 4096) by (apply div_page_bound; lia).
  replace ((offset + o) / 4096) with (offset / 4096 + o / 4096).
  2:{ replace (offset + o) with (o + offset / 4096 * 4096) by lia. rewrite Z.div_add by done. lia. }
  unfold at_z. destruct (Z.leb_spec 0 (o / 4096)); [|lia]. destruct (Z.leb_spec 0 (offset / 4096 + o / 4096)); [|lia].
  rewrite lookup_take_lt, lookup_drop by lia. f_equal. lia.
Qed.

Lemma slice_made v p next_id new_id offset size :
  vmo_wf v p -> phys_wf p -> vo_size v <= 2048 * 4096 ->
  0 <= offset -> 0 < size -> offset mod 4096 = 0 -> size mod 4096 = 0 -> offset + size <= vo_size v ->
  room p (Z.max 1 (meta_pages_needed (size / 4096)) + 1) ->
  exists c p', create_child_slice next_id v new_id offset size p = Some (Ok c, p') /\ vo_size c = size /\
    vo_slots c = take (Z.to_nat (size / 4096)) (drop (Z.to_nat (offset / 4096)) (vo_slots v)) /\
    vo_committed_pages c = replicate (Z.to_nat (size / 4096)) None /\
    fresh_ext p p' (Z.max 1 (meta_pages_needed (size / 4096))).
Proof.
  intros Hv Hw Hmax Ho Hs Hom Hsm Hin Hr. unfold create_child_slice.
  rewrite (proj2 (aligned_land offset Ho) Hom), (proj2 (aligned_land size ltac:(lia)) Hsm). cbn [negb orb Z.eqb].
  rewrite u64w_small by lia. destruct (Z.ltb_spec (vo_size v) (offset + size)); [lia|].
  pose proof (vmo_pages_aligned size Hsm ltac:(lia)) as Hvp. pose proof (Z.div_mod size 4096).
  pose proof (Z.div_mod offset 4096).
  destruct (create_ok next_id size p) as (f & p' & He & Hf & Hfw & Hfs & Hfl & _);
    [done|unfold VMO_MAX_PAGES; lia|lia|unfold room in *; rewrite Hvp; lia|].
  rewrite He. rewrite (slice_slots_spec _ _ p) by
    (done || (pose proof (Z.div_pos offset 4096); unfold page_count;
              destruct (wf_size_mod _ _ Hv); pose proof (Z.div_mod (vo_size v) 4096); lia)).
  eexists _, p'. split; [done|]. cbn [vo_size vo_slots vo_committed_pages].
  rewrite (vw_owned _ _ Hfw), Hfl, Hfs, Hvp in *. split_and!; [lia|done|done|done].
Qed.

(** A slice shares the parent's pages until it is committed.  Inside the
    parent, [create_child_slice] returns an object whose page at each offset
    is the parent's; committing that page of the slice puts a fresh zeroed
    page in its place (its owner array is empty), so a mapping, which commits
    each page first, never shows the parent's bytes. *)
Theorem slice_shares_until_commit v p next_id new_id offset size :
  vmo_wf v p -> phys_wf p -> vo_size v <= VMO_MAX_PAGES * 4096 ->
  0 <= offset -> 0 < size -> offset mod 4096 = 0 -> size mod 4096 = 0 -> offset + size <= vo_size v ->
  room p (Z.max 1 (meta_pages_needed (size / 4096)) + 1) ->
  exists c p', create_child_slice next_id v new_id offset size p = Some (Ok c, p') /\ vo_size c = size /\
    (forall o, 0 <= o < size -> get_page_phys c o = get_page_phys v (offset + o)) /\
    forall o, 0 <= o < size -> exists pa c' p'', commit_page c o p' = Some (Ok (Some pa, c'), p'') /\
      get_page_phys c' o = Some pa /\ get_page_phys v (offset + o) <> Some pa /\
      forall k, 0 <= k < 4096 -> byte_at (ram p'') (pa + k) = 0.
Proof.
  intros Hv Hw Hmax Ho Hs Hom Hsm Hin Hr. unfold VMO_MAX_PAGES in Hmax.
  destruct (slice_made v p next_id new_id offset size) as (c & p' & He & Hsz & Hsl & Hcp & Hf); [done..|].
  exists c, p'. split_and!; [done|done| |].
  - intros o Hor. unfold get_page_phys. rewrite Hsz, Hsl.
    destruct (Z.leb_spec size o); [lia|]. destruct (Z.leb_spec (vo_size v) (offset + o)); [lia|].
    by rewrite slice_at.
  - intros o Hor. pose proof (Z.div_pos o 4096 ltac:(lia) ltac:(lia)).
    assert (Hlt : o / 4096 < size / 4096) by (apply div_page_bound; pose proof (Z.div_mod size 4096); lia).
    destruct (alloc_with_room TVmoData p' 1) as [Ha Hf']; [apply Hf| |done|].
    { unfold room in *. rewrite (fe_next _ _ _ Hf), (fe_end _ _ _ Hf). lia. }
    destruct (at_z_in (vo_slots c) (o / 4096)) as [old Hold].
    { rewrite Hsl, length_take, length_drop. destruct (wf_size_mod _ _ Hv) as [Hm _].
      pose proof (vw_size _ _ Hv). pose proof (Z.div_mod offset 4096). pose proof (Z.div_mod size 4096). lia. }
    exists (next_free p'), (commit_next (o / 4096) c p'), (alloc_next TVmoData p'). split_and!.
    + unfold commit_page. destruct (Z.leb_spec (vo_size c) o); [lia|]. rewrite Hcp, length_replicate.
      destruct (Nat.eqb_spec (Z.to_nat (size / 4096)) 0); [lia|].
      destruct (at_z_in (replicate (Z.to_nat (size / 4096)) (@None Z)) (o / 4096)) as [x Hx];
        [rewrite length_replicate; lia|]. pose proof (at_replicate _ _ _ _ Hx) as ->. rewrite Hx.
      unfold mbind, vm_bind, alloc_vmo_data. cbv beta. by rewrite Ha.
    + unfold get_page_phys. commit_cbn. destruct (Z.leb_spec (vo_size c) o); [lia|].
      by rewrite (at_set_z_eq _ _ _ _ Hold).
    + unfold get_page_phys. case_match; [done|]. destruct (at_z (vo_slots v) _) as [[pa|]|] eqn:E; [|done..].
      destruct (vw_page _ _ Hv _ _ E) as (_ & ? & _). rewrite (fe_next _ _ _ Hf). intros [= ->]. lia.
    + intros k Hk. cbn [alloc_next ram]. destruct (wf_align p' (fe_phys _ _ _ Hf)). rewrite byte_zero_page by done.
      case_match eqn:E; [done|]. apply andb_false_iff in E as [?|?]; reflect; lia.
Qed.

(** *** Places of the slots *)

(** C40. Each of the 2048 page slots lies inside a metadata page, after its
    header and before the table of further metadata pages, in one of at most
    nine pages whose table entries exist; two slots never overlap; and an
    object of any allowed size has metadata pages for all its slots. *)
Theorem slot_places_disjoint i j :
  0 <= i < VMO_MAX_PAGES -> 0 <= j < VMO_MAX_PAGES ->
  let '(mi, oi) := slot_place i in let '(mj, oj) := slot_place j in
  0 <= mi <= 8 /\ header_size <= oi /\ oi + slot_size <= PA_TABLE_BASE /\
  PA_TABLE_BASE + (mi - 1) * 8 + 8 <= 4096 /\ mi < meta_pages_needed (i + 1) <= 9 /\
  (mi = mj -> oi < oj + slot_size -> oj < oi + slot_size -> i = j).
Proof.
  unfold VMO_MAX_PAGES, slot_place, meta_pages_needed. intros Hi Hj.
  change slots_per_page with 249. change header_size with 48. change slot_size with 16. change PA_TABLE_BASE with 4032.
  pose proof (Z.div_mod i 249). pose proof (Z.mod_pos_bound i 249).
  pose proof (Z.div_mod j 249). pose proof (Z.mod_pos_bound j 249).
  pose proof (Z.div_mod (i + 1 + 249 - 1) 249). pose proof (Z.mod_pos_bound (i + 1 + 249 - 1) 249).
  split_and!; lia.
Qed.

(** Sizes near the top of the address space wrap.  A size in the last
    page of the 64-bit range gives an object of no pages (and takes a page
    for it), and a slice whose end wraps past zero passes the check on its
    bounds and panics on the first page it looks up. *)
Theorem vmo_sizes_wrap id new_id p size v offset len :
  phys_wf p -> room p 1 -> 2 ^ 64 - 4095 <= size < 2 ^ 64 ->
  vmo_wf v p -> vo_size v <= VMO_MAX_PAGES * 4096 -> offset mod 4096 = 0 -> len mod 4096 = 0 ->
  0 < len <= vo_size v -> 2 ^ 64 - len <= offset < 2 ^ 64 ->
  room p (Z.max 1 (meta_pages_needed (len / 4096))) ->
  (exists e, create_with_size id size p = Some (Ok e, alloc_next TVmoData p) /\ vo_size e = 0 /\ vo_slots e = []) /\
  create_child_slice id v new_id offset len p = None.
Proof.
  intros Hw Hr Hs Hv Hmax Hom Hlm Hlen Ho Hr2. unfold VMO_MAX_PAGES in Hmax. split.
  - destruct (alloc_with_room TVmoData p 1 Hw Hr ltac:(done)) as [Ha _].
    assert (Hp : vmo_pages size = 0).
    { unfold vmo_pages, u64w. replace (size + 4095) with (size + 4095 - 2 ^ 64 + 1 * 2 ^ 64) by lia.
      rewrite Z.mod_add, Z.mod_small, Z.div_small by lia. done. }
    unfold create_with_size. destruct (Z.eqb_spec size 0); [lia|]. cbn zeta. rewrite Hp.
    change (VMO_MAX_PAGES <? 0) with false. cbv iota. change (Z.to_nat (meta_pages_needed 0 - 1)) with 0%nat.
    unfold mbind, vm_bind, alloc_vmo_meta. cbv beta. rewrite Ha. by eexists.
  - unfold create_child_slice. rewrite (proj2 (aligned_land offset ltac:(lia)) Hom), (proj2 (aligned_land len ltac:(lia)) Hlm).
    cbn [negb orb Z.eqb]. unfold u64w.
    replace (offset + len) with (offset + len - 2 ^ 64 + 1 * 2 ^ 64) by lia.
    rewrite Z.mod_add, Z.mod_small by lia. destruct (Z.ltb_spec (vo_size v) (offset + len - 2 ^ 64)); [lia|].
    pose proof (vmo_pages_aligned len Hlm ltac:(lia)) as Hvp. pose proof (Z.div_mod len 4096).
    destruct (create_ok id len p) as (f & p' & He & _);
      [done|unfold VMO_MAX_PAGES; lia|lia|by rewrite Hvp|]. rewrite He.
    replace (Z.to_nat (len / 4096)) with (S (Z.to_nat (len / 4096 - 1))) by lia. cbn [slice_slots].
    rewrite (owned_not_empty _ _ Hv), (vw_owned _ _ Hv).
    assert (at_z (vo_slots v) (offset / 4096) = None) as ->; [|done].
    unfold at_z. case_match; [|done]. apply lookup_ge_None_2. pose proof (vw_size _ _ Hv).
    pose proof (Z.div_mod offset 4096). lia.
Qed.

(** ** Examples *)

(** Two pages, none committed, on the small machine. *)
Definition demo_vmo : Vmo :=
  mkVmo 1 0x40010000 0x2000 false None (replicate 8 None) [None; None] [None; None] 0.
Definition demo_phys1 : Phys := alloc_next TVmoData demo_phys.

Example demo_vmo_made : fst <$> create_with_size 1 0x2000 demo_phys = Some (Ok demo_vmo).
Proof. vm_compute. reflexivity. Qed.

Lemma demo_phys1_wf : phys_wf demo_phys1.
Proof. apply alloc_next_wf; [apply demo_phys_wf|reflexivity]. Qed.

Lemma demo_vmo_wf : vmo_wf demo_vmo demo_phys1.
Proof.
  constructor; [reflexivity|discriminate|reflexivity|..].
  - by intros i pa H%(at_replicate 2 None).
  - by intros i j pa H%(at_replicate 2 None).
Qed.

(** The same with its first page committed. *)
Definition demo_vmo2 : Vmo := commit_next 0 demo_vmo demo_phys1.
Definition demo_phys2 : Phys := alloc_next TVmoData demo_phys1.

Lemma demo_ext2 : vmo_ext demo_vmo demo_phys1 demo_vmo2 demo_phys2.
Proof. apply commit_next_ext; [apply demo_vmo_wf|apply demo_phys1_wf|reflexivity|reflexivity]. Qed.

Lemma vmo_write_then_read_witness :
  exists v' p', vmo_write demo_vmo2 0xffe [1; 2; 3; 4] demo_phys2 = Some (Ok 4, v', p') /\
    vmo_read v' (ram p') 0xffe 4 = Some [1; 2; 3; 4].
Proof.
  destruct (vmo_write_then_read demo_vmo2 demo_phys2 0xffe [1; 2; 3; 4]) as (r & v' & p' & He & _ & _ & _ & Hr).
  - apply demo_ext2.
  - apply demo_ext2.
  - repeat constructor; unfold is_byte; lia.
  - lia.
  - destruct r as [n|e].
    + destruct Hr as (Hn & Hrd & _). vm_compute in Hn. subst n. exists v', p'. split; [exact He|exact Hrd].
    + destruct Hr as [_ Hr]. destruct Hr. unfold room. vm_compute. congruence.
Defined.

Lemma fork_copies_witness :
  exists f p', fork 7 demo_vmo2 9 demo_phys2 = Some (Ok f, p') /\ vo_id f = 9 /\ apart demo_vmo2 f.
Proof.
  destruct (fork_copies demo_vmo2 demo_phys2 7 9) as (f & p' & He & _ & _ & _ & Hid & _ & Hap & _).
  - apply demo_ext2.
  - apply demo_ext2.
  - vm_compute. congruence.
  - unfold room. vm_compute. congruence.
  - exists f, p'. split; [exact He|split; [exact Hid|exact Hap]].
Defined.

(** The tags of its pages, with RAM left empty. *)
Definition demo_tagged : Phys :=
  mkPhys 0x40012000 0x40020000 14 16 (replicate MAX_LIVE_PT 0)
    (<[16 := 2]> (<[17 := 2]> ∅)) cache_new ∅.

Lemma cloned_vmo_double_free_witness :
  exists p1, drop_vmo demo_vmo2 demo_tagged = Some p1 /\ drop_vmo (vmo_clone demo_vmo2) p1 = None.
Proof.
  assert (H : exists p1, drop_vmo demo_vmo2 demo_tagged = Some p1) by (eexists; vm_compute; reflexivity).
  destruct H as [p1 H]. exists p1. split; [exact H|].
  apply (cloned_vmo_double_free demo_vmo2 demo_tagged p1); [discriminate|exact H].
Defined.

Lemma slice_shares_until_commit_witness :
  exists c p', create_child_slice 2 demo_vmo2 3048 0 0x1000 demo_phys2 = Some (Ok c, p') /\
    get_page_phys c 0 = Some 0x40011000 /\
    exists pa c' p'', commit_page c 0 p' = Some (Ok (Some pa, c'), p'') /\ byte_at (ram p'') pa = 0.
Proof.
  destruct (slice_shares_until_commit demo_vmo2 demo_phys2 2 3048 0 0x1000)
    as (c & p' & He & _ & Hg & Hc).
  - apply (ve_wf _ _ _ _ demo_ext2).
  - apply (ve_phys _ _ _ _ demo_ext2).
  - apply Z.leb_le. reflexivity.
  - lia.
  - lia.
  - reflexivity.
  - reflexivity.
  - apply Z.leb_le. reflexivity.
  - unfold room. apply Z.leb_le. reflexivity.
  - exists c, p'. split; [exact He|]. split; [exact (Hg 0 ltac:(lia))|].
    destruct (Hc 0 ltac:(lia)) as (pa & c' & p'' & Hcm & _ & _ & Hb). exists pa, c', p''. split; [exact Hcm|].
    rewrite <- (Z.add_0_r pa). apply Hb. lia.
Defined.

Lemma slot_places_disjoint_witness :
  slot_place 2047 = (8, 48 + 55 * 16) /\ 8 < meta_pages_needed 2048.
Proof.
  pose proof (slot_places_disjoint 2047 0) as H. unfold VMO_MAX_PAGES in H.
  destruct (H ltac:(lia) ltac:(lia)) as (_ & _ & _ & _ & [Hm _] & _). split; [reflexivity|exact Hm].
Defined.

Lemma vmo_sizes_wrap_witness :
  create_child_slice 2 demo_vmo2 3048 (2 ^ 64 - 0x1000) 0x1000 demo_phys2 = None.
Proof.
  apply (vmo_sizes_wrap 2 3048 demo_phys2 (2 ^ 64 - 1) demo_vmo2 (2 ^ 64 - 0x1000) 0x1000).
  - apply (ve_phys _ _ _ _ demo_ext2).
  - unfold room. apply Z.leb_le. reflexivity.
  - lia.
  - apply (ve_wf _ _ _ _ demo_ext2).
  - apply Z.leb_le. reflexivity.
  - reflexivity.
  - reflexivity.
  - split; [lia|apply Z.leb_le; reflexivity].
  - lia.
  - unfold room. apply Z.leb_le. reflexivity.
Defined.
