(* ===== verification/Fdt.v ===== *)
(** * Fdt: reading the device tree

    kernel/src/fdt.rs: the header of a flattened device tree, the search for a
    property of a node, and the boot information made of what it finds.  The
    memory at the address that the boot loader passes is a function from
    offsets to bytes.  The search takes fuel, and the theorems show that
    [find_node_property] has enough. *)
From Stdlib Require Import ZArith Lia String.
From stdpp Require Import base tactics option list list_numbers.
From S2P Require Import Prelude Shared Bytes.
Local Open Scope Z_scope.

Definition FDT_MAGIC : Z := 0xD00DFEED.
Definition FDT_BEGIN_NODE : Z := 1.
Definition FDT_END_NODE : Z := 2.
Definition FDT_PROP : Z := 3.
Definition FDT_NOP : Z := 4.
Definition FDT_END : Z := 9.

Definition DEFAULT_RAM_BASE : Z := 0x40000000.
Definition DEFAULT_RAM_SIZE : Z := 512 * 1024 * 1024.
Definition DEFAULT_UART_BASE : Z := 0x09000000.

(** Big-endian numbers: [u64::from_be_bytes], and [read_u32(..).to_be()] on a
    little-endian processor. *)
Definition of_be (bs : list Z) : Z := unle (reverse bs).
Definition be (n : nat) (v : Z) : list Z := reverse (le n v).

Definition align4 (len : Z) : Z := Z.land (u64w (len + 3)) (Z.lxor 3 (2 ^ 64 - 1)).

(** ** Header *)
Record FdtHeader := mkFdtHeader {
  magic : Z; totalsize : Z; off_dt_struct : Z; off_dt_strings : Z; off_mem_rsvmap : Z;
  version : Z; last_comp_version : Z; boot_cpuid_phys : Z; size_dt_strings : Z; size_dt_struct : Z
}.

(** What is at the address of the tree. *)
Definition Blob : Type := Z -> Z.

Definition blob_bytes (b : Blob) (off n : Z) : list Z := map (fun i => b (off + Z.of_nat i)) (seq 0 (Z.to_nat n)).
Definition blob_u32 (b : Blob) (off : Z) : Z := of_be (blob_bytes b off 4).

Inductive FdtError := DtbNull | BadMagic.

Definition header_parse (b : Blob) : result FdtError FdtHeader :=
  let magic := blob_u32 b 0 in
  if negb (magic =? FDT_MAGIC) then Err BadMagic
  else Ok (mkFdtHeader magic (blob_u32 b 4) (blob_u32 b 8) (blob_u32 b 12) (blob_u32 b 16) (blob_u32 b 20)
             (blob_u32 b 24) (blob_u32 b 28) (blob_u32 b 32) (blob_u32 b 36)).

(** ** Searching *)
Record Parser := mkParser { struct_block : list Z; strings_block : list Z }.

Definition parser_at (b : Blob) (h : FdtHeader) : Parser :=
  mkParser (blob_bytes b (off_dt_struct h) (size_dt_struct h)) (blob_bytes b (off_dt_strings h) (size_dt_strings h)).

Definition get_string (p : Parser) (offset : Z) : option (list Z) :=
  if Z.of_nat (length (strings_block p)) <=? offset then None
  else let s := until_nul (drop (Z.to_nat offset) (strings_block p)) in if utf8_valid s then Some s else None.

(** The part of a node's name before the [@]. *)
Fixpoint simple_name (name : list Z) : list Z :=
  match name with
  | [] => []
  | c :: name => if c =? 64 then [] else c :: simple_name name
  end.

(** The big-endian [u32] at [pos], and the bytes from [pos] to the first NUL. *)
Definition u32_at (l : list Z) (pos : Z) : Z := of_be (take 4 (drop (Z.to_nat pos) l)).
Definition name_at (l : list Z) (pos : Z) : list Z := until_nul (drop (Z.to_nat pos) l).

Section search.
Context (p : Parser) (node_name prop_name : list Z).
Abbreviation block := (struct_block p).
Abbreviation size := (Z.of_nat (length (struct_block p))).

(** What a node of name [name] does to [target_depth]. *)
Definition enter_node (name : list Z) (depth : Z) (target_depth : option Z) : option Z :=
  if utf8_valid name && bool_decide (target_depth = None) && bool_decide (simple_name name = node_name)
  then Some depth else target_depth.

(** Whether the node that ends was the target. *)
Definition leaves_target (depth : Z) (target_depth : option Z) : bool :=
  match target_depth with Some d => depth <=? d | None => false end.

(** Whether a property is one of the target's with the name sought. *)
Definition is_sought (name_offset depth : Z) (target_depth : option Z) : bool :=
  match target_depth with
  | Some d => (depth =? d + 1) && bool_decide (get_string p name_offset = Some prop_name)
  | None => false
  end.

Fixpoint find_loop (fuel : nat) (pos depth : Z) (target_depth : option Z) : option (option (list Z)) :=
  match fuel with
  | O => None
  | S fuel =>
      if pos <? size then
        if size <? pos + 4 then Some None
        else
          let token := u32_at block pos in
          let pos := pos + 4 in
          if token =? FDT_BEGIN_NODE then
            let name := name_at block pos in
            let name_end := pos + Z.of_nat (length name) in
            if size <=? name_end then Some None
            else find_loop fuel (align4 (name_end + 1)) (depth + 1) (enter_node name depth target_depth)
          else if token =? FDT_END_NODE then
            let depth := depth - 1 in
            if leaves_target depth target_depth then Some None else find_loop fuel pos depth target_depth
          else if token =? FDT_PROP then
            if size <? pos + 8 then Some None
            else
              let data_size := u32_at block pos in
              let name_offset := u32_at block (pos + 4) in
              let pos := pos + 8 in
              if is_sought name_offset depth target_depth then
                Some (if size <? pos + data_size then None
                      else Some (take (Z.to_nat data_size) (drop (Z.to_nat pos) block)))
              else find_loop fuel (align4 (pos + data_size)) depth target_depth
          else if token =? FDT_NOP then find_loop fuel pos depth target_depth
          else Some None
      else Some None
  end.

Definition find_node_property : option (option (list Z)) := find_loop (S (length block)) 0 0 None.
End search.

(** ** Boot information *)
Record BootInfo := mkBootInfo {
  uart_base : Z; uart_type : list Z; ram_base : Z; ram_size : Z; gicd_base : Z; gicc_base : Z
}.

Definition BootInfo_empty : BootInfo := mkBootInfo 0 [] 0 0 0 0.

(** [u64::from_be_bytes] of eight bytes from [i] on. *)
Definition cell (reg : list Z) (i : nat) : Z := of_be (take 8 (drop i reg)).

Fixpoint contains (s t : list Z) : bool :=
  match t with
  | [] => bool_decide (s = [])
  | _ :: t' => bool_decide (take (length s) t = s) || contains s t'
  end.

(** The first of the three kinds of nodes that has registers. *)
Definition find_uart (p : Parser) : option (option (list Z * list Z)) :=
  r ← find_node_property p (lit "pl011") (lit "reg");
  match r with
  | Some reg => Some (Some (lit "pl011", reg))
  | None =>
      r ← find_node_property p (lit "uart") (lit "reg");
      match r with
      | Some reg => Some (Some (lit "uart", reg))
      | None =>
          r ← find_node_property p (lit "serial") (lit "reg");
          match r with Some reg => Some (Some (lit "serial", reg)) | None => Some None end
      end
  end.

Definition uart_kind (p : Parser) (uart_node : list Z) : option (list Z) :=
  if (length uart_node =? 0)%nat then Some []
  else
    r ← find_node_property p uart_node (lit "compatible");
    Some match r with
         | Some comp =>
             if negb (utf8_valid comp) then []
             else if contains (lit "pl011") comp then lit "pl011"
             else if contains (lit "16550") comp then lit "ns16550" else []
         | None => []
         end.

Definition parse (dtb_ptr : Z) (b : Blob) : option (result FdtError BootInfo) :=
  if dtb_ptr =? 0 then Some (Err DtbNull)
  else
    match header_parse b with
    | Err e => Some (Err e)
    | Ok h =>
        let p := parser_at b h in
        mem ← find_node_property p (lit "memory") (lit "reg");
        let '(rb, rs) :=
          match mem with
          | Some reg => if (16 <=? length reg)%nat then (cell reg 0, cell reg 8) else (DEFAULT_RAM_BASE, DEFAULT_RAM_SIZE)
          | None => (DEFAULT_RAM_BASE, DEFAULT_RAM_SIZE)
          end in
        uart ← find_uart p;
        let '(uart_node, ub) :=
          match uart with
          | Some (n, reg) => if (16 <=? length reg)%nat then (n, cell reg 0) else ([], DEFAULT_UART_BASE)
          | None => ([], DEFAULT_UART_BASE)
          end in
        kind ← uart_kind p uart_node;
        let kind := if (length kind =? 0)%nat then lit "pl011" else kind in
        gic ← find_node_property p (lit "intc") (lit "reg");
        let '(gd, gc) :=
          match gic with
          | Some reg => if (32 <=? length reg)%nat then (cell reg 0, cell reg 16) else (0, 0)
          | None => (0, 0)
          end in
        Some (Ok (mkBootInfo ub kind rb rs gd gc))
    end.
