(* ===== verification/FdtTree.v ===== *)
(** * FdtTree: the search finds what the tree says

    The search of Fdt.v over any block ends and stays inside it; over the
    encoding of a tree, it gives the property of the first node of the name. *)
From Stdlib Require Import ZArith Lia String.
From stdpp Require Import base tactics option list list_numbers.
From S2P Require Import Prelude Shared Bytes Fdt.
Local Open Scope Z_scope.

(** ** Fields *)
Lemma align4_spec n : 0 <= n -> n < 2 ^ 40 -> align4 n = 4 * ((n + 3) / 4).
Proof.
  intros H0 H1. unfold align4. rewrite u64w_small by lia. exact (mask_down 2 (n + 3) ltac:(lia) ltac:(lia)).
Qed.

Lemma align4_up n : 0 <= n -> n < 2 ^ 40 -> n <= align4 n < n + 4.
Proof. intros H0 H1. rewrite align4_spec by lia. pose proof (Z.div_mod (n + 3) 4). pose proof (Z.mod_pos_bound (n + 3) 4). lia. Qed.

Lemma of_be_be n v : 0 <= v < 2 ^ (8 * Z.of_nat n) -> of_be (be n v) = v.
Proof. intros Hv. unfold of_be, be. rewrite reverse_involutive. by apply unle_le. Qed.

Lemma length_be n v : length (be n v) = n.
Proof. unfold be. by rewrite length_reverse, length_le. Qed.

Lemma u32_at_range l pos : Forall is_byte l -> 0 <= u32_at l pos < 2 ^ 32.
Proof.
  intros Hl. unfold u32_at, of_be. set (bs := reverse _).
  assert (Hb : Forall is_byte bs) by (by apply Forall_reverse, Forall_take, Forall_drop).
  assert (Hn : (length bs <= 4)%nat) by (unfold bs; rewrite length_reverse, length_take; lia).
  pose proof (unle_range bs Hb) as [H0 H1]. split; [done|]. eapply Z.lt_le_trans; [exact H1|]. apply Z.pow_le_mono_r; lia.
Qed.

Lemma u32_here pre v rest pos :
  Z.to_nat pos = length pre -> 0 <= v < 2 ^ 32 -> u32_at (pre ++ be 4 v ++ rest) pos = v.
Proof.
  intros Hp Hv. unfold u32_at. rewrite Hp, drop_app_length, take_app_length' by (by rewrite length_be). by apply of_be_be.
Qed.

Lemma until_nul_here n rest : 0 ∉ n -> until_nul (n ++ 0 :: rest) = n.
Proof.
  induction n as [|c n IH]; intros Hn; [done|]. apply not_elem_of_cons in Hn as [Hc Hn].
  cbn. destruct (Z.eqb_spec c 0); [by subst|]. by rewrite IH.
Qed.

Lemma name_here pre n rest pos :
  Z.to_nat pos = length pre -> 0 ∉ n -> name_at (pre ++ n ++ 0 :: rest) pos = n.
Proof. intros Hp Hn. unfold name_at. rewrite Hp, drop_app_length. by apply until_nul_here. Qed.

(** ** The loop *)
Section loop.
Context (p : Parser) (node_name prop_name : list Z).
Abbreviation block := (struct_block p).
Abbreviation size := (Z.of_nat (length (struct_block p))).
Context (Hbytes : Forall is_byte (struct_block p)) (Hsize : Z.of_nat (length (struct_block p)) < 2 ^ 32).
Abbreviation loop := (find_loop p node_name prop_name).

(** Every round moves on by a token. *)
Lemma begin_moves pos : 0 <= pos -> pos + 4 <= size ->
  let e := pos + 4 + Z.of_nat (length (name_at block (pos + 4))) in e < size -> pos + 4 <= align4 (e + 1).
Proof. intros Hp Hs e He. pose proof (align4_up (e + 1)). lia. Qed.

Lemma prop_moves pos : 0 <= pos -> pos + 4 + 8 <= size ->
  pos + 4 <= align4 (pos + 4 + 8 + u32_at block (pos + 4)).
Proof.
  intros Hp Hs. pose proof (u32_at_range block (pos + 4) Hbytes).
  pose proof (align4_up (pos + 4 + 8 + u32_at block (pos + 4))). lia.
Qed.

Lemma loop_fuel f1 : forall f2 pos depth target, 0 <= pos -> size - pos < Z.of_nat f1 -> size - pos < Z.of_nat f2 ->
  (0 < f1)%nat -> (0 < f2)%nat -> loop f1 pos depth target = loop f2 pos depth target.
Proof.
  induction f1 as [|f1 IH]; intros [|f2] pos depth target Hp H1 H2 P1 P2; try lia. cbn [find_loop].
  destruct (Z.ltb_spec pos size); [|done]. destruct (Z.ltb_spec size (pos + 4)); [done|].
  destruct (_ =? FDT_BEGIN_NODE).
  { destruct (Z.leb_spec size (pos + 4 + Z.of_nat (length (name_at block (pos + 4))))); [done|].
    pose proof (begin_moves pos Hp ltac:(lia)). cbn zeta in *. apply IH; lia. }
  destruct (_ =? FDT_END_NODE); [destruct (leaves_target _ _); [done|apply IH; lia]|].
  destruct (_ =? FDT_PROP).
  { destruct (Z.ltb_spec size (pos + 4 + 8)); [done|]. destruct (is_sought _ _ _ _ _); [done|].
    pose proof (prop_moves pos Hp ltac:(lia)). apply IH; lia. }
  destruct (_ =? FDT_NOP); [apply IH; lia|done].
Qed.

(** The search always answers, and with a part of the block. *)
Lemma loop_answers f : forall pos depth target, 0 <= pos -> size - pos < Z.of_nat f -> (0 < f)%nat ->
  exists r, loop f pos depth target = Some r /\ forall bs, r = Some bs -> exists a b, slice block a b = Some bs.
Proof.
  induction f as [|f IH]; intros pos depth target Hp H1 P1; [lia|]. cbn [find_loop].
  assert (Hno : exists r : option (list Z), Some None = Some r /\ forall bs, r = Some bs -> exists a b, slice block a b = Some bs)
    by (exists None; by split).
  destruct (Z.ltb_spec pos size); [|done]. destruct (Z.ltb_spec size (pos + 4)); [done|].
  destruct (_ =? FDT_BEGIN_NODE).
  { destruct (Z.leb_spec size (pos + 4 + Z.of_nat (length (name_at block (pos + 4))))); [done|].
    pose proof (begin_moves pos Hp ltac:(lia)). cbn zeta in *. apply IH; lia. }
  destruct (_ =? FDT_END_NODE); [destruct (leaves_target _ _); [done|apply IH; lia]|].
  destruct (_ =? FDT_PROP).
  { destruct (Z.ltb_spec size (pos + 4 + 8)); [done|]. destruct (is_sought _ _ _ _ _).
    - destruct (Z.ltb_spec size (pos + 4 + 8 + u32_at block (pos + 4))) as [|Hin]; [done|]. eexists. split; [done|].
      intros bs [= <-]. pose proof (u32_at_range block (pos + 4) Hbytes).
      exists (Z.to_nat (pos + 4 + 8)), (Z.to_nat (pos + 4 + 8) + Z.to_nat (u32_at block (pos + 4)))%nat.
      unfold slice. rewrite decide_True by lia. do 2 f_equal. lia.
    - pose proof (prop_moves pos Hp ltac:(lia)). apply IH; lia. }
  destruct (_ =? FDT_NOP); [apply IH; lia|done].
Qed.
End loop.

(** ** Trees and their encoding *)

(** A node: its name, its properties (the place of the name among the strings,
    the contents) and the nodes below. *)
Inductive tree := Tree (name : list Z) (props : list (Z * list Z)) (kids : list tree).

Definition padded (l : list Z) : list Z :=
  l ++ replicate (Z.to_nat (align4 (Z.of_nat (length l)) - Z.of_nat (length l))) 0.

Definition enc_begin (name : list Z) : list Z := be 4 FDT_BEGIN_NODE ++ padded (name ++ [0]).
Definition enc_prop (pr : Z * list Z) : list Z :=
  be 4 FDT_PROP ++ be 4 (Z.of_nat (length pr.2)) ++ be 4 pr.1 ++ padded pr.2.

Fixpoint encode (t : tree) : list Z :=
  match t with
  | Tree name props kids =>
      enc_begin name ++ concat (map enc_prop props) ++ concat (map encode kids) ++ be 4 FDT_END_NODE
  end.

Inductive tree_ok : tree -> Prop :=
| Tree_ok name props kids :
    0 ∉ name -> utf8_valid name = true -> Forall (fun pr => 0 <= pr.1 < 2 ^ 32) props ->
    Forall tree_ok kids -> tree_ok (Tree name props kids).

(** The properties of the first node of a name, parents before children. *)
Fixpoint first_node (node_name : list Z) (t : tree) : option (list (Z * list Z)) :=
  match t with
  | Tree name props kids =>
      if bool_decide (simple_name name = node_name) then Some props
      else foldr (fun k r => match first_node node_name k with Some x => Some x | None => r end) None kids
  end.

(** The contents of the first property of a name. *)
Fixpoint first_prop (p : Parser) (prop_name : list Z) (props : list (Z * list Z)) : option (list Z) :=
  match props with
  | [] => None
  | pr :: props => if bool_decide (get_string p pr.1 = Some prop_name) then Some pr.2 else first_prop p prop_name props
  end.

Lemma tree_rect' (P : tree -> Prop) :
  (forall name props kids, Forall P kids -> P (Tree name props kids)) -> forall t, P t.
Proof.
  intros H. fix IH 1. intros [name props kids]. apply H.
  induction kids as [|k kids IHk]; constructor; [apply IH|exact IHk].
Qed.

Lemma align4_add x y : x mod 4 = 0 -> 0 <= x -> 0 <= y -> x + y < 2 ^ 40 -> align4 (x + y) = x + align4 y.
Proof.
  intros Hx H0 H1 H2. rewrite !align4_spec by lia. pose proof (Z.div_mod x 4 ltac:(lia)).
  replace (x + y + 3) with (y + 3 + x / 4 * 4) by lia. rewrite Z.div_add by lia. lia.
Qed.

Lemma align4_aligned n : 0 <= n -> n < 2 ^ 40 -> align4 n mod 4 = 0.
Proof. intros H0 H1. rewrite align4_spec by lia. rewrite Z.mul_comm. by apply Z.mod_mul. Qed.

Lemma length_padded l : Z.of_nat (length l) < 2 ^ 40 -> Z.of_nat (length (padded l)) = align4 (Z.of_nat (length l)).
Proof. intros Hl. pose proof (align4_up (Z.of_nat (length l))). unfold padded. rewrite length_app, length_replicate. lia. Qed.

(** ** The loop on an encoding *)
Section encoded.
Context (p : Parser) (node_name prop_name : list Z).
Abbreviation block := (struct_block p).
Context (Hbytes : Forall is_byte (struct_block p)) (Hsize : Z.of_nat (length (struct_block p)) < 2 ^ 32).

(** The search from [pos] on, with fuel to spare. *)
Definition from_pos (pos depth : Z) (target : option Z) : option (option (list Z)) :=
  find_loop p node_name prop_name (S (length block)) pos depth target.

Lemma from_less pos depth target :
  4 <= pos -> (4 <= length block)%nat -> find_loop p node_name prop_name (length block) pos depth target = from_pos pos depth target.
Proof. intros Hp Hl. apply (loop_fuel p node_name prop_name Hbytes Hsize); lia. Qed.

Definition aligned (l : list Z) : Prop := Z.of_nat (length l) mod 4 = 0.

Lemma step_begin pre n rest depth target :
  block = pre ++ enc_begin n ++ rest -> aligned pre -> 0 ∉ n ->
  aligned (pre ++ enc_begin n) /\
  from_pos (Z.of_nat (length pre)) depth target =
  from_pos (Z.of_nat (length (pre ++ enc_begin n))) (depth + 1) (enter_node node_name n depth target).
Proof.
  intros Hb Ha Hn. assert (Hlen : length block = (length pre + 4 + length (padded (n ++ [0]%Z)) + length rest)%nat).
  { rewrite Hb. unfold enc_begin. rewrite !length_app, length_be. lia. }
  assert (Hpad : (length (n ++ [0%Z]) <= length (padded (n ++ [0%Z])))%nat) by (unfold padded; rewrite (length_app (n ++ [0])); lia).
  rewrite length_app in Hpad; cbn [length] in Hpad.
  assert (Hl : Z.of_nat (length (pre ++ enc_begin n)) = align4 (Z.of_nat (length pre) + 4 + Z.of_nat (length n) + 1)).
  { unfold enc_begin. rewrite !length_app, length_be, !Nat2Z.inj_add, length_padded by (rewrite length_app; cbn [length]; lia).
    replace (Z.of_nat (length pre) + 4 + Z.of_nat (length n) + 1) with ((Z.of_nat (length pre) + 4) + (Z.of_nat (length n) + 1)) by lia.
    rewrite align4_add; [|unfold aligned in Ha; by rewrite <- Zplus_mod_idemp_l, Ha|lia..].
    rewrite length_app. cbn [length]. rewrite Nat2Z.inj_add. change (Z.of_nat 1) with 1. lia. }
  split; [unfold aligned; rewrite Hl; apply align4_aligned; lia|].
  unfold from_pos at 1. cbn [find_loop].
  destruct (Z.ltb_spec (Z.of_nat (length pre)) (Z.of_nat (length block))); [|lia].
  destruct (Z.ltb_spec (Z.of_nat (length block)) (Z.of_nat (length pre) + 4)); [lia|].
  assert (Htok : u32_at block (Z.of_nat (length pre)) = FDT_BEGIN_NODE).
  { rewrite Hb. unfold enc_begin. rewrite <- app_assoc. apply u32_here; [apply Nat2Z.id|done]. }
  assert (Hnm : name_at block (Z.of_nat (length pre) + 4) = n).
  { rewrite Hb. unfold enc_begin, padded. rewrite <- !app_assoc. rewrite (app_assoc pre). cbn [app].
    apply name_here; [rewrite length_app, length_be; lia|done]. }
  rewrite Htok, Hnm. change (FDT_BEGIN_NODE =? FDT_BEGIN_NODE) with true. cbv iota.
  destruct (Z.leb_spec (Z.of_nat (length block)) (Z.of_nat (length pre) + 4 + Z.of_nat (length n))); [lia|].
  pose proof (align4_up (Z.of_nat (length pre) + 4 + Z.of_nat (length n) + 1)).
  rewrite from_less, Hl by lia. done.
Qed.

Lemma step_end pre rest depth target :
  block = pre ++ be 4 FDT_END_NODE ++ rest -> aligned pre ->
  aligned (pre ++ be 4 FDT_END_NODE) /\
  from_pos (Z.of_nat (length pre)) depth target =
  if leaves_target (depth - 1) target then Some None
  else from_pos (Z.of_nat (length (pre ++ be 4 FDT_END_NODE))) (depth - 1) target.
Proof.
  intros Hb Ha. assert (Hlen : length block = (length pre + 4 + length rest)%nat).
  { rewrite Hb, !length_app, length_be. lia. }
  assert (Hl : Z.of_nat (length (pre ++ be 4 FDT_END_NODE)) = Z.of_nat (length pre) + 4) by (rewrite length_app, length_be; lia).
  split; [unfold aligned in *; rewrite Hl; by rewrite <- Zplus_mod_idemp_l, Ha|].
  unfold from_pos at 1. cbn [find_loop].
  destruct (Z.ltb_spec (Z.of_nat (length pre)) (Z.of_nat (length block))); [|lia].
  destruct (Z.ltb_spec (Z.of_nat (length block)) (Z.of_nat (length pre) + 4)); [lia|].
  assert (Htok : u32_at block (Z.of_nat (length pre)) = FDT_END_NODE).
  { rewrite Hb. apply u32_here; [apply Nat2Z.id|done]. }
  rewrite Htok. change (FDT_END_NODE =? FDT_BEGIN_NODE) with false. change (FDT_END_NODE =? FDT_END_NODE) with true. cbv iota.
  rewrite Hl. destruct (leaves_target (depth - 1) target); [done|]. apply from_less; lia.
Qed.

Lemma step_prop pre pr rest depth target :
  block = pre ++ enc_prop pr ++ rest -> aligned pre -> 0 <= pr.1 < 2 ^ 32 ->
  aligned (pre ++ enc_prop pr) /\
  from_pos (Z.of_nat (length pre)) depth target =
  if is_sought p prop_name pr.1 depth target then Some (Some pr.2)
  else from_pos (Z.of_nat (length (pre ++ enc_prop pr))) depth target.
Proof.
  intros Hb Ha Ho. destruct pr as [off data]. cbn [fst snd] in *.
  assert (Hlen : length block = (length pre + 12 + length (padded data) + length rest)%nat).
  { rewrite Hb. unfold enc_prop. rewrite !length_app, !length_be. cbn [snd]. lia. }
  assert (Hpad : (length data <= length (padded data))%nat) by (unfold padded; rewrite (length_app data); lia).
  assert (Hl : Z.of_nat (length (pre ++ enc_prop (off, data))) = align4 (Z.of_nat (length pre) + 4 + 8 + Z.of_nat (length data))).
  { unfold enc_prop. cbn [fst snd]. rewrite !length_app, !length_be, !Nat2Z.inj_add, length_padded by lia.
    rewrite align4_add; [lia|unfold aligned in Ha; by rewrite <- Z.add_assoc, <- Zplus_mod_idemp_l, Ha|lia..]. }
  split; [unfold aligned; rewrite Hl; apply align4_aligned; lia|].
  unfold from_pos at 1. cbn [find_loop].
  destruct (Z.ltb_spec (Z.of_nat (length pre)) (Z.of_nat (length block))); [|lia].
  destruct (Z.ltb_spec (Z.of_nat (length block)) (Z.of_nat (length pre) + 4)); [lia|].
  unfold enc_prop in Hb. cbn [fst snd] in Hb. rewrite <- !app_assoc in Hb.
  assert (Htok : u32_at block (Z.of_nat (length pre)) = FDT_PROP).
  { rewrite Hb. apply u32_here; [apply Nat2Z.id|done]. }
  assert (Hds : u32_at block (Z.of_nat (length pre) + 4) = Z.of_nat (length data)).
  { rewrite Hb. rewrite (app_assoc pre). apply u32_here; [rewrite length_app, length_be; lia|lia]. }
  assert (Hno : u32_at block (Z.of_nat (length pre) + 4 + 4) = off).
  { rewrite Hb. rewrite (app_assoc pre), (app_assoc (pre ++ _)). apply u32_here; [rewrite !length_app, !length_be; lia|done]. }
  rewrite Htok, Hds, Hno. change (FDT_PROP =? FDT_BEGIN_NODE) with false. change (FDT_PROP =? FDT_END_NODE) with false.
  change (FDT_PROP =? FDT_PROP) with true. cbv iota.
  destruct (Z.ltb_spec (Z.of_nat (length block)) (Z.of_nat (length pre) + 4 + 8)); [lia|].
  destruct (is_sought p prop_name off depth target).
  - destruct (Z.ltb_spec (Z.of_nat (length block)) (Z.of_nat (length pre) + 4 + 8 + Z.of_nat (length data))); [lia|].
    do 2 f_equal. rewrite Nat2Z.id, Hb. rewrite (app_assoc pre), (app_assoc (pre ++ _)), (app_assoc ((pre ++ _) ++ _)).
    rewrite drop_app_length' by (rewrite !length_app, !length_be; lia).
    unfold padded. rewrite <- app_assoc. apply take_app_length.
  - pose proof (align4_up (Z.of_nat (length pre) + 4 + 8 + Z.of_nat (length data))). rewrite Hl. apply from_less; lia.
Qed.
(** What the properties at [depth] give a search. *)
Definition given (props : list (Z * list Z)) (depth : Z) (target : option Z) : option (list Z) :=
  match target with
  | Some d => if depth =? d + 1 then first_prop p prop_name props else None
  | None => None
  end.

Lemma steps_props props : forall pre rest depth target,
  block = pre ++ concat (map enc_prop props) ++ rest -> aligned pre -> Forall (fun pr => 0 <= pr.1 < 2 ^ 32) props ->
  aligned (pre ++ concat (map enc_prop props)) /\
  from_pos (Z.of_nat (length pre)) depth target =
  match given props depth target with
  | Some data => Some (Some data)
  | None => from_pos (Z.of_nat (length (pre ++ concat (map enc_prop props)))) depth target
  end.
Proof.
  induction props as [|pr props IH]; intros pre rest depth target Hb Ha Hp.
  - cbn [map concat]. rewrite app_nil_r. split; [done|]. unfold given. by destruct target; [destruct (_ =? _)|].
  - apply Forall_cons in Hp as [Hpr Hp]. cbn [map concat] in *. rewrite <- app_assoc in Hb.
    destruct (step_prop pre pr _ depth target Hb Ha Hpr) as [Ha' Hs].
    destruct (IH (pre ++ enc_prop pr) rest depth target ltac:(by rewrite <- app_assoc) Ha' Hp) as [Ha'' Hr].
    rewrite <- app_assoc in Ha'', Hr. split; [done|]. rewrite Hs, Hr. unfold is_sought, given. destruct target as [d|]; [|done].
    destruct (depth =? d + 1); [|done]. cbn [andb first_prop]. by destruct (bool_decide _).
Qed.

(** What a search that has not found its node yet does on a part of the tree,
    and what one that is in its node does on the nodes below. *)
Definition seeks (enc : list Z) (found : option (list (Z * list Z))) : Prop :=
  forall pre rest depth, block = pre ++ enc ++ rest -> aligned pre ->
    aligned (pre ++ enc) /\
    from_pos (Z.of_nat (length pre)) depth None =
    match found with
    | Some props => Some (first_prop p prop_name props)
    | None => from_pos (Z.of_nat (length (pre ++ enc))) depth None
    end.
Definition skips (enc : list Z) : Prop :=
  forall pre rest depth d, block = pre ++ enc ++ rest -> aligned pre -> d < depth ->
    aligned (pre ++ enc) /\
    from_pos (Z.of_nat (length pre)) depth (Some d) = from_pos (Z.of_nat (length (pre ++ enc))) depth (Some d).

Lemma skips_forest l : Forall (fun t => skips (encode t)) l -> skips (concat (map encode l)).
Proof.
  induction 1 as [|t l Ht _ IH]; intros pre rest depth d Hb Ha Hd; cbn [map concat] in *.
  - by rewrite app_nil_r.
  - rewrite <- app_assoc in Hb. destruct (Ht pre _ depth d Hb Ha Hd) as [Ha' ->].
    destruct (IH (pre ++ encode t) rest depth d ltac:(by rewrite <- app_assoc) Ha' Hd) as [Ha'' ->].
    rewrite <- app_assoc in Ha''. by rewrite <- app_assoc.
Qed.

Definition first_of (l : list tree) : option (list (Z * list Z)) :=
  foldr (fun k r => match first_node node_name k with Some x => Some x | None => r end) None l.

Lemma seeks_forest l :
  Forall (fun t => seeks (encode t) (first_node node_name t)) l -> seeks (concat (map encode l)) (first_of l).
Proof.
  induction 1 as [|t l Ht _ IH]; intros pre rest depth Hb Ha; cbn [map concat first_of foldr] in *.
  - by rewrite app_nil_r.
  - rewrite <- app_assoc in Hb. destruct (Ht pre _ depth Hb Ha) as [Ha' ->].
    destruct (IH (pre ++ encode t) rest depth ltac:(by rewrite <- app_assoc) Ha') as [Ha'' Hr].
    rewrite <- app_assoc in Ha'', Hr. split; [done|]. destruct (first_node node_name t); [done|]. exact Hr.
Qed.

Lemma tree_skips t : tree_ok t -> skips (encode t).
Proof.
  induction t as [name props kids IH] using tree_rect'. inversion 1 as [? ? ? Hn _ Hp Hk]; subst.
  intros pre rest depth d Hb Ha Hd. cbn [encode] in *. rewrite <- !app_assoc in Hb.
  destruct (step_begin pre name _ depth (Some d) Hb Ha Hn) as [Ha1 ->].
  assert (He : enter_node node_name name depth (Some d) = Some d) by (unfold enter_node; by rewrite andb_false_r).
  rewrite He. rewrite app_assoc in Hb.
  destruct (steps_props props _ _ (depth + 1) (Some d) Hb Ha1 Hp) as [Ha2 ->].
  unfold given. destruct (Z.eqb_spec (depth + 1) (d + 1)); [lia|]. rewrite app_assoc in Hb.
  assert (Hf : Forall (fun t => skips (encode t)) kids).
  { apply Forall_forall. intros k Hin. apply (proj1 (Forall_forall _ _) IH k Hin). by apply (proj1 (Forall_forall _ _) Hk). }
  destruct (skips_forest kids Hf _ _ (depth + 1) d Hb Ha2 ltac:(lia)) as [Ha3 ->]. rewrite app_assoc in Hb.
  destruct (step_end _ _ (depth + 1) (Some d) Hb Ha3) as [Ha4 ->]. unfold leaves_target.
  replace (depth + 1 - 1) with depth by lia. destruct (Z.leb_spec depth d); [lia|]. rewrite <- !app_assoc in Ha4 |- *. done.
Qed.

Lemma tree_seeks t : tree_ok t -> seeks (encode t) (first_node node_name t).
Proof.
  induction t as [name props kids IH] using tree_rect'. inversion 1 as [? ? ? Hn Hu Hp Hk]; subst.
  intros pre rest depth Hb Ha. cbn [encode first_node] in *. rewrite <- !app_assoc in Hb.
  destruct (step_begin pre name _ depth None Hb Ha Hn) as [Ha1 ->]. rewrite app_assoc in Hb.
  destruct (steps_props props _ _ (depth + 1) (enter_node node_name name depth None) Hb Ha1 Hp) as [Ha2 ->].
  rewrite app_assoc in Hb.
  assert (Hf : Forall (fun t => skips (encode t)) kids).
  { apply (Forall_impl _ _ _ Hk). apply tree_skips. }
  assert (Hg : Forall (fun t => seeks (encode t) (first_node node_name t)) kids).
  { apply Forall_forall. intros k Hin. apply (proj1 (Forall_forall _ _) IH k Hin). by apply (proj1 (Forall_forall _ _) Hk). }
  unfold enter_node. rewrite Hu. cbn [andb]. rewrite (bool_decide_true (None = None)) by done. cbn [andb].
  destruct (bool_decide (simple_name name = node_name)).
  - unfold given. rewrite Z.eqb_refl.
    destruct (skips_forest kids Hf _ _ (depth + 1) depth Hb Ha2 ltac:(lia)) as [Ha3 Hs]. rewrite app_assoc in Hb.
    destruct (step_end _ _ (depth + 1) (Some depth) Hb Ha3) as [Ha4 He]. rewrite <- !app_assoc in Ha4. split; [done|].
    destruct (first_prop p prop_name props); [done|]. rewrite Hs, He. unfold leaves_target.
    replace (depth + 1 - 1) with depth by lia. by destruct (Z.leb_spec depth depth); [|lia].
  - cbn [given]. destruct (seeks_forest kids Hg _ _ (depth + 1) Hb Ha2) as [Ha3 Hs]. rewrite app_assoc in Hb.
    destruct (step_end _ _ (depth + 1) None Hb Ha3) as [Ha4 He]. rewrite <- !app_assoc in Ha4. split; [done|].
    fold (first_of kids). rewrite Hs. destruct (first_of kids); [done|]. rewrite He. cbn [leaves_target].
    rewrite <- !app_assoc. by replace (depth + 1 - 1) with depth by lia.
Qed.
End encoded.

(** ** Claims *)

(** The search for a property always answers, on any block of bytes
    shorter than 4 GiB, whatever is in it; what it gives is a part of the
    block. *)
Theorem find_stays_inside p node_name prop_name :
  Forall is_byte (struct_block p) -> Z.of_nat (length (struct_block p)) < 2 ^ 32 ->
  exists r, find_node_property p node_name prop_name = Some r /\
    forall bs, r = Some bs -> exists a b, slice (struct_block p) a b = Some bs.
Proof. intros Hb Hs. apply loop_answers; [done|done|lia..]. Qed.

(** C23. On the encoding of a tree of nodes the search gives what the tree
    says: the contents of the first property of the name that the first node
    of the name has, parents before children; nothing when there is no such
    node, and nothing when that node has no such property, whatever later
    nodes of the same name have. *)
Theorem find_in_tree p node_name prop_name t rest :
  Forall is_byte (struct_block p) -> Z.of_nat (length (struct_block p)) < 2 ^ 32 ->
  tree_ok t -> struct_block p = encode t ++ be 4 FDT_END ++ rest ->
  find_node_property p node_name prop_name = Some (first_node node_name t ≫= first_prop p prop_name).
Proof.
  intros Hbytes Hsize Ht Hb.
  destruct (tree_seeks p node_name prop_name Hbytes Hsize t Ht [] _ 0 Hb eq_refl) as [_ Hs].
  change (find_node_property p node_name prop_name) with (from_pos p node_name prop_name (Z.of_nat (length (@nil Z))) 0 None).
  rewrite Hs. destruct (first_node node_name t) as [props|]; [done|]. cbn [app mbind option_bind].
  assert (Hlen : length (struct_block p) = (length (encode t) + 4 + length rest)%nat) by (rewrite Hb, !length_app, length_be; lia).
  unfold from_pos. cbn [find_loop].
  destruct (Z.ltb_spec (Z.of_nat (length (encode t))) (Z.of_nat (length (struct_block p)))); [|done].
  destruct (Z.ltb_spec (Z.of_nat (length (struct_block p))) (Z.of_nat (length (encode t)) + 4)); [done|].
  by rewrite Hb, u32_here by (apply Nat2Z.id || done).
Qed.

(** A root with a [memory] node and two [uart] nodes; the strings are [reg] and
    [compatible]. *)
Definition demo_dt : tree :=
  Tree [] [(4, [0; 0; 0; 2])]
    [Tree (lit "memory@40000000") [(0, [0; 0; 0; 0; 64; 0; 0; 0; 0; 0; 0; 0; 32; 0; 0; 0])] [];
     Tree (lit "uart@1") [(4, lit "ns16550")] [Tree (lit "clock") [(0, [1])] []];
     Tree (lit "uart@2") [(0, [9])] []].
Definition demo_parser : Parser :=
  mkParser (encode demo_dt ++ be 4 FDT_END ++ []) (lit "reg" ++ [0] ++ lit "compatible" ++ [0]).

Ltac concrete_tree :=
  constructor;
  [apply (bool_decide_unpack _); vm_compute; exact I|reflexivity
  |repeat (apply Forall_cons; split; [cbn; lia|]); apply Forall_nil_2
  |repeat (apply Forall_cons; split; [concrete_tree|]); apply Forall_nil_2].

Lemma demo_dt_ok : tree_ok demo_dt.
Proof. unfold demo_dt. concrete_tree. Qed.

Lemma demo_bytes : Forall is_byte (struct_block demo_parser).
Proof. apply (bool_decide_unpack _). vm_compute. exact I. Qed.

Lemma find_in_tree_witness :
  find_node_property demo_parser (lit "memory") (lit "reg") = Some (Some [0; 0; 0; 0; 64; 0; 0; 0; 0; 0; 0; 0; 32; 0; 0; 0]) /\
  find_node_property demo_parser (lit "uart") (lit "reg") = Some None.
Proof.
  split.
  - rewrite (find_in_tree demo_parser (lit "memory") (lit "reg") demo_dt [] demo_bytes ltac:(vm_compute; reflexivity) demo_dt_ok eq_refl).
    vm_compute. reflexivity.
  - rewrite (find_in_tree demo_parser (lit "uart") (lit "reg") demo_dt [] demo_bytes ltac:(vm_compute; reflexivity) demo_dt_ok eq_refl).
    vm_compute. reflexivity.
Defined.

Lemma find_stays_inside_witness :
  exists r, find_node_property demo_parser (lit "uart") (lit "compatible") = Some r /\
    forall bs, r = Some bs -> exists a b, slice (struct_block demo_parser) a b = Some bs.
Proof. apply (find_stays_inside demo_parser (lit "uart") (lit "compatible") demo_bytes). vm_compute. reflexivity. Defined.
