(* ===== verification/KVfs.v ===== *)
(** * KVfs: open files of the kernel and the console line

    kernel/src/vfs/mod.rs and kernel/src/syscall/handlers/vfs.rs: the table
    of vnodes, the table of descriptors (one for the whole kernel), the calls
    on them, and the line that [sys_read] reads from the console on
    descriptor 0.  Buffers are used where they are, without translation: the
    bytes at a pointer are an argument and a result.  Echoed characters are a
    list; [None] of [option] is a panic. *)
From Stdlib Require Import ZArith Lia.
From stdpp Require Import base tactics option list list_numbers.
From S2P Require Import Prelude Shared Bytes.
Local Open Scope Z_scope.

(** ** Vnodes *)
Definition MAX_VNODES : nat := 256.
Definition MAX_OPEN_FILES : nat := 128.

Inductive VnodeType := VtFile | VtDirectory | VtDevice | VtSymlink | VtSocket | VtPipe.

Record Vnode := mkVnode { vn_id : Z; vn_type : VnodeType; vn_ref_count : Z; vn_size : Z; vn_flags : Z }.

Definition vnode_new (id : Z) (t : VnodeType) : Vnode := mkVnode id t 1 0 0.

Definition inc_ref (v : Vnode) : Vnode := mkVnode (vn_id v) (vn_type v) (u32w (vn_ref_count v + 1)) (vn_size v) (vn_flags v).

(** [saturating_sub], and the count read as [i32]. *)
Definition dec_ref (v : Vnode) : Z * Vnode :=
  let n := Z.max 0 (vn_ref_count v - 1) in
  (i32w n, mkVnode (vn_id v) (vn_type v) n (vn_size v) (vn_flags v)).

Record VnodeTable := mkVnodes { vt_entries : list (option Vnode); vt_next_id : Z }.

Definition vnodes_new : VnodeTable := mkVnodes (replicate MAX_VNODES None) 1.

Definition alloc_vnode (t : VnodeTable) (vtype : VnodeType) : kresult Z * VnodeTable :=
  match first_free (vt_entries t) with
  | Some i =>
      let id := vt_next_id t in
      (Ok id, mkVnodes (<[i := Some (vnode_new id vtype)]> (vt_entries t)) (u64w (vt_next_id t + 1)))
  | None => (Err NoMemory, t)
  end.

Definition find_vnode (t : VnodeTable) (id : Z) : option nat := find_slot (fun v => vn_id v =? id) (vt_entries t).

Definition get_vnode (t : VnodeTable) (id : Z) : option Vnode :=
  i ← find_vnode t id; mjoin (vt_entries t !! i).

Definition release_vnode (t : VnodeTable) (id : Z) : bool * VnodeTable :=
  match find_vnode t id with
  | Some i =>
      match vt_entries t !! i with
      | Some (Some v) =>
          let '(n, v') := dec_ref v in
          (true, mkVnodes (<[i := if n <=? 0 then None else Some v']> (vt_entries t)) (vt_next_id t))
      | _ => (false, t)
      end
  | None => (false, t)
  end.

(** ** Descriptors *)
Record FileDescriptor := mkFd { fd_vnode : Z; fd_offset : Z; fd_flags : Z; fd_rights : Z }.

Definition fd_new (vnode_id rights : Z) : FileDescriptor := mkFd vnode_id 0 0 rights.

Abbreviation FdTable := (list (option FileDescriptor)).

Definition fds_new : FdTable := replicate MAX_OPEN_FILES None.

Definition alloc_fd (t : FdTable) (vnode_id rights : Z) : kresult Z * FdTable :=
  match first_free t with
  | Some i => (Ok (Z.of_nat i), <[i := Some (fd_new vnode_id rights)]> t)
  | None => (Err NoMemory, t)
  end.

Definition get_fd (t : FdTable) (fd : Z) : option FileDescriptor :=
  if fd <? Z.of_nat MAX_OPEN_FILES then mjoin (t !! Z.to_nat fd) else None.

Definition close_fd (t : FdTable) (fd : Z) : bool * FdTable :=
  match get_fd t fd with
  | Some _ => (true, <[Z.to_nat fd := None]> t)
  | None => (false, t)
  end.

Definition write_fd_offset (t : FdTable) (fd offset : Z) : bool * FdTable :=
  match get_fd t fd with
  | Some f => (true, <[Z.to_nat fd := Some (mkFd (fd_vnode f) offset (fd_flags f) (fd_rights f))]> t)
  | None => (false, t)
  end.

(** ** The calls *)
Record Vfs := mkVfs { vf_nodes : VnodeTable; vf_fds : FdTable }.

Definition vfs_new : Vfs := mkVfs vnodes_new fds_new.

(** [path] is what is at [path_ptr]. *)
Definition sys_open (path_ptr path_len flags : Z) (path : list Z) (s : Vfs) : kresult Z * Vfs :=
  if (path_ptr =? 0) || (path_len =? 0) then (Err InvalidArgs, s)
  else if negb (utf8_valid path) then (Err InvalidArgs, s)
  else
    match alloc_vnode (vf_nodes s) VtFile with
    | (Err e, n) => (Err e, mkVfs n (vf_fds s))
    | (Ok vnode_id, n) => let '(r, t) := alloc_fd (vf_fds s) vnode_id flags in (r, mkVfs n t)
    end.

Definition sys_close (fd : Z) (s : Vfs) : kresult unit * Vfs :=
  match get_fd (vf_fds s) fd with
  | Some f =>
      let t := snd (close_fd (vf_fds s) fd) in
      let n := snd (release_vnode (vf_nodes s) (fd_vnode f)) in
      (Ok tt, mkVfs n t)
  | None => (Err NotFound, s)
  end.

(** [b"VFS_READ_OK"]. *)
Definition read_pattern : list Z := [86; 70; 83; 95; 82; 69; 65; 68; 95; 79; 75].

(** [sys_read] on another descriptor than 0: [buf] is what is at [buf_ptr]. *)
Definition sys_read_file (fd buf_ptr : Z) (buf : list Z) (s : Vfs) : kresult Z * list Z * Vfs :=
  if (buf_ptr =? 0) || (length buf =? 0)%nat then (Err InvalidArgs, buf, s)
  else
    match get_fd (vf_fds s) fd with
    | None => (Err NotFound, buf, s)
    | Some f =>
        let offset := fd_offset f in
        let read_len := Z.min (Z.of_nat (length buf)) (Z.max 0 (Z.of_nat (length read_pattern) - offset)) in
        if 0 <? read_len then
          let got := take (Z.to_nat read_len) (drop (Z.to_nat offset) read_pattern) in
          (Ok read_len, got ++ drop (length got) buf,
           mkVfs (vf_nodes s) (snd (write_fd_offset (vf_fds s) fd (u64w (offset + read_len)))))
        else (Ok 0, buf, s)
    end.

(** [offset] is an [i64]. *)
Definition sys_seek (fd offset whence : Z) (s : Vfs) : kresult Z * Vfs :=
  match get_fd (vf_fds s) fd with
  | None => (Err NotFound, s)
  | Some f =>
      let cur_offset := i64w (fd_offset f) in
      let new_offset :=
        if whence =? 0 then Some offset else if whence =? 1 then Some (i64w (cur_offset + offset)) else None in
      match new_offset with
      | None => (Err InvalidArgs, s)
      | Some o =>
          if o <? 0 then (Err InvalidArgs, s)
          else (Ok o, mkVfs (vf_nodes s) (snd (write_fd_offset (vf_fds s) fd o)))
      end
  end.

(** ** The console line

    [getchar] answers the next element of [input], [None] for a fault; when
    there is none the call spins.  [Interrupted] is the end of the thread by
    [sys_exit(-1)]. *)
Inductive line_state := LineDone (n : nat) | Interrupted | Spins.

#[export] Instance line_state_eq_dec : EqDecision line_state.
Proof. solve_decision. Defined.

Definition BS : Z := 8.
Definition DEL : Z := 127.
Definition ETX : Z := 3.
Definition LF : Z := 10.
Definition CR : Z := 13.

(** The outcome, the buffer and what was echoed. *)
Fixpoint read_line (input : list (option Z)) (total : nat) (slice echo : list Z) : line_state * list Z * list Z :=
  if (total <? length slice)%nat then
    match input with
    | [] => (Spins, slice, echo)
    | None :: _ => (LineDone total, slice, echo)
    | Some byte :: input =>
        if (byte =? DEL) || (byte =? BS) then
          if (0 <? total)%nat then read_line input (total - 1) slice (echo ++ [BS; 32; BS])
          else read_line input total slice echo
        else if byte =? ETX then (Interrupted, slice, echo ++ [94; 67; LF])
        else if byte =? 0 then read_line input total slice echo
        else
          let byte := if byte =? CR then LF else byte in
          let slice := <[total := byte]> slice in
          let echo := echo ++ [byte] in
          if byte =? LF then (LineDone (S total), slice, echo) else read_line input (S total) slice echo
    end
  else (LineDone total, slice, echo).

Definition sys_read_console (buf_ptr : Z) (buf : list Z) (input : list (option Z)) : kresult line_state * list Z * list Z :=
  if (buf_ptr =? 0) || (length buf =? 0)%nat then (Err InvalidArgs, buf, [])
  else let '(r, slice, echo) := read_line input 0 buf [] in (Ok r, slice, echo).

(** *** Reference: a line as it is typed *)
Definition erases (k : Z) : bool := (k =? DEL) || (k =? BS).
Definition ends (k : Z) : bool := (k =? CR) || (k =? LF).

Definition type_key (line : list Z) (k : Z) : list Z :=
  if erases k then take (length line - 1) line else if k =? 0 then line else line ++ [k].

Definition typed (keys : list Z) : list Z := foldl type_key [] keys.

(** A key that does not end the line or the program. *)
Definition plain (k : Z) : bool := negb (ends k || (k =? ETX)).

Lemma read_line_typed keys : forall line slice echo rest k,
  Forall (fun k => plain k = true) keys -> ends k = true ->
  take (length line) slice = line ->
  (forall n, (length (foldl type_key line (take n keys)) < length slice)%nat) ->
  let out := foldl type_key line keys ++ [LF] in
  exists slice' echo', read_line (map Some (keys ++ k :: rest)) (length line) slice echo = (LineDone (length out), slice', echo') /\
    take (length out) slice' = out /\ length slice' = length slice.
Proof.
  induction keys as [|key keys IH]; intros line slice echo rest k Hkeys Hk Hl Hroom; cbn zeta.
  - specialize (Hroom 0%nat). cbn [take foldl app map] in *. cbn [read_line].
    destruct (Nat.ltb_spec (length line) (length slice)); [|lia].
    assert (Hend : (k =? DEL) || (k =? BS) = false /\ (k =? ETX) = false /\ (k =? 0) = false /\ (if k =? CR then LF else k) = LF).
    { unfold ends in Hk. apply orb_true_iff in Hk as [-> %Z.eqb_eq| -> %Z.eqb_eq]; done. }
    destruct Hend as (-> & -> & -> & ->). rewrite Z.eqb_refl, length_app. cbn [length].
    eexists _, _. split; [by rewrite Nat.add_1_r|]. split; [|apply length_insert].
    rewrite Nat.add_1_r, (take_S_r _ _ LF) by (by apply list_lookup_insert_eq).
    by rewrite take_insert_ge, Hl by lia.
  - apply Forall_cons in Hkeys as [Hkey Hkeys]. pose proof (Hroom 0%nat) as H0. cbn [take foldl] in H0.
    assert (Hroom' : forall n, (length (foldl type_key (type_key line key) (take n keys)) < length slice)%nat)
      by (intros n; exact (Hroom (S n))).
    unfold plain, ends in Hkey. rewrite negb_true_iff, !orb_false_iff in Hkey. destruct Hkey as [[Hcr Hlf] Hetx].
    cbn [app map read_line foldl]. destruct (Nat.ltb_spec (length line) (length slice)); [|lia].
    destruct ((key =? DEL) || (key =? BS)) eqn:He; [|rewrite Hetx; destruct (key =? 0) eqn:Hz].
    + assert (Hline : type_key line key = take (length line - 1) line) by (unfold type_key, erases; by rewrite He).
      rewrite Hline in Hroom' |- *.
      assert (Ht : take (length (take (length line - 1) line)) slice = take (length line - 1) line).
      { rewrite length_take, Nat.min_l by lia. rewrite <- Hl at 3. by rewrite take_take, Nat.min_l by lia. }
      destruct (IH _ _ (if (0 <? length line)%nat then echo ++ [BS; 32; BS] else echo) rest k Hkeys Hk Ht Hroom') as (s' & e' & Hr & Hrest).
      exists s', e'. split; [|exact Hrest]. rewrite <- Hr. rewrite length_take, Nat.min_l by lia.
      destruct (Nat.ltb_spec 0 (length line)); [done|]. by replace (length line - 1)%nat with (length line) by lia.
    + assert (Hline : type_key line key = line) by (unfold type_key, erases; by rewrite He, Hz).
      rewrite Hline in Hroom' |- *. by apply IH.
    + assert (Hline : type_key line key = line ++ [key]) by (unfold type_key, erases; by rewrite He, Hz).
      rewrite Hline in Hroom' |- *. rewrite Hcr, Hlf.
      destruct (IH (line ++ [key]) (<[length line := key]> slice) (echo ++ [key]) rest k Hkeys Hk) as (s' & e' & Hr & Ht & Hlen).
      * rewrite length_app, Nat.add_1_r, (take_S_r _ _ key) by (by apply list_lookup_insert_eq).
        by rewrite take_insert_ge, Hl by lia.
      * intros n. rewrite length_insert. apply Hroom'.
      * exists s', e'. rewrite length_app, Nat.add_1_r in Hr. split; [exact Hr|]. split; [exact Ht|].
        by rewrite Hlen, length_insert.
Qed.

(** The console line.  Whatever is typed before the end of the line, as
    long as it fits the buffer at every moment, the reader gets the edited
    line: erased characters are gone, NULs are left out, and carriage return
    and line feed both end it as a line feed. *)
Theorem console_line keys k rest ptr buf :
  ptr <> 0 -> Forall (fun k => plain k = true) keys -> ends k = true ->
  (forall n, (length (typed (take n keys)) < length buf)%nat) ->
  let line := typed keys ++ [LF] in
  exists buf' echo, sys_read_console ptr buf (map Some (keys ++ k :: rest)) = (Ok (LineDone (length line)), buf', echo) /\
    take (length line) buf' = line /\ length buf' = length buf.
Proof.
  intros Hp Hkeys Hk Hroom. cbn zeta. pose proof (Hroom 0%nat) as H0. cbn in H0.
  destruct (read_line_typed keys [] buf [] rest k Hkeys Hk eq_refl Hroom) as (s' & e' & Hr & Hrest).
  exists s', e'. split; [|exact Hrest]. unfold sys_read_console.
  destruct (Z.eqb_spec ptr 0); [done|]. destruct (Nat.eqb_spec (length buf) 0); [lia|]. cbn [orb].
  cbn [length] in Hr. by rewrite Hr.
Qed.

Lemma console_line_witness :
  exists buf' echo, sys_read_console 0x1000 (replicate 8 0) (map Some ([108; 115; 120; 127] ++ 13 :: [65])) =
      (Ok (LineDone 3), buf', echo) /\ take 3 buf' = [108; 115; 10].
Proof.
  destruct (console_line [108; 115; 120; 127] 13 [65] 0x1000 (replicate 8 0)) as (buf' & echo & Hr & Ht & _).
  - lia.
  - repeat constructor.
  - reflexivity.
  - intros n. do 4 (destruct n as [|n]; [cbn; lia|]). destruct n; cbn; lia.
  - exists buf', echo. split; [exact Hr|exact Ht].
Defined.

Example line_erased :
  read_line (map Some [108; 115; 120; 127; 13; 65]) 0 (replicate 8 0) [] =
  (LineDone 3, [108; 115; 10; 0; 0; 0; 0; 0], [108; 115; 120; 8; 32; 8; 10]).
Proof. reflexivity. Qed.
