(* ===== verification/UserCopy.v ===== *)
(** * UserCopy: moving bytes across the user boundary

    The copy helpers of kernel/src/syscall/handlers/ipc.rs and the checks of
    kernel/src/syscall/validation.rs.  Both walk the page table of the calling
    process (PageTable.v) once per page touched and reach the bytes through
    the direct map (Mem.v).  Addresses wrap at 64 bits. *)
From Stdlib Require Import ZArith Lia.
From stdpp Require Import base tactics option list list_numbers gmap.
From S2P Require Import Prelude Shared Bytes Phys Mem PageTable.
Local Open Scope Z_scope.

(** ** Copies

    One round per page; [copy_fuel] rounds are enough for [len] bytes, and
    [None] means that they were not. *)
Definition chunk_len (va len : Z) : Z := Z.min len (4096 - Z.land va 0xfff).

Definition copy_fuel (len : Z) : nat := Z.to_nat (len / 4096 + 3).

Fixpoint copy_in (fuel : nat) (m : Ram) (l0_pa va len : Z) : option (kresult (list Z)) :=
  match fuel with
  | O => None
  | S fuel =>
      if 0 <? len then
        match translate_user_va m l0_pa va with
        | None => Some (Err InvalidArgs)
        | Some pa =>
            let chunk := chunk_len va len in
            match copy_in fuel m l0_pa (u64w (va + chunk)) (len - chunk) with
            | Some (Ok bs) => Some (Ok (copy_from m pa (Z.to_nat chunk) ++ bs))
            | r => r
            end
        end
      else Some (Ok [])
  end.

Definition safe_copy_from_user (m : Ram) (l0_pa src_user_va len : Z) : option (kresult (list Z)) :=
  if l0_pa =? 0 then Some (Err InvalidArgs) else copy_in (copy_fuel len) m l0_pa src_user_va len.

(** The pages written before an error stay written. *)
Fixpoint copy_out (fuel : nat) (m : Ram) (l0_pa va : Z) (bs : list Z) : option (kresult unit * Ram) :=
  match fuel with
  | O => None
  | S fuel =>
      if (0 <? length bs)%nat then
        match translate_user_va m l0_pa va with
        | None => Some (Err InvalidArgs, m)
        | Some pa =>
            let chunk := chunk_len va (Z.of_nat (length bs)) in
            copy_out fuel (copy_to m pa (take (Z.to_nat chunk) bs)) l0_pa (u64w (va + chunk))
              (drop (Z.to_nat chunk) bs)
        end
      else Some (Ok tt, m)
  end.

Definition safe_copy_to_user (m : Ram) (l0_pa : Z) (src : list Z) (dest_user_va : Z) :
    option (kresult unit * Ram) :=
  if l0_pa =? 0 then Some (Err InvalidArgs, m)
  else copy_out (copy_fuel (Z.of_nat (length src))) m l0_pa dest_user_va src.

(** ** Validation *)
Definition translate (m : Ram) (va l0_pa : Z) : kresult unit :=
  if l0_pa =? 0 then Err InvalidArgs
  else match translate_user_va m l0_pa va with None => Err InvalidArgs | Some _ => Ok tt end.

(** The loop of [validate_range]: [fin] is [end]. *)
Fixpoint validate_loop (fuel : nat) (m : Ram) (l0_pa fin addr : Z) : option (kresult unit) :=
  match fuel with
  | O => None
  | S fuel =>
      match translate m addr l0_pa with
      | Err e => Some (Err e)
      | Ok _ =>
          if fin - 1 <=? addr then
            Some (_ ← translate m addr l0_pa;
                  if negb (Z.land (fin - 1) 0xfff =? Z.land addr 0xfff)
                  then translate m (fin - 1) l0_pa else Ok tt)
          else
            let next_page := u64w (Z.land addr (Z.lxor 0xfff (2 ^ 64 - 1)) + 0x1000) in
            validate_loop fuel m l0_pa fin (if next_page <? fin then next_page else fin - 1)
      end
  end.

(** [ptr.checked_add(len)] fails past the last address. *)
Definition validate_range (m : Ram) (ptr len l0_pa : Z) : option (kresult unit) :=
  if len =? 0 then Some (translate m ptr l0_pa)
  else if 2 ^ 64 <=? ptr + len then Some (Err InvalidArgs)
  else validate_loop (copy_fuel len) m l0_pa (ptr + len) ptr.

(** [current_l0_pa] is a parameter: the outcome for the calling thread. *)
Definition validate_pointer (m : Ram) (l0 : kresult Z) (ptr size : Z) : option (kresult unit) :=
  match l0 with
  | Err e => Some (Err e)
  | Ok l0_pa => if ptr =? 0 then Some (Err InvalidArgs) else validate_range m ptr size l0_pa
  end.

Definition validate_buffer (m : Ram) (l0 : kresult Z) (ptr len : Z) : option (kresult unit) :=
  match l0 with
  | Err e => Some (Err e)
  | Ok l0_pa =>
      if (ptr =? 0) && (0 <? len) then Some (Err InvalidArgs)
      else if len =? 0 then if negb (ptr =? 0) then validate_range m ptr 1 l0_pa else Some (Ok tt)
      else validate_range m ptr len l0_pa
  end.

(** ** Lemmas: one page *)
Lemma within_page va i :
  0 <= i < 4096 - va mod 4096 -> (va + i) / 4096 = va / 4096 /\ (va + i) mod 4096 = va mod 4096 + i.
Proof.
  intros Hi. pose proof (Z.div_mod va 4096). pose proof (Z.mod_pos_bound va 4096).
  split; symmetry.
  - apply (Z.div_unique _ _ _ (va mod 4096 + i)); lia.
  - apply (Z.mod_unique _ _ (va / 4096)); lia.
Qed.

Lemma index_same_page r va i : 0 <= i < 4096 - va mod 4096 -> index r (va + i) = index r va.
Proof.
  intros Hi. rewrite !index_div. f_equal. unfold span. rewrite Z.pow_add_r by lia. change (2 ^ 12) with 4096.
  rewrite <- !Z.div_div by lia. by rewrite (proj1 (within_page va i Hi)).
Qed.

Lemma mod_same_page r va i :
  0 <= i < 4096 - va mod 4096 -> (va + i) mod span r = va mod span r + i.
Proof.
  intros Hi. destruct (within_page va i Hi) as [Hd Hm]. unfold span. rewrite Z.pow_add_r by lia.
  change (2 ^ 12) with 4096. assert (0 < 2 ^ (9 * Z.of_nat r)) by (apply Z.pow_pos_nonneg; lia).
  rewrite !Z.rem_mul_r, Hd, Hm by lia. lia.
Qed.

(** A frame address and an offset below its size do not reach 64 bits. *)
Lemma frame_offset e k o : 0 <= k <= 30 -> 0 <= o < 2 ^ k -> u64w (Z.land e (2 ^ 48 - 2 ^ k) + o) = Z.land e (2 ^ 48 - 2 ^ k) + o.
Proof.
  intros Hk Ho. apply u64w_small.
  assert (H1 : 0 < 2 ^ k <= 2 ^ 30) by (split; [apply Z.pow_pos_nonneg; lia|apply Z.pow_le_mono_r; lia]).
  pose proof (land_le_r e (2 ^ 48 - 2 ^ k) ltac:(lia)). lia.
Qed.

(** Bytes of one page translate together. *)
Lemma walk_same_page m r t va i :
  (r <= 3)%nat -> 0 <= i < 4096 - va mod 4096 ->
  walk m r t (va + i) = (fun pa => pa + i) <$> walk m r t va.
Proof.
  intros Hr Hi. revert t Hr. induction r as [|r IH]; intros t Hr; cbn [walk]; rewrite index_same_page by done.
  - destruct (negb (is_valid _)); [done|]. rewrite (proj2 (within_page va i Hi)). cbn. f_equal.
    pose proof (Z.mod_pos_bound va 4096). change ADDR_MASK with (2 ^ 48 - 2 ^ 12).
    rewrite !frame_offset by lia. lia.
  - destruct (negb (is_valid _)); [done|]. destruct ((S r <? 3)%nat && _) eqn:E; [|apply IH; lia].
    reflect. cbn. f_equal. rewrite mod_same_page by done. unfold block_mask.
    pose proof (span_pos (S r)). pose proof (Z.mod_pos_bound va (span (S r)) ltac:(lia)).
    pose proof (mod_same_page (S r) va i Hi). pose proof (Z.mod_pos_bound (va + i) (span (S r)) ltac:(lia)).
    unfold span in *. rewrite !frame_offset by lia. lia.
Qed.

Lemma translate_same_page m l0 va i :
  0 <= i < 4096 - va mod 4096 ->
  translate_user_va m l0 (va + i) = (fun pa => pa + i) <$> translate_user_va m l0 va.
Proof. intros Hi. rewrite !translate_walk. by apply walk_same_page. Qed.

Lemma u64w_page a : u64w a mod 4096 = a mod 4096.
Proof. unfold u64w. apply Z.mod_mod_divide. by exists (2 ^ 52). Qed.

Lemma page_offset va : Z.land va 0xfff = va mod 4096.
Proof. change 0xfff with (Z.ones 12). by rewrite Z.land_ones by lia. Qed.

Lemma chunk_spec va len :
  0 < len -> 0 < chunk_len va len <= len /\ chunk_len va len <= 4096 - va mod 4096 /\
  (chunk_len va len = len \/ chunk_len va len = 4096 - va mod 4096).
Proof.
  intros Hl. unfold chunk_len. rewrite page_offset. pose proof (Z.mod_pos_bound va 4096). lia.
Qed.

(** ** What a program sees

    The byte at a user address, and a run of them. *)
Definition user_pa (m : Ram) (l0_pa va : Z) : option Z := translate_user_va m l0_pa (u64w va).

Fixpoint user_bytes (m : Ram) (l0_pa va : Z) (n : nat) : option (list Z) :=
  match n with
  | O => Some []
  | S n => pa ← user_pa m l0_pa va; bs ← user_bytes m l0_pa (va + 1) n; Some (byte_at m pa :: bs)
  end.

Lemma user_bytes_app m l0 va a b :
  user_bytes m l0 va (a + b) =
  (x ← user_bytes m l0 va a; y ← user_bytes m l0 (va + Z.of_nat a) b; Some (x ++ y)).
Proof.
  revert va. induction a as [|a IH]; intros va; cbn [user_bytes Nat.add].
  - cbn [mbind option_bind]. rewrite Z.add_0_r. by destruct (user_bytes m l0 va b).
  - destruct (user_pa m l0 va) as [pa|]; cbn [mbind option_bind]; [|done].
    rewrite IH. destruct (user_bytes m l0 (va + 1) a) as [x|]; cbn [mbind option_bind]; [|done].
    replace (va + 1 + Z.of_nat a) with (va + Z.of_nat (S a)) by lia.
    by destruct (user_bytes m l0 (va + Z.of_nat (S a)) b).
Qed.

Lemma user_pa_wrap m l0 va : user_pa m l0 (u64w va) = user_pa m l0 va.
Proof. unfold user_pa, u64w. by rewrite Zmod_mod. Qed.

Lemma user_bytes_wrap m l0 va n : user_bytes m l0 (u64w va) n = user_bytes m l0 va n.
Proof.
  revert va. induction n as [|n IH]; intros va; cbn [user_bytes]; [done|].
  rewrite user_pa_wrap, <- (IH (u64w va + 1)), <- (IH (va + 1)).
  unfold u64w. by rewrite Zplus_mod_idemp_l.
Qed.

Lemma page_top va i : 0 <= va < 2 ^ 64 -> 0 <= i < 4096 - va mod 4096 -> va + i < 2 ^ 64.
Proof.
  intros Hv Hi. pose proof (Z.div_mod va 4096). pose proof (Z.mod_pos_bound va 4096).
  assert (va / 4096 < 2 ^ 52) by (apply Z.div_lt_upper_bound; lia). lia.
Qed.

Lemma user_bytes_page m l0 va n :
  0 <= va < 2 ^ 64 -> (0 < n)%nat -> Z.of_nat n <= 4096 - va mod 4096 ->
  user_bytes m l0 va n = (fun pa => copy_from m pa n) <$> translate_user_va m l0 va.
Proof.
  intros Hv Hn Hl.
  assert (Hgen : forall k j, Z.of_nat (j + k) <= 4096 - va mod 4096 -> (0 < k)%nat \/ (0 < j)%nat ->
    user_bytes m l0 (va + Z.of_nat j) k =
    (if (k =? 0)%nat then Some [] else
     (fun pa => map (fun i => byte_at m (pa + Z.of_nat i)) (seq j k)) <$> translate_user_va m l0 va)).
  { induction k as [|k IH]; intros j Hj Hp; [done|]. cbn [user_bytes Nat.eqb].
    unfold user_pa. rewrite u64w_small by (pose proof (page_top va (Z.of_nat j) Hv ltac:(lia)); lia).
    rewrite translate_same_page by lia.
    destruct (translate_user_va m l0 va) as [pa|] eqn:E; cbn [fmap option_fmap option_map mbind option_bind]; [|done].
    replace (va + Z.of_nat j + 1) with (va + Z.of_nat (S j)) by lia. rewrite IH; [|lia|by right; lia].
    destruct (Nat.eqb_spec k 0) as [->|Hk]; [done|]. cbn [fmap option_fmap option_map mbind option_bind seq map]. done. }
  pose proof (Hgen n 0%nat ltac:(lia) ltac:(by left)) as H0. rewrite Z.add_0_r in H0. rewrite H0.
  destruct (Nat.eqb_spec n 0); [lia|]. done.
Qed.

Lemma length_copy_from m a n : length (copy_from m a n) = n.
Proof. unfold copy_from. by rewrite length_map, length_seq. Qed.

Definition or_invalid {A} (o : option A) : kresult A := match o with Some a => Ok a | None => Err InvalidArgs end.

Lemma copy_in_spec fuel m l0 va len :
  0 <= va < 2 ^ 64 -> 0 <= len -> (1 <= fuel)%nat ->
  len = 0 \/ len + va mod 4096 <= 4096 * (Z.of_nat fuel - 1) ->
  copy_in fuel m l0 va len = Some (or_invalid (user_bytes m l0 va (Z.to_nat len))).
Proof.
  revert va len. induction fuel as [|fuel IH]; intros va len Hv Hl Hf1 Hf; [lia|]. cbn [copy_in].
  destruct (Z.ltb_spec 0 len) as [Hp|Hp]; [|by replace len with 0 by lia].
  destruct Hf as [->|Hf]; [lia|]. pose proof (Z.mod_pos_bound va 4096 ltac:(lia)) as Hm.
  destruct (chunk_spec va len Hp) as (Hc1 & Hc2 & Hc3). set (chunk := chunk_len va len) in *.
  assert (Hsplit : user_bytes m l0 va (Z.to_nat len) =
    (x ← user_bytes m l0 va (Z.to_nat chunk); y ← user_bytes m l0 (va + chunk) (Z.to_nat (len - chunk)); Some (x ++ y))).
  { replace (Z.to_nat len) with (Z.to_nat chunk + Z.to_nat (len - chunk))%nat by lia.
    rewrite user_bytes_app. by replace (Z.of_nat (Z.to_nat chunk)) with chunk by lia. }
  rewrite Hsplit, (user_bytes_page m l0 va (Z.to_nat chunk)) by lia.
  destruct (translate_user_va m l0 va) as [pa|]; [|done].
  rewrite IH; [|apply u64w_range|lia|lia|].
  - rewrite user_bytes_wrap. cbn [fmap option_fmap option_map mbind option_bind or_invalid].
    by destruct (user_bytes m l0 (va + chunk) (Z.to_nat (len - chunk))).
  - destruct Hc3 as [Hc3|Hc3]; [left; lia|right].
    assert (Hal : u64w (va + chunk) mod 4096 = 0).
    { rewrite u64w_page, Hc3. pose proof (Z.div_mod va 4096).
      replace (va + (4096 - va mod 4096)) with ((va / 4096 + 1) * 4096) by lia. by apply Z.mod_mul. }
    rewrite Hal. lia.
Qed.

(** ** Writing user memory

    No byte of the range leads into a page table of the process: then stores
    through it leave the translation as it is.  Of every address this cannot
    be said: the identity block and the upper half of a launched process lead
    to all of memory, its tables included. *)
Definition range_safe (m : Ram) (lv : Levels) (l0_pa va len : Z) : Prop :=
  forall i pa t r, 0 <= i < len -> translate_user_va m l0_pa (u64w (va + i)) = Some pa -> lv !! t = Some r ->
    pa < t \/ t + 4096 <= pa.

Lemma tables_kept m m' lv l0 cur :
  tree_wf m lv l0 cur ->
  (forall t r i, lv !! t = Some r -> 0 <= i < 512 -> read_pte m' t i = read_pte m t i) ->
  tree_wf m' lv l0 cur /\ forall va, translate_user_va m' l0 va = translate_user_va m l0 va.
Proof.
  intros Hwf Hs. split.
  - destruct Hwf as [H1 H2 H3 H4]. constructor; [done|done| |].
    + intros t r i Ht Hi. rewrite (Hs t r i Ht Hi). by apply H3.
    + intros t1 t2 r1 r2 i1 i2 c Ht1 Ht2 Hi1 Hi2. unfold points.
      rewrite (Hs t1 _ i1 Ht1 Hi1), (Hs t2 _ i2 Ht2 Hi2). by apply (H4 t1 t2 r1 r2).
  - intros va. rewrite !translate_walk. apply (walk_ext m m' lv l0 cur 0 0 Hwf).
    + intros t r i Ht Hi _. by apply (Hs t r).
    + intros r va' Ht _. destruct (tw_table _ _ _ _ Hwf 0 r Ht) as (_ & _ & ? & _). lia.
    + apply Hwf.
Qed.

Lemma store_tables m lv l0 cur va pa bs :
  tree_wf m lv l0 cur -> 0 <= va < 2 ^ 64 -> range_safe m lv l0 va (Z.of_nat (length bs)) ->
  translate_user_va m l0 va = Some pa -> Z.of_nat (length bs) <= 4096 - va mod 4096 ->
  tree_wf (copy_to m pa bs) lv l0 cur /\
  forall va', translate_user_va (copy_to m pa bs) l0 va' = translate_user_va m l0 va'.
Proof.
  intros Hwf Hv Hs Ht Hl. apply tables_kept; [done|]. intros t r i Hlv Hi.
  destruct (tw_table _ _ _ _ Hwf t r Hlv) as (_ & Hm & _ & _). unfold read_pte. apply copy_word.
  - pose proof (Z.div_mod t 4096 ltac:(lia)) as Hd. rewrite Hm in Hd.
    replace (t + 8 * i) with ((512 * (t / 4096) + i) * 8) by lia. by apply Z.mod_mul.
  - intros k Hk. pose proof (translate_same_page m l0 va k ltac:(lia)) as Hk'. rewrite Ht in Hk'.
    rewrite <- (u64w_small (va + k)) in Hk' by (pose proof (page_top va k Hv ltac:(lia)); lia).
    destruct (Hs k _ t r ltac:(lia) Hk' Hlv); lia.
Qed.

Definition one_to_one (m : Ram) (l0_pa va len : Z) : Prop :=
  forall i j pa, 0 <= i < len -> 0 <= j < len ->
    user_pa m l0_pa (va + i) = Some pa -> user_pa m l0_pa (va + j) = Some pa -> i = j.

(** What [copy_out] leaves. *)
Record stored (m m' : Ram) (lv : Levels) (l0 cur va : Z) (bs : list Z) : Prop := {
  sd_tree : tree_wf m' lv l0 cur;
  sd_map : forall va', translate_user_va m' l0 va' = translate_user_va m l0 va';
  sd_frame : forall a, (forall i, 0 <= i < Z.of_nat (length bs) -> user_pa m l0 (va + i) <> Some a) ->
    byte_at m' a = byte_at m a;
  sd_words : forall w, w mod 8 = 0 ->
    (forall i a, 0 <= i < Z.of_nat (length bs) -> user_pa m l0 (va + i) = Some a -> a < w \/ w + 8 <= a) ->
    ram_read m' w = ram_read m w
}.

Definition stored_all (m m' : Ram) (l0 va : Z) (bs : list Z) : Prop :=
  one_to_one m l0 va (Z.of_nat (length bs)) ->
  forall i pa, 0 <= i < Z.of_nat (length bs) -> user_pa m l0 (va + i) = Some pa ->
    byte_at m' pa = nth (Z.to_nat i) bs 0.

Lemma user_pa_page m l0 va pa i :
  0 <= va < 2 ^ 64 -> translate_user_va m l0 va = Some pa -> 0 <= i < 4096 - va mod 4096 ->
  user_pa m l0 (va + i) = Some (pa + i).
Proof.
  intros Hv Ht Hi. unfold user_pa. rewrite u64w_small by (pose proof (page_top va i Hv Hi); lia).
  by rewrite translate_same_page, Ht by done.
Qed.

Lemma user_pa_ext m m' l0 va :
  (forall va', translate_user_va m' l0 va' = translate_user_va m l0 va') -> user_pa m' l0 va = user_pa m l0 va.
Proof. intros H. apply H. Qed.

Lemma user_pa_shift m l0 va c i : user_pa m l0 (u64w (va + c) + i) = user_pa m l0 (va + (c + i)).
Proof. unfold user_pa, u64w. by rewrite Zplus_mod_idemp_l, Z.add_assoc. Qed.

Lemma store_page m l0 va pa bs a :
  0 <= va < 2 ^ 64 -> translate_user_va m l0 va = Some pa -> Forall is_byte bs ->
  Z.of_nat (length bs) <= 4096 - va mod 4096 ->
  (forall i, 0 <= i < Z.of_nat (length bs) -> user_pa m l0 (va + i) <> Some a) ->
  byte_at (copy_to m pa bs) a = byte_at m a.
Proof.
  intros Hv Ht Hb Hl Hn. rewrite byte_copy by done. case_match eqn:E; [reflect|done].
  destruct (Hn (a - pa)); [lia|]. rewrite (user_pa_page m l0 va pa) by (done || lia). f_equal. lia.
Qed.

(** A first page and the rest, put together. *)
Lemma stored_app m m1 m2 lv l0 cur va pa b1 b2 :
  0 <= va < 2 ^ 64 -> translate_user_va m l0 va = Some pa -> Forall is_byte b1 ->
  Z.of_nat (length b1) <= 4096 - va mod 4096 ->
  m1 = copy_to m pa b1 -> (forall va', translate_user_va m1 l0 va' = translate_user_va m l0 va') ->
  stored m1 m2 lv l0 cur (u64w (va + Z.of_nat (length b1))) b2 ->
  stored m m2 lv l0 cur va (b1 ++ b2) /\
  (stored_all m1 m2 l0 (u64w (va + Z.of_nat (length b1))) b2 -> stored_all m m2 l0 va (b1 ++ b2)).
Proof.
  intros Hv Ht Hb Hl -> Hm1 [Hw Hm2 Hf Hwd]. set (c := Z.of_nat (length b1)) in *.
  assert (Hsh : forall i, user_pa (copy_to m pa b1) l0 (u64w (va + c) + i) = user_pa m l0 (va + (c + i)))
    by (intros i; rewrite user_pa_shift; apply Hm1).
  assert (Hlen : Z.of_nat (length (b1 ++ b2)) = c + Z.of_nat (length b2)) by (rewrite length_app; lia).
  split.
  - constructor; [done|intros va'; by rewrite Hm2|intros a Ha; rewrite Hf|].
    + apply (store_page m l0 va); [done..|]. intros i Hi. apply Ha. lia.
    + intros i Hi. rewrite Hsh. apply Ha. lia.
    + intros w Hw8 Hn. rewrite Hwd; [|done|].
      * apply copy_word; [done|]. intros k Hk. apply (Hn k); [lia|]. apply (user_pa_page m l0 va pa); [done|done|lia].
      * intros i a Hi. rewrite Hsh. apply (Hn (c + i)). lia.
  - intros Hall Hinj i a Hi Ha. rewrite Hlen in Hinj, Hi.
    destruct (decide (i < c)) as [Hic|Hic].
    + rewrite Hf.
      * pose proof (user_pa_page m l0 va pa i Hv Ht ltac:(lia)) as Hpa. rewrite Ha in Hpa. injection Hpa as ->.
        rewrite byte_copy by done. destruct (Z.leb_spec pa (pa + i)); [|lia].
        destruct (Z.ltb_spec (pa + i) (pa + Z.of_nat (length b1))); [|lia]. cbn [andb].
        replace (pa + i - pa) with i by lia. rewrite app_nth1; [done|lia].
      * intros j Hj Hj'. rewrite Hsh in Hj'. specialize (Hinj i (c + j) a ltac:(lia) ltac:(lia) Ha Hj'). lia.
    + rewrite (Hall) with (i := i - c).
      * rewrite app_nth2 by lia. f_equal. lia.
      * intros x y b Hx Hy. rewrite !Hsh. intros Hxa Hya.
        specialize (Hinj (c + x) (c + y) b ltac:(lia) ltac:(lia) Hxa Hya). lia.
      * lia.
      * rewrite Hsh. by replace (c + (i - c)) with i by lia.
Qed.

Lemma copy_out_spec fuel m lv l0 cur va bs :
  tree_wf m lv l0 cur -> range_safe m lv l0 va (Z.of_nat (length bs)) -> Forall is_byte bs -> 0 <= va < 2 ^ 64 ->
  (1 <= fuel)%nat ->
  bs = [] \/ Z.of_nat (length bs) + va mod 4096 <= 4096 * (Z.of_nat fuel - 1) ->
  exists r m', copy_out fuel m l0 va bs = Some (r, m') /\ stored m m' lv l0 cur va bs /\
    match r with
    | Ok _ => (forall i, 0 <= i < Z.of_nat (length bs) -> is_Some (user_pa m l0 (va + i))) /\ stored_all m m' l0 va bs
    | Err e => e = InvalidArgs /\ exists i, 0 <= i < Z.of_nat (length bs) /\ user_pa m l0 (va + i) = None
    end.
Proof.
  revert m va bs. induction fuel as [|fuel IH]; intros m va bs Hwf Hs Hb Hv Hf1 Hf; [lia|]. cbn [copy_out].
  destruct (Nat.ltb_spec 0 (length bs)) as [Hp|Hp].
  2:{ exists (Ok tt), m. assert (bs = []) as -> by (destruct bs; [done|cbn in Hp; lia]).
      split_and!; [done|by constructor|cbn; lia|]. intros _ i pa Hi. cbn in Hi. lia. }
  destruct Hf as [->|Hf]; [cbn in Hp; lia|]. pose proof (Z.mod_pos_bound va 4096 ltac:(lia)) as Hm.
  destruct (translate_user_va m l0 va) as [pa|] eqn:Ht.
  2:{ exists (Err InvalidArgs), m. split_and!; [done|by constructor|done|].
      exists 0. split; [lia|]. unfold user_pa. by rewrite Z.add_0_r, u64w_small by lia. }
  destruct (chunk_spec va (Z.of_nat (length bs)) ltac:(lia)) as (Hc1 & Hc2 & Hc3).
  set (chunk := chunk_len va (Z.of_nat (length bs))) in *.
  set (b1 := take (Z.to_nat chunk) bs). set (b2 := drop (Z.to_nat chunk) bs).
  assert (Hl1 : Z.of_nat (length b1) = chunk) by (unfold b1; rewrite length_take; lia).
  assert (Hl2 : Z.of_nat (length b2) = Z.of_nat (length bs) - chunk) by (unfold b2; rewrite length_drop; lia).
  assert (Hbs : bs = b1 ++ b2) by (symmetry; apply take_drop).
  assert (Hs1 : range_safe m lv l0 va (Z.of_nat (length b1))) by (intros i ? ? ? Hi; apply (Hs i); lia).
  destruct (store_tables m lv l0 cur va pa b1 Hwf Hv Hs1 Ht ltac:(lia)) as [Hwf1 Hm1].
  assert (Hb1 : Forall is_byte b1) by by apply Forall_take.
  destruct (IH (copy_to m pa b1) (u64w (va + chunk)) b2) as (r & m' & -> & Hst & Hr).
  { done. }
  { intros i pa' t r Hi Hva. rewrite Hm1 in Hva. apply (Hs (chunk + i) pa' t r); [lia|].
    pose proof (user_pa_shift m l0 va chunk i) as Hsh. unfold user_pa in Hsh. by rewrite <- Hsh. }
  { by apply Forall_drop. }
  { apply u64w_range. }
  { lia. }
  { destruct Hc3 as [Hc3|Hc3]; [left; unfold b2; apply drop_ge; lia|right].
    assert (Hal : (va + chunk) mod 4096 = 0).
    { rewrite Hc3. pose proof (Z.div_mod va 4096).
      replace (va + (4096 - va mod 4096)) with ((va / 4096 + 1) * 4096) by lia. by apply Z.mod_mul. }
    rewrite u64w_page, Hal. lia. }
  rewrite <- Hl1 in Hst, Hr.
  destruct (stored_app m _ m' lv l0 cur va pa b1 b2 Hv Ht Hb1 ltac:(lia) eq_refl Hm1 Hst) as [Hst' Hall].
  rewrite Hl1 in Hr. exists r, m'. split_and!; [done|by rewrite Hbs|]. destruct r as [u|e].
  - destruct Hr as [Hmap Hsa]. split; [|rewrite Hbs; apply Hall; by rewrite Hl1].
    intros i Hi. destruct (decide (i < chunk)) as [Hic|Hic].
    + rewrite (user_pa_page m l0 va pa i) by (done || lia). by eexists.
    + specialize (Hmap (i - chunk) ltac:(lia)). rewrite user_pa_shift in Hmap.
      replace (chunk + (i - chunk)) with i in Hmap by lia. rewrite <- (user_pa_ext _ _ _ _ Hm1). exact Hmap.
  - destruct Hr as (-> & i & Hi & Hn). split; [done|]. exists (chunk + i). split; [lia|].
    rewrite user_pa_shift in Hn. rewrite <- (user_pa_ext _ _ _ _ Hm1). exact Hn.
Qed.

(** ** Validation *)
Lemma translate_ok m va l0 :
  l0 <> 0 -> translate m va l0 = match translate_user_va m l0 va with Some _ => Ok tt | None => Err InvalidArgs end.
Proof. intros H. unfold translate. destruct (Z.eqb_spec l0 0); [done|]. by destruct (translate_user_va m l0 va). Qed.

Definition mapped (m : Ram) (l0_pa va : Z) (n : nat) : kresult unit :=
  or_invalid ((fun _ => tt) <$> user_bytes m l0_pa va n).

Lemma mapped_page m l0 va n :
  0 <= va < 2 ^ 64 -> (0 < n)%nat -> Z.of_nat n <= 4096 - va mod 4096 -> l0 <> 0 ->
  mapped m l0 va n = translate m va l0.
Proof.
  intros. unfold mapped. rewrite user_bytes_page, translate_ok by done. by destruct (translate_user_va m l0 va).
Qed.

Lemma mapped_app m l0 va a b :
  mapped m l0 va (a + b) = (_ ← mapped m l0 va a; mapped m l0 (va + Z.of_nat a) b).
Proof.
  unfold mapped. rewrite user_bytes_app. destruct (user_bytes m l0 va a); cbn; [|done].
  by destruct (user_bytes m l0 (va + Z.of_nat a) b).
Qed.

Lemma mapped_split m l0 va n k :
  0 <= va < 2 ^ 64 -> (0 < k)%nat -> Z.of_nat k <= 4096 - va mod 4096 -> l0 <> 0 -> (k <= n)%nat ->
  mapped m l0 va n = (_ ← translate m va l0; mapped m l0 (va + Z.of_nat k) (n - k)).
Proof.
  intros. replace n with (k + (n - k))%nat at 1 by lia. by rewrite mapped_app, (mapped_page m l0 va k) by done.
Qed.

Lemma validate_loop_spec fuel m l0 fin addr :
  l0 <> 0 -> 0 <= addr < fin -> fin <= 2 ^ 64 - 4096 -> (1 <= fuel)%nat ->
  addr = fin - 1 \/ fin - addr + addr mod 4096 <= 4096 * (Z.of_nat fuel - 1) ->
  validate_loop fuel m l0 fin addr = Some (mapped m l0 addr (Z.to_nat (fin - addr))).
Proof.
  intros Hl0. revert addr. induction fuel as [|fuel IH]; intros addr Ha Hfin Hf1 Hf; [lia|]. cbn [validate_loop].
  pose proof (Z.div_mod addr 4096 ltac:(lia)) as Hd. pose proof (Z.mod_pos_bound addr 4096 ltac:(lia)) as Hm.
  destruct (Z.leb_spec (fin - 1) addr) as [Hle|Hgt].
  { replace (fin - addr) with 1 by lia. rewrite mapped_page by lia. replace (fin - 1) with addr by lia.
    rewrite Z.eqb_refl. cbn [negb]. rewrite translate_ok by done. by destruct (translate_user_va m l0 addr). }
  destruct Hf as [->|Hf]; [lia|].
  assert (Hnp : u64w (Z.land addr (Z.lxor 0xfff (2 ^ 64 - 1)) + 0x1000) = addr + (4096 - addr mod 4096)).
  { change 0xfff with 4095. rewrite page_mask by lia. rewrite u64w_small; lia. }
  rewrite Hnp. destruct (Z.ltb_spec (addr + (4096 - addr mod 4096)) fin) as [Hnext|Hlast].
  - rewrite (mapped_split m l0 addr _ (Z.to_nat (4096 - addr mod 4096))) by (done || lia).
    destruct (translate m addr l0); cbn [mbind result_bind]; [|done].
    rewrite IH; [|lia|done|lia|].
    + do 2 f_equal; lia.
    + right. replace (addr + (4096 - addr mod 4096)) with ((addr / 4096 + 1) * 4096) at 2 by lia.
      rewrite Z.mod_mul by done. lia.
  - rewrite (mapped_split m l0 addr _ (Z.to_nat (fin - 1 - addr))) by (done || lia).
    destruct (translate m addr l0); cbn [mbind result_bind]; [|done].
    rewrite IH; [|lia|done|lia|by left]. do 2 f_equal; lia.
Qed.

Lemma validate_range_spec m ptr len l0 :
  l0 <> 0 -> 0 <= ptr -> 0 < len -> ptr + len <= 2 ^ 64 - 4096 ->
  validate_range m ptr len l0 = Some (mapped m l0 ptr (Z.to_nat len)).
Proof.
  intros Hl0 Hp Hl He. unfold validate_range. destruct (Z.eqb_spec len 0); [lia|].
  destruct (Z.leb_spec (2 ^ 64) (ptr + len)); [lia|].
  pose proof (Z.div_mod len 4096). pose proof (Z.mod_pos_bound len 4096). pose proof (Z.mod_pos_bound ptr 4096).
  pose proof (Z.div_pos len 4096).
  rewrite validate_loop_spec; [do 2 f_equal; lia|done|lia|done|unfold copy_fuel; lia|right; unfold copy_fuel; lia].
Qed.

(** ** The kernel's half of the address space *)
Lemma copy_entries_spec m dst src k n t i :
  dst mod 4096 = 0 -> src mod 4096 = 0 -> t mod 4096 = 0 -> dst <> src -> Z.of_nat k + Z.of_nat n <= 512 -> 0 <= i < 512 ->
  read_pte (copy_entries m dst src k n) t i =
  if (t =? dst) && (Z.of_nat k <=? i) && (i <? Z.of_nat (k + n)) && negb (read_pte m src i =? 0)
  then read_pte m src i else read_pte m t i.
Proof.
  intros Hd Hs Ht Hne. revert m k. induction n as [|n IH]; intros m k Hk Hi.
  - unfold copy_entries. cbn [seq foldl]. rewrite Nat.add_0_r.
    destruct (Z.leb_spec (Z.of_nat k) i), (Z.ltb_spec i (Z.of_nat k)); try lia; by rewrite ?andb_false_r.
  - change (copy_entries m dst src k (S n)) with
      (copy_entries (let e := read_pte m src (Z.of_nat k) in if e =? 0 then m else write_pte m dst (Z.of_nat k) e) dst src (S k) n).
    cbv zeta. rewrite IH by lia. set (m1 := if _ =? 0 then m else _).
    assert (Hsrc : read_pte m1 src i = read_pte m src i).
    { unfold m1. case_match; [done|]. apply read_write_ne; try (done || lia). intros [= ? _]. congruence. }
    rewrite Hsrc. unfold m1. destruct (decide (i = Z.of_nat k)) as [->|Hik].
    + destruct (Z.leb_spec (Z.of_nat (S k)) (Z.of_nat k)); [lia|]. rewrite andb_false_r. cbn [andb].
      destruct (Z.leb_spec (Z.of_nat k) (Z.of_nat k)), (Z.ltb_spec (Z.of_nat k) (Z.of_nat (k + S n))); try lia.
      destruct (Z.eqb_spec (read_pte m src (Z.of_nat k)) 0); cbn [negb]; rewrite ?andb_false_r, ?andb_true_r; [done|].
      destruct (Z.eqb_spec t dst) as [->|Htd]; [apply read_write_eq|]. apply read_write_ne; try (done || lia). congruence.
    + assert (Hm1 : read_pte m1 t i = read_pte m t i).
      { unfold m1. case_match; [done|]. apply read_write_ne; try (done || lia). congruence. }
      fold m1. rewrite Hm1. replace (k + S n)%nat with (S k + n)%nat by lia.
      destruct (Z.leb_spec (Z.of_nat (S k)) i), (Z.leb_spec (Z.of_nat k) i); try lia; done.
Qed.

(** A walk only reads its table at the index of the address. *)
Lemma translate_root m t1 t2 va :
  read_pte m t1 (index 3 va) = read_pte m t2 (index 3 va) ->
  translate_user_va m t1 va = translate_user_va m t2 va.
Proof. intros H. rewrite !translate_walk. cbn [walk]. by rewrite H. Qed.

Lemma copy_fuel_ok va len :
  0 <= len -> (1 <= copy_fuel len)%nat /\ len + va mod 4096 <= 4096 * (Z.of_nat (copy_fuel len) - 1).
Proof.
  intros Hl. unfold copy_fuel. pose proof (Z.div_mod len 4096). pose proof (Z.mod_pos_bound len 4096).
  pose proof (Z.mod_pos_bound va 4096). pose proof (Z.div_pos len 4096 Hl ltac:(lia)). lia.
Qed.

(** Enough rounds for any table. *)
Lemma copy_out_total fuel m l0 va bs :
  (1 <= fuel)%nat -> bs = [] \/ Z.of_nat (length bs) + va mod 4096 <= 4096 * (Z.of_nat fuel - 1) ->
  is_Some (copy_out fuel m l0 va bs).
Proof.
  revert m va bs. induction fuel as [|fuel IH]; intros m va bs Hf1 Hf; [lia|]. cbn [copy_out].
  destruct (Nat.ltb_spec 0 (length bs)) as [Hp|Hp]; [|by eexists].
  destruct Hf as [->|Hf]; [cbn in Hp; lia|]. pose proof (Z.mod_pos_bound va 4096 ltac:(lia)) as Hm.
  destruct (translate_user_va m l0 va) as [pa|]; [|by eexists].
  destruct (chunk_spec va (Z.of_nat (length bs)) ltac:(lia)) as (Hc1 & Hc2 & Hc3).
  apply IH; [lia|]. destruct Hc3 as [Hc3|Hc3]; [left; apply drop_ge; lia|right].
  rewrite length_drop, u64w_page, Hc3. pose proof (Z.div_mod va 4096).
  replace (va + (4096 - va mod 4096)) with ((va / 4096 + 1) * 4096) by lia. rewrite Z.mod_mul; lia.
Qed.

Lemma copy_in_total fuel m l0 va len :
  (1 <= fuel)%nat -> len <= 0 \/ len + va mod 4096 <= 4096 * (Z.of_nat fuel - 1) ->
  is_Some (copy_in fuel m l0 va len).
Proof.
  revert va len. induction fuel as [|fuel IH]; intros va len Hf1 Hf; [lia|]. cbn [copy_in].
  destruct (Z.ltb_spec 0 len) as [Hp|Hp]; [|by eexists].
  destruct Hf as [|Hf]; [lia|]. pose proof (Z.mod_pos_bound va 4096 ltac:(lia)) as Hm.
  destruct (translate_user_va m l0 va) as [pa|]; [|by eexists].
  destruct (chunk_spec va len Hp) as (Hc1 & Hc2 & Hc3).
  edestruct (IH (u64w (va + chunk_len va len)) (len - chunk_len va len)) as [[bs|e] ->]; [lia| |by eexists..].
  destruct Hc3 as [Hc3|Hc3]; [left; lia|right].
  rewrite u64w_page, Hc3. pose proof (Z.div_mod va 4096).
  replace (va + (4096 - va mod 4096)) with ((va / 4096 + 1) * 4096) by lia. rewrite Z.mod_mul; lia.
Qed.

Lemma copy_in_error fuel m l0 va len e : copy_in fuel m l0 va len = Some (Err e) -> e = InvalidArgs.
Proof.
  revert va len. induction fuel as [|fuel IH]; intros va len; cbn [copy_in]; [done|].
  destruct (0 <? len); [|done]. destruct (translate_user_va m l0 va); [|congruence].
  destruct (copy_in fuel _ _ _ _) as [[bs|e']|] eqn:E; [done| |done]. intros [= ->]. by apply IH in E.
Qed.

Lemma safe_copy_to_user_total m l0 src dest : is_Some (safe_copy_to_user m l0 src dest).
Proof.
  unfold safe_copy_to_user. destruct (l0 =? 0); [by eexists|].
  destruct (copy_fuel_ok dest (Z.of_nat (length src)) ltac:(lia)). apply copy_out_total; [done|by right].
Qed.

Lemma copy_from_user_eq m l0 va len :
  l0 <> 0 -> 0 <= va < 2 ^ 64 -> 0 <= len ->
  safe_copy_from_user m l0 va len = Some (or_invalid (user_bytes m l0 va (Z.to_nat len))).
Proof.
  intros Hl0 Hv Hl. unfold safe_copy_from_user. destruct (Z.eqb_spec l0 0); [done|].
  destruct (copy_fuel_ok va len Hl). apply copy_in_spec; [done..|by right].
Qed.

Lemma user_bytes_Some m l0 va n bs :
  length bs = n ->
  (forall i, (i < n)%nat -> exists pa, user_pa m l0 (va + Z.of_nat i) = Some pa /\ bs !! i = Some (byte_at m pa)) ->
  user_bytes m l0 va n = Some bs.
Proof.
  revert va bs. induction n as [|n IH]; intros va [|b bs] Hl H; [done|done|done|]. cbn [user_bytes].
  destruct (H 0%nat ltac:(lia)) as (pa & Hp & Hb). rewrite Z.add_0_r in Hp. rewrite Hp. injection Hb as ->.
  cbn [mbind option_bind]. rewrite (IH (va + 1) bs); [done|by injection Hl|].
  intros i Hi. destruct (H (S i) ltac:(lia)) as (pa' & Hp' & Hb'). exists pa'.
  split; [|done]. rewrite <- Hp'. f_equal. lia.
Qed.

Lemma user_bytes_None m l0 va n :
  user_bytes m l0 va n = None <-> exists i, 0 <= i < Z.of_nat n /\ user_pa m l0 (va + i) = None.
Proof.
  revert va. induction n as [|n IH]; intros va; cbn [user_bytes].
  - split; [done|]. intros (i & Hi & _). lia.
  - destruct (user_pa m l0 va) as [pa|] eqn:E; cbn [mbind option_bind].
    + destruct (user_bytes m l0 (va + 1) n) as [bs|] eqn:Eb; cbn [mbind option_bind].
      * split; [done|]. intros (i & Hi & Hn). assert (Hx : Some bs = None); [|done].
        rewrite <- Eb. apply IH. destruct (decide (i = 0)) as [->|]; [rewrite Z.add_0_r in Hn; congruence|].
        exists (i - 1). split; [lia|]. rewrite <- Hn. f_equal. lia.
      * split; [|done]. intros _. destruct (proj1 (IH (va + 1)) Eb) as (i & Hi & Hn).
        exists (i + 1). split; [lia|]. rewrite <- Hn. f_equal. lia.
    + split; [|done]. intros _. exists 0. split; [lia|]. by rewrite Z.add_0_r.
Qed.

Lemma user_bytes_byte m l0 va n bs : user_bytes m l0 va n = Some bs -> Forall is_byte bs.
Proof.
  revert va bs. induction n as [|n IH]; intros va bs; cbn [user_bytes]; [by intros [= <-]|].
  intros (pa & _ & (bs' & H & [= <-])%bind_Some)%bind_Some. constructor; [|by eapply IH].
  unfold byte_at. apply byte_of_range.
Qed.

(** The copy to a mapped range, one address per byte. *)
Lemma copy_range_ok m lv l0 cur va bs :
  tree_wf m lv l0 cur -> range_safe m lv l0 va (Z.of_nat (length bs)) -> Forall is_byte bs -> 0 <= va < 2 ^ 64 ->
  one_to_one m l0 va (Z.of_nat (length bs)) ->
  (forall i, 0 <= i < Z.of_nat (length bs) -> is_Some (user_pa m l0 (va + i))) ->
  exists m', safe_copy_to_user m l0 bs va = Some (Ok tt, m') /\
    safe_copy_from_user m' l0 va (Z.of_nat (length bs)) = Some (Ok bs) /\ stored m m' lv l0 cur va bs /\
    stored_all m m' l0 va bs.
Proof.
  intros Hwf Hs Hb Hv Hinj Hmap. destruct (tw_table _ _ _ _ Hwf l0 3%nat (tw_root _ _ _ _ Hwf)) as (_ & _ & Hl0 & _).
  destruct (copy_fuel_ok va (Z.of_nat (length bs)) ltac:(lia)) as [Hf1 Hf2].
  destruct (copy_out_spec _ m lv l0 cur va bs Hwf Hs Hb Hv Hf1 (or_intror Hf2)) as (r & m' & Hc & Hst & Hr).
  destruct r as [[]|e].
  2:{ destruct Hr as (_ & i & Hi & Hn). destruct (Hmap i Hi) as [? ?]. congruence. }
  destruct Hr as [_ Hall]. exists m'. split_and!; [|rewrite copy_from_user_eq, Nat2Z.id by (done || lia)|done|done].
  { unfold safe_copy_to_user. destruct (Z.eqb_spec l0 0); [lia|done]. }
  rewrite (user_bytes_Some m' l0 va _ bs); [done|done|]. intros i Hi.
  destruct (Hmap (Z.of_nat i) ltac:(lia)) as [pa Hpa]. exists pa. split; [by rewrite (user_pa_ext _ _ _ _ (sd_map _ _ _ _ _ _ _ Hst))|].
  rewrite (Hall Hinj (Z.of_nat i) pa) by (done || lia). rewrite Nat2Z.id. destruct (nth_lookup_or_length bs i 0); [done|lia].
Qed.

Lemma copy_to_user_ok m lv l0 cur va bs :
  tree_wf m lv l0 cur -> range_safe m lv l0 va (Z.of_nat (length bs)) -> Forall is_byte bs -> 0 <= va < 2 ^ 64 ->
  one_to_one m l0 va (Z.of_nat (length bs)) ->
  (forall i, 0 <= i < Z.of_nat (length bs) -> is_Some (user_pa m l0 (va + i))) ->
  exists m', safe_copy_to_user m l0 bs va = Some (Ok tt, m') /\
    safe_copy_from_user m' l0 va (Z.of_nat (length bs)) = Some (Ok bs) /\ stored m m' lv l0 cur va bs.
Proof.
  intros Hwf Hs Hb Hv Hinj Hmap.
  destruct (copy_range_ok m lv l0 cur va bs Hwf Hs Hb Hv Hinj Hmap) as (m' & ? & ? & ? & _).
  by exists m'.
Qed.

(** ** Claims *)

(** C12. Copies across the user boundary.  For a range of user addresses of
    which none leads into a page table of the process, whatever the rest of
    its address space leads to, [safe_copy_to_user] returns; it succeeds
    exactly when every byte of the range is mapped, it changes no translation
    and no byte of memory other than those the range leads to, and what it
    stored is what [safe_copy_from_user] reads back from the same range when
    no two of its addresses share a byte. *)
Theorem safe_copy_round_trip m lv l0 cur va bs :
  tree_wf m lv l0 cur -> range_safe m lv l0 va (Z.of_nat (length bs)) -> Forall is_byte bs -> 0 <= va < 2 ^ 64 ->
  exists r m', safe_copy_to_user m l0 bs va = Some (r, m') /\
    (r = Ok tt \/ r = Err InvalidArgs) /\
    (r = Ok tt <-> forall i, 0 <= i < Z.of_nat (length bs) -> is_Some (user_pa m l0 (va + i))) /\
    (forall va', translate_user_va m' l0 va' = translate_user_va m l0 va') /\
    (forall a, (forall i, 0 <= i < Z.of_nat (length bs) -> user_pa m l0 (va + i) <> Some a) ->
       byte_at m' a = byte_at m a) /\
    (r = Ok tt -> one_to_one m l0 va (Z.of_nat (length bs)) ->
       safe_copy_from_user m' l0 va (Z.of_nat (length bs)) = Some (Ok bs)).
Proof.
  intros Hwf Hs Hb Hv. destruct (tw_table _ _ _ _ Hwf l0 3%nat (tw_root _ _ _ _ Hwf)) as (_ & _ & Hl0 & _).
  destruct (copy_fuel_ok va (Z.of_nat (length bs)) ltac:(lia)) as [Hf1 Hf2].
  destruct (copy_out_spec _ m lv l0 cur va bs Hwf Hs Hb Hv Hf1 (or_intror Hf2))
    as (r & m' & Hc & [Hw Hm Hfr _] & Hr).
  exists r, m'. split.
  { unfold safe_copy_to_user. destruct (Z.eqb_spec l0 0); [lia|done]. }
  destruct r as [[]|e].
  - destruct Hr as [Hmap Hall]. split_and!; [by left|done|done|done|].
    intros _ Hinj. rewrite copy_from_user_eq, Nat2Z.id by (done || lia).
    rewrite (user_bytes_Some m' l0 va _ bs); [done|done|]. intros i Hi.
    destruct (Hmap (Z.of_nat i) ltac:(lia)) as [pa Hpa]. exists pa. split; [by rewrite (user_pa_ext _ _ _ _ Hm)|].
    rewrite (Hall Hinj (Z.of_nat i) pa) by (done || lia). rewrite Nat2Z.id. destruct (nth_lookup_or_length bs i 0); [done|lia].
  - destruct Hr as (-> & i & Hi & Hn). split_and!; [by right| |done|done|done].
    split; [done|]. intros Hall. destruct (Hall i Hi) as [pa Hpa]. congruence.
Qed.

(** The check agrees with the use.  For a buffer that ends below the last
    page of the address space, [validate_buffer] returns, and accepts exactly
    the buffers [safe_copy_from_user] can read in full. *)
Theorem validate_matches_copy m l0 ptr len :
  l0 <> 0 -> 0 < ptr -> 0 < len -> ptr + len <= 2 ^ 64 - 4096 ->
  exists v c, validate_buffer m (Ok l0) ptr len = Some v /\ safe_copy_from_user m l0 ptr len = Some c /\
    (v = Ok tt \/ v = Err InvalidArgs) /\ (v = Ok tt <-> exists bs, c = Ok bs /\ length bs = Z.to_nat len).
Proof.
  intros Hl0 Hp Hl He. exists (mapped m l0 ptr (Z.to_nat len)), (or_invalid (user_bytes m l0 ptr (Z.to_nat len))).
  split.
  { unfold validate_buffer. destruct (Z.eqb_spec ptr 0); [lia|]. destruct (Z.eqb_spec len 0); [lia|].
    cbn [andb]. apply validate_range_spec; lia. }
  split; [apply copy_from_user_eq; lia|].
  assert (Hlen : forall va n bs, user_bytes m l0 va n = Some bs -> length bs = n).
  { intros va n. revert va. induction n as [|n IH]; intros va bs; cbn [user_bytes]; [by intros [= <-]|].
    destruct (user_pa m l0 va); cbn [mbind option_bind]; [|done].
    destruct (user_bytes m l0 (va + 1) n) eqn:E; cbn [mbind option_bind]; [|done].
    intros [= <-]. cbn. by rewrite (IH _ _ E). }
  unfold mapped. destruct (user_bytes m l0 ptr (Z.to_nat len)) as [bs|] eqn:E; cbn.
  - split; [by left|]. split; [|done]. intros _. exists bs. split; [done|by apply (Hlen ptr)].
  - split; [by right|]. split; [done|]. by intros (bs & [=] & _).
Qed.

Lemma user_bytes_ext m l1 l2 va n :
  (forall i, 0 <= i < Z.of_nat n -> user_pa m l1 (va + i) = user_pa m l2 (va + i)) ->
  user_bytes m l1 va n = user_bytes m l2 va n.
Proof.
  revert va. induction n as [|n IH]; intros va H; cbn [user_bytes]; [done|].
  pose proof (H 0 ltac:(lia)) as H0. rewrite Z.add_0_r in H0. rewrite H0, (IH (va + 1)); [done|].
  intros i Hi. rewrite <- Z.add_assoc. apply H. lia.
Qed.

(** ** Examples

    A tree of four tables that maps two pages, at 0x1000 and 0x2000. *)
Definition demo_ram : Ram :=
  <[0x1000 := 0x2003]> (<[0x2000 := 0x3003]> (<[0x3000 := 0x4003]>
    (<[0x4008 := 0x5403]> (<[0x4010 := 0x6403]> ∅)))).
Definition demo_lv : Levels := <[0x1000 := 3%nat]> (<[0x2000 := 2%nat]> (<[0x3000 := 1%nat]> (<[0x4000 := 0%nat]> ∅))).

Definition demo_word (a : Z) : Z :=
  if a =? 0x1000 then 0x2003 else if a =? 0x2000 then 0x3003 else if a =? 0x3000 then 0x4003
  else if a =? 0x4008 then 0x5403 else if a =? 0x4010 then 0x6403 else 0.

Lemma demo_read a : ram_read demo_ram a = demo_word a.
Proof.
  unfold demo_ram, demo_word, ram_read.
  repeat match goal with |- context [a =? ?n] => destruct (Z.eqb_spec a n) as [->|?]; [reflexivity|rewrite lookup_insert_ne by done] end.
  by rewrite lookup_empty.
Qed.

Lemma demo_table t r : demo_lv !! t = Some r ->
  (t = 0x1000 /\ r = 3%nat) \/ (t = 0x2000 /\ r = 2%nat) \/ (t = 0x3000 /\ r = 1%nat) \/ (t = 0x4000 /\ r = 0%nat).
Proof.
  unfold demo_lv. rewrite !lookup_insert_Some, lookup_empty. intros H.
  destruct H as [[<- <-]|[_ [[<- <-]|[_ [[<- <-]|[_ [[<- <-]|[_ [=]]]]]]]]]; tauto.
Qed.

(** The valid entries of each table. *)
Lemma demo_up t i :
  t = 0x1000 \/ t = 0x2000 \/ t = 0x3000 -> 0 <= i < 512 ->
  read_pte demo_ram t i = if i =? 0 then t + 0x1003 else 0.
Proof.
  intros Ht Hi. unfold read_pte. rewrite demo_read. unfold demo_word.
  destruct Ht as [-> |[-> | ->]];
    repeat match goal with |- context [?x =? ?y] => destruct (Z.eqb_spec x y); try lia end; reflexivity.
Qed.

Lemma demo_low i :
  0 <= i < 512 -> read_pte demo_ram 0x4000 i = if i =? 1 then 0x5403 else if i =? 2 then 0x6403 else 0.
Proof.
  intros Hi. unfold read_pte. rewrite demo_read. unfold demo_word.
  repeat match goal with |- context [?x =? ?y] => destruct (Z.eqb_spec x y); try lia end; reflexivity.
Qed.

Lemma demo_tree : tree_wf demo_ram demo_lv 0x1000 0x5000.
Proof.
  constructor.
  - reflexivity.
  - intros t r H. destruct (demo_table t r H) as [[-> ->]|[[-> ->]|[[-> ->]|[-> ->]]]]; repeat split; lia.
  - intros t r i H Hi. destruct (demo_table t r H) as [[-> ->]|[[-> ->]|[[-> ->]|[-> ->]]]]; [| | |done];
      rewrite demo_up by lia; (destruct (Z.eqb_spec i 0); [vm_compute; intros _; by split|by vm_compute]).
  - intros t1 t2 r1 r2 i1 i2 c H1 H2 Hi1 Hi2 (Hv1 & _ & Hc1) (Hv2 & _ & Hc2).
    destruct (demo_table _ _ H1) as [[-> _]|[[-> _]|[[-> _]|[_ [=]]]]],
      (demo_table _ _ H2) as [[-> _]|[[-> _]|[[-> _]|[_ [=]]]]];
      rewrite demo_up in Hv1, Hc1 by lia; rewrite demo_up in Hv2, Hc2 by lia;
      destruct (Z.eqb_spec i1 0); try (by vm_compute in Hv1);
      destruct (Z.eqb_spec i2 0); try (by vm_compute in Hv2); subst; try done;
      vm_compute in Hc2; discriminate Hc2.
Qed.

(** The same tables in any memory. *)
Lemma demo_tree_over m cur :
  (forall a, a < 0x5000 -> ram_read m a = ram_read demo_ram a) -> 0x5000 <= cur -> tree_wf m demo_lv 0x1000 cur.
Proof.
  intros Hm Hc. destruct demo_tree as [Hr Ht He Hp].
  assert (Heq : forall t r i, demo_lv !! t = Some r -> 0 <= i < 512 -> read_pte m t i = read_pte demo_ram t i).
  { intros t r i H Hi. apply Hm. destruct (Ht t r H) as (_ & _ & _ & ?). lia. }
  constructor.
  - exact Hr.
  - intros t r H. destruct (Ht t r H) as (H1 & H2 & H3 & H4). split_and!; [done..|lia].
  - intros t r i H Hi. rewrite (Heq t r i H Hi). by apply He.
  - intros t1 t2 r1 r2 i1 i2 c H1 H2 Hi1 Hi2 Hc1 Hc2. unfold points in *.
    rewrite (Heq t1 (S r1) i1 H1 Hi1) in Hc1. rewrite (Heq t2 (S r2) i2 H2 Hi2) in Hc2. by eapply Hp.
Qed.

Lemma demo_step r t va :
  t = 0x1000 /\ r = 3%nat \/ t = 0x2000 /\ r = 2%nat \/ t = 0x3000 /\ r = 1%nat ->
  walk demo_ram r t va = if index r va =? 0 then walk demo_ram (pred r) (t + 0x1000) va else None.
Proof.
  intros Ht. pose proof (index_range r va).
  destruct Ht as [[-> ->]|[[-> ->]|[-> ->]]]; cbn [walk]; rewrite demo_up by lia;
    match goal with |- context [?x =? 0] => destruct (Z.eqb_spec x 0) end; reflexivity.
Qed.

Lemma demo_pages va pa :
  translate_user_va demo_ram 0x1000 va = Some pa -> 0x5000 <= pa < 0x7000.
Proof.
  rewrite translate_walk, !demo_step by lia. cbn [pred].
  destruct (index 3 va =? 0), (index 2 va =? 0), (index 1 va =? 0); try done.
  cbn [walk]. rewrite demo_low by apply index_range. pose proof (Z.mod_pos_bound va 4096 ltac:(lia)).
  destruct (index 0 va =? 1); [|destruct (index 0 va =? 2); [|by vm_compute]].
  - change (negb (is_valid 0x5403)) with false. change (Z.land 0x5403 ADDR_MASK) with 0x5000. cbv iota.
    rewrite u64w_small by lia. intros [= <-]. lia.
  - change (negb (is_valid 0x6403)) with false. change (Z.land 0x6403 ADDR_MASK) with 0x6000. cbv iota.
    rewrite u64w_small by lia. intros [= <-]. lia.
Qed.

Lemma demo_safe va len : range_safe demo_ram demo_lv 0x1000 va len.
Proof.
  intros i pa t r _ H%demo_pages Ht. destruct (demo_table t r Ht) as [[-> _]|[[-> _]|[[-> _]|[-> _]]]]; lia.
Qed.

(** *** A space with the kernel in it

    Two pages, at 0x1000 and 0x2000, below the identity block and the upper
    half of the kernel, which both lead to the tables. *)
Definition half_ram : Ram :=
  <[0x40001000 := 0x40002003]> (<[0x40001800 := 0x40006003]> (<[0x40002000 := 0x40003003]> (<[0x40002008 := 0x40000401]>
    (<[0x40003000 := 0x40004003]> (<[0x40004008 := 0x40007403]> (<[0x40004010 := 0x40008403]> (<[0x40006008 := 0x40000401]> ∅))))))).
Definition half_lv : Levels :=
  <[0x40001000 := 3%nat]> (<[0x40002000 := 2%nat]> (<[0x40006000 := 2%nat]> (<[0x40003000 := 1%nat]> (<[0x40004000 := 0%nat]> ∅)))).

Definition half_word (a : Z) : Z :=
  if a =? 0x40001000 then 0x40002003 else if a =? 0x40001800 then 0x40006003 else if a =? 0x40002000 then 0x40003003
  else if a =? 0x40002008 then 0x40000401 else if a =? 0x40003000 then 0x40004003 else if a =? 0x40004008 then 0x40007403
  else if a =? 0x40004010 then 0x40008403 else if a =? 0x40006008 then 0x40000401 else 0.

Lemma half_read a : ram_read half_ram a = half_word a.
Proof.
  unfold half_ram, half_word, ram_read.
  repeat match goal with |- context [a =? ?n] => destruct (Z.eqb_spec a n) as [->|?]; [reflexivity|rewrite lookup_insert_ne by done] end.
  by rewrite lookup_empty.
Qed.

Lemma half_table t r : half_lv !! t = Some r ->
  (t = 0x40001000 /\ r = 3%nat) \/ (t = 0x40002000 /\ r = 2%nat) \/ (t = 0x40006000 /\ r = 2%nat) \/
  (t = 0x40003000 /\ r = 1%nat) \/ (t = 0x40004000 /\ r = 0%nat).
Proof.
  unfold half_lv. rewrite !lookup_insert_Some, lookup_empty. intros H.
  destruct H as [[<- <-]|[_ [[<- <-]|[_ [[<- <-]|[_ [[<- <-]|[_ [[<- <-]|[_ [=]]]]]]]]]]]; tauto.
Qed.

(** The entries above the last level. *)
Inductive half_valid : Z -> Z -> Z -> Prop :=
| half_0 : half_valid 0x40001000 0 0x40002003
| half_1 : half_valid 0x40001000 256 0x40006003
| half_2 : half_valid 0x40002000 0 0x40003003
| half_3 : half_valid 0x40002000 1 0x40000401
| half_4 : half_valid 0x40003000 0 0x40004003
| half_5 : half_valid 0x40006000 1 0x40000401.

Lemma half_entry t r i : half_lv !! t = Some (S r) -> 0 <= i < 512 ->
  half_valid t i (read_pte half_ram t i) \/ read_pte half_ram t i = 0.
Proof.
  intros Ht Hi. unfold read_pte. rewrite half_read. unfold half_word.
  destruct (half_table _ _ Ht) as [[-> _]|[[-> _]|[[-> _]|[[-> _]|[_ [=]]]]]];
    repeat match goal with |- context [?x =? ?y] => destruct (Z.eqb_spec x y); try lia end; auto; left;
    first [assert (i = 0) as -> by lia|assert (i = 1) as -> by lia|assert (i = 256) as -> by lia]; constructor.
Qed.

Lemma half_tree : tree_wf half_ram half_lv 0x40001000 0x40009000.
Proof.
  constructor.
  - reflexivity.
  - intros t r [[-> ->]|[[-> ->]|[[-> ->]|[[-> ->]|[-> ->]]]]]%half_table; repeat split; lia.
  - intros t [|r] i Ht Hi; [done|]. destruct (half_entry t r i Ht Hi) as [Hin| ->]; [|by vm_compute].
    destruct Hin; injection Ht as <-; by vm_compute.
  - intros t1 t2 r1 r2 i1 i2 c H1 H2 Hi1 Hi2 (Hv1 & Ht1 & Hc1) (Hv2 & Ht2 & Hc2).
    destruct (half_entry _ _ _ H1 Hi1) as [E1|E1]; [|by rewrite E1 in Hv1].
    destruct (half_entry _ _ _ H2 Hi2) as [E2|E2]; [|by rewrite E2 in Hv2].
    destruct E1; try (by vm_compute in Ht1); destruct E2; try (by vm_compute in Ht2); try done;
      exfalso; rewrite <- Hc1 in Hc2; by vm_compute in Hc2.
Qed.

(** Its first table can be reached in both halves. *)
Example half_reaches_tables :
  translate_user_va half_ram 0x40001000 0x40001000 = Some 0x40001000 /\
  translate_user_va half_ram 0x40001000 0xffff800040001000 = Some 0x40001000.
Proof. split; by vm_compute. Qed.

(** Four bytes across the boundary of the two pages. *)
Lemma safe_copy_round_trip_witness :
  exists m', safe_copy_to_user half_ram 0x40001000 [1; 2; 3; 4] 0x1ffe = Some (Ok tt, m') /\
    safe_copy_from_user m' 0x40001000 0x1ffe 4 = Some (Ok [1; 2; 3; 4]).
Proof.
  assert (Hfour : forall i, 0 <= i < 4 -> i = 0 \/ i = 1 \/ i = 2 \/ i = 3) by lia.
  destruct (safe_copy_round_trip half_ram half_lv 0x40001000 0x40009000 0x1ffe [1; 2; 3; 4] half_tree)
    as (r & m' & Hc & _ & Hok & _ & _ & Hrd).
  - intros i pa t r Hi Hpa Ht. assert (Hr : 0x40007000 <= pa).
    { destruct (Hfour i Hi) as [->|[-> |[-> | ->]]]; vm_compute in Hpa; injection Hpa as <-; lia. }
    destruct (half_table t r Ht) as [[-> _]|[[-> _]|[[-> _]|[[-> _]|[-> _]]]]]; lia.
  - repeat constructor; unfold is_byte; lia.
  - lia.
  - assert (Hr : r = Ok tt).
    { apply Hok. intros i Hi. destruct (Hfour i Hi) as [->|[-> |[-> | ->]]]; vm_compute; by eexists. }
    subst r. exists m'. split; [exact Hc|]. apply (Hrd eq_refl).
    intros i j pa Hi Hj. destruct (Hfour i Hi) as [->|[-> |[-> | ->]]], (Hfour j Hj) as [->|[-> |[-> | ->]]];
      vm_compute; congruence.
Defined.

Lemma validate_matches_copy_witness :
  validate_buffer demo_ram (Ok 0x1000) 0x1ffe 4 = Some (Ok tt) /\
  exists bs, safe_copy_from_user demo_ram 0x1000 0x1ffe 4 = Some (Ok bs) /\ length bs = 4%nat.
Proof.
  destruct (validate_matches_copy demo_ram 0x1000 0x1ffe 4) as (v & c & Hv & Hc & _ & Hiff); [lia..|].
  assert (Hv' : v = Ok tt).
  { vm_compute in Hv. congruence. }
  split; [rewrite <- Hv'; exact Hv|]. destruct (proj1 Hiff Hv') as (bs & -> & Hl). exists bs. split; [exact Hc|exact Hl].
Defined.
