(* ===== verification/PtShare.v ===== *)
(** * PtShare: trees that share tables

    The upper half and the identity block of every launched process lead to
    tables of the kernel, so the trees of two processes are not apart.  Which
    tables a root reaches, and what a change of one tree along the walks of
    some addresses ([spread] of PageTable.v) leaves of another. *)
From Stdlib Require Import ZArith Lia.
From stdpp Require Import base tactics option list list_numbers gmap fin_maps.
From S2P Require Import Prelude Shared Phys PageTable PtClone Mem UserCopy.
Local Open Scope Z_scope.

(** ** The tables below a table *)
Definition slots : list nat := seq 0 512.

Fixpoint reaches (m : Ram) (r : nat) (t x : Z) : Prop :=
  x = t \/
  match r with
  | O => False
  | S r => Exists (fun i => let e := read_pte m t (Z.of_nat i) in
                            is_valid e && is_table e = true /\ reaches m r (Z.land e ADDR_MASK) x) slots
  end.

#[export] Instance reaches_dec m r t x : Decision (reaches m r t x).
Proof.
  revert t. induction r as [|r IH]; intros t; [unfold reaches; apply _|]. apply or_dec; [apply _|].
  apply Exists_dec. intros i. apply and_dec; [apply _|apply IH].
Defined.

Lemma reaches_head m r t : reaches m r t t.
Proof. destruct r; by left. Qed.

Lemma reaches_step m r t i c x : 0 <= i < 512 -> points m t i c -> reaches m r c x -> reaches m (S r) t x.
Proof.
  intros Hi (Hv & Ht & <-) Hx. right. apply Exists_exists. exists (Z.to_nat i). split.
  - apply elem_of_seq. lia.
  - cbv beta zeta. rewrite Z2Nat.id by lia. by rewrite Hv, Ht.
Qed.

Lemma reaches_inv m r t x :
  reaches m r t x -> x = t \/ exists r' i c, r = S r' /\ 0 <= i < 512 /\ points m t i c /\ reaches m r' c x.
Proof.
  destruct r as [|r]; intros [->|Hx]; auto; [done|]. right. apply Exists_exists in Hx as (i & Hi & He & Hx).
  apply elem_of_seq in Hi. apply andb_true_iff in He as [Hv Ht]. exists r, (Z.of_nat i), (Z.land (read_pte m t (Z.of_nat i)) ADDR_MASK).
  split_and!; [done|lia|lia|by split_and!|done].
Qed.

#[global] Opaque reaches.

Lemma walk_reaches m r t va x : x ∈ walk_tables m r t va -> reaches m r t x.
Proof.
  revert t. induction r as [|r IH]; intros t [->|(r' & c & Hr & Hp & Hx)]%walk_tables_inv; try apply reaches_head; [done|].
  injection Hr as <-. apply (reaches_step m r t (index (S r) va) c); [apply index_range|done|by apply IH].
Qed.

(** *** In a well-formed tree *)
Lemma reaches_in m lv root cur r t x : tree_wf m lv root cur -> lv !! t = Some r -> reaches m r t x -> is_Some (lv !! x).
Proof.
  intros Hwf. revert t. induction r as [|r IH]; intros t Ht [->|(r' & i & c & Hr & Hi & Hp & Hx)]%reaches_inv; [by eexists|done|by eexists|].
  injection Hr as <-. apply (IH c); [exact (child_level m lv root cur t r i c Hwf Ht Hi Hp)|done].
Qed.

Lemma reaches_child m lv root cur r t x k i c :
  tree_wf m lv root cur -> lv !! t = Some r -> reaches m r t x -> lv !! x = Some (S k) -> 0 <= i < 512 -> points m x i c ->
  reaches m r t c.
Proof.
  intros Hwf. revert t. induction r as [|r IH]; intros t Ht [->|(r' & j & d & Hr & Hj & Hp & Hx)]%reaches_inv Hxk Hi Hc; try done.
  - congruence.
  - apply (reaches_step m r t i c); [done|done|apply reaches_head].
  - injection Hr as <-. apply (reaches_step m r t j d); [done|done|].
    apply (IH d); try done. exact (child_level m lv root cur t r j d Hwf Ht Hj Hp).
Qed.

(** The tables of a tree without those that no walk can get to. *)
Definition prune (m : Ram) (root : Z) (lv : Levels) : Levels := filter (fun kv => reaches m 3 root kv.1) lv.

Lemma prune_Some m root lv t r : prune m root lv !! t = Some r <-> lv !! t = Some r /\ reaches m 3 root t.
Proof. unfold prune. apply map_lookup_filter_Some. Qed.

Lemma prune_wf m lv root cur : tree_wf m lv root cur -> tree_wf m (prune m root lv) root cur.
Proof.
  intros Hwf. pose proof Hwf as [Hr Ht He Hp]. constructor.
  - apply prune_Some. split; [done|apply reaches_head].
  - intros t r [H _]%prune_Some. by apply Ht.
  - intros t r i [H Hx]%prune_Some Hi. specialize (He t r i H Hi). destruct r as [|r]; [done|].
    cbn [entry_ok] in *. intros Hv. specialize (He Hv). destruct (_ && _); [done|]. destruct He as [Htb Hc]. split; [done|].
    apply prune_Some. split; [done|]. by apply (reaches_child m lv root cur 3 root t r i).
  - intros t1 t2 r1 r2 i1 i2 c [H1 _]%prune_Some [H2 _]%prune_Some. by apply (Hp t1 t2 r1 r2).
Qed.

Lemma prune_inv st lv : pt_inv st lv -> pt_inv st (prune (st_ram st) (pt_l0_pa (st_tree st)) lv).
Proof. intros [Hp Ht Hr]. constructor; [done|by apply prune_wf|done]. Qed.

(** *** The tables of a space *)
Definition table_of (st : PtState) (x : Z) : Prop := reaches (st_ram st) 3 (pt_l0_pa (st_tree st)) x.

Lemma table_of_below st lv x : pt_inv st lv -> table_of st x -> x < next_free (st_phys st).
Proof.
  intros Hi Hx. destruct (reaches_in _ _ _ _ 3 _ x (pi_tree _ _ Hi) (tw_root _ _ _ _ (pi_tree _ _ Hi)) Hx) as [r Hr].
  apply (tw_table _ _ _ _ (pi_tree _ _ Hi)) in Hr. lia.
Qed.

(** A change of a tree reaches what it reached, and new frames. *)
Lemma spread_reaches_fresh st st' lv lv' R r t x :
  pt_inv st lv -> pt_inv st' lv' -> spread st st' lv lv' R -> lv' !! t = Some r -> next_free (st_phys st) <= t ->
  reaches (st_ram st') r t x -> next_free (st_phys st) <= x.
Proof.
  intros Hi Hi' Hs. revert t. induction r as [|r IH]; intros t Ht Hn [->|(r' & i & c & Hr & Hir & Hp & Hx)]%reaches_inv; try done.
  injection Hr as <-. apply (IH c); [exact (child_level _ _ _ _ t r i c (pi_tree _ _ Hi') Ht Hir Hp)| |done].
  destruct (sd_child _ _ _ _ _ Hs t r i c Ht Hir Hp) as [[Hl _]|[? _]]; [|done].
  apply (tw_table _ _ _ _ (pi_tree _ _ Hi)) in Hl. lia.
Qed.

Lemma spread_reaches st st' lv lv' R x :
  pt_inv st lv -> pt_inv st' lv' -> spread st st' lv lv' R -> (forall t r, lv !! t = Some r -> lv' !! t = Some r) ->
  table_of st' x -> table_of st x \/ next_free (st_phys st) <= x.
Proof.
  intros Hi Hi' Hs Hl. unfold table_of. rewrite (sd_root _ _ _ _ _ Hs).
  pose proof (tw_root _ _ _ _ (pi_tree _ _ Hi)) as Ht. revert Ht. generalize (pt_l0_pa (st_tree st)). generalize 3%nat as r.
  induction r as [|r IH]; intros t Ht [->|(r' & i & c & Hr & Hir & Hp & Hx)]%reaches_inv; try by left; apply reaches_head.
  { done. }
  injection Hr as <-. destruct (sd_child _ _ _ _ _ Hs t r i c (Hl _ _ Ht) Hir Hp) as [[_ Hp']|[Hn _]].
  - pose proof (child_level _ _ _ _ t r i c (pi_tree _ _ Hi) Ht Hir Hp') as Hc.
    destruct (IH c Hc Hx) as [H|H]; [left|by right]. by apply (reaches_step _ _ _ i c).
  - right. eapply spread_reaches_fresh; [exact Hi|exact Hi'|exact Hs| |exact Hn|exact Hx].
    exact (child_level _ _ _ _ t r i c (pi_tree _ _ Hi') (Hl _ _ Ht) Hir Hp).
Qed.

(** Nothing below the cursor changes but frames that are no tables. *)
Lemma words_spread st lv p' R :
  pt_inv st lv ->
  (forall w, w mod 8 = 0 -> w < next_free (st_phys st) -> ram_read (ram p') w = ram_read (st_ram st) w) ->
  spread st (mkPt (st_tree st) p') lv lv R.
Proof.
  intros Hi Hw.
  assert (Hs : forall x r j, lv !! x = Some r -> 0 <= j < 512 -> read_pte (ram p') x j = read_pte (st_ram st) x j).
  { intros x r j Hx Hj. destruct (tw_table _ _ _ _ (pi_tree _ _ Hi) x r Hx) as (_ & Hm & _ & Hn). unfold read_pte. apply Hw.
    - pose proof (Z.div_mod x 4096 ltac:(lia)) as Hd. rewrite Hm in Hd.
      replace (x + 8 * j) with ((512 * (x / 4096) + j) * 8) by lia. by apply Z.mod_mul.
    - lia. }
  constructor; [done| |].
  - intros x r j Hx Hj _. by apply (Hs x r).
  - intros x r j c Hx Hj. unfold points. change (st_ram (mkPt (st_tree st) p')) with (ram p'). rewrite (Hs x (S r) j Hx Hj). by left.
Qed.

(** ** Two spaces over one memory *)

(** No table that a user address of the one goes through is a table of the
    other: what they share lies behind other addresses. *)
Definition keeps_off (user : Z -> Prop) (st1 st2 : PtState) : Prop :=
  forall va x, user va -> x ∈ tables_at st1 va -> ~ table_of st2 x.

Section beside.
Context (st st' : PtState) (lv lv' lv2 : Levels) (tr2 : PageTableTree) (user : Z -> Prop).
Context (Hinv : pt_inv st lv) (Hinv' : pt_inv st' lv') (Hgr : forall t r, lv !! t = Some r -> lv' !! t = Some r).
Context (Hsp : spread st st' lv lv' user).
Context (Hdata : forall t j, t mod 4096 = 0 -> 0 <= j < 512 -> t < next_free (st_phys st) -> lv !! t = None ->
  read_pte (st_ram st') t j = read_pte (st_ram st) t j).
Context (Hnext : next_free (st_phys st) <= next_free (st_phys st')).

Let other := mkPt tr2 (st_phys st).
Let other' := mkPt tr2 (st_phys st').
Context (Hother : pt_inv other lv2) (Hoff : keeps_off user st other).

(** Its tables are as they were. *)
Lemma beside_same x j : table_of other x -> 0 <= j < 512 -> read_pte (st_ram st') x j = read_pte (st_ram st) x j.
Proof using Hdata Hoff Hother Hsp.
  intros Hx Hj. destruct (lv !! x) as [r|] eqn:Hl.
  - apply (sd_same _ _ _ _ _ Hsp x r j Hl Hj). intros va Hva Hin. by apply (Hoff va x).
  - pose proof (table_of_below _ _ _ Hother Hx) as Hlt.
    destruct (reaches_in _ _ _ _ 3 _ x (pi_tree _ _ Hother) (tw_root _ _ _ _ (pi_tree _ _ Hother)) Hx) as [r Hr].
    destruct (tw_table _ _ _ _ (pi_tree _ _ Hother) x r Hr) as (_ & Hm & _). by apply Hdata.
Qed.

Lemma beside_pruned t r j :
  prune (st_ram other) (pt_l0_pa tr2) lv2 !! t = Some r -> 0 <= j < 512 ->
  read_pte (st_ram st') t j = read_pte (st_ram other) t j.
Proof using Hdata Hoff Hother Hsp. intros [_ Ht]%prune_Some Hj. by apply beside_same. Qed.

Lemma beside_tree :
  pt_inv other' (prune (st_ram other) (pt_l0_pa tr2) lv2) /\ forall va, translate_va other' va = translate_va other va.
Proof using Hdata Hinv' Hnext Hoff Hother Hsp.
  pose proof (prune_inv _ _ Hother) as [Hp Ht Hr]. cbn [st_tree other] in *.
  destruct (tables_kept (st_ram other) (st_ram st') _ (pt_l0_pa tr2) (next_free (st_phys st)) Ht beside_pruned) as [Htr Htv].
  split.
  - constructor; [apply Hinv'| |done]. destruct Htr as [H1 H2 H3 H4]. constructor; [done| |done|done].
    intros t r Hl. destruct (H2 t r Hl) as (?&?&?&?). cbn [other' st_phys]. split_and!; [done..|lia].
  - intros va. unfold translate_va. cbn [st_tree other other']. destruct (pt_has_root tr2); [|done]. apply Htv.
Qed.

(** Walks and reachable tables of the other space are the same. *)
Lemma beside_points t r j c : prune (st_ram other) (pt_l0_pa tr2) lv2 !! t = Some r -> 0 <= j < 512 ->
  points (st_ram st') t j c <-> points (st_ram other) t j c.
Proof using Hdata Hoff Hother Hsp. intros Ht Hj. unfold points. by rewrite (beside_pruned t r j Ht Hj). Qed.

Lemma beside_walk va x : x ∈ tables_at other' va -> x ∈ tables_at other va.
Proof using Hdata Hoff Hother Hsp.
  pose proof (prune_wf _ _ _ _ (pi_tree _ _ Hother)) as Hwf. pose proof (tw_root _ _ _ _ Hwf) as Ht. unfold tables_at.
  cbn [st_tree other other'] in *. revert Ht. generalize 3%nat as r. generalize (pt_l0_pa tr2) at 1 3 4 as t. intros t r. revert t.
  induction r as [|r IH]; intros t Ht [->|(r' & c & Hr & Hp & Hx)]%walk_tables_inv; try apply walk_tables_head; [done|].
  injection Hr as <-. apply (beside_points t (S r)) in Hp; [|done|apply index_range].
  apply (walk_tables_step _ _ _ _ c); [done|]. apply IH; [|done].
  exact (child_level _ _ _ _ t r _ c Hwf Ht (index_range _ _) Hp).
Qed.

Lemma beside_reaches x : table_of other' x -> table_of other x.
Proof using Hdata Hoff Hother Hsp.
  pose proof (prune_wf _ _ _ _ (pi_tree _ _ Hother)) as Hwf. pose proof (tw_root _ _ _ _ Hwf) as Ht. unfold table_of.
  cbn [st_tree other other'] in *. revert Ht. generalize 3%nat as r. generalize (pt_l0_pa tr2) at 1 3 4 as t. intros t r. revert t.
  induction r as [|r IH]; intros t Ht [->|(r' & i & c & Hr & Hi & Hp & Hx)]%reaches_inv; try apply reaches_head; [done|].
  injection Hr as <-. apply (beside_points t (S r)) in Hp; [|done|done].
  apply (reaches_step _ _ _ i c); [done|done|]. apply IH; [|done].
  exact (child_level _ _ _ _ t r i c Hwf Ht Hi Hp).
Qed.

(** The two spaces keep off each other afterwards as before. *)
Lemma beside_off : keeps_off user st' other'.
Proof using All.
  intros va x Hva Hin Hx%beside_reaches. destruct (spread_walk _ _ _ _ _ va x Hinv Hinv' Hsp Hgr Hin) as [H|H].
  - by apply (Hoff va x).
  - pose proof (table_of_below _ _ _ Hother Hx). cbn [other st_phys] in *. lia.
Qed.

Lemma beside_off_back : keeps_off user other st -> keeps_off user other' st'.
Proof using All.
  intros Hback va x Hva Hin%beside_walk Hx. pose proof (table_of_below _ _ _ Hother (walk_reaches _ _ _ _ _ Hin)) as Hlt.
  destruct (spread_reaches _ _ _ _ _ x Hinv Hinv' Hsp Hgr Hx) as [H|H]; [by apply (Hback va x)|]. cbn [other st_phys] in *. lia.
Qed.
End beside.

(** ** The tree of a new process

    A tree set up next to the one in use: it sees the kernel as that one
    does, and all it shares with it lies behind the entries it took over. *)
Definition low_va (va : Z) : Prop := index 3 va = 0 /\ index 2 va = 0.

Definition behind_kernel (m : Ram) (src x : Z) : Prop :=
  (exists i c, 256 <= i < 512 /\ points m src i c /\ reaches m 2 c x) \/
  (exists p c, points m src 0 p /\ points m p 1 c /\ reaches m 1 c x).

Lemma low_address va : 0 <= va < 2 ^ 30 -> low_va va.
Proof.
  intros H. unfold low_va. rewrite !index_div. change (span 3) with (2 ^ 39). change (span 2) with (2 ^ 30).
  by rewrite !Z.div_small by lia.
Qed.

Record new_tree (m : Ram) (src n : Z) (st : PtState) : Prop := {
  nt_high : forall a, 256 <= index 3 a -> translate_va st a = translate_user_va m src a;
  nt_user : forall va x, low_va va -> x ∈ tables_at st va -> n <= x;
  nt_tables : forall x, table_of st x -> n <= x \/ behind_kernel m src x
}.

Lemma points_det m t i c c' : points m t i c -> points m t i c' -> c = c'.
Proof. intros (_ & _ & <-) (_ & _ & <-). done. Qed.

Lemma reaches_same m m' lv root cur r t x :
  tree_wf m lv root cur -> (forall t r j, lv !! t = Some r -> 0 <= j < 512 -> read_pte m' t j = read_pte m t j) ->
  lv !! t = Some r -> reaches m' r t x -> reaches m r t x.
Proof.
  intros Hwf Hs. revert t. induction r as [|r IH]; intros t Ht [->|(r' & i & c & Hr & Hi & Hp & Hx)]%reaches_inv; try apply reaches_head; [done|].
  injection Hr as <-. assert (Hp' : points m t i c) by (unfold points in *; by rewrite <- (Hs t (S r) i Ht Hi)).
  apply (reaches_step m r t i c); [done|done|]. apply IH; [|done]. exact (child_level m lv root cur t r i c Hwf Ht Hi Hp').
Qed.

Section cloned.
Context (st : PtState) (lv lvp : Levels) (src l1 cur n : Z) (m' : Ram).
Let m := st_ram st.
Let root := pt_l0_pa (st_tree st).
Context (Hinv : pt_inv st lv) (Hsrc : tree_wf m lvp src cur) (Hdis : lv ##ₘ lvp) (Hl1 : points m root 0 l1).
Context (Hnew : forall t r, lv !! t = Some r -> n <= t) (Hempty : forall j, 0 < j < 512 -> is_valid (read_pte m root j) = false).
Context (Hcopy : copied_entries m m' root l1 src).
Context (Hhigh : forall j, 256 <= j < 512 -> read_pte m' root j = if read_pte m src j =? 0 then read_pte m root j else read_pte m src j).

Let Hwf : tree_wf m lv root (next_free (st_phys st)) := pi_tree _ _ Hinv.

Lemma cloned_first : lv !! l1 = Some 2%nat.
Proof using Hinv Hl1. exact (child_level m lv root _ root 2 0 l1 Hwf (tw_root _ _ _ _ Hwf) ltac:(lia) Hl1). Qed.

Lemma cloned_src t r j : lvp !! t = Some r -> 0 <= j < 512 -> read_pte m' t j = read_pte m t j.
Proof using Hcopy Hdis Hinv Hl1 Hsrc.
  intros Ht Hj. destruct (tw_table _ _ _ _ Hsrc t r Ht) as (_ & Hm & _).
  assert (Hno : forall k, lv !! t = Some k -> False) by (intros k Hk; exact (proj1 (map_disjoint_spec lv lvp) Hdis t k r Hk Ht)).
  destruct (Hcopy t j Hm Hj) as [?|[(-> & _)|(-> & _)]]; [done| |]; exfalso; eapply Hno; [apply Hwf|apply cloned_first].
Qed.

(** Below its first table the new tree is its own. *)
Lemma cloned_below t r j : lv !! t = Some r -> (r < 2)%nat -> 0 <= j < 512 -> read_pte m' t j = read_pte m t j.
Proof using Hcopy Hinv Hl1.
  intros Ht Hr Hj. destruct (tw_table _ _ _ _ Hwf t r Ht) as (_ & Hm & _).
  pose proof (tw_root _ _ _ _ Hwf) as H3. pose proof cloned_first as H2.
  destruct (Hcopy t j Hm Hj) as [?|[(-> & _)|(-> & _)]]; [done| |].
  - rewrite H3 in Ht. injection Ht as <-. lia.
  - rewrite H2 in Ht. injection Ht as <-. lia.
Qed.

Lemma cloned_reach r t x : lv !! t = Some r -> (r < 2)%nat -> reaches m' r t x -> is_Some (lv !! x).
Proof using Hcopy Hinv Hl1.
  revert t. induction r as [|r IH]; intros t Ht Hr [->|(r' & i & c & E & Hi & Hp & Hx)]%reaches_inv; [by eexists|done|by eexists|].
  injection E as <-. unfold points in Hp. rewrite (cloned_below t (S r) i Ht Hr Hi) in Hp.
  apply (IH c); [exact (child_level m lv root _ t r i c Hwf Ht Hi Hp)|lia|done].
Qed.

Lemma cloned_root_entry i c : 0 <= i < 512 -> points m' root i c -> (i = 0 /\ c = l1) \/ (256 <= i /\ points m src i c).
Proof using Hcopy Hdis Hempty Hinv Hl1 Hsrc.
  intros Hi Hp. destruct (tw_table _ _ _ _ Hwf root 3 (tw_root _ _ _ _ Hwf)) as (_ & Hm & _).
  destruct (Hcopy root i Hm Hi) as [E|[(_ & H256 & E)|(E & _)]].
  - unfold points in Hp. rewrite E in Hp. left. destruct (decide (i = 0)) as [->|Hne].
    + split; [done|]. by apply (points_det m root 0).
    + destruct Hp as [Hv _]. rewrite Hempty in Hv by lia. done.
  - right. split; [done|]. unfold points in *. by rewrite <- E.
  - pose proof (tw_root _ _ _ _ Hwf). pose proof cloned_first. congruence.
Qed.

Lemma cloned_l1_entry i c : 0 <= i < 512 -> points m' l1 i c ->
  points m l1 i c \/ (i = 1 /\ exists p, points m src 0 p /\ points m p 1 c).
Proof using Hcopy Hdis Hinv Hl1 Hsrc.
  intros Hi Hp. destruct (tw_table _ _ _ _ Hwf l1 2 cloned_first) as (_ & Hm & _).
  destruct (Hcopy l1 i Hm Hi) as [E|[(E & _)|(_ & -> & p & Hp0 & E)]].
  - left. unfold points in *. by rewrite <- E.
  - pose proof (tw_root _ _ _ _ Hwf). pose proof cloned_first. congruence.
  - right. split; [done|]. exists p. split; [done|]. unfold points in *. by rewrite <- E.
Qed.

Lemma cloned_tree : new_tree m src n (mkPt (st_tree st) (set_ram (st_phys st) m')).
Proof using All.
  pose proof (tw_root _ _ _ _ Hwf) as H3. pose proof cloned_first as H2. constructor.
  - intros a Ha. unfold translate_va. cbn [st_tree]. rewrite (pi_root _ _ Hinv).
    rewrite !translate_walk. change (st_ram _) with m'. fold root. cbn [walk].
    pose proof (index_range 3 a) as Hr. rewrite Hhigh by lia.
    destruct (Z.eqb_spec (read_pte m src (index 3 a)) 0) as [->|_]; [by rewrite Hempty by lia|].
    destruct (is_valid _) eqn:Hv; [|done]. cbn [negb andb].
    pose proof (tw_entry _ _ _ _ Hsrc src 3 _ (tw_root _ _ _ _ Hsrc) Hr Hv) as [_ Hc].
    change (3 <? 3)%nat with false. cbn [andb].
    change (walk m' 2 (Z.land (read_pte m src (index 3 a)) ADDR_MASK) a = walk m 2 (Z.land (read_pte m src (index 3 a)) ADDR_MASK) a).
    apply (walk_ext m m' lvp src cur 0 0 Hsrc); [|intros r va Ht _; destruct (tw_table _ _ _ _ Hsrc 0 r Ht); lia|exact Hc].
    intros t r j Ht Hj _. by apply (cloned_src t r).
  - intros va x [H30 H20]. unfold tables_at. change (st_ram _) with m'. cbn [st_tree]. fold root.
    intros [->|(r & c & [= <-] & Hp & Hx)]%walk_tables_inv; [by apply (Hnew root 3)|].
    apply cloned_root_entry in Hp as [[_ ->]|[Hi _]]; [|lia|apply index_range].
    apply walk_tables_inv in Hx as [->|(r & c & [= <-] & Hp & Hx)]; [by apply (Hnew l1 2)|].
    apply cloned_l1_entry in Hp as [Hp|[Hi _]]; [|lia|apply index_range].
    pose proof (child_level m lv root _ l1 1 _ c Hwf H2 (index_range _ _) Hp) as Hc.
    destruct (cloned_reach 1 c x Hc ltac:(lia) (walk_reaches _ _ _ _ _ Hx)) as [k Hk]. by apply (Hnew x k).
  - intros x. unfold table_of. change (st_ram _) with m'. cbn [st_tree]. fold root.
    intros [->|(r & i & c & [= <-] & Hi & Hp & Hx)]%reaches_inv; [left; by apply (Hnew root 3)|].
    apply cloned_root_entry in Hp as [[-> ->]|[H256 Hp]]; [| |done].
    + apply reaches_inv in Hx as [->|(r & j & d & [= <-] & Hj & Hp & Hx)]; [left; by apply (Hnew l1 2)|].
      apply cloned_l1_entry in Hp as [Hp|[-> (p & Hp0 & Hp1)]]; [| |done].
      * left. pose proof (child_level m lv root _ l1 1 _ d Hwf H2 Hj Hp) as Hd.
        destruct (cloned_reach 1 d x Hd ltac:(lia) Hx) as [k Hk]. by apply (Hnew x k).
      * right. right. exists p, d. split; [done|]. split; [done|].
        pose proof (child_level m lvp src cur src 2 0 p Hsrc (tw_root _ _ _ _ Hsrc) ltac:(lia) Hp0) as Hp2.
        pose proof (child_level m lvp src cur p 1 1 d Hsrc Hp2 ltac:(lia) Hp1) as Hd.
        apply (reaches_same m m' lvp src cur); [done|intros; by eapply cloned_src|done|done].
    + right. left. exists i, c. split; [lia|]. split; [done|].
      pose proof (child_level m lvp src cur src 2 i c Hsrc (tw_root _ _ _ _ Hsrc) Hi Hp) as Hc.
      apply (reaches_same m m' lvp src cur); [done|intros; by eapply cloned_src|done|done].
Qed.
End cloned.

(** What lies behind the kernel's entries of a tree is on none of its own
    user walks. *)
Lemma walk_parent m lv root cur r t va x :
  tree_wf m lv root cur -> lv !! t = Some r -> x ∈ walk_tables m r t va ->
  x = t \/ exists k y, (k < r)%nat /\ lv !! y = Some (S k) /\ y ∈ walk_tables m r t va /\ points m y (index (S k) va) x /\ lv !! x = Some k.
Proof.
  intros Hwf. revert t. induction r as [|r IH]; intros t Ht [->|(r' & c & E & Hp & Hx)]%walk_tables_inv; [by left|done|by left|right].
  injection E as <-. pose proof (child_level m lv root cur t r _ c Hwf Ht (index_range _ _) Hp) as Hc.
  destruct (IH c Hc Hx) as [->|(k & y & Hk & Hy & Hin & Hpy & Hkx)].
  - exists r, t. split_and!; try done; [lia|apply walk_tables_head].
  - exists k, y. split_and!; try done; [lia|by apply (walk_tables_step m r t va c)].
Qed.

Lemma reaches_on_walk m lv root cur va r c x :
  tree_wf m lv root cur -> lv !! c = Some r -> (r < 3)%nat -> reaches m r c x -> x ∈ walk_tables m 3 root va -> c ∈ walk_tables m 3 root va.
Proof.
  intros Hwf. revert c. induction r as [|r IH]; intros c Hc Hr [->|(r' & i & d & E & Hi & Hp & Hx)]%reaches_inv Hin; try done.
  injection E as <-. pose proof (child_level m lv root cur c r i d Hwf Hc Hi Hp) as Hd.
  pose proof (IH d Hd ltac:(lia) Hx Hin) as Hdin.
  destruct (walk_parent m lv root cur 3 root va d Hwf (tw_root _ _ _ _ Hwf) Hdin) as [->|(k & y & _ & Hy & Hyin & Hpy & Hk)].
  { rewrite (tw_root _ _ _ _ Hwf) in Hd. injection Hd as <-. lia. }
  by destruct (tw_parent _ _ _ _ Hwf c y r k i (index (S k) va) d Hc Hy Hi (index_range _ _) Hp Hpy) as [-> _].
Qed.

Lemma kernel_off_walk m lv root cur va x :
  tree_wf m lv root cur -> low_va va -> x ∈ walk_tables m 3 root va -> ~ behind_kernel m root x.
Proof.
  intros Hwf [H3 H2] Hin. pose proof (tw_root _ _ _ _ Hwf) as Hr.
  assert (Hup : forall c k i y, lv !! c = Some k -> (k < 3)%nat -> c ∈ walk_tables m 3 root va -> 0 <= i < 512 -> lv !! y = Some (S k) ->
    points m y i c -> i = index (S k) va).
  { intros c k i y Hc Hk Hcin Hi Hy Hp.
    destruct (walk_parent m lv root cur 3 root va c Hwf Hr Hcin) as [->|(k' & y' & _ & Hy' & _ & Hp' & Hk')]; [rewrite Hr in Hc; injection Hc as <-; lia|].
    rewrite Hc in Hk'. injection Hk' as <-.
    by destruct (tw_parent _ _ _ _ Hwf y y' k k i (index (S k) va) c Hy Hy' Hi (index_range _ _) Hp Hp') as [_ ->]. }
  intros [(i & c & Hi & Hp & Hx)|(p & c & Hp0 & Hp1 & Hx)].
  - pose proof (child_level m lv root cur root 2 i c Hwf Hr ltac:(lia) Hp) as Hc.
    pose proof (reaches_on_walk m lv root cur va 2 c x Hwf Hc ltac:(lia) Hx Hin) as Hcin.
    pose proof (Hup c 2%nat i root Hc ltac:(lia) Hcin ltac:(lia) Hr Hp). lia.
  - pose proof (child_level m lv root cur root 2 0 p Hwf Hr ltac:(lia) Hp0) as Hp2.
    pose proof (child_level m lv root cur p 1 1 c Hwf Hp2 ltac:(lia) Hp1) as Hc.
    pose proof (reaches_on_walk m lv root cur va 1 c x Hwf Hc ltac:(lia) Hx Hin) as Hcin.
    pose proof (Hup c 1%nat 1 p Hc ltac:(lia) Hcin ltac:(lia) Hp2 Hp1). lia.
Qed.

(** A table behind the kernel's entries is a table. *)
Lemma behind_reaches m lv src cur x : tree_wf m lv src cur -> behind_kernel m src x -> reaches m 3 src x.
Proof.
  intros Hwf [(i & c & Hi & Hp & Hx)|(p & c & Hp0 & Hp1 & Hx)].
  - apply (reaches_step m 2 src i c); [lia|done|done].
  - apply (reaches_step m 2 src 0 p); [lia|done|]. apply (reaches_step m 1 p 1 c); [lia|done|done].
Qed.

Lemma behind_same m m' lv src cur x :
  tree_wf m lv src cur -> (forall t r j, lv !! t = Some r -> 0 <= j < 512 -> read_pte m' t j = read_pte m t j) ->
  behind_kernel m' src x -> behind_kernel m src x.
Proof.
  intros Hwf Hs. pose proof (tw_root _ _ _ _ Hwf) as Hr.
  assert (Hpt : forall t r i c, lv !! t = Some r -> 0 <= i < 512 -> points m' t i c -> points m t i c).
  { intros t r i c Ht Hi. unfold points. by rewrite (Hs t r i Ht Hi). }
  intros [(i & c & Hi & Hp & Hx)|(p & c & Hp0 & Hp1 & Hx)].
  - apply (Hpt src 3%nat) in Hp; [|done|lia]. left. exists i, c. split; [done|]. split; [done|].
    apply (reaches_same m m' lv src cur); [done|done| |done]. exact (child_level m lv src cur src 2 i c Hwf Hr ltac:(lia) Hp).
  - apply (Hpt src 3%nat) in Hp0; [|done|lia]. pose proof (child_level m lv src cur src 2 0 p Hwf Hr ltac:(lia) Hp0) as Hp2.
    apply (Hpt p 2%nat) in Hp1; [|done|lia]. right. exists p, c. split; [done|]. split; [done|].
    apply (reaches_same m m' lv src cur); [done|done| |done]. exact (child_level m lv src cur p 1 1 c Hwf Hp2 ltac:(lia) Hp1).
Qed.

Lemma new_tree_ext m m' lv src cur n st :
  tree_wf m lv src cur -> (forall t r j, lv !! t = Some r -> 0 <= j < 512 -> read_pte m' t j = read_pte m t j) ->
  new_tree m' src n st -> new_tree m src n st.
Proof.
  intros Hwf Hs [H1 H2 H3]. destruct (tables_kept m m' lv src cur Hwf Hs) as [_ Ht]. constructor; [|done|].
  - intros a Ha. rewrite <- Ht. by apply H1.
  - intros x Hx. destruct (H3 x Hx) as [?|?]; [by left|right]. by eapply behind_same.
Qed.

Lemma new_tree_lower m src n n' st : n' <= n -> new_tree m src n st -> new_tree m src n' st.
Proof.
  intros Hn [H1 H2 H3]. constructor; [done| |].
  - intros va x Hva Hx. pose proof (H2 va x Hva Hx). lia.
  - intros x Hx. destruct (H3 x Hx); [left; lia|by right].
Qed.

(** A root with its first entry alone keeps it so. *)
Lemma root_entries_kept st st' lv lv' va :
  pt_inv st lv -> pt_inv st' lv' -> (forall t r, lv !! t = Some r -> lv' !! t = Some r) -> spread st st' lv lv' (eq va) -> index 3 va = 0 ->
  (forall j, 0 < j < 512 -> is_valid (read_pte (st_ram st) (pt_l0_pa (st_tree st)) j) = false) ->
  forall j, 0 < j < 512 -> is_valid (read_pte (st_ram st') (pt_l0_pa (st_tree st')) j) = false.
Proof.
  intros Hi Hi' Hl Hs Hva He j Hj. destruct (is_valid _) eqn:Hv; [|done].
  pose proof (tw_root _ _ _ _ (pi_tree _ _ Hi')) as Hr'. pose proof (tw_root _ _ _ _ (pi_tree _ _ Hi)) as Hr.
  destruct (tw_entry _ _ _ _ (pi_tree _ _ Hi') _ 3 j Hr' ltac:(lia) Hv) as [Ht _].
  destruct (sd_child _ _ _ _ _ Hs _ 2 j _ Hr' ltac:(lia) (conj Hv (conj Ht eq_refl))) as [[_ [Hv' _]]|[_ H]].
  - rewrite (sd_root _ _ _ _ _ Hs), He in Hv' by done. done.
  - rewrite (sd_root _ _ _ _ _ Hs) in H. destruct (H Hr) as (? & <- & E). lia.
Qed.

(** ** Side by side

    A tree keeps clear of the kernel's tables of [src] when no low address
    of it goes through one of them, which the tree of [src] itself does. *)
Definition clear_of (m : Ram) (src : Z) (st : PtState) : Prop :=
  forall va x, low_va va -> x ∈ tables_at st va -> ~ behind_kernel m src x.

Lemma own_clear st lv : pt_inv st lv -> clear_of (st_ram st) (pt_l0_pa (st_tree st)) st.
Proof. intros Hi va x Hva Hx. by eapply kernel_off_walk; [apply Hi|exact Hva|]. Qed.

Lemma walk_same m m' lv root cur r t va x :
  tree_wf m lv root cur -> (forall t r j, lv !! t = Some r -> 0 <= j < 512 -> read_pte m' t j = read_pte m t j) ->
  lv !! t = Some r -> x ∈ walk_tables m' r t va -> x ∈ walk_tables m r t va.
Proof.
  intros Hwf Hs. revert t. induction r as [|r IH]; intros t Ht [->|(r' & c & Hr & Hp & Hx)]%walk_tables_inv; try apply walk_tables_head; [done|].
  injection Hr as <-. pose proof (index_range (S r) va) as Hi.
  assert (Hp' : points m t (index (S r) va) c) by (unfold points in *; by rewrite <- (Hs t (S r) _ Ht Hi)).
  apply (walk_tables_step m r t va c); [done|]. apply IH; [|done]. exact (child_level m lv root cur t r _ c Hwf Ht Hi Hp').
Qed.

(** What is hung below low addresses later leaves a new tree one. *)
Section later.
Context (m : Ram) (src n : Z) (st st' : PtState) (lv lv' : Levels).
Context (Hi : pt_inv st lv) (Hi' : pt_inv st' lv') (Hs : spread st st' lv lv' low_va) (Hn : n <= next_free (st_phys st)).
Context (Hnew : new_tree m src n st).

Lemma new_tree_later :
  (forall t r, lv !! t = Some r -> lv' !! t = Some r) ->
  (forall a, 256 <= index 3 a -> translate_va st' a = translate_va st a) -> new_tree m src n st'.
Proof using All.
  intros Hl Hh. destruct Hnew as [H1 H2 H3]. constructor.
  - intros a Ha. rewrite Hh by done. by apply H1.
  - intros va x Hva Hx. destruct (spread_walk _ _ _ _ _ va x Hi Hi' Hs Hl Hx) as [H|H]; [by apply (H2 va)|lia].
  - intros x Hx. destruct (spread_reaches _ _ _ _ _ x Hi Hi' Hs Hl Hx) as [H|H]; [by apply H3|left; lia].
Qed.

(** Nothing below [n] changes. *)
Lemma new_tree_words t j :
  (forall t j, t mod 4096 = 0 -> 0 <= j < 512 -> t < next_free (st_phys st) -> lv !! t = None ->
    read_pte (st_ram st') t j = read_pte (st_ram st) t j) ->
  t mod 4096 = 0 -> 0 <= j < 512 -> t < n -> read_pte (st_ram st') t j = read_pte (st_ram st) t j.
Proof using Hn Hnew Hs.
  intros Hd Ht Hj Hlt. destruct (lv !! t) as [r|] eqn:Hl; [|apply Hd; done || lia].
  apply (sd_same _ _ _ _ _ Hs t r j Hl Hj). intros va Hva Hin. pose proof (nt_user _ _ _ _ Hnew va t Hva Hin). lia.
Qed.
End later.

(** A tree that was there before the new one. *)
Section older.
Context (src : Z) (p : Phys) (tr2 : PageTableTree) (lv2 lvp : Levels) (st : PtState).
Let n := next_free p.
Let other := mkPt tr2 p.
Let other' := mkPt tr2 (st_phys st).
Context (Hother : pt_inv other lv2) (Hp : phys_wf (st_phys st)) (Hn : n <= next_free (st_phys st)).
Context (Hwords : forall t j, t mod 4096 = 0 -> 0 <= j < 512 -> t < n -> read_pte (st_ram st) t j = read_pte (ram p) t j).
Context (Hnew : new_tree (ram p) src n st) (Hclear : clear_of (ram p) src other).

Lemma older_same root lv t r j : tree_wf (ram p) lv root n -> lv !! t = Some r -> 0 <= j < 512 ->
  read_pte (st_ram st) t j = read_pte (ram p) t j.
Proof using Hwords. intros Hwf Ht Hj. destruct (tw_table _ _ _ _ Hwf t r Ht) as (_ & Hm & _ & Hc). apply Hwords; [done|done|lia]. Qed.

Lemma older_inv : pt_inv other' lv2 /\ forall va, translate_va other' va = translate_va other va.
Proof using Hn Hother Hp Hwords.
  destruct Hother as [_ Ht Hr]. cbn [other st_tree] in *.
  destruct (tables_kept (ram p) (st_ram st) lv2 (pt_l0_pa tr2) n Ht) as [Htr Htv]; [intros t r j; exact (older_same _ _ t r j Ht)|].
  split; [constructor; [done| |done]|].
  - destruct Htr as [H1 H2 H3 H4]. constructor; [done| |done|done].
    intros t r Hl. destruct (H2 t r Hl) as (?&?&?&?). cbn [other' st_phys]. split_and!; [done..|lia].
  - intros va. unfold translate_va. cbn [st_tree other other']. destruct (pt_has_root tr2); [|done]. apply Htv.
Qed.

Lemma older_walk va x : x ∈ tables_at other' va -> x ∈ tables_at other va /\ x < n.
Proof using Hother Hwords.
  intros Hx. pose proof (pi_tree _ _ Hother) as Ht.
  assert (Hx' : x ∈ tables_at other va).
  { eapply (walk_same _ (st_ram st)); [exact Ht|intros t r j; exact (older_same _ _ t r j Ht)|apply Ht|exact Hx]. }
  split; [done|]. exact (table_of_below _ _ _ Hother (walk_reaches _ _ _ _ _ Hx')).
Qed.

Lemma older_table x : table_of other' x -> table_of other x /\ x < n.
Proof using Hother Hwords.
  intros Hx. pose proof (pi_tree _ _ Hother) as Ht.
  assert (H : table_of other x); [|split; [exact H|by apply (table_of_below other lv2)]].
  eapply (reaches_same _ (st_ram st)); [exact Ht|intros t r j; exact (older_same _ _ t r j Ht)|apply Ht|exact Hx].
Qed.

(** The two keep off each other. *)
Lemma new_off : keeps_off low_va st other'.
Proof using Hnew Hother Hwords.
  intros va x Hva Hin [_ Hx]%older_table. pose proof (nt_user _ _ _ _ Hnew va x Hva Hin). lia.
Qed.

Lemma old_off : keeps_off low_va other' st.
Proof using Hclear Hnew Hother Hwords.
  intros va x Hva [Hin Hlt]%older_walk Hx. destruct (nt_tables _ _ _ _ Hnew x Hx) as [?|Hb]; [lia|].
  by apply (Hclear va x Hva Hin).
Qed.

(** Others that were there keep off it as before. *)
Lemma older_off user tr3 : keeps_off user (mkPt tr3 p) other ->
  (forall va x, x ∈ tables_at (mkPt tr3 (st_phys st)) va -> x ∈ tables_at (mkPt tr3 p) va) ->
  keeps_off user (mkPt tr3 (st_phys st)) other'.
Proof using Hother Hwords. intros Hoff Hw va x Hva Hin%Hw [Hx _]%older_table. by apply (Hoff va x). Qed.

(** Both keep clear of the kernel's tables. *)
Lemma both_clear : tree_wf (ram p) lvp src n -> clear_of (st_ram st) src other' /\ clear_of (st_ram st) src st.
Proof using Hclear Hnew Hother Hwords.
  intros Hwf.
  assert (Hb : forall x, behind_kernel (st_ram st) src x -> behind_kernel (ram p) src x).
  { intros x. apply (behind_same _ _ lvp src n); [done|]. intros t r j. exact (older_same _ _ t r j Hwf). }
  split; intros va x Hva Hin Hx%Hb.
  - apply older_walk in Hin as [Hin _]. by apply (Hclear va x Hva Hin).
  - pose proof (nt_user _ _ _ _ Hnew va x Hva Hin).
    destruct (reaches_in _ _ _ _ 3 _ x Hwf (tw_root _ _ _ _ Hwf) (behind_reaches _ _ _ _ _ Hwf Hx)) as [r Hr].
    apply (tw_table _ _ _ _ Hwf) in Hr. lia.
Qed.
End older.
