(* ===== verification/Process.v ===== *)
(** * Process: the process table

    kernel/src/task/process.rs (the table and its slots), task/signals.rs and
    the calls of syscall/handlers/process.rs that work on them.  The static
    tables of the kernel are one record; references to a slot are its index.
    The current thread is known by its process.  [None] is a panic. *)
From Stdlib Require Import ZArith Lia.
From stdpp Require Import base tactics option list list_numbers gmap.
From S2P Require Import Prelude Shared Handles Pipe Phys Port Bytes PageTable Asid Vmar Mem Vmo UserCopy.
Local Open Scope Z_scope.

#[export] Instance Vmo_like : VmoLike Vmo.Vmo := {
  vmo_ident := vo_id; Handles.vmo_clone := Vmo.vmo_clone; vmo_clone_ident v := eq_refl }.

(** ** State *)
Inductive FdEntry := FdPipe (pipe : Z) (role : PipeRole).

#[export] Instance FdEntry_eq_dec : EqDecision FdEntry.
Proof. solve_decision. Defined.

Definition USER_FD_BASE : Z := 3.
Definition FD_TABLE_SIZE : nat := 16.
Definition CWD_MAX : nat := 128.
Definition INITIAL_CWD : list Z := [47].
Definition MAX_PROCESSES : nat := 8.

Inductive ProcessState := PInitial | PRunning | PZombie | PDead.

#[export] Instance ProcessState_eq_dec : EqDecision ProcessState.
Proof. solve_decision. Defined.

Definition process_state_u32 (s : ProcessState) : Z :=
  match s with PInitial => 0 | PRunning => 1 | PZombie => 2 | PDead => 3 end.

(** A [&'static str]: a literal, or a name slot with the length it had. *)
Inductive Name := NLit (bs : list Z) | NSlot (idx len : nat).

Abbreviation Handles := (list (option (@Slot Vmo.Vmo Vmar.Vmar Port.Port))).

Record Process := mkProcess {
  pr_id : Z;
  pr_name : Name;
  pr_state : ProcessState;
  pr_root_vmar : Vmar.Vmar;
  pr_handle_table : Handles;
  pr_thread_count : Z;
  pr_page_table : PageTableTree;
  pr_cwd : list Z;
  pr_cwd_len : nat;
  pr_fd_table : list (option FdEntry);
  pr_next_fd : Z;
  pr_exit_status : option Z;
  pr_parent_pid : Z;
  pr_sig_handlers : list Z;
  pr_pending_signals : Z;
  pr_asid : Z;
  pr_vmos : list Vmo.Vmo
}.

(** [PROCESSES], [PROCESS_ID_COUNTER], the identifiers, the page allocator,
    the pipes, the name slots and the process of the current thread. *)
Record Kern := mkKern {
  kn_procs : list (option Process);
  kn_next_pid : Z;
  kn_asids : Asids;
  kn_phys : Phys;
  kn_pipes : PipeTable;
  kn_names : list (list Z);
  kn_name_cursor : Z;
  kn_current : option Z
}.

Definition set_procs (k : Kern) (l : list (option Process)) : Kern :=
  mkKern l (kn_next_pid k) (kn_asids k) (kn_phys k) (kn_pipes k) (kn_names k) (kn_name_cursor k) (kn_current k).
Definition set_phys (k : Kern) (p : Phys) : Kern :=
  mkKern (kn_procs k) (kn_next_pid k) (kn_asids k) p (kn_pipes k) (kn_names k) (kn_name_cursor k) (kn_current k).
Definition set_pipe_table (k : Kern) (t : PipeTable) : Kern :=
  mkKern (kn_procs k) (kn_next_pid k) (kn_asids k) (kn_phys k) t (kn_names k) (kn_name_cursor k) (kn_current k).
(** The scheduler switches to a thread of process [t]. *)
Definition set_running (k : Kern) (t : option Z) : Kern :=
  mkKern (kn_procs k) (kn_next_pid k) (kn_asids k) (kn_phys k) (kn_pipes k) (kn_names k) (kn_name_cursor k) t.
Definition put_proc (k : Kern) (i : nat) (p : Process) : Kern := set_procs k (<[i := Some p]> (kn_procs k)).

Definition kern_ram (k : Kern) : Ram := ram (kn_phys k).
Definition set_kern_ram (k : Kern) (m : Ram) : Kern := set_phys k (with_ram (kn_phys k) m).

(** Fields changed one at a time. *)
Definition with_state (s : ProcessState) (e : option Z) (p : Process) : Process :=
  mkProcess (pr_id p) (pr_name p) s (pr_root_vmar p) (pr_handle_table p) (pr_thread_count p)
    (pr_page_table p) (pr_cwd p) (pr_cwd_len p) (pr_fd_table p) (pr_next_fd p) e (pr_parent_pid p)
    (pr_sig_handlers p) (pr_pending_signals p) (pr_asid p) (pr_vmos p).
Definition with_signals (h : list Z) (pending : Z) (p : Process) : Process :=
  mkProcess (pr_id p) (pr_name p) (pr_state p) (pr_root_vmar p) (pr_handle_table p) (pr_thread_count p)
    (pr_page_table p) (pr_cwd p) (pr_cwd_len p) (pr_fd_table p) (pr_next_fd p) (pr_exit_status p)
    (pr_parent_pid p) h pending (pr_asid p) (pr_vmos p).
Definition with_fds (t : list (option FdEntry)) (n : Z) (p : Process) : Process :=
  mkProcess (pr_id p) (pr_name p) (pr_state p) (pr_root_vmar p) (pr_handle_table p) (pr_thread_count p)
    (pr_page_table p) (pr_cwd p) (pr_cwd_len p) t n (pr_exit_status p) (pr_parent_pid p)
    (pr_sig_handlers p) (pr_pending_signals p) (pr_asid p) (pr_vmos p).
Definition with_cwd (bs : list Z) (n : nat) (p : Process) : Process :=
  mkProcess (pr_id p) (pr_name p) (pr_state p) (pr_root_vmar p) (pr_handle_table p) (pr_thread_count p)
    (pr_page_table p) bs n (pr_fd_table p) (pr_next_fd p) (pr_exit_status p) (pr_parent_pid p)
    (pr_sig_handlers p) (pr_pending_signals p) (pr_asid p) (pr_vmos p).
Definition with_threads (n : Z) (p : Process) : Process :=
  mkProcess (pr_id p) (pr_name p) (pr_state p) (pr_root_vmar p) (pr_handle_table p) n (pr_page_table p)
    (pr_cwd p) (pr_cwd_len p) (pr_fd_table p) (pr_next_fd p) (pr_exit_status p) (pr_parent_pid p)
    (pr_sig_handlers p) (pr_pending_signals p) (pr_asid p) (pr_vmos p).
Definition with_space (v : Vmar.Vmar) (t : PageTableTree) (p : Process) : Process :=
  mkProcess (pr_id p) (pr_name p) (pr_state p) v (pr_handle_table p) (pr_thread_count p) t (pr_cwd p)
    (pr_cwd_len p) (pr_fd_table p) (pr_next_fd p) (pr_exit_status p) (pr_parent_pid p)
    (pr_sig_handlers p) (pr_pending_signals p) (pr_asid p) (pr_vmos p).
Definition with_parent (pid : Z) (p : Process) : Process :=
  mkProcess (pr_id p) (pr_name p) (pr_state p) (pr_root_vmar p) (pr_handle_table p) (pr_thread_count p)
    (pr_page_table p) (pr_cwd p) (pr_cwd_len p) (pr_fd_table p) (pr_next_fd p) (pr_exit_status p) pid
    (pr_sig_handlers p) (pr_pending_signals p) (pr_asid p) (pr_vmos p).
Definition with_handles (t : Handles) (p : Process) : Process :=
  mkProcess (pr_id p) (pr_name p) (pr_state p) (pr_root_vmar p) t (pr_thread_count p) (pr_page_table p)
    (pr_cwd p) (pr_cwd_len p) (pr_fd_table p) (pr_next_fd p) (pr_exit_status p) (pr_parent_pid p)
    (pr_sig_handlers p) (pr_pending_signals p) (pr_asid p) (pr_vmos p).

(** ** The table *)
Definition no_fds : list (option FdEntry) := replicate FD_TABLE_SIZE None.

Definition process_new_dummy : Process :=
  mkProcess 0 (NLit []) PInitial vmar_new_dummy [] 0 tree_new (replicate CWD_MAX 0) 0 no_fds USER_FD_BASE
    None 0 (replicate 32 0) 0 ASID_KERNEL [].

Definition initial_cwd : list Z := INITIAL_CWD ++ replicate (CWD_MAX - length INITIAL_CWD) 0.

(** [init_in_place].  The page of the handle table is taken with [expect]. *)
Definition init_in_place (name : Name) (k : Kern) : option (kresult Process * Kern) :=
  match vmar_create 0 (256 * 1024 * 1024) (kn_phys k) with
  | None => None
  | Some (Err e, ph) => Some (Err e, set_phys k ph)
  | Some (Ok vmar, ph) =>
      match alloc_kheap_page ph with
      | Some (Ok _, ph') =>
          let '(asid, s) := asid_alloc (kn_asids k) in
          Some (Ok (mkProcess (kn_next_pid k) name PInitial vmar ht_new 0 tree_new initial_cwd
                      (length INITIAL_CWD) no_fds USER_FD_BASE None 0 (replicate 32 0) 0
                      (default ASID_KERNEL asid) []),
                mkKern (kn_procs k) (u64w (kn_next_pid k + 1)) s ph' (kn_pipes k) (kn_names k)
                  (kn_name_cursor k) (kn_current k))
      | _ => None
      end
  end.

(** The index of the slot taken.  The slot is filled before the rest is
    known to succeed. *)
Definition allocate_process (name : Name) (k : Kern) : option (kresult nat * Kern) :=
  match first_free (kn_procs k) with
  | None => Some (Err NoMemory, k)
  | Some i =>
      match init_in_place name (put_proc k i process_new_dummy) with
      | None => None
      | Some (Err e, k') => Some (Err e, k')
      | Some (Ok p, k') => Some (Ok i, put_proc k' i p)
      end
  end.

Definition find_process (id : Z) (l : list (option Process)) : option (nat * Process) :=
  i ← find_slot (fun p => pr_id p =? id) l;
  match l !! i with Some (Some p) => Some (i, p) | _ => None end.

Definition find_process_l0_user_pa (id : Z) (l : list (option Process)) : option (Z * Z) :=
  i ← find_slot (fun p => (pr_id p =? id) && pt_has_root (pr_page_table p)) l;
  match l !! i with Some (Some p) => Some (pt_l0_pa (pr_page_table p), pr_asid p) | _ => None end.

Definition find_process_page_table_gen (id : Z) (l : list (option Process)) : option Z :=
  '(_, p) ← find_process id l; Some (pt_generation (pr_page_table p)).

Definition add_thread (p : Process) : Process := with_threads (u64w (pr_thread_count p + 1)) p.
Definition remove_thread (p : Process) : Process :=
  if 0 <? pr_thread_count p then with_threads (pr_thread_count p - 1) p else p.

(** Dropping a process: [Drop for Process] frees the page tables, then the
    fields go.  The handle table has no destructor: its objects stay. *)
Definition drop_process (p : Process) (ph : Phys) : option Phys :=
  st ← free_tree (mkPt (pr_page_table p) ph);
  drop_pages (vr_meta (pr_root_vmar p) :: concat (map owned_pages (pr_vmos p))) (st_phys st).

Definition current_process_id (k : Kern) : kresult Z := ok_or NotFound (kn_current k).

(** The slot of the calling process. *)
Definition caller (k : Kern) : kresult (nat * Process) :=
  pid ← current_process_id k; ok_or NotFound (find_process pid (kn_procs k)).

Definition current_process_l0_pa (k : Kern) : Z :=
  match kn_current k with
  | None => 0
  | Some pid => match find_process pid (kn_procs k) with
                | Some (_, p) => pt_l0_pa (pr_page_table p) | None => 0 end
  end.

(** [current_l0_pa] of syscall/validation.rs, the last argument of the checks
    of UserCopy.v. *)
Definition current_l0_pa (k : Kern) : kresult Z :=
  pid ← current_process_id k;
  if pid =? 0 then Err ProcessNotFound
  else '(_, p) ← ok_or ProcessNotFound (find_process pid (kn_procs k)); Ok (pt_l0_pa (pr_page_table p)).

(** ** Names *)
Definition NAME_SLOT_COUNT : nat := 8.
Definition NAME_SLOT_CAP : nat := 128.

Definition intern_name (name : list Z) (k : Kern) : kresult Name * Kern :=
  if (NAME_SLOT_CAP <=? length name)%nat then (Err InvalidArgs, k)
  else
    let idx := Z.to_nat (kn_name_cursor k mod Z.of_nat NAME_SLOT_COUNT) in
    (Ok (NSlot idx (length name)),
     mkKern (kn_procs k) (kn_next_pid k) (kn_asids k) (kn_phys k) (kn_pipes k)
       (alter (fun slot => put 0 name slot) idx (kn_names k)) (u64w (kn_name_cursor k + 1)) (kn_current k)).

(** The bytes a name shows now. *)
Definition name_bytes (k : Kern) (n : Name) : list Z :=
  match n with
  | NLit bs => bs
  | NSlot idx len => take len (default [] (kn_names k !! idx))
  end.
