(* ===== verification/ProcCalls.v ===== *)
(** * ProcCalls: signals, waiting and process management

    kernel/src/task/signals.rs and the calls of
    kernel/src/syscall/handlers/process.rs that read or change the process
    table of Process.v: signals, wait4, proc_mgmt, the working directory.
    [None] is a panic of the kernel. *)
From Stdlib Require Import ZArith Lia.
From stdpp Require Import base tactics option list list_numbers gmap.
From S2P Require Import Prelude Shared Handles Pipe Phys Port Bytes PageTable Asid Vmar Mem Vmo UserCopy Process.
Local Open Scope Z_scope.

(** ** Signals *)
Definition SIG_DFL : Z := 0.
Definition SIG_IGN : Z := 1.
Definition NSIG : Z := 32.
Definition SIG_DFL_KILL_EXIT : Z := -1.

Definition sig_ok (sig : Z) : bool := negb ((sig =? 0) || (NSIG <? sig)).

Definition sig_to_bit (sig : Z) : kresult Z :=
  if sig_ok sig then Ok (u32w (Z.shiftl 1 (sig - 1))) else Err InvalidArgs.

Definition sigaction_set (k : Kern) (sig handler : Z) : option (kresult Z * Kern) :=
  if negb (sig_ok sig) then Some (Err InvalidArgs, k)
  else if negb (handler =? SIG_DFL) && negb (handler =? SIG_IGN) then Some (Err InvalidArgs, k)
  else
    match caller k with
    | Err e => Some (Err e, k)
    | Ok (i, p) =>
        match at_z (pr_sig_handlers p) (sig - 1) with
        | None => None
        | Some prev =>
            Some (Ok prev,
                  put_proc k i (with_signals (set_z (sig - 1) (u8w handler) (pr_sig_handlers p))
                                  (pr_pending_signals p) p))
        end
    end.

Definition signal_send (k : Kern) (target_pid sig : Z) : kresult unit * Kern :=
  match sig_to_bit sig with
  | Err e => (Err e, k)
  | Ok bit =>
      match find_process target_pid (kn_procs k) with
      | None => (Err NotFound, k)
      | Some (i, p) =>
          (Ok tt, put_proc k i (with_signals (pr_sig_handlers p) (Z.lor (pr_pending_signals p) bit) p))
      end
  end.

Definition raise (k : Kern) (sig : Z) : kresult unit * Kern :=
  if negb (sig_ok sig) then (Err InvalidArgs, k)
  else match current_process_id k with Err e => (Err e, k) | Ok pid => signal_send k pid sig end.

(** The scan of [dispatch_pending] over the signals [ns]: [pending] is the
    word read at the start, the process is changed in place. *)
Fixpoint deliver (ns : list Z) (pending : Z) (p : Process) : option (bool * Process) :=
  match ns with
  | [] => Some (false, p)
  | n :: ns =>
      let bit := u32w (Z.shiftl 1 (n - 1)) in
      if Z.land pending bit =? 0 then deliver ns pending p
      else
        match at_z (pr_sig_handlers p) (n - 1) with
        | None => None
        | Some disposition =>
            let p := with_signals (pr_sig_handlers p) (Z.ldiff (pr_pending_signals p) bit) p in
            if disposition =? SIG_IGN then deliver ns pending p
            else Some (true, with_signals (pr_sig_handlers p) 0
                               (with_state PZombie (Some SIG_DFL_KILL_EXIT) p))
        end
  end.

Definition dispatch_pending (k : Kern) (caller_pid : Z) : option (kresult bool * Kern) :=
  match find_process caller_pid (kn_procs k) with
  | None => Some (Err NotFound, k)
  | Some (i, p) =>
      if pr_pending_signals p =? 0 then Some (Ok false, k)
      else
        match deliver (seqZ 1 NSIG) (pr_pending_signals p) p with
        | None => None
        | Some (b, p') => Some (Ok b, put_proc k i p')
        end
  end.

Definition reset_disposition (k : Kern) (target_pid : Z) : Kern :=
  match find_process target_pid (kn_procs k) with
  | Some (i, p) => put_proc k i (with_signals (replicate 32 0) 0 p)
  | None => k
  end.

Definition sys_sigaction (k : Kern) (sig sa_handler : Z) : option (kresult Z * Kern) :=
  sigaction_set k sig sa_handler.

Definition sys_raise (k : Kern) (sig : Z) : kresult unit * Kern :=
  match raise k sig with
  | (Err e, k) => (Err e, k)
  | (Ok _, k) =>
      match current_process_id k with
      | Err e => (Err e, k)
      | Ok pid =>
          match find_process pid (kn_procs k) with
          | Some (_, p) => if decide (pr_state p = PZombie) then (Err NotAllowed, k) else (Ok tt, k)
          | None => (Ok tt, k)
          end
      end
  end.

(** The broadcast of [sys_kill] with pid 0 over the slots from [i] on: the
    table is read slot by slot while signals are sent. *)
Fixpoint broadcast (n i : nat) (k : Kern) (caller_pid sig : Z) (count : nat) : kresult nat * Kern :=
  match n with
  | O => (Ok count, k)
  | S n =>
      match kn_procs k !! i with
      | Some (Some p) =>
          if pr_parent_pid p =? caller_pid then
            match signal_send k (pr_id p) sig with
            | (Err e, k) => (Err e, k)
            | (Ok _, k) => broadcast n (S i) k caller_pid sig (S count)
            end
          else broadcast n (S i) k caller_pid sig count
      | _ => broadcast n (S i) k caller_pid sig count
      end
  end.

(** [pid] is an [i64]. *)
Definition sys_kill (k : Kern) (pid sig : Z) : kresult unit * Kern :=
  match current_process_id k with
  | Err e => (Err e, k)
  | Ok caller_pid =>
      if pid <? 0 then (Err InvalidArgs, k)
      else if pid =? 0 then
        match broadcast (length (kn_procs k)) 0 k caller_pid sig 0 with
        | (Err e, k) => (Err e, k)
        | (Ok O, k) => (Err NotFound, k)
        | (Ok _, k) => (Ok tt, k)
        end
      else if negb (pid =? caller_pid) then
        match find_process pid (kn_procs k) with
        | None => (Err NotFound, k)
        | Some (_, target) =>
            if negb (pr_parent_pid target =? caller_pid) then (Err AccessDenied, k)
            else signal_send k pid sig
        end
      else signal_send k pid sig
  end.

(** [sys_pause].  What runs during the [n]-th call of the scheduler is
    [sched n]; [counter] only counts the rounds that saw nothing pending. *)
Fixpoint pause_loop (fuel : nat) (sched : nat -> Kern -> Kern) (n : nat) (counter caller_pid : Z) (k : Kern) :
    exec (kresult unit * Kern) :=
  match fuel with
  | O => Running
  | S fuel =>
      match find_process caller_pid (kn_procs k) with
      | None => Ret (Err NotFound, k)
      | Some (_, p) =>
          if decide (pr_state p = PZombie) then Ret (Ok tt, k)
          else if pr_pending_signals p =? 0 then
            let counter := u32w (counter + 1) in
            let k := sched n k in
            if 10000 <? counter then Ret (Err TimedOut, k)
            else pause_loop fuel sched (S n) counter caller_pid k
          else
            match dispatch_pending k caller_pid with
            | None => Panics
            | Some (Err e, k) => Ret (Err e, k)
            | Some (Ok true, k) => Ret (Ok tt, k)
            | Some (Ok false, k) => pause_loop fuel sched (S n) counter caller_pid (sched n k)
            end
      end
  end.

Definition sys_pause (fuel : nat) (sched : nat -> Kern -> Kern) (k : Kern) : exec (kresult unit * Kern) :=
  match current_process_id k with
  | Err e => Ret (Err e, k)
  | Ok pid => pause_loop fuel sched 0 0 pid k
  end.

(** ** Waiting *)
Definition reapable (p : Process) : bool :=
  match pr_exit_status p with Some _ => bool_decide (pr_state p = PZombie) | None => false end.

(** The filter of the scans: a direct child, and the one asked for when
    [pid] is positive. *)
Definition wait_match (caller_pid pid : Z) (p : Process) : bool :=
  (pr_parent_pid p =? caller_pid) && (if 0 <? pid then pr_id p =? u64w pid else true).

(** The scan of [sys_wait4]: the child to reap or the last running one. *)
Fixpoint wait_scan (caller_pid pid : Z) (i : nat) (l : list (option Process)) (running : option Z) :
    option (nat * Process) * option Z :=
  match l with
  | [] => (None, running)
  | Some p :: l =>
      if wait_match caller_pid pid p then
        if reapable p then (Some (i, p), running)
        else wait_scan caller_pid pid (S i) l (Some (pr_id p))
      else wait_scan caller_pid pid (S i) l running
  | None :: l => wait_scan caller_pid pid (S i) l running
  end.

(** A copy whose error is ignored. *)
Definition copy_out_ok (m : Ram) (l0_pa : Z) (src : list Z) (dest : Z) : option Ram :=
  '(_, m) ← safe_copy_to_user m l0_pa src dest; Some m.

(** [take] of the slot, then the drop of the process. *)
Definition reap (k : Kern) (i : nat) : option Kern :=
  match kn_procs k !! i with
  | Some (Some p) =>
      ph ← drop_process (with_threads 0 (with_state PDead None p)) (kn_phys k);
      Some (set_phys (set_procs k (<[i := None]> (kn_procs k))) ph)
  | Some None => Some k
  | None => None
  end.

Definition sys_wait4 (k : Kern) (pid status_out_ptr : Z) : option (kresult Z * Kern) :=
  match current_process_id k with
  | Err e => Some (Err e, k)
  | Ok caller_pid =>
      if pid <? -1 then Some (Err InvalidArgs, k)
      else
        match wait_scan caller_pid pid 0 (kn_procs k) None with
        | (Some (i, p), _) =>
            let code := default 0 (pr_exit_status p) in
            m ← (if negb (status_out_ptr =? 0)
                 then copy_out_ok (kern_ram k)
                        match find_process caller_pid (kn_procs k) with
                        | Some (_, c) => pt_l0_pa (pr_page_table c) | None => 0 end
                        (le 4 (u32w code)) status_out_ptr
                 else Some (kern_ram k));
            k ← reap (set_kern_ram k m) i;
            Some (Ok (pr_id p), k)
        | (None, Some _) => Some (Err TryAgain, k)
        | (None, None) => Some (Err NotFound, k)
        end
  end.

(** ** Process management *)
Definition PROC_MGMT_CREATE : Z := 0.
Definition PROC_MGMT_EXIT : Z := 1.
Definition PROC_MGMT_WAIT : Z := 2.
Definition PROC_MGMT_LIST : Z := 3.
Definition PROC_MGMT_RELEASE_PT : Z := 4.

Definition mark_process_zombie (k : Kern) (pid exit_code : Z) : Kern :=
  match find_process pid (kn_procs k) with
  | Some (i, p) => put_proc k i (with_state PZombie (Some exit_code) p)
  | None => k
  end.

(** *** A page-table tree freed from its root *)
Definition free_table (p : Phys) (pa : Z) : option Phys := '(_, p) ← free_page p pa; Some p.

(** The entries [0..n] of the table at [pa] that point to a table. *)
Fixpoint free_entries (f : Phys -> Z -> option Phys) (idxs : list nat) (pa : Z) (p : Phys) : option Phys :=
  match idxs with
  | [] => Some p
  | i :: idxs =>
      let e := read_pte (ram p) pa (Z.of_nat i) in
      if (Z.land e 1 =? 0) || (Z.land e 2 =? 0) then free_entries f idxs pa p
      else p ← f p (Z.land e ADDR_MASK); free_entries f idxs pa p
  end.

Definition free_l2 (p : Phys) (pa : Z) : option Phys :=
  p ← free_entries free_table (seq 0 512) pa p; free_table p pa.
Definition free_l1 (p : Phys) (pa : Z) : option Phys :=
  p ← free_entries free_l2 (seq 0 512) pa p; free_table p pa.
Definition free_page_table_tree (p : Phys) (l0_pa : Z) : option Phys :=
  p ← free_entries free_l1 (seq 0 256) l0_pa p; free_table p l0_pa.

(** *** The process list *)
Record ProcListEntry := mkEntry { le_pid : Z; le_parent_pid : Z; le_state : Z; le_name : list Z }.

(** The name is cut at 112 bytes and its place has 108. *)
Definition serialize (e : ProcListEntry) : option (list Z) :=
  let buf := put 16 (le 4 (le_state e)) (put 8 (le 8 (le_parent_pid e))
               (put 0 (le 8 (le_pid e)) (replicate 128 0))) in
  let name_len := Nat.min (length (le_name e)) 112 in
  _ ← slice buf 20 (20 + name_len);
  Some (put 20 (take name_len (le_name e)) buf).

Definition list_entry (k : Kern) (p : Process) : ProcListEntry :=
  mkEntry (pr_id p) (pr_parent_pid p) (process_state_u32 (pr_state p)) (name_bytes k (pr_name p)).

Fixpoint list_loop (k : Kern) (l : list Process) (buf_ptr max l0_pa count : Z) (m : Ram) : option (Z * Ram) :=
  match l with
  | [] => Some (count, m)
  | p :: l =>
      if max <=? count then Some (count, m)
      else
        bs ← serialize (list_entry k p);
        m ← copy_out_ok m l0_pa bs (u64w (buf_ptr + u64w (count * 128)));
        list_loop k l buf_ptr max l0_pa (count + 1) m
  end.

(** [PROC_MGMT_CREATE] reads 63 bytes of name whatever its length. *)
Definition proc_create (k : Kern) (parent_pid name_ptr l0_pa : Z) : option (kresult Z * Kern) :=
  if name_ptr =? 0 then Some (Err InvalidArgs, k)
  else
    r ← safe_copy_from_user (kern_ram k) (current_process_l0_pa k) name_ptr 63;
    match r with
    | Err _ => Some (Err InvalidArgs, k)
    | Ok buf =>
        let name := until_nul buf in
        if negb (utf8_valid name) then Some (Err InvalidArgs, k)
        else
          match intern_name name k with
          | (Err e, k) => Some (Err e, k)
          | (Ok nm, k) =>
              if (l0_pa =? 0) || negb (l0_pa mod 4096 =? 0) then Some (Err InvalidArgs, k)
              else
                '(r, k) ← allocate_process nm k;
                match r with
                | Err e => Some (Err e, k)
                | Ok i =>
                    match kn_procs k !! i with
                    | Some (Some p) =>
                        let st := set_root_raw l0_pa (mkPt (pr_page_table p) (kn_phys k)) in
                        let p' := with_space (pr_root_vmar p) (st_tree st) (with_parent parent_pid p) in
                        Some (Ok (pr_id p), put_proc (set_phys k (st_phys st)) i p')
                    | _ => None
                    end
                end
          end
    end.

Definition proc_exit (k : Kern) (pid exit_code : Z) : kresult Z * Kern :=
  match find_process pid (kn_procs k) with
  | Some _ => (Ok 0, mark_process_zombie k pid exit_code)
  | None => (Err NotFound, k)
  end.

Definition proc_wait (k : Kern) (target_pid : Z) : option (kresult Z * Kern) :=
  match current_process_id k with
  | Err e => Some (Err e, k)
  | Ok caller_pid =>
      match find_slot (fun p => wait_match caller_pid target_pid p && reapable p) (kn_procs k) with
      | None => Some (Err TryAgain, k)
      | Some i =>
          match kn_procs k !! i with
          | Some (Some p) =>
              let code := default 0 (pr_exit_status p) in
              k ← reap k i; Some (Ok (u32w code), k)
          | _ => None
          end
      end
  end.

Definition proc_list (k : Kern) (buf_ptr max : Z) : option (kresult Z * Kern) :=
  if (buf_ptr =? 0) || (max =? 0) then Some (Err InvalidArgs, k)
  else
    '(count, m) ← list_loop k (live (kn_procs k)) buf_ptr max (current_process_l0_pa k) 0 (kern_ram k);
    Some (Ok count, set_kern_ram k m).

Definition proc_release_pt (k : Kern) (l0_pa : Z) : option (kresult Z * Kern) :=
  if (l0_pa =? 0) || negb (l0_pa mod 4096 =? 0) then Some (Err InvalidArgs, k)
  else p ← free_page_table_tree (kn_phys k) l0_pa; Some (Ok 0, set_phys k p).

Definition sys_proc_mgmt (k : Kern) (cmd arg1 arg2 arg3 : Z) : option (kresult Z * Kern) :=
  if cmd =? PROC_MGMT_CREATE then proc_create k arg1 arg2 arg3
  else if cmd =? PROC_MGMT_EXIT then Some (proc_exit k arg1 (i32w arg2))
  else if cmd =? PROC_MGMT_WAIT then proc_wait k (i64w arg1)
  else if cmd =? PROC_MGMT_LIST then proc_list k arg1 arg2
  else if cmd =? PROC_MGMT_RELEASE_PT then proc_release_pt k arg1
  else Some (Err NotAllowed, k).

(** ** Identity and working directory *)
Definition sys_getpid (k : Kern) : kresult Z := current_process_id k.

Definition sys_getppid (k : Kern) : kresult Z := '(_, p) ← caller k; Ok (pr_parent_pid p).

Definition sys_getcwd (k : Kern) (buf_ptr buf_len : Z) : option (kresult Z * Kern) :=
  if buf_ptr =? 0 then Some (Err InvalidArgs, k)
  else
    match caller k with
    | Err e => Some (Err e, k)
    | Ok (_, p) =>
        let copy_len := Z.min (Z.of_nat (pr_cwd_len p)) buf_len in
        if copy_len =? 0 then Some (Ok 0, k)
        else
          let l0_pa := pt_l0_pa (pr_page_table p) in
          if l0_pa =? 0 then Some (Err InvalidArgs, k)
          else
            bs ← slice (pr_cwd p) 0 (Z.to_nat copy_len);
            '(r, m) ← safe_copy_to_user (kern_ram k) l0_pa bs buf_ptr;
            Some (_ ← r; Ok copy_len, set_kern_ram k m)
    end.

Definition sys_chdir (k : Kern) (path_ptr path_len : Z) : option (kresult Z * Kern) :=
  if (path_ptr =? 0) || (path_len =? 0) then Some (Err InvalidArgs, k)
  else
    match caller k with
    | Err e => Some (Err e, k)
    | Ok (i, p) =>
        let copy_len := Z.min path_len (Z.of_nat (length (pr_cwd p))) in
        let l0_pa := pt_l0_pa (pr_page_table p) in
        if l0_pa =? 0 then Some (Err InvalidArgs, k)
        else
          r ← safe_copy_from_user (kern_ram k) l0_pa path_ptr copy_len;
          match r with
          | Err e => Some (Err e, k)
          | Ok bs => Some (Ok 0, put_proc k i (with_cwd (put 0 bs (pr_cwd p)) (Z.to_nat copy_len) p))
          end
    end.

(** [sys_process_create]: the name passed in is not used; [hc] is the
    counter of handle values. *)
Definition sys_process_create (k : Kern) (hc : Z) (table : Handles) : option (kresult Z * Z * Handles * Kern) :=
  '(r, k) ← allocate_process (NLit [117; 115; 101; 114; 45; 112; 114; 111; 99]) k;
  match r with
  | Err e => Some (Err e, hc, table, k)
  | Ok i =>
      match kn_procs k !! i with
      | Some (Some p) =>
          let '(h, hc, table) := ht_add hc table (KProcess (pr_id p)) (Z.lor RIGHT_READ RIGHT_WRITE) in
          Some (h, hc, table, k)
      | _ => None
      end
  end.

(** ** Lemmas *)
Lemma find_process_Some id l i p :
  find_process id l = Some (i, p) -> l !! i = Some (Some p) /\ pr_id p = id.
Proof.
  unfold find_process. intros (j & Hj & H)%bind_Some.
  apply find_slot_Some in Hj as (q & Hq & Hid & _). rewrite Hq in H. injection H as <- <-.
  split; [done|]. by apply Z.eqb_eq in Hid.
Qed.

Lemma find_process_None id l :
  find_process id l = None <-> (forall i p, l !! i = Some (Some p) -> pr_id p <> id).
Proof.
  unfold find_process. destruct (find_slot _ l) as [i|] eqn:E; cbn.
  - apply find_slot_Some in E as (p & Hp & Hid & _). rewrite Hp. apply Z.eqb_eq in Hid.
    split; [done|]. intros H. by destruct (H i p Hp).
  - split; [|done]. intros _ i p Hp. apply Z.eqb_neq. exact (proj1 (find_slot_None _ _) E i p Hp).
Qed.

Lemma find_process_update id l i p q :
  find_process id l = Some (i, p) -> pr_id q = pr_id p -> find_process id (<[i := Some q]> l) = Some (i, q).
Proof.
  intros H Hid. pose proof (find_process_Some _ _ _ _ H) as [Hi Hp]. revert H. unfold find_process.
  intros (j & Hj & H)%bind_Some. assert (j = i) as ->.
  { destruct (l !! j) as [[r|]|]; try done. by injection H. }
  pose proof (lookup_lt_Some _ _ _ Hi) as Hlt.
  assert (Hq : find_slot (fun p => pr_id p =? id) (<[i := Some q]> l) = Some i).
  { unfold find_slot in *. apply find_index_Some in Hj as [_ Hlow]. apply find_index_Some. split.
    - exists (Some q). rewrite list_lookup_insert_eq by done. split; [done|]. apply Z.eqb_eq. congruence.
    - intros m s Hm Hs. rewrite list_lookup_insert_ne in Hs by lia. by apply (Hlow m). }
  rewrite Hq. cbn. by rewrite list_lookup_insert_eq.
Qed.

Lemma caller_Ok k i p :
  caller k = Ok (i, p) ->
  kn_current k = Some (pr_id p) /\ find_process (pr_id p) (kn_procs k) = Some (i, p).
Proof.
  unfold caller, current_process_id. intros (pid & Hc & H)%result_bind_Ok.
  apply ok_or_Ok in Hc, H. by pose proof (find_process_Some _ _ _ _ H) as [_ ->].
Qed.

(** Everything but the process table, the pages and the pipes. *)
Lemma put_proc_lookup k i p j :
  (i < length (kn_procs k))%nat ->
  kn_procs (put_proc k i p) !! j = if decide (j = i) then Some (Some p) else kn_procs k !! j.
Proof.
  intros Hi. cbn. case_decide; [subst; by apply list_lookup_insert_eq|by apply list_lookup_insert_ne].
Qed.

(** *** Well-formed tables

    Identifiers below the counter, each one given out once (0 is the mark of a
    slot whose process was never completed: such a record is nobody's child), and the fixed-size fields of
    every process. *)
Record proc_ok (next : Z) (p : Process) : Prop := {
  ok_id : 0 <= pr_id p < next;
  ok_handlers : length (pr_sig_handlers p) = 32%nat;
  ok_disposition : Forall (fun h => h = SIG_DFL \/ h = SIG_IGN) (pr_sig_handlers p);
  ok_pending : 0 <= pr_pending_signals p < 2 ^ 32;
  ok_cwd : length (pr_cwd p) = CWD_MAX /\ (pr_cwd_len p <= CWD_MAX)%nat;
  ok_zombie : pr_state p = PZombie -> is_Some (pr_exit_status p);
  ok_blank : pr_id p = 0 -> pr_parent_pid p = 0
}.

Record procs_wf (k : Kern) : Prop := {
  wf_slots : length (kn_procs k) = MAX_PROCESSES;
  wf_proc i p : kn_procs k !! i = Some (Some p) -> proc_ok (kn_next_pid k) p;
  wf_unique i j p q :
    kn_procs k !! i = Some (Some p) -> kn_procs k !! j = Some (Some q) ->
    pr_id p = pr_id q -> pr_id p <> 0 -> i = j;
  wf_next : 0 < kn_next_pid k
}.

Lemma put_proc_wf k i p q :
  procs_wf k -> kn_procs k !! i = Some (Some p) -> pr_id q = pr_id p ->
  proc_ok (kn_next_pid k) q -> procs_wf (put_proc k i q).
Proof.
  intros H Hi Hid Hq. pose proof (lookup_lt_Some _ _ _ Hi) as Hlt.
  assert (Hget : forall j r, kn_procs (put_proc k i q) !! j = Some (Some r) ->
            exists r', kn_procs k !! j = Some (Some r') /\ pr_id r = pr_id r').
  { intros j r Hr. rewrite put_proc_lookup in Hr by done. case_decide as Hd.
    - injection Hr as <-. exists p. by rewrite Hd.
    - by exists r. }
  constructor; [cbn; rewrite length_insert; apply H| |intros a b|apply H].
  - intros j r Hr. rewrite put_proc_lookup in Hr by done. case_decide.
    + injection Hr as <-. exact Hq.
    + by apply (wf_proc _ H j).
  - intros r1 r2 (s1 & Hs1 & ->)%Hget (s2 & Hs2 & ->)%Hget. exact (wf_unique _ H a b s1 s2 Hs1 Hs2).
Qed.

Lemma set_phys_wf k p : procs_wf k -> procs_wf (set_phys k p).
Proof. intros []. by constructor. Qed.

Lemma take_proc_wf k i : procs_wf k -> procs_wf (set_procs k (<[i := None]> (kn_procs k))).
Proof.
  intros H.
  assert (Hget : forall j r, <[i := None]> (kn_procs k) !! j = Some (Some r) ->
            kn_procs k !! j = Some (Some r)).
  { intros j r Hr. apply list_lookup_insert_Some in Hr as [(_ & [=] & _)|[_ Hr]]. done. }
  constructor; cbn; [by rewrite length_insert; apply H| | |apply H].
  - intros j r Hr%Hget. by apply (wf_proc _ H j).
  - intros a b r1 r2 H1%Hget H2%Hget. by apply (wf_unique _ H).
Qed.

(** A change of one process that [find_process] names. *)
Lemma update_found_wf k id i p q :
  procs_wf k -> find_process id (kn_procs k) = Some (i, p) -> pr_id q = pr_id p ->
  proc_ok (kn_next_pid k) q -> procs_wf (put_proc k i q).
Proof. intros H [Hi _]%find_process_Some. by apply put_proc_wf. Qed.

Lemma found_ok k id i p : procs_wf k -> find_process id (kn_procs k) = Some (i, p) -> proc_ok (kn_next_pid k) p.
Proof. intros H [Hi _]%find_process_Some. exact (wf_proc _ H i p Hi). Qed.

Lemma sig_ok_range sig : sig_ok sig = true -> 0 <= sig -> 1 <= sig <= 32.
Proof. unfold sig_ok, NSIG. intros H ?. reflect. lia. Qed.

Lemma sig_bit n : 1 <= n <= 32 -> u32w (Z.shiftl 1 (n - 1)) = 2 ^ (n - 1).
Proof.
  intros Hn. rewrite Z.shiftl_mul_pow2, Z.mul_1_l by lia. apply u32w_small. split; [lia|].
  apply Z.pow_lt_mono_r; lia.
Qed.

Lemma lor_lt a b n : 0 <= n -> 0 <= a < 2 ^ n -> 0 <= b < 2 ^ n -> 0 <= Z.lor a b < 2 ^ n.
Proof.
  intros Hn Ha Hb. replace (Z.lor a b) with (Z.lor a b mod 2 ^ n); [apply Z.mod_pos_bound; lia|].
  rewrite <- Z.land_ones, Z.land_lor_distr_l, !Z.land_ones, !Z.mod_small by lia. done.
Qed.

Lemma ldiff_lt a b n : 0 <= n -> 0 <= a < 2 ^ n -> 0 <= Z.ldiff a b < 2 ^ n.
Proof.
  intros Hn Ha. replace (Z.ldiff a b) with (Z.ldiff a b mod 2 ^ n); [apply Z.mod_pos_bound; lia|].
  apply Z.bits_inj'. intros k Hk. destruct (Z.ltb_spec k n).
  - by rewrite Z.mod_pow2_bits_low by lia.
  - rewrite Z.mod_pow2_bits_high, Z.ldiff_spec by lia.
    rewrite <- (Z.mod_small a (2 ^ n)), Z.mod_pow2_bits_high by lia. done.
Qed.

Lemma proc_ok_signals next p h s :
  proc_ok next p -> length h = 32%nat -> Forall (fun h => h = SIG_DFL \/ h = SIG_IGN) h ->
  0 <= s < 2 ^ 32 -> proc_ok next (with_signals h s p).
Proof. intros [] ???. by constructor. Qed.

Lemma proc_ok_zombie next p e : proc_ok next p -> proc_ok next (with_state PZombie (Some e) p).
Proof. intros []. by constructor. Qed.

(** *** Signals *)
Lemma signal_send_wf k pid sig r k' :
  procs_wf k -> 0 <= sig -> signal_send k pid sig = (r, k') -> procs_wf k'.
Proof.
  intros H Hs. unfold signal_send, sig_to_bit.
  destruct (sig_ok sig) eqn:Hsig; [|by intros [= <- <-]].
  destruct (find_process pid _) as [[i p]|] eqn:E; intros [= <- <-]; [|done].
  pose proof (found_ok _ _ _ _ H E) as Hp. pose proof (sig_ok_range _ Hsig Hs).
  eapply update_found_wf; [done..|]. apply proc_ok_signals; try apply Hp.
  rewrite sig_bit by done. apply lor_lt; [lia|apply Hp|]. split; [lia|apply Z.pow_lt_mono_r; lia].
Qed.

Lemma send_wf k pid sig : procs_wf k -> 0 <= sig -> procs_wf (snd (signal_send k pid sig)).
Proof. intros H Hs. destruct (signal_send k pid sig) as [r k'] eqn:E. by eapply signal_send_wf. Qed.

Lemma broadcast_wf n i k pid sig c r k' :
  procs_wf k -> 0 <= sig -> broadcast n i k pid sig c = (r, k') -> procs_wf k'.
Proof.
  intros H Hs. revert i k c H. induction n as [|n IH]; intros i k c H; cbn [broadcast].
  { by intros [= <- <-]. }
  destruct (kn_procs k !! i) as [[p|]|]; [|by apply IH..].
  destruct (pr_parent_pid p =? pid); [|by apply IH].
  destruct (signal_send k (pr_id p) sig) as [[[]|e] k1] eqn:E.
  - apply IH. by eapply signal_send_wf.
  - intros [= <- <-]. by eapply signal_send_wf.
Qed.

Lemma sys_kill_wf k pid sig r k' :
  procs_wf k -> 0 <= sig -> sys_kill k pid sig = (r, k') -> procs_wf k'.
Proof.
  intros H Hs. unfold sys_kill. destruct (current_process_id k) as [c|e]; [|by intros [= <- <-]].
  destruct (pid <? 0); [by intros [= <- <-]|]. destruct (pid =? 0).
  { destruct (broadcast _ 0 k c sig 0) as [[[|m]|e] k1] eqn:E; intros [= <- <-];
      by eapply broadcast_wf. }
  destruct (negb (pid =? c)); [|by apply signal_send_wf].
  destruct (find_process pid _) as [[i p]|]; [|by intros [= <- <-]].
  destruct (negb _); [by intros [= <- <-]|by apply signal_send_wf].
Qed.

Lemma deliver_ok next ns pending p b p' :
  Forall (fun n => 1 <= n <= 32) ns -> proc_ok next p -> deliver ns pending p = Some (b, p') ->
  proc_ok next p' /\ pr_id p' = pr_id p.
Proof.
  intros Hns. revert p. induction Hns as [|n ns Hn Hns IH]; intros p Hp; cbn [deliver].
  { by intros [= <- <-]. }
  destruct (Z.land _ _ =? 0); [by apply IH|]. destruct (at_z _ _) as [h|]; [|done].
  assert (Hq : proc_ok next (with_signals (pr_sig_handlers p)
            (Z.ldiff (pr_pending_signals p) (u32w (Z.shiftl 1 (n - 1)))) p)).
  { apply proc_ok_signals; try apply Hp. apply ldiff_lt; [lia|apply Hp]. }
  destruct (h =? SIG_IGN); [intros D; by destruct (IH _ Hq D)|]. intros [= <- <-].
  split; [|done]. apply proc_ok_signals; try apply Hq; [|lia]. by apply proc_ok_zombie.
Qed.

Lemma signals_range : Forall (fun n => 1 <= n <= 32) (seqZ 1 NSIG).
Proof. apply Forall_forall. intros n Hn%elem_of_seqZ. unfold NSIG in Hn. lia. Qed.

Lemma dispatch_wf k pid r k' : procs_wf k -> dispatch_pending k pid = Some (r, k') -> procs_wf k'.
Proof.
  intros H. unfold dispatch_pending. destruct (find_process pid _) as [[i p]|] eqn:E; [|by intros [= <- <-]].
  destruct (_ =? 0); [by intros [= <- <-]|].
  destruct (deliver _ _ p) as [[b p']|] eqn:D; intros [= <- <-].
  destruct (deliver_ok (kn_next_pid k) _ _ _ _ _ signals_range (found_ok _ _ _ _ H E) D) as [Hq Hid].
  by eapply update_found_wf.
Qed.

Lemma sigaction_wf k sig h r k' :
  procs_wf k -> 0 <= sig -> sigaction_set k sig h = Some (r, k') -> procs_wf k'.
Proof.
  intros H Hs. unfold sigaction_set. destruct (sig_ok sig) eqn:Hsig; cbn [negb]; [|by intros [= <- <-]].
  destruct (negb _ && negb _) eqn:Hh; [by intros [= <- <-]|].
  destruct (caller k) as [[i p]|e] eqn:E; [|by intros [= <- <-]].
  apply caller_Ok in E as [_ E]. pose proof (found_ok _ _ _ _ H E) as Hp.
  destruct (at_z _ _) as [prev|]; [|done]. intros [= <- <-].
  eapply update_found_wf; [done..|]. apply proc_ok_signals; try apply Hp.
  - rewrite length_set_z. apply Hp.
  - apply Forall_insert; [apply Hp|]. unfold SIG_DFL, SIG_IGN in *.
    apply andb_false_iff in Hh as [Hh|Hh]; apply negb_false_iff, Z.eqb_eq in Hh; subst; [by left|by right].
Qed.

(** *** Creation, reaping and the other calls *)

(** The calls that neither create nor remove a process keep the counter. *)
Lemma signal_send_next k pid sig r k' : signal_send k pid sig = (r, k') -> kn_next_pid k' = kn_next_pid k.
Proof.
  unfold signal_send. destruct (sig_to_bit sig); [|by intros [= <- <-]].
  by destruct (find_process _ _) as [[i p]|]; intros [= <- <-].
Qed.

Lemma broadcast_next n i k pid sig c r k' : broadcast n i k pid sig c = (r, k') -> kn_next_pid k' = kn_next_pid k.
Proof.
  revert i k c. induction n as [|n IH]; intros i k c; cbn [broadcast]; [by intros [= <- <-]|].
  destruct (kn_procs k !! i) as [[p|]|]; [|by apply IH..].
  destruct (pr_parent_pid p =? pid); [|by apply IH].
  destruct (signal_send k (pr_id p) sig) as [[[]|e] k1] eqn:E; apply signal_send_next in E.
  - intros ->%IH. done.
  - by intros [= <- <-].
Qed.

Lemma sys_kill_next k pid sig r k' : sys_kill k pid sig = (r, k') -> kn_next_pid k' = kn_next_pid k.
Proof.
  unfold sys_kill. destruct (current_process_id k) as [c|e]; [|by intros [= <- <-]].
  destruct (pid <? 0); [by intros [= <- <-]|]. destruct (pid =? 0).
  { destruct (broadcast _ 0 k c sig 0) as [[[|m]|e] k1] eqn:E; intros [= <- <-]; by eapply broadcast_next. }
  destruct (negb (pid =? c)); [|by apply signal_send_next].
  destruct (find_process pid _) as [[i p]|]; [|by intros [= <- <-]].
  destruct (negb _); [by intros [= <- <-]|by apply signal_send_next].
Qed.

(** Well-formed with the same counter. *)
Definition stays (k k' : Kern) : Prop := procs_wf k' /\ kn_next_pid k' = kn_next_pid k.

Lemma dispatch_stays k pid r k' : procs_wf k -> dispatch_pending k pid = Some (r, k') -> stays k k'.
Proof.
  intros H E. split; [by eapply dispatch_wf|]. revert E. unfold dispatch_pending.
  destruct (find_process pid _) as [[i p]|]; [|by intros [= <- <-]].
  destruct (_ =? 0); [by intros [= <- <-]|]. by destruct (deliver _ _ p) as [[b p']|]; intros [= <- <-].
Qed.

Lemma sigaction_stays k sig h r k' :
  procs_wf k -> 0 <= sig -> sigaction_set k sig h = Some (r, k') -> stays k k'.
Proof.
  intros H Hs E. split; [by eapply sigaction_wf|]. revert E. unfold sigaction_set.
  destruct (sig_ok sig); [|by intros [= <- <-]]. destruct (negb _ && negb _); [by intros [= <- <-]|].
  destruct (caller k) as [[i p]|e]; [|by intros [= <- <-]]. cbn [negb].
  by destruct (at_z _ _) as [prev|]; intros [= <- <-].
Qed.

Lemma sys_raise_stays k sig r k' : procs_wf k -> 0 <= sig -> sys_raise k sig = (r, k') -> stays k k'.
Proof.
  intros H Hs. unfold sys_raise. destruct (raise k sig) as [r1 k1] eqn:E.
  assert (Hk : stays k k1).
  { unfold raise in E. destruct (negb (sig_ok sig)); [by injection E as _ <-|].
    destruct (current_process_id k) as [c|e]; [|by injection E as _ <-].
    split; [by eapply signal_send_wf|by eapply signal_send_next]. }
  destruct r1; [|by intros [= <- <-]]. destruct (current_process_id k1); [|by intros [= <- <-]].
  destruct (find_process _ _) as [[i p]|]; [|by intros [= <- <-]]. by case_decide; intros [= <- <-].
Qed.

Lemma reap_stays k i k' : procs_wf k -> reap k i = Some k' -> stays k k'.
Proof.
  intros H. unfold reap. destruct (kn_procs k !! i) as [[p|]|]; [|by intros [= <-]|done].
  intros (ph & _ & [= <-])%bind_Some. split; [|done]. by apply set_phys_wf, take_proc_wf.
Qed.

Lemma sys_wait4_stays k pid ptr r k' : procs_wf k -> sys_wait4 k pid ptr = Some (r, k') -> stays k k'.
Proof.
  intros H. unfold sys_wait4. destruct (current_process_id k) as [c|e]; [|by intros [= <- <-]].
  destruct (pid <? -1); [by intros [= <- <-]|].
  destruct (wait_scan _ _ _ _ _) as [[[i p]|] [q|]]; try by intros [= <- <-].
  all: intros (m & _ & (k1 & Hr & [= <- <-])%bind_Some)%bind_Some.
  all: by destruct (reap_stays _ _ _ (set_phys_wf _ (with_ram (kn_phys k) m) H) Hr).
Qed.

Lemma proc_wait_stays k pid r k' : procs_wf k -> proc_wait k pid = Some (r, k') -> stays k k'.
Proof.
  intros H. unfold proc_wait. destruct (current_process_id k) as [c|e]; [|by intros [= <- <-]].
  destruct (find_slot _ _) as [i|]; [|by intros [= <- <-]].
  destruct (kn_procs k !! i) as [[p|]|]; try done.
  intros (k1 & Hr & [= <- <-])%bind_Some. by eapply reap_stays.
Qed.

Lemma proc_exit_stays k pid code r k' : procs_wf k -> proc_exit k pid code = (r, k') -> stays k k'.
Proof.
  intros H. unfold proc_exit, mark_process_zombie.
  destruct (find_process pid _) as [[i p]|] eqn:E; intros [= <- <-]; [|done].
  split; [|done]. pose proof (found_ok _ _ _ _ H E). eapply update_found_wf; [done..|]. by apply proc_ok_zombie.
Qed.

Lemma sys_getcwd_stays k p n r k' : procs_wf k -> sys_getcwd k p n = Some (r, k') -> stays k k'.
Proof.
  intros H. unfold sys_getcwd. destruct (p =? 0); [by intros [= <- <-]|].
  destruct (caller k) as [[i q]|e]; [|by intros [= <- <-]].
  destruct (_ =? 0); [by intros [= <- <-]|]. destruct (_ =? 0); [by intros [= <- <-]|].
  intros (bs & _ & ([r1 m] & _ & [= <- <-])%bind_Some)%bind_Some.
  split; [|done]. by apply set_phys_wf.
Qed.

Lemma copy_in_length fuel m l0 va len bs :
  copy_in fuel m l0 va len = Some (Ok bs) -> length bs = Z.to_nat len.
Proof.
  revert va len bs. induction fuel as [|fuel IH]; intros va len bs; cbn [copy_in]; [done|].
  destruct (Z.ltb_spec 0 len); [|intros [= <-]; cbn; lia].
  destruct (translate_user_va m l0 va) as [pa|]; [|done].
  destruct (copy_in fuel _ _ _ _) as [[bs1|e]|] eqn:E; intros [= <-].
  apply IH in E. rewrite length_app, length_copy_from, E. destruct (chunk_spec va len) as (? & ? & ?); lia.
Qed.

Lemma sys_chdir_stays k p n r k' : procs_wf k -> 0 <= n -> sys_chdir k p n = Some (r, k') -> stays k k'.
Proof.
  intros H Hn. unfold sys_chdir. destruct (_ || _); [by intros [= <- <-]|].
  destruct (caller k) as [[i q]|e] eqn:E; [|by intros [= <- <-]].
  destruct (_ =? 0) eqn:Hl0; [by intros [= <- <-]|].
  intros ([bs|e] & Hc & Hr)%bind_Some; [|by injection Hr as <- <-]. injection Hr as <- <-.
  apply caller_Ok in E as [_ E]. pose proof (found_ok _ _ _ _ H E) as Hq.
  unfold safe_copy_from_user in Hc. rewrite Hl0 in Hc. apply copy_in_length in Hc.
  split; [|done]. eapply update_found_wf; [done..|]. destruct Hq as [? ? ? ? [Hc1 Hc2] ? ?].
  constructor; try done. cbn. unfold put. rewrite length_inserts. split; [done|]. rewrite Hc1 in *. lia.
Qed.

Lemma intern_name_fields nm k r k' :
  intern_name nm k = (r, k') ->
  kn_procs k' = kn_procs k /\ kn_next_pid k' = kn_next_pid k /\ kn_phys k' = kn_phys k /\
  kn_pipes k' = kn_pipes k /\ kn_current k' = kn_current k.
Proof. unfold intern_name. by case_match; intros [= <- <-]. Qed.

Lemma same_table_wf k k' :
  kn_procs k' = kn_procs k -> kn_next_pid k' = kn_next_pid k -> procs_wf k -> procs_wf k'.
Proof. intros Hp Hn []. constructor; rewrite ?Hp, ?Hn; done. Qed.

(** What a fresh process looks like; [0 < n] is the identifier it has. *)
Lemma init_in_place_ok nm k r k' :
  init_in_place nm k = Some (r, k') ->
  kn_procs k' = kn_procs k /\
  match r with
  | Ok p => pr_id p = kn_next_pid k /\ kn_next_pid k' = u64w (kn_next_pid k + 1) /\
            pr_parent_pid p = 0 /\ pr_fd_table p = no_fds /\ pr_handle_table p = ht_new /\
            (0 < kn_next_pid k -> proc_ok (kn_next_pid k + 1) p)
  | Err _ => kn_next_pid k' = kn_next_pid k
  end.
Proof.
  unfold init_in_place. destruct (vmar_create _ _ _) as [[[v|e] ph]|]; [|by intros [= <- <-]|done].
  destruct (alloc_kheap_page ph) as [[[a|e] ph']|]; [|done..].
  destruct (asid_alloc _) as [asid s]. intros [= <- <-]. split; [done|]. do 5 (split; [done|]).
  intros Hn. constructor; cbn; try done; try lia. 2: { unfold CWD_MAX; lia. }
  apply (Forall_replicate _ 32 0); by left.
Qed.

Lemma init_in_place_pipes nm k r k' : init_in_place nm k = Some (r, k') -> kn_pipes k' = kn_pipes k.
Proof.
  unfold init_in_place. destruct (vmar_create _ _ _) as [[[v|e] ph]|]; [|by intros [= <- <-]|done].
  destruct (alloc_kheap_page ph) as [[[a|e] ph']|]; [|done..]. by destruct (asid_alloc _); intros [= <- <-].
Qed.

(** The record [r] was placed at a free slot [i], or nothing but a blank
    record was. *)
Lemma allocate_process_ok nm k r k' :
  procs_wf k -> kn_next_pid k + 1 < 2 ^ 64 -> allocate_process nm k = Some (r, k') ->
  procs_wf k' /\
  match r with
  | Ok i => exists p, kn_procs k' = <[i := Some p]> (kn_procs k) /\ kn_procs k !! i = Some None /\
              pr_id p = kn_next_pid k /\ kn_next_pid k' = kn_next_pid k + 1
  | Err _ => kn_next_pid k' = kn_next_pid k
  end.
Proof.
  intros H Hmax. unfold allocate_process. destruct (first_free _) as [i|] eqn:Hf; [|by intros [= <- <-]].
  apply first_free_Some in Hf as (Hfree & Hlt & _).
  destruct (init_in_place _ _) as [[[p|e] k1]|] eqn:E; [| |done]; intros [= <- <-];
    apply init_in_place_ok in E as [Hp E]; cbn [put_proc set_procs kn_procs kn_next_pid] in *;
    pose proof (wf_next _ H).
  - destruct E as (Hid & Hnext & _ & _ & _ & Hok). rewrite u64w_small in Hnext by lia.
    split.
    2: { exists p. by rewrite Hp, list_insert_insert_eq. }
    assert (Hget : forall j q, <[i:=Some p]> (<[i:=Some process_new_dummy]> (kn_procs k)) !! j = Some (Some q) ->
              (j = i /\ q = p) \/ (j <> i /\ kn_procs k !! j = Some (Some q))).
    { intros j q. rewrite list_insert_insert_eq. intros [(<- & [= <-] & _)|[? ?]]%list_lookup_insert_Some;
        [by left|by right]. }
    constructor; cbn; rewrite ?Hp, ?Hnext; [by rewrite !length_insert; apply H| | |lia].
    + intros j q [[-> ->]|[_ Hj]]%Hget; [apply Hok; lia|].
      destruct (wf_proc _ H j q Hj). constructor; try done. lia.
    + intros a b q1 q2 [[-> ->]|[Ha H1]]%Hget [[-> ->]|[Hb H2]]%Hget Heq Hne; [done|..|by apply (wf_unique _ H a b q1 q2)].
      * pose proof (ok_id _ _ (wf_proc _ H _ _ H2)). lia.
      * pose proof (ok_id _ _ (wf_proc _ H _ _ H1)). lia.
  - split; [|done].
    assert (Hget : forall j q, <[i:=Some process_new_dummy]> (kn_procs k) !! j = Some (Some q) ->
              q = process_new_dummy \/ kn_procs k !! j = Some (Some q)).
    { intros j q [(<- & [= <-] & _)|[? ?]]%list_lookup_insert_Some; [by left|by right]. }
    constructor; rewrite ?Hp, ?E; [by rewrite length_insert; apply H| | |done].
    + intros j q [->|Hj]%Hget; [|by apply (wf_proc _ H j)]. constructor; cbn; try done; [|unfold CWD_MAX; lia].
      apply (Forall_replicate _ 32 0); by left.
    + intros a b q1 q2 Ha Hb Heq Hne.
      destruct (Hget _ _ Ha) as [->|Ha']; [done|]. destruct (Hget _ _ Hb) as [->|Hb']; [by rewrite Heq in Hne|].
      by apply (wf_unique _ H a b q1 q2).
Qed.

(** The memory once the status of [p] is with the caller: as it was for a null
    pointer, what the copy leaves otherwise, whatever the copy answers. *)
Definition waiting_root (k : Kern) (caller_pid : Z) : Z :=
  match find_process caller_pid (kn_procs k) with Some (_, c) => pt_l0_pa (pr_page_table c) | None => 0 end.

Definition status_copied (k : Kern) (caller_pid ptr : Z) (p : Process) (m : Ram) : Prop :=
  if ptr =? 0 then m = kern_ram k
  else exists r, safe_copy_to_user (kern_ram k) (waiting_root k caller_pid) (le 4 (u32w (default 0 (pr_exit_status p)))) ptr = Some (r, m).

(** The drop of a reaped process. *)
Definition dropped (k : Kern) (p : Process) (m : Ram) : option Phys :=
  drop_process (with_threads 0 (with_state PDead None p)) (with_ram (kn_phys k) m).

Lemma status_copy_total k caller_pid ptr p :
  exists m, (if negb (ptr =? 0) then copy_out_ok (kern_ram k) (waiting_root k caller_pid) (le 4 (u32w (default 0 (pr_exit_status p)))) ptr
             else Some (kern_ram k)) = Some m /\ status_copied k caller_pid ptr p m.
Proof.
  unfold status_copied. destruct (ptr =? 0); cbn [negb]; [by eexists|]. unfold copy_out_ok.
  edestruct safe_copy_to_user_total as [[r m] Hm]. rewrite Hm. exists m. split; [done|by exists r].
Qed.

(** The scan of [wait4] in the order of the slots. *)
Definition waited (k : Kern) (caller_pid pid : Z) (i : nat) (p : Process) : Prop :=
  kn_procs k !! i = Some (Some p) /\ wait_match caller_pid pid p = true.

Lemma wait_scan_spec c pid i l running :
  match wait_scan c pid i l running with
  | (Some (j, p), _) =>
      exists n, j = (i + n)%nat /\ l !! n = Some (Some p) /\ wait_match c pid p = true /\ reapable p = true /\
        forall m q, (m < n)%nat -> l !! m = Some (Some q) -> wait_match c pid q = true -> reapable q = false
  | (None, r) =>
      (forall m q, l !! m = Some (Some q) -> wait_match c pid q = true -> reapable q = false) /\
      (is_Some r <-> is_Some running \/ exists m q, l !! m = Some (Some q) /\ wait_match c pid q = true)
  end.
Proof.
  revert i running. induction l as [|s l IH]; intros i running; cbn [wait_scan].
  { split; [done|]. split; [by left|]. intros [?|(m & q & Hm & _)]; done. }
  (* a slot that the scan passes over *)
  assert (Hpass : forall running', (forall q, s = Some q -> wait_match c pid q = true -> reapable q = false) ->
    (is_Some running' <-> is_Some running \/ exists q, s = Some q /\ wait_match c pid q = true) ->
    match wait_scan c pid (S i) l running' with
    | (Some (j, p), _) => exists n, j = (i + n)%nat /\ (s :: l) !! n = Some (Some p) /\ wait_match c pid p = true /\
        reapable p = true /\
        forall m q, (m < n)%nat -> (s :: l) !! m = Some (Some q) -> wait_match c pid q = true -> reapable q = false
    | (None, r) =>
        (forall m q, (s :: l) !! m = Some (Some q) -> wait_match c pid q = true -> reapable q = false) /\
        (is_Some r <-> is_Some running \/ exists m q, (s :: l) !! m = Some (Some q) /\ wait_match c pid q = true)
    end).
  { intros running' Hs Hrun. specialize (IH (S i) running'). destruct (wait_scan c pid (S i) l running') as [[[j p]|] r].
    - destruct IH as (n & -> & Hn & Hw & Hr & Hall). exists (S n). split_and!; [lia|done..|].
      intros [|m] q Hm Hq; [injection Hq as Hq; by apply Hs|]. apply (Hall m); [lia|done].
    - destruct IH as [Hall Hr]. split.
      + intros [|m] q Hq; [injection Hq as Hq; by apply Hs|by apply (Hall m)].
      + rewrite Hr, Hrun. split.
        * intros [[?|(q & -> & Hq)]|(m & q & Hm & Hq)]; [by left|right; by exists 0%nat, q|right; by exists (S m), q].
        * intros [?|([|m] & q & Hm & Hq)]; [by left; left|left; right; exists q; by injection Hm as ->|].
          right. by exists m, q. }
  destruct s as [p|]; [|apply Hpass; [done|]; split; [by left|intros [?|(q & [=] & _)]; done]].
  destruct (wait_match c pid p) eqn:Hw.
  - destruct (reapable p) eqn:Hr.
    + exists 0%nat. rewrite Nat.add_0_r. split_and!; try done. intros; lia.
    + apply Hpass; [by intros q [= <-]|]. split; [|by eexists]. intros _. right. by exists p.
  - apply Hpass; [intros q [= <-] ?; congruence|]. split; [by left|]. intros [?|(q & [= <-] & ?)]; [done|congruence].
Qed.

(** *** Who is signalled *)
Definition family (c : Z) (p : Process) : Prop := pr_id p = c \/ pr_parent_pid p = c.

(** Only pending words of the family of [c] have changed. *)
Definition signalled (c : Z) (k k' : Kern) : Prop :=
  forall i, kn_procs k' !! i = kn_procs k !! i \/
    exists p s, kn_procs k !! i = Some (Some p) /\ family c p /\
      kn_procs k' !! i = Some (Some (with_signals (pr_sig_handlers p) s p)).

#[local] Instance signalled_trans c : Transitive (signalled c).
Proof.
  intros k1 k2 k3 H12 H23 i. destruct (H12 i) as [E|(p & s & Hp & Hf & E)], (H23 i) as [E'|(p' & s' & Hp' & Hf' & E')].
  - left. congruence.
  - right. exists p', s'. by rewrite <- E.
  - right. exists p, s. by rewrite E'.
  - right. rewrite E in Hp'. injection Hp' as <-. exists p, s'. by rewrite E'.
Qed.

Lemma signalled_refl c k : signalled c k k.
Proof. intros i. by left. Qed.

Lemma signal_send_signalled c k pid sig r k' :
  (forall i p, find_process pid (kn_procs k) = Some (i, p) -> family c p) ->
  signal_send k pid sig = (r, k') -> signalled c k k'.
Proof.
  intros Hf. unfold signal_send. destruct (sig_to_bit sig) as [b|]; [|intros [= <- <-]; apply signalled_refl].
  destruct (find_process pid _) as [[i p]|] eqn:E; intros [= <- <-]; [|apply signalled_refl].
  specialize (Hf i p eq_refl). apply find_process_Some in E as [Hi _]. pose proof (lookup_lt_Some _ _ _ Hi).
  intros j. rewrite put_proc_lookup by done. case_decide as Hj; [subst; right|by left].
  by exists p, (Z.lor (pr_pending_signals p) b).
Qed.

Lemma unique_found k i p j q :
  procs_wf k -> kn_procs k !! i = Some (Some p) -> pr_id p <> 0 ->
  find_process (pr_id p) (kn_procs k) = Some (j, q) -> q = p.
Proof.
  intros H Hi Hne [Hj Hid]%find_process_Some. pose proof (wf_unique _ H i j p q Hi Hj (eq_sym Hid) Hne) as ->.
  congruence.
Qed.

Lemma broadcast_signalled c n i k sig m r k' :
  procs_wf k -> 0 <= sig -> c <> 0 -> broadcast n i k c sig m = (r, k') -> signalled c k k'.
Proof.
  intros H Hs Hc. revert i k m H. induction n as [|n IH]; intros i k m H; cbn [broadcast].
  { intros [= <- <-]. apply signalled_refl. }
  destruct (kn_procs k !! i) as [[p|]|] eqn:Hi; [|by apply IH..].
  destruct (Z.eqb_spec (pr_parent_pid p) c) as [Hp|Hp]; [|by apply IH].
  destruct (signal_send k (pr_id p) sig) as [r1 k1] eqn:E.
  assert (H1 : signalled c k k1).
  { eapply signal_send_signalled; [|exact E]. intros j q Hq.
    rewrite (unique_found k i p j q H Hi); [by right| |done].
    intros H0. pose proof (ok_blank _ _ (wf_proc _ H i p Hi) H0). congruence. }
  destruct r1 as [u|e]; [|by intros [= <- <-]].
  intros Hk'. transitivity k1; [done|]. apply (IH (S i) k1 (S m)); [|done]. by eapply signal_send_wf.
Qed.

Lemma proc_create_ok k parent name_ptr l0 r k' :
  procs_wf k -> kn_next_pid k + 1 < 2 ^ 64 -> proc_create k parent name_ptr l0 = Some (r, k') ->
  procs_wf k' /\
  match r with
  | Ok pid => pid = kn_next_pid k /\ kn_next_pid k' = kn_next_pid k + 1
  | Err _ => kn_next_pid k' = kn_next_pid k
  end.
Proof.
  intros H Hmax. unfold proc_create. destruct (name_ptr =? 0); [by intros [= <- <-]|].
  intros ([buf|e] & _ & Hr)%bind_Some; [|by injection Hr as <- <-].
  destruct (negb (utf8_valid _)); [by injection Hr as <- <-|].
  destruct (intern_name _ k) as [[nm|e] k1] eqn:E;
    apply intern_name_fields in E as (Hp1 & Hn1 & _);
    pose proof (same_table_wf _ _ Hp1 Hn1 H) as H1; [|by injection Hr as <- <-].
  destruct (_ || _); [by injection Hr as <- <-|].
  apply bind_Some in Hr as ([[i|e] k2] & Ha & Hr); cbn in Hr;
    apply allocate_process_ok in Ha as [H2 Ha]; rewrite ?Hn1; try done.
  2: { injection Hr as <- <-. by rewrite <- Hn1. }
  destruct Ha as (p & Hp2 & Hfree & Hid & Hn2).
  assert (Hi : kn_procs k2 !! i = Some (Some p)).
  { rewrite Hp2. apply list_lookup_insert_eq. by eapply lookup_lt_Some. }
  rewrite Hi in Hr. injection Hr as <- <-.
  split; [|by rewrite <- Hn1].
  eapply put_proc_wf; [by apply set_phys_wf|exact Hi|done|].
  destruct (wf_proc _ H2 _ _ Hi). constructor; try done. cbn. rewrite Hid. intros H0.
  pose proof (wf_next _ H1). lia.
Qed.

(** ** Runs *)
Inductive proc_call :=
| CSigaction (sig handler : Z)
| CRaise (sig : Z)
| CKill (pid sig : Z)
| CDispatch (pid : Z)
| CWait4 (pid status_out_ptr : Z)
| CCreate (parent_pid name_ptr l0_pa : Z)
| CMgmt (cmd arg1 arg2 arg3 : Z)
| CGetcwd (buf_ptr buf_len : Z)
| CChdir (path_ptr path_len : Z)
| CSwitch (next : option Z).

Definition unit_ok (r : kresult unit) : kresult Z := _ ← r; Ok 0.

(** One call of the process that runs, or the scheduler's switch to another
    one. *)
Definition proc_do (c : proc_call) (k : Kern) : option (kresult Z * Kern) :=
  match c with
  | CSigaction sig h => sys_sigaction k sig h
  | CRaise sig => let '(r, k) := sys_raise k sig in Some (unit_ok r, k)
  | CKill pid sig => let '(r, k) := sys_kill k pid sig in Some (unit_ok r, k)
  | CDispatch pid => '(r, k) ← dispatch_pending k pid; Some (_ ← r; Ok 0, k)
  | CWait4 pid ptr => sys_wait4 k pid ptr
  | CCreate parent name l0 => sys_proc_mgmt k PROC_MGMT_CREATE parent name l0
  | CMgmt cmd a b c => sys_proc_mgmt k cmd a b c
  | CGetcwd p n => sys_getcwd k p n
  | CChdir p n => sys_chdir k p n
  | CSwitch t => Some (Ok 0, set_running k t)
  end.

(** Arguments are machine words; every creation is a [CCreate]. *)
Definition call_ok (c : proc_call) : Prop :=
  match c with
  | CSigaction sig _ | CRaise sig | CKill _ sig => 0 <= sig
  | CMgmt cmd _ _ _ => cmd <> PROC_MGMT_CREATE
  | CChdir _ n => 0 <= n
  | _ => True
  end.

Definition created (c : proc_call) (r : kresult Z) : list Z :=
  match c, r with CCreate _ _ _, Ok pid => [pid] | _, _ => [] end.

(** The identifiers handed out by a sequence of calls. *)
Fixpoint proc_run (cs : list proc_call) (k : Kern) : option (list Z * Kern) :=
  match cs with
  | [] => Some ([], k)
  | c :: cs =>
      '(r, k) ← proc_do c k;
      '(ids, k) ← proc_run cs k;
      Some (created c r ++ ids, k)
  end.

Lemma proc_do_ok c k r k' :
  procs_wf k -> kn_next_pid k + 1 < 2 ^ 64 -> call_ok c -> proc_do c k = Some (r, k') ->
  procs_wf k' /\
  match created c r with
  | [] => kn_next_pid k' = kn_next_pid k
  | ids => ids = [kn_next_pid k] /\ kn_next_pid k' = kn_next_pid k + 1
  end.
Proof.
  intros H Hmax Hc. destruct c as [sig h|sig|pid sig|pid|pid ptr|pa nm l0|cmd a b d|p n|p n|t];
    cbn [proc_do created]; unfold call_ok in Hc.
  - intros Hr. by eapply sigaction_stays.
  - destruct (sys_raise k sig) as [r1 k1] eqn:E. intros [= <- <-]. by eapply sys_raise_stays.
  - destruct (sys_kill k pid sig) as [r1 k1] eqn:E. intros [= <- <-].
    split; [by eapply sys_kill_wf|by eapply sys_kill_next].
  - intros ([r1 k1] & E & [= <- <-])%bind_Some. by eapply dispatch_stays.
  - by apply sys_wait4_stays.
  - change (sys_proc_mgmt k PROC_MGMT_CREATE pa nm l0) with (proc_create k pa nm l0).
    intros [Hwf Hr]%proc_create_ok; try done. split; [done|]. destruct r; [|done]. by destruct Hr as [-> ?].
  - unfold sys_proc_mgmt. destruct (Z.eqb_spec cmd PROC_MGMT_CREATE); [done|].
    destruct (cmd =? PROC_MGMT_EXIT).
    { destruct (proc_exit _ _ _) as [r1 k1] eqn:E. intros [= <- <-]. by eapply proc_exit_stays. }
    destruct (cmd =? PROC_MGMT_WAIT); [by apply proc_wait_stays|].
    destruct (cmd =? PROC_MGMT_LIST).
    { unfold proc_list. destruct (_ || _); [by intros [= <- <-]|].
      intros ([cnt m] & _ & [= <- <-])%bind_Some. split; [|done]. by apply set_phys_wf. }
    destruct (cmd =? PROC_MGMT_RELEASE_PT); [|by intros [= <- <-]].
    unfold proc_release_pt. destruct (_ || _); [by intros [= <- <-]|].
    intros (ph & _ & [= <- <-])%bind_Some. split; [|done]. by apply set_phys_wf.
  - by apply sys_getcwd_stays.
  - by apply sys_chdir_stays.
  - intros [= <- <-]. split; [|done]. by apply (same_table_wf k).
Qed.

(** ** Claims *)

(** C20. Process identifiers are handed out once.  Along any sequence of the
    calls of this file, made by whichever processes are switched in, the table
    stays well formed (a bounded table, one live process per identifier,
    recorded exit status of every zombie, dispositions default or ignore, a
    working directory inside its buffer), and the identifiers returned by the
    creations are consecutive from the counter on: no identifier of a process
    that was reaped comes back. *)
Theorem process_ids_handed_out_once cs k ids k' :
  procs_wf k -> kn_next_pid k + Z.of_nat (length cs) < 2 ^ 64 -> Forall call_ok cs ->
  proc_run cs k = Some (ids, k') ->
  procs_wf k' /\ ids = seqZ (kn_next_pid k) (Z.of_nat (length ids)) /\
  kn_next_pid k' = kn_next_pid k + Z.of_nat (length ids).
Proof.
  revert k ids k'. induction cs as [|c cs IH]; intros k ids k' H Hmax Hok.
  { intros [= <- <-]. cbn. split; [done|]. by rewrite Z.add_0_r. }
  apply Forall_cons in Hok as [Hc Hok]. cbn [proc_run length] in *.
  intros ([r k1] & E & ([ids1 k2] & Hrun & [= <- <-])%bind_Some)%bind_Some.
  apply proc_do_ok in E as [H1 Hn]; [|done|lia|done].
  destruct (created c r) as [|id l] eqn:Ec; cbn [app length].
  - destruct (IH k1 ids1 k2 H1 ltac:(lia) Hok Hrun) as (H2 & Hids & Hk2). by rewrite Hn in *.
  - destruct Hn as [[= -> ->] Hn]. destruct (IH k1 ids1 k2 H1 ltac:(lia) Hok Hrun) as (H2 & Hids & Hk2).
    split; [done|]. cbn [app length]. split; [|lia].
    rewrite seqZ_cons by lia. rewrite Hids at 1. f_equal. rewrite Hn. f_equal; lia.
Qed.

(** C21. Waiting for a child.  [sys_wait4] looks at the children of the caller
    (at the one asked for, with a positive [pid]) in slot order.  It answers
    the identifier of the first one that is a zombie with an exit status, and
    only then changes anything: the status goes to the caller's buffer as a
    little-endian word, the slot is emptied and the process dropped.  A
    failed copy is not reported, and a null pointer is taken as a wish for no
    status: both answer like a copy that succeeds.  With no such child it is
    [TryAgain] while a child lives and [NotFound] otherwise, and nothing
    changes.  It fails to return only where the drop of the reaped process
    does. *)
Theorem wait4_spec k caller_pid pid ptr :
  kn_current k = Some caller_pid -> -1 <= pid ->
  match sys_wait4 k pid ptr with
  | Some (Ok child, k') => exists i p m ph, waited k caller_pid pid i p /\ reapable p = true /\ pr_id p = child /\
      (forall j q, (j < i)%nat -> waited k caller_pid pid j q -> reapable q = false) /\
      status_copied k caller_pid ptr p m /\ dropped k p m = Some ph /\
      k' = set_phys (set_procs k (<[i := None]> (kn_procs k))) ph
  | Some (Err e, k') => k' = k /\ (forall i p, waited k caller_pid pid i p -> reapable p = false) /\
      if decide (e = TryAgain) then exists i p, waited k caller_pid pid i p
      else e = NotFound /\ forall i p, ~ waited k caller_pid pid i p
  | None => exists i p m, waited k caller_pid pid i p /\ status_copied k caller_pid ptr p m /\ dropped k p m = None
  end.
Proof.
  intros Hc Hpid. unfold sys_wait4, current_process_id. rewrite Hc. cbn [ok_or].
  destruct (Z.ltb_spec pid (-1)); [lia|].
  pose proof (wait_scan_spec caller_pid pid 0 (kn_procs k) None) as Hscan.
  destruct (wait_scan _ _ _ _ _) as [[[i p]|] r].
  - destruct Hscan as (n & Hn & Hi & Hw & Hr & Hall). cbn in Hn. subst n.
    destruct (status_copy_total k caller_pid ptr p) as (m & Hcp & Hm). unfold waiting_root in Hcp. rewrite Hcp. cbn [mbind option_bind].
    unfold reap. cbn [set_kern_ram set_phys kn_procs kn_phys]. rewrite Hi. fold (dropped k p m).
    destruct (dropped k p m) as [ph|] eqn:Hd; cbn [mbind option_bind]; [|by exists i, p, m].
    exists i, p, m, ph. split_and!; try done. intros j q Hj [Hq Hwq]. by apply (Hall j).
  - destruct Hscan as [Hnone Hsome]. destruct r as [q|].
    + split; [done|]. split; [intros i p [Hi Hw]; by apply (Hnone i)|]. cbn.
      destruct (proj1 Hsome ltac:(by eexists)) as [[? [=]]|Hex]. exact Hex.
    + split; [done|]. split; [intros i p [Hi Hw]; by apply (Hnone i)|]. cbn. split; [done|].
      intros i p [Hi Hw]. destruct (proj2 Hsome) as [? [=]]. right. by exists i, p.
Qed.

(** *** Delivery *)
Definition disposition (p : Process) (n : Z) : Z := nth (Z.to_nat (n - 1)) (pr_sig_handlers p) 0.
Definition is_pending (p : Process) (n : Z) : Prop := Z.testbit (pr_pending_signals p) (n - 1) = true.

Lemma pending_test s n :
  1 <= n <= 32 -> (Z.land s (u32w (Z.shiftl 1 (n - 1))) =? 0) = negb (Z.testbit s (n - 1)).
Proof.
  intros Hn. rewrite sig_bit, land_bit by lia. pose proof (Z.pow_pos_nonneg 2 (n - 1)).
  destruct (Z.testbit s (n - 1)); cbn; [apply Z.eqb_neq; lia|done].
Qed.

Lemma disposition_at p n :
  length (pr_sig_handlers p) = 32%nat -> 1 <= n <= 32 -> at_z (pr_sig_handlers p) (n - 1) = Some (disposition p n).
Proof.
  intros Hl Hn. unfold at_z, disposition. destruct (Z.leb_spec 0 (n - 1)); [|lia].
  destruct (nth_lookup_or_length (pr_sig_handlers p) (Z.to_nat (n - 1)) 0); [done|lia].
Qed.

(** Ignored signals of [l] are consumed; the first other one kills. *)
Lemma deliver_spec l s p :
  length (pr_sig_handlers p) = 32%nat -> Forall (fun n => 1 <= n <= 32) l ->
  exists b p', deliver l s p = Some (b, p') /\
    (b = true <-> exists n, n ∈ l /\ Z.testbit s (n - 1) = true /\ disposition p n <> SIG_IGN) /\
    if b then p' = with_signals (pr_sig_handlers p) 0 (with_state PZombie (Some SIG_DFL_KILL_EXIT) p)
    else p' = with_signals (pr_sig_handlers p) (pr_pending_signals p') p /\
      (forall i, Z.testbit (pr_pending_signals p') i =
         Z.testbit (pr_pending_signals p) i && negb (bool_decide (i + 1 ∈ l) && Z.testbit s i)).
Proof.
  intros Hl Hr. revert p Hl. induction Hr as [|n l Hn Hr IH]; intros p Hl; cbn [deliver].
  { exists false, p. split; [done|]. split; [split; [done|]; intros (n & Hn & _); by apply not_elem_of_nil in Hn|].
    split; [by destruct p|]. intros i. rewrite (bool_decide_eq_false_2 (i + 1 ∈ [])) by apply not_elem_of_nil. by rewrite andb_true_r. }
  rewrite pending_test by done. destruct (Z.testbit s (n - 1)) eqn:Hbit; cbn [negb].
  2:{ destruct (IH p Hl) as (b & p' & -> & Hb & Hp'). exists b, p'. split; [done|]. split.
      - rewrite Hb. split; intros (m & Hm & Ht & Hd); exists m; (split; [|done]).
        + by apply elem_of_cons; right.
        + apply elem_of_cons in Hm as [->|]; [congruence|done].
      - destruct b; [done|]. destruct Hp' as [H1 H2]. split; [done|]. intros i. rewrite H2. do 2 f_equal.
        destruct (Z.testbit s i) eqn:Hi; [|by rewrite !andb_false_r]. rewrite !andb_true_r.
        apply bool_decide_ext. rewrite elem_of_cons. split; [by right|]. intros [He|]; [|done].
        replace i with (n - 1) in Hi by lia. congruence. }
  rewrite disposition_at by done. destruct (Z.eqb_spec (disposition p n) SIG_IGN) as [Hd|Hd].
  - set (q := with_signals _ (Z.ldiff _ _) p). destruct (IH q Hl) as (b & p' & -> & Hb & Hp').
    exists b, p'. split; [done|]. change (disposition q) with (disposition p) in Hb. split.
    + rewrite Hb. split; intros (m & Hm & Ht & Hd'); exists m; (split; [|done]).
      * by apply elem_of_cons; right.
      * apply elem_of_cons in Hm as [->|]; [done|done].
    + destruct b; [by rewrite Hp'|]. destruct Hp' as [H1 H2]. split; [by rewrite H1 at 1|].
      intros i. rewrite H2. unfold q; cbn [pr_pending_signals with_signals]. rewrite Z.ldiff_spec, sig_bit, <- andb_assoc by done.
      f_equal. destruct (decide (i < 0)) as [Hneg|Hpos].
      { rewrite (Z.testbit_neg_r (2 ^ (n - 1))), (Z.testbit_neg_r s) by done. by rewrite !andb_false_r. }
      rewrite Z.pow2_bits_eqb by lia. destruct (Z.eqb_spec (n - 1) i) as [<-|Hne].
      * rewrite Hbit, Z.sub_add, (bool_decide_eq_true_2 (n ∈ n :: l)) by by apply elem_of_cons; left. done.
      * cbn [negb andb]. do 2 f_equal. apply bool_decide_ext. rewrite elem_of_cons. split; [by right|].
        intros [He|]; [lia|done].
  - eexists true, _. split; [done|]. split; [|done]. split; [|done]. intros _.
    exists n. split; [by apply elem_of_cons; left|done].
Qed.

(** Delivery of signals.  When a signal pending for the process is not
    ignored, [dispatch_pending] turns it into a zombie with exit status -1 and
    nothing pending; otherwise all pending signals are consumed and the
    process is as it was.  No other process changes and it never panics. *)
Theorem dispatch_spec k pid i p :
  procs_wf k -> find_process pid (kn_procs k) = Some (i, p) ->
  exists b p' k', dispatch_pending k pid = Some (Ok b, k') /\ kn_procs k' = <[i := Some p']> (kn_procs k) /\
    (b = true <-> exists n, 1 <= n <= NSIG /\ is_pending p n /\ disposition p n = SIG_DFL) /\
    p' = if b then with_signals (pr_sig_handlers p) 0 (with_state PZombie (Some (-1)) p)
         else with_signals (pr_sig_handlers p) 0 p.
Proof.
  intros H E. pose proof (found_ok _ _ _ _ H E) as Hp. unfold dispatch_pending. rewrite E.
  assert (Hdfl : forall n, 1 <= n <= 32 -> disposition p n <> SIG_IGN <-> disposition p n = SIG_DFL).
  { intros n Hn. pose proof (disposition_at p n (ok_handlers _ _ Hp) Hn) as [_ Hat]%at_z_Some.
    pose proof (Forall_lookup_1 _ _ _ _ (ok_disposition _ _ Hp) Hat) as [-> | ->]; unfold SIG_DFL, SIG_IGN; lia. }
  destruct (Z.eqb_spec (pr_pending_signals p) 0) as [H0|H0].
  - exists false, p, k. apply find_process_Some in E as [Hi _]. split_and!; [done|by rewrite list_insert_id| |].
    + split; [done|]. intros (n & _ & Hn & _). unfold is_pending in Hn. by rewrite H0, Z.bits_0 in Hn.
    + rewrite <- H0. by destruct p.
  - destruct (deliver_spec (seqZ 1 NSIG) (pr_pending_signals p) p (ok_handlers _ _ Hp) signals_range)
      as (b & p' & -> & Hb & Hp').
    exists b, p', (put_proc k i p'). split_and!; [done|done| |].
    + rewrite Hb. split; intros (n & Hn & Ht & Hd); exists n.
      * apply elem_of_seqZ in Hn. unfold NSIG in *. rewrite Hdfl in Hd by lia. split; [lia|done].
      * unfold NSIG in *. split; [apply elem_of_seqZ; unfold NSIG; lia|]. split; [done|]. by apply Hdfl.
    + destruct b; [done|]. destruct Hp' as [-> Hbits]. cbn in Hbits. f_equal. apply Z.bits_inj'. intros j Hj.
      rewrite Hbits, Z.bits_0. destruct (Z.testbit (pr_pending_signals p) j) eqn:Hs; [|done].
      rewrite bool_decide_eq_true_2; [done|]. apply elem_of_seqZ. unfold NSIG.
      destruct (decide (j < 32)) as [|Hge]; [lia|].
      rewrite <- (Z.mod_small _ _ (ok_pending _ _ Hp)), Z.mod_pow2_bits_high in Hs by lia. done.
Qed.

(** Signals stay in the family.  Whatever the target, [sys_kill] changes
    nothing but the pending words of the caller and of its direct children;
    on a process it knows and that is neither, it is [AccessDenied], and on
    one it may signal the bit of the signal becomes pending. *)
Theorem kill_only_family k c pid sig r k' :
  procs_wf k -> kn_current k = Some c -> c <> 0 -> 1 <= sig <= NSIG -> sys_kill k pid sig = (r, k') ->
  signalled c k k' /\
  forall i p, 0 < pid -> find_process pid (kn_procs k) = Some (i, p) ->
    if decide (pr_id p = c \/ pr_parent_pid p = c)
    then r = Ok tt /\ kn_procs k' !! i =
           Some (Some (with_signals (pr_sig_handlers p) (Z.lor (pr_pending_signals p) (2 ^ (sig - 1))) p))
    else r = Err AccessDenied /\ k' = k.
Proof.
  intros H Hc Hc0 Hs. unfold sys_kill, current_process_id. rewrite Hc. cbn [ok_or]. unfold NSIG in Hs.
  destruct (Z.ltb_spec pid 0). { intros [= <- <-]. split; [apply signalled_refl|]. intros i p Hpos. lia. }
  destruct (Z.eqb_spec pid 0).
  { destruct (broadcast _ 0 k c sig 0) as [r1 k1] eqn:E. intros Hr.
    assert (k' = k1) as -> by (destruct r1 as [[|m]|err]; congruence).
    split; [|intros i p Hpos; lia]. eapply broadcast_signalled; [exact H| |exact Hc0|exact E]. lia. }
  assert (Hsend : forall r k', signal_send k pid sig = (r, k') ->
    (forall i p, find_process pid (kn_procs k) = Some (i, p) -> family c p) ->
    signalled c k k' /\ forall i p, find_process pid (kn_procs k) = Some (i, p) ->
      r = Ok tt /\ kn_procs k' !! i =
        Some (Some (with_signals (pr_sig_handlers p) (Z.lor (pr_pending_signals p) (2 ^ (sig - 1))) p))).
  { intros r1 k1 E Hf. split; [by eapply signal_send_signalled|]. intros i p Hp.
    revert E. unfold signal_send, sig_to_bit. replace (sig_ok sig) with true.
    2:{ symmetry. unfold sig_ok, NSIG. by destruct (Z.eqb_spec sig 0), (Z.ltb_spec 32 sig); try lia. }
    rewrite sig_bit, Hp by lia. intros [= <- <-]. split; [done|]. apply find_process_Some in Hp as [Hi _].
    rewrite put_proc_lookup by by eapply lookup_lt_Some. by rewrite decide_True. }
  destruct (Z.eqb_spec pid c) as [->|Hne]; cbn [negb].
  - intros E. destruct (Hsend r k' E) as [H1 H2].
    { intros i p Hp. left. by apply find_process_Some in Hp as [_ ?]. }
    split; [done|]. intros i p _ Hp. pose proof (find_process_Some _ _ _ _ Hp) as [_ Hid].
    rewrite decide_True by by left. by apply H2.
  - destruct (find_process pid (kn_procs k)) as [[j q]|] eqn:E.
    2:{ intros [= <- <-]. split; [apply signalled_refl|]. done. }
    pose proof (find_process_Some _ _ _ _ E) as [_ Hid].
    destruct (Z.eqb_spec (pr_parent_pid q) c) as [Hq|Hq]; cbn [negb].
    + intros Es. destruct (Hsend r k' Es) as [H1 H2]; [intros i p [= <- <-]; by right|].
      split; [done|]. intros i p _ [= <- <-]. rewrite decide_True by by right. by apply H2.
    + intros [= <- <-]. split; [apply signalled_refl|]. intros i p _ [= <- <-].
      rewrite decide_False; [done|]. intros [?|?]; congruence.
Qed.

(** [PROC_MGMT_EXIT] has no such check.  The process that [sys_kill]
    refuses to signal is made a zombie, with a status of the caller's choice,
    by the same caller. *)
Theorem exit_bypasses_kill_check k c pid i p code :
  kn_current k = Some c -> 0 < pid -> find_process pid (kn_procs k) = Some (i, p) ->
  pid <> c -> pr_parent_pid p <> c -> - 2 ^ 31 <= code < 2 ^ 31 ->
  (forall sig, sys_kill k pid sig = (Err AccessDenied, k)) /\
  sys_proc_mgmt k PROC_MGMT_EXIT pid (u64w code) 0 =
    Some (Ok 0, put_proc k i (with_state PZombie (Some code) p)).
Proof.
  intros Hc Hpos E Hne Hpar Hcode. split.
  - intros sig. unfold sys_kill, current_process_id. rewrite Hc. cbn [ok_or].
    destruct (Z.ltb_spec pid 0); [lia|]. destruct (Z.eqb_spec pid 0); [lia|].
    destruct (Z.eqb_spec pid c); [done|]. rewrite E. cbn [negb].
    destruct (Z.eqb_spec (pr_parent_pid p) c); [done|]. done.
  - change (sys_proc_mgmt k PROC_MGMT_EXIT pid (u64w code) 0) with (Some (proc_exit k pid (i32w (u64w code)))).
    unfold proc_exit, mark_process_zombie. rewrite E. do 5 f_equal. unfold i32w, u64w.
    pose proof (Z.div_mod code (2 ^ 64)). pose proof (Z.mod_pos_bound code (2 ^ 64)).
    replace (code mod 2 ^ 64 + 2 ^ 31) with (code + 2 ^ 31 + (- (code / 2 ^ 64) * 2 ^ 32) * 2 ^ 32) by lia.
    rewrite Z.mod_add, Z.mod_small by lia. lia.
Qed.

(** The records of the process list.  A name of up to 108 bytes comes out
    as it went in, beside the two identifiers and the state; a longer one
    makes [serialize] panic.  A name slot holds up to 127 bytes. *)
Theorem list_entry_roundtrip e :
  0 <= le_pid e < 2 ^ 64 -> 0 <= le_parent_pid e < 2 ^ 64 -> 0 <= le_state e < 2 ^ 32 ->
  if decide (length (le_name e) <= 108)%nat
  then exists bs, serialize e = Some bs /\ length bs = 128%nat /\
         mkEntry (rd bs 0 8) (rd bs 8 8) (rd bs 16 4) (take (length (le_name e)) (drop 20 bs)) = e
  else serialize e = None.
Proof.
  intros H1 H2 H3. unfold serialize.
  set (buf := put 16 _ _). assert (Hbuf : length buf = 128%nat) by (unfold buf; by rewrite !length_put).
  unfold slice. case_decide as Hn.
  2:{ by rewrite decide_False by lia. }
  rewrite Nat.min_l by lia. rewrite decide_True by lia. cbn [mbind option_bind].
  eexists. split; [done|]. split; [by rewrite length_put|].
  rewrite take_ge by done. destruct e as [a b c nm]; cbn [le_name le_pid le_parent_pid le_state] in *.
  assert (Hall : put 20 nm buf = puts [(0%nat, le 8 a); (8%nat, le 8 b); (16%nat, le 4 c); (20%nat, nm)]
    ([] ++ replicate 128 0)) by done.
  rewrite Hall, (puts_fill _ 0);
    [|repeat split|done|cbn [map snd concat]; rewrite !length_app, !length_le; cbn; lia].
  cbn [map snd concat app]. rewrite app_nil_r, <- !app_assoc. f_equal.
  - rewrite rd_here by apply length_le. by apply unle_le.
  - read_field. by apply unle_le.
  - read_field. by apply unle_le.
  - rewrite !app_assoc. rewrite <- (app_assoc _ nm), drop_app_length' by by rewrite !length_app, !length_le.
    by rewrite take_app_length.
Qed.

(** *** Pausing *)

(** A process that may still be woken, with nothing pending. *)
Definition idle (pid : Z) (k : Kern) : Prop :=
  exists i p, find_process pid (kn_procs k) = Some (i, p) /\ pr_state p <> PZombie /\ pr_pending_signals p = 0.

Fixpoint slices (sched : nat -> Kern -> Kern) (n count : nat) (k : Kern) : Kern :=
  match count with O => k | S c => slices sched (S n) c (sched n k) end.

Lemma pause_idle sched pid m fuel n k :
  (forall n k, idle pid k -> idle pid (sched n k)) -> idle pid k -> (m <= fuel)%nat -> 1 <= Z.of_nat m <= 10001 ->
  pause_loop fuel sched n (10001 - Z.of_nat m) pid k = Ret (Err TimedOut, slices sched n m k).
Proof.
  intros Hs. revert fuel n k. induction m as [|m IH]; intros fuel n k Hi Hf Hm; [lia|].
  destruct fuel as [|fuel]; [lia|]. cbn [pause_loop slices].
  destruct Hi as (i & p & Hp & Hz & H0). rewrite Hp, decide_False, H0 by done. cbn [Z.eqb].
  rewrite u32w_small by lia.
  destruct (Z.ltb_spec 10000 (10001 - Z.of_nat (S m) + 1)) as [Hlt|Hge].
  - replace m with 0%nat by lia. done.
  - replace (10001 - Z.of_nat (S m) + 1) with (10001 - Z.of_nat m) by lia.
    apply IH; [|lia|lia]. apply Hs. by exists i, p.
Qed.

(** Alive with [sig] pending and ignored. *)
Definition ignoring (pid sig : Z) (k : Kern) : Prop :=
  procs_wf k /\ exists i p, find_process pid (kn_procs k) = Some (i, p) /\ pr_state p <> PZombie /\
    disposition p sig = SIG_IGN /\ pr_pending_signals p = 2 ^ (sig - 1).

(** The signal is consumed by the delivery and sent again in the next slice. *)
Lemma ignoring_round pid sig k :
  1 <= sig <= 32 -> ignoring pid sig k ->
  exists k', dispatch_pending k pid = Some (Ok false, k') /\ ignoring pid sig (snd (signal_send k' pid sig)).
Proof.
  intros Hs (H & i & p & E & Hz & Hd & Hpend). pose proof (found_ok _ _ _ _ H E) as Hp.
  unfold dispatch_pending. rewrite E, Hpend. pose proof (Z.pow_pos_nonneg 2 (sig - 1)).
  destruct (Z.eqb_spec (2 ^ (sig - 1)) 0); [lia|].
  destruct (deliver_spec (seqZ 1 NSIG) (2 ^ (sig - 1)) p (ok_handlers _ _ Hp) signals_range)
    as (b & p' & Hdel & Hb & Hp'). rewrite Hdel.
  destruct b.
  { destruct (proj1 Hb eq_refl) as (n' & _ & Hbit & Hn'). rewrite Z.pow2_bits_eqb in Hbit by lia.
    apply Z.eqb_eq in Hbit. replace n' with sig in Hn' by lia. done. }
  destruct Hp' as [Heq Hbits].
  assert (Hzero : pr_pending_signals p' = 0).
  { apply Z.bits_inj'. intros j Hj. rewrite Hbits, Hpend, Z.bits_0, Z.pow2_bits_eqb by lia.
    destruct (Z.eqb_spec (sig - 1) j) as [<-|]; [|done].
    rewrite bool_decide_eq_true_2; [done|]. apply elem_of_seqZ. unfold NSIG. lia. }
  rewrite Hzero in Heq. exists (put_proc k i p'). split; [done|].
  assert (Hwf : procs_wf (put_proc k i p')).
  { pose proof E as [Hi _]%find_process_Some. eapply put_proc_wf; [done|exact Hi|by rewrite Heq|].
    rewrite Heq. apply proc_ok_signals; try apply Hp. lia. }
  assert (Hf : find_process pid (kn_procs (put_proc k i p')) = Some (i, p')).
  { apply (find_process_update _ _ _ p); [done|by rewrite Heq]. }
  destruct (signal_send (put_proc k i p') pid sig) as [r k2] eqn:Es.
  split; [by eapply signal_send_wf; [exact Hwf| |exact Es]; lia|]. revert Es. unfold signal_send, sig_to_bit.
  replace (sig_ok sig) with true.
  2:{ symmetry. unfold sig_ok, NSIG. by destruct (Z.eqb_spec sig 0), (Z.ltb_spec 32 sig); try lia. }
  rewrite Hf, sig_bit, Hzero, Z.lor_0_l by lia. intros [= <- <-]. cbn [snd].
  eexists i, _. split; [apply (find_process_update _ _ _ p'); [done|]|].
  - cbn. apply find_process_Some in E as [_ E]. by rewrite Heq.
  - by rewrite Heq.
Qed.

(** The time-out of [sys_pause] counts idle rounds only.  A caller that
    nobody signals gives up its time slice 10001 times and then returns
    [TimedOut]; a caller that ignores a signal and is sent it once in every
    slice never returns at all. *)
Theorem pause_timeout k pid :
  kn_current k = Some pid ->
  (forall sched fuel, idle pid k -> (forall n k, idle pid k -> idle pid (sched n k)) -> (Z.to_nat 10001 <= fuel)%nat ->
     sys_pause fuel sched k = Ret (Err TimedOut, slices sched 0 (Z.to_nat 10001) k)) /\
  (forall sig fuel, 1 <= sig <= NSIG -> ignoring pid sig k ->
     sys_pause fuel (fun _ k => snd (signal_send k pid sig)) k = Running).
Proof.
  intros Hc. unfold sys_pause, current_process_id. rewrite Hc. cbn [ok_or]. split.
  - intros sched fuel Hi Hs Hf. pose proof (pause_idle sched pid (Z.to_nat 10001) fuel 0 k Hs Hi Hf ltac:(lia)) as Hp.
    by rewrite Z2Nat.id in Hp by lia.
  - intros sig fuel Hs. generalize 0%nat. clear Hc. unfold NSIG in Hs.
    revert k. induction fuel as [|fuel IH]; intros k n Hk; [done|]. cbn [pause_loop].
    destruct (ignoring_round pid sig k Hs Hk) as (k' & Hd & Hk').
    destruct Hk as (_ & i & p & E & Hz & _ & Hpend). rewrite E, decide_False by done.
    pose proof (Z.pow_pos_nonneg 2 (sig - 1)). rewrite Hpend.
    destruct (Z.eqb_spec (2 ^ (sig - 1)) 0); [lia|]. rewrite Hd. by apply IH.
Qed.

(** *** The working directory *)
Lemma user_bytes_are_bytes m l0 va n bs : user_bytes m l0 va n = Some bs -> length bs = n /\ Forall is_byte bs.
Proof.
  revert va bs. induction n as [|n IH]; intros va bs; cbn [user_bytes]; [by intros [= <-]|].
  destruct (user_pa m l0 va); cbn [mbind option_bind]; [|done].
  destruct (user_bytes m l0 (va + 1) n) as [r|] eqn:E; cbn [mbind option_bind]; [|done].
  intros [= <-]. destruct (IH _ _ E) as [<- Hr]. split; [done|]. constructor; [apply byte_of_range|done].
Qed.

Lemma with_ram_same p : with_ram p (ram p) = p.
Proof. by destruct p. Qed.

Lemma set_kern_ram_same k : set_kern_ram k (kern_ram k) = k.
Proof. unfold set_kern_ram, kern_ram. rewrite with_ram_same. by destruct k. Qed.

(** [wait4] and [PROC_MGMT_WAIT] reap alike.  With no place for the status
    the two calls pick the same child and leave the same kernel, and both
    fail, panic included, in the same states; but where [wait4] says [NotFound]
    because there is no such child, the other call says [TryAgain]. *)
Theorem wait_calls_agree k pid :
  -1 <= pid ->
  match sys_wait4 k pid 0, proc_wait k pid with
  | Some (Ok _, k1), Some (Ok _, k2) => k1 = k2
  | Some (Err e1, k1), Some (Err e2, k2) => k1 = k /\ k2 = k /\ (e1 = e2 \/ e1 = NotFound /\ e2 = TryAgain)
  | None, None => True
  | _, _ => False
  end.
Proof.
  intros Hpid. unfold sys_wait4, proc_wait. destruct (current_process_id k) as [c|e]; [|by auto].
  destruct (Z.ltb_spec pid (-1)); [lia|].
  pose proof (wait_scan_spec c pid 0 (kn_procs k) None) as Hscan.
  destruct (wait_scan _ _ _ _ _) as [[[i p]|] r].
  - destruct Hscan as (n & Hn & Hi & Hw & Hr & Hall). cbn in Hn. subst n. cbn [Z.eqb negb mbind option_bind].
    assert (Hslot : find_slot (fun p => wait_match c pid p && reapable p) (kn_procs k) = Some i).
    { apply find_index_Some. split; [exists (Some p); by rewrite Hw, Hr|].
      intros j [q|] Hj Hq; [|done]. destruct (wait_match c pid q) eqn:E; [|done]. by apply (Hall j). }
    rewrite Hslot, Hi, set_kern_ram_same. by destruct (reap k i).
  - destruct Hscan as [Hnone Hsome].
    assert (Hslot : find_slot (fun p => wait_match c pid p && reapable p) (kn_procs k) = None).
    { apply find_slot_None. intros i p Hi. destruct (wait_match c pid p) eqn:E; [|done]. by apply (Hnone i). }
    rewrite Hslot. destruct r as [q|]; tauto.
Qed.

(** The working directory survives the round trip.  A path of at most 128
    bytes given to [sys_chdir] is what [sys_getcwd] then stores in a buffer
    that is long enough, mapped, and reached by one address per byte; the
    bytes are not inspected. *)
Theorem chdir_getcwd_roundtrip k i p lv cur path buf n bs :
  procs_wf k -> caller k = Ok (i, p) -> 0 < path < 2 ^ 64 -> 0 < buf < 2 ^ 64 -> 0 < n <= 128 ->
  let l0 := pt_l0_pa (pr_page_table p) in
  let m := kern_ram k in
  tree_wf m lv l0 cur -> range_safe m lv l0 buf n -> one_to_one m l0 buf n ->
  (forall j, 0 <= j < n -> is_Some (user_pa m l0 (buf + j))) ->
  safe_copy_from_user m l0 path n = Some (Ok bs) ->
  exists k1 k2, sys_chdir k path n = Some (Ok 0, k1) /\ sys_getcwd k1 buf 128 = Some (Ok n, k2) /\
    safe_copy_from_user (kern_ram k2) l0 buf n = Some (Ok bs).
Proof.
  intros H Hcal Hpath Hbuf Hn l0 m Hwf Hs Hinj Hmap Hcopy.
  destruct (tw_table _ _ _ _ Hwf l0 3%nat (tw_root _ _ _ _ Hwf)) as (_ & _ & Hl0 & _).
  destruct (caller_Ok _ _ _ Hcal) as [Hcur Hf]. pose proof (found_ok _ _ _ _ H Hf) as Hp.
  destruct (ok_cwd _ _ Hp) as [Hcwd _].
  assert (Hbs : length bs = Z.to_nat n /\ Forall is_byte bs).
  { rewrite copy_from_user_eq in Hcopy by lia. destruct (user_bytes _ _ _ _) eqn:E; [|done].
    injection Hcopy as <-. by eapply user_bytes_are_bytes. }
  destruct Hbs as [Hlen Hbytes].
  set (q := with_cwd (put 0 bs (pr_cwd p)) (Z.to_nat n) p). set (k1 := put_proc k i q).
  assert (Hcal1 : caller k1 = Ok (i, q)).
  { unfold caller, current_process_id. change (kn_current k1) with (kn_current k). rewrite Hcur.
    cbn [ok_or mbind result_bind]. unfold k1. cbn [put_proc set_procs kn_procs].
    by rewrite (find_process_update _ _ _ p q Hf). }
  assert (Hz : Z.of_nat (length bs) = n) by lia.
  destruct (copy_to_user_ok m lv l0 cur buf bs Hwf ltac:(by rewrite Hz) Hbytes ltac:(lia)) as (m' & Hc & Hback & _);
    rewrite ?Hz; [done|done|]. rewrite Hz in Hback.
  exists k1, (set_kern_ram k1 m'). split_and!.
  - unfold sys_chdir. destruct (Z.eqb_spec path 0), (Z.eqb_spec n 0); try lia. cbn [orb]. rewrite Hcal.
    fold l0. destruct (Z.eqb_spec l0 0); [lia|]. rewrite Hcwd, Z.min_l by (unfold CWD_MAX; lia).
    fold m. rewrite Hcopy. done.
  - unfold sys_getcwd. destruct (Z.eqb_spec buf 0); [lia|]. rewrite Hcal1. cbn [pr_cwd_len q with_cwd].
    rewrite Z2Nat.id, Z.min_l by lia. destruct (Z.eqb_spec n 0); [lia|].
    change (pt_l0_pa (pr_page_table q)) with l0. destruct (Z.eqb_spec l0 0); [lia|].
    cbn [pr_cwd q with_cwd]. unfold slice. rewrite decide_True by (rewrite length_put, Hcwd; unfold CWD_MAX; lia).
    cbn [mbind option_bind]. rewrite Nat.sub_0_r, drop_0, put_split by (rewrite Hcwd; unfold CWD_MAX; lia).
    rewrite take_0. cbn [app].
    rewrite take_app_length' by done. change (kern_ram k1) with m.
    rewrite Hc. done.
  - exact Hback.
Qed.

(** ** Examples

    Process 1 runs and has the tree of UserCopy.v, with the text [sh] in its
    first page.  Of its children 2 is a zombie and 3 is alive and ignores
    signal 2; process 4 is a child of 3. *)
Definition demo_proc (id parent : Z) (st : ProcessState) (e : option Z) (h : list Z) (l0 : Z) : Process :=
  mkProcess id (NLit [112]) st vmar_new_dummy ht_new 0 (mkTree l0 (replicate 64 0) 0 0 false)
    initial_cwd 1 no_fds USER_FD_BASE e parent h 0 1 [].

Definition dfl : list Z := replicate 32 0.
Definition ign2 : list Z := 0 :: 1 :: replicate 30 0.

Definition demo_kern : Kern :=
  mkKern [Some (demo_proc 1 0 PRunning None dfl 0x1000); Some (demo_proc 2 1 PZombie (Some 7) dfl 0);
          Some (demo_proc 3 1 PRunning None ign2 0); Some (demo_proc 4 3 PRunning None dfl 0);
          None; None; None; None] 5 asids_static
    (with_ram demo_phys (<[0x5000 := 0x6873]> demo_ram)) pipes_init
    (replicate NAME_SLOT_COUNT (replicate NAME_SLOT_CAP 0)) 0 (Some 1).

Lemma demo_slot i p :
  kn_procs demo_kern !! i = Some (Some p) ->
  (i = 0%nat /\ p = demo_proc 1 0 PRunning None dfl 0x1000) \/
  (i = 1%nat /\ p = demo_proc 2 1 PZombie (Some 7) dfl 0) \/
  (i = 2%nat /\ p = demo_proc 3 1 PRunning None ign2 0) \/
  (i = 3%nat /\ p = demo_proc 4 3 PRunning None dfl 0).
Proof. do 8 (destruct i as [|i]; [cbn; intros [= <-]; tauto|]). done. Qed.

Lemma demo_dispositions l :
  l = dfl \/ l = ign2 -> length l = 32%nat /\ Forall (fun h => h = SIG_DFL \/ h = SIG_IGN) l.
Proof.
  intros [-> | ->]; (split; [done|]).
  - apply (Forall_replicate _ 32 0). by left.
  - constructor; [by left|]. constructor; [by right|]. apply (Forall_replicate _ 30 0). by left.
Qed.

Lemma demo_kern_wf : procs_wf demo_kern.
Proof.
  constructor; [done| | |done].
  - intros i p H%demo_slot.
    assert (Hcwd : length initial_cwd = CWD_MAX /\ (1 <= CWD_MAX)%nat) by (split; [done|unfold CWD_MAX; lia]).
    destruct (demo_dispositions dfl ltac:(by left)) as [Hd1 Hd2].
    destruct (demo_dispositions ign2 ltac:(by right)) as [Hi1 Hi2].
    destruct H as [[_ ->]|[[_ ->]|[[_ ->]|[_ ->]]]]; (constructor; [cbn; lia|done|done|cbn; lia|exact Hcwd|done|cbn; lia]).
  - intros i j p q Hi%demo_slot Hj%demo_slot.
    destruct Hi as [[-> ->]|[[-> ->]|[[-> ->]|[-> ->]]]], Hj as [[-> ->]|[[-> ->]|[[-> ->]|[-> ->]]]];
      cbn; lia.
Qed.

(** Process 1 creates a process, signals and reaps its children, and creates
    another one. *)
Definition demo_calls : list proc_call :=
  [CCreate 1 0x1000 0x7000; CKill 3 2; CWait4 (-1) 0x1010; CWait4 2 0; CDispatch 3;
   CCreate 1 0x1000 0x9000; CSwitch (Some 3); CKill 1 9].

Lemma demo_run_ids : (fst <$> proc_run demo_calls demo_kern) = Some [5; 6].
Proof. vm_compute. reflexivity. Qed.

Lemma process_ids_handed_out_once_witness :
  exists ids k', proc_run demo_calls demo_kern = Some (ids, k') /\ procs_wf k' /\ ids = [5; 6].
Proof.
  pose proof demo_run_ids as Hids. destruct (proc_run demo_calls demo_kern) as [[ids k']|] eqn:E; [|done].
  exists ids, k'. split; [done|].
  destruct (process_ids_handed_out_once demo_calls demo_kern ids k' demo_kern_wf) as (Hwf & Hs & _).
  - reflexivity.
  - repeat constructor; done.
  - exact E.
  - split; [exact Hwf|]. by injection Hids.
Defined.

(** Process 1 reaps process 2, once for its status and once with a null
    pointer. *)
Lemma wait4_spec_witness :
  (exists k', sys_wait4 demo_kern (-1) 0x1010 = Some (Ok 2, k') /\ kn_procs k' !! 1%nat = Some None) /\
  exists k', sys_wait4 demo_kern (-1) 0 = Some (Ok 2, k') /\ kn_procs k' !! 1%nat = Some None.
Proof.
  assert (Hs : forall ptr, (fst <$> sys_wait4 demo_kern (-1) ptr) = Some (Ok 2) ->
    exists k', sys_wait4 demo_kern (-1) ptr = Some (Ok 2, k') /\ kn_procs k' !! 1%nat = Some None).
  { intros ptr Hr. pose proof (wait4_spec demo_kern 1 (-1) ptr eq_refl ltac:(lia)) as H.
    destruct (sys_wait4 demo_kern (-1) ptr) as [[r k']|]; [|done]. injection Hr as ->.
    destruct H as (i & p & m & ph & [Hi Hw] & Hz & Hid & _ & _ & _ & ->). eexists. split; [done|].
    destruct (demo_slot i p Hi) as [[-> ->]|[[-> ->]|[[-> ->]|[-> ->]]]]; done. }
  split; apply Hs; vm_compute; reflexivity.
Defined.

(** The status of process 2 is in the buffer. *)
Example wait4_status : ((fun rk => byte_at (kern_ram rk.2) 0x5010) <$> sys_wait4 demo_kern (-1) 0x1010) = Some 7.
Proof. vm_compute. reflexivity. Qed.

(** Process 3 with signals 2 and 5 pending: 2 is ignored, 5 is not. *)
Lemma dispatch_spec_witness :
  exists k', dispatch_pending (snd (signal_send (snd (signal_send demo_kern 3 5)) 3 2)) 3 = Some (Ok true, k') /\
    pr_exit_status <$> mjoin (kn_procs k' !! 2%nat) = Some (Some (-1)).
Proof.
  set (k := snd (signal_send (snd (signal_send demo_kern 3 5)) 3 2)).
  assert (Hwf : procs_wf k).
  { apply send_wf; [|lia]. apply send_wf; [exact demo_kern_wf|lia]. }
  destruct (dispatch_spec k 3 2 (with_signals ign2 18 (demo_proc 3 1 PRunning None ign2 0)) Hwf eq_refl)
    as (b & p' & k' & Hd & Hk' & Hb & ->).
  assert (b = true) as ->.
  { apply Hb. exists 5. split; [unfold NSIG; lia|]. split; reflexivity. }
  exists k'. split; [exact Hd|]. by rewrite Hk'.
Defined.

Lemma kill_only_family_witness :
  fst (sys_kill demo_kern 3 9) = Ok tt /\ fst (sys_kill demo_kern 4 9) = Err AccessDenied /\
  signalled 1 demo_kern (snd (sys_kill demo_kern 0 9)).
Proof.
  destruct (sys_kill demo_kern 3 9) as [r1 k1] eqn:E1. destruct (sys_kill demo_kern 4 9) as [r2 k2] eqn:E2.
  destruct (sys_kill demo_kern 0 9) as [r3 k3] eqn:E3. cbn [fst snd].
  assert (Hs : 1 <= 9 <= NSIG) by (unfold NSIG; lia).
  destruct (kill_only_family demo_kern 1 3 9 r1 k1 demo_kern_wf eq_refl ltac:(lia) Hs E1) as [_ H1].
  destruct (kill_only_family demo_kern 1 4 9 r2 k2 demo_kern_wf eq_refl ltac:(lia) Hs E2) as [_ H2].
  destruct (kill_only_family demo_kern 1 0 9 r3 k3 demo_kern_wf eq_refl ltac:(lia) Hs E3) as [H3 _].
  split; [exact (proj1 (H1 2%nat _ ltac:(lia) eq_refl))|]. split; [|exact H3].
  exact (proj1 (H2 3%nat _ ltac:(lia) eq_refl)).
Defined.

Lemma exit_bypasses_kill_check_witness :
  sys_kill demo_kern 4 9 = (Err AccessDenied, demo_kern) /\
  exists k', sys_proc_mgmt demo_kern PROC_MGMT_EXIT 4 (u64w (-5)) 0 = Some (Ok 0, k').
Proof.
  destruct (exit_bypasses_kill_check demo_kern 1 4 3 (demo_proc 4 3 PRunning None dfl 0) (-5)) as [H1 H2];
    [done|lia|done|lia|cbn; lia|lia|].
  split; [apply H1|]. eexists. exact H2.
Defined.

Lemma list_entry_roundtrip_witness :
  is_Some (serialize (mkEntry 3 1 2 (replicate 108 97))) /\ serialize (mkEntry 3 1 2 (replicate 127 97)) = None.
Proof.
  pose proof (list_entry_roundtrip (mkEntry 3 1 2 (replicate 108 97))) as H1.
  pose proof (list_entry_roundtrip (mkEntry 3 1 2 (replicate 127 97))) as H2.
  cbn [le_pid le_parent_pid le_state le_name] in *. rewrite length_replicate in H1, H2.
  rewrite decide_True in H1 by lia. rewrite decide_False in H2 by lia. split; [|apply H2; lia].
  destruct H1 as (bs & H1 & _); [lia|lia|lia|]. by exists bs.
Defined.

(** Process 3 with signal 2 pending, which it ignores. *)
Definition ignoring_kern : Kern := set_running (snd (signal_send demo_kern 3 2)) (Some 3).

Lemma pause_timeout_witness :
  sys_pause (Z.to_nat 10001) (fun _ k => k) demo_kern = Ret (Err TimedOut, demo_kern) /\
  forall fuel, sys_pause fuel (fun _ k => snd (signal_send k 3 2)) ignoring_kern = Running.
Proof.
  split.
  - rewrite (proj1 (pause_timeout demo_kern 1 eq_refl) (fun _ k => k) (Z.to_nat 10001)).
    + assert (Hs : forall n c k, slices (fun _ k => k) n c k = k) by (intros n c; revert n; induction c as [|c IH]; intros n k; [done|apply IH]).
      by rewrite Hs.
    + exists 0%nat, (demo_proc 1 0 PRunning None dfl 0x1000). done.
    + done.
    + done.
  - intros fuel. apply (proj2 (pause_timeout ignoring_kern 3 eq_refl)); [unfold NSIG; lia|].
    split.
    + apply (same_table_wf (snd (signal_send demo_kern 3 2))); [done|done|].
      apply send_wf; [exact demo_kern_wf|lia].
    + exists 2%nat, (with_signals ign2 2 (demo_proc 3 1 PRunning None ign2 0)). done.
Defined.

Lemma wait_calls_agree_witness :
  (fst <$> proc_wait demo_kern 4) = Some (Err TryAgain) /\ (fst <$> sys_wait4 demo_kern 4 0) = Some (Err NotFound).
Proof.
  pose proof (wait_calls_agree demo_kern 4 ltac:(lia)) as H.
  assert (H4 : sys_wait4 demo_kern 4 0 = Some (Err NotFound, demo_kern)) by reflexivity.
  rewrite H4 in H |- *. destruct (proc_wait demo_kern 4) as [[[c|e] k2]|] eqn:E; [done| |done].
  split; [|done]. destruct H as (_ & _ & [<-|[_ ->]]); [|done]. by vm_compute in E.
Defined.

(** The tree of process 1. *)
Lemma demo_kern_tree :
  tree_wf (kern_ram demo_kern) demo_lv 0x1000 0x5000 /\ forall va len, range_safe (kern_ram demo_kern) demo_lv 0x1000 va len.
Proof.
  destruct (tables_kept demo_ram (kern_ram demo_kern) demo_lv 0x1000 0x5000 demo_tree) as [Hwf Hm].
  { intros t r i Ht Hi. destruct (demo_table t r Ht) as [[-> _]|[[-> _]|[[-> _]|[-> _]]]];
      unfold read_pte, ram_read; change (kern_ram demo_kern) with (<[0x5000 := 0x6873]> demo_ram);
      by rewrite lookup_insert_ne by lia. }
  split; [exact Hwf|]. intros va len i pa t r Hi Hva. rewrite Hm in Hva. exact (demo_safe va len i pa t r Hi Hva).
Qed.

Lemma chdir_getcwd_roundtrip_witness :
  exists k1 k2, sys_chdir demo_kern 0x1000 2 = Some (Ok 0, k1) /\ sys_getcwd k1 0x2000 128 = Some (Ok 2, k2) /\
    safe_copy_from_user (kern_ram k2) 0x1000 0x2000 2 = Some (Ok [115; 104]).
Proof.
  destruct demo_kern_tree as [Hwf Hsafe].
  assert (Htwo : forall j, 0 <= j < 2 -> j = 0 \/ j = 1) by lia.
  apply (chdir_getcwd_roundtrip demo_kern 0 (demo_proc 1 0 PRunning None dfl 0x1000) demo_lv 0x5000);
    [exact demo_kern_wf|done|lia|lia|lia|exact Hwf|apply Hsafe| | |].
  - intros a b pa Ha Hb. destruct (Htwo a Ha) as [-> | ->], (Htwo b Hb) as [-> | ->]; vm_compute; congruence.
  - intros j Hj. destruct (Htwo j Hj) as [-> | ->]; vm_compute; by eexists.
  - vm_compute. reflexivity.
Defined.
