(* ===== verification/ProcFd.v ===== *)
(** * ProcFd: file descriptors of processes

    The descriptor half of kernel/src/syscall/handlers/process.rs: [sys_pipe],
    [alloc_user_fd], [sys_dup2] and [dispatch_pipe_io], over the process table
    of Process.v, the pipes of Pipe.v and the user copies of UserCopy.v.
    [None] is a panic of the kernel. *)
From Stdlib Require Import ZArith Lia.
From stdpp Require Import base tactics option list list_numbers gmap.
From S2P Require Import Prelude Shared Handles Ring Pipe Phys Port Bytes PageTable Asid Vmar Mem Vmo UserCopy Process ProcCalls.
Local Open Scope Z_scope.

(** ** Operations *)

(** The loop of [alloc_user_fd]; the table has [FD_TABLE_SIZE] entries. *)
Fixpoint alloc_fd_loop (n : nat) (table : list (option FdEntry)) (start : Z) : option (kresult Z) :=
  match n with
  | O => Some (Err NoMemory)
  | S n =>
      let start := if Z.of_nat FD_TABLE_SIZE <=? start then USER_FD_BASE else start in
      e ← at_z table start;
      match e with
      | None => Some (Ok start)
      | Some _ => alloc_fd_loop n table (u32w (start + 1) mod Z.of_nat FD_TABLE_SIZE)
      end
  end.

(** The descriptor is not marked as taken. *)
Definition alloc_user_fd (p : Process) : option (kresult Z * Process) :=
  r ← alloc_fd_loop FD_TABLE_SIZE (pr_fd_table p) (Z.max (pr_next_fd p) USER_FD_BASE);
  match r with
  | Err e => Some (Err e, p)
  | Ok fd => Some (Ok fd, with_fds (pr_fd_table p) (u32w (fd + 1) mod Z.of_nat FD_TABLE_SIZE) p)
  end.

Definition set_fd (fd : Z) (e : FdEntry) (p : Process) : Process :=
  with_fds (set_z fd (Some e) (pr_fd_table p)) (pr_next_fd p) p.

Definition sys_pipe (k : Kern) (ufds_ptr : Z) : option (kresult unit * Kern) :=
  match caller k with
  | Err e => Some (Err e, k)
  | Ok (i, p) =>
      let caller_l0 := pt_l0_pa (pr_page_table p) in
      if (caller_l0 =? 0) || (ufds_ptr =? 0) then Some (Err InvalidArgs, k)
      else
        match alloc_pipe (kn_pipes k) with
        | (Err e, t) => Some (Err e, set_pipe_table k t)
        | (Ok pipe_id, t) =>
            '(r, p) ← alloc_user_fd p;
            match r with
            | Err e => Some (Err e, set_pipe_table k t)
            | Ok rd_fd =>
                '(r, p) ← alloc_user_fd p;
                match r with
                | Err e => Some (Err e, set_pipe_table (put_proc k i p) t)
                | Ok wr_fd =>
                    let p := set_fd wr_fd (FdPipe pipe_id PWrite) (set_fd rd_fd (FdPipe pipe_id PRead) p) in
                    m ← copy_out_ok (kern_ram k) caller_l0 (le 4 rd_fd ++ le 4 wr_fd) ufds_ptr;
                    Some (Ok tt, set_kern_ram (set_pipe_table (put_proc k i p) t) m)
                end
            end
        end
  end.

(** [oldfd] and [newfd] are [u32]. *)
Definition sys_dup2 (k : Kern) (oldfd newfd : Z) : option (kresult Z * Kern) :=
  match caller k with
  | Err e => Some (Err e, k)
  | Ok (i, p) =>
      if oldfd =? newfd then Some (Ok newfd, k)
      else if (newfd =? 0) || (newfd =? 1) || (newfd =? 2) then Some (Err NotAllowed, k)
      else
        match (if oldfd <? Z.of_nat FD_TABLE_SIZE then mjoin (at_z (pr_fd_table p) oldfd) else None) with
        | None => Some (Err BadHandle, k)
        | Some (FdPipe pipe role) =>
            old_entry ← at_z (pr_fd_table p) newfd;
            t ← match old_entry with
                | Some (FdPipe pipe' role') => pipe_close_role (kn_pipes k) pipe' role'
                | None => Some (kn_pipes k)
                end;
            t ← pipe_clone_role t pipe role;
            Some (Ok newfd, set_pipe_table (put_proc k i (set_fd newfd (FdPipe pipe role) p)) t)
        end
  end.

(** [Ok None]: not a pipe of the caller. *)
Definition dispatch_pipe_io (k : Kern) (fd buf_ptr buf_len : Z) (is_write : bool) :
    option (kresult (option Z) * Kern) :=
  if (Z.of_nat FD_TABLE_SIZE <=? fd) || (fd <? USER_FD_BASE) then Some (Ok None, k)
  else
    match current_process_id k with
    | Err e => Some (Err e, k)
    | Ok caller_pid =>
        match find_process caller_pid (kn_procs k) with
        | None => Some (Ok None, k)
        | Some (_, p) =>
            e ← at_z (pr_fd_table p) fd;
            match e with
            | None => Some (Ok None, k)
            | Some (FdPipe pipe_id role) =>
                if (buf_ptr =? 0) || (buf_len =? 0) then Some (Ok (Some 0), k)
                else
                  let want := Z.min buf_len 4096 in
                  let l0_pa := pt_l0_pa (pr_page_table p) in
                  if is_write then
                    if decide (role = PRead) then Some (Err NotAllowed, k)
                    else if l0_pa =? 0 then Some (Err InvalidArgs, k)
                    else
                      r ← safe_copy_from_user (kern_ram k) l0_pa buf_ptr want;
                      match r with
                      | Err e => Some (Err e, k)
                      | Ok bs =>
                          '(r, t) ← pipe_write (kn_pipes k) pipe_id bs;
                          Some (n ← r; Ok (Some (Z.of_nat n)), set_pipe_table k t)
                      end
                  else
                    if decide (role = PWrite) then Some (Err NotAllowed, k)
                    else
                      '(r, t) ← pipe_read (kn_pipes k) pipe_id (Z.to_nat want);
                      match r with
                      | Err e => Some (Err e, set_pipe_table k t)
                      | Ok bs =>
                          let n := Z.of_nat (length bs) in
                          m ← (if (0 <? n) && negb (l0_pa =? 0)
                               then copy_out_ok (kern_ram k) l0_pa bs buf_ptr else Some (kern_ram k));
                          Some (Ok (Some n), set_kern_ram (set_pipe_table k t) m)
                      end
            end
        end
    end.

(** ** References to pipes

    The number of descriptors that hold one end of a pipe, in a table and in
    all processes, and the count the pipe keeps. *)
Definition holds (e : FdEntry) (s : option FdEntry) : nat := if decide (s = Some e) then 1 else 0.

Definition table_refs (e : FdEntry) (t : list (option FdEntry)) : nat := sum_list_with (holds e) t.

Definition slot_refs (e : FdEntry) (s : option Process) : nat :=
  match s with Some p => table_refs e (pr_fd_table p) | None => 0 end.

Definition fd_refs (e : FdEntry) (l : list (option Process)) : nat := sum_list_with (slot_refs e) l.

Definition role_count (r : PipeRole) (p : Pipe) : nat := match r with PRead => n_readers p | PWrite => n_writers p end.

Definition pipe_ends (t : PipeTable) (id : Z) (r : PipeRole) : nat :=
  match pipes t !! Z.to_nat id with Some (Some p) => role_count r p | _ => 0 end.

(** Every descriptor is counted by its pipe. *)
Record fds_held (k : Kern) : Prop := {
  fh_pipes : pipes_wf (kn_pipes k);
  fh_table i p : kn_procs k !! i = Some (Some p) -> length (pr_fd_table p) = FD_TABLE_SIZE;
  fh_range i p j id r : kn_procs k !! i = Some (Some p) -> pr_fd_table p !! j = Some (Some (FdPipe id r)) ->
    0 <= id < Z.of_nat MAX_PIPES;
  fh_count id r : 0 <= id < Z.of_nat MAX_PIPES -> (fd_refs (FdPipe id r) (kn_procs k) <= pipe_ends (kn_pipes k) id r)%nat
}.

(** ** Lemmas *)
Lemma sum_insert {A} (f : A -> nat) l i x y :
  l !! i = Some x -> (sum_list_with f (<[i := y]> l) + f x = sum_list_with f l + f y)%nat.
Proof.
  revert i. induction l as [|z l IH]; intros [|i] Hi; try done.
  - injection Hi as ->. cbn. lia.
  - change (<[S i := y]> (z :: l)) with (z :: <[i := y]> l). cbn [sum_list_with]. specialize (IH i Hi). lia.
Qed.

Lemma sum_in {A} (f : A -> nat) l i x : l !! i = Some x -> (f x <= sum_list_with f l)%nat.
Proof.
  revert i. induction l as [|z l IH]; intros [|i] Hi; try done; cbn [sum_list_with].
  - injection Hi as ->. lia.
  - specialize (IH i Hi). lia.
Qed.

(** The count of one end after the operations of Pipe.v. *)
Lemma ends_update t i o id r :
  (i < length (pipes t))%nat ->
  pipe_ends (set_pipes t (<[i := o]> (pipes t))) id r =
  if decide (Z.to_nat id = i) then match o with Some p => role_count r p | None => 0%nat end else pipe_ends t id r.
Proof.
  intros Hi. unfold pipe_ends. cbn [set_pipes pipes]. case_decide as Hd.
  - by rewrite Hd, list_lookup_insert_eq.
  - by rewrite list_lookup_insert_ne.
Qed.

Lemma pipe_slot t id : pipes_wf t -> 0 <= id < Z.of_nat MAX_PIPES -> (Z.to_nat id < length (pipes t))%nat.
Proof. intros (Hl & _) Hid. rewrite Hl. lia. Qed.

Lemma clone_ends t id r :
  pipes_wf t -> 0 <= id < Z.of_nat MAX_PIPES -> (0 < pipe_ends t id r)%nat ->
  exists t', pipe_clone_role t id r = Some t' /\ pipes_wf t' /\
    forall id' r', 0 <= id' -> pipe_ends t' id' r' = (pipe_ends t id' r' + if decide (id' = id /\ r' = r) then 1 else 0)%nat.
Proof.
  intros Hwf Hid Hpos. pose proof (pipe_slot t id Hwf Hid) as Hlt. unfold pipe_clone_role.
  destruct (pipes t !! Z.to_nat id) as [[p|]|] eqn:Hp; try by (unfold pipe_ends in Hpos; rewrite Hp in Hpos; lia).
  eexists. split; [done|]. split.
  - apply (pipes_wf_keep t id p); [done..|]. intros p' [= <-].
    pose proof Hwf as (_ & _ & Hw). destruct (Hw _ _ Hp) as (H1 & H2 & _).
    split; [by apply role_wf|]. destruct r; cbn; lia.
  - intros id' r' Hid'. rewrite ends_update by done. case_decide as Hd.
    + assert (id' = id) as -> by lia. unfold pipe_ends. rewrite Hp.
      destruct r, r'; cbn; case_decide as Hx; try lia; try (by destruct Hx as [_ [=]]); exfalso; by apply Hx.
    + rewrite decide_False; [lia|]. intros [-> _]. lia.
Qed.

Lemma close_ends t id r :
  pipes_wf t -> 0 <= id < Z.of_nat MAX_PIPES -> (0 < pipe_ends t id r)%nat ->
  exists t', pipe_close_role t id r = Some t' /\ pipes_wf t' /\
    forall id' r', 0 <= id' -> (pipe_ends t' id' r' + if decide (id' = id /\ r' = r) then 1 else 0)%nat = pipe_ends t id' r'.
Proof.
  intros Hwf Hid Hpos. pose proof (pipe_slot t id Hwf Hid) as Hlt. unfold pipe_close_role.
  destruct (pipes t !! Z.to_nat id) as [[p|]|] eqn:Hp; try by (unfold pipe_ends in Hpos; rewrite Hp in Hpos; lia).
  assert (Hr : (0 < role_count r p)%nat) by (unfold pipe_ends in Hpos; by rewrite Hp in Hpos).
  pose proof Hwf as (_ & _ & Hw). destruct (Hw _ _ Hp) as (H1 & H2 & _).
  set (p' := drop_role r p).
  assert (Hcount : forall r', (role_count r' p' + if decide (r' = r) then 1 else 0)%nat = role_count r' p).
  { intros r'. unfold p', drop_role. destruct r, r'; cbn [role_count n_readers n_writers] in *;
      case_decide; try done; repeat match goal with |- context [Nat.ltb ?a ?b] => destruct (Nat.ltb_spec a b) end; lia. }
  eexists. split; [done|]. split.
  - apply (pipes_wf_keep t id p); [done..|]. intros q Hq. cbn zeta in Hq.
    destruct (_ && _) eqn:E; [done|]. injection Hq as <-. split; [by apply role_wf|].
    apply andb_false_iff in E as [E|E]; reflect; unfold p' in *; lia.
  - intros id' r' Hid'. rewrite ends_update by done. case_decide as Hd.
    + assert (id' = id) as -> by lia. unfold pipe_ends. rewrite Hp, <- (Hcount r').
      destruct (decide (r' = r)) as [->|Hne].
      * rewrite decide_True by done. destruct (_ && _) eqn:E; [|done]. apply andb_prop in E as [E1 E2]. reflect.
        unfold role_count. destruct r; lia.
      * rewrite decide_False by (by intros [_ ?]). destruct (_ && _) eqn:E; [|done]. apply andb_prop in E as [E1 E2]. reflect.
        unfold role_count. destruct r'; lia.
    + rewrite decide_False; [lia|]. intros [-> _]. lia.
Qed.

Lemma alloc_ends t r t' :
  pipes_wf t -> next_pipe_id t + 1 < 2 ^ 32 -> alloc_pipe t = (r, t') ->
  pipes_wf t' /\
  match r with
  | Ok id => 0 <= id < Z.of_nat MAX_PIPES /\ forall id' r', 0 <= id' ->
      pipe_ends t' id' r' = (if decide (id' = id) then 1 else pipe_ends t id' r')%nat /\
      (id' = id -> pipe_ends t id' r' = 0%nat)
  | Err e => e = NoMemory /\ pipes t' = pipes t
  end.
Proof.
  intros Hwf Hn Ha. pose proof (alloc_pipe_sim t Hwf Hn) as Hsim. rewrite Ha in Hsim. destruct Hsim as [Hwf' _].
  split; [done|]. destruct Hwf as (Hl & Hnext & Hw). revert Ha. unfold alloc_pipe. rewrite u32w_small by lia.
  destruct (Z.leb_spec (Z.of_nat MAX_PIPES) (next_pipe_id t)); intros [= <- <-]; [done|]. split; [lia|].
  intros id' r' Hid'. unfold pipe_ends. cbn [pipes]. split.
  - case_decide as Hd; [subst; rewrite list_lookup_insert_eq by lia; by destruct r'|].
    by rewrite list_lookup_insert_ne by lia.
  - intros ->. destruct (pipes t !! _) as [[p|]|] eqn:Hp; [|done..].
    destruct (Hw _ _ Hp) as (_ & _ & ?). lia.
Qed.

(** Reading and writing keep both counts. *)
Lemma abs_same_counts p p' s :
  abs_pipe p' = s -> sp_readers s = n_readers p -> sp_writers s = n_writers p -> forall r, role_count r p' = role_count r p.
Proof. intros <- H1 H2 []; cbn in *; done. Qed.

Lemma spec_write_counts s data :
  sp_readers (spec_write s data).2 = sp_readers s /\ sp_writers (spec_write s data).2 = sp_writers s.
Proof. unfold spec_write. by repeat case_match. Qed.

Lemma live_pipe t id r : (0 < pipe_ends t id r)%nat -> exists p, pipes t !! Z.to_nat id = Some (Some p) /\ pipe_ends t id r = role_count r p.
Proof. unfold pipe_ends. destruct (pipes t !! Z.to_nat id) as [[p|]|]; [|lia..]. by exists p. Qed.

Lemma keep_ends t i p p' :
  pipes t !! i = Some (Some p) -> (forall r, role_count r p' = role_count r p) ->
  forall id r, pipe_ends (set_pipes t (<[i := Some p']> (pipes t))) id r = pipe_ends t id r.
Proof.
  intros Hp Hc id r. rewrite ends_update by by eapply lookup_lt_Some.
  case_decide as Hd; [|done]. unfold pipe_ends. by rewrite Hd, Hp.
Qed.

Lemma write_ends t id data :
  pipes_wf t -> (0 < pipe_ends t id PWrite)%nat ->
  exists r t', pipe_write t id data = Some (r, t') /\ r <> Err BadHandle /\ pipes_wf t' /\
    forall id' r', pipe_ends t' id' r' = pipe_ends t id' r'.
Proof.
  intros Hwf (p & Hp & _)%live_pipe. destruct (pipe_write_spec t id data p Hwf Hp) as (p' & Hw & Ha & Hpw & Hsum).
  eexists _, _. split; [exact Hw|]. destruct (spec_write_counts (abs_pipe p) data) as [H1 H2]. split_and!.
  - unfold spec_write. by repeat case_match.
  - apply (pipes_wf_keep t id p); [done..|]. intros q [= <-]. split; [done|]. pose proof Hwf as (_ & _ & Hall).
    destruct (Hall _ _ Hp) as (_ & ? & _). lia.
  - apply (keep_ends _ _ p); [done|]. by apply (abs_same_counts p p' _ Ha).
Qed.

Lemma read_ends t id want :
  pipes_wf t -> (0 < pipe_ends t id PRead)%nat ->
  exists bs t', pipe_read t id want = Some (Ok bs, t') /\ pipes_wf t' /\
    forall id' r', pipe_ends t' id' r' = pipe_ends t id' r'.
Proof.
  intros Hwf (p & Hp & _)%live_pipe. destruct (pipe_read_spec t id want p Hwf Hp) as (p' & Hw & Ha & Hpw & Hsum).
  eexists _, _. split; [exact Hw|]. split.
  - apply (pipes_wf_keep t id p); [done..|]. intros q [= <-]. split; [done|]. pose proof Hwf as (_ & _ & Hall).
    destruct (Hall _ _ Hp) as (_ & ? & _). lia.
  - apply (keep_ends _ _ p); [done|]. by apply (abs_same_counts p p' _ Ha).
Qed.

(** *** The invariant *)
Lemma fds_held_ext k k' : kn_procs k' = kn_procs k -> kn_pipes k' = kn_pipes k -> fds_held k -> fds_held k'.
Proof. intros Hp Hq []. constructor; rewrite ?Hp, ?Hq; done. Qed.

Lemma held_refs k i p id r :
  fds_held k -> kn_procs k !! i = Some (Some p) -> 0 <= id < Z.of_nat MAX_PIPES ->
  (table_refs (FdPipe id r) (pr_fd_table p) <= pipe_ends (kn_pipes k) id r)%nat.
Proof.
  intros H Hi Hid. pose proof (sum_in (slot_refs (FdPipe id r)) _ _ _ Hi) as Hs. cbn [slot_refs] in Hs.
  pose proof (fh_count _ H id r Hid). unfold fd_refs in *. lia.
Qed.

(** A descriptor of a process names a live pipe, held at its end. *)
Lemma held_live k i p j id r :
  fds_held k -> kn_procs k !! i = Some (Some p) -> pr_fd_table p !! j = Some (Some (FdPipe id r)) ->
  0 <= id < Z.of_nat MAX_PIPES /\ (0 < pipe_ends (kn_pipes k) id r)%nat.
Proof.
  intros H Hi Hj. pose proof (fh_range _ H _ _ _ _ _ Hi Hj) as Hid. split; [done|].
  pose proof (held_refs k i p id r H Hi Hid). pose proof (sum_in (holds (FdPipe id r)) _ _ _ Hj) as Hs.
  unfold holds at 1 in Hs. rewrite decide_True in Hs by done. unfold table_refs in *. lia.
Qed.

(** One process and the pipes change together. *)
Lemma fds_held_update k i p q t :
  fds_held k -> kn_procs k !! i = Some (Some p) -> pipes_wf t -> length (pr_fd_table q) = FD_TABLE_SIZE ->
  (forall j id r, pr_fd_table q !! j = Some (Some (FdPipe id r)) -> 0 <= id < Z.of_nat MAX_PIPES) ->
  (forall id r, 0 <= id < Z.of_nat MAX_PIPES ->
     (table_refs (FdPipe id r) (pr_fd_table q) + pipe_ends (kn_pipes k) id r <=
      table_refs (FdPipe id r) (pr_fd_table p) + pipe_ends t id r)%nat) ->
  fds_held (set_pipe_table (put_proc k i q) t).
Proof.
  intros H Hi Ht Hl Hrange Hcount. pose proof (lookup_lt_Some _ _ _ Hi) as Hlt.
  assert (Hget : forall a s, kn_procs (put_proc k i q) !! a = Some (Some s) ->
            s = q \/ kn_procs k !! a = Some (Some s)).
  { intros a s. rewrite put_proc_lookup by done. case_decide; [intros [= <-]; by left|by right]. }
  constructor; cbn [set_pipe_table kn_procs kn_pipes]; [done| | |].
  - intros a s [->|Ha]%Hget; [done|]. by apply (fh_table _ H a).
  - intros a s j id r [->|Ha]%Hget Hj; [by apply (Hrange j id r)|]. exact (fh_range _ H a s j id r Ha Hj).
  - intros id r Hid. specialize (Hcount id r Hid). pose proof (fh_count _ H id r Hid) as Hold.
    pose proof (sum_insert (slot_refs (FdPipe id r)) (kn_procs k) i (Some p) (Some q) Hi) as Hs.
    cbn [slot_refs] in Hs. unfold fd_refs in *. cbn [put_proc set_procs kn_procs]. lia.
Qed.

Lemma set_fd_refs e fd e' p old :
  at_z (pr_fd_table p) fd = Some old ->
  (table_refs e (pr_fd_table (set_fd fd e' p)) + holds e old = table_refs e (pr_fd_table p) + holds e (Some e'))%nat.
Proof. intros [_ Hl]%at_z_Some. unfold set_fd. cbn. unfold set_z, table_refs. by apply sum_insert. Qed.

Lemma set_fd_range fd id r p :
  (forall j id r, pr_fd_table p !! j = Some (Some (FdPipe id r)) -> 0 <= id < Z.of_nat MAX_PIPES) ->
  0 <= id < Z.of_nat MAX_PIPES ->
  forall j id' r', pr_fd_table (set_fd fd (FdPipe id r) p) !! j = Some (Some (FdPipe id' r')) ->
    0 <= id' < Z.of_nat MAX_PIPES.
Proof.
  intros Hr Hid j id' r'. unfold set_fd, set_z. cbn.
  intros [(_ & [= <- <-] & _)|[_ Hj]]%list_lookup_insert_Some; [done|]. by apply Hr in Hj.
Qed.

(** *** Descriptors *)
Lemma alloc_fd_loop_ok n table start :
  length table = FD_TABLE_SIZE -> 0 <= start ->
  exists r, alloc_fd_loop n table start = Some r /\
    match r with Ok fd => at_z table fd = Some None | Err e => e = NoMemory end.
Proof.
  intros Hl. revert start. induction n as [|n IH]; intros start Hs; cbn [alloc_fd_loop]; [by eexists|].
  set (s := if _ <=? _ then _ else _).
  assert (Hr : 0 <= s < Z.of_nat (length table)).
  { rewrite Hl. unfold s, FD_TABLE_SIZE, USER_FD_BASE. case_bools; reflect; lia. }
  destruct (at_z_in table s Hr) as [e He]. rewrite He. cbn [mbind option_bind].
  destruct e; [|by eexists]. apply IH. apply Z.mod_pos_bound. unfold FD_TABLE_SIZE. lia.
Qed.

Lemma alloc_user_fd_ok p :
  length (pr_fd_table p) = FD_TABLE_SIZE ->
  exists r q, alloc_user_fd p = Some (r, q) /\ pr_fd_table q = pr_fd_table p /\
    match r with Ok fd => at_z (pr_fd_table p) fd = Some None | Err _ => q = p end.
Proof.
  intros Hl. unfold alloc_user_fd.
  destruct (alloc_fd_loop_ok FD_TABLE_SIZE _ (Z.max (pr_next_fd p) USER_FD_BASE) Hl) as (r & -> & Hr);
    [unfold USER_FD_BASE; lia|]. cbn [mbind option_bind]. destruct r; by eexists _, _.
Qed.

(** The rounds of the loop, by the slots they look at: 0 follows 15. *)
Lemma alloc_fd_loop_skip n table start e :
  0 <= start < Z.of_nat FD_TABLE_SIZE -> at_z table start = Some (Some e) ->
  alloc_fd_loop (S n) table start = alloc_fd_loop n table ((start + 1) mod Z.of_nat FD_TABLE_SIZE).
Proof.
  intros Hs He. cbn [alloc_fd_loop]. destruct (Z.leb_spec (Z.of_nat FD_TABLE_SIZE) start); [lia|].
  rewrite He. cbn [mbind option_bind]. rewrite u32w_small; [done|]. unfold FD_TABLE_SIZE in *. lia.
Qed.

Lemma alloc_fd_full n table start err :
  0 <= start < Z.of_nat FD_TABLE_SIZE -> alloc_fd_loop n table start = Some (Err err) ->
  forall i, 0 <= i < Z.of_nat n -> exists e, at_z table ((start + i) mod Z.of_nat FD_TABLE_SIZE) = Some (Some e).
Proof.
  revert start. induction n as [|n IH]; intros start Hs Hl i Hi; [lia|].
  destruct (at_z table start) as [[e|]|] eqn:He.
  - rewrite (alloc_fd_loop_skip _ _ _ e) in Hl by done. destruct (Z.eq_dec i 0) as [->|Hne].
    + rewrite Z.add_0_r, Z.mod_small by done. by exists e.
    + destruct (IH ((start + 1) mod Z.of_nat FD_TABLE_SIZE) (Z.mod_pos_bound (start + 1) (Z.of_nat FD_TABLE_SIZE) ltac:(lia)) Hl (i - 1) ltac:(lia)) as [e' He'].
      exists e'. rewrite <- He'. f_equal. rewrite Z.add_mod_idemp_l by lia. f_equal. lia.
  - cbn [alloc_fd_loop] in Hl. destruct (Z.leb_spec (Z.of_nat FD_TABLE_SIZE) start); [lia|]. by rewrite He in Hl.
  - cbn [alloc_fd_loop] in Hl. destruct (Z.leb_spec (Z.of_nat FD_TABLE_SIZE) start); [lia|]. by rewrite He in Hl.
Qed.

Lemma alloc_fd_wraps n table start :
  0 <= start < Z.of_nat FD_TABLE_SIZE -> (forall j, start <= j < Z.of_nat FD_TABLE_SIZE -> exists e, at_z table j = Some (Some e)) ->
  at_z table 0 = Some None -> Z.of_nat FD_TABLE_SIZE - start <= Z.of_nat n ->
  alloc_fd_loop (S n) table start = Some (Ok 0).
Proof.
  intros Hs Hfull H0. remember (Z.to_nat (Z.of_nat FD_TABLE_SIZE - start)) as m eqn:Hm.
  revert n start Hs Hfull Hm. induction m as [|m IH]; intros n start Hs Hfull Hm Hn; [lia|].
  destruct (Hfull start ltac:(lia)) as [e He]. rewrite (alloc_fd_loop_skip _ _ _ e) by done.
  destruct n as [|n]; [lia|]. destruct (decide (start + 1 < Z.of_nat FD_TABLE_SIZE)) as [Hlt|Hge].
  - rewrite Z.mod_small by lia. apply IH; [lia| |lia|lia]. intros j Hj. apply Hfull. lia.
  - replace (start + 1) with (Z.of_nat FD_TABLE_SIZE) by lia. rewrite Z.mod_same by (unfold FD_TABLE_SIZE; lia).
    cbn [alloc_fd_loop]. destruct (Z.leb_spec (Z.of_nat FD_TABLE_SIZE) 0); [lia|]. by rewrite H0.
Qed.

(** *** The calls keep the invariant *)
Lemma caller_slot k i p : caller k = Ok (i, p) -> kn_procs k !! i = Some (Some p).
Proof. intros [_ H]%caller_Ok. by apply find_process_Some in H as [? _]. Qed.

Lemma pipes_same_held k t :
  fds_held k -> pipes_wf t -> pipes t = pipes (kn_pipes k) -> fds_held (set_pipe_table k t).
Proof.
  intros [H1 H2 H3 H4] Ht Hp. constructor; cbn; try done. intros id r Hid. unfold pipe_ends.
  rewrite Hp. by apply H4.
Qed.

Lemma sys_pipe_held k ptr r k' :
  fds_held k -> next_pipe_id (kn_pipes k) + 1 < 2 ^ 32 -> sys_pipe k ptr = Some (r, k') -> fds_held k'.
Proof.
  intros H Hn. unfold sys_pipe. destruct (caller k) as [[i p]|e] eqn:Hc; [|by intros [= <- <-]].
  apply caller_slot in Hc. pose proof (fh_table _ H _ _ Hc) as Hl.
  destruct (_ || _); [by intros [= <- <-]|].
  destruct (alloc_pipe (kn_pipes k)) as [r1 t] eqn:Ha. destruct (alloc_ends _ _ _ (fh_pipes _ H) Hn Ha) as [Ht Hr1].
  destruct r1 as [id|e].
  2:{ intros [= <- <-]. destruct Hr1. by apply pipes_same_held. }
  destruct Hr1 as [Hid Hends].
  assert (Hleak : forall q, pr_fd_table q = pr_fd_table p -> fds_held (set_pipe_table (put_proc k i q) t)).
  { intros q Hq. apply (fds_held_update k i p); try done; rewrite Hq; [done| |].
    - intros j id' r'. by apply (fh_range _ H i p).
    - intros id' r' Hid'. destruct (Hends id' r' ltac:(lia)) as [He H0]. rewrite He. case_decide as Hd; [rewrite H0 by done|]; lia. }
  destruct (alloc_user_fd_ok p Hl) as (r2 & p2 & -> & Ht2 & Hr2). cbn [mbind option_bind].
  destruct r2 as [rd|e].
  2:{ intros [= <- <-]. apply (fds_held_ext (set_pipe_table (put_proc k i p) t)); [|done|by apply Hleak].
      cbn. by rewrite list_insert_id. }
  destruct (alloc_user_fd_ok p2) as (r3 & p3 & -> & Ht3 & Hr3); [by rewrite Ht2|]. cbn [mbind option_bind].
  destruct r3 as [wr|e].
  2:{ intros [= <- <-]. apply Hleak. congruence. }
  intros (m & _ & [= <- <-])%bind_Some. rewrite Ht2 in Hr3, Ht3.
  apply (fds_held_ext (set_pipe_table (put_proc k i (set_fd wr (FdPipe id PWrite) (set_fd rd (FdPipe id PRead) p3))) t));
    [done|done|].
  assert (Hrd : at_z (pr_fd_table p3) rd = Some None) by by rewrite Ht3.
  pose proof Hrd as [Hrdr _]%at_z_Some. pose proof Hr3 as [Hwrr _]%at_z_Some.
  assert (Hwr : exists old, at_z (pr_fd_table (set_fd rd (FdPipe id PRead) p3)) wr = Some old).
  { apply at_z_in. unfold set_fd. cbn. rewrite length_set_z, Ht3. exact Hwrr. }
  destruct Hwr as [old Hold].
  apply (fds_held_update k i p); [done|done|done| | |].
  - unfold set_fd. cbn. by rewrite !length_set_z, Ht3.
  - apply set_fd_range; [|done]. apply set_fd_range; [|done]. rewrite Ht3. intros j id' r'. by apply (fh_range _ H i p).
  - intros id' r' Hid'. destruct (Hends id' r' ltac:(lia)) as [He H0].
    pose proof (set_fd_refs (FdPipe id' r') _ (FdPipe id PWrite) _ _ Hold) as R1.
    pose proof (set_fd_refs (FdPipe id' r') _ (FdPipe id PRead) _ _ Hrd) as R2. rewrite Ht3 in R2.
    unfold holds in R1, R2. rewrite He. destruct (decide (id' = id)) as [->|Hne].
    + rewrite H0 by done. clear -R1 R2. destruct r'; repeat case_decide; try done; try lia; congruence.
    + clear -R1 R2 Hne. repeat case_decide; try lia; congruence.
Qed.

Lemma sys_dup2_held k oldfd newfd r k' :
  fds_held k -> 0 <= oldfd -> sys_dup2 k oldfd newfd = Some (r, k') -> fds_held k'.
Proof.
  intros H Ho. unfold sys_dup2. destruct (caller k) as [[i p]|e] eqn:Hc; [|by intros [= <- <-]].
  apply caller_slot in Hc. destruct (Z.eqb_spec oldfd newfd) as [|Hne]; [by intros [= <- <-]|].
  destruct (_ || _); [by intros [= <- <-]|].
  destruct (if _ <? _ then _ else None) as [[id role]|] eqn:Hsrc; [|by intros [= <- <-]].
  assert (Hat : at_z (pr_fd_table p) oldfd = Some (Some (FdPipe id role))).
  { destruct (_ <? _); [|done]. by destruct (at_z (pr_fd_table p) oldfd) as [[?|]|]; simplify_eq/=. }
  pose proof Hat as [_ Hl1]%at_z_Some. destruct (held_live k i p _ _ _ H Hc Hl1) as [Hid Hpos].
  intros (old & Hnew & (t1 & Ht1 & (t2 & Ht2 & [= <- <-])%bind_Some)%bind_Some)%bind_Some.
  pose proof Hnew as [_ Hl2]%at_z_Some.
  assert (Hcl : pipes_wf t1 /\ forall id' r', 0 <= id' ->
            (pipe_ends t1 id' r' + holds (FdPipe id' r') old = pipe_ends (kn_pipes k) id' r')%nat).
  { destruct old as [[pid r1]|]; [|injection Ht1 as <-; split; [apply H|intros; unfold holds; rewrite decide_False by done; lia]].
    destruct (held_live k i p _ _ _ H Hc Hl2) as [Hpid Hppos].
    destruct (close_ends _ _ _ (fh_pipes _ H) Hpid Hppos) as (t & Hct & Hwf & He).
    rewrite Hct in Ht1. injection Ht1 as <-. split; [done|]. intros id' r' Hid'. rewrite <- (He id' r' Hid').
    unfold holds. f_equal. repeat case_decide; destruct_and?; simplify_eq; tauto. }
  destruct Hcl as [Hwf1 He1].
  (* the source keeps its own count across the close *)
  assert (Hpos1 : (0 < pipe_ends t1 id role)%nat).
  { pose proof (He1 id role ltac:(lia)) as He. unfold holds in He. case_decide as Hd; [|lia]. subst old.
    pose proof (held_refs k i p id role H Hc Hid) as Hrefs.
    pose proof (sum_insert (holds (FdPipe id role)) _ _ _ None Hl1) as Hs.
    pose proof (sum_in (holds (FdPipe id role)) (<[Z.to_nat oldfd := None]> (pr_fd_table p)) (Z.to_nat newfd)
      (Some (FdPipe id role))) as Hin.
    rewrite list_lookup_insert_ne in Hin by (apply at_z_Some in Hnew as [? _]; lia). specialize (Hin Hl2).
    unfold holds at 1 in Hin. unfold holds at 2 4 in Hs. rewrite decide_True in Hs, Hin by done.
    rewrite decide_False in Hs by done. unfold table_refs in Hrefs. lia. }
  destruct (clone_ends t1 id role Hwf1 Hid Hpos1) as (t & Hct & Hwf & He2). rewrite Hct in Ht2. injection Ht2 as <-.
  apply (fds_held_update k i p); [done|done|done| | |].
  - unfold set_fd. cbn. rewrite length_set_z. by apply (fh_table _ H i).
  - apply set_fd_range; [|done]. intros j id' r'. by apply (fh_range _ H i p).
  - intros id' r' Hid'. rewrite (He2 id' r') by lia. specialize (He1 id' r' ltac:(lia)).
    pose proof (set_fd_refs (FdPipe id' r') _ (FdPipe id role) _ _ Hnew) as R.
    assert (Heq : holds (FdPipe id' r') (Some (FdPipe id role)) = if decide (id' = id /\ r' = role) then 1%nat else 0%nat).
    { unfold holds. repeat case_decide; destruct_and?; simplify_eq; tauto. }
    rewrite Heq in R. lia.
Qed.

(** I/O returns, and never finds a dead pipe behind a descriptor. *)
Lemma dispatch_held k fd ptr len w :
  fds_held k -> kn_current k <> None -> 0 <= len ->
  exists r k', dispatch_pipe_io k fd ptr len w = Some (r, k') /\ fds_held k' /\ r <> Err BadHandle.
Proof.
  intros H Hcur Hlen. unfold dispatch_pipe_io. destruct (_ || _) eqn:Hfd; [by eexists _, _|]. reflect.
  unfold current_process_id. destruct (kn_current k) as [pid|]; [|done]. cbn [ok_or].
  destruct (find_process pid _) as [[i p]|] eqn:E; [|by eexists _, _].
  apply find_process_Some in E as [Hi _]. pose proof (fh_table _ H _ _ Hi) as Hl.
  destruct (at_z_in (pr_fd_table p) fd) as [e He]; [rewrite Hl; unfold USER_FD_BASE in *; lia|]. rewrite He.
  cbn [mbind option_bind]. destruct e as [[id role]|]; [|by eexists _, _].
  pose proof He as [_ Hj]%at_z_Some. destruct (held_live k i p _ _ _ H Hi Hj) as [Hid Hpos].
  destruct (_ || _); [by eexists _, _|]. destruct w.
  - case_decide as Hrole; [by eexists _, _|]. destruct (_ =? 0) eqn:Hl0; [by eexists _, _|].
    assert (Hcopy : exists r, safe_copy_from_user (kern_ram k) (pt_l0_pa (pr_page_table p)) ptr (Z.min len 4096) = Some r).
    { unfold safe_copy_from_user. rewrite Hl0. destruct (copy_fuel_ok ptr (Z.min len 4096) ltac:(lia)).
      apply copy_in_total; [done|by right]. }
    destruct Hcopy as [[bs|e] Hcp]; rewrite Hcp; cbn [mbind option_bind].
    2:{ eexists _, _. split; [done|]. split; [done|]. intros [= ->]. revert Hcp.
        unfold safe_copy_from_user. rewrite Hl0. by intros ?%copy_in_error. }
    assert (role = PWrite) as -> by by destruct role.
    destruct (write_ends _ id bs (fh_pipes _ H) Hpos) as (r & t & -> & Hr & Ht & Hends). cbn [mbind option_bind].
    eexists _, _. split; [done|]. split.
    + destruct H as [? ? ? Hc]. constructor; cbn; try done. intros id' r' Hid'. rewrite Hends. by apply Hc.
    + destruct r; cbn; congruence.
  - case_decide as Hrole; [by eexists _, _|]. assert (role = PRead) as -> by by destruct role.
    destruct (read_ends _ id (Z.to_nat (Z.min len 4096)) (fh_pipes _ H) Hpos) as (bs & t & -> & Ht & Hends). cbn [mbind option_bind].
    assert (Hend : forall m, fds_held (set_kern_ram (set_pipe_table k t) m)).
    { intros m. destruct H as [? ? ? Hc]. constructor; cbn; try done. intros id' r' Hid'. rewrite Hends. by apply Hc. }
    destruct (_ && _); [|by eexists _, _]. unfold copy_out_ok.
    edestruct safe_copy_to_user_total as [[r' m] ->]. by eexists _, _.
Qed.

(** Processes come with an empty table, and leave with their descriptors
    uncounted. *)
Lemma fresh_held k i p :
  fds_held k -> kn_procs k !! i = Some None -> pr_fd_table p = no_fds -> fds_held (put_proc k i p).
Proof.
  intros H Hi Hp. pose proof (lookup_lt_Some _ _ _ Hi) as Hlt.
  assert (Hget : forall a s, kn_procs (put_proc k i p) !! a = Some (Some s) ->
            s = p \/ kn_procs k !! a = Some (Some s)).
  { intros a s. rewrite put_proc_lookup by done. case_decide; [intros [= <-]; by left|by right]. }
  constructor.
  - apply H.
  - intros a s [->|Ha]%Hget; [by rewrite Hp|]. by apply (fh_table _ H a).
  - intros a s j id r [->|Ha]%Hget; [|by apply (fh_range _ H a)]. rewrite Hp. unfold no_fds.
    by intros [[=] _]%lookup_replicate.
  - intros id r Hid. pose proof (sum_insert (slot_refs (FdPipe id r)) _ i None (Some p) Hi) as Hs.
    cbn [slot_refs] in Hs. rewrite Hp in Hs. change (table_refs (FdPipe id r) no_fds) with 0%nat in Hs.
    pose proof (fh_count _ H id r Hid). unfold fd_refs in *. cbn [put_proc set_procs kn_procs kn_pipes]. lia.
Qed.

Lemma allocate_held nm k r k' : fds_held k -> allocate_process nm k = Some (r, k') -> fds_held k'.
Proof.
  intros H. unfold allocate_process. destruct (first_free _) as [i|] eqn:Hf; [|by intros [= <- <-]].
  apply first_free_Some in Hf as (Hfree & Hlt & _).
  destruct (init_in_place _ _) as [[[p|e] k1]|] eqn:E; [| |done]; intros [= <- <-];
    pose proof (init_in_place_pipes _ _ _ _ E) as Hq; apply init_in_place_ok in E as [Hp E];
    cbn [put_proc set_procs kn_procs kn_pipes] in *.
  - destruct E as (_ & _ & _ & Hfds & _). apply (fds_held_ext (put_proc k i p)); [|done|by apply fresh_held].
    cbn. by rewrite Hp, list_insert_insert_eq.
  - apply (fds_held_ext (put_proc k i process_new_dummy)); [done|done|by apply fresh_held].
Qed.

Lemma reap_held k i k' : fds_held k -> reap k i = Some k' -> fds_held k'.
Proof.
  intros H. unfold reap. destruct (kn_procs k !! i) as [[p|]|] eqn:Hi; [|by intros [= <-]|done].
  intros (ph & _ & [= <-])%bind_Some.
  assert (Hget : forall a s, <[i := None]> (kn_procs k) !! a = Some (Some s) -> kn_procs k !! a = Some (Some s)).
  { intros a s [(_ & [=] & _)|[_ Ha]]%list_lookup_insert_Some. done. }
  constructor; cbn.
  - apply H.
  - intros a s Ha%Hget. by apply (fh_table _ H a).
  - intros a s j id r Ha%Hget. by apply (fh_range _ H a).
  - intros id r Hid. pose proof (sum_insert (slot_refs (FdPipe id r)) _ i (Some p) None Hi) as Hs.
    cbn [slot_refs] in Hs. pose proof (fh_count _ H id r Hid). unfold fd_refs in *. lia.
Qed.

(** ** Runs *)
Inductive fd_call :=
| FPipe (ufds_ptr : Z)
| FDup2 (oldfd newfd : Z)
| FIo (fd buf_ptr buf_len : Z) (is_write : bool)
| FCreate (name : Name)
| FReap (slot : nat)
| FSwitch (next : option Z).

(** The kernel after a call; its answer is dropped. *)
Definition fd_do (c : fd_call) (k : Kern) : option Kern :=
  match c with
  | FPipe ptr => '(_, k) ← sys_pipe k ptr; Some k
  | FDup2 o n => '(_, k) ← sys_dup2 k o n; Some k
  | FIo fd ptr len w => '(_, k) ← dispatch_pipe_io k fd ptr len w; Some k
  | FCreate nm => '(_, k) ← allocate_process nm k; Some k
  | FReap i => reap k i
  | FSwitch t => Some (set_running k t)
  end.

Definition fd_call_ok (c : fd_call) : Prop :=
  match c with FDup2 o _ => 0 <= o | FIo _ _ len _ => 0 <= len | _ => True end.

Fixpoint fd_run (cs : list fd_call) (k : Kern) : option Kern :=
  match cs with [] => Some k | c :: cs => k ← fd_do c k; fd_run cs k end.

(** *** The counter of pipe identifiers *)
Lemma io_next t id want data r t' :
  (pipe_read t id want = Some (r, t') -> next_pipe_id t' = next_pipe_id t) /\
  (forall r, pipe_write t id data = Some (r, t') -> next_pipe_id t' = next_pipe_id t).
Proof.
  unfold pipe_read, pipe_write. split; [intros H|intros r' H]; destruct (pipes t !! _) as [[p|]|]; try done;
    try (by injection H as <- <-).
  - destruct (_ && _); [by injection H as _ <-|]. destruct (pipe_read_loop _ _ _) as [[? ?]|]; [|done]. by injection H as _ <-.
  - destruct (n_readers p =? 0)%nat; [by injection H as _ <-|]. destruct (pipe_write_loop _ _ _). by injection H as _ <-.
Qed.

Lemma role_next t id r t' :
  (pipe_clone_role t id r = Some t' -> next_pipe_id t' = next_pipe_id t) /\
  (pipe_close_role t id r = Some t' -> next_pipe_id t' = next_pipe_id t).
Proof. unfold pipe_clone_role, pipe_close_role. by destruct (pipes t !! _) as [[p|]|]; split; intros [= <-]. Qed.

Lemma fd_do_next c k k' :
  pipes_wf (kn_pipes k) -> next_pipe_id (kn_pipes k) + 1 < 2 ^ 32 -> fd_do c k = Some k' ->
  next_pipe_id (kn_pipes k') <= next_pipe_id (kn_pipes k) + 1.
Proof.
  intros (_ & Hn & _) Hmax. destruct c as [ptr|o n|fd ptr len w|nm|i|t]; cbn [fd_do].
  - intros ([r k1] & H & [= <-])%bind_Some. revert H. unfold sys_pipe.
    destruct (caller k) as [[i p]|e]; [|intros [= <- <-]; lia]. destruct (_ || _); [intros [= <- <-]; lia|].
    unfold alloc_pipe. rewrite u32w_small, u64w_small by lia.
    destruct (_ <=? _); [intros [= <- <-]; cbn; lia|].
    intros ([r1 p1] & _ & H1)%bind_Some. destruct r1; [|injection H1 as <- <-; cbn; lia].
    apply bind_Some in H1 as ([r2 p2] & _ & H2). destruct r2; [|injection H2 as <- <-; cbn; lia].
    apply bind_Some in H2 as (m & _ & H3). injection H3 as <- <-. cbn. lia.
  - intros ([r k1] & H & [= <-])%bind_Some. revert H. unfold sys_dup2.
    destruct (caller k) as [[i p]|e]; [|intros [= <- <-]; lia]. destruct (_ =? _); [intros [= <- <-]; lia|].
    destruct (_ || _); [intros [= <- <-]; lia|]. destruct (if _ <? _ then _ else _) as [[id role]|]; [|intros [= <- <-]; lia].
    intros (old & _ & (t1 & H1 & (t2 & H2 & [= <- <-])%bind_Some)%bind_Some)%bind_Some.
    apply role_next in H2. cbn. rewrite H2. destruct old as [[pid r']|]; [apply role_next in H1 as ->|injection H1 as <-]; lia.
  - intros ([r k1] & H & [= <-])%bind_Some. revert H. unfold dispatch_pipe_io.
    destruct (_ || _); [intros [= <- <-]; lia|]. destruct (current_process_id k); [|intros [= <- <-]; lia].
    destruct (find_process _ _) as [[i p]|]; [|intros [= <- <-]; lia].
    intros (e & _ & H)%bind_Some. destruct e as [[id role]|]; [|injection H as <- <-; lia].
    destruct (_ || _); [injection H as <- <-; lia|]. destruct w; case_decide; try (injection H as <- <-; lia).
    + destruct (_ =? 0); [injection H as <- <-; lia|]. apply bind_Some in H as ([bs|e] & _ & H); [|injection H as <- <-; lia].
      apply bind_Some in H as ([r1 t] & Hw & H). injection H as <- <-. cbn. apply (io_next _ _ 0%nat bs (Ok [])) in Hw. lia.
    + apply bind_Some in H as ([r1 t] & Hr & H). apply (io_next _ _ _ []) in Hr.
      destruct r1; [|injection H as <- <-; cbn; lia]. apply bind_Some in H as (m & _ & H). injection H as <- <-. cbn. lia.
  - intros ([r k1] & H & [= <-])%bind_Some. revert H. unfold allocate_process.
    destruct (first_free _); [|intros [= <- <-]; lia].
    destruct (init_in_place _ _) as [[[p|e] k2]|] eqn:E; [| |done]; intros [= <- <-];
      apply init_in_place_pipes in E; cbn; rewrite E; cbn; lia.
  - unfold reap. destruct (kn_procs k !! i) as [[p|]|]; [|intros [= <-]; lia|done].
    intros (ph & _ & [= <-])%bind_Some. cbn. lia.
  - intros [= <-]. cbn. lia.
Qed.

(** The search from a full tail comes to slot 0. *)
Lemma alloc_reserved p :
  0 <= pr_next_fd p < Z.of_nat FD_TABLE_SIZE ->
  (forall j, USER_FD_BASE <= j < Z.of_nat FD_TABLE_SIZE -> exists e, at_z (pr_fd_table p) j = Some (Some e)) ->
  at_z (pr_fd_table p) 0 = Some None -> exists q, alloc_user_fd p = Some (Ok 0, q).
Proof.
  intros Hnext Hfull H0. unfold alloc_user_fd.
  rewrite (alloc_fd_wraps 15 _ (Z.max (pr_next_fd p) USER_FD_BASE)); [by eexists| | |done|].
  - unfold USER_FD_BASE, FD_TABLE_SIZE in *. lia.
  - intros j Hj. apply Hfull. lia.
  - unfold USER_FD_BASE, FD_TABLE_SIZE in *. lia.
Qed.

Lemma alloc_user_fd_inv p r q :
  alloc_user_fd p = Some (r, q) ->
  alloc_fd_loop FD_TABLE_SIZE (pr_fd_table p) (Z.max (pr_next_fd p) USER_FD_BASE) = Some r /\
  match r with Ok _ => 0 <= pr_next_fd q < Z.of_nat FD_TABLE_SIZE | Err _ => q = p end.
Proof.
  unfold alloc_user_fd. destruct (alloc_fd_loop _ _ _) as [[fd|e]|]; cbn [mbind option_bind]; [| |done];
    intros [= <- <-]; (split; [done|]); [|done]. apply Z.mod_pos_bound. unfold FD_TABLE_SIZE. lia.
Qed.

Lemma alloc_twice p fd q :
  length (pr_fd_table p) = FD_TABLE_SIZE -> at_z (pr_fd_table p) fd = Some None ->
  (forall j, at_z (pr_fd_table p) j = Some None -> j = fd) -> alloc_user_fd p = Some (Ok fd, q) ->
  exists q', alloc_user_fd q = Some (Ok fd, q').
Proof.
  intros Hl Hfree Hone Ha. destruct (alloc_user_fd_ok p Hl) as (r & q1 & Ha' & Ht & _).
  rewrite Ha in Ha'. injection Ha' as <- <-.
  apply alloc_user_fd_inv in Ha as [_ Hnext].
  destruct (alloc_user_fd_ok q) as (r & q' & Hq & _ & Hr); [by rewrite Ht|].
  exists q'. rewrite Hq. destruct r as [fd'|e]; [rewrite Ht in Hr; by rewrite (Hone _ Hr)|]. exfalso.
  apply alloc_user_fd_inv in Hq as [Hq _]. rewrite Ht in Hq.
  set (s := Z.max (pr_next_fd q) USER_FD_BASE) in Hq.
  assert (Hs : 0 <= s < Z.of_nat FD_TABLE_SIZE) by (unfold s, FD_TABLE_SIZE, USER_FD_BASE in *; lia).
  pose proof Hfree as [Hr' _]%at_z_Some. rewrite Hl in Hr'.
  destruct (alloc_fd_full _ _ _ _ Hs Hq ((fd - s) mod Z.of_nat FD_TABLE_SIZE)) as [e' He'].
  { apply Z.mod_pos_bound. lia. }
  rewrite Z.add_mod_idemp_r in He' by lia. replace (s + (fd - s)) with fd in He' by lia.
  rewrite Z.mod_small in He' by lia. congruence.
Qed.

Lemma dup2_past_table k i p oldfd newfd e :
  caller k = Ok (i, p) -> length (pr_fd_table p) = FD_TABLE_SIZE ->
  at_z (pr_fd_table p) oldfd = Some (Some e) -> oldfd <> newfd -> Z.of_nat FD_TABLE_SIZE <= newfd ->
  sys_dup2 k oldfd newfd = None.
Proof.
  intros Hc Hl Ho Hne Hn. unfold sys_dup2. rewrite Hc.
  destruct (Z.eqb_spec oldfd newfd); [done|].
  unfold FD_TABLE_SIZE in *. destruct (Z.eqb_spec newfd 0), (Z.eqb_spec newfd 1), (Z.eqb_spec newfd 2); try lia.
  cbn [orb]. pose proof Ho as [Hr _]%at_z_Some. destruct (Z.ltb_spec oldfd (Z.of_nat 16)); [|lia].
  rewrite Ho. cbn [mjoin option_join]. destruct e as [id role].
  destruct (at_z (pr_fd_table p) newfd) eqn:E; [apply at_z_Some in E as [? _]; lia|done].
Qed.

(** ** Claims *)

(** C18. Descriptors never dangle.  Start from processes whose descriptors are
    all counted by their pipes, and let any sequence of [sys_pipe], [sys_dup2],
    pipe I/O, process creation, reaping and switching run to its end.  Then
    every descriptor is still counted, and a read or write through any
    descriptor of the running process returns, and not with [BadHandle]. *)
Theorem fds_never_dangle cs k k' :
  fds_held k -> next_pipe_id (kn_pipes k) + Z.of_nat (length cs) < 2 ^ 32 -> Forall fd_call_ok cs ->
  fd_run cs k = Some k' ->
  fds_held k' /\
  forall fd ptr len w, kn_current k' <> None -> 0 <= len ->
    exists r k'', dispatch_pipe_io k' fd ptr len w = Some (r, k'') /\ r <> Err BadHandle.
Proof.
  intros H Hn Hok Hrun. enough (H' : fds_held k').
  { split; [done|]. intros fd ptr len w Hcur Hlen.
    destruct (dispatch_held k' fd ptr len w H' Hcur Hlen) as (r & k'' & Hd & _ & Hr). by exists r, k''. }
  revert k H Hn Hrun. induction Hok as [|c cs Hc Hok IH]; intros k H Hn; cbn [fd_run length] in *; [by intros [= <-]|].
  intros (k1 & Hk1 & Hrun)%bind_Some.
  pose proof (fd_do_next c k k1 (fh_pipes _ H) ltac:(lia) Hk1) as Hnext.
  apply (IH k1); [|lia|done]. clear IH Hrun.
  destruct c as [ptr|o n|fd ptr len w|nm|i|t]; cbn [fd_do fd_call_ok] in *.
  - apply bind_Some in Hk1 as ([r k2] & E & [= <-]). by eapply sys_pipe_held; [exact H|lia|].
  - apply bind_Some in Hk1 as ([r k2] & E & [= <-]). by eapply sys_dup2_held.
  - apply bind_Some in Hk1 as ([r k2] & E & [= <-]). destruct (decide (kn_current k = None)) as [Hnone|Hcur].
    + unfold dispatch_pipe_io, current_process_id in E. rewrite Hnone in E.
      by destruct (_ || _); injection E as <- <-.
    + destruct (dispatch_held k fd ptr len w H Hcur Hc) as (r' & k'' & Hd & Hh & _). congruence.
  - apply bind_Some in Hk1 as ([r k2] & E & [= <-]). by eapply allocate_held.
  - by eapply reap_held.
  - injection Hk1 as <-. by apply (fds_held_ext k).
Qed.

(** The edges of the descriptor table.  When descriptors 3 to 15 are taken
    and 0 is not, the next one handed out is 0, through which no pipe can be
    used; the two descriptors of [sys_pipe] are the same one when a single
    slot is free; and [sys_dup2] onto a number past the table panics. *)
Theorem fd_table_edges :
  (forall p, 0 <= pr_next_fd p < Z.of_nat FD_TABLE_SIZE ->
     (forall j, USER_FD_BASE <= j < Z.of_nat FD_TABLE_SIZE -> exists e, at_z (pr_fd_table p) j = Some (Some e)) ->
     at_z (pr_fd_table p) 0 = Some None ->
     (exists q, alloc_user_fd p = Some (Ok 0, q)) /\
     forall k ptr len w, dispatch_pipe_io k 0 ptr len w = Some (Ok None, k)) /\
  (forall p fd q, length (pr_fd_table p) = FD_TABLE_SIZE -> at_z (pr_fd_table p) fd = Some None ->
     (forall j, at_z (pr_fd_table p) j = Some None -> j = fd) -> alloc_user_fd p = Some (Ok fd, q) ->
     exists q', alloc_user_fd q = Some (Ok fd, q')) /\
  (forall k i p oldfd newfd e, caller k = Ok (i, p) -> length (pr_fd_table p) = FD_TABLE_SIZE ->
     at_z (pr_fd_table p) oldfd = Some (Some e) -> oldfd <> newfd -> Z.of_nat FD_TABLE_SIZE <= newfd ->
     sys_dup2 k oldfd newfd = None).
Proof.
  split_and!.
  - intros p Hnext Hfull H0. split; [by apply alloc_reserved|].
    intros. unfold dispatch_pipe_io. by rewrite orb_true_r.
  - intros p fd q. apply alloc_twice.
  - intros k i p oldfd newfd e. apply dup2_past_table.
Qed.

Lemma pipe_buf_size : Z.of_nat PIPE_BUF_SIZE = 4096.
Proof. apply Z2Nat.id. lia. Qed.

#[local] Opaque PIPE_BUF_SIZE.

(** A write of bytes that fit into an empty pipe, then a read of as many. *)
Lemma pipe_there_and_back t id p bs n :
  pipes_wf t -> pipes t !! Z.to_nat id = Some (Some p) -> pipe_contents p = [] -> (0 < n_readers p)%nat ->
  length bs = n -> (0 < n < PIPE_BUF_SIZE)%nat ->
  exists t1 t2, pipe_write t id bs = Some (Ok n, t1) /\ pipe_read t1 id n = Some (Ok bs, t2).
Proof.
  intros Hwf Hp He Hr Hl Hn. destruct (pipe_write_spec t id bs p Hwf Hp) as (p1 & Hw & Ha & Hp1 & Hsum).
  unfold spec_write in Hw, Ha. cbn [sp_readers sp_bytes sp_writers abs_pipe] in Hw, Ha. rewrite He in Hw, Ha.
  destruct (Nat.eqb_spec (n_readers p) 0); [lia|]. cbn [length] in Hw, Ha. rewrite Nat.sub_0_r in Hw, Ha.
  destruct (Nat.eqb_spec (PIPE_BUF_SIZE - 1) 0); [lia|]. cbn [andb fst snd app] in Hw, Ha.
  rewrite take_ge in Ha by lia. rewrite Nat.min_l, Hl in Hw by lia.
  set (t1 := set_pipes t _) in Hw. exists t1. rewrite Hw.
  assert (Hwf1 : pipes_wf t1).
  { apply (pipes_wf_keep t id p); [done..|]. intros q [= <-]. split; [done|]. lia. }
  assert (Hp1' : pipes t1 !! Z.to_nat id = Some (Some p1)).
  { cbn. apply list_lookup_insert_eq. by eapply lookup_lt_Some. }
  destruct (pipe_read_spec t1 id n p1 Hwf1 Hp1') as (p2 & Hrd & _).
  assert (Hc : pipe_contents p1 = bs) by (by injection Ha).
  rewrite Hc, take_ge in Hrd by lia. eexists. split; [done|exact Hrd].
Qed.

(** Bytes go from process memory through a pipe and back.  What a process
    writes (at most 4095 bytes, into an empty pipe) through one descriptor it
    reads back through the other one, into any buffer that is mapped with one
    address per byte. *)
Theorem pipe_io_roundtrip k i p wfd rfd id pp src dst n bs lv cur :
  fds_held k -> caller k = Ok (i, p) ->
  let l0 := pt_l0_pa (pr_page_table p) in
  let m := kern_ram k in
  USER_FD_BASE <= wfd -> at_z (pr_fd_table p) wfd = Some (Some (FdPipe id PWrite)) ->
  USER_FD_BASE <= rfd -> at_z (pr_fd_table p) rfd = Some (Some (FdPipe id PRead)) ->
  pipes (kn_pipes k) !! Z.to_nat id = Some (Some pp) -> pipe_contents pp = [] ->
  0 < n < 4096 -> 0 < src < 2 ^ 64 -> 0 < dst < 2 ^ 64 ->
  tree_wf m lv l0 cur -> range_safe m lv l0 dst n -> one_to_one m l0 dst n ->
  (forall j, 0 <= j < n -> is_Some (user_pa m l0 (dst + j))) ->
  safe_copy_from_user m l0 src n = Some (Ok bs) ->
  exists k1 k2, dispatch_pipe_io k wfd src n true = Some (Ok (Some n), k1) /\
    dispatch_pipe_io k1 rfd dst n false = Some (Ok (Some n), k2) /\
    safe_copy_from_user (kern_ram k2) l0 dst n = Some (Ok bs).
Proof.
  intros H Hcal l0 m Hw3 Hw Hr3 Hr Hpp Hempty Hn Hsrc Hdst Hwf Hs Hinj Hmap Hcopy.
  destruct (tw_table _ _ _ _ Hwf l0 3%nat (tw_root _ _ _ _ Hwf)) as (_ & _ & Hl0 & _).
  destruct (caller_Ok _ _ _ Hcal) as [Hcur Hf]. pose proof (caller_slot _ _ _ Hcal) as Hi.
  pose proof (fh_table _ H _ _ Hi) as Hlen.
  pose proof Hw as [Hwr _]%at_z_Some. pose proof Hr as [Hrr Hrl]%at_z_Some. rewrite Hlen in Hwr, Hrr.
  destruct (held_live k i p _ _ _ H Hi Hrl) as [_ Hpos]. unfold pipe_ends in Hpos. rewrite Hpp in Hpos. cbn in Hpos.
  assert (Hbs : length bs = Z.to_nat n /\ Forall is_byte bs).
  { rewrite copy_from_user_eq in Hcopy by lia. destruct (user_bytes _ _ _ _) eqn:E; [|done].
    injection Hcopy as <-. by eapply user_bytes_are_bytes. }
  destruct Hbs as [Hbl Hbytes]. pose proof pipe_buf_size as Hsize.
  destruct (pipe_there_and_back (kn_pipes k) id pp bs (Z.to_nat n) (fh_pipes _ H) Hpp Hempty Hpos Hbl ltac:(lia))
    as (t1 & t2 & Hwrite & Hread).
  destruct (copy_to_user_ok m lv l0 cur dst bs Hwf ltac:(by rewrite Hbl, Z2Nat.id by lia) Hbytes ltac:(lia)) as (m' & Hout & Hback & _).
  { by rewrite Hbl, Z2Nat.id by lia. }
  { by rewrite Hbl, Z2Nat.id by lia. }
  rewrite Hbl, Z2Nat.id in Hback by lia.
  exists (set_pipe_table k t1), (set_kern_ram (set_pipe_table (set_pipe_table k t1) t2) m').
  assert (Hfd : forall fd, USER_FD_BASE <= fd -> 0 <= fd < Z.of_nat FD_TABLE_SIZE ->
            (Z.of_nat FD_TABLE_SIZE <=? fd) || (fd <? USER_FD_BASE) = false).
  { intros fd ??. destruct (Z.leb_spec (Z.of_nat FD_TABLE_SIZE) fd), (Z.ltb_spec fd USER_FD_BASE); lia || done. }
  assert (Hnz : forall ptr, 0 < ptr -> (ptr =? 0) || (n =? 0) = false).
  { intros ptr ?. destruct (Z.eqb_spec ptr 0), (Z.eqb_spec n 0); lia || done. }
  split; [|split].
  - unfold dispatch_pipe_io, current_process_id. rewrite Hfd, Hcur by done. cbn [ok_or]. rewrite Hf, Hw.
    cbn [mbind option_bind]. rewrite Hnz, Z.min_l by lia. rewrite decide_False by done. fold l0.
    destruct (Z.eqb_spec l0 0); [lia|]. fold m. rewrite Hcopy. cbn [mbind option_bind]. rewrite Hwrite. cbn. by rewrite Z2Nat.id by lia.
  - unfold dispatch_pipe_io, current_process_id. rewrite Hfd by done. cbn [set_pipe_table kn_current kn_procs kn_pipes].
    rewrite Hcur. cbn [ok_or]. rewrite Hf, Hr.
    cbn [mbind option_bind]. rewrite Hnz, Z.min_l by lia. rewrite decide_False by done. fold l0.
    rewrite Hread. cbn [mbind option_bind]. rewrite Hbl, Z2Nat.id by lia. destruct (Z.ltb_spec 0 n); [|lia]. destruct (Z.eqb_spec l0 0); [lia|].
    cbn [andb negb]. change (kern_ram (set_pipe_table k t1)) with m. unfold copy_out_ok. by rewrite Hout.
  - exact Hback.
Qed.

#[local] Transparent PIPE_BUF_SIZE.

(** ** Examples

    Process 1 of ProcCalls.v makes a pipe, duplicates its reading end and
    moves two bytes; a child is reaped and another process created. *)
Definition demo_fd_calls : list fd_call :=
  [FPipe 0x1010; FDup2 3 7; FIo 4 0x1000 2 true; FIo 7 0x1100 2 false; FReap 1; FCreate (NLit []); FDup2 4 3].

Lemma demo_fds_held : fds_held demo_kern.
Proof.
  assert (Hno : forall i p, kn_procs demo_kern !! i = Some (Some p) -> pr_fd_table p = no_fds).
  { intros i p [[-> ->]|[[-> ->]|[[-> ->]|[-> ->]]]]%demo_slot; done. }
  constructor.
  - apply pipes_init_wf.
  - intros i p ->%Hno. done.
  - intros i p j id r ->%Hno. unfold no_fds. by intros [[=] _]%lookup_replicate.
  - intros id r _. change (fd_refs (FdPipe id r) (kn_procs demo_kern)) with 0%nat. lia.
Qed.

Lemma fds_never_dangle_witness :
  exists k', fd_run demo_fd_calls demo_kern = Some k' /\ fds_held k' /\
    exists r k'', dispatch_pipe_io k' 7 0x1100 2 false = Some (r, k'') /\ r <> Err BadHandle.
Proof.
  assert (Hsome : (kn_current <$> fd_run demo_fd_calls demo_kern) = Some (Some 1)) by (vm_compute; reflexivity).
  destruct (fd_run demo_fd_calls demo_kern) as [k'|] eqn:E; [|done]. exists k'. split; [done|].
  destruct (fds_never_dangle demo_fd_calls demo_kern k' demo_fds_held) as [H1 H2].
  - reflexivity.
  - repeat constructor; cbn; lia.
  - exact E.
  - split; [exact H1|]. apply H2; [|lia]. injection Hsome as ->. done.
Defined.

Definition full_fds : list (option FdEntry) :=
  replicate 3 None ++ replicate 12 (Some (FdPipe 0 PRead)) ++ [Some (FdPipe 0 PWrite)].

Lemma fd_table_edges_witness :
  (exists q, alloc_user_fd (with_fds full_fds 5 process_new_dummy) = Some (Ok 0, q)) /\
  sys_dup2 (put_proc demo_kern 0 (set_fd 3 (FdPipe 0 PRead) (demo_proc 1 0 PRunning None dfl 0x1000))) 3 16 = None.
Proof.
  split.
  - apply (proj1 fd_table_edges); [unfold FD_TABLE_SIZE; cbn; lia| |done].
    intros j Hj. assert (Hj' : j < 15 \/ j = 15) by (unfold USER_FD_BASE, FD_TABLE_SIZE in Hj; lia).
    unfold USER_FD_BASE in Hj. change (pr_fd_table (with_fds full_fds 5 process_new_dummy)) with full_fds.
    unfold at_z. destruct (Z.leb_spec 0 j); [|lia]. destruct Hj' as [Hlt| ->]; [|by eexists].
    exists (FdPipe 0 PRead). unfold full_fds.
    rewrite lookup_app_r, lookup_app_l by (rewrite ?length_replicate; lia).
    apply lookup_replicate. rewrite length_replicate. split; [done|lia].
  - apply (proj2 (proj2 fd_table_edges) _ 0%nat (set_fd 3 (FdPipe 0 PRead) (demo_proc 1 0 PRunning None dfl 0x1000)) 3 16 (FdPipe 0 PRead));
      [done|done|done|lia|unfold FD_TABLE_SIZE; lia].
Defined.

(** Process 1 with a fresh pipe on descriptors 3 and 4. *)
Definition pipe_proc : Process :=
  set_fd 4 (FdPipe 0 PWrite) (set_fd 3 (FdPipe 0 PRead) (with_fds no_fds 5 (demo_proc 1 0 PRunning None dfl 0x1000))).
Definition pipe_kern : Kern := set_pipe_table (put_proc demo_kern 0 pipe_proc) (snd (alloc_pipe pipes_init)).

Lemma pipe_kern_held : fds_held pipe_kern.
Proof.
  assert (Hrun : ((fun x => (kn_procs x.2, kn_pipes x.2)) <$> sys_pipe demo_kern 0x1010) =
    Some (kn_procs pipe_kern, kn_pipes pipe_kern)) by (vm_compute; reflexivity).
  destruct (sys_pipe demo_kern 0x1010) as [[r k']|] eqn:E; [|done]. injection Hrun as Hp Hq.
  apply (sys_pipe_held _ _ _ _ demo_fds_held) in E; [|done]. by apply (fds_held_ext k').
Qed.

Lemma pipe_io_roundtrip_witness :
  exists k1 k2, dispatch_pipe_io pipe_kern 4 0x1000 2 true = Some (Ok (Some 2), k1) /\
    dispatch_pipe_io k1 3 0x2000 2 false = Some (Ok (Some 2), k2) /\
    safe_copy_from_user (kern_ram k2) 0x1000 0x2000 2 = Some (Ok [115; 104]).
Proof.
  destruct demo_kern_tree as [Hwf Hsafe].
  assert (Htwo : forall j, 0 <= j < 2 -> j = 0 \/ j = 1) by lia.
  apply (pipe_io_roundtrip pipe_kern 0 pipe_proc 4 3 0
           (mkPipe (replicate PIPE_BUF_SIZE 0) 0 0 1 1) 0x1000 0x2000 2 [115; 104] demo_lv 0x5000);
    [exact pipe_kern_held|done|unfold USER_FD_BASE; lia|done|unfold USER_FD_BASE; lia|done| | |lia|lia|lia|exact Hwf|apply Hsafe| | |].
  - done.
  - vm_compute. reflexivity.
  - intros a b pa Ha Hb. destruct (Htwo a Ha) as [-> | ->], (Htwo b Hb) as [-> | ->]; vm_compute; congruence.
  - intros j Hj. destruct (Htwo j Hj) as [-> | ->]; vm_compute; by eexists.
  - vm_compute. reflexivity.
Defined.
