(* ===== verification/Rootfs.v ===== *)
(** * Rootfs: the boot file system image

    tools/xtask/src/pack.rs writes the image, kernel/src/rootfs.rs looks
    files up in it: a header of sixteen bytes, an entry of 144 bytes per file
    (path, offset, size), the files one behind the other from there on.  The
    files that [collect_files] finds on the disk are the argument of the
    packer.  [None] is a panic. *)
From Stdlib Require Import ZArith Lia.
From stdpp Require Import base tactics option list list_numbers.
From S2P Require Import Prelude Bytes.
Local Open Scope Z_scope.

(** ["HNXF_VFS"] *)
Definition MAGIC : list Z := [72; 78; 88; 70; 95; 86; 70; 83].
Definition MAX_PATH_LEN : nat := 128.

(** ** The packer *)
Record FileEntry := mkFileEntry { rf_path : list Z; rf_data : list Z }.

(** [path.replace("\\", "/")] *)
Definition normalize (path : list Z) : list Z := map (fun b => if b =? 92 then 47 else b) path.

Definition path_bytes (path : list Z) : list Z :=
  let copied := take (MAX_PATH_LEN - 1) (normalize path) in copied ++ replicate (MAX_PATH_LEN - length copied) 0.

Definition padding (current_offset : Z) : Z := (16 - current_offset mod 16) mod 16.

Definition end_offset (current_offset : Z) (e : FileEntry) : Z := current_offset + Z.of_nat (length (rf_data e)).
Definition next_offset (current_offset : Z) (e : FileEntry) : Z :=
  end_offset current_offset e + padding (end_offset current_offset e).

Fixpoint entry_table (current_offset : Z) (entries : list FileEntry) : list Z :=
  match entries with
  | [] => []
  | e :: entries =>
      path_bytes (rf_path e) ++ le 8 current_offset ++ le 8 (Z.of_nat (length (rf_data e))) ++
      entry_table (next_offset current_offset e) entries
  end.

Fixpoint data_blocks (current_offset : Z) (entries : list FileEntry) : list Z :=
  match entries with
  | [] => []
  | e :: entries =>
      rf_data e ++ replicate (Z.to_nat (padding (end_offset current_offset e))) 0 ++
      data_blocks (next_offset current_offset e) entries
  end.

Definition data_start (entries : list FileEntry) : Z := 16 + Z.of_nat (length entries) * 144.

Definition pack_rootfs (entries : list FileEntry) : list Z :=
  MAGIC ++ le 8 (Z.of_nat (length entries)) ++ entry_table (data_start entries) entries ++
  data_blocks (data_start entries) entries.

(** ** The lookup *)

(** The path of an entry: what is before the first zero, nothing without one,
    nothing when it is no text. *)
Definition entry_path (field : list Z) : list Z :=
  let p := if existsb (fun b => b =? 0) field then until_nul field else [] in
  if utf8_valid p then p else [].

(** [&image[start..fin]] *)
Definition byte_range (image : list Z) (start fin : Z) : option (list Z) :=
  if (start <=? fin) && (fin <=? Z.of_nat (length image))
  then Some (take (Z.to_nat (fin - start)) (drop (Z.to_nat start) image)) else None.

Fixpoint find_file (n : nat) (current_offset : nat) (image path : list Z) : option (option (list Z)) :=
  match n with
  | O => Some None
  | S n =>
      if (length image <? current_offset + 144)%nat then Some None
      else
        let file_path := entry_path (take MAX_PATH_LEN (drop current_offset image)) in
        let file_offset := rd image (current_offset + MAX_PATH_LEN) 8 in
        let file_size := rd image (current_offset + MAX_PATH_LEN + 8) 8 in
        let fin := u64w (file_offset + file_size) in
        if bool_decide (file_path = path) && (fin <=? Z.of_nat (length image))
        then Some <$> byte_range image file_offset fin
        else find_file n (current_offset + 144) image path
  end.

(** The loop breaks when an entry leaves the image, so it has no more rounds
    than there are entries in the image, whatever the count says. *)
Definition rounds (image : list Z) : nat :=
  Z.to_nat (Z.min (rd image 8 8) (Z.of_nat (length image) / 144 + 1)).

Definition get_file (image path : list Z) : option (option (list Z)) :=
  if (length image <? 16)%nat then Some None
  else if bool_decide (take 8 image <> MAGIC) then Some None
  else find_file (rounds image) 16 image path.

(** ** Lemmas *)

(** The entries of an image: those that the count covers and that lie in it. *)
Record Entry := mkEntry { en_path : list Z; en_offset : Z; en_size : Z }.

Definition entry_at (image : list Z) (i : nat) : Entry :=
  mkEntry (entry_path (take 128 (drop (16 + 144 * i) image))) (rd image (16 + 144 * i + 128) 8)
    (rd image (16 + 144 * i + 136) 8).

Definition table_size (image : list Z) : nat :=
  if bool_decide (16 <= length image /\ take 8 image = MAGIC)%nat
  then Z.to_nat (Z.min (rd image 8 8) ((Z.of_nat (length image) - 16) / 144)) else 0.

Definition table (image : list Z) : list Entry := map (entry_at image) (seq 0 (table_size image)).

(** The test of the code on an entry. *)
Definition matches (image path : list Z) (e : Entry) : Prop :=
  en_path e = path /\ u64w (en_offset e + en_size e) <= Z.of_nat (length image).
#[export] Instance matches_dec image path e : Decision (matches image path e).
Proof. unfold matches. apply _. Defined.

(** What a matching entry gives. *)
Definition contents (image : list Z) (e : Entry) : option (option (list Z)) :=
  if en_offset e + en_size e <? 2 ^ 64
  then Some (Some (take (Z.to_nat (en_size e)) (drop (Z.to_nat (en_offset e)) image))) else None.

Lemma rd_range8 bs off : Forall is_byte bs -> 0 <= rd bs off 8 < 2 ^ 64.
Proof.
  intros Hb. pose proof (unle_range (take 8 (drop off bs)) (Forall_take _ _ _ (Forall_drop _ _ _ Hb))) as H.
  unfold rd. rewrite length_take in H. split; [lia|]. eapply Z.lt_le_trans; [apply H|]. apply Z.pow_le_mono_r; lia.
Qed.

Lemma byte_range_contents image e :
  0 <= en_offset e < 2 ^ 64 -> 0 <= en_size e < 2 ^ 64 -> u64w (en_offset e + en_size e) <= Z.of_nat (length image) ->
  Some <$> byte_range image (en_offset e) (u64w (en_offset e + en_size e)) = contents image e.
Proof.
  intros Ho Hs Hle. unfold byte_range, contents. destruct (Z.ltb_spec (en_offset e + en_size e) (2 ^ 64)).
  - rewrite u64w_small in * by lia. destruct (Z.leb_spec (en_offset e) (en_offset e + en_size e)); [|lia].
    destruct (Z.leb_spec (en_offset e + en_size e) (Z.of_nat (length image))); [|lia]. cbn [andb fmap option_fmap option_map].
    do 3 f_equal. lia.
  - assert (u64w (en_offset e + en_size e) = en_offset e + en_size e - 2 ^ 64) as ->.
    { unfold u64w. symmetry. apply (Z.mod_unique _ _ 1); lia. }
    destruct (Z.leb_spec (en_offset e) (en_offset e + en_size e - 2 ^ 64)); [lia|done].
Qed.

(** The loop is a search in the table. *)
Lemma find_file_spec n i image path :
  Forall is_byte image ->
  find_file n (16 + 144 * i) image path =
  match list_find (matches image path)
          (map (entry_at image) (seq i (min n (Z.to_nat ((Z.of_nat (length image) - 16) / 144) - i)))) with
  | Some (_, e) => contents image e
  | None => Some None
  end.
Proof.
  intros Hb. revert i. induction n as [|n IH]; intros i; [done|]. cbn [find_file].
  pose proof (Z.div_mod (Z.of_nat (length image) - 16) 144 ltac:(lia)).
  pose proof (Z.mod_pos_bound (Z.of_nat (length image) - 16) 144 ltac:(lia)).
  destruct (Nat.ltb_spec (length image) (16 + 144 * i + 144)) as [Hlt|Hge].
  { replace (Z.to_nat ((Z.of_nat (length image) - 16) / 144) - i)%nat with 0%nat by lia. by rewrite Nat.min_0_r. }
  replace (min (S n) (Z.to_nat ((Z.of_nat (length image) - 16) / 144) - i))%nat
    with (S (min n (Z.to_nat ((Z.of_nat (length image) - 16) / 144) - S i)))%nat by lia.
  cbn [seq map list_find]. replace (16 + 144 * i + 144)%nat with (16 + 144 * S i)%nat by lia.
  replace (16 + 144 * i + MAX_PATH_LEN + 8)%nat with (16 + 144 * i + 136)%nat by (unfold MAX_PATH_LEN; lia).
  change (16 + 144 * i + MAX_PATH_LEN)%nat with (16 + 144 * i + 128)%nat.
  change (take MAX_PATH_LEN (drop (16 + 144 * i) image)) with (take 128 (drop (16 + 144 * i) image)).
  change (entry_path (take 128 (drop (16 + 144 * i) image))) with (en_path (entry_at image i)).
  change (rd image (16 + 144 * i + 128) 8) with (en_offset (entry_at image i)).
  change (rd image (16 + 144 * i + 136) 8) with (en_size (entry_at image i)).
  destruct (decide (matches image path (entry_at image i))) as [[Hp Hm]|Hno].
  - rewrite bool_decide_true by done. destruct (Z.leb_spec (u64w (en_offset (entry_at image i) + en_size (entry_at image i))) (Z.of_nat (length image))); [|lia].
    cbn [andb]. apply byte_range_contents; [by apply rd_range8|by apply rd_range8|done].
  - destruct (bool_decide_reflect (en_path (entry_at image i) = path)) as [Hp|Hp]; cbn [andb].
    + destruct (Z.leb_spec (u64w (en_offset (entry_at image i) + en_size (entry_at image i))) (Z.of_nat (length image))); [by destruct Hno|].
      rewrite IH. by destruct (list_find _ _) as [[]|].
    + rewrite IH. by destruct (list_find _ _) as [[]|].
Qed.

(** A lookup in any image is a search in its table: the first entry with
    the path that passes the bounds test gives the bytes, none gives no file,
    and it panics exactly when that entry's end wraps around. *)
Theorem get_file_first image path :
  Forall is_byte image ->
  get_file image path =
  match list_find (matches image path) (table image) with
  | Some (_, e) => contents image e
  | None => Some None
  end.
Proof.
  intros Hb. unfold get_file, table, table_size, rounds. destruct (Nat.ltb_spec (length image) 16) as [Hlt|Hge].
  { rewrite bool_decide_false by lia. done. }
  destruct (bool_decide_reflect (take 8 image <> MAGIC)) as [Hm|Hm].
  { rewrite bool_decide_false by tauto. done. }
  rewrite bool_decide_true by (split; [done|by apply dec_stable]).
  change 16%nat with (16 + 144 * 0)%nat at 1. rewrite find_file_spec by done.
  set (k := (Z.of_nat (length image) - 16) / 144). set (c := rd image 8 8).
  assert (Hk : 0 <= k <= Z.of_nat (length image) / 144).
  { split; [apply Z.div_pos; lia|apply Z.div_le_mono; lia]. }
  pose proof (rd_range8 image 8 Hb) as Hc. fold c in Hc.
  assert ((Z.to_nat (c `min` (Z.of_nat (length image) / 144 + 1)) `min` (Z.to_nat k - 0))%nat = Z.to_nat (c `min` k)) as -> by lia.
  done.
Qed.

(** ** The packer's image *)
Lemma length_path_bytes p : length (path_bytes p) = 128%nat.
Proof. unfold path_bytes. rewrite length_app, length_replicate, length_take. unfold MAX_PATH_LEN. lia. Qed.

Lemma path_bytes_entry p :
  (length p <= 127)%nat -> 0 ∉ normalize p -> utf8_valid (normalize p) = true -> entry_path (path_bytes p) = normalize p.
Proof.
  intros Hl H0 Hu. unfold entry_path, path_bytes, MAX_PATH_LEN.
  rewrite take_ge by (unfold normalize; rewrite length_map; lia).
  replace (128 - length (normalize p))%nat with (S (127 - length (normalize p))) by (unfold normalize; rewrite length_map; lia).
  rewrite until_nul_app by done.
  assert (existsb (fun b => b =? 0) (normalize p ++ replicate (S (127 - length (normalize p))) 0) = true) as ->.
  { rewrite existsb_app. cbn. apply orb_true_r. }
  by rewrite Hu.
Qed.

Lemma drop_rd image off k n : rd image (off + k) n = rd (drop off image) k n.
Proof. unfold rd. by rewrite drop_drop. Qed.

(** Files the image can hold: the path fits its field and is text without
    zeros. *)
Record packable (e : FileEntry) : Prop := {
  pk_length : (length (rf_path e) <= 127)%nat;
  pk_text : utf8_valid (normalize (rf_path e)) = true;
  pk_nul : 0 ∉ normalize (rf_path e)
}.

Definition named (path : list Z) (e : FileEntry) : Prop := normalize (rf_path e) = path.
#[export] Instance named_dec path e : Decision (named path e).
Proof. unfold named. apply _. Defined.

Lemma padding_range n : 0 <= padding n < 16.
Proof. apply Z.mod_pos_bound. lia. Qed.

Lemma block_length off e es :
  Z.of_nat (length (data_blocks off (e :: es))) = next_offset off e - off + Z.of_nat (length (data_blocks (next_offset off e) es)).
Proof.
  cbn [data_blocks]. rewrite !length_app, length_replicate. unfold next_offset, end_offset.
  pose proof (padding_range (off + Z.of_nat (length (rf_data e)))). lia.
Qed.

Lemma find_packed es cur off image path tail :
  Forall packable es -> drop cur image = entry_table off es ++ tail -> drop (Z.to_nat off) image = data_blocks off es ->
  0 <= off -> off + Z.of_nat (length (data_blocks off es)) = Z.of_nat (length image) -> Z.of_nat (length image) < 2 ^ 64 ->
  find_file (length es) cur image path = Some ((fun x => rf_data x.2) <$> list_find (named path) es).
Proof.
  intros Hok. revert cur off tail. induction Hok as [|e es [Hl Hu H0] Hok IH]; intros cur off tail Hc Hd Ho Hlen H64; [done|].
  cbn [length find_file entry_table list_find] in *.
  rewrite <- !app_assoc in Hc. pose proof (block_length off e es) as Hb. pose proof (padding_range (end_offset off e)) as Hpad.
  assert (Hsz : Z.of_nat (length (rf_data e)) <= next_offset off e - off) by (unfold next_offset, end_offset in *; lia).
  rewrite Hb in Hlen.
  assert (Hcl : (144 <= length (drop cur image))%nat) by (rewrite Hc, !length_app, length_path_bytes, !length_le; lia).
  rewrite length_drop in Hcl. destruct (Nat.ltb_spec (length image) (cur + 144)); [lia|].
  rewrite <- Nat.add_assoc. change (MAX_PATH_LEN + 8)%nat with 136%nat. change MAX_PATH_LEN with 128%nat. rewrite !drop_rd, Hc.
  rewrite !take_app_length' by (by rewrite length_path_bytes). rewrite path_bytes_entry by done.
  rewrite (rd_skip (path_bytes _)) by (rewrite length_path_bytes; lia). rewrite length_path_bytes, Nat.sub_diag.
  rewrite rd_here by apply length_le. rewrite (rd_skip (path_bytes _)) by (rewrite length_path_bytes; lia).
  rewrite length_path_bytes. rewrite (rd_skip (le 8 off)) by (rewrite length_le; lia). rewrite length_le.
  change (136 - 128 - 8)%nat with 0%nat. rewrite rd_here by apply length_le.
  rewrite !unle_le by (change (8 * Z.of_nat 8) with 64; lia). rewrite u64w_small by lia.
  destruct (Z.leb_spec (off + Z.of_nat (length (rf_data e))) (Z.of_nat (length image))); [|lia].
  rewrite andb_true_r. destruct (decide (named path e)) as [Hp|Hp].
  - rewrite bool_decide_true by done. unfold byte_range.
    destruct (Z.leb_spec off (off + Z.of_nat (length (rf_data e)))); [|lia].
    destruct (Z.leb_spec (off + Z.of_nat (length (rf_data e))) (Z.of_nat (length image))); [|lia].
    cbn [andb fmap option_fmap option_map snd]. do 2 f_equal.
    replace (Z.to_nat (off + Z.of_nat (length (rf_data e)) - off)) with (length (rf_data e)) by lia.
    rewrite Hd. cbn [data_blocks]. by rewrite take_app_length.
  - rewrite bool_decide_false by done. rewrite (IH (cur + 144)%nat (next_offset off e) tail).
    + by destruct (list_find _ _) as [[]|].
    + rewrite <- drop_drop, Hc, !app_assoc, <- app_assoc. rewrite drop_app_length'; [done|].
      rewrite !length_app, length_path_bytes, !length_le. lia.
    + replace (Z.to_nat (next_offset off e)) with (Z.to_nat off + Z.to_nat (next_offset off e - off))%nat by lia.
      rewrite <- drop_drop, Hd. cbn [data_blocks]. rewrite app_assoc, drop_app_length'; [done|].
      rewrite length_app, length_replicate. unfold next_offset, end_offset in *. lia.
    + lia.
    + lia.
    + done.
Qed.

Lemma length_entry_table off es : length (entry_table off es) = (144 * length es)%nat.
Proof.
  revert off. induction es as [|e es IH]; intros off; [done|]. cbn [entry_table length].
  rewrite !length_app, length_path_bytes, !length_le, IH. lia.
Qed.

(** C31. What the packer puts in, the kernel finds: for any list of files with
    paths of at most 127 bytes, a lookup gives the data, in full and without
    padding, of the first file with that path, and nothing for other paths. *)
Theorem rootfs_round_trip entries path :
  Forall packable entries -> Z.of_nat (length (pack_rootfs entries)) < 2 ^ 64 ->
  get_file (pack_rootfs entries) path = Some ((fun x => rf_data x.2) <$> list_find (named path) entries).
Proof.
  intros Hok H64. set (image := pack_rootfs entries) in *. set (n := length entries).
  assert (Hlen : length image = (16 + 144 * n + length (data_blocks (data_start entries) entries))%nat).
  { unfold image, pack_rootfs. rewrite !length_app, length_le, length_entry_table. cbn. lia. }
  assert (H16 : drop 16 image = entry_table (data_start entries) entries ++ data_blocks (data_start entries) entries).
  { unfold image, pack_rootfs. rewrite app_assoc. by rewrite drop_app_length' by (rewrite length_app, length_le; done). }
  assert (Hcount : rd image 8 8 = Z.of_nat n).
  { unfold image, pack_rootfs. rewrite rd_skip by (cbn; lia). change (8 - length MAGIC)%nat with 0%nat.
    rewrite rd_here by apply length_le. apply unle_le. change (8 * Z.of_nat 8) with 64. lia. }
  unfold get_file. destruct (Nat.ltb_spec (length image) 16); [lia|]. rewrite bool_decide_false.
  2: { intros Hm. apply Hm. by unfold image, pack_rootfs. }
  assert (rounds image = n) as ->.
  { unfold rounds. rewrite Hcount. rewrite Z.min_l; [lia|]. rewrite Hlen.
    assert (Z.of_nat n <= Z.of_nat (16 + 144 * n + length (data_blocks (data_start entries) entries)) / 144); [|lia].
    apply Z.div_le_lower_bound; lia. }
  apply (find_packed entries 16 (data_start entries) image path (data_blocks (data_start entries) entries)); try done.
  - unfold image, pack_rootfs, data_start. rewrite !app_assoc, drop_app_length'; [done|].
    rewrite !length_app, length_le, length_entry_table. cbn [length MAGIC]. lia.
  - unfold data_start. lia.
  - unfold data_start in *. lia.
Qed.

(** ** Examples *)
Definition demo_files : list FileEntry :=
  [mkFileEntry [98; 105; 110; 92; 108; 115] [1; 2; 3]; mkFileEntry [97] [4; 5]].

Lemma demo_packable : Forall packable demo_files.
Proof.
  unfold demo_files. repeat (apply Forall_cons; split); [..|apply Forall_nil; exact I];
    constructor; first [reflexivity|cbn; lia|apply (bool_decide_unpack _); vm_compute; exact I].
Qed.

(** "bin\ls" is found under "bin/ls". *)
Lemma rootfs_round_trip_witness : get_file (pack_rootfs demo_files) [98; 105; 110; 47; 108; 115] = Some (Some [1; 2; 3]).
Proof.
  rewrite (rootfs_round_trip demo_files [98; 105; 110; 47; 108; 115] demo_packable).
  - reflexivity.
  - vm_compute. reflexivity.
Defined.

Lemma get_file_first_witness : get_file (pack_rootfs demo_files) [99] = Some None.
Proof.
  rewrite (get_file_first (pack_rootfs demo_files) [99]).
  - vm_compute. reflexivity.
  - apply (bool_decide_unpack _). vm_compute. exact I.
Defined.
