(* ===== verification/Launch.v ===== *)
(** * Launch: starting a program

    [launch_user_program_with_argv_id] of kernel/src/task/process.rs: an
    OHLINK file becomes a process.  The steps are those of the code: the
    segments and the user stack are written into fresh memory objects, their
    ranges reserved in the address space and their pages mapped, the arguments
    are copied onto the stack through the new translation tables, and a thread
    is handed to the scheduler.  Cache and TLB maintenance, logging and the
    consistency checks that only log are left out.  [None] is a panic. *)
From Stdlib Require Import ZArith Lia String Ascii.
From stdpp Require Import base tactics option list list_numbers gmap.
From S2P Require Import Prelude Shared Bytes Handles Phys Thread Sched Ohlk PageTable Vmar Mem Vmo UserCopy Asid Process.
Local Open Scope Z_scope.

(** ** State *)
Section launch.
Context {Obj Pk : Type}.

(** What a launch works on once it has its process slot: the tables and the
    address space of the new process, the allocator, the two counters, the
    scheduler, the table register and the interrupt mask. *)
Record Space := mkSpace {
  sp_pt : PtState;
  sp_vmar : Vmar.Vmar;
  sp_vmo_id : Z;
  sp_tid : Z;
  sp_sched : Scheduler Obj Pk;
  sp_ttbr0 : Z;
  sp_daif : Z
}.

Definition sp_phys (s : Space) : Phys := st_phys (sp_pt s).
Definition sp_ram (s : Space) : Ram := ram (sp_phys s).
Definition sp_l0 (s : Space) : Z := pt_l0_pa (st_tree (sp_pt s)).

Definition sp_set_pt (s : Space) (st : PtState) : Space :=
  mkSpace st (sp_vmar s) (sp_vmo_id s) (sp_tid s) (sp_sched s) (sp_ttbr0 s) (sp_daif s).
Definition sp_set_phys (s : Space) (p : Phys) : Space := sp_set_pt s (mkPt (st_tree (sp_pt s)) p).
Definition sp_set_ram (s : Space) (m : Ram) : Space := sp_set_phys s (with_ram (sp_phys s) m).
Definition sp_set_vmar (s : Space) (v : Vmar.Vmar) : Space :=
  mkSpace (sp_pt s) v (sp_vmo_id s) (sp_tid s) (sp_sched s) (sp_ttbr0 s) (sp_daif s).
Definition sp_set_vmo_id (s : Space) (n : Z) : Space :=
  mkSpace (sp_pt s) (sp_vmar s) n (sp_tid s) (sp_sched s) (sp_ttbr0 s) (sp_daif s).
Definition sp_set_tid (s : Space) (n : Z) : Space :=
  mkSpace (sp_pt s) (sp_vmar s) (sp_vmo_id s) n (sp_sched s) (sp_ttbr0 s) (sp_daif s).
Definition sp_set_sched (s : Space) (sc : Scheduler Obj Pk) : Space :=
  mkSpace (sp_pt s) (sp_vmar s) (sp_vmo_id s) (sp_tid s) sc (sp_ttbr0 s) (sp_daif s).
Definition sp_set_cpu (s : Space) (ttbr0 daif : Z) : Space :=
  mkSpace (sp_pt s) (sp_vmar s) (sp_vmo_id s) (sp_tid s) (sp_sched s) ttbr0 daif.

(** Code that can panic, fail or go on. *)
Definition SP (A : Type) : Type := Space -> option (kresult A * Space).

#[export] Instance sp_ret : MRet SP := fun A a s => Some (Ok a, s).
#[export] Instance sp_bind : MBind SP := fun A B f x s =>
  match x s with
  | None => None
  | Some (Err e, s') => Some (Err e, s')
  | Some (Ok a, s') => f a s'
  end.

Definition sp_err {A} (e : Status) : SP A := fun s => Some (Err e, s).
Definition sp_panic {A} : SP A := fun _ => None.
Definition sp_get {A} (f : Space -> A) : SP A := fun s => Some (Ok (f s), s).
Definition sp_modify (f : Space -> Space) : SP unit := fun s => Some (Ok tt, f s).
Definition or_die {A} (o : option A) : SP A := match o with Some a => mret a | None => sp_panic end.

Definition on_pt {A} (x : PT A) : SP A := fun s =>
  match x (sp_pt s) with None => None | Some (r, st) => Some (r, sp_set_pt s st) end.
Definition on_phys {A} (x : VM A) : SP A := fun s =>
  match x (sp_phys s) with None => None | Some (r, p) => Some (r, sp_set_phys s p) end.

(** An error that is only logged. *)
Definition ignore {A} (x : SP A) : SP unit := fun s =>
  match x s with None => None | Some (_, s') => Some (Ok tt, s') end.

(** ** Memory objects with a scope

    The object is dropped when [x] is left, by its end or by an error. *)
Definition scoped {A} (v : Vmo) (x : SP A) : SP A := fun s =>
  match x s with
  | None => None
  | Some (r, s') =>
      match drop_vmo v (sp_phys s') with None => None | Some p => Some (r, sp_set_phys s' p) end
  end.

(** A call that changes the object, which is dropped if it fails. *)
Definition on_vmo {A} (x : Phys -> option (kresult A * Vmo * Phys)) : SP Vmo := fun s =>
  match x (sp_phys s) with
  | None => None
  | Some (Ok _, v, p) => Some (Ok v, sp_set_phys s p)
  | Some (Err e, v, p) =>
      match drop_vmo v p with None => None | Some p' => Some (Err e, sp_set_phys s p') end
  end.

(** [Vmo::create_with_size] and [commit_all]. *)
Definition new_vmo (size : Z) : SP Vmo :=
  id ← sp_get sp_vmo_id;
  v ← on_phys (create_with_size id size);
  sp_modify (fun s => sp_set_vmo_id s (u64w (id + 1)));;
  on_vmo (commit_all v).

Definition reserve (vmo_id target size flags : Z) : SP unit := fun s =>
  match reserve_mapping (sp_vmar s) vmo_id 0 target size flags with
  | Err e => Some (Err e, s)
  | Ok v => Some (Ok tt, sp_set_vmar s v)
  end.

(** The pages of the object from page [i] on, mapped one after the other. *)
Fixpoint map_pages (n : nat) (i : Z) (v : Vmo) (va : Z) (flags : MapFlags) : SP unit :=
  match n with
  | O => mret tt
  | S n =>
      pa ← or_die (get_page_phys v (i * 4096));
      on_pt (map_va (u64w (va + i * 4096)) pa flags);;
      map_pages n (i + 1) v va flags
  end.

(** ** Segments *)
Definition align_down (a : Z) : Z := Z.land a (2 ^ 64 - 4096).

Definition loadable (e : OHLK_Entry) : bool :=
  (e_ty e =? 1) || (e_ty e =? 2) || (e_ty e =? 3) || (e_ty e =? 4).

(** The flags of the file are not used. *)
Definition segment_flags (ty : Z) : Z :=
  if ty =? 1 then Z.lor (Z.lor VMAR_READ VMAR_EXECUTE) VMAR_USER
  else Z.lor (Z.lor VMAR_READ VMAR_WRITE) VMAR_USER.

Definition segment_map_flags (ty : Z) : MapFlags := if ty =? 1 then user_rx else user_rw.

Definition segment_offset (e : OHLK_Entry) : Z := e_virtual_address e - align_down (e_virtual_address e).
Definition segment_size (e : OHLK_Entry) : Z :=
  align_down (u64w (e_mem_size e + segment_offset e + 4095)).
Definition segment_target (base : Z) (e : OHLK_Entry) : Z :=
  u64w (base + align_down (e_virtual_address e)).

(** Where the entry point lies if this segment holds it. *)
Definition segment_entry (base entry_point : Z) (e : OHLK_Entry) : option Z :=
  if (e_virtual_address e <=? entry_point) && (entry_point <? u64w (e_virtual_address e + e_mem_size e))
  then Some (u64w (base + e_virtual_address e + (entry_point - e_virtual_address e))) else None.

Definition write_payload (parser : OHLK_Parser) (e : OHLK_Entry) (v : Vmo) : SP Vmo :=
  if 0 <? e_file_size e then
    match get_segment_data parser e with
    | None => sp_panic
    | Some (Err _) => scoped v (sp_err InvalidArgs)
    | Some (Ok data) => on_vmo (vmo_write v (segment_offset e) data)
    end
  else mret v.

Definition map_segment (parser : OHLK_Parser) (e : OHLK_Entry) : SP unit :=
  base ← sp_get (fun s => vr_base (sp_vmar s));
  v ← new_vmo (segment_size e);
  v ← write_payload parser e v;
  scoped v
    (reserve (vo_id v) (segment_target base e) (segment_size e) (segment_flags (e_ty e));;
     map_pages (Z.to_nat (segment_size e / 4096)) 0 v (segment_target base e) (segment_map_flags (e_ty e))).

(** [for idx in 0..header_count]: entries that cannot be read and entries of
    other types are passed over.  The last segment that holds the entry point
    decides. *)
Fixpoint map_segments (parser : OHLK_Parser) (n : nat) (idx : Z) (calculated : option Z) : SP (option Z) :=
  match n with
  | O => mret calculated
  | S n =>
      match get_entry parser idx with
      | Err _ => map_segments parser n (idx + 1) calculated
      | Ok e =>
          if loadable e then
            base ← sp_get (fun s => vr_base (sp_vmar s));
            map_segment parser e;;
            let found := segment_entry base (h_entry_point (p_header parser)) e in
            map_segments parser n (idx + 1) (match found with Some _ => found | None => calculated end)
          else map_segments parser n (idx + 1) calculated
      end
  end.

(** ** The user stack *)
Definition STACK_SIZE : Z := 16 * 1024.
Definition STACK_OFFSET : Z := 0x2000000.

Definition stack_map_flags : MapFlags :=
  mkFlags (mf_mem_attr kernel_rw) (mf_readable kernel_rw) true (mf_executable kernel_rw) true.

Definition align16_down (a : Z) : Z := Z.land a (2 ^ 64 - 16).
Definition align16_up (a : Z) : Z := align16_down (u64w (a + 15)).

(** The store that makes the last stack page present. *)
Definition touch (va : Z) : SP unit := fun s =>
  match translate_va (sp_pt s) va with
  | Some pa => Some (Ok tt, sp_set_ram s (ram_write (sp_ram s) pa 0))
  | None => Some (Ok tt, s)
  end.

Definition map_stack (v : Vmo) (stack_va : Z) : SP unit :=
  reserve (vo_id v) stack_va STACK_SIZE (Z.lor (Z.lor VMAR_READ VMAR_WRITE) VMAR_USER);;
  map_pages (Z.to_nat (STACK_SIZE / 4096)) 0 v stack_va stack_map_flags;;
  touch (u64w (align16_down (u64w (stack_va + STACK_SIZE)) - 16)).

(** ** Arguments *)
Definition copy_user (bs : list Z) (va : Z) : SP unit := fun s =>
  match safe_copy_to_user (sp_ram s) (sp_l0 s) bs va with
  | None => None
  | Some (r, m) => Some (r, sp_set_ram s m)
  end.

Definition ARG_CAP : Z := 256.
Definition MAX_ARGS : nat := 16.

(** [string_total]; a missing length panics. *)
Fixpoint string_total (n : nat) (i : nat) (lens : list Z) (acc : Z) : option Z :=
  match n with
  | O => Some acc
  | S n => len ← lens !! i; string_total n (S i) lens (u64w (acc + align16_up len))
  end.

(** Each string and a zero byte behind it; the next one starts at the padded
    length.  The result is where the last one ends and [arg_vas]. *)
Fixpoint put_strings (n : nat) (i : nat) (strs : list (list Z)) (lens : list Z) (cursor : Z) (vas : list Z) :
    SP (Z * list Z) :=
  match n with
  | O => mret (cursor, vas)
  | S n =>
      len ← or_die (lens !! i);
      str ← or_die (strs !! i);
      bs ← or_die (slice str 0 (Z.to_nat len));
      copy_user bs cursor;;
      copy_user [0] (u64w (cursor + len));;
      (if (i <? MAX_ARGS)%nat
       then put_strings n (S i) strs lens (u64w (cursor + align16_up len)) (<[i := cursor]> vas)
       else sp_panic)
  end.

Fixpoint put_pointers (n : nat) (i : nat) (vas : list Z) (argv : Z) : SP unit :=
  match n with
  | O => mret tt
  | S n =>
      va ← or_die (vas !! i);
      copy_user (le 8 va) (u64w (argv + Z.of_nat i * 8));;
      put_pointers n (S i) vas argv
  end.

(** The address of the pointer array and the stack pointer. *)
Definition put_argv (argc : nat) (strs : list (list Z)) (lens : list Z) (stack_top : Z) : SP (Z * Z) :=
  let array := u64w (Z.of_nat argc * 8) in
  total ← or_die (string_total argc 0 lens 0);
  let area := u64w (array + total + 16) in
  r ← put_strings argc 0 strs lens (align16_down (u64w (stack_top - area))) (replicate MAX_ARGS 0);
  put_pointers argc 0 (snd r) (fst r);;
  mret (fst r, align16_up (u64w (fst r + array))).

(** ** The thread *)
Definition string_of_bytes (bs : list Z) : string :=
  string_of_list_ascii (map (fun b => ascii_of_N (Z.to_N b)) bs).

Definition with_context (t : Thread Obj Pk) (pid handles : Z) (s : ThreadState) (c : Context) : Thread Obj Pk :=
  mkThread (t_id t) (t_name t) s (t_priority t) (t_time_slice t) (t_remaining_ticks t) pid (t_entry t)
    (t_kernel_stack_base_pa t) (t_kernel_stack_size t) (t_kernel_sp t) c (t_ipc_buf_ptr t) (t_ipc_buf_len t)
    (t_ipc_actual_len t) (t_ipc_transfer_handles t) handles (t_ipc_transfer_slots t) (t_port_packet_slot t).

Context (user_eret_stub : Z).

Definition make_thread (name : string) (entry stack_top : Z) : SP (Thread Obj Pk) := fun s =>
  match new_user user_eret_stub name entry stack_top (sp_tid s) (sp_phys s) with
  | None => None
  | Some (r, tid, p) => Some (r, sp_set_tid (sp_set_phys s p) tid)
  end.

(** [SCHEDULER.add]; [None] is its panic. *)
Definition schedule_thread (t : Thread Obj Pk) : SP unit := fun s =>
  match add (sp_sched s) t with None => None | Some sc => Some (Ok tt, sp_set_sched s sc) end.

(** [x[0]], [x[1]] and the stack pointer at the start. *)
Definition start_context (c : Context) (pid l0 gen argc argv sp0 : Z) : Context :=
  mkContext (<[1%nat := argv]> (<[0%nat := argc]> (x c))) (r c) (sp c) sp0 (elr c) 0 pid l0 gen.

Definition handles_kva (raw : Z) : Z := if raw <? KERNEL_OFFSET then pa_to_kernel_va raw else raw.

(** ** The launch, once the process has its slot *)
Definition UART_PA : Z := 0x09000000.
Definition GIC_CPU_PA : Z := 0x08010000.
Definition active_page_table (ttbr0 : Z) : Z := Z.land ttbr0 ADDR_MASK.

Definition set_up_tables (active : Z) : SP unit :=
  on_pt allocate_root;;
  ignore (on_pt (map_va UART_PA UART_PA device_rw_user));;
  ignore (on_pt (map_va GIC_CPU_PA GIC_CPU_PA device_rw_user));;
  (if active =? 0 then mret tt
   else sp_modify (fun s => sp_set_pt s (clone_identity_block active (clone_high_half active (sp_pt s))))).

(** [local_irq_save]: the four mask bits are set. *)
Definition irq_save : SP Z := fun s =>
  Some (Ok (sp_daif s), sp_set_cpu s (sp_ttbr0 s) (Z.lor (sp_daif s) 0x3c0)).

Definition restore_cpu (old_l0 asid daif : Z) : SP unit :=
  sp_modify (fun s => sp_set_cpu s (if old_l0 =? 0 then pack_ttbr (sp_l0 s) asid else old_l0) daif).

(** The thread of process [pid], its arguments on the stack, given to the
    scheduler. *)
Definition start_thread (name : string) (entry stack_top pid asid ht_raw : Z)
    (argc : nat) (strs : list (list Z)) (lens : list Z) : SP unit :=
  t ← make_thread name entry stack_top;
  tree ← sp_get (fun s => st_tree (sp_pt s));
  let ctx argv sp0 := start_context (t_context t) pid (pack_ttbr (pt_l0_pa tree) asid) (pt_generation tree)
                        (Z.of_nat argc) argv sp0 in
  let ready c := with_context t pid (handles_kva ht_raw) Ready c in
  if (0 <? argc)%nat then
    r ← put_argv argc strs lens stack_top;
    schedule_thread (ready (ctx (fst r) (snd r)))
  else schedule_thread (ready (ctx 0 (user_sp (t_context t)))).

Definition launch_in (parser : OHLK_Parser) (name : string) (pid asid ht_raw : Z)
    (argc : nat) (strs : list (list Z)) (lens : list Z) : SP unit :=
  active ← sp_get (fun s => active_page_table (sp_ttbr0 s));
  set_up_tables active;;
  daif ← irq_save;
  base ← sp_get (fun s => vr_base (sp_vmar s));
  calculated ← map_segments parser (Z.to_nat (h_header_count (p_header parser))) 0 None;
  let entry := default (u64w (base + h_entry_point (p_header parser))) calculated in
  let stack_va := u64w (base + STACK_OFFSET) in
  v ← new_vmo STACK_SIZE;
  scoped v
    (map_stack v stack_va;;
     start_thread name entry (align16_down (u64w (stack_va + STACK_SIZE))) pid asid ht_raw argc strs lens;;
     restore_cpu active asid daif).

(** ** The whole call *)
Record World := mkWorld {
  w_kern : Kern; w_vmo_id : Z; w_tid : Z; w_sched : Scheduler Obj Pk; w_ttbr0 : Z; w_daif : Z }.

Definition set_kern (w : World) (k : Kern) : World :=
  mkWorld k (w_vmo_id w) (w_tid w) (w_sched w) (w_ttbr0 w) (w_daif w).

(** The process [p], lent to the launch and put back in its slot [i]. *)
Definition borrow (w : World) (k : Kern) (p : Process) : Space :=
  mkSpace (mkPt (pr_page_table p) (kn_phys k)) (pr_root_vmar p) (w_vmo_id w) (w_tid w) (w_sched w)
    (w_ttbr0 w) (w_daif w).
Definition give_back (k : Kern) (i : nat) (p : Process) (s : Space) : World :=
  mkWorld (set_phys (put_proc k i (with_space (sp_vmar s) (st_tree (sp_pt s)) p)) (sp_phys s))
    (sp_vmo_id s) (sp_tid s) (sp_sched s) (sp_ttbr0 s) (sp_daif s).

(** Address of the handle table in a slot of [PROCESSES]. *)
Context (ht_address : nat -> Z).

(** The new process id; [out_pid] is written even when the launch fails. *)
Definition launch_user_program_with_argv_id (name : Name) (binary : list Z)
    (strs : list (list Z)) (lens : list Z) (argc : nat) (parent_pid : Z) (w : World) :
    option (kresult Z * World) :=
  match parser_new binary with
  | Err _ => Some (Err InvalidArgs, w)
  | Ok parser =>
      match allocate_process name (w_kern w) with
      | None => None
      | Some (Err e, k) => Some (Err e, set_kern w k)
      | Some (Ok i, k) =>
          match kn_procs k !! i with
          | Some (Some p0) =>
              let p := with_parent parent_pid p0 in
              match launch_in parser (string_of_bytes (name_bytes k name)) (pr_id p) (pr_asid p)
                      (ht_address i) argc strs lens (borrow w k p) with
              | None => None
              | Some (r, s) => Some ((fun _ => pr_id p) <$> r, give_back k i p s)
              end
          | _ => None
          end
      end
  end.

Definition launch_user_program_with_argv := launch_user_program_with_argv_id.
Definition launch_user_program (name : Name) (binary : list Z) : World -> option (kresult Z * World) :=
  launch_user_program_with_argv_id name binary [] [] 0 0.
End launch.
Arguments Space Obj Pk : clear implicits.
Arguments World Obj Pk : clear implicits.
