(* ===== verification/LaunchSpec.v ===== *)
(** * LaunchSpec: what a launch makes

    Correctness of Launch.v on memory with room: the segments are in memory
    where the file says, the stack is mapped, the arguments can be read back
    through the new tables, the thread starts at the entry point. *)
From Stdlib Require Import ZArith Lia String.
From stdpp Require Import base tactics option list list_numbers gmap.
From S2P Require Import Prelude Shared Bytes Handles Phys Thread Sched Ohlk PageTable PtClone PtShare Vmar Mem Vmo UserCopy Asid Process Launch.
Local Open Scope Z_scope.

(** ** A fresh memory object *)
Lemma commit_range_ok n i v p :
  vmo_wf v p -> phys_wf p -> room p (holes v) -> 0 <= i -> i + Z.of_nat n <= Z.of_nat (length (vo_slots v)) ->
  exists v1 p1, commit_range n i v p = Some (Ok tt, v1, p1) /\ vmo_ext v p v1 p1 /\
    (forall k, vmo_byte v1 (ram p1) k = vmo_byte v (ram p) k) /\
    forall j, i <= j < i + Z.of_nat n -> exists pa, at_z (vo_slots v1) j = Some (Some pa).
Proof.
  revert i v p. induction n as [|n IH]; intros i v p Hv Hw Hr Hi Hn; cbn [commit_range].
  { exists v, p. split_and!; [done|by apply vmo_ext_refl|done|lia]. }
  pose proof (vw_size _ _ Hv) as Hsz.
  assert (Hs : exists v1 p1, commit_page v (i * 4096) p = Some (Ok (if decide (at_z (vo_slots v) i = Some None)
      then Some (next_free p) else None, v1), p1) /\ vmo_ext v p v1 p1 /\
      (forall k, vmo_byte v1 (ram p1) k = vmo_byte v (ram p) k) /\ exists pa, at_z (vo_slots v1) i = Some (Some pa)).
  { rewrite commit_page_eq by (done || lia). rewrite Z.div_mul by lia.
    destruct (slot_in v p (i * 4096) Hv ltac:(lia)) as [o Ho]. rewrite Z.div_mul in Ho by lia. rewrite Ho.
    destruct o as [pa|].
    - rewrite decide_False by done. exists v, p. split_and!; [done|by apply vmo_ext_refl|done|by exists pa].
    - rewrite decide_True by done. pose proof (holes_fill v _ 0 Ho). pose proof (holes_range (set_slot i (Some 0) v)).
      unfold room in Hr. destruct (end_free p <=? next_free p) eqn:E; reflect; [lia|].
      eexists _, _. split_and!; [done|by apply commit_next_ext|intros k; by apply commit_next_bytes|].
      exists (next_free p). cbn [commit_next own_page set_slot vo_slots]. by eapply at_set_z_eq. }
  destruct Hs as (v1 & p1 & -> & Hx & Hb & pa & Hpa).
  destruct (IH (i + 1) v1 p1) as (v2 & p2 & -> & Hx2 & Hb2 & Hall); [apply Hx|apply Hx|by apply (room_kept v p)|lia| |].
  { rewrite (ve_len _ _ _ _ Hx). lia. }
  exists v2, p2. split_and!; [done|by eapply vmo_ext_trans|intros k; by rewrite Hb2|].
  intros j Hj. destruct (decide (j = i)) as [->|Hne]; [|apply Hall; lia].
  exists pa. by apply (ve_kept _ _ _ _ Hx2).
Qed.

(** An object of [n] pages made since the state [p], all of them committed,
    for [cost] frames in all. *)
Record fresh_object (p : Phys) (v : Vmo) (p' : Phys) (n cost : Z) (content : Z -> Z) : Prop := {
  fr_wf : vmo_wf v p';
  fr_phys : phys_wf p';
  fr_size : vo_size v = 4096 * n;
  fr_pages : forall j, 0 <= j < n -> exists pa, at_z (vo_slots v) j = Some (Some pa) /\ next_free p <= pa;
  fr_owned : frames_ok p' (owned_pages v);
  fr_new : forall y, y ∈ owned_pages v -> next_free p <= y;
  fr_cost : 0 <= cost;
  fr_next : next_free p' = next_free p + 4096 * cost;
  fr_end : end_free p' = end_free p;
  fr_room : next_free p' <= end_free p';
  fr_full : holes v = 0;
  fr_words : forall w, w mod 8 = 0 -> w < next_free p -> ram_read (ram p') w = ram_read (ram p) w;
  fr_tags : forall pa, RAM_BASE <= pa < next_free p ->
    default 0 (tags p' !! pa_to_pfn pa) = default 0 (tags p !! pa_to_pfn pa);
  fr_bytes : forall k, vmo_byte v (ram p') k = content k
}.

Definition object_cost (n : Z) : Z := Z.max 1 (meta_pages_needed n) + n.

Lemma new_object_ok id n p :
  phys_wf p -> 0 < n <= VMO_MAX_PAGES -> room p (object_cost n) ->
  exists v p1 v' p', create_with_size id (4096 * n) p = Some (Ok v, p1) /\ vo_id v' = vo_id v /\
    commit_all v p1 = Some (Ok tt, v', p') /\ fresh_object p v' p' n (object_cost n) (fun _ => 0).
Proof.
  intros Hw Hn Hr. unfold object_cost, VMO_MAX_PAGES, room in *.
  assert (Hp : vmo_pages (4096 * n) = n).
  { unfold vmo_pages. rewrite u64w_small by lia. rewrite Z.mul_comm, Z.div_add_l by lia.
    rewrite (Z.div_small 4095 4096) by lia. lia. }
  destruct (create_ok id (4096 * n) p Hw) as (v & p1 & Hc & Hf & Hv & Hsz & Hsl & Hmeta & Hfo & Hnw);
    rewrite ?Hp; [unfold VMO_MAX_PAGES; lia|lia|unfold room; lia|]. rewrite Hp in *.
  assert (Hlen : Z.of_nat (length (vo_slots v)) = n) by (rewrite Hsl, length_replicate; lia).
  assert (Hh : holes v = n) by (unfold holes; rewrite Hlen, Hsl, live_replicate; cbn; lia).
  pose proof (fe_next _ _ _ Hf) as Hn1. pose proof (fe_end _ _ _ Hf) as He1.
  destruct (commit_range_ok (Z.to_nat (page_count v)) 0 v p1 Hv) as (v' & p' & Hcr & Hx & Hb & Hall);
    [apply Hf|unfold room; lia|lia| |].
  { unfold page_count. rewrite Hsz, Z.div_mul by lia. lia. }
  exists v, p1, v', p'. split; [done|]. split; [apply Hx|]. split; [exact Hcr|].
  assert (Hpc : page_count v = n) by (unfold page_count; by rewrite Hsz, Z.div_mul).
  assert (Hold : forall x, ~ in_pages v x).
  { intros x (i & pa & Hi & _). rewrite Hsl in Hi. by apply at_replicate in Hi. }
  assert (Hh' : holes v' = 0).
  { unfold holes.
    assert (Hfull : forall o, o ∈ vo_slots v' -> is_Some o).
    { intros o Ho. apply list_elem_of_lookup in Ho as [j Hj]. pose proof (lookup_lt_Some _ _ _ Hj) as Hlt.
      rewrite (ve_len _ _ _ _ Hx) in Hlt. destruct (Hall (Z.of_nat j)) as [pa Hpa]; [lia|].
      apply at_z_Some in Hpa as [_ Hpa]. rewrite Nat2Z.id in Hpa. rewrite Hj in Hpa. injection Hpa as ->. by eexists. }
    rewrite (live_full _ Hfull). lia. }
  constructor.
  - apply Hx.
  - apply Hx.
  - rewrite (ext_size _ _ _ _ Hx Hv), Hsz. lia.
  - intros j Hj. destruct (Hall j ltac:(lia)) as [pa Hpa]. exists pa. split; [done|].
    destruct (ve_new _ _ _ _ Hx j pa Hpa) as [Hin|Hge]; [|lia].
    destruct (Hold (pa + 0)). exists j, pa. split; [done|lia].
  - by apply (ve_owned _ _ _ _ Hx).
  - intros y [Hy|Hy]%(ve_fresh _ _ _ _ Hx); [by apply Hnw|lia].
  - lia.
  - pose proof (ve_cost _ _ _ _ Hx). lia.
  - rewrite (ve_end _ _ _ _ Hx). done.
  - rewrite (ve_end _ _ _ _ Hx). pose proof (ve_cost _ _ _ _ Hx). lia.
  - done.
  - intros w Hw8 Hlt. rewrite (ve_words _ _ _ _ Hx) by (done || lia). by apply (fe_words _ _ _ Hf).
  - intros pa Hpa. rewrite (ve_tags _ _ _ _ Hx) by lia. by apply (fe_tags _ _ _ Hf).
  - intros k. rewrite Hb. apply content_empty. rewrite Hsl. apply live_replicate.
Qed.

(** Bytes written into it. *)
Definition overlay (c : Z -> Z) (off : Z) (bs : list Z) (size k : Z) : Z :=
  if (off <=? k) && (k <? off + Z.max 0 (Z.min (Z.of_nat (length bs)) (size - off)))
  then nth (Z.to_nat (k - off)) bs 0 else c k.

Lemma object_written p v p' n cost c off bs :
  fresh_object p v p' n cost c -> Forall is_byte bs -> 0 <= off ->
  exists r v' p'', vmo_write v off bs p' = Some (Ok r, v', p'') /\ vo_id v' = vo_id v /\
    fresh_object p v' p'' n cost (overlay c off bs (4096 * n)).
Proof.
  intros [Hv Hw Hsz Hpg Hown Hnw Hk Hn He Hroom Hh Hwd Htg Hby] Hb Ho.
  destruct (write_ok v p' off bs Hv Hw Hb Ho) as (r & v' & p'' & Hwr & Hx & Hr & Hwt); [unfold room; lia|].
  exists r, v', p''. split; [done|]. split; [apply Hx|].
  pose proof (ve_cost _ _ _ _ Hx). pose proof (holes_range v'). pose proof (ve_next _ _ _ _ Hx).
  assert (Hnew : forall x, in_pages v x -> next_free p <= x).
  { intros x (i & pa & Hi & Hx'). pose proof (at_z_Some _ _ _ Hi) as [Hir _]. pose proof (vw_size _ _ Hv).
    destruct (Hpg i ltac:(lia)) as (pa' & Hi' & Hge). rewrite Hi in Hi'. injection Hi' as <-. lia. }
  constructor.
  - apply Hx.
  - apply Hx.
  - by rewrite (ext_size _ _ _ _ Hx Hv).
  - intros j Hj. destruct (Hpg j Hj) as (pa & Hpa & Hge). exists pa. split; [by apply (ve_kept _ _ _ _ Hx)|done].
  - by apply (ve_owned _ _ _ _ Hx).
  - intros y [Hy|Hy]%(ve_fresh _ _ _ _ Hx); [by apply Hnw|lia].
  - done.
  - lia.
  - rewrite (ve_end _ _ _ _ Hx). done.
  - rewrite (ve_end _ _ _ _ Hx). lia.
  - lia.
  - intros w Hw8 Hlt. rewrite (ve_words _ _ _ _ Hx w Hw8), (Hwd w Hw8 Hlt); [done|lia|].
    intros Hin%Hnew. lia.
  - intros pa Hpa. rewrite (ve_tags _ _ _ _ Hx), Htg by lia. done.
  - intros k. rewrite Hwt, Hby, Hr, Hsz. done.
Qed.

(** ** Steps that build a tree *)

(** [k] frames are taken at most; the tables and everything else below the
    old cursor stay, but for those that addresses of the first gigabyte go
    through. *)
Record progress (st st' : PtState) (lv lv' : Levels) (k : Z) : Prop := {
  pg_inv : pt_inv st' lv';
  pg_root : pt_l0_pa (st_tree st') = pt_l0_pa (st_tree st);
  pg_grown : grown st st' lv lv' k;
  pg_before : pt_inv st lv;
  pg_spread : spread st st' lv lv' low_va
}.

Lemma progress_refl st lv : pt_inv st lv -> progress st st lv lv 0.
Proof. intros H. constructor; [done|done|apply grown_refl|done|apply spread_refl]. Qed.

Lemma progress_trans st1 st2 st3 lv1 lv2 lv3 k1 k2 :
  progress st1 st2 lv1 lv2 k1 -> progress st2 st3 lv2 lv3 k2 -> progress st1 st3 lv1 lv3 (k1 + k2).
Proof.
  intros [H1 R1 G1 B1 S1] [H2 R2 G2 B2 S2]. constructor; [done|congruence|by eapply grown_trans|done|].
  eapply spread_trans; [exact B1|exact H1|apply G1|apply G1|exact S1|exact S2].
Qed.

Lemma progress_more st st' lv lv' k k' : k <= k' -> progress st st' lv lv' k -> progress st st' lv lv' k'.
Proof. intros Hk [H R G B S]. constructor; [done|done|by eapply grown_more|done|done]. Qed.

Lemma mapped_progress st st' lv lv' va :
  pt_inv st lv -> low_va va -> page_mapped st st' lv lv' va -> progress st st' lv lv' 3.
Proof. intros Hi Hva [H R G S]. constructor; [done|done|done|done|]. eapply spread_mono; [|exact S]. by intros ? <-. Qed.

Lemma tree_wf_mono m lv root cur cur' : cur <= cur' -> tree_wf m lv root cur -> tree_wf m lv root cur'.
Proof.
  intros Hc [H1 H2 H3 H4]. constructor; try done. intros t r Ht. destruct (H2 t r Ht) as (?&?&?&?).
  split_and!; [done|done|done|lia].
Qed.

(** A change of the allocator's state that keeps the words below the cursor. *)
Lemma phys_progress st lv p' k :
  pt_inv st lv -> phys_wf p' ->
  next_free (st_phys st) <= next_free p' <= next_free (st_phys st) + 4096 * k ->
  end_free p' = end_free (st_phys st) ->
  (forall w, w mod 8 = 0 -> w < next_free (st_phys st) -> ram_read (ram p') w = ram_read (st_ram st) w) ->
  (forall pa, RAM_BASE <= pa < next_free (st_phys st) ->
    default 0 (tags p' !! pa_to_pfn pa) = default 0 (tags (st_phys st) !! pa_to_pfn pa)) ->
  progress st (mkPt (st_tree st) p') lv lv k /\
  forall va, translate_va (mkPt (st_tree st) p') va = translate_va st va.
Proof.
  intros Hinv Hw Hn He Hwd Htg.
  assert (Hrd : forall t j, t mod 4096 = 0 -> 0 <= j < 512 -> t < next_free (st_phys st) ->
    read_pte (ram p') t j = read_pte (st_ram st) t j).
  { intros t j Ht Hj Hlt. unfold read_pte. apply Hwd.
    - rewrite (Z.div_mod t 4096), Ht by lia. replace (4096 * (t / 4096) + 0 + 8 * j) with ((512 * (t / 4096) + j) * 8) by lia.
      by apply Z.mod_mul.
    - destruct (wf_align _ (pi_phys _ _ Hinv)) as [Ha _].
      pose proof (Z.div_mod t 4096). pose proof (Z.div_mod (next_free (st_phys st)) 4096). lia. }
  pose proof (pi_tree _ _ Hinv) as Htr.
  destruct (tables_kept (st_ram st) (ram p') lv (pt_l0_pa (st_tree st)) (next_free (st_phys st)) Htr) as [Htr' Htv].
  { intros t r i Ht Hi. destruct (tw_table _ _ _ _ Htr t r Ht) as (_ & ? & _ & ?). apply Hrd; [done|done|lia]. }
  split.
  - constructor; [|done| | |].
    + constructor; [done| |apply Hinv]. apply (tree_wf_mono _ _ _ (next_free (st_phys st))); [cbn [st_phys]; lia|done].
    + constructor; cbn [st_phys]; [done..|]. intros t j Ht Hj Hlt _. by apply Hrd.
    + done.
    + by apply words_spread.
  - intros va. unfold translate_va. cbn [st_tree]. destruct (pt_has_root _); [|done]. apply Htv.
Qed.

(** ** What user addresses show *)
Definition frame_of (pa : Z) : Z := 4096 * (pa / 4096).

Definition shows (st : PtState) (lv : Levels) (va b : Z) : Prop :=
  exists pa, translate_va st va = Some pa /\ byte_at (st_ram st) pa = b /\
    0 <= pa < next_free (st_phys st) /\ lv !! frame_of pa = None.

(** An address whose frame the allocator counts as free. *)
Definition loose (st : PtState) (va : Z) : Prop :=
  exists pa, translate_va st va = Some pa /\ RAM_BASE <= frame_of pa < next_free (st_phys st) /\
    default 0 (tags (st_phys st) !! pa_to_pfn (frame_of pa)) = 0.

Lemma byte_word m m' pa :
  read_pte m' (frame_of pa) ((pa mod 4096) / 8) = read_pte m (frame_of pa) ((pa mod 4096) / 8) ->
  byte_at m' pa = byte_at m pa.
Proof.
  unfold read_pte, byte_at, frame_of. intros H.
  replace (8 * (pa / 8)) with (4096 * (pa / 4096) + 8 * (pa mod 4096 / 8)); [by rewrite H|].
  pose proof (Z.div_mod pa 4096 ltac:(lia)) as H1. pose proof (Z.div_mod (pa mod 4096) 8 ltac:(lia)) as H2.
  pose proof (Z.mod_pos_bound (pa mod 4096) 8 ltac:(lia)) as H3.
  assert (pa / 8 = 512 * (pa / 4096) + pa mod 4096 / 8) as ->; [|lia].
  symmetry. apply (Z.div_unique _ _ _ ((pa mod 4096) mod 8)); lia.
Qed.

Lemma frame_aligned pa : frame_of pa mod 4096 = 0 /\ frame_of pa <= pa < frame_of pa + 4096.
Proof.
  unfold frame_of. rewrite Z.mul_comm, Z.mod_mul by lia. split; [done|].
  pose proof (Z.div_mod pa 4096). pose proof (Z.mod_pos_bound pa 4096). lia.
Qed.

Lemma progress_bytes st st' lv lv' k pa :
  progress st st' lv lv' k -> pa < next_free (st_phys st) -> lv !! frame_of pa = None ->
  byte_at (st_ram st') pa = byte_at (st_ram st) pa /\ lv' !! frame_of pa = None.
Proof.
  intros [_ _ [N E T L W D] _ _] Hpa Hf. destruct (frame_aligned pa) as [Ha Hr].
  pose proof (Z.mod_pos_bound pa 4096 ltac:(lia)).
  split; [|apply W; [done|lia]]. apply byte_word, D; [done| |lia|done].
  split; [apply Z.div_pos; lia|apply Z.div_lt_upper_bound; lia].
Qed.

Lemma shows_kept st st' lv lv' k va b :
  progress st st' lv lv' k -> translate_va st' va = translate_va st va -> shows st lv va b -> shows st' lv' va b.
Proof.
  intros Hp Ht (pa & Hpa & Hb & Hr & Hf). destruct (progress_bytes _ _ _ _ _ pa Hp ltac:(lia) Hf) as [Hb' Hf'].
  exists pa. rewrite Ht, Hb'. split_and!; [done|done|lia| |done]. pose proof (gr_next _ _ _ _ _ (pg_grown _ _ _ _ _ Hp)). lia.
Qed.

Lemma loose_kept st st' lv lv' k va :
  progress st st' lv lv' k -> translate_va st' va = translate_va st va -> loose st va -> loose st' va.
Proof.
  intros Hp Ht (pa & Hpa & Hr & Hf). pose proof (pg_grown _ _ _ _ _ Hp) as [N _ T _ _ _].
  exists pa. rewrite Ht, T by done. split_and!; done || lia.
Qed.

(** A range of addresses with frames of its own, none below [lo], none of
    them a table. *)
Record own_range (st : PtState) (lv : Levels) (va len lo : Z) : Prop := {
  or_mapped : forall a, va <= a < va + len -> exists pa, translate_va st a = Some pa /\
    lo <= frame_of pa < next_free (st_phys st) /\ lv !! frame_of pa = None;
  or_offset : forall a pa, va <= a < va + len -> translate_va st a = Some pa -> pa mod 4096 = a mod 4096;
  or_inj : forall a b pa, va <= a < va + len -> va <= b < va + len ->
    translate_va st a = Some pa -> translate_va st b = Some pa -> a = b
}.

(** ** Mapping an object *)
Lemma page_no_at va i : va mod 4096 = 0 -> 0 <= va -> 0 <= i -> va + 4096 * i < 2 ^ 48 -> page_no (va + i * 4096) = va / 4096 + i.
Proof.
  intros Hm Hv Hi Hb. unfold page_no. rewrite Z.div_add by lia. apply Z.mod_small.
  pose proof (Z.div_mod va 4096). lia.
Qed.

(** The translation of a range of pages by an object. *)
Definition by_object (v : Vmo) (va from n va' : Z) (other : option Z) : option Z :=
  let j := page_no va' - va / 4096 in
  if (from <=? j) && (j <? from + n) then
    match at_z (vo_slots v) j with Some (Some pa) => Some (pa + va' mod 4096) | _ => None end
  else other.

Section mapping.
Context {Obj Pk : Type}.
Abbreviation Space := (Launch.Space Obj Pk).

Lemma map_pages_ok n i v va flags N (s : Space) lv :
  pt_inv (sp_pt s) lv ->
  (forall j, 0 <= j < N -> exists pa, at_z (vo_slots v) j = Some (Some pa) /\ 0 <= pa < 2 ^ 48 /\ pa mod 4096 = 0) ->
  vo_size v = 4096 * N -> 0 <= i -> i + Z.of_nat n <= N ->
  va mod 4096 = 0 -> 0 <= va -> va + 4096 * N <= 2 ^ 30 -> room (sp_phys s) (3 * Z.of_nat n) ->
  exists st' lv', map_pages n i v va flags s = Some (Ok tt, sp_set_pt s st') /\
    progress (sp_pt s) st' lv lv' (3 * Z.of_nat n) /\
    forall va', translate_va st' va' = by_object v va i (Z.of_nat n) va' (translate_va (sp_pt s) va').
Proof.
  revert i s lv. induction n as [|n IH]; intros i s lv Hinv Hpg Hsz Hi Hn Hm Hv0 Hvb Hroom; cbn [map_pages].
  { exists (sp_pt s), lv. split; [by destruct s|]. split; [apply (progress_more _ _ _ _ 0); [lia|by apply progress_refl]|].
    intros va'. unfold by_object. case_match eqn:E; [reflect; lia|done]. }
  destruct (Hpg i ltac:(lia)) as (pa & Hpa & Hpr & Hpm).
  assert (Hg : get_page_phys v (i * 4096) = Some pa).
  { unfold get_page_phys. destruct (Z.leb_spec (vo_size v) (i * 4096)); [lia|]. by rewrite Z.div_mul, Hpa by lia. }
  rewrite Hg. unfold mbind, sp_bind, or_die, mret, sp_ret, on_pt. rewrite u64w_small by lia.
  unfold room in Hroom.
  destruct (map_va_full (sp_pt s) lv (va + i * 4096) pa flags Hinv) as (r & st1 & lv1 & Hmap & Hpm1 & Hr); [|done|done|].
  { by rewrite Z.mod_add by lia. }
  rewrite Hmap. apply mapped_progress in Hpm1; [|done|apply low_address; lia]. pose proof (pg_grown _ _ _ _ _ Hpm1) as Hg1.
  pose proof (gr_next _ _ _ _ _ Hg1) as Hn1. pose proof (gr_end _ _ _ _ _ Hg1) as He1. unfold sp_phys in *.
  destruct r as [[]|e]; [|destruct Hr as (_ & Hfull & _); lia].
  destruct (IH (i + 1) (sp_set_pt s st1) lv1) as (st2 & lv2 & Hrest & Hp2 & Ht2); try done.
  { apply Hpm1. }
  { lia. }
  { lia. }
  { unfold room. cbn [sp_set_pt sp_pt]. lia. }
  exists st2, lv2. split; [exact Hrest|]. split.
  - apply (progress_more _ _ _ _ (3 + 3 * Z.of_nat n)); [lia|by eapply progress_trans].
  - intros va'. rewrite Ht2. cbn [sp_set_pt sp_pt]. rewrite Hr, page_no_at by (done || lia). unfold by_object.
    set (j := page_no va' - va / 4096).
    destruct (Z.eqb_spec (page_no va') (va / 4096 + i)) as [He|Hne].
    + assert (j = i) as -> by (unfold j; lia). rewrite Hpa.
      destruct (Z.leb_spec (i + 1) i); [lia|]. cbn [andb]. rewrite Z.leb_refl.
      destruct (Z.ltb_spec i (i + Z.of_nat (S n))); [done|lia].
    + assert (Hji : j <> i) by (unfold j; lia).
      destruct (Z.leb_spec (i + 1) j), (Z.leb_spec i j), (Z.ltb_spec j (i + 1 + Z.of_nat n)),
        (Z.ltb_spec j (i + Z.of_nat (S n))); done || lia.
Qed.

Lemma bind_ok {A B} (x : SP A) (f : A -> SP B) (s s1 : Space) a : x s = Some (Ok a, s1) -> (x ≫= f) s = f a s1.
Proof. intros Hx. unfold mbind, sp_bind. by rewrite Hx. Qed.

(** Leaving the scope of an object whose frames are its own. *)
Lemma scoped_ok {A} v (x : SP A) (s s1 : Space) a lv :
  x s = Some (Ok a, s1) -> pt_inv (sp_pt s1) lv -> frames_ok (sp_phys s1) (owned_pages v) ->
  exists p', scoped v x s = Some (Ok a, sp_set_phys s1 p') /\ phys_wf p' /\
    next_free p' = next_free (sp_phys s1) /\ end_free p' = end_free (sp_phys s1) /\ ram p' = ram (sp_phys s1) /\
    (forall y, y ∈ owned_pages v -> default 0 (tags p' !! pa_to_pfn y) = 0) /\
    forall y, RAM_BASE <= y < RAM_BASE + RAM_SIZE -> (forall z, z ∈ owned_pages v -> y < z \/ z + 4096 <= y) ->
      default 0 (tags p' !! pa_to_pfn y) = default 0 (tags (sp_phys s1) !! pa_to_pfn y).
Proof.
  intros Hx Hinv Hf. unfold scoped, drop_vmo. rewrite Hx.
  destruct (drop_ok _ _ (pi_phys _ _ Hinv) Hf) as (p' & Hd & Hw & Hrest). unfold sp_phys in *. rewrite Hd.
  exists p'. split; [done|]. split; [done|]. exact Hrest.
Qed.

(** The frames of a fresh object. *)
Lemma fresh_pages p v p' n cost c j :
  fresh_object p v p' n cost c -> 0 <= j < n ->
  exists pa, at_z (vo_slots v) j = Some (Some pa) /\ next_free p <= pa /\ pa + 4096 <= next_free p' /\
    0 <= pa < 2 ^ 48 /\ pa mod 4096 = 0 /\ pa ∈ owned_pages v.
Proof.
  intros Hf Hj. destruct (fr_pages _ _ _ _ _ _ Hf j Hj) as (pa & Hpa & Hge). exists pa.
  destruct (vw_page v p' (fr_wf _ _ _ _ _ _ Hf) j pa Hpa) as (? & ? & ?).
  destruct (fr_phys _ _ _ _ _ _ Hf) as [Hc Hend _ _ _]. pose proof (fr_room _ _ _ _ _ _ Hf).
  unfold RAM_BASE, RAM_SIZE in *. split_and!; try (done || lia).
  unfold owned_pages. apply elem_of_cons. right. apply elem_of_app. right. rewrite (vw_owned _ _ (fr_wf _ _ _ _ _ _ Hf)).
  apply at_z_Some in Hpa as [_ Hpa]. change (pa ∈ live (vo_slots v)). apply elem_of_live. by eexists.
Qed.

(** A fresh object mapped at [va], by the equation that [map_pages_ok] gives
    for the tables. *)
Section place.
Context (v : Vmo) (p p' : Phys) (n cost : Z) (c : Z -> Z) (va : Z) (st st2 : PtState).
Context (Hf : fresh_object p v p' n cost c) (Hm : va mod 4096 = 0) (Hva0 : 0 <= va) (Hva1 : va + 4096 * n <= 2 ^ 48).
Context (Ht2 : forall va', translate_va st2 va' = by_object v va 0 n va' (translate_va st va')).

Lemma low_page_no a : 0 <= a < 2 ^ 48 -> page_no a = a / 4096.
Proof. intros Ha. unfold page_no. apply Z.mod_small. split; [apply Z.div_pos; lia|apply Z.div_lt_upper_bound; lia]. Qed.

Lemma placed_page a : va <= a < va + 4096 * n ->
  exists pa, let j := a / 4096 - va / 4096 in
    0 <= j < n /\ a - va = 4096 * j + a mod 4096 /\ at_z (vo_slots v) j = Some (Some pa) /\ next_free p <= pa /\
    pa + 4096 <= next_free p' /\ 0 <= pa /\ pa ∈ owned_pages v /\
    translate_va st2 a = Some (pa + a mod 4096) /\ frame_of (pa + a mod 4096) = pa /\ (pa + a mod 4096) mod 4096 = a mod 4096.
Proof.
  intros Ha. set (j := a / 4096 - va / 4096). pose proof (Z.div_mod va 4096 ltac:(lia)).
  pose proof (Z.div_mod a 4096 ltac:(lia)). pose proof (Z.mod_pos_bound a 4096 ltac:(lia)).
  assert (Hj : 0 <= j < n) by (unfold j; lia). destruct (fresh_pages _ _ _ _ _ _ j Hf Hj) as (pa & Hpa & Hge & Hle & Hpr & Hpm & Hin).
  exists pa. cbn zeta. split_and!; try done; try (unfold j; lia); try lia.
  - rewrite Ht2. unfold by_object. rewrite low_page_no by lia. fold j. rewrite Hpa.
    destruct (Z.leb_spec 0 j), (Z.ltb_spec j (0 + n)); done || lia.
  - unfold frame_of. pose proof (Z.div_mod pa 4096 ltac:(lia)) as Hd. rewrite Hpm in Hd.
    rewrite <- (Z.div_unique (pa + a mod 4096) 4096 (pa / 4096) (a mod 4096)); lia.
  - rewrite <- Z.add_mod_idemp_l, Hpm, Z.add_0_l by lia. by apply Z.mod_mod.
Qed.

Lemma placed_others va' : 0 <= va' < 2 ^ 48 -> va' < va \/ va + 4096 * n <= va' -> translate_va st2 va' = translate_va st va'.
Proof.
  intros Hb Hout. rewrite Ht2. unfold by_object. rewrite low_page_no by done. pose proof Hm. case_match eqn:E; [|done]. reflect.
  pose proof (Z.div_mod va' 4096 ltac:(lia)). pose proof (Z.mod_pos_bound va' 4096 ltac:(lia)). pose proof (Z.div_mod va 4096 ltac:(lia)). lia.
Qed.

Lemma placed_one_to_one a b pa : va <= a < va + 4096 * n -> va <= b < va + 4096 * n ->
  translate_va st2 a = Some pa -> translate_va st2 b = Some pa -> a = b.
Proof.
  intros Ha Hb Hta Htb. destruct (placed_page a Ha) as (x & _ & Ha' & Hx & _ & _ & _ & _ & Htx & Hfx & Hox).
  destruct (placed_page b Hb) as (y & _ & Hb' & Hy & _ & _ & _ & _ & Hty & Hfy & Hoy). cbn zeta in *.
  assert (x = y) as -> by congruence. pose proof (vw_distinct _ _ (fr_wf _ _ _ _ _ _ Hf) _ _ _ Hx Hy).
  assert (y + a mod 4096 = y + b mod 4096) by congruence. lia.
Qed.
End place.

Lemma place_object v p' n cost c va flags (s s1 : Space) lv :
  pt_inv (sp_pt s) lv -> fresh_object (sp_phys s) v p' n cost c -> sp_pt s1 = mkPt (st_tree (sp_pt s)) p' ->
  0 < n -> room p' (3 * n) -> va mod 4096 = 0 -> 0 <= va -> va + 4096 * n <= 2 ^ 30 ->
  exists st2 lv', map_pages (Z.to_nat n) 0 v va flags s1 = Some (Ok tt, sp_set_pt s1 st2) /\
    progress (sp_pt s) st2 lv lv' (cost + 3 * n) /\
    (forall va', 0 <= va' < 2 ^ 48 -> va' < va \/ va + 4096 * n <= va' ->
       translate_va st2 va' = translate_va (sp_pt s) va') /\
    (forall a, va <= a < va + 4096 * n -> shows st2 lv' a (c (a - va)) /\
       exists pa, translate_va st2 a = Some pa /\ frame_of pa ∈ owned_pages v /\ next_free (sp_phys s) <= pa) /\
    own_range st2 lv' va (4096 * n) (next_free (sp_phys s)) /\
    frames_ok (st_phys st2) (owned_pages v).
Proof.
  intros Hinv Hf Hs1 Hn0 Hr3 Hm Hva0 Hva1. pose proof (fr_phys _ _ _ _ _ _ Hf) as Hw.
  destruct (phys_progress (sp_pt s) lv p' cost Hinv Hw) as [Hp1 Ht1]; [|apply Hf..|].
  { destruct Hf as [_ _ _ _ _ _ ? ? _ _ _ _ _ _]. unfold sp_phys in *. lia. }
  destruct (map_pages_ok (Z.to_nat n) 0 v va flags n s1 lv) as (st2 & lv' & Hmap & Hp2 & Ht2); rewrite ?Z2Nat.id by lia.
  { rewrite Hs1. apply Hp1. }
  { intros j Hj. destruct (fresh_pages _ _ _ _ _ _ j Hf Hj) as (pa & ? & _ & _ & ? & ? & _). by exists pa. }
  { apply Hf. } { lia. } { lia. } { done. } { done. } { done. }
  { unfold sp_phys. by rewrite Hs1. }
  rewrite Z2Nat.id in * by lia. rewrite Hs1 in Hp2, Ht2. exists st2, lv'. split; [done|].
  assert (Hva2 : va + 4096 * n <= 2 ^ 48) by lia. clear Hva1. rename Hva2 into Hva1.
  assert (Hdata : forall a, va <= a < va + 4096 * n -> exists pa, translate_va st2 a = Some pa /\
    byte_at (st_ram st2) pa = c (a - va) /\ next_free (sp_phys s) <= frame_of pa < next_free (st_phys st2) /\
    lv' !! frame_of pa = None /\ frame_of pa ∈ owned_pages v /\ 0 <= pa < next_free (st_phys st2) /\ next_free (sp_phys s) <= pa).
  { intros a Ha. destruct (placed_page v _ p' n cost c va _ st2 Hf Hm Hva0 Hva1 Ht2 a Ha)
      as (pa & Hj & Haj & Hpa & Hge & Hle & Hpos & Hin & Htr & Hfr & _). cbn zeta in *.
    pose proof (Z.mod_pos_bound a 4096 ltac:(lia)) as Hmod.
    assert (Hlv : lv !! pa = None).
    { destruct (lv !! pa) as [r|] eqn:Hr; [|done]. apply (tw_table _ _ _ _ (pi_tree _ _ Hinv)) in Hr as (_ & _ & _ & ?).
      unfold sp_phys in *. lia. }
    destruct (progress_bytes _ _ _ _ _ (pa + a mod 4096) Hp2) as [Hb' Hlv']; [cbn [st_phys]; lia|by rewrite Hfr|].
    pose proof (gr_next _ _ _ _ _ (pg_grown _ _ _ _ _ Hp2)) as Hnx. cbn [st_phys] in Hnx.
    exists (pa + a mod 4096). rewrite Hfr in *. split_and!; try (done || lia).
    rewrite Hb', <- (fr_bytes _ _ _ _ _ _ Hf). unfold st_ram. cbn [st_phys]. unfold vmo_byte.
    rewrite Haj. destruct (page_index (a / 4096 - va / 4096) (a mod 4096) Hmod) as [-> ->]. by rewrite Hpa. }
  split; [by eapply progress_trans|]. split; [|split; [|split]].
  - intros va' Hb Hout. rewrite (placed_others v n va _ st2 Hm Ht2) by done. apply Ht1.
  - intros a Ha. destruct (Hdata a Ha) as (pa & ? & ? & ? & ? & ? & ? & ?). split; by exists pa.
  - constructor.
    + intros a Ha. destruct (Hdata a Ha) as (pa & ? & ? & ? & ? & _). by exists pa.
    + intros a pa Ha Hta. destruct (placed_page v _ p' n cost c va _ st2 Hf Hm Hva0 Hva1 Ht2 a Ha) as (x & _ & _ & _ & _ & _ & _ & _ & Htx & _ & Hx).
      congruence.
    + intros a b pa. by apply (placed_one_to_one v _ p' n cost c va _ st2 Hf Hm Hva0 Hva1 Ht2).
  - pose proof (pg_grown _ _ _ _ _ Hp2) as Hg.
    apply (frames_kept p'); [apply Hf|apply (gr_next _ _ _ _ _ Hg)|]. intros pa Hpa. by apply (gr_tags _ _ _ _ _ Hg).
Qed.

(** The frames of a dropped object: free again, still mapped. *)
Lemma dropped_progress st0 st1 lv0 lv1 k l p' :
  next_free (st_phys st0) <= end_free (st_phys st0) ->
  progress st0 st1 lv0 lv1 k -> frames_ok (st_phys st1) l -> (forall y, y ∈ l -> next_free (st_phys st0) <= y) ->
  phys_wf p' -> next_free p' = next_free (st_phys st1) -> end_free p' = end_free (st_phys st1) -> ram p' = st_ram st1 ->
  (forall y, RAM_BASE <= y < RAM_BASE + RAM_SIZE -> (forall z, z ∈ l -> y < z \/ z + 4096 <= y) ->
      default 0 (tags p' !! pa_to_pfn y) = default 0 (tags (st_phys st1) !! pa_to_pfn y)) ->
  progress st0 (mkPt (st_tree st1) p') lv0 lv1 k /\
  (forall va, translate_va (mkPt (st_tree st1) p') va = translate_va st1 va) /\
  (forall va b, shows st1 lv1 va b -> shows (mkPt (st_tree st1) p') lv1 va b).
Proof.
  intros Hroom [Hinv Hroot [N E T L W D] Hb0 [Sr Ss Sc]] Hf Hl Hw Hn He Hr Ht.
  assert (Htr : forall va, translate_va (mkPt (st_tree st1) p') va = translate_va st1 va).
  { intros va. unfold translate_va, st_ram. cbn [st_tree st_phys]. by rewrite Hr. }
  split; [|split; [done|]].
  - constructor; [|done| |done|].
    + constructor; [done| |apply Hinv]. unfold st_ram. cbn [st_tree st_phys]. rewrite Hr, Hn. apply Hinv.
    + constructor; cbn [st_phys]; [lia|congruence| |done|done|].
      * intros pa Hpa. pose proof (wf_end _ (pi_phys _ _ Hinv)).
        rewrite Ht, T; [done|done|lia|]. intros z Hz. specialize (Hl z Hz). lia.
      * intros t j Hm Hj Hlt Hlv. unfold st_ram at 1. cbn [st_phys]. rewrite Hr. by apply D.
    + assert (Hm : st_ram (mkPt (st_tree st1) p') = st_ram st1) by exact Hr. constructor; rewrite ?Hm; done.
  - intros va b (pa & H1 & H2 & H3 & H4). exists pa. rewrite Htr. unfold st_ram. cbn [st_phys]. rewrite Hr, Hn.
    exact (conj H1 (conj H2 (conj H3 H4))).
Qed.

(** ** A segment *)
Definition USER_SIZE : Z := 256 * 1024 * 1024.

(** An address space of a fresh process with [k] mappings. *)
Record user_space (vm : Vmar.Vmar) (k : nat) : Prop := {
  us_base : vr_base vm = 0;
  us_size : vr_size vm = USER_SIZE;
  us_count : length (vr_mappings vm) = k
}.

Record segment_fits (parser : OHLK_Parser) (e : OHLK_Entry) (d : list Z) : Prop := {
  sf_va : 0 <= e_virtual_address e;
  sf_size : 0 < e_mem_size e;
  sf_end : e_virtual_address e + e_mem_size e <= USER_SIZE;
  sf_pages : e_virtual_address e mod 4096 + e_mem_size e <= 4096 * VMO_MAX_PAGES;
  sf_file : 0 <= e_file_size e;
  sf_data : if 0 <? e_file_size e then get_segment_data parser e = Some (Ok d) else d = [];
  sf_bytes : Forall is_byte d
}.

Definition segment_pages (e : OHLK_Entry) : Z := (e_virtual_address e mod 4096 + e_mem_size e + 4095) / 4096.
Definition segment_start (e : OHLK_Entry) : Z := e_virtual_address e - e_virtual_address e mod 4096.
Definition segment_cost (e : OHLK_Entry) : Z := object_cost (segment_pages e) + 3 * segment_pages e.

(** What the program sees at an address of the segment's pages: the file's
    bytes from the virtual address on, zeros around them. *)
Definition segment_byte (e : OHLK_Entry) (d : list Z) (a : Z) : Z :=
  if (e_virtual_address e <=? a) && (a <? e_virtual_address e + Z.of_nat (length d))
  then nth (Z.to_nat (a - e_virtual_address e)) d 0 else 0.

Definition in_segment (e : OHLK_Entry) (a : Z) : Prop :=
  segment_start e <= a < segment_start e + 4096 * segment_pages e.

Lemma segment_shape parser e d :
  segment_fits parser e d ->
  align_down (e_virtual_address e) = segment_start e /\ segment_offset e = e_virtual_address e mod 4096 /\
  segment_size e = 4096 * segment_pages e /\ segment_target 0 e = segment_start e /\
  0 < segment_pages e <= VMO_MAX_PAGES /\ segment_start e mod 4096 = 0 /\ 0 <= segment_start e /\
  segment_start e + 4096 * segment_pages e <= USER_SIZE /\
  e_virtual_address e + e_mem_size e <= segment_start e + 4096 * segment_pages e.
Proof.
  intros [Hva Hsz Hend Hpg _ _ _]. unfold USER_SIZE, VMO_MAX_PAGES, segment_start, segment_pages, segment_target in *.
  set (va := e_virtual_address e) in *. set (mem := e_mem_size e) in *.
  pose proof (Z.div_mod va 4096 ltac:(lia)) as H1. pose proof (Z.mod_pos_bound va 4096 ltac:(lia)) as H2.
  pose proof (Z.div_mod (va mod 4096 + mem + 4095) 4096 ltac:(lia)) as H3.
  pose proof (Z.mod_pos_bound (va mod 4096 + mem + 4095) 4096 ltac:(lia)) as H4.
  assert (Hd : align_down va = va - va mod 4096).
  { change (align_down va) with (page_down va). rewrite page_down_spec by lia. lia. }
  assert (Ho : segment_offset e = va mod 4096) by (unfold segment_offset; fold va; lia).
  assert (Hs : segment_size e = 4096 * ((va mod 4096 + mem + 4095) / 4096)).
  { unfold segment_size. rewrite Ho. fold mem. rewrite u64w_small by lia.
    match goal with |- align_down ?x = _ => change (align_down x) with (page_down x) end.
    rewrite page_down_spec by lia. do 2 f_equal. lia. }
  split_and!; try done; try lia.
  - rewrite Hd. apply u64w_small. lia.
  - rewrite H1 at 1. replace (4096 * (va / 4096) + va mod 4096 - va mod 4096) with (va / 4096 * 4096) by lia.
    by apply Z.mod_mul.
Qed.

Lemma reserve_at vm k id off target size flags :
  user_space vm k -> (k < 32)%nat -> 0 < size -> target mod 4096 = 0 -> 0 <= off -> off mod 4096 = 0 -> 0 <= target ->
  target + size <= USER_SIZE ->
  exists vm', reserve_mapping vm id off target size flags = Ok vm' /\ user_space vm' (S k).
Proof.
  intros [Hb Hs Hc] Hk Hsz Hm Ho Hom Ht He. unfold reserve_mapping, USER_SIZE in *. rewrite Hb, Hs, Hc.
  rewrite !unaligned_spec, Hm, Hom by lia. cbn [Z.eqb negb orb].
  destruct (Z.eqb_spec size 0), (Z.ltb_spec target 0); try lia. cbn [orb]. rewrite !u64w_small by lia.
  destruct (Z.ltb_spec (0 + 256 * 1024 * 1024) (target + size)); [lia|].
  destruct (Nat.leb_spec MAX_MAPPINGS k); [unfold MAX_MAPPINGS in *; lia|].
  eexists. split; [done|]. constructor; cbn [vr_base vr_size vr_mappings]; [done..|].
  rewrite length_app, Hc. cbn [length]. lia.
Qed.

Lemma reserve_ok vm k id target size flags :
  user_space vm k -> (k < 32)%nat -> 0 < size -> target mod 4096 = 0 -> 0 <= target -> target + size <= USER_SIZE ->
  exists vm', reserve_mapping vm id 0 target size flags = Ok vm' /\ user_space vm' (S k).
Proof. intros. by apply reserve_at. Qed.

(** ** Running a segment *)
Lemma new_vmo_ok n (s : Space) lv :
  pt_inv (sp_pt s) lv -> 0 < n <= VMO_MAX_PAGES -> room (sp_phys s) (object_cost n) ->
  exists v p', new_vmo (4096 * n) s =
      Some (Ok v, sp_set_phys (sp_set_vmo_id s (u64w (sp_vmo_id s + 1))) p') /\
    fresh_object (sp_phys s) v p' n (object_cost n) (fun _ => 0).
Proof.
  intros Hinv Hn Hr. destruct (new_object_ok (sp_vmo_id s) n (sp_phys s) (pi_phys _ _ Hinv) Hn Hr)
    as (v & p1 & v' & p' & Hc & _ & Hcm & Hf).
  exists v', p'. split; [|done]. unfold new_vmo, mbind, sp_bind, sp_get, on_phys, sp_modify, on_vmo.
  rewrite Hc. unfold sp_phys. cbn [sp_set_vmo_id sp_set_phys sp_set_pt sp_pt st_phys st_tree]. by rewrite Hcm.
Qed.

Lemma fresh_content p v p' n cost c c' :
  (forall k, c k = c' k) -> fresh_object p v p' n cost c -> fresh_object p v p' n cost c'.
Proof. intros Hc []. constructor; try done. intros k. by rewrite <- Hc. Qed.

Definition payload (e : OHLK_Entry) (d : list Z) : Z -> Z :=
  overlay (fun _ => 0) (segment_offset e) d (4096 * segment_pages e).

Lemma payload_byte parser e d a :
  segment_fits parser e d -> in_segment e a -> payload e d (a - segment_start e) = segment_byte e d a.
Proof.
  intros Hfit Ha. destruct (segment_shape parser e d Hfit) as (_ & Ho & _ & _ & _ & _ & _ & _ & Hcov).
  unfold payload, overlay, segment_byte, in_segment in *. rewrite Ho.
  assert (Hs : e_virtual_address e = segment_start e + e_virtual_address e mod 4096) by (unfold segment_start; lia).
  pose proof (sf_size _ _ _ Hfit). set (o := e_virtual_address e mod 4096) in *.
  replace (a - segment_start e - o) with (a - e_virtual_address e) by lia.
  destruct (Z.leb_spec o (a - segment_start e)), (Z.leb_spec (e_virtual_address e) a),
    (Z.ltb_spec (a - segment_start e) (o + Z.max 0 (Z.min (Z.of_nat (length d)) (4096 * segment_pages e - o)))),
    (Z.ltb_spec a (e_virtual_address e + Z.of_nat (length d))); done || lia.
Qed.

Lemma write_payload_ok parser e d v cost (s : Space) p0 :
  segment_fits parser e d -> fresh_object p0 v (sp_phys s) (segment_pages e) cost (fun _ => 0) ->
  exists v' p', write_payload parser e v s = Some (Ok v', sp_set_phys s p') /\
    fresh_object p0 v' p' (segment_pages e) cost (payload e d).
Proof.
  intros Hfit Hf. destruct (segment_shape parser e d Hfit) as (_ & Ho & _).
  pose proof (Z.mod_pos_bound (e_virtual_address e) 4096 ltac:(lia)).
  destruct Hfit as [Hva Hsz _ _ Hfs Hd Hb]. unfold write_payload. destruct (0 <? e_file_size e).
  - rewrite Hd. destruct (object_written _ _ _ _ _ _ (segment_offset e) d Hf Hb ltac:(lia)) as (r & v' & p' & Hw & _ & Hf').
    exists v', p'. split; [|done]. unfold on_vmo. by rewrite Hw.
  - subst d. exists v, (sp_phys s). split; [by destruct s as [[]]|].
    apply (fresh_content _ _ _ _ _ (fun _ => 0)); [|done]. intros k. unfold payload, overlay. cbn [length].
    case_match; [|done]. by destruct (Z.to_nat _).
Qed.

(** What a segment leaves: its bytes where the file wants them, the frames
    they are in free again. *)
Record segment_done (s : Space) (lv : Levels) (e : OHLK_Entry) (d : list Z) (s' : Space) (lv' : Levels) : Prop := {
  sg_progress : progress (sp_pt s) (sp_pt s') lv lv' (segment_cost e);
  sg_others : forall va, 0 <= va < 2 ^ 48 -> ~ in_segment e va -> translate_va (sp_pt s') va = translate_va (sp_pt s) va;
  sg_bytes : forall a, in_segment e a -> shows (sp_pt s') lv' a (segment_byte e d a);
  sg_freed : forall a, in_segment e a -> loose (sp_pt s') a
}.

Lemma map_segment_ok parser e d (s : Space) lv k :
  pt_inv (sp_pt s) lv -> user_space (sp_vmar s) k -> (k < 32)%nat -> segment_fits parser e d ->
  room (sp_phys s) (segment_cost e) ->
  exists st' lv' vm, let s' := mkSpace st' vm (u64w (sp_vmo_id s + 1)) (sp_tid s) (sp_sched s) (sp_ttbr0 s) (sp_daif s) in
    map_segment parser e s = Some (Ok tt, s') /\ user_space vm (S k) /\ segment_done s lv e d s' lv'.
Proof.
  intros Hinv Hus Hk Hfit Hroom.
  destruct (segment_shape parser e d Hfit) as (_ & _ & Hsize & Htgt & Hn & Hm & Hs0 & Hs1 & _).
  set (n := segment_pages e) in *. unfold segment_cost in Hroom. fold n in Hroom. unfold room in Hroom.
  assert (Hoc : 0 <= object_cost n) by (unfold object_cost; lia).
  destruct (new_vmo_ok n s lv Hinv Hn) as (v0 & p1 & Hnew & Hf0); [unfold room; lia|].
  set (s1 := sp_set_phys _ p1) in *.
  destruct (write_payload_ok parser e d v0 (object_cost n) s1 (sp_phys s) Hfit Hf0) as (v & p2 & Hwp & Hf).
  set (s2 := sp_set_phys s1 p2) in *. fold n in Hf.
  destruct (reserve_ok (sp_vmar s) k (vo_id v) (segment_start e) (4096 * n) (segment_flags (e_ty e)) Hus Hk) as (vm & Hres & Hus');
    [lia|done|done|done|].
  set (s3 := sp_set_vmar s2 vm).
  destruct (place_object v p2 n (object_cost n) (payload e d) (segment_start e) (segment_map_flags (e_ty e)) s s3 lv)
    as (st4 & lv' & Hmap & Hprog & Hoth & Hall & _ & Hfo); try done; [lia| |unfold USER_SIZE in *; lia|].
  { unfold room. rewrite (fr_next _ _ _ _ _ _ Hf), (fr_end _ _ _ _ _ _ Hf). lia. }
  assert (Hx : (reserve (vo_id v) (segment_target 0 e) (segment_size e) (segment_flags (e_ty e));;
     map_pages (Z.to_nat (segment_size e / 4096)) 0 v (segment_target 0 e) (segment_map_flags (e_ty e))) s2 =
     Some (Ok tt, sp_set_pt s3 st4)).
  { rewrite Htgt, Hsize. replace (4096 * n / 4096) with n by (rewrite Z.mul_comm, Z.div_mul; done).
    unfold mbind, sp_bind, reserve. change (sp_vmar s2) with (sp_vmar s). rewrite Hres. exact Hmap. }
  destruct (scoped_ok v _ s2 (sp_set_pt s3 st4) tt lv' Hx) as (p5 & Hsc & Hw5 & Hn5 & He5 & Hr5 & Hz5 & Hk5);
    [apply Hprog|done|].
  destruct (dropped_progress (sp_pt s) st4 lv lv' (object_cost n + 3 * n) (owned_pages v) p5) as (Hp5 & Ht5 & Hsh5); try done.
  { unfold sp_phys in *. lia. }
  { apply (fr_new _ _ _ _ _ _ Hf). }
  exists (mkPt (st_tree st4) p5), lv', vm. cbn zeta. split; [|split; [done|]].
  - unfold map_segment. rewrite (bind_ok _ _ s s (vr_base (sp_vmar s))) by done.
    rewrite (us_base _ _ Hus). rewrite Hsize at 1. rewrite (bind_ok _ _ _ _ _ Hnew), (bind_ok _ _ _ _ _ Hwp). exact Hsc.
  - constructor; cbn [sp_pt sp_phys].
    + exact Hp5.
    + intros va Hva Hnot. rewrite Ht5. apply Hoth; [done|]. unfold in_segment in Hnot. fold n in Hnot. lia.
    + intros a Ha. apply Hsh5. rewrite <- (payload_byte parser) by done. by apply Hall.
    + intros a Ha. destruct (Hall a Ha) as (_ & pa & Hpa & Hin & Hge). exists pa. rewrite Ht5. split; [done|].
      destruct (fo_frame _ _ Hfo _ Hin) as (? & ? & _). cbn [st_phys]. rewrite Hn5. unfold sp_phys in *.
      cbn [sp_set_pt sp_pt] in *. split; [lia|by apply Hz5].
Qed.

(** ** All segments *)

(** The entries that are loaded, in order. *)
Fixpoint loaded (parser : OHLK_Parser) (n : nat) (idx : Z) : list OHLK_Entry :=
  match n with
  | O => []
  | S n =>
      match get_entry parser idx with
      | Ok e => if loadable e then e :: loaded parser n (idx + 1) else loaded parser n (idx + 1)
      | Err _ => loaded parser n (idx + 1)
      end
  end.

(** The last segment on whose pages an address lies. *)
Fixpoint segment_at (segs : list (OHLK_Entry * list Z)) (a : Z) : option (OHLK_Entry * list Z) :=
  match segs with
  | [] => None
  | sd :: segs =>
      match segment_at segs a with
      | Some x => Some x
      | None => if (segment_start sd.1 <=? a) && (a <? segment_start sd.1 + 4096 * segment_pages sd.1)
                then Some sd else None
      end
  end.

Definition entry_found (entry_point : Z) (es : list OHLK_Entry) (calculated : option Z) : option Z :=
  foldl (fun c e => match segment_entry 0 entry_point e with Some x => Some x | None => c end) calculated es.

Definition segments_cost (segs : list (OHLK_Entry * list Z)) : Z :=
  foldr (fun sd n => segment_cost sd.1 + n) 0 segs.

Lemma segment_cost_pos parser e d : segment_fits parser e d -> 0 <= segment_cost e.
Proof.
  intros Hf. destruct (segment_shape parser e d Hf) as (_ & _ & _ & _ & ? & _). unfold segment_cost, object_cost. lia.
Qed.

Lemma segments_cost_pos parser segs : Forall (fun sd => segment_fits parser sd.1 sd.2) segs -> 0 <= segments_cost segs.
Proof.
  induction 1 as [|sd segs Hf _ IH]; [done|]. pose proof (segment_cost_pos _ _ _ Hf).
  cbn [segments_cost foldr]. fold (segments_cost segs). lia.
Qed.

Lemma map_segments_ok parser n idx calc segs (s : Space) lv k :
  pt_inv (sp_pt s) lv -> user_space (sp_vmar s) k -> (k + length segs <= 32)%nat ->
  loaded parser n idx = map fst segs -> Forall (fun sd => segment_fits parser sd.1 sd.2) segs ->
  room (sp_phys s) (segments_cost segs) ->
  exists st' lv' vm id,
    map_segments parser n idx calc s =
      Some (Ok (entry_found (h_entry_point (p_header parser)) (map fst segs) calc),
            mkSpace st' vm id (sp_tid s) (sp_sched s) (sp_ttbr0 s) (sp_daif s)) /\
    user_space vm (k + length segs) /\ progress (sp_pt s) st' lv lv' (segments_cost segs) /\
    forall a, 0 <= a < 2 ^ 48 ->
      match segment_at segs a with
      | Some (e, d) => shows st' lv' a (segment_byte e d a) /\ loose st' a
      | None => translate_va st' a = translate_va (sp_pt s) a
      end.
Proof.
  revert idx calc segs s lv k. induction n as [|n IH]; intros idx calc segs s lv k Hinv Hus Hk Hl Hfits Hroom;
    cbn [map_segments loaded] in *.
  { destruct segs; [|done]. exists (sp_pt s), lv, (sp_vmar s), (sp_vmo_id s). split_and!; [by destruct s| | |done].
    - by rewrite Nat.add_0_r.
    - by apply progress_refl. }
  destruct (get_entry parser idx) as [e|err]; [|by apply IH].
  destruct (loadable e); [|by apply IH].
  destruct segs as [|[e' d] segs]; [done|]. injection Hl as <- Hl.
  apply Forall_cons in Hfits as [Hfit Hfits]. cbn [fst snd] in Hfit. cbn [length] in Hk.
  pose proof (segments_cost_pos _ _ Hfits). pose proof (segment_cost_pos _ _ _ Hfit).
  cbn [segments_cost foldr fst] in Hroom. fold (segments_cost segs) in Hroom. unfold room in Hroom.
  destruct (map_segment_ok parser e d s lv k Hinv Hus) as (st1 & lv1 & vm1 & Hrun & Hus1 & [Hp1 Ho1 Hb1 Hf1]);
    [lia|done|unfold room; lia|]. cbn zeta in Hrun. set (s1 := mkSpace st1 _ _ _ _ _ _) in *.
  pose proof (pg_grown _ _ _ _ _ Hp1) as [N1 E1 _ _ _ _]. cbn [sp_pt s1] in N1, E1.
  destruct (IH (idx + 1) (match segment_entry 0 (h_entry_point (p_header parser)) e with Some x => Some x | None => calc end)
    segs s1 lv1 (S k)) as (st2 & lv2 & vm2 & id2 & Hrest & Hus2 & Hp2 & Hall2); [apply Hp1|done|lia|done|done| |].
  { unfold room, sp_phys in *. cbn [sp_pt s1]. lia. }
  exists st2, lv2, vm2, id2. split_and!.
  - rewrite (bind_ok _ _ s s (vr_base (sp_vmar s))) by done. rewrite (bind_ok _ _ _ _ _ Hrun), (us_base _ _ Hus).
    cbn zeta. etransitivity; [|exact Hrest]. by destruct (segment_entry 0 _ e).
  - cbn [length]. by replace (k + S (length segs))%nat with (S k + length segs)%nat by lia.
  - cbn [segments_cost foldr fst]. by eapply progress_trans.
  - intros a Ha. specialize (Hall2 a Ha). cbn [segment_at fst]. destruct (segment_at segs a) as [[e2 d2]|]; [done|].
    cbn [sp_pt s1] in *.
    destruct ((segment_start e <=? a) && (a <? segment_start e + 4096 * segment_pages e)) eqn:Hin.
    + assert (Hseg : in_segment e a) by (unfold in_segment; reflect; lia). split.
      * eapply shows_kept; [exact Hp2|done|by apply Hb1].
      * eapply loose_kept; [exact Hp2|done|by apply Hf1].
    + rewrite Hall2. apply Ho1; [done|]. unfold in_segment. intros [? ?]. apply andb_false_iff in Hin as [?|?]; reflect; lia.
Qed.

(** ** The tables at the start *)

(** The tree in use, whose upper half and identity block are shared. *)
Record parent_tree (m : Ram) (lvp : Levels) (active cursor : Z) : Prop := {
  pn_tree : tree_wf m lvp active cursor;
  pn_first : read_pte m active 0 = 0 \/ is_valid (read_pte m active 0) = true
}.

Definition set_up_cost : Z := 8.

Lemma set_up_tables_ok active lvp (s : Space) :
  phys_wf (sp_phys s) -> pt_has_root (st_tree (sp_pt s)) = false ->
  active = 0 \/ parent_tree (sp_ram s) lvp active (next_free (sp_phys s)) ->
  room (sp_phys s) set_up_cost ->
  exists st' lv, set_up_tables active s = Some (Ok tt, sp_set_pt s st') /\ pt_inv st' lv /\
    grown (sp_pt s) st' ∅ ∅ set_up_cost /\ (forall t, t < next_free (sp_phys s) -> lvp !! t = None -> lv !! t = None) /\
    (active <> 0 -> new_tree (sp_ram s) active (next_free (sp_phys s)) st').
Proof.
  intros Hw Hroot Hpar Hroom. unfold room, set_up_cost, sp_phys in *. set (n := next_free (st_phys (sp_pt s))) in *.
  destruct (allocate_root_spec (sp_pt s) Hw Hroot ltac:(unfold n in *; lia)) as (st1 & Hr1 & Hi1 & _ & Hz1 & Hg1). fold n in Hi1, Hg1.
  pose proof (gr_next _ _ _ _ _ Hg1). pose proof (gr_end _ _ _ _ _ Hg1).
  destruct (map_va_full st1 _ UART_PA UART_PA device_rw_user Hi1) as (r2 & st2 & lv2 & Hm2 & Hpm2 & Hr2); [done|done|done|].
  pose proof (mp_spread _ _ _ _ _ Hpm2) as Hsp2. apply mapped_progress in Hpm2; [|done|by apply low_address]. pose proof (pg_grown _ _ _ _ _ Hpm2) as Hg2.
  pose proof (gr_next _ _ _ _ _ Hg2). pose proof (gr_end _ _ _ _ _ Hg2).
  destruct (map_va_full st2 lv2 GIC_CPU_PA GIC_CPU_PA device_rw_user (pg_inv _ _ _ _ _ Hpm2)) as (r3 & st3 & lv3 & Hm3 & Hpm3 & Hr3); [done|done|done|].
  pose proof (mp_spread _ _ _ _ _ Hpm3) as Hsp3. apply mapped_progress in Hpm3; [|apply Hpm2|by apply low_address]. pose proof (pg_grown _ _ _ _ _ Hpm3) as Hg3.
  pose proof (gr_next _ _ _ _ _ Hg3). pose proof (gr_end _ _ _ _ _ Hg3).
  assert (Hrun : forall x : SP unit, (on_pt allocate_root;; ignore (on_pt (map_va UART_PA UART_PA device_rw_user));;
    ignore (on_pt (map_va GIC_CPU_PA GIC_CPU_PA device_rw_user));; x) s = x (sp_set_pt s st3)).
  { intros x. rewrite (bind_ok _ _ s (sp_set_pt s st1) tt) by (unfold on_pt; by rewrite Hr1).
    rewrite (bind_ok _ _ _ (sp_set_pt s st2) tt) by (unfold ignore, on_pt; cbn [sp_set_pt sp_pt]; by rewrite Hm2).
    by rewrite (bind_ok _ _ _ (sp_set_pt s st3) tt) by (unfold ignore, on_pt; cbn [sp_set_pt sp_pt]; by rewrite Hm3). }
  unfold set_up_tables. rewrite Hrun.
  pose proof (grown_trans _ _ _ _ _ _ _ _ Hg1 (grown_trans _ _ _ _ _ _ _ _ Hg2 Hg3)) as Hg.
  assert (Hfresh : forall t, t < n -> lv3 !! t = None).
  { intros t Ht. apply (gr_new _ _ _ _ _ Hg); [apply lookup_empty|done]. }
  assert (Hg' : grown (sp_pt s) st3 ∅ ∅ 8) by (destruct Hg as [N E T L W D]; by constructor).
  destruct (Z.eqb_spec active 0) as [->|Hact].
  { exists st3, lv3. split; [done|]. split; [apply Hpm3|]. split; [done|]. split; [intros t Ht _; by apply Hfresh|done]. }
  destruct Hpar as [?|[Htree Hfirst]]; [done|].
  assert (Hrd : forall t r j, lvp !! t = Some r -> 0 <= j < 512 -> read_pte (st_ram st3) t j = read_pte (sp_ram s) t j).
  { intros t r j Ht Hj. destruct (tw_table _ _ _ _ Htree t r Ht) as (_ & ? & _ & ?).
    apply (gr_data _ _ _ _ _ Hg); [done|done|fold n; lia|apply lookup_empty]. }
  destruct (tables_kept _ (st_ram st3) lvp active n Htree Hrd) as [Htree3 _].
  apply (tree_wf_mono _ _ _ _ (next_free (st_phys st3))) in Htree3; [|unfold n in *; lia].
  assert (Hgic : exists pa, translate_va st3 GIC_CPU_PA = Some pa).
  { destruct r3 as [[]|e]; [|destruct Hr3 as (_ & ? & _); unfold n in *; lia].
    rewrite Hr3, Z.eqb_refl. by eexists. }
  destruct Hgic as [pa Hgic]. destruct (translate_points _ _ _ _ (pg_inv _ _ _ _ _ Hpm3) Hgic) as (l1 & Hpt & _).
  change (index 3 GIC_CPU_PA) with 0 in Hpt.
  assert (Hdis : lv3 ##ₘ lvp).
  { apply map_disjoint_spec. intros t r r' Ht Ht'. destruct (tw_table _ _ _ _ Htree t r' Ht') as (_ & _ & _ & ?).
    rewrite Hfresh in Ht; [done|unfold n in *; lia]. }
  assert (Hf3 : read_pte (st_ram st3) active 0 = 0 \/ is_valid (read_pte (st_ram st3) active 0) = true).
  { rewrite (Hrd active 3%nat) by (done || lia || apply Htree). done. }
  destruct (clone_spec st3 lv3 lvp active l1 (pg_inv _ _ _ _ _ Hpm3) Htree3 Hdis Hpt Hf3) as (lvq & m' & Hsub & Hcl & Hinv' & Hout & Hcopy & Hhigh).
  exists (mkPt (st_tree st3) (set_ram (st_phys st3) m')), (lv3 ∪ lvq). split; [|split; [done|split; [|split]]].
  - unfold sp_modify. cbn [sp_set_pt sp_pt]. by rewrite Hcl.
  - destruct Hg' as [N E T L W D]. constructor; try done. intros t j Ht Hj Hlt He. rewrite <- (D t j) by done.
    apply Hout; [done|done|by apply Hfresh].
  - intros t Ht Hnone. apply lookup_union_None. split; [by apply Hfresh|].
    destruct (lvq !! t) eqn:Hq; [|done]. apply Hsub in Hq. congruence.
  - intros _. apply (new_tree_ext _ (st_ram st3) lvp active n); [exact Htree|exact Hrd|].
    apply (cloned_tree st3 lv3 lvp active l1 (next_free (st_phys st3)) n m'); try done; [apply Hpm3| |].
    + intros t r Ht. destruct (Z.le_gt_cases n t); [done|]. rewrite Hfresh in Ht by done. done.
    + pose proof (gr_levels _ _ _ _ _ Hg2). pose proof (gr_levels _ _ _ _ _ Hg3).
      eapply root_entries_kept; [exact (pg_inv _ _ _ _ _ Hpm2)|exact (pg_inv _ _ _ _ _ Hpm3)|done|exact Hsp3|done|].
      eapply root_entries_kept; [exact Hi1|exact (pg_inv _ _ _ _ _ Hpm2)|done|exact Hsp2|done|exact Hz1].
Qed.
End mapping.
