(* ===== verification/LaunchArgs.v ===== *)
(** * LaunchArgs: the stack of a launched program and its arguments

    The second half of the correctness of Launch.v: what [argv] looks like to
    the program, and the launch as a whole. *)
From Stdlib Require Import ZArith Lia String.
From stdpp Require Import base tactics option list list_numbers gmap.
From S2P Require Import Prelude Shared Bytes Handles Phys Thread Sched Ohlk PageTable PtClone Vmar Mem Vmo UserCopy Asid Process Launch LaunchSpec.
Local Open Scope Z_scope.

(** ** Stores through user addresses *)

(** Only frames from [lo] on that are no tables may change. *)
Record range_step (lo : Z) (st st' : PtState) (lv : Levels) : Prop := {
  rs_inv : pt_inv st' lv;
  rs_tree : st_tree st' = st_tree st;
  rs_phys : exists m', st_phys st' = with_ram (st_phys st) m';
  rs_map : forall va, translate_va st' va = translate_va st va;
  rs_words : forall t j, t mod 4096 = 0 -> 0 <= j < 512 -> t < lo \/ is_Some (lv !! t) ->
    read_pte (st_ram st') t j = read_pte (st_ram st) t j
}.

Lemma range_step_refl lo st lv : pt_inv st lv -> range_step lo st st lv.
Proof. intros H. constructor; try done. exists (st_ram st). by destruct st as [? []]. Qed.

Lemma range_step_trans lo st1 st2 st3 lv : range_step lo st1 st2 lv -> range_step lo st2 st3 lv -> range_step lo st1 st3 lv.
Proof.
  intros [H1 T1 [m1 P1] M1 W1] [H2 T2 [m2 P2] M2 W2]. constructor; [done|congruence| | |].
  - exists m2. rewrite P2, P1. by destruct (st_phys st1).
  - intros va. by rewrite M2.
  - intros t j Ht Hj Hc. by rewrite W2, W1.
Qed.

Lemma range_step_progress st0 st1 st2 lv0 lv1 k :
  progress st0 st1 lv0 lv1 k -> range_step (next_free (st_phys st0)) st1 st2 lv1 -> progress st0 st2 lv0 lv1 k.
Proof.
  intros [Hi Hr Hg Hb Hs] [Hi2 Ht2 [m2 P2] _ Hw]. constructor; [done|congruence| |done|].
  - destruct Hg as [N E T L W D]. constructor; rewrite ?P2; cbn [with_ram next_free end_free tags]; try done.
    intros t j Ht Hj Hlt Hl. rewrite Hw by auto. by apply D.
  - eapply spread_trans; [exact Hb|exact Hi|apply Hg|apply Hg|exact Hs|].
    assert (Hsame : forall x r j, lv1 !! x = Some r -> 0 <= j < 512 -> read_pte (st_ram st2) x j = read_pte (st_ram st1) x j).
    { intros x r j Hx Hj. destruct (tw_table _ _ _ _ (pi_tree _ _ Hi) x r Hx) as (_ & Hm & _). apply Hw; [done|done|right; by eexists]. }
    constructor; [by rewrite Ht2| |].
    + intros x r j Hx Hj _. by apply (Hsame x r).
    + intros x r j c Hx Hj Hp. left. split; [done|]. unfold points in *. by rewrite <- (Hsame x (S r) j Hx Hj).
Qed.

Lemma own_range_step lo st st' lv va len : range_step lo st st' lv -> own_range st lv va len lo -> own_range st' lv va len lo.
Proof.
  intros [_ _ [m' P] M _] [Hm Ho Hi]. constructor.
  - intros a Ha. destruct (Hm a Ha) as (pa & ? & ? & ?). exists pa. rewrite M, P. done.
  - intros a pa Ha. rewrite M. by apply Ho.
  - intros a b pa Ha Hb. rewrite !M. by apply Hi.
Qed.

(** The byte at a user address. *)
Definition ubyte (st : PtState) (a : Z) : option Z := byte_at (st_ram st) <$> translate_va st a.

Lemma shows_ubyte st lv va b : shows st lv va b -> ubyte st va = Some b.
Proof. intros (pa & Ht & Hb & _). unfold ubyte. rewrite Ht. cbn. by rewrite Hb. Qed.

(** The frame of a mapped byte holds the words around it. *)
Lemma frame_word w : w mod 8 = 0 -> w = frame_of w + 8 * ((w mod 4096) / 8) /\ 0 <= (w mod 4096) / 8 < 512.
Proof.
  intros Hw. unfold frame_of. pose proof (Z.div_mod w 4096 ltac:(lia)). pose proof (Z.mod_pos_bound w 4096 ltac:(lia)).
  pose proof (Z.div_mod (w mod 4096) 8 ltac:(lia)).
  assert ((w mod 4096) mod 8 = 0) by (rewrite Z.mod_mod_divide; [done|by exists 512]).
  split; [lia|]. split; [apply Z.div_pos; lia|apply Z.div_lt_upper_bound; lia].
Qed.

Section args.
Context {Obj Pk : Type}.
Abbreviation Space := (Launch.Space Obj Pk).

Lemma pt_inv_root st lv : pt_inv st lv -> 0 < pt_l0_pa (st_tree st) /\ pt_has_root (st_tree st) = true.
Proof.
  intros Hi. split; [|apply Hi]. by destruct (tw_table _ _ _ _ (pi_tree _ _ Hi) _ _ (tw_root _ _ _ _ (pi_tree _ _ Hi))) as (_ & _ & ? & _).
Qed.

Lemma user_pa_va st lv a : pt_inv st lv -> 0 <= a < 2 ^ 64 ->
  user_pa (st_ram st) (pt_l0_pa (st_tree st)) a = translate_va st a.
Proof. intros Hi Ha. unfold user_pa, translate_va. by rewrite (pi_root _ _ Hi), u64w_small. Qed.

(** A copy into such a range. *)
Lemma copy_user_ok bs va (s : Space) lv base len lo :
  pt_inv (sp_pt s) lv -> own_range (sp_pt s) lv base len lo -> Forall is_byte bs ->
  0 <= base -> base <= va -> va + Z.of_nat (length bs) <= base + len -> base + len <= 2 ^ 48 -> va < 2 ^ 48 ->
  exists st', copy_user bs va s = Some (Ok tt, sp_set_pt s st') /\ range_step lo (sp_pt s) st' lv /\
    forall a, base <= a < base + len ->
      ubyte st' a = if (va <=? a) && (a <? va + Z.of_nat (length bs)) then Some (nth (Z.to_nat (a - va)) bs 0)
                    else ubyte (sp_pt s) a.
Proof.
  intros Hinv [Hm _ Hinj] Hb Hb0 Hva Hend H48 Hva48. set (st := sp_pt s) in *. set (m := st_ram st).
  set (l0 := pt_l0_pa (st_tree st)).
  assert (Hup : forall i, 0 <= i < Z.of_nat (length bs) -> user_pa m l0 (va + i) = translate_va st (va + i)).
  { intros i Hi. apply (user_pa_va st lv); [done|lia]. }
  assert (Hsafe : range_safe m lv l0 va (Z.of_nat (length bs))).
  { intros i pa t r Hi Ht Hl. fold (user_pa m l0 (va + i)) in Ht. rewrite Hup in Ht by done.
    destruct (Hm (va + i) ltac:(lia)) as (pa' & Hpa' & _ & Hn). assert (pa' = pa) as -> by congruence.
    destruct (frame_aligned pa) as [Hfa Hfr]. destruct (tw_table _ _ _ _ (pi_tree _ _ Hinv) t r Hl) as (_ & Hta & _).
    assert (t <> frame_of pa) by congruence. pose proof (Z.div_mod t 4096). pose proof (Z.div_mod (frame_of pa) 4096). lia. }
  assert (H11 : one_to_one m l0 va (Z.of_nat (length bs))).
  { intros i j pa Hi Hj. rewrite !Hup by done. intros H1 H2. pose proof (Hinj (va + i) (va + j) pa ltac:(lia) ltac:(lia) H1 H2). lia. }
  destruct (copy_range_ok m lv l0 (next_free (st_phys st)) va bs) as (m' & Hc & _ & [Htree Hmap Hframe Hword] & Hall); try done.
  { apply Hinv. }
  { lia. }
  { intros i Hi. rewrite Hup by done. destruct (Hm (va + i) ltac:(lia)) as (pa & -> & _). by eexists. }
  specialize (Hall H11). set (st' := mkPt (st_tree st) (with_ram (st_phys st) m')).
  assert (Htv : forall a, translate_va st' a = translate_va st a).
  { intros a. unfold translate_va. cbn [st' st_tree]. destruct (pt_has_root _); [|done]. apply Hmap. }
  exists st'. split; [|split].
  - unfold copy_user, sp_ram, sp_l0, sp_phys. fold st. fold m l0. change (ram (st_phys st)) with m. by rewrite Hc.
  - constructor; [|done|by exists m'|done|].
    + constructor; [|exact Htree|apply Hinv]. destruct (pi_phys _ _ Hinv). by constructor.
    + intros t j Ht Hj Hcase. change (st_ram st') with m'. unfold read_pte. apply Hword.
      { rewrite (Z.div_mod t 4096), Ht by lia. replace (4096 * (t / 4096) + 0 + 8 * j) with ((512 * (t / 4096) + j) * 8) by lia.
        by apply Z.mod_mul. }
      intros i a Hi Ha. rewrite Hup in Ha by done. destruct (Hm (va + i) ltac:(lia)) as (a' & Ha' & Hr & Hn).
      assert (a' = a) as -> by congruence. destruct (frame_aligned a) as [Hfa Hfr].
      assert (t <> frame_of a) by (destruct Hcase as [?|[r ?]]; [lia|congruence]).
      pose proof (Z.div_mod t 4096). pose proof (Z.div_mod (frame_of a) 4096). lia.
  - intros a Ha. unfold ubyte. rewrite Htv. destruct (Hm a Ha) as (pa & Hpa & _). rewrite Hpa. cbn [fmap option_fmap option_map].
    change (st_ram st') with m'. destruct (_ && _) eqn:E; [reflect|].
    + f_equal. apply (Hall (a - va) pa); [lia|]. rewrite Hup by lia. by replace (va + (a - va)) with a by lia.
    + f_equal. apply Hframe. intros i Hi Heq. rewrite Hup in Heq by done.
      pose proof (Hinj (va + i) a pa ltac:(lia) Ha Heq Hpa). subst a.
      apply andb_false_iff in E as [?|?]; reflect; lia.
Qed.

(** ** The layout of the arguments *)
Definition pad (len : Z) : Z := 16 * ((len + 15) / 16).

Lemma align16_down_spec a : 0 <= a < 2 ^ 64 -> align16_down a = 16 * (a / 16).
Proof.
  exact (mask_down 4 a ltac:(lia)).
Qed.

Lemma align16_up_spec a : 0 <= a < 2 ^ 63 -> align16_up a = pad a.
Proof. intros Ha. unfold align16_up, pad. rewrite u64w_small by lia. apply align16_down_spec. lia. Qed.

Lemma pad_spec len : 0 <= len -> len <= pad len < len + 16 /\ pad len mod 16 = 0 /\ (len mod 16 <> 0 -> len < pad len) /\
  (len mod 16 = 0 -> pad len = len).
Proof.
  intros Hl. unfold pad. pose proof (Z.div_mod (len + 15) 16 ltac:(lia)). pose proof (Z.mod_pos_bound (len + 15) 16 ltac:(lia)).
  pose proof (Z.div_mod len 16 ltac:(lia)). pose proof (Z.mod_pos_bound len 16 ltac:(lia)).
  split; [lia|]. split; [rewrite Z.mul_comm; by apply Z.mod_mul|]. split; intros; lia.
Qed.

(** Where string [i] is put when the first one is at [sp0]. *)
Definition arg_va (lens : list Z) (sp0 : Z) (i : nat) : Z := sp0 + foldr (fun l n => pad l + n) 0 (take i lens).

Lemma arg_va_0 lens sp0 : arg_va lens sp0 0 = sp0.
Proof. unfold arg_va. rewrite take_0. cbn [foldr]. lia. Qed.

Lemma arg_va_S lens sp0 i l : lens !! i = Some l -> arg_va lens sp0 (S i) = arg_va lens sp0 i + pad l.
Proof.
  intros Hl. unfold arg_va. rewrite (take_S_r _ _ _ Hl), foldr_app. cbn [foldr].
  assert (Hgen : forall m x, foldr (fun l n => pad l + n) x m = foldr (fun l n => pad l + n) 0 m + x).
  { induction m as [|y m IH]; intros x; cbn [foldr]; [lia|]. rewrite IH. lia. }
  rewrite (Hgen _ (pad l + 0)). lia.
Qed.

Record args_ok (argc : nat) (strs : list (list Z)) (lens : list Z) : Prop := {
  ao_count : (argc <= MAX_ARGS)%nat;
  ao_arg : forall i, (i < argc)%nat -> exists l str, lens !! i = Some l /\ strs !! i = Some str /\
    0 <= l <= Z.of_nat (length str) /\ l <= ARG_CAP /\ Forall is_byte str
}.

Lemma arg_va_mono argc strs lens sp0 i j :
  args_ok argc strs lens -> (i <= j <= argc)%nat -> arg_va lens sp0 i <= arg_va lens sp0 j <= arg_va lens sp0 i + 272 * Z.of_nat (j - i).
Proof.
  intros Ha Hij. induction j as [|j IH]; [replace i with 0%nat by lia; lia|].
  destruct (decide (i = S j)) as [->|Hne]; [lia|]. destruct (ao_arg _ _ _ Ha j ltac:(lia)) as (l & str & Hl & _ & H0 & H1 & _).
  rewrite (arg_va_S _ _ _ _ Hl). specialize (IH ltac:(lia)). destruct (pad_spec l ltac:(lia)) as ((? & ?) & _).
  unfold ARG_CAP in *. lia.
Qed.

(** What a string looks like once it is in place. *)
Definition string_put (st : PtState) (lens : list Z) (strs : list (list Z)) (sp0 : Z) (i : nat) : Prop :=
  forall l str, lens !! i = Some l -> strs !! i = Some str ->
    (forall k, 0 <= k < l -> ubyte st (arg_va lens sp0 i + k) = Some (nth (Z.to_nat k) str 0)) /\
    (l mod 16 <> 0 -> ubyte st (arg_va lens sp0 i + l) = Some 0).

(** The bytes of the strings before [i] are below the start of string [i]. *)
Lemma string_put_kept st st' argc lens strs sp0 i j :
  args_ok argc strs lens -> (i < j <= argc)%nat -> 
  (forall a, sp0 <= a < arg_va lens sp0 j -> ubyte st' a = ubyte st a) ->
  string_put st lens strs sp0 i -> string_put st' lens strs sp0 i.
Proof.
  intros Ha Hij Hsame Hp l str Hl Hs. destruct (Hp l str Hl Hs) as [Hb Hz].
  pose proof (arg_va_mono _ _ _ sp0 0 i Ha ltac:(lia)) as Hlo. pose proof (arg_va_mono _ _ _ sp0 (S i) j Ha ltac:(lia)) as Hhi.
  rewrite (arg_va_S _ _ _ _ Hl) in Hhi. destruct (ao_arg _ _ _ Ha i ltac:(lia)) as (l' & str' & Hl' & _ & H0 & _).
  assert (l' = l) as -> by congruence. destruct (pad_spec l ltac:(lia)) as (Hp1 & _ & Hp3 & _).
  pose proof (arg_va_0 lens sp0) as Hz0.
  split; [intros k Hk; rewrite Hsame; [by apply Hb|lia]|]. intros Hm. rewrite Hsame; [by apply Hz|]. specialize (Hp3 Hm). lia.
Qed.

Section put.
Context (strs : list (list Z)) (lens : list Z) (argc : nat) (base len lo sp0 : Z) (lv : Levels).
Context (Ha : args_ok argc strs lens) (Hb0 : 0 <= base) (Hsp : base <= sp0)
  (Hend : arg_va lens sp0 argc + 8 * Z.of_nat argc < base + len) (H48 : base + len <= 2 ^ 47).

Lemma put_strings_ok n i vas (s : Space) :
  pt_inv (sp_pt s) lv -> own_range (sp_pt s) lv base len lo -> (i + n = argc)%nat -> length vas = MAX_ARGS ->
  (forall j, (j < i)%nat -> string_put (sp_pt s) lens strs sp0 j /\ vas !! j = Some (arg_va lens sp0 j)) ->
  exists st' vas', put_strings n i strs lens (arg_va lens sp0 i) vas s =
      Some (Ok (arg_va lens sp0 argc, vas'), sp_set_pt s st') /\
    range_step lo (sp_pt s) st' lv /\ length vas' = MAX_ARGS /\
    (forall j, (j < argc)%nat -> string_put st' lens strs sp0 j /\ vas' !! j = Some (arg_va lens sp0 j)).
Proof.
  revert i vas s. induction n as [|n IH]; intros i vas s Hinv Hown Hn Hlen Hdone; cbn [put_strings].
  { exists (sp_pt s), vas. assert (i = argc) as -> by lia. split_and!; [by destruct s|by apply range_step_refl|done|done]. }
  destruct (ao_arg _ _ _ Ha i ltac:(lia)) as (l & str & Hl & Hstr & H0 & H1 & Hby). pose proof (ao_count _ _ _ Ha) as Hcnt.
  pose proof (arg_va_mono _ _ _ sp0 0 i Ha ltac:(lia)) as Hlo. pose proof (arg_va_mono _ _ _ sp0 (S i) argc Ha ltac:(lia)) as Hhi.
  pose proof (arg_va_0 lens sp0) as Hz0.
  rewrite (arg_va_S _ _ _ _ Hl) in Hhi. destruct (pad_spec l ltac:(lia)) as (Hp1 & _ & Hp3 & _).
  set (cur := arg_va lens sp0 i) in *. unfold ARG_CAP in *.
  assert (Hsl : slice str 0 (Z.to_nat l) = Some (take (Z.to_nat l) str)).
  { unfold slice. rewrite decide_True by lia. by rewrite Nat.sub_0_r. }
  set (bs := take (Z.to_nat l) str) in *.
  assert (Hbl : Z.of_nat (length bs) = l) by (unfold bs; rewrite length_take; lia).
  destruct (copy_user_ok bs cur s lv base len lo Hinv Hown) as (st1 & Hc1 & Hr1 & Hu1); try lia; [by apply Forall_take|].
  destruct (copy_user_ok [0] (cur + l) (sp_set_pt s st1) lv base len lo) as (st2 & Hc2 & Hr2 & Hu2); cbn [length]; try lia.
  { apply Hr1. } { by apply (own_range_step lo (sp_pt s)). } { by repeat constructor. }
  cbn [sp_set_pt sp_pt] in Hr2, Hu2. pose proof (range_step_trans _ _ _ _ _ Hr1 Hr2) as Hr12.
  destruct (IH (S i) (<[i := cur]> vas) (sp_set_pt s st2)) as (st3 & vas3 & Hrest & Hr3 & Hlen3 & Hall).
  { apply Hr2. } { by apply (own_range_step lo (sp_pt s)). } { lia. } { by rewrite length_insert. }
  { intros j Hj. cbn [sp_set_pt sp_pt].
    assert (Hbelow : forall a, sp0 <= a < cur -> ubyte st2 a = ubyte (sp_pt s) a).
    { intros a Hlt. rewrite Hu2, Hu1 by lia.
      destruct (Z.leb_spec (cur + l) a), (Z.leb_spec cur a); try lia. done. }
    destruct (decide (j = i)) as [->|Hne].
    - split; [|by rewrite list_lookup_insert_eq by (unfold MAX_ARGS in *; lia)].
      intros l' str' Hl' Hs'. assert (l' = l) as -> by congruence. assert (str' = str) as -> by congruence. fold cur. split.
      + intros k Hk. rewrite Hu2, Hu1 by lia. cbn [length].
        destruct (Z.leb_spec (cur + l) (cur + k)); [lia|]. cbn [andb].
        destruct (Z.leb_spec cur (cur + k)), (Z.ltb_spec (cur + k) (cur + Z.of_nat (length bs))); try lia. cbn [andb].
        f_equal. replace (cur + k - cur) with k by lia. unfold bs. rewrite !nth_lookup, lookup_take_lt by lia. done.
      + intros Hm. rewrite Hu2 by lia. cbn [length]. rewrite Z.leb_refl.
        destruct (Z.ltb_spec (cur + l) (cur + l + Z.of_nat 1)); [|lia]. cbn [andb]. by rewrite Z.sub_diag.
    - destruct (Hdone j ltac:(lia)) as [Hp Hv]. rewrite list_lookup_insert_ne by done. split; [|done].
      by apply (string_put_kept (sp_pt s) st2 argc lens strs sp0 j i Ha ltac:(lia)). }
  exists st3, vas3. split; [|split; [by eapply range_step_trans|done]].
  unfold or_die. rewrite Hl, Hstr. rewrite (bind_ok _ _ s s l), (bind_ok _ _ s s str) by done. rewrite Hsl.
  rewrite (bind_ok _ _ s s bs), (bind_ok _ _ _ _ _ Hc1) by done. rewrite (u64w_small (cur + l)) by lia.
  rewrite (bind_ok _ _ _ _ _ Hc2). destruct (Nat.ltb_spec i MAX_ARGS); [|lia].
  rewrite align16_up_spec by lia. rewrite u64w_small by lia.
  etransitivity; [|exact Hrest]. by rewrite (arg_va_S _ _ _ _ Hl).
Qed.

Let argv : Z := arg_va lens sp0 argc.

Definition pointer_put (st : PtState) (i : nat) : Prop :=
  forall k, 0 <= k < 8 -> ubyte st (argv + Z.of_nat i * 8 + k) = Some (nth (Z.to_nat k) (le 8 (arg_va lens sp0 i)) 0).

Lemma put_pointers_ok n i vas (s : Space) :
  pt_inv (sp_pt s) lv -> own_range (sp_pt s) lv base len lo -> (i + n = argc)%nat ->
  (forall j, (j < argc)%nat -> vas !! j = Some (arg_va lens sp0 j)) ->
  (forall j, (j < i)%nat -> pointer_put (sp_pt s) j) ->
  exists st', put_pointers n i vas argv s = Some (Ok tt, sp_set_pt s st') /\ range_step lo (sp_pt s) st' lv /\
    (forall j, (j < argc)%nat -> pointer_put st' j) /\
    (forall a, base <= a < argv -> ubyte st' a = ubyte (sp_pt s) a).
Proof.
  revert i s. induction n as [|n IH]; intros i s Hinv Hown Hn Hvas Hdone; cbn [put_pointers].
  { exists (sp_pt s). split_and!; [by destruct s|by apply range_step_refl| |done]. intros j Hj. apply Hdone. lia. }
  pose proof (arg_va_mono _ _ _ sp0 0 argc Ha ltac:(lia)) as Hlo. rewrite arg_va_0 in Hlo. fold argv in Hlo, Hend.
  unfold or_die. rewrite (Hvas i) by lia.
  destruct (copy_user_ok (le 8 (arg_va lens sp0 i)) (argv + Z.of_nat i * 8) s lv base len lo Hinv Hown)
    as (st1 & Hc1 & Hr1 & Hu1); rewrite ?length_le; try lia; [apply le_bytes|].
  rewrite length_le in Hu1.
  destruct (IH (S i) (sp_set_pt s st1)) as (st2 & Hrest & Hr2 & Hall & Hlow); [apply Hr1| |lia|done| |].
  { by apply (own_range_step lo (sp_pt s)). }
  { intros j Hj k Hk. cbn [sp_set_pt sp_pt]. rewrite Hu1 by lia. destruct (decide (j = i)) as [->|Hne].
    - destruct (Z.leb_spec (argv + Z.of_nat i * 8) (argv + Z.of_nat i * 8 + k)),
        (Z.ltb_spec (argv + Z.of_nat i * 8 + k) (argv + Z.of_nat i * 8 + Z.of_nat 8)); try lia. cbn [andb].
      do 2 f_equal. lia.
    - destruct (Z.leb_spec (argv + Z.of_nat i * 8) (argv + Z.of_nat j * 8 + k)); [lia|]. apply Hdone; lia. }
  exists st2. split; [|split; [by eapply range_step_trans|split; [done|]]].
  - rewrite (bind_ok _ _ s s (arg_va lens sp0 i)) by done. rewrite (u64w_small (argv + _)) by lia.
    rewrite (bind_ok _ _ _ _ _ Hc1). exact Hrest.
  - intros a Hlt. rewrite Hlow by done. cbn [sp_set_pt sp_pt]. rewrite Hu1 by lia.
    destruct (Z.leb_spec (argv + Z.of_nat i * 8) a); [lia|done].
Qed.
End put.

(** ** [argv] as a whole *)
Lemma string_total_ok argc strs lens n i acc :
  args_ok argc strs lens -> (i + n = argc)%nat -> 0 <= acc -> acc + 272 * Z.of_nat n < 2 ^ 63 ->
  string_total n i lens acc = Some (acc + (arg_va lens 0 argc - arg_va lens 0 i)).
Proof.
  intros Ha. revert i acc. induction n as [|n IH]; intros i acc Hn H0 Hb; cbn [string_total].
  { assert (i = argc) as -> by lia. f_equal. lia. }
  destruct (ao_arg _ _ _ Ha i ltac:(lia)) as (l & str & Hl & _ & Hl0 & Hl1 & _). rewrite Hl. cbn [mbind option_bind].
  destruct (pad_spec l ltac:(lia)) as (Hp & _). unfold ARG_CAP in *. rewrite align16_up_spec by lia. rewrite u64w_small by lia.
  rewrite IH by lia. rewrite (arg_va_S _ _ _ _ Hl). f_equal. lia.
Qed.

Lemma arg_va_shift lens sp0 i : arg_va lens sp0 i = sp0 + arg_va lens 0 i.
Proof. unfold arg_va. lia. Qed.

(** Where the first string goes. *)
Definition argv_base (argc : nat) (lens : list Z) (top : Z) : Z :=
  16 * ((top - (8 * Z.of_nat argc + arg_va lens 0 argc + 16)) / 16).

(** What the program finds: its strings one behind the other, the array of
    their addresses behind them, and the stack pointer above both. *)
Record argv_put (st : PtState) (argc : nat) (strs : list (list Z)) (lens : list Z) (sp0 argv sp' : Z) : Prop := {
  av_strings : forall i, (i < argc)%nat -> string_put st lens strs sp0 i;
  av_pointers : forall i k, (i < argc)%nat -> 0 <= k < 8 ->
    ubyte st (argv + Z.of_nat i * 8 + k) = Some (nth (Z.to_nat k) (le 8 (arg_va lens sp0 i)) 0);
  av_array : argv = arg_va lens sp0 argc;
  av_sp : sp' = pad (argv + 8 * Z.of_nat argc)
}.

Lemma put_argv_ok argc strs lens top (s : Space) lv base len lo :
  pt_inv (sp_pt s) lv -> own_range (sp_pt s) lv base len lo -> args_ok argc strs lens ->
  0 <= base -> base + len <= 2 ^ 47 -> 8192 <= len -> top = base + len ->
  exists st', let sp0 := argv_base argc lens top in
    put_argv argc strs lens top s =
      Some (Ok (arg_va lens sp0 argc, pad (arg_va lens sp0 argc + 8 * Z.of_nat argc)), sp_set_pt s st') /\
    range_step lo (sp_pt s) st' lv /\
    argv_put st' argc strs lens sp0 (arg_va lens sp0 argc) (pad (arg_va lens sp0 argc + 8 * Z.of_nat argc)) /\
    base <= sp0 /\ arg_va lens sp0 argc + 8 * Z.of_nat argc + 16 <= top.
Proof.
  intros Hinv Hown Ha Hb0 H48 Hlen ->. set (sp0 := argv_base argc lens (base + len)). cbn zeta.
  pose proof (arg_va_mono _ _ _ 0 0 argc Ha ltac:(lia)) as Hmono. rewrite arg_va_0, Nat.sub_0_r in Hmono.
  pose proof (ao_count _ _ _ Ha) as Hcnt. unfold MAX_ARGS in Hcnt.
  set (total := arg_va lens 0 argc) in *. set (area := 8 * Z.of_nat argc + total + 16).
  assert (Hsp : sp0 <= base + len - area < sp0 + 16).
  { unfold sp0, argv_base. fold total. fold area. pose proof (Z.div_mod (base + len - area) 16 ltac:(lia)).
    pose proof (Z.mod_pos_bound (base + len - area) 16 ltac:(lia)). lia. }
  pose proof (arg_va_shift lens sp0 argc) as Hsh. fold total in Hsh. unfold area in Hsp.
  destruct (put_strings_ok strs lens argc base len lo sp0 lv Ha Hb0 ltac:(lia) ltac:(lia) ltac:(lia) argc 0 (replicate MAX_ARGS 0) s Hinv Hown)
    as (st1 & vas & Hps & Hr1 & Hlv & Hall); [lia|by rewrite length_replicate|lia|].
  destruct (put_pointers_ok strs lens argc base len lo sp0 lv Ha Hb0 ltac:(lia) ltac:(lia) ltac:(lia) argc 0 vas (sp_set_pt s st1))
    as (st2 & Hpp & Hr2 & Hptr & Hlow); [apply Hr1|by apply (own_range_step lo (sp_pt s))|lia|intros j Hj; by apply Hall|lia|].
  exists st2. split; [|split; [by eapply range_step_trans|split; [constructor; try done|lia]]].
  - unfold put_argv, or_die. rewrite (string_total_ok argc strs) by (done || lia).
    rewrite (bind_ok _ _ s s total) by (rewrite arg_va_0; unfold mret, sp_ret; do 3 f_equal; unfold total; lia).
    rewrite !(u64w_small (Z.of_nat argc * 8)) by lia. rewrite (u64w_small (_ + total + 16)) by lia.
    rewrite (u64w_small (base + len - _)) by lia. rewrite align16_down_spec by lia.
    replace (16 * _) with sp0 by (unfold sp0, argv_base; fold total; do 2 f_equal; lia).
    rewrite arg_va_0 in Hps. rewrite (bind_ok _ _ _ _ _ Hps). cbn [fst snd]. rewrite (bind_ok _ _ _ _ _ Hpp).
    rewrite u64w_small by lia. rewrite align16_up_spec by lia.
    replace (Z.of_nat argc * 8) with (8 * Z.of_nat argc) by lia. done.
  - intros i Hi. apply (string_put_kept st1 st2 argc lens strs sp0 i argc Ha ltac:(lia)); [|by apply Hall].
    intros a Hlt. apply Hlow. lia.
  - intros i k Hi Hk. by apply (Hptr i Hi k Hk).
Qed.
End args.
