(* ===== verification/LaunchRun.v ===== *)
(** * LaunchRun: a launch from end to end

    The stack and the thread of a launched program and the claims about the
    whole call of Launch.v. *)
From Stdlib Require Import ZArith Lia String.
From stdpp Require Import base tactics option list list_numbers gmap.
From S2P Require Import Prelude Shared Bytes Handles Pipe Phys Thread Sched Ohlk PageTable PtClone PtShare Vmar Mem Vmo UserCopy Asid Process Launch LaunchSpec LaunchArgs.
Local Open Scope Z_scope.

Section run.
Context {Obj Pk : Type}.
Abbreviation Space := (Launch.Space Obj Pk).

(** ** Fresh frames *)
Lemma fresh_progress st lv p' k : pt_inv st lv -> fresh_ext (st_phys st) p' k -> 0 <= k ->
  progress st (mkPt (st_tree st) p') lv lv k /\ forall va, translate_va (mkPt (st_tree st) p') va = translate_va st va.
Proof.
  intros Hinv [Hw Hn He _ Hwd Htg] Hk. apply phys_progress; try done; [lia|].
  intros w _ Hlt. by apply Hwd.
Qed.

Lemma alloc_more_ok n p : phys_wf p -> room p (Z.of_nat n) ->
  exists p', alloc_more n p = Some (Ok tt, p') /\ fresh_ext p p' (Z.of_nat n).
Proof.
  revert p. induction n as [|n IH]; intros p Hw Hr.
  { exists p. split; [done|]. constructor; [done|lia|done..]. }
  destruct (alloc_with_room TKernelStack p _ Hw Hr ltac:(lia)) as [Ha Hf].
  destruct (IH (alloc_next TKernelStack p)) as (p' & Hm & Hf'); [apply Hf| |].
  { unfold room in *. rewrite (fe_next _ _ _ Hf), (fe_end _ _ _ Hf). lia. }
  exists p'. split; [cbn [alloc_more]; unfold alloc_kstack_page; by rewrite Ha|].
  replace (Z.of_nat (S n)) with (1 + Z.of_nat n) by lia. by eapply fresh_ext_trans.
Qed.

(** ** The thread *)
Section thread.
Context (user_eret_stub : Z).

Lemma make_thread_ok name entry top (s : Space) :
  phys_wf (sp_phys s) -> room (sp_phys s) 4 ->
  exists t p', make_thread user_eret_stub name entry top s =
      Some (Ok t, sp_set_tid (sp_set_phys s p') (u64w (sp_tid s + 1))) /\
    fresh_ext (sp_phys s) p' 4 /\ t_id t = sp_tid s /\ t_priority t = Normal /\ fresh_thread t /\ t_entry t = entry /\
    x (t_context t) = replicate 19 0 /\ user_sp (t_context t) = top /\ elr (t_context t) = entry.
Proof.
  intros Hw Hr. unfold make_thread, new_user, thread_new, alloc_kstack.
  destruct (alloc_with_room TKernelStack (sp_phys s) _ Hw Hr ltac:(lia)) as [Ha Hf].
  destruct (alloc_more_ok 3 (alloc_next TKernelStack (sp_phys s))) as (p' & Hm & Hf'); [apply Hf| |].
  { unfold room in *. rewrite (fe_next _ _ _ Hf), (fe_end _ _ _ Hf). lia. }
  change (alloc_kstack_page (sp_phys s)) with (alloc_page TKernelStack (sp_phys s)). rewrite Ha.
  change (KERNEL_STACK_PAGES - 1)%nat with 3%nat. rewrite Hm. eexists _, p'. split; [done|].
  split; [change 4 with (1 + Z.of_nat 3); by eapply fresh_ext_trans|done].
Qed.
End thread.

(** ** The stack *)
Definition stack_top : Z := STACK_OFFSET + STACK_SIZE.
Definition in_stack (a : Z) : Prop := STACK_OFFSET <= a < stack_top.

Lemma set_word_byte m w b : w mod 8 = 0 ->
  byte_at (ram_write m w 0) b = if (w <=? b) && (b <? w + 8) then 0 else byte_at m b.
Proof.
  intros Hw. unfold byte_at, ram_read, ram_write. pose proof (Z.div_mod b 8 ltac:(lia)). pose proof (Z.mod_pos_bound b 8 ltac:(lia)).
  pose proof (Z.div_mod w 8 ltac:(lia)). destruct (Z.leb_spec w b), (Z.ltb_spec b (w + 8)); cbn [andb].
  - assert (8 * (b / 8) = w) as -> by lia. rewrite lookup_insert_eq. cbn. unfold byte_of. by rewrite Z.shiftr_0_l.
  - rewrite lookup_insert_ne by lia. done.
  - rewrite lookup_insert_ne by lia. done.
  - rewrite lookup_insert_ne by lia. done.
Qed.

(** The store to the last stack page, where all bytes are zero. *)
Lemma touch_ok va (s : Space) lv base len lo :
  pt_inv (sp_pt s) lv -> own_range (sp_pt s) lv base len lo -> base <= va -> va + 8 <= base + len ->
  0 <= base -> base + len <= 2 ^ 47 -> va mod 16 = 0 ->
  (forall a, base <= a < base + len -> ubyte (sp_pt s) a = Some 0) ->
  exists st', touch va s = Some (Ok tt, sp_set_pt s st') /\ range_step lo (sp_pt s) st' lv /\
    forall a, base <= a < base + len -> ubyte st' a = Some 0.
Proof.
  intros Hinv [Hm Hoff Hinj] Hva Hend Hb0 H47 Hal Hz. destruct (Hm va ltac:(lia)) as (pa & Hpa & Hr & Hn).
  unfold touch. rewrite Hpa. set (st := sp_pt s) in *. set (m' := ram_write (st_ram st) pa 0).
  pose proof (Hoff va pa ltac:(lia) Hpa) as Hmod. destruct (frame_aligned pa) as [Hfa Hfr].
  assert (Hpal : pa mod 16 = 0).
  { rewrite (Z.div_mod pa 4096), Hmod, (Z.mul_comm 4096), <- Z.add_mod_idemp_l by lia.
    replace (pa / 4096 * 4096) with (pa / 4096 * 256 * 16) by lia. rewrite Z.mod_mul, Z.add_0_l by lia.
    rewrite Z.mod_mod_divide; [done|by exists 256]. }
  assert (Hp8 : pa mod 8 = 0) by (rewrite <- (Z.mod_mod_divide pa 16 8), Hpal; [done|by exists 2]).
  destruct (frame_word pa Hp8) as [Hword Hj].
  assert (Hwords : forall t j, t mod 4096 = 0 -> 0 <= j < 512 -> t < lo \/ is_Some (lv !! t) ->
    read_pte m' t j = read_pte (st_ram st) t j).
  { intros t j Ht Hj' Hc. unfold read_pte, m', ram_read, ram_write. rewrite lookup_insert_ne; [done|].
    assert (t <> frame_of pa) by (destruct Hc as [?|[r ?]]; [lia|congruence]).
    pose proof (Z.div_mod t 4096 ltac:(lia)). pose proof (Z.div_mod (frame_of pa) 4096 ltac:(lia)). lia. }
  destruct (tables_kept (st_ram st) m' lv _ (next_free (st_phys st)) (pi_tree _ _ Hinv)) as [Htree Htv].
  { intros t r i Ht Hi. destruct (tw_table _ _ _ _ (pi_tree _ _ Hinv) t r Ht) as (_ & ? & _). apply Hwords; [done|done|right; by eexists]. }
  set (st' := mkPt (st_tree st) (with_ram (st_phys st) m')).
  assert (Hmap : forall a, translate_va st' a = translate_va st a).
  { intros a. unfold translate_va. cbn [st' st_tree]. destruct (pt_has_root _); [|done]. apply Htv. }
  exists st'. split; [done|]. split.
  - constructor; [|done|by exists m'|done|done].
    constructor; [destruct (pi_phys _ _ Hinv); by constructor|exact Htree|apply Hinv].
  - intros a Ha. specialize (Hz a Ha). unfold ubyte in *. rewrite Hmap.
    destruct (translate_va st a) as [b|]; [|done]. cbn [fmap option_fmap option_map] in *. injection Hz as Hz.
    f_equal. change (st_ram st') with m'. unfold m'. rewrite set_word_byte, Hz by done. by case_match.
Qed.

Lemma stack_shape : u64w (align16_down (u64w (STACK_OFFSET + STACK_SIZE)) - 16) = stack_top - 16 /\
  align16_down (u64w (STACK_OFFSET + STACK_SIZE)) = stack_top.
Proof. done. Qed.

(** The object of the stack, mapped and touched. *)
Lemma map_stack_ok v p' (s s1 : Space) lv k cost :
  pt_inv (sp_pt s) lv -> user_space (sp_vmar s1) k -> (k < 32)%nat ->
  fresh_object (sp_phys s) v p' 4 cost (fun _ => 0) -> sp_pt s1 = mkPt (st_tree (sp_pt s)) p' -> room p' 12 ->
  exists st2 vm lv', map_stack v STACK_OFFSET s1 = Some (Ok tt, sp_set_pt (sp_set_vmar s1 vm) st2) /\
    progress (sp_pt s) st2 lv lv' (cost + 12) /\
    (forall va, 0 <= va < 2 ^ 48 -> ~ in_stack va -> translate_va st2 va = translate_va (sp_pt s) va) /\
    (forall a, in_stack a -> ubyte st2 a = Some 0 /\ exists pa, translate_va st2 a = Some pa /\ frame_of pa ∈ owned_pages v) /\
    own_range st2 lv' STACK_OFFSET STACK_SIZE (next_free (sp_phys s)) /\ frames_ok (st_phys st2) (owned_pages v).
Proof.
  intros Hinv Hus Hk Hf Hs1 Hr. unfold in_stack, stack_top.
  destruct (reserve_ok (sp_vmar s1) k (vo_id v) STACK_OFFSET STACK_SIZE (Z.lor (Z.lor VMAR_READ VMAR_WRITE) VMAR_USER) Hus Hk)
    as (vm & Hres & Hus'); [done..|].
  destruct (place_object v p' 4 cost (fun _ => 0) STACK_OFFSET stack_map_flags s (sp_set_vmar s1 vm) lv)
    as (st2 & lv' & Hmap & Hp & Hoth & Hall & Hown & Hfo); try done.
  destruct (touch_ok (stack_top - 16) (sp_set_pt (sp_set_vmar s1 vm) st2) lv' STACK_OFFSET STACK_SIZE (next_free (sp_phys s)))
    as (st3 & Ht & Hst & Hz); try done; [apply Hp| |].
  { intros a Ha. apply (shows_ubyte _ lv'), (Hall a Ha). }
  cbn [sp_set_pt sp_pt] in Hst. exists st3, vm, lv'. split; [|split; [|split; [|split; [|split]]]].
  - unfold map_stack. rewrite (bind_ok _ _ s1 (sp_set_vmar s1 vm) tt) by (unfold reserve; by rewrite Hres).
    change (Z.to_nat (STACK_SIZE / 4096)) with (Z.to_nat 4). rewrite (bind_ok _ _ _ _ _ Hmap).
    destruct stack_shape as [-> _]. exact Ht.
  - by apply (range_step_progress _ st2).
  - intros va Hva Hout. rewrite (rs_map _ _ _ _ Hst). apply Hoth; [done|]. unfold STACK_SIZE in Hout. lia.
  - intros a Ha. split; [by apply Hz|]. destruct (Hall a Ha) as (_ & pa & Hpa & Hin & _).
    exists pa. by rewrite (rs_map _ _ _ _ Hst).
  - by apply (own_range_step _ st2).
  - destruct (rs_phys _ _ _ _ Hst) as [m' ->]. by apply (frames_kept (st_phys st2)).
Qed.

(** ** The thread starts *)
Lemma own_range_progress st st' lv lv' k va len lo :
  progress st st' lv lv' k -> (forall a, translate_va st' a = translate_va st a) ->
  own_range st lv va len lo -> own_range st' lv' va len lo.
Proof.
  intros Hp Ht [Hm Ho Hi]. pose proof (gr_next _ _ _ _ _ (pg_grown _ _ _ _ _ Hp)). constructor.
  - intros a Ha. destruct (Hm a Ha) as (pa & Hpa & Hr & Hn). exists pa. rewrite Ht. split; [done|]. split; [lia|].
    destruct (frame_aligned pa) as [Hfa _]. apply (gr_new _ _ _ _ _ (pg_grown _ _ _ _ _ Hp)); [done|lia].
  - intros a pa Ha. rewrite Ht. by apply Ho.
  - intros a b pa Ha Hb. rewrite !Ht. by apply Hi.
Qed.

Lemma frames_progress st st' lv lv' k l : progress st st' lv lv' k -> frames_ok (st_phys st) l -> frames_ok (st_phys st') l.
Proof.
  intros [_ _ Hg] Hf. apply (frames_kept (st_phys st)); [done|apply (gr_next _ _ _ _ _ Hg)|].
  intros pa Hpa. by apply (gr_tags _ _ _ _ _ Hg).
Qed.

(** What the scheduler is given. *)
Record started (t : Thread Obj Pk) (tree : PageTableTree) (tid pid asid entry ht_raw : Z) (argc : nat) (argv sp0 : Z) : Prop := {
  sa_id : t_id t = tid;
  sa_process : t_process_id t = pid;
  sa_state : t_state t = Ready;
  sa_priority : t_priority t = Normal;
  sa_entry : elr (t_context t) = entry;
  sa_spsr : spsr (t_context t) = 0;
  sa_regs : x (t_context t) = <[1%nat := argv]> (<[0%nat := Z.of_nat argc]> (replicate 19 0));
  sa_sp : user_sp (t_context t) = sp0;
  sa_ttbr : l0_user_pa (t_context t) = pack_ttbr (pt_l0_pa tree) asid;
  sa_gen : page_table_gen (t_context t) = pt_generation tree;
  sa_handles : t_handle_table t = handles_kva ht_raw;
  sa_fresh : fresh_thread t
}.

Definition args_at (argc : nat) (lens : list Z) : Z := arg_va lens (argv_base argc lens stack_top) argc.
Definition start_argv (argc : nat) (lens : list Z) : Z := if (0 <? argc)%nat then args_at argc lens else 0.
Definition start_sp (argc : nat) (lens : list Z) : Z :=
  if (0 <? argc)%nat then pad (args_at argc lens + 8 * Z.of_nat argc) else stack_top.

Section start.
Context (user_eret_stub : Z) (name : string) (entry pid asid ht_raw : Z).
Context (argc : nat) (strs : list (list Z)) (lens : list Z).

Definition argv_ready (st : PtState) : Prop :=
  (0 < argc)%nat -> argv_put st argc strs lens (argv_base argc lens stack_top) (start_argv argc lens) (start_sp argc lens).

Lemma schedule_ok_at (s : Space) ls idx t :
  sched_ok (sp_sched s) ls -> find_empty_slot (sp_sched s) = Some idx -> fresh_thread t ->
  exists sc, schedule_thread t s = Some (Ok tt, sp_set_sched s sc) /\ add (sp_sched s) t = Some sc.
Proof.
  intros Hok Hi Hf. pose proof (add_ok _ _ t Hok Hf) as Ha. rewrite Hi in Ha. destruct Ha as [Ha _].
  eexists. unfold schedule_thread. by rewrite Ha.
Qed.

Lemma start_thread_ok st0 lv0 k ls idx (s : Space) lv :
  progress st0 (sp_pt s) lv0 lv k -> own_range (sp_pt s) lv STACK_OFFSET STACK_SIZE (next_free (st_phys st0)) ->
  room (sp_phys s) 4 -> args_ok argc strs lens ->
  sched_ok (sp_sched s) ls -> find_empty_slot (sp_sched s) = Some idx ->
  exists st' t sc,
    start_thread user_eret_stub name entry stack_top pid asid ht_raw argc strs lens s =
      Some (Ok tt, mkSpace st' (sp_vmar s) (sp_vmo_id s) (u64w (sp_tid s + 1)) sc (sp_ttbr0 s) (sp_daif s)) /\
    progress st0 st' lv0 lv (k + 4) /\ st_tree st' = st_tree (sp_pt s) /\
    (forall va, translate_va st' va = translate_va (sp_pt s) va) /\
    (forall l, frames_ok (sp_phys s) l -> frames_ok (st_phys st') l) /\
    add (sp_sched s) t = Some sc /\
    started t (st_tree st') (sp_tid s) pid asid entry ht_raw argc (start_argv argc lens) (start_sp argc lens) /\
    argv_ready st'.
Proof.
  intros Hp Hown Hr Ha Hok Hidx. unfold sp_phys in Hr.
  destruct (make_thread_ok user_eret_stub name entry stack_top s) as (t & p1 & Hmk & Hf & Hid & Hpr & Hfr & Hen & Hx & Hsp & Hel);
    [apply (pi_phys _ _ (pg_inv _ _ _ _ _ Hp))|done|].
  destruct (fresh_progress (sp_pt s) lv p1 4 (pg_inv _ _ _ _ _ Hp) Hf ltac:(lia)) as [Hp1 Ht1].
  set (s1 := sp_set_tid _ _) in *. change (mkPt (st_tree (sp_pt s)) p1) with (sp_pt s1) in *.
  pose proof (own_range_progress _ _ _ _ _ _ _ _ Hp1 Ht1 Hown) as Hown1.
  pose proof (progress_trans _ _ _ _ _ _ _ _ Hp Hp1) as Hp01.
  unfold start_thread. rewrite (bind_ok _ _ _ _ _ Hmk), (bind_ok _ _ s1 s1 (st_tree (sp_pt s1))) by done. cbn zeta.
  unfold argv_ready, start_argv, start_sp. destruct (Nat.ltb_spec 0 argc) as [Hpos|Hzero].
  - destruct (put_argv_ok argc strs lens stack_top s1 lv STACK_OFFSET STACK_SIZE (next_free (st_phys st0)))
      as (st2 & Hput & Hst & Hav & _); try done; [apply Hp1|].
    rewrite (bind_ok _ _ _ _ _ Hput). cbn [fst snd]. fold (args_at argc lens) in *.
    set (t' := with_context _ _ _ _ _).
    destruct (schedule_ok_at (sp_set_pt s1 st2) ls idx t' Hok Hidx) as (sc & Hsc & Hadd); [done|].
    exists st2, t', sc. split; [exact Hsc|]. split; [by apply (range_step_progress _ (sp_pt s1))|].
    split; [apply Hst|]. split; [intros va; by rewrite (rs_map _ _ _ _ Hst), Ht1|].
    split; [|split; [done|split; [|done]]].
    + intros l Hl. destruct (rs_phys _ _ _ _ Hst) as [m' ->]. apply (frames_kept p1); [|done|done].
      by apply (frames_progress _ _ _ _ _ _ Hp1).
    + rewrite (rs_tree _ _ _ _ Hst). by constructor; cbn [t' with_context t_context start_context x]; rewrite ?Hx.
  - set (t' := with_context _ _ _ _ _).
    destruct (schedule_ok_at s1 ls idx t' Hok Hidx) as (sc & Hsc & Hadd); [done|].
    exists (sp_pt s1), t', sc. split; [exact Hsc|]. split; [done|]. split; [done|]. split; [done|].
    split; [intros l; apply (frames_progress _ _ _ _ _ _ Hp1)|]. split; [done|]. split; [|lia].
    assert (argc = 0)%nat as -> by lia. by constructor; cbn [t' with_context t_context start_context x user_sp]; rewrite ?Hx.
Qed.
End start.

(** ** The whole launch *)
Definition stack_cost : Z := object_cost 4 + 16.
Definition launch_cost (segs : list (OHLK_Entry * list Z)) : Z := set_up_cost + segments_cost segs + stack_cost.

Definition start_entry (parser : OHLK_Parser) (segs : list (OHLK_Entry * list Z)) : Z :=
  let entry := h_entry_point (p_header parser) in default (u64w (0 + entry)) (entry_found entry (map fst segs) None).

(** A program that can be started: its segments fit, its arguments are short
    enough, the scheduler has a place for it. *)
Record startable (parser : OHLK_Parser) (segs : list (OHLK_Entry * list Z)) (argc : nat) (strs : list (list Z))
    (lens : list Z) (sc : Scheduler Obj Pk) (ls : list (list nat)) (idx : nat) : Prop := {
  sb_loaded : loaded parser (Z.to_nat (h_header_count (p_header parser))) 0 = map fst segs;
  sb_fits : Forall (fun sd => segment_fits parser sd.1 sd.2) segs;
  sb_count : (length segs < 32)%nat;
  sb_args : args_ok argc strs lens;
  sb_sched : sched_ok sc ls;
  sb_slot : find_empty_slot sc = Some idx
}.

Record launched (parser : OHLK_Parser) (segs : list (OHLK_Entry * list Z)) (pid asid ht_raw : Z) (argc : nat)
    (strs : list (list Z)) (lens : list Z) (lvp : Levels) (s s' : Space) : Prop := {
  ld_inv : exists lv, pt_inv (sp_pt s') lv /\
    forall a e d, 0 <= a < 2 ^ 48 -> ~ in_stack a -> segment_at segs a = Some (e, d) -> shows (sp_pt s') lv a (segment_byte e d a);
  ld_next : next_free (sp_phys s) <= next_free (sp_phys s') <= next_free (sp_phys s) + 4096 * launch_cost segs;
  ld_end : end_free (sp_phys s') = end_free (sp_phys s);
  ld_tags : forall pa, RAM_BASE <= pa < next_free (sp_phys s) ->
    default 0 (tags (sp_phys s') !! pa_to_pfn pa) = default 0 (tags (sp_phys s) !! pa_to_pfn pa);
  ld_frames : forall pa, pa < next_free (sp_phys s) -> lvp !! frame_of pa = None ->
    byte_at (sp_ram s') pa = byte_at (sp_ram s) pa;
  ld_args : argv_ready argc strs lens (sp_pt s');
  ld_segments_loose : forall a e d, 0 <= a < 2 ^ 48 -> ~ in_stack a -> segment_at segs a = Some (e, d) -> loose (sp_pt s') a;
  ld_stack_loose : forall a, in_stack a -> loose (sp_pt s') a;
  ld_thread : exists t, add (sp_sched s) t = Some (sp_sched s') /\
    started t (st_tree (sp_pt s')) (sp_tid s) pid asid (start_entry parser segs) ht_raw argc (start_argv argc lens) (start_sp argc lens);
  ld_tid : sp_tid s' = u64w (sp_tid s + 1);
  ld_daif : sp_daif s' = sp_daif s;
  ld_ttbr0 : let active := active_page_table (sp_ttbr0 s) in
    sp_ttbr0 s' = if active =? 0 then pack_ttbr (sp_l0 s') asid else active;
  ld_tree : let active := active_page_table (sp_ttbr0 s) in active <> 0 ->
    new_tree (sp_ram s) active (next_free (sp_phys s)) (sp_pt s');
  ld_words : active_page_table (sp_ttbr0 s) <> 0 ->
    forall t j, t mod 4096 = 0 -> 0 <= j < 512 -> t < next_free (sp_phys s) -> read_pte (sp_ram s') t j = read_pte (sp_ram s) t j
}.

(** No segment reaches the upper half. *)
Lemma segment_at_low parser segs a :
  Forall (fun sd => segment_fits parser sd.1 sd.2) segs -> USER_SIZE <= a -> segment_at segs a = None.
Proof.
  intros Hs Ha. induction Hs as [|[e d] segs Hf _ IH]; [done|]. cbn [segment_at]. rewrite IH.
  destruct (segment_shape parser e d Hf) as (_ & _ & _ & _ & _ & _ & _ & He & _). case_match eqn:E; [reflect; cbn [fst] in *; lia|done].
Qed.

Lemma high_address a : 0 <= a < 2 ^ 48 -> 256 <= index 3 a -> 2 ^ 47 <= a.
Proof.
  intros Ha. rewrite index_div. change (span 3) with (2 ^ 39). intros Hi.
  assert (Hd : a / 2 ^ 39 < 512) by (apply Z.div_lt_upper_bound; lia).
  rewrite Z.mod_small in Hi by (split; [apply Z.div_pos; lia|done]).
  pose proof (Z.mul_div_le a (2 ^ 39) ltac:(lia)). lia.
Qed.

Lemma argv_ready_ext argc strs lens st st' :
  (forall a, ubyte st' a = ubyte st a) -> argv_ready argc strs lens st -> argv_ready argc strs lens st'.
Proof.
  intros He Hr Hpos. destruct (Hr Hpos) as [Hs Hp Ha Hsp]. constructor; [|intros i k; rewrite He; apply Hp|done|done].
  intros i Hi l str Hl Hst. destruct (Hs i Hi l str Hl Hst) as [Hb Hz].
  split; [intros k Hk; rewrite He; by apply Hb|intros Hm; rewrite He; by apply Hz].
Qed.

Section whole.
Context (user_eret_stub : Z) (parser : OHLK_Parser) (name : string) (pid asid ht_raw : Z).
Context (argc : nat) (strs : list (list Z)) (lens : list Z).

(** From the stack on: [s] is the state once the segments are mapped. *)
Record stack_done (entry active daif : Z) (s s' : Space) (lv lv' : Levels) : Prop := {
  kd_progress : progress (sp_pt s) (sp_pt s') lv lv' stack_cost;
  kd_others : forall va, 0 <= va < 2 ^ 48 -> ~ in_stack va -> translate_va (sp_pt s') va = translate_va (sp_pt s) va;
  kd_args : argv_ready argc strs lens (sp_pt s');
  kd_loose : forall a, in_stack a -> loose (sp_pt s') a;
  kd_thread : exists t, add (sp_sched s) t = Some (sp_sched s') /\
    started t (st_tree (sp_pt s')) (sp_tid s) pid asid entry ht_raw argc (start_argv argc lens) (start_sp argc lens);
  kd_tid : sp_tid s' = u64w (sp_tid s + 1);
  kd_daif : sp_daif s' = daif;
  kd_ttbr0 : sp_ttbr0 s' = if active =? 0 then pack_ttbr (sp_l0 s') asid else active
}.

Definition stack_part (entry active daif : Z) : SP (Obj:=Obj) (Pk:=Pk) unit :=
  v ← new_vmo STACK_SIZE;
  scoped v
    (map_stack v STACK_OFFSET;;
     start_thread user_eret_stub name entry stack_top pid asid ht_raw argc strs lens;;
     restore_cpu active asid daif).

Lemma stack_part_ok entry active daif ls idx (s : Space) lv k :
  pt_inv (sp_pt s) lv -> user_space (sp_vmar s) k -> (k < 32)%nat -> room (sp_phys s) stack_cost ->
  args_ok argc strs lens -> sched_ok (sp_sched s) ls -> find_empty_slot (sp_sched s) = Some idx ->
  exists s' lv', stack_part entry active daif s = Some (Ok tt, s') /\ stack_done entry active daif s s' lv lv'.
Proof.
  intros Hinv Hus Hk Hr Ha Hok Hidx. unfold stack_cost, room in Hr.
  assert (0 <= object_cost 4) by (unfold object_cost; lia).
  destruct (new_vmo_ok 4 s lv Hinv) as (v & p1 & Hnew & Hf); [unfold VMO_MAX_PAGES; lia|unfold room; lia|].
  set (s1 := sp_set_phys _ p1) in *.
  pose proof (fr_next _ _ _ _ _ _ Hf) as Hn1. pose proof (fr_end _ _ _ _ _ _ Hf) as He1.
  destruct (map_stack_ok v p1 s s1 lv k (object_cost 4) Hinv Hus Hk Hf) as (st2 & vm & lv2 & Hms & Hp2 & Ho2 & Hz2 & Hown2 & Hfo2);
    [done|unfold room; lia|].
  set (s2 := sp_set_pt _ st2) in *. pose proof (pg_grown _ _ _ _ _ Hp2) as [N2 E2 _ _ _ _].
  destruct (start_thread_ok user_eret_stub name entry pid asid ht_raw argc strs lens (sp_pt s) lv (object_cost 4 + 12) ls idx s2 lv2)
    as (st3 & t & sc & Hst & Hp3 & Htr3 & Ht3 & Hfr3 & Hadd & Hstd & Hav); try done.
  { unfold room, sp_phys in *. cbn [s2 sp_set_pt sp_pt]. lia. }
  set (s3 := mkSpace st3 _ _ _ _ _ _) in *.
  set (s4 := sp_set_cpu s3 (if active =? 0 then pack_ttbr (sp_l0 s3) asid else active) daif).
  destruct (scoped_ok v (map_stack v STACK_OFFSET;;
     start_thread user_eret_stub name entry stack_top pid asid ht_raw argc strs lens;; restore_cpu active asid daif) s1 s4 tt lv2)
    as (p5 & Hsc & Hw5 & Hn5 & He5 & Hr5 & Hz5 & Hk5).
  { rewrite (bind_ok _ _ _ _ _ Hms), (bind_ok _ _ _ _ _ Hst). done. }
  { apply Hp3. }
  { by apply Hfr3. }
  destruct (dropped_progress (sp_pt s) st3 lv lv2 (object_cost 4 + 12 + 4) (owned_pages v) p5) as (Hp5 & Ht5 & _); try done.
  { unfold sp_phys in *. lia. }
  { by apply Hfr3. }
  { apply (fr_new _ _ _ _ _ _ Hf). }
  exists (sp_set_phys s4 p5), lv2. split.
  { unfold stack_part. change STACK_SIZE with (4096 * 4) at 1. by rewrite (bind_ok _ _ _ _ _ Hnew). }
  constructor; cbn [sp_set_phys sp_set_pt s4 s3 sp_set_cpu sp_pt sp_tid sp_daif sp_ttbr0 sp_sched]; try done.
  - intros va Hva Hout. rewrite Ht5, Ht3. by apply Ho2.
  - apply (argv_ready_ext _ _ _ st3); [|done]. intros a. unfold ubyte. rewrite Ht5. unfold st_ram at 1. cbn [st_phys]. by rewrite Hr5.
  - intros a Hin. destruct (Hz2 a Hin) as (_ & pa & Hpa & Hown). exists pa. rewrite Ht5, Ht3. split; [done|].
    destruct (fo_frame _ _ (Hfr3 _ Hfo2) _ Hown) as (? & ? & _). cbn [st_phys]. rewrite Hn5. split; [|by apply Hz5].
    unfold sp_phys. cbn [s4 s3 sp_set_cpu sp_pt]. lia.
  - by exists t.
Qed.

Lemma byte_kept st st' lv lv' k pa :
  grown st st' lv lv' k -> pa < next_free (st_phys st) -> lv !! frame_of pa = None ->
  byte_at (st_ram st') pa = byte_at (st_ram st) pa.
Proof.
  intros [N E T L W D] Hpa Hf. destruct (frame_aligned pa) as [Ha Hr]. pose proof (Z.mod_pos_bound pa 4096 ltac:(lia)).
  apply byte_word, D; [done| |lia|done]. split; [apply Z.div_pos; lia|apply Z.div_lt_upper_bound; lia].
Qed.

Lemma launch_in_ok segs ls idx lvp (s : Space) :
  phys_wf (sp_phys s) -> pt_has_root (st_tree (sp_pt s)) = false -> user_space (sp_vmar s) 0 ->
  (let active := active_page_table (sp_ttbr0 s) in active = 0 \/ parent_tree (sp_ram s) lvp active (next_free (sp_phys s))) ->
  room (sp_phys s) (launch_cost segs) -> startable parser segs argc strs lens (sp_sched s) ls idx ->
  exists s', launch_in user_eret_stub parser name pid asid ht_raw argc strs lens s = Some (Ok tt, s') /\
    launched parser segs pid asid ht_raw argc strs lens lvp s s'.
Proof.
  intros Hw Hroot Hus Hpar Hr [Hl Hfit Hcnt Ha Hok Hidx]. cbn zeta in Hpar.
  set (active := active_page_table (sp_ttbr0 s)) in *.
  pose proof (segments_cost_pos _ _ Hfit) as Hsc. unfold launch_cost, set_up_cost, room in Hr.
  assert (Hst0 : 0 <= stack_cost) by (unfold stack_cost, object_cost; lia).
  destruct (set_up_tables_ok active lvp s Hw Hroot Hpar) as (st1 & lv1 & Hset & Hi1 & Hg1 & Hnew1 & Hkern1); [unfold room, set_up_cost; lia|].
  pose proof (gr_next _ _ _ _ _ Hg1) as Hn1. pose proof (gr_end _ _ _ _ _ Hg1) as He1. unfold set_up_cost in Hn1.
  set (s1 := sp_set_pt s st1) in *. set (s2 := sp_set_cpu s1 (sp_ttbr0 s1) (Z.lor (sp_daif s1) 0x3c0)).
  destruct (map_segments_ok parser (Z.to_nat (h_header_count (p_header parser))) 0 None segs s2 lv1 0)
    as (st3 & lv3 & vm & id & Hsegs & Hus3 & Hp3 & Hall); try done; [lia|unfold room, sp_phys in *; cbn [s2 s1 sp_set_pt sp_set_cpu sp_pt]; lia|].
  cbn [s2 s1 sp_set_pt sp_set_cpu sp_pt sp_tid sp_sched sp_ttbr0 sp_daif] in Hsegs, Hp3, Hall.
  set (s3 := mkSpace st3 vm id _ _ _ _) in *.
  pose proof (pg_grown _ _ _ _ _ Hp3) as Hg3. pose proof (gr_next _ _ _ _ _ Hg3) as Hn3. pose proof (gr_end _ _ _ _ _ Hg3) as He3.
  destruct (stack_part_ok (start_entry parser segs) active (sp_daif s) ls idx s3 lv3 (0 + length segs)) as (s' & lv' & Hrun & [Hp4 Ho4 Hav Hlo Hth Htid Hda Htt]);
    try done; [apply Hp3|unfold room, sp_phys in *; cbn [s3 sp_pt]; lia|].
  exists s'. split.
  { unfold launch_in. rewrite (bind_ok _ _ s s active) by done. rewrite (bind_ok _ _ s s1 tt) by done.
    rewrite (bind_ok _ _ s1 s2 (sp_daif s)) by done. rewrite (bind_ok _ _ s2 s2 0) by (unfold sp_get; do 3 f_equal; apply (us_base _ _ Hus)).
    rewrite (bind_ok _ _ _ _ _ Hsegs). exact Hrun. }
  pose proof (pg_grown _ _ _ _ _ Hp4) as Hg4. pose proof (gr_next _ _ _ _ _ Hg4) as Hn4. pose proof (gr_end _ _ _ _ _ Hg4) as He4.
  cbn [s3 sp_pt] in *. unfold sp_phys in *.
  assert (Hseg : forall a e d, 0 <= a < 2 ^ 48 -> ~ in_stack a -> segment_at segs a = Some (e, d) ->
    shows (sp_pt s') lv' a (segment_byte e d a) /\ loose (sp_pt s') a).
  { intros a e d Hb Hout Hat. specialize (Hall a Hb). rewrite Hat in Hall. destruct Hall as [Hsh Hlos]. split.
    - eapply shows_kept; [exact Hp4|by apply Ho4|done].
    - eapply loose_kept; [exact Hp4|by apply Ho4|done]. }
  constructor; unfold sp_phys; try done.
  - exists lv'. split; [apply Hp4|]. intros a e d H1 H2 H3. by apply Hseg.
  - unfold launch_cost, set_up_cost. lia.
  - congruence.
  - intros pa Hpa. rewrite (gr_tags _ _ _ _ _ Hg4), (gr_tags _ _ _ _ _ Hg3) by lia. by apply (gr_tags _ _ _ _ _ Hg1).
  - intros pa Hpa Hnone. destruct (frame_aligned pa) as [Hfa Hfr].
    assert (Hlv1 : lv1 !! frame_of pa = None) by (apply Hnew1; [unfold sp_phys; lia|done]).
    assert (Hlv3 : lv3 !! frame_of pa = None) by (apply (gr_new _ _ _ _ _ Hg3); [done|lia]).
    etransitivity; [eapply (byte_kept _ _ _ _ _ _ Hg4); [lia|done]|].
    etransitivity; [eapply (byte_kept _ _ _ _ _ _ Hg3); [lia|done]|].
    eapply (byte_kept _ _ _ _ _ _ Hg1); [lia|apply lookup_empty].
  - intros a e d H1 H2 H3. by eapply Hseg.
  - fold active. intros Hact. pose proof (progress_trans _ _ _ _ _ _ _ _ Hp3 Hp4) as Hp.
    apply (new_tree_later _ _ _ st1 _ lv1 lv' Hi1 (pg_inv _ _ _ _ _ Hp) (pg_spread _ _ _ _ _ Hp)); [lia|by apply Hkern1|apply Hp|].
    intros a H256. assert (Hlow : forall st, translate_va st (a mod 2 ^ 48) = translate_va st a).
    { intros st. unfold translate_va. destruct (pt_has_root (st_tree st)); [apply translate_low|done]. }
    rewrite <- !(Hlow _). rewrite <- (index_low 3) in H256 by lia. pose proof (Z.mod_pos_bound a (2 ^ 48) ltac:(lia)) as Hr1.
    pose proof (high_address _ Hr1 H256) as Hh. set (b := a mod 2 ^ 48) in *.
    rewrite Ho4; [|done|unfold in_stack; change stack_top with 33570816; lia].
    specialize (Hall b Hr1). rewrite (segment_at_low parser) in Hall; [exact Hall|done|unfold USER_SIZE; lia].
  - fold active. intros Hact t j Ht Hj Hlt. pose proof (progress_trans _ _ _ _ _ _ _ _ Hp3 Hp4) as Hp.
    etransitivity; [|apply (gr_data _ _ _ _ _ Hg1 t j Ht Hj Hlt), lookup_empty].
    apply (new_tree_words (sp_ram s) active (next_free (sp_phys s)) st1 _ lv1 lv' (pg_spread _ _ _ _ _ Hp) ltac:(unfold sp_phys in *; lia) (Hkern1 Hact)); [|done|done|exact Hlt].
    apply (gr_data _ _ _ _ _ (pg_grown _ _ _ _ _ Hp)).
Qed.
End whole.
End run.
