(* ===== verification/LaunchTop.v ===== *)
(** * LaunchTop: the claims about launching a program

    [launch_user_program_with_argv_id] as a whole: what a successful launch
    leaves in memory, in the process table and in the scheduler, what it
    leaves wrong, and what a failed one leaves behind. *)
From Stdlib Require Import ZArith Lia String.
From stdpp Require Import base tactics option list list_numbers gmap.
From S2P Require Import Prelude Shared Bytes Handles Pipe Phys Thread Sched Ohlk PageTable PtClone Vmar Mem Vmo UserCopy Asid Process Launch LaunchSpec LaunchArgs LaunchRun.
Local Open Scope Z_scope.

(** ** The process slot *)
Record fresh_process (name : Name) (k : Kern) (i : nat) (p : Process) (k' : Kern) : Prop := {
  fp_procs : kn_procs k' = <[i := Some p]> (kn_procs k);
  fp_ext : fresh_ext (kn_phys k) (kn_phys k') 2;
  fp_id : pr_id p = kn_next_pid k;
  fp_state : pr_state p = PInitial;
  fp_name : pr_name p = name;
  fp_names : kn_names k' = kn_names k;
  fp_asid : pr_asid p = default ASID_KERNEL (asid_alloc (kn_asids k)).1;
  fp_tree : pr_page_table p = tree_new;
  fp_vmar : user_space (pr_root_vmar p) 0
}.

Lemma allocate_fresh name k i :
  first_free (kn_procs k) = Some i -> phys_wf (kn_phys k) -> room (kn_phys k) 2 ->
  exists p k', allocate_process name k = Some (Ok i, k') /\ kn_procs k' !! i = Some (Some p) /\ fresh_process name k i p k'.
Proof.
  intros Hf Hw Hr. pose proof (first_free_Some _ _ Hf) as (_ & Hlt & _). unfold allocate_process. rewrite Hf.
  unfold init_in_place, vmar_create. change (unaligned 0 || (256 * 1024 * 1024 =? 0)) with false. cbv iota.
  cbn [kn_phys put_proc set_procs].
  destruct (alloc_with_room TVmarMeta (kn_phys k) _ Hw Hr ltac:(lia)) as [Ha1 Hf1].
  destruct (alloc_with_room TKernelHeap (alloc_next TVmarMeta (kn_phys k)) 1 (fe_phys _ _ _ Hf1)) as [Ha2 Hf2]; [|lia|].
  { unfold room in *. rewrite (fe_next _ _ _ Hf1), (fe_end _ _ _ Hf1). lia. }
  unfold alloc_vmar_meta, alloc_kheap_page. rewrite Ha1, Ha2. cbn [kn_asids put_proc set_procs].
  destruct (asid_alloc (kn_asids k)) as [asid as'] eqn:Has.
  eexists _, _. split; [done|]. split; [cbn; by rewrite list_lookup_insert_eq by (by rewrite length_insert)|].
  constructor; try done.
  - cbn. by rewrite list_insert_insert_eq.
  - change 2 with (1 + 1). by eapply fresh_ext_trans.
  - cbn. by rewrite Has.
Qed.

Lemma parent_tree_fresh m p p' k lvp active :
  phys_wf p -> fresh_ext p p' k -> 0 <= k -> m = ram p ->
  parent_tree m lvp active (next_free p) -> parent_tree (ram p') lvp active (next_free p').
Proof.
  intros Hw Hf Hk -> [Ht H0]. pose proof (fe_next _ _ _ Hf) as Hn.
  assert (Hrd : forall t r j, lvp !! t = Some r -> 0 <= j < 512 -> read_pte (ram p') t j = read_pte (ram p) t j).
  { intros t r j Hl Hj. unfold read_pte. apply (fe_words _ _ _ Hf).
    destruct (tw_table _ _ _ _ Ht t r Hl) as (_ & Ha & _ & Hlt). destruct (wf_align _ Hw) as [Hal _].
    pose proof (Z.div_mod t 4096). pose proof (Z.div_mod (next_free p) 4096). lia. }
  destruct (tables_kept _ _ lvp active (next_free p) Ht Hrd) as [Ht' _]. constructor.
  - apply (tree_wf_mono _ _ _ (next_free p)); [lia|done].
  - rewrite (Hrd active 3%nat); [done|apply (tw_root _ _ _ _ Ht)|lia].
Qed.

Section top.
Context {Obj Pk : Type}.
Abbreviation World := (Launch.World Obj Pk).
Context (user_eret_stub : Z) (ht_address : nat -> Z).

Definition launch := launch_user_program_with_argv_id (Obj:=Obj) (Pk:=Pk) user_eret_stub ht_address.

(** The tables of a process, with the memory they are in. *)
Definition space_of (w : World) (p : Process) : PtState := mkPt (pr_page_table p) (kn_phys (w_kern w)).

(** A file that can be started from a state of the kernel: slot [i] is free,
    there is memory, slot [idx] of the scheduler is free. *)
Record launchable (w : World) (parser : OHLK_Parser) (segs : list (OHLK_Entry * list Z))
    (strs : list (list Z)) (lens : list Z) (argc : nat) (ls : list (list nat)) (idx i : nat) (lvp : Levels) : Prop := {
  lb_free : first_free (kn_procs (w_kern w)) = Some i;
  lb_phys : phys_wf (kn_phys (w_kern w));
  lb_room : room (kn_phys (w_kern w)) (2 + launch_cost segs);
  lb_parent : let active := active_page_table (w_ttbr0 w) in
    active = 0 \/ parent_tree (kern_ram (w_kern w)) lvp active (next_free (kn_phys (w_kern w)));
  lb_start : startable parser segs argc strs lens (w_sched w) ls idx
}.

(** The kernel after the launch of process [p], which has slot [i]. *)
Record world_after (w : World) (name : Name) (parser : OHLK_Parser) (segs : list (OHLK_Entry * list Z)) (strs : list (list Z)) (lens : list Z)
    (argc : nat) (parent_pid : Z) (i : nat) (lvp : Levels) (w' : World) (p : Process) (s s' : Space Obj Pk) : Prop := {
  wa_procs : kn_procs (w_kern w') = <[i := Some p]> (kn_procs (w_kern w));
  wa_id : pr_id p = kn_next_pid (w_kern w);
  wa_state : pr_state p = PInitial;
  wa_parent : pr_parent_pid p = parent_pid;
  wa_asid : pr_asid p = default ASID_KERNEL (asid_alloc (kn_asids (w_kern w))).1;
  wa_space : sp_pt s' = space_of w' p;
  wa_ext : fresh_ext (kn_phys (w_kern w)) (sp_phys s) 2;
  wa_launched : launched parser segs (pr_id p) (pr_asid p) (ht_address i) argc strs lens lvp s s';
  wa_before : sp_sched s = w_sched w /\ sp_tid s = w_tid w /\ sp_ttbr0 s = w_ttbr0 w /\ sp_daif s = w_daif w;
  wa_after : sp_sched s' = w_sched w' /\ sp_tid s' = w_tid w' /\ sp_ttbr0 s' = w_ttbr0 w' /\ sp_daif s' = w_daif w'
}.

Lemma launch_ok name binary parser segs strs lens argc parent_pid ls idx i lvp (w : World) :
  parser_new binary = Ok parser -> launchable w parser segs strs lens argc ls idx i lvp ->
  exists w' p s s', launch name binary strs lens argc parent_pid w = Some (Ok (kn_next_pid (w_kern w)), w') /\
    world_after w name parser segs strs lens argc parent_pid i lvp w' p s s'.
Proof.
  intros Hp [Hf Hw Hr Hpar Hst]. assert (Hcost : 0 <= launch_cost segs).
  { unfold launch_cost, stack_cost, object_cost, set_up_cost. pose proof (segments_cost_pos _ _ (sb_fits _ _ _ _ _ _ _ _ Hst)). lia. }
  unfold room in Hr. destruct (allocate_fresh name _ i Hf Hw ltac:(unfold room; lia)) as (p0 & k' & Hal & Hk' & [Hps Hx Hid Hs0 Hnm Hns Has Htr Hvm]).
  set (p := with_parent parent_pid p0). set (s := borrow w k' p).
  pose proof (fe_next _ _ _ Hx). pose proof (fe_end _ _ _ Hx).
  destruct (launch_in_ok user_eret_stub parser (string_of_bytes (name_bytes k' name)) (pr_id p) (pr_asid p) (ht_address i) argc strs lens
    segs ls idx lvp s) as (s' & Hrun & Hld); try done.
  { apply Hx. }
  { cbn [s borrow sp_pt st_tree p with_parent pr_page_table]. by rewrite Htr. }
  { cbn zeta in *. cbn [s borrow sp_ttbr0]. destruct Hpar as [?|Hpar]; [by left|right].
    by eapply parent_tree_fresh; [apply Hw|exact Hx| |done|exact Hpar]. }
  { unfold room, sp_phys. cbn [s borrow sp_pt st_phys]. lia. }
  exists (give_back k' i p s'), (with_space (sp_vmar s') (st_tree (sp_pt s')) p), s, s'. split.
  - unfold launch, launch_user_program_with_argv_id. rewrite Hp, Hal, Hk'. cbv zeta. fold p s.
    rewrite Hrun. cbn [fmap result_fmap]. do 3 f_equal. by rewrite <- Hid.
  - constructor; try done.
    + cbn. by rewrite Hps, list_insert_insert_eq.
    + unfold space_of, give_back, sp_phys. cbn. by destruct (sp_pt s').
Qed.

Lemma argv_base_pos argc strs lens : args_ok argc strs lens -> 0 <= argv_base argc lens stack_top.
Proof.
  intros Ha. pose proof (arg_va_mono _ _ _ 0 0 argc Ha ltac:(lia)) as Hm. rewrite arg_va_0, Nat.sub_0_r in Hm.
  pose proof (ao_count _ _ _ Ha) as Hc. unfold MAX_ARGS in Hc. unfold argv_base. change stack_top with 33570816.
  apply Z.mul_nonneg_nonneg; [lia|]. apply Z.div_pos; lia.
Qed.

Section claims.
Context (name : Name) (binary : list Z) (parser : OHLK_Parser) (segs : list (OHLK_Entry * list Z)).
Context (strs : list (list Z)) (lens : list Z) (argc : nat) (parent_pid : Z).
Context (ls : list (list nat)) (idx i : nat) (lvp : Levels) (w : World).

(** What a launched program finds in its memory. *)
Definition string_at (j : nat) : Z := arg_va lens (argv_base argc lens stack_top) j.

Lemma after_argv w' p s s' :
  world_after w name parser segs strs lens argc parent_pid i lvp w' p s s' -> (0 < argc)%nat ->
  argv_put (space_of w' p) argc strs lens (argv_base argc lens stack_top) (start_argv argc lens) (start_sp argc lens).
Proof. intros [_ _ _ _ _ Hs _ Hld _ _] Hpos. rewrite <- Hs. exact (ld_args _ _ _ _ _ _ _ _ _ _ _ Hld Hpos). Qed.

Lemma start_argv_pos : (0 < argc)%nat -> start_argv argc lens = string_at argc.
Proof. intros Hpos. unfold start_argv. destruct (Nat.ltb_spec 0 argc); [done|lia]. Qed.

(** C6. A launch with room for it succeeds and hands out the next process id:
    the process is in the first free slot, every address of a loaded segment
    outside the stack shows the file's byte, or zero, of the last segment
    there, the argument strings and the array of pointers to them are on the
    stack, and the scheduler has gained a ready thread at the entry point
    with [argc], [argv], the stack pointer and the tables of the process. *)
Theorem launch_loads_program :
  parser_new binary = Ok parser -> launchable w parser segs strs lens argc ls idx i lvp ->
  exists w' p t, let st := space_of w' p in
    launch name binary strs lens argc parent_pid w = Some (Ok (kn_next_pid (w_kern w)), w') /\
    kn_procs (w_kern w') = <[i := Some p]> (kn_procs (w_kern w)) /\
    pr_id p = kn_next_pid (w_kern w) /\ pr_parent_pid p = parent_pid /\
    (forall a e d, 0 <= a < 2 ^ 48 -> ~ in_stack a -> segment_at segs a = Some (e, d) ->
       ubyte st a = Some (segment_byte e d a)) /\
    (forall j l str k, (j < argc)%nat -> lens !! j = Some l -> strs !! j = Some str -> 0 <= k < l ->
       ubyte st (string_at j + k) = Some (nth (Z.to_nat k) str 0)) /\
    (forall j k, (j < argc)%nat -> 0 <= k < 8 ->
       ubyte st (start_argv argc lens + Z.of_nat j * 8 + k) = Some (nth (Z.to_nat k) (le 8 (string_at j)) 0)) /\
    add (w_sched w) t = Some (w_sched w') /\
    started t (pr_page_table p) (w_tid w) (pr_id p) (pr_asid p) (start_entry parser segs) (ht_address i) argc
      (start_argv argc lens) (start_sp argc lens).
Proof.
  intros Hp Hl. destruct (launch_ok name _ _ _ _ _ _ parent_pid _ _ _ _ _ Hp Hl) as (w' & p & s & s' & Hrun & Hw).
  pose proof (after_argv w' p s s' Hw) as Hav. destruct Hw as [Hps Hid _ Hpar _ Hsp _ Hld (Hb1 & Hb2 & _) (Ha1 & _)].
  destruct (ld_thread _ _ _ _ _ _ _ _ _ _ _ Hld) as (t & Hadd & Ht). exists w', p, t. cbn zeta.
  split; [done|]. split; [done|]. split; [done|]. split; [done|]. split; [|split; [|split; [|split]]].
  - intros a e d H1 H2 H3. destruct (ld_inv _ _ _ _ _ _ _ _ _ _ _ Hld) as (lv & _ & Hsh). rewrite <- Hsp.
    by apply (shows_ubyte _ lv), Hsh.
  - intros j l str k Hj H1 H2 Hk. destruct (Hav ltac:(lia)) as [Hs _ _ _]. by apply (Hs j Hj l str).
  - intros j k Hj Hk. destruct (Hav ltac:(lia)) as [_ Hq _ _]. by apply Hq.
  - by rewrite <- Hb1, <- Ha1.
  - rewrite <- Hb2. change (pr_page_table p) with (st_tree (space_of w' p)). by rewrite <- Hsp.
Qed.

(** C29. A launch leaves the rest of memory alone: the frames handed out
    before it keep their tags, and their bytes but for the tables of the
    running address space; it takes no more frames than the segments, the
    stack and their tables need. *)
Theorem launch_keeps_memory :
  parser_new binary = Ok parser -> launchable w parser segs strs lens argc ls idx i lvp ->
  exists w', let ph := kn_phys (w_kern w) in let ph' := kn_phys (w_kern w') in
    launch name binary strs lens argc parent_pid w = Some (Ok (kn_next_pid (w_kern w)), w') /\
    (forall pa, RAM_BASE <= pa < next_free ph -> default 0 (tags ph' !! pa_to_pfn pa) = default 0 (tags ph !! pa_to_pfn pa)) /\
    (forall pa, pa < next_free ph -> lvp !! frame_of pa = None -> byte_at (ram ph') pa = byte_at (ram ph) pa) /\
    next_free ph <= next_free ph' <= next_free ph + 4096 * (2 + launch_cost segs) /\ end_free ph' = end_free ph.
Proof.
  intros Hp Hl. destruct (launch_ok name _ _ _ _ _ _ parent_pid _ _ _ _ _ Hp Hl) as (w' & p & s & s' & Hrun & [_ _ _ _ _ Hsp Hx Hld _ _]).
  exists w'. cbn zeta. split; [done|]. pose proof (fe_next _ _ _ Hx) as Hn. pose proof (fe_end _ _ _ Hx) as He.
  assert (Hph : kn_phys (w_kern w') = sp_phys s') by (unfold sp_phys; by rewrite Hsp). rewrite Hph.
  pose proof (ld_next _ _ _ _ _ _ _ _ _ _ _ Hld) as Hn'. pose proof (ld_end _ _ _ _ _ _ _ _ _ _ _ Hld) as He'.
  split; [|split; [|lia]].
  - intros pa Hpa. rewrite (ld_tags _ _ _ _ _ _ _ _ _ _ _ Hld) by lia. by apply (fe_tags _ _ _ Hx).
  - intros pa Hpa Hno. etransitivity; [apply (ld_frames _ _ _ _ _ _ _ _ _ _ _ Hld); [lia|done]|].
    by apply (fe_frame _ _ _ Hx).
Qed.

(** C36. The program runs in freed memory: when the launch returns, the frame
    behind every address of its segments and of its stack is marked free in
    the page allocator, while the page is still mapped. *)
Theorem launch_frees_program :
  parser_new binary = Ok parser -> launchable w parser segs strs lens argc ls idx i lvp ->
  exists w' p, launch name binary strs lens argc parent_pid w = Some (Ok (kn_next_pid (w_kern w)), w') /\
    kn_procs (w_kern w') = <[i := Some p]> (kn_procs (w_kern w)) /\
    (forall a sd, 0 <= a < 2 ^ 48 -> ~ in_stack a -> segment_at segs a = Some sd -> loose (space_of w' p) a) /\
    (forall a, in_stack a -> loose (space_of w' p) a).
Proof.
  intros Hp Hl. destruct (launch_ok name _ _ _ _ _ _ parent_pid _ _ _ _ _ Hp Hl) as (w' & p & s & s' & Hrun & [Hps _ _ _ _ Hsp _ Hld _ _]).
  exists w', p. rewrite <- Hsp. split; [done|]. split; [done|]. split; [|apply Hld].
  intros a [e d] H1 H2 H3. by apply (ld_segments_loose _ _ _ _ _ _ _ _ _ _ _ Hld a e d).
Qed.

(** The arguments are not what a C program expects: the array of pointers
    and the strings lie below the initial stack pointer, where the first
    calls of the program overwrite them, and a string whose length is a
    multiple of sixteen has lost its terminating zero: the byte behind it is
    the first one of the next string, or of the array behind the last. *)
Theorem launch_arguments_exposed :
  parser_new binary = Ok parser -> launchable w parser segs strs lens argc ls idx i lvp -> (0 < argc)%nat ->
  exists w' p, launch name binary strs lens argc parent_pid w = Some (Ok (kn_next_pid (w_kern w)), w') /\
    kn_procs (w_kern w') = <[i := Some p]> (kn_procs (w_kern w)) /\
    string_at argc = start_argv argc lens /\ start_argv argc lens + 8 * Z.of_nat argc <= start_sp argc lens /\
    (forall j l, (j < argc)%nat -> lens !! j = Some l -> l mod 16 = 0 -> string_at j + l = string_at (S j)) /\
    (forall j l l' str, (S j < argc)%nat -> lens !! j = Some l -> l mod 16 = 0 ->
       lens !! S j = Some l' -> strs !! S j = Some str -> 0 < l' ->
       ubyte (space_of w' p) (string_at j + l) = Some (nth 0 str 0)) /\
    (forall l, lens !! pred argc = Some l -> l mod 16 = 0 ->
       ubyte (space_of w' p) (string_at (pred argc) + l) = Some (nth 0 (le 8 (string_at 0)) 0)).
Proof.
  intros Hp Hl Hpos. destruct (launch_ok name _ _ _ _ _ _ parent_pid _ _ _ _ _ Hp Hl) as (w' & p & s & s' & Hrun & Hw).
  pose proof (after_argv w' p s s' Hw Hpos) as [Hs Hq Hav Hsp]. pose proof (sb_args _ _ _ _ _ _ _ _ (lb_start _ _ _ _ _ _ _ _ _ _ Hl)) as Ha.
  exists w', p. split; [done|]. split; [apply Hw|].
  assert (Hnext : forall j l, (j < argc)%nat -> lens !! j = Some l -> l mod 16 = 0 -> string_at j + l = string_at (S j)).
  { intros j l Hj Hlj Hm. unfold string_at. rewrite (arg_va_S _ _ _ _ Hlj).
    destruct (ao_arg _ _ _ Ha j Hj) as (l' & str & Hl' & _ & H0 & _). assert (l' = l) as -> by congruence.
    destruct (pad_spec l ltac:(lia)) as (_ & _ & _ & ->); done. }
  split; [done|]. split; [|split; [done|split]].
  - rewrite Hsp. fold (string_at argc) in Hav. rewrite Hav. apply pad_spec. unfold string_at in *.
    pose proof (arg_va_mono _ _ _ (argv_base argc lens stack_top) 0 argc Ha ltac:(lia)) as Hm. rewrite arg_va_0 in Hm.
    pose proof (argv_base_pos argc strs lens Ha). lia.
  - intros j l l' str Hj Hlj Hm Hl' Hst Hpos'. rewrite (Hnext j l) by (done || lia).
    destruct (Hs (S j) Hj l' str Hl' Hst) as [Hb _]. specialize (Hb 0 ltac:(lia)). by rewrite Z.add_0_r in Hb.
  - intros l Hlj Hm. rewrite (Hnext (pred argc) l) by (done || lia). replace (S (pred argc)) with argc by lia.
    unfold string_at at 1. rewrite <- Hav. specialize (Hq 0%nat 0 Hpos ltac:(lia)). by rewrite Z.mul_0_l, !Z.add_0_r in Hq.
Qed.

(** The CPU after a launch: the interrupt mask is as before, but the
    table register is reloaded without the identifier of its address space,
    so it is as before only when that was zero. *)
Theorem launch_drops_asid :
  parser_new binary = Ok parser -> launchable w parser segs strs lens argc ls idx i lvp ->
  active_page_table (w_ttbr0 w) <> 0 ->
  exists w', launch name binary strs lens argc parent_pid w = Some (Ok (kn_next_pid (w_kern w)), w') /\
    w_daif w' = w_daif w /\ w_ttbr0 w' = active_page_table (w_ttbr0 w) /\
    (forall l0 asid, 0 <= asid < 2 ^ 16 -> w_ttbr0 w = pack_ttbr l0 asid -> asid <> 0 -> w_ttbr0 w' <> w_ttbr0 w).
Proof.
  intros Hp Hl Hact. destruct (launch_ok name _ _ _ _ _ _ parent_pid _ _ _ _ _ Hp Hl) as (w' & p & s & s' & Hrun & Hw).
  destruct Hw as [_ _ _ _ _ _ _ Hld (_ & _ & Hb3 & Hb4) (_ & _ & Ha3 & Ha4)]. exists w'. split; [done|].
  pose proof (ld_daif _ _ _ _ _ _ _ _ _ _ _ Hld) as Hd. pose proof (ld_ttbr0 _ _ _ _ _ _ _ _ _ _ _ Hld) as Ht. cbn zeta in Ht.
  rewrite Hb3, Ha3 in Ht. destruct (Z.eqb_spec (active_page_table (w_ttbr0 w)) 0); [done|].
  split; [congruence|]. split; [done|]. intros l0 asid Hr Heq Hne Hsame.
  apply Hne. rewrite <- (pack_ttbr_asid l0 asid), <- Heq by done. rewrite <- Hsame, Ht. unfold active_page_table.
  rewrite Z.shiftr_land. change (Z.shiftr ADDR_MASK TTBR_ASID_SHIFT) with 0. apply Z.land_0_r.
Qed.
End claims.
End top.

(** ** A small launch

    A file of a code segment at 0x1000 and a data segment at 0x3008, two
    arguments, the second of sixteen bytes; the running address space is an
    empty table. *)
Definition demo_file : list Z :=
  match build (add_segments (builder_new 1 1 0 0x1002)
      [mkSegment 1 5 [0x11; 0x22; 0x33] 3 0x1000 0; mkSegment 2 5 [0x44; 0x55] 0x10 0x3008 0]) with
  | Ok d => d
  | Err _ => []
  end.

Definition demo_parser : OHLK_Parser :=
  match parser_new demo_file with Ok p => p | Err _ => mkParser [] (final_header 0 0 0 0 0 0 0) end.

Definition demo_entry (i : Z) : OHLK_Entry * list Z :=
  match get_entry demo_parser i with
  | Ok e => (e, match get_segment_data demo_parser e with Some (Ok d) => d | _ => [] end)
  | Err _ => (mkOhlkEntry 0 0 0 0 0 0 0 0 0 0, [])
  end.
Definition demo_segs : list (OHLK_Entry * list Z) := [demo_entry 0; demo_entry 1].

Definition demo_strs : list (list Z) := [replicate 16 100; [97; 98; 99]].
Definition demo_lens : list Z := [16; 3].

Definition demo_l0 : Z := 0x40000000.
Definition demo_memory : Phys :=
  mkPhys 0x40010000 0x40080000 112 112 (replicate MAX_LIVE_PT 0) ∅ cache_new ∅.
Definition demo_world : World unit unit :=
  mkWorld (mkKern (replicate 8 None) 1 asids_static demo_memory pipes_init (replicate 8 (replicate 128 0)) 0 None)
    1 1 sched_new (pack_ttbr demo_l0 5) 0.

Lemma demo_memory_wf : phys_wf demo_memory.
Proof.
  constructor; cbn [next_free end_free tags live_pt demo_memory]; unfold RAM_BASE, RAM_SIZE; try lia.
  - split; reflexivity.
  - intros pa _. reflexivity.
  - intros pa Hpa. apply list_elem_of_lookup in Hpa as [i Hi]. apply lookup_replicate in Hi as [-> _]. lia.
Qed.

Lemma demo_parent : parent_tree ∅ {[demo_l0 := 3%nat]} demo_l0 0x40010000.
Proof.
  assert (Hr : forall t j, read_pte ∅ t j = 0) by (intros t j; unfold read_pte, ram_read; by rewrite lookup_empty).
  constructor; [constructor|].
  - apply lookup_singleton_eq.
  - intros t r [<- <-]%lookup_singleton_Some. unfold demo_l0. split_and!; [lia|reflexivity|lia|lia].
  - intros t r i [<- <-]%lookup_singleton_Some _. rewrite Hr. intros Hv. done.
  - intros t1 t2 r1 r2 i1 i2 c _ _ _ _ [Hv _]. by rewrite Hr in Hv.
  - left. apply Hr.
Qed.

Lemma demo_parses : parser_new demo_file = Ok demo_parser.
Proof. vm_compute. reflexivity. Qed.

Lemma demo_segment_fits : Forall (fun sd => segment_fits demo_parser sd.1 sd.2) demo_segs.
Proof.
  unfold demo_segs. apply Forall_cons; split; [|apply Forall_cons; split; [|apply Forall_nil; exact I]]; constructor;
    first [vm_compute; congruence|vm_compute; reflexivity|apply (bool_decide_unpack _); vm_compute; exact I].
Qed.

Lemma demo_args : args_ok 2 demo_strs demo_lens.
Proof.
  constructor; [unfold MAX_ARGS; lia|]. intros [|[|i]] Hi; [..|lia].
  - exists 16, (replicate 16 100). unfold ARG_CAP. rewrite length_replicate. split_and!; [done|done|lia|lia|lia|].
    apply Forall_replicate. by split.
  - exists 3, [97; 98; 99]. unfold ARG_CAP. split_and!; [done|done|lia|cbn; lia|lia|]. by repeat constructor.
Qed.

Lemma demo_launchable :
  launchable demo_world demo_parser demo_segs demo_strs demo_lens 2 (replicate PRIORITY_LEVELS []) 0 0 {[demo_l0 := 3%nat]}.
Proof.
  constructor.
  - reflexivity.
  - exact demo_memory_wf.
  - vm_compute. congruence.
  - right. exact demo_parent.
  - constructor; [vm_compute; reflexivity|exact demo_segment_fits|cbn; lia|exact demo_args|apply sched_new_ok|reflexivity].
Qed.

Lemma launch_loads_program_witness :
  exists w' p, launch 0x1000 (fun _ => 0x40001000) (NLit [97]) demo_file demo_strs demo_lens 2 0 demo_world = Some (Ok 1, w') /\
    kn_procs (w_kern w') !! 0%nat = Some (Some p) /\
    ubyte (space_of w' p) 0x1001 = Some 0x22 /\ ubyte (space_of w' p) 0x3000 = Some 0 /\ ubyte (space_of w' p) 0x3009 = Some 0x55.
Proof.
  destruct (launch_loads_program 0x1000 (fun _ => 0x40001000) (NLit [97]) demo_file demo_parser demo_segs demo_strs demo_lens 2 0
    (replicate PRIORITY_LEVELS []) 0 0 {[demo_l0 := 3%nat]} demo_world demo_parses demo_launchable)
    as (w' & p & t & Hrun & Hps & _ & _ & Hb & _).
  exists w', p. split; [exact Hrun|]. split; [by rewrite Hps|].
  assert (Hout : forall a, a < 0x2000000 -> ~ in_stack a) by (unfold in_stack, STACK_OFFSET; lia).
  split; [|split].
  - rewrite (Hb 0x1001 (demo_entry 0).1 (demo_entry 0).2); [vm_compute; reflexivity|lia|apply Hout; lia|vm_compute; reflexivity].
  - rewrite (Hb 0x3000 (demo_entry 1).1 (demo_entry 1).2); [vm_compute; reflexivity|lia|apply Hout; lia|vm_compute; reflexivity].
  - rewrite (Hb 0x3009 (demo_entry 1).1 (demo_entry 1).2); [vm_compute; reflexivity|lia|apply Hout; lia|vm_compute; reflexivity].
Defined.

Lemma launch_keeps_memory_witness :
  exists w', launch 0x1000 (fun _ => 0x40001000) (NLit [97]) demo_file demo_strs demo_lens 2 0 demo_world = Some (Ok 1, w') /\
    byte_at (ram (kn_phys (w_kern w'))) 0x40001000 = 0 /\ end_free (kn_phys (w_kern w')) = 0x40080000.
Proof.
  destruct (launch_keeps_memory 0x1000 (fun _ => 0x40001000) (NLit [97]) demo_file demo_parser demo_segs demo_strs demo_lens 2 0
    (replicate PRIORITY_LEVELS []) 0 0 {[demo_l0 := 3%nat]} demo_world demo_parses demo_launchable)
    as (w' & Hrun & _ & Hb & _ & He).
  exists w'. split; [exact Hrun|]. split; [|exact He].
  rewrite (Hb 0x40001000); [reflexivity|cbn; lia|]. by apply lookup_singleton_ne.
Defined.

Lemma launch_frees_program_witness :
  exists w' p, launch 0x1000 (fun _ => 0x40001000) (NLit [97]) demo_file demo_strs demo_lens 2 0 demo_world = Some (Ok 1, w') /\
    kn_procs (w_kern w') !! 0%nat = Some (Some p) /\ loose (space_of w' p) 0x1000 /\ loose (space_of w' p) 0x2003ff0.
Proof.
  destruct (launch_frees_program 0x1000 (fun _ => 0x40001000) (NLit [97]) demo_file demo_parser demo_segs demo_strs demo_lens 2 0
    (replicate PRIORITY_LEVELS []) 0 0 {[demo_l0 := 3%nat]} demo_world demo_parses demo_launchable)
    as (w' & p & Hrun & Hps & Hseg & Hst).
  exists w', p. split; [exact Hrun|]. split; [by rewrite Hps|]. split.
  - apply (Hseg 0x1000 (demo_entry 0)); [lia|unfold in_stack, STACK_OFFSET; lia|vm_compute; reflexivity].
  - apply Hst. unfold in_stack, stack_top, STACK_OFFSET, STACK_SIZE. lia.
Defined.

Lemma launch_arguments_exposed_witness :
  exists w' p, launch 0x1000 (fun _ => 0x40001000) (NLit [97]) demo_file demo_strs demo_lens 2 0 demo_world = Some (Ok 1, w') /\
    kn_procs (w_kern w') !! 0%nat = Some (Some p) /\ ubyte (space_of w' p) (string_at demo_lens 2 0 + 16) = Some 97.
Proof.
  destruct (launch_arguments_exposed 0x1000 (fun _ => 0x40001000) (NLit [97]) demo_file demo_parser demo_segs demo_strs demo_lens 2 0
    (replicate PRIORITY_LEVELS []) 0 0 {[demo_l0 := 3%nat]} demo_world demo_parses demo_launchable ltac:(lia))
    as (w' & p & Hrun & Hps & _ & _ & _ & Hnext & _).
  exists w', p. split; [exact Hrun|]. split; [by rewrite Hps|].
  apply (Hnext 0%nat 16 3 [97; 98; 99]); (reflexivity || lia).
Defined.

Lemma launch_drops_asid_witness :
  exists w', launch 0x1000 (fun _ => 0x40001000) (NLit [97]) demo_file demo_strs demo_lens 2 0 demo_world = Some (Ok 1, w') /\
    w_ttbr0 w' = 0x40000000 /\ w_ttbr0 w' <> w_ttbr0 demo_world.
Proof.
  destruct (launch_drops_asid 0x1000 (fun _ => 0x40001000) (NLit [97]) demo_file demo_parser demo_segs demo_strs demo_lens 2 0
    (replicate PRIORITY_LEVELS []) 0 0 {[demo_l0 := 3%nat]} demo_world demo_parses demo_launchable ltac:(vm_compute; congruence))
    as (w' & Hrun & _ & Ht & Hne).
  exists w'. split; [exact Hrun|]. split; [rewrite Ht; vm_compute; reflexivity|].
  apply (Hne demo_l0 5); [lia|reflexivity|lia].
Defined.
