(* ===== verification/KernelView.v ===== *)
(** * KernelView: a launched process beside the kernel and other processes

    The upper half of the running address space is in that of every process
    that is launched from it (PtShare.v), and the copies of UserCopy.v look
    at nothing but the valid bits of the walk: what the new program can have
    the kernel read.  All processes so lead to the tables of the kernel; that
    launches keep them off each other's behind low addresses. *)
From Stdlib Require Import ZArith Lia.
From stdpp Require Import base tactics option list list_numbers gmap.
From S2P Require Import Prelude Shared Bytes Handles Pipe Phys Thread Sched Ohlk PageTable PtClone PtShare Vmar Mem Vmo UserCopy Asid Process Launch LaunchSpec LaunchArgs LaunchRun LaunchTop.
Local Open Scope Z_scope.

Section view.
Context {Obj Pk : Type}.
Abbreviation World := (Launch.World Obj Pk).
Context (user_eret_stub : Z) (ht_address : nat -> Z).
Context (name : Name) (binary : list Z) (parser : OHLK_Parser) (segs : list (OHLK_Entry * list Z)).
Context (strs : list (list Z)) (lens : list Z) (argc : nat) (parent_pid : Z).
Context (ls : list (list nat)) (idx i : nat) (lvp : Levels) (w : World).

Let m := kern_ram (w_kern w).
Let active := active_page_table (w_ttbr0 w).

(** Words below the cursor are as they were. *)
Section after.
Context (w' : World) (p : Process) (s s' : Launch.Space Obj Pk).
Context (Hw : world_after ht_address w name parser segs strs lens argc parent_pid i lvp w' p s s').
Context (Hl : launchable w parser segs strs lens argc ls idx i lvp) (Hact : active <> 0).
Let n := next_free (kn_phys (w_kern w)).

Lemma launch_parent : tree_wf m lvp active n.
Proof using Hact Hl. destruct (lb_parent _ _ _ _ _ _ _ _ _ _ Hl) as [?|[Ht _]]; done. Qed.

Lemma word_below t j : t mod 4096 = 0 -> 0 <= j < 512 -> t < n -> t + 8 * j < n.
Proof using Hl.
  intros Ht Hj Hlt. destruct (wf_align _ (lb_phys _ _ _ _ _ _ _ _ _ _ Hl)) as [Hal _]. unfold n in *.
  pose proof (Z.div_mod t 4096). pose proof (Z.div_mod (next_free (kn_phys (w_kern w))) 4096). lia.
Qed.

Lemma before_words t j : t mod 4096 = 0 -> 0 <= j < 512 -> t < n -> read_pte (sp_ram s) t j = read_pte m t j.
Proof using Hl Hw. intros Ht Hj Hlt. unfold read_pte. apply (fe_words _ _ _ (wa_ext _ _ _ _ _ _ _ _ _ _ _ _ _ _ _ Hw)). by apply word_below. Qed.

Lemma after_words t j : t mod 4096 = 0 -> 0 <= j < 512 -> t < n -> read_pte (kern_ram (w_kern w')) t j = read_pte m t j.
Proof using Hact Hl Hw.
  intros Ht Hj Hlt. pose proof Hw as [_ _ _ _ _ Hsp Hx Hld (_ & _ & Hb & _) _]. rewrite <- before_words by done.
  assert (Hr : kern_ram (w_kern w') = sp_ram s') by (unfold sp_ram, sp_phys; by rewrite Hsp). rewrite Hr.
  pose proof (fe_next _ _ _ Hx) as Hn. apply (ld_words _ _ _ _ _ _ _ _ _ _ _ Hld); [by rewrite Hb|done|done|unfold n in Hlt; lia].
Qed.

Lemma launched_byte pa : pa < n -> byte_at (kern_ram (w_kern w')) pa = byte_at m pa.
Proof using Hact Hl Hw.
  intros Hpa. destruct (frame_aligned pa) as [Hf Hr]. pose proof (Z.mod_pos_bound pa 4096 ltac:(lia)). apply byte_word, after_words; [done| |lia].
  split; [apply Z.div_pos; lia|apply Z.div_lt_upper_bound; lia].
Qed.

(** The tree of the new process. *)
Lemma launched_tree : new_tree m active n (space_of w' p) /\ exists lv, pt_inv (space_of w' p) lv.
Proof using Hact Hl Hw.
  pose proof Hw as [_ _ _ _ _ Hsp Hx Hld (_ & _ & Hb & _) _]. rewrite <- Hsp. pose proof (fe_next _ _ _ Hx) as Hn. split.
  - apply (new_tree_lower _ _ (next_free (sp_phys s))); [unfold n; lia|].
    apply (new_tree_ext _ (sp_ram s) lvp active n); [exact launch_parent| |].
    { intros t r j Ht Hj. destruct (tw_table _ _ _ _ launch_parent t r Ht) as (_ & Hm & _ & Hlt). apply before_words; [done|done|lia]. }
    pose proof (ld_tree _ _ _ _ _ _ _ _ _ _ _ Hld) as Hk. cbn zeta in Hk. rewrite Hb in Hk. by apply Hk.
  - destruct (ld_inv _ _ _ _ _ _ _ _ _ _ _ Hld) as (lv & Hinv & _). by exists lv.
Qed.

(** It sees the upper half as the running address space does. *)
Lemma launched_high a : 256 <= index 3 a ->
  translate_user_va (kern_ram (w_kern w')) (pt_l0_pa (pr_page_table p)) a = translate_user_va m active a.
Proof using Hact Hl Hw.
  intros Ha. destruct launched_tree as [Ht [lv Hi]]. rewrite <- (nt_high _ _ _ _ Ht a Ha). unfold translate_va. by rewrite (pi_root _ _ Hi).
Qed.

(** Next to an older process that keeps clear of the kernel's tables. *)
Context (q : Process) (lvq : Levels) (Hq : pt_inv (space_of w q) lvq) (Hclear : clear_of m active (space_of w q)).

Lemma launched_phys : phys_wf (kn_phys (w_kern w')) /\ n <= next_free (kn_phys (w_kern w')).
Proof using Hact Hl Hw.
  destruct launched_tree as [_ [lv Hi]]. split; [apply Hi|]. pose proof Hw as [_ _ _ _ _ Hsp Hx Hld _ _].
  pose proof (ld_next _ _ _ _ _ _ _ _ _ _ _ Hld) as H. unfold sp_phys in H at 2. rewrite Hsp in H.
  change (st_phys (space_of w' p)) with (kn_phys (w_kern w')) in H. pose proof (fe_next _ _ _ Hx). unfold n. lia.
Qed.

Lemma older_kept :
  pt_inv (space_of w' q) lvq /\ (forall va, translate_va (space_of w' q) va = translate_va (space_of w q) va) /\
  keeps_off low_va (space_of w' p) (space_of w' q) /\ keeps_off low_va (space_of w' q) (space_of w' p) /\
  clear_of (kern_ram (w_kern w')) active (space_of w' q) /\ clear_of (kern_ram (w_kern w')) active (space_of w' p).
Proof using All.
  destruct launched_phys as [Hph Hn], launched_tree as [Ht _].
  destruct (older_inv (kn_phys (w_kern w)) (pr_page_table q) lvq (space_of w' p) Hq Hph Hn after_words) as [Hi Htr].
  split; [exact Hi|]. split; [exact Htr|].
  split; [exact (new_off active _ _ lvq (space_of w' p) Hq after_words Ht)|].
  split; [exact (old_off active _ _ lvq (space_of w' p) Hq after_words Ht Hclear)|].
  exact (both_clear active _ _ lvq lvp (space_of w' p) Hq after_words Ht Hclear launch_parent).
Qed.
End after.

(** C35. Kernel memory is user memory to the copies.  After a launch, a range
    of the upper half that the running address space maps is a buffer of the
    new process: [validate_buffer] accepts it, [safe_copy_from_user] succeeds
    on it and gives the bytes that the kernel has there, those it had before
    the launch in all memory that was allotted then; nothing tells the
    kernel's pages from the program's. *)
Theorem launched_reads_kernel va len :
  parser_new binary = Ok parser -> launchable w parser segs strs lens argc ls idx i lvp -> active <> 0 ->
  0 < va -> 0 < len -> va + len <= 2 ^ 64 - 4096 ->
  (forall k, 0 <= k < len -> 256 <= index 3 (va + k) /\ is_Some (translate_user_va m active (va + k))) ->
  exists w' p bs, let m' := kern_ram (w_kern w') in let l0 := pt_l0_pa (pr_page_table p) in
    launch user_eret_stub ht_address name binary strs lens argc parent_pid w = Some (Ok (kn_next_pid (w_kern w)), w') /\
    kn_procs (w_kern w') = <[i := Some p]> (kn_procs (w_kern w)) /\
    validate_buffer m' (Ok l0) va len = Some (Ok tt) /\
    safe_copy_from_user m' l0 va len = Some (Ok bs) /\ length bs = Z.to_nat len /\
    forall k pa, 0 <= k < len -> translate_user_va m active (va + k) = Some pa ->
      bs !! Z.to_nat k = Some (byte_at m' pa) /\
      (pa < next_free (kn_phys (w_kern w)) -> byte_at m' pa = byte_at m pa).
Proof.
  intros Hp Hl Hact Hva Hlen Hend Hmap.
  destruct (launch_ok user_eret_stub ht_address name _ _ _ _ _ _ parent_pid _ _ _ _ _ Hp Hl) as (w' & p & s & s' & Hrun & Hw).
  set (m' := kern_ram (w_kern w')). set (l0 := pt_l0_pa (pr_page_table p)).
  assert (Hl0 : 0 < l0).
  { pose proof Hw as [_ _ _ _ _ Hsp _ Hld _ _]. destruct (ld_inv _ _ _ _ _ _ _ _ _ _ _ Hld) as (lv & Hinv & _). rewrite Hsp in Hinv.
    exact (proj1 (pt_inv_root _ _ Hinv)). }
  assert (Hall : forall k, 0 <= k < len -> user_pa m' l0 (va + k) = translate_user_va m active (va + k)).
  { intros k Hk. unfold user_pa. rewrite u64w_small by lia. apply (launched_high w' p s s' Hw Hl Hact), Hmap, Hk. }
  set (bs := map (fun k => byte_at m' (default 0 (translate_user_va m active (va + Z.of_nat k)))) (seq 0 (Z.to_nat len))).
  assert (Hlb : length bs = Z.to_nat len) by (unfold bs; by rewrite length_map, length_seq).
  assert (Hat : forall k pa, 0 <= k < len -> translate_user_va m active (va + k) = Some pa -> bs !! Z.to_nat k = Some (byte_at m' pa)).
  { intros k pa Hk Hpa. unfold bs. rewrite list_lookup_fmap, lookup_seq_lt by lia. cbn. by rewrite Z2Nat.id, Hpa by lia. }
  assert (Hub : user_bytes m' l0 va (Z.to_nat len) = Some bs).
  { apply user_bytes_Some; [done|]. intros k Hk. destruct (Hmap (Z.of_nat k) ltac:(lia)) as [_ [pa Hpa]].
    exists pa. split; [by rewrite Hall by lia|]. rewrite <- (Nat2Z.id k). by apply Hat; [lia|]. }
  exists w', p, bs. cbn zeta. fold m' l0. split; [done|]. split; [apply Hw|].
  split; [|split; [rewrite copy_from_user_eq by lia; by rewrite Hub|split; [done|]]].
  - unfold validate_buffer. destruct (Z.eqb_spec va 0), (Z.eqb_spec len 0); try lia. cbn [andb].
    rewrite validate_range_spec by lia. unfold mapped. by rewrite Hub.
  - intros k pa Hk Hpa. split; [by apply Hat|]. intros H1. by apply (launched_byte w' p s s').
Qed.

(** ** The processes of the table side by side

    Their trees all lead to the tables of the kernel, and to none of each
    other's behind low addresses. *)
Record side_by_side (w : World) (src : Z) : Prop := {
  ss_tables : forall i p, kn_procs (w_kern w) !! i = Some (Some p) ->
    (exists lv, pt_inv (space_of w p) lv) /\ clear_of (kern_ram (w_kern w)) src (space_of w p);
  ss_off : forall i j p q, i <> j -> kn_procs (w_kern w) !! i = Some (Some p) -> kn_procs (w_kern w) !! j = Some (Some q) ->
    keeps_off low_va (space_of w p) (space_of w q)
}.

(** A launch keeps them so, the process it makes among them. *)
Lemma launched_side_by_side pid w' :
  parser_new binary = Ok parser -> launchable w parser segs strs lens argc ls idx i lvp -> active <> 0 ->
  side_by_side w active ->
  launch user_eret_stub ht_address name binary strs lens argc parent_pid w = Some (Ok pid, w') ->
  side_by_side w' active.
Proof.
  intros Hp Hl Hact [Ht Ho] Hrun.
  destruct (launch_ok user_eret_stub ht_address name _ _ _ _ _ _ parent_pid _ _ _ _ _ Hp Hl) as (w1 & p & s & s' & Hrun' & Hw).
  rewrite Hrun in Hrun'. injection Hrun' as Hpid <-. clear Hpid.
  pose proof (wa_procs _ _ _ _ _ _ _ _ _ _ _ _ _ _ _ Hw) as Hps.
  assert (Hin : forall j q, kn_procs (w_kern w') !! j = Some (Some q) -> (j = i /\ q = p) \/ (j <> i /\ kn_procs (w_kern w) !! j = Some (Some q))).
  { intros j q Hj. rewrite Hps in Hj. apply list_lookup_insert_Some in Hj as [(-> & [= ->] & _)|[? ?]]; [by left|right; split; [congruence|done]]. }
  assert (Hkept : forall j q, kn_procs (w_kern w) !! j = Some (Some q) -> exists lvq, pt_inv (space_of w' q) lvq /\
    keeps_off low_va (space_of w' p) (space_of w' q) /\ keeps_off low_va (space_of w' q) (space_of w' p) /\
    clear_of (kern_ram (w_kern w')) active (space_of w' q)).
  { intros j q Hj. destruct (Ht j q Hj) as [[lvq Hq] Hc]. exists lvq.
    destruct (older_kept w' p s s' Hw Hl Hact q lvq Hq Hc) as (? & _ & ? & ? & ? & _). by split_and!. }
  destruct (launched_tree w' p s s' Hw Hl Hact) as [Hnew [lv Hi]]. split.
  - intros j q [[-> ->]|[_ Hj]]%Hin.
    + split; [by exists lv|]. intros va x Hva Hx Hb. pose proof (nt_user _ _ _ _ Hnew va x Hva Hx) as Hge.
      pose proof (launch_parent Hl Hact) as Hwf.
      assert (Hb' : behind_kernel m active x).
      { apply (behind_same _ (kern_ram (w_kern w')) lvp active _ x Hwf); [|exact Hb]. intros t r c Hlv Hc.
        destruct (tw_table _ _ _ _ Hwf t r Hlv) as (_ & Hm & _ & Hlt). apply (after_words w' p s s' Hw Hl Hact); [done|done|lia]. }
      destruct (reaches_in _ _ _ _ 3 _ x Hwf (tw_root _ _ _ _ Hwf) (behind_reaches _ _ _ _ _ Hwf Hb')) as [r Hr].
      apply (tw_table _ _ _ _ Hwf) in Hr. lia.
    + destruct (Hkept j q Hj) as (lvq & ? & _ & _ & ?). split; [by exists lvq|done].
  - intros j k q r Hne [[-> ->]|[_ Hj]]%Hin [[-> ->]|[_ Hk]]%Hin; [done|by destruct (Hkept k r Hk) as (? & _ & ? & _)|by destruct (Hkept j q Hj) as (? & _ & _ & ? & _)|].
    destruct (Ht k r Hk) as [[lvr Hr] _], (Ht j q Hj) as [[lvq Hq] _].
    apply (older_off _ _ lvr (space_of w' p) Hr (after_words w' p s s' Hw Hl Hact)); [by apply (Ho j k)|].
    intros va x Hx. by apply (older_walk _ _ lvq (space_of w' p) Hq (after_words w' p s s' Hw Hl Hact)) in Hx as [? _].
Qed.
End view.

(** ** A launch from an address space with the kernel in it

    The one of UserCopy.v, with a word of the kernel's at 0x40009010. *)
Definition view_memory : Phys := with_ram demo_memory (<[0x40009010 := 0x6c656e72656b]> half_ram).
Definition view_world : World unit unit :=
  mkWorld (mkKern (replicate 8 None) 1 asids_static view_memory pipes_init (replicate 8 (replicate 128 0)) 0 None)
    1 1 sched_new (pack_ttbr 0x40001000 5) 0.

Lemma view_parent : parent_tree (ram view_memory) half_lv 0x40001000 0x40010000.
Proof.
  assert (Hs : forall t r j, half_lv !! t = Some r -> 0 <= j < 512 -> read_pte (ram view_memory) t j = read_pte half_ram t j).
  { intros t r j Ht Hj. unfold read_pte, ram_read. change (ram view_memory) with (<[0x40009010 := 0x6c656e72656b]> half_ram).
    rewrite lookup_insert_ne; [done|]. destruct (tw_table _ _ _ _ half_tree t r Ht) as (_ & _ & _ & ?). lia. }
  constructor.
  - apply (tree_wf_mono _ _ _ 0x40009000); [lia|]. exact (proj1 (tables_kept half_ram _ half_lv _ _ half_tree Hs)).
  - right. by vm_compute.
Qed.

Lemma view_launchable :
  launchable view_world demo_parser demo_segs demo_strs demo_lens 2 (replicate PRIORITY_LEVELS []) 0 0 half_lv.
Proof.
  constructor.
  - reflexivity.
  - destruct demo_memory_wf. by constructor.
  - vm_compute. congruence.
  - right. exact view_parent.
  - constructor; [vm_compute; reflexivity|exact demo_segment_fits|cbn; lia|exact demo_args|apply sched_new_ok|reflexivity].
Qed.

(** The program gets the kernel's word. *)
Lemma launched_reads_kernel_witness :
  exists w' p bs, launch 0x1000 (fun _ => 0x40001000) (NLit [97]) demo_file demo_strs demo_lens 2 0 view_world = Some (Ok 1, w') /\
    kn_procs (w_kern w') !! 0%nat = Some (Some p) /\
    safe_copy_from_user (kern_ram (w_kern w')) (pt_l0_pa (pr_page_table p)) 0xffff800040009010 6 = Some (Ok bs) /\
    bs !! 0%nat = Some 0x6b /\ bs !! 5%nat = Some 0x6c.
Proof.
  destruct (launched_reads_kernel 0x1000 (fun _ => 0x40001000) (NLit [97]) demo_file demo_parser demo_segs demo_strs demo_lens 2 0
    (replicate PRIORITY_LEVELS []) 0 0 half_lv view_world 0xffff800040009010 6 demo_parses view_launchable)
    as (w' & p & bs & Hrun & Hps & _ & Hcopy & _ & Hb); [vm_compute; congruence|lia|lia|lia| |].
  - intros k Hk. assert (Hc : k = 0 \/ k = 1 \/ k = 2 \/ k = 3 \/ k = 4 \/ k = 5) by lia.
    destruct Hc as [->|[->|[->|[->|[->| ->]]]]]; (split; [vm_compute; congruence|vm_compute; by eexists]).
  - exists w', p, bs. split; [exact Hrun|]. split; [by rewrite Hps|]. split; [exact Hcopy|].
    split.
    + destruct (Hb 0 0x40009010) as [Hx Hk]; [lia|by vm_compute|]. change 0%nat with (Z.to_nat 0). rewrite Hx, Hk; [by vm_compute|cbn; lia].
    + destruct (Hb 5 0x40009015) as [Hx Hk]; [lia|by vm_compute|]. change 5%nat with (Z.to_nat 5). rewrite Hx, Hk; [by vm_compute|cbn; lia].
Defined.
