(* ===== verification/LaunchFail.v ===== *)
(** * LaunchFail: what a failed launch leaves behind

    Which steps of Launch.v touch the CPU and the scheduler, as type classes
    on the steps, and the claim about the error path. *)
From Stdlib Require Import ZArith Lia String.
From stdpp Require Import base tactics option list list_numbers gmap.
From S2P Require Import Prelude Shared Bytes Handles Pipe Phys Thread Sched Ohlk PageTable PtClone Vmar Mem Vmo UserCopy Asid Process Launch LaunchSpec LaunchArgs LaunchRun LaunchTop.
Local Open Scope Z_scope.

Section keeps.
Context {Obj Pk : Type}.
Abbreviation Space := (Launch.Space Obj Pk).
Abbreviation SP := (Launch.SP (Obj:=Obj) (Pk:=Pk)).

(** The CPU's registers and the scheduler are as before. *)
Definition same_cpu (s s' : Space) : Prop :=
  sp_daif s' = sp_daif s /\ sp_ttbr0 s' = sp_ttbr0 s /\ sp_sched s' = sp_sched s.

#[export] Instance same_cpu_preorder : PreOrder same_cpu.
Proof.
  split; [by intros s; split_and!|]. intros s1 s2 s3 (H1 & H2 & H3) (H4 & H5 & H6).
  unfold same_cpu. by rewrite H4, H5, H6.
Qed.

(** Steps that keep them, steps that keep them when they fail, and steps that
    do not fail. *)
Class Keeps {A} (m : SP A) : Prop := keeps s r s' : m s = Some (r, s') -> same_cpu s s'.
Class FailKeeps {A} (m : SP A) : Prop := fail_keeps s e s' : m s = Some (Err e, s') -> same_cpu s s'.
Class NeverFails {A} (m : SP A) : Prop := never_fails s e s' : m s <> Some (Err e, s').

#[export] Instance keeps_ret {A} (a : A) : Keeps (mret a).
Proof. by intros s r s' [= _ <-]. Qed.
#[export] Instance keeps_err {A} e : Keeps (sp_err (A:=A) e).
Proof. by intros s r s' [= _ <-]. Qed.
#[export] Instance keeps_panic {A} : Keeps (sp_panic (A:=A)).
Proof. by intros s r s' [=]. Qed.
#[export] Instance keeps_get {A} (f : Space -> A) : Keeps (sp_get f).
Proof. by intros s r s' [= _ <-]. Qed.
#[export] Instance keeps_or_die {A} (o : option A) : Keeps (or_die o).
Proof. destruct o; apply _. Qed.
#[export] Instance keeps_count n : Keeps (sp_modify (fun s => sp_set_vmo_id s n)).
Proof. by intros s r s' [= _ <-]. Qed.
#[export] Instance keeps_on_pt {A} (m : PT A) : Keeps (on_pt m).
Proof. intros s r s'. unfold on_pt. by destruct (m _) as [[? ?]|]; [intros [= _ <-]|]. Qed.
#[export] Instance keeps_on_phys {A} (m : VM A) : Keeps (on_phys m).
Proof. intros s r s'. unfold on_phys. by destruct (m _) as [[? ?]|]; [intros [= _ <-]|]. Qed.
#[export] Instance keeps_on_vmo {A} (m : Phys -> option (kresult A * Vmo * Phys)) : Keeps (on_vmo m).
Proof.
  intros s r s'. unfold on_vmo. destruct (m _) as [[[[?|?] ?] ?]|]; [by intros [= _ <-]| |done].
  destruct (drop_vmo _ _); [by intros [= _ <-]|done].
Qed.
#[export] Instance keeps_bind {A B} (m : SP A) (f : A -> SP B) : Keeps m -> (forall a, Keeps (f a)) -> Keeps (m ≫= f).
Proof.
  intros Hm Hf s r s'. unfold mbind, sp_bind. destruct (m s) as [[[a|e] s1]|] eqn:E; [| |done].
  - intros H. transitivity s1; [exact (Hm _ _ _ E)|exact (Hf a _ _ _ H)].
  - intros [= _ <-]. exact (Hm _ _ _ E).
Qed.
#[export] Instance keeps_scoped {A} v (m : SP A) : Keeps m -> Keeps (scoped v m).
Proof.
  intros Hm s r s'. unfold scoped. destruct (m s) as [[r1 s1]|] eqn:E; [|done].
  destruct (drop_vmo _ _); [|done]. intros [= _ <-]. by apply (keeps s r1 s1).
Qed.

#[export] Instance keeps_reserve id target size flags : Keeps (reserve id target size flags).
Proof. intros s r s'. unfold reserve. by destruct (reserve_mapping _ _ _ _ _ _); intros [= _ <-]. Qed.
#[export] Instance keeps_touch va : Keeps (touch va).
Proof. intros s r s'. unfold touch. by destruct (translate_va _ _); intros [= _ <-]. Qed.
#[export] Instance keeps_copy bs va : Keeps (copy_user bs va).
Proof. intros s r s'. unfold copy_user. by destruct (safe_copy_to_user _ _ _ _) as [[? ?]|]; [intros [= _ <-]|]. Qed.
#[export] Instance keeps_map_pages n i v va flags : Keeps (map_pages n i v va flags).
Proof. revert i. induction n as [|n IH]; intros i; cbn [map_pages]; apply _. Qed.
#[export] Instance keeps_new_vmo size : Keeps (new_vmo size).
Proof. unfold new_vmo. apply _. Qed.
#[export] Instance keeps_payload parser e v : Keeps (write_payload parser e v).
Proof.
  unfold write_payload. destruct (0 <? e_file_size e); [|apply _].
  destruct (get_segment_data parser e) as [[d|err]|]; apply _.
Qed.
#[export] Instance keeps_segment parser e : Keeps (map_segment parser e).
Proof. unfold map_segment. apply _. Qed.
#[export] Instance keeps_segments parser n idx calc : Keeps (map_segments parser n idx calc).
Proof.
  revert idx calc. induction n as [|n IH]; intros idx calc; cbn [map_segments]; [apply _|].
  destruct (get_entry parser idx) as [e|err]; [|apply IH]. destruct (loadable e); [|apply IH]. apply _.
Qed.
#[export] Instance keeps_stack v va : Keeps (map_stack v va).
Proof. unfold map_stack. apply _. Qed.
#[export] Instance keeps_strings n i strs lens cursor vas : Keeps (put_strings n i strs lens cursor vas).
Proof.
  revert i cursor vas. induction n as [|n IH]; intros i cursor vas; cbn [put_strings]; [apply _|].
  destruct (i <? MAX_ARGS)%nat; apply _.
Qed.
#[export] Instance keeps_pointers n i vas argv : Keeps (put_pointers n i vas argv).
Proof. revert i. induction n as [|n IH]; intros i; cbn [put_pointers]; apply _. Qed.
#[export] Instance keeps_argv argc strs lens top : Keeps (put_argv argc strs lens top).
Proof. unfold put_argv. apply _. Qed.
#[export] Instance keeps_thread stub name entry top : Keeps (make_thread stub name entry top).
Proof. intros s r s'. unfold make_thread. by destruct (new_user _ _ _ _ _ _) as [[[? ?] ?]|]; [intros [= _ <-]|]. Qed.

#[export] Instance keeps_fail {A} (m : SP A) : Keeps m -> FailKeeps m | 10.
Proof. intros Hm s e s'. apply Hm. Qed.
#[export] Instance fail_bind {A B} (m : SP A) (f : A -> SP B) :
  Keeps m -> (forall a, FailKeeps (f a)) -> FailKeeps (m ≫= f) | 1.
Proof.
  intros Hm Hf s e s'. unfold mbind, sp_bind. destruct (m s) as [[[a|err] s1]|] eqn:E; [| |done].
  - intros H. transitivity s1; [exact (Hm _ _ _ E)|exact (Hf a _ _ _ H)].
  - intros [= _ <-]. exact (Hm _ _ _ E).
Qed.
#[export] Instance fail_last {A B} (m : SP A) (f : A -> SP B) :
  FailKeeps m -> (forall a, NeverFails (f a)) -> FailKeeps (m ≫= f) | 5.
Proof.
  intros Hm Hf s e s'. unfold mbind, sp_bind. destruct (m s) as [[[a|err] s1]|] eqn:E; [| |done].
  - intros H. by apply Hf in H.
  - intros [= _ <-]. exact (Hm _ _ _ E).
Qed.
#[export] Instance fail_scoped {A} v (m : SP A) : FailKeeps m -> FailKeeps (scoped v m).
Proof.
  intros Hm s e s'. unfold scoped. destruct (m s) as [[r1 s1]|] eqn:E; [|done].
  destruct (drop_vmo _ _); [|done]. intros [= -> <-]. by apply (fail_keeps s e s1).
Qed.
#[export] Instance fail_schedule t : FailKeeps (schedule_thread t).
Proof. intros s e s'. unfold schedule_thread. by destruct (add _ _). Qed.
#[export] Instance never_modify f : NeverFails (sp_modify f).
Proof. by intros s e s'. Qed.

(** After the tables and the interrupt mask. *)
Lemma fail_start stub name entry top pid asid ht argc strs lens :
  FailKeeps (start_thread stub name entry top pid asid ht argc strs lens).
Proof.
  unfold start_thread. apply fail_bind; [apply _|]. intros t. apply fail_bind; [apply _|]. intros tree.
  cbn zeta. destruct (0 <? argc)%nat; apply _.
Qed.
#[local] Existing Instance fail_start.

Lemma fail_rest stub parser name pid asid ht argc strs lens active daif :
  FailKeeps (base ← sp_get (fun s => vr_base (sp_vmar s));
    calculated ← map_segments parser (Z.to_nat (h_header_count (p_header parser))) 0 None;
    let entry := default (u64w (base + h_entry_point (p_header parser))) calculated in
    let stack_va := u64w (base + STACK_OFFSET) in
    v ← new_vmo STACK_SIZE;
    scoped v
      (map_stack v stack_va;;
       start_thread stub name entry (align16_down (u64w (stack_va + STACK_SIZE))) pid asid ht argc strs lens;;
       restore_cpu active asid daif)).
Proof.
  apply fail_bind; [apply _|]. intros base. apply fail_bind; [apply _|]. intros calc. cbn zeta.
  apply fail_bind; [apply _|]. intros v. apply fail_scoped, fail_bind; [apply _|]. intros _.
  apply fail_last; [apply _|]. intros _. apply never_modify.
Qed.

(** Slot [i] is taken by a process that has not run. *)
Definition slot_wasted (w w' : World Obj Pk) (i : nat) : Prop :=
  exists p, kn_procs (w_kern w') !! i = Some (Some p) /\ pr_id p = kn_next_pid (w_kern w) /\ pr_state p = PInitial.

(** C37. A launch that fails after its tables are made (a segment does not
    fit, memory runs out) leaves interrupts masked, starts no thread, and
    keeps its slot of the process table taken by a process that never ran:
    the slot is not a zombie, so nobody can reap it. *)
Theorem failed_launch_residue stub ht_address name binary parser strs lens argc parent_pid i lvp e (w w' : World Obj Pk) :
  parser_new binary = Ok parser -> first_free (kn_procs (w_kern w)) = Some i ->
  phys_wf (kn_phys (w_kern w)) -> room (kn_phys (w_kern w)) 10 ->
  (let active := active_page_table (w_ttbr0 w) in
   active = 0 \/ parent_tree (kern_ram (w_kern w)) lvp active (next_free (kn_phys (w_kern w)))) ->
  launch stub ht_address name binary strs lens argc parent_pid w = Some (Err e, w') ->
  w_daif w' = Z.lor (w_daif w) 0x3c0 /\ w_sched w' = w_sched w /\ slot_wasted w w' i.
Proof.
  intros Hp Hf Hw Hr Hpar. unfold room in Hr. pose proof (first_free_Some _ _ Hf) as (_ & Hlt & _).
  destruct (allocate_fresh name _ i Hf Hw ltac:(unfold room; lia)) as (p0 & k' & Hal & Hk' & [Hps Hx Hid Hs0 _ _ _ Htr _]).
  unfold launch, launch_user_program_with_argv_id. rewrite Hp, Hal, Hk'. cbv zeta.
  set (p := with_parent parent_pid p0). set (s := borrow w k' p).
  pose proof (fe_next _ _ _ Hx). pose proof (fe_end _ _ _ Hx).
  destruct (set_up_tables_ok (active_page_table (sp_ttbr0 s)) lvp s) as (st1 & lv1 & Hset & _).
  { apply Hx. }
  { cbn [s borrow sp_pt st_tree p with_parent pr_page_table]. by rewrite Htr. }
  { cbn zeta in Hpar. cbn [s borrow sp_ttbr0]. destruct Hpar as [?|Hpar]; [by left|right].
    by eapply parent_tree_fresh; [apply Hw|exact Hx| |done|exact Hpar]. }
  { unfold room, sp_phys, set_up_cost. cbn [s borrow sp_pt st_phys]. lia. }
  unfold launch_in. rewrite (bind_ok _ _ s s (active_page_table (sp_ttbr0 s))) by done. rewrite (bind_ok _ _ _ _ _ Hset).
  set (s2 := sp_set_cpu (sp_set_pt s st1) (sp_ttbr0 s) (Z.lor (sp_daif s) 0x3c0)).
  rewrite (bind_ok _ _ (sp_set_pt s st1) s2 (sp_daif s)) by done.
  match goal with |- context [match ?m s2 with _ => _ end] => destruct (m s2) as [[[u|e'] s']|] eqn:Hrest end; [done| |done]. intros [= -> <-].
  apply fail_rest in Hrest as (Hd & _ & Hsc). cbn [give_back w_daif w_sched]. rewrite Hd, Hsc.
  split; [done|]. split; [done|]. exists (with_space (sp_vmar s') (st_tree (sp_pt s')) p). split; [|split; [exact Hid|exact Hs0]].
  cbn. rewrite list_lookup_insert_eq; [done|]. by rewrite Hps, length_insert.
Qed.
End keeps.

(** ** A file whose only segment has no size *)
Definition empty_file : list Z :=
  match build (add_segments (builder_new 1 1 0 0x1000) [mkSegment 1 5 [] 0 0x1000 0]) with Ok d => d | Err _ => [] end.
Definition empty_parser : OHLK_Parser :=
  match parser_new empty_file with Ok p => p | Err _ => mkParser [] (final_header 0 0 0 0 0 0 0) end.

Definition launch_empty : option (kresult Z * World unit unit) :=
  launch 0x1000 (fun _ => 0x40001000) (NLit [97]) empty_file [] [] 0 0 demo_world.

Lemma launch_empty_fails : exists w', launch_empty = Some (Err InvalidArgs, w').
Proof.
  assert (H : (fst <$> launch_empty) = Some (Err InvalidArgs)) by (vm_compute; reflexivity).
  destruct launch_empty as [[r w']|]; [|done]. injection H as ->. by exists w'.
Qed.

Lemma failed_launch_residue_witness :
  exists w', launch_empty = Some (Err InvalidArgs, w') /\ w_daif demo_world = 0 /\ w_daif w' = 0x3c0 /\
    exists p, kn_procs (w_kern w') !! 0%nat = Some (Some p) /\ pr_state p = PInitial.
Proof.
  destruct launch_empty_fails as [w' Hw]. exists w'. split; [exact Hw|]. split; [reflexivity|].
  destruct (failed_launch_residue 0x1000 (fun _ => 0x40001000) (NLit [97]) empty_file empty_parser [] [] 0 0 0 {[demo_l0 := 3%nat]}
    InvalidArgs demo_world w') as (Hd & _ & p & Hp & _ & Hs).
  - vm_compute. reflexivity.
  - reflexivity.
  - exact demo_memory_wf.
  - vm_compute. congruence.
  - right. exact demo_parent.
  - exact Hw.
  - exact (conj Hd (ex_intro _ p (conj Hp Hs))).
Defined.
