(* ===== verification/LaunchBuilt.v ===== *)
(** * LaunchBuilt: from the builder to the running program

    The OHLINK builder of tools/ohlink and the launch of the kernel together:
    what a program linked from segments finds in its memory. *)
From Stdlib Require Import ZArith Lia String.
From stdpp Require Import base tactics option list list_numbers gmap.
From S2P Require Import Prelude Shared Bytes Handles Pipe Phys Thread Sched Ohlk PageTable PtClone Vmar Mem Vmo UserCopy Asid Process Launch LaunchSpec LaunchArgs LaunchRun LaunchTop.
Local Open Scope Z_scope.

(** ** The image *)

(** The segments that are loaded, as entries with their data. *)
Definition image (segs : list Segment) : list (OHLK_Entry * list Z) :=
  map (fun s => (seg_entry s, sg_data s)) (filter (fun s => loadable (seg_entry s)) segs).

Record seg_placeable (s : Segment) : Prop := {
  sp_size : 0 < sg_mem_size s;
  sp_end : sg_virtual_address s + sg_mem_size s <= USER_SIZE;
  sp_pages : sg_virtual_address s mod 4096 + sg_mem_size s <= 4096 * VMO_MAX_PAGES
}.

(** The byte of the program at an address, where it has one. *)
Definition image_byte (segs : list Segment) (a : Z) : option Z :=
  '(e, d) ← segment_at (image segs) a; Some (segment_byte e d a).

(** The last segment that holds the entry point decides; without one it is
    the entry point itself. *)
Definition image_entry (entry : Z) (segs : list Segment) : Z :=
  default (u64w (0 + entry)) (entry_found entry (map fst (image segs)) None).

(** Where the file keeps a segment makes no difference. *)
Definition moved (x y : OHLK_Entry * list Z) : Prop := exists off, x = (set_file_offset y.1 off, y.2).

Lemma moved_at l m a : Forall2 moved l m ->
  match segment_at l a, segment_at m a with
  | Some x, Some y => moved x y
  | None, None => True
  | _, _ => False
  end.
Proof.
  induction 1 as [|x y l m (off & ->) _ IH]; cbn [segment_at]; [done|].
  destruct (segment_at l a), (segment_at m a); try done. cbn [fst snd].
  change (segment_start (set_file_offset y.1 off)) with (segment_start y.1).
  change (segment_pages (set_file_offset y.1 off)) with (segment_pages y.1).
  destruct (_ && _); [by exists off|done].
Qed.

Lemma moved_cost l m : Forall2 moved l m -> launch_cost l = launch_cost m.
Proof.
  intros H. unfold launch_cost. do 2 f_equal. induction H as [|x y l m (off & ->) _ IH]; [done|].
  cbn [segments_cost foldr fst]. fold (segments_cost l) (segments_cost m). by rewrite IH.
Qed.

Lemma moved_entry l m entry c : Forall2 moved l m -> entry_found entry (map fst l) c = entry_found entry (map fst m) c.
Proof.
  intros H. revert c. induction H as [|x y l m (off & ->) _ IH]; intros c; [done|]. unfold entry_found in *.
  cbn [map foldl fst]. by rewrite IH.
Qed.

Lemma moved_length l m : Forall2 moved l m -> length l = length m.
Proof. apply Forall2_length. Qed.

(** ** Reading the file back *)
Section built.
Context (arch ft flags entry : Z) (segs : list Segment) (data : list Z) (p : OHLK_Parser).
Context (Hb : built_file arch ft flags entry segs data p) (Hok : Forall seg_ok segs).
Context (Hplace : Forall (fun s => loadable (seg_entry s) = true -> seg_placeable s) segs).

Lemma built_fits s off :
  s ∈ segs -> loadable (seg_entry s) = true -> get_segment_data p (set_file_offset (seg_entry s) off) = Some (Ok (sg_data s)) ->
  segment_fits p (set_file_offset (seg_entry s) off) (sg_data s).
Proof.
  intros Hin Hl Hd. destruct (proj1 (Forall_forall _ _) Hok s Hin) as [_ _ Hby _ [Hva _] _].
  destruct (proj1 (Forall_forall _ _) Hplace s Hin Hl) as [Hsz Hend Hpg].
  constructor; cbn [set_file_offset seg_entry e_virtual_address e_mem_size e_file_size]; try done; [lia|].
  destruct (Z.ltb_spec 0 (Z.of_nat (length (sg_data s)))); [done|]. by destruct (sg_data s).
Qed.

Lemma built_loaded n i :
  (i + n = length segs)%nat ->
  exists l, loaded p n (Z.of_nat i) = map fst l /\ Forall2 moved l (image (drop i segs)) /\
    Forall (fun sd => segment_fits p sd.1 sd.2) l.
Proof.
  revert i. induction n as [|n IH]; intros i Hi.
  { exists []. rewrite drop_ge by lia. split_and!; [done|constructor|constructor]. }
  destruct (lookup_lt_is_Some_2 segs i ltac:(lia)) as [s Hs].
  destruct (bf_segment _ _ _ _ _ _ _ Hb i s Hs) as (off & He & Hd & _). cbn zeta in *.
  destruct (IH (S i) ltac:(lia)) as (l & Hl & Hm & Hf).
  cbn [loaded]. rewrite He, (drop_S _ _ _ Hs). replace (Z.of_nat i + 1) with (Z.of_nat (S i)) by lia.
  change (loadable (set_file_offset (seg_entry s) off)) with (loadable (seg_entry s)). unfold image. rewrite filter_cons.
  destruct (loadable (seg_entry s)) eqn:Hld.
  - exists ((set_file_offset (seg_entry s) off, sg_data s) :: l). rewrite Hl, decide_True by done. split; [done|]. split.
    + constructor; [by exists off|done].
    + constructor; [|done]. apply built_fits; [by eapply list_elem_of_lookup_2|done|done].
  - exists l. rewrite decide_False by (intros []). done.
Qed.
End built.

Section top.
Context {Obj Pk : Type}.
Abbreviation World := (Launch.World Obj Pk).

(** A kernel with a free slot, [cost] frames and a place for the thread. *)
Record ready (w : World) (cost : Z) (strs : list (list Z)) (lens : list Z) (argc : nat) (ls : list (list nat))
    (idx i : nat) (lvp : Levels) : Prop := {
  rd_free : first_free (kn_procs (w_kern w)) = Some i;
  rd_phys : phys_wf (kn_phys (w_kern w));
  rd_room : room (kn_phys (w_kern w)) (2 + cost);
  rd_parent : let active := active_page_table (w_ttbr0 w) in
    active = 0 \/ parent_tree (kern_ram (w_kern w)) lvp active (next_free (kn_phys (w_kern w)));
  rd_args : args_ok argc strs lens;
  rd_sched : sched_ok (w_sched w) ls;
  rd_slot : find_empty_slot (w_sched w) = Some idx
}.

(** From the linker's segments to the running program: a file built from
    segments that fit the address space is accepted by the launch, and in the
    new process every address outside the stack that a segment covers shows
    that segment's byte (zero past its data); the thread starts at the entry
    point the builder was given. *)
Theorem launch_built_program stub ht_address arch ft flags entry segs name strs lens argc parent_pid ls idx i lvp (w : World) :
  is_byte arch -> le_range 2 ft -> le_range 4 flags -> le_range 8 entry ->
  Forall seg_ok segs -> Ohlk.fits segs -> (length (image segs) < 32)%nat ->
  Forall (fun s => loadable (seg_entry s) = true -> seg_placeable s) segs ->
  ready w (launch_cost (image segs)) strs lens argc ls idx i lvp ->
  exists binary w' p t,
    build (add_segments (builder_new arch ft flags entry) segs) = Ok binary /\
    launch stub ht_address name binary strs lens argc parent_pid w = Some (Ok (kn_next_pid (w_kern w)), w') /\
    kn_procs (w_kern w') = <[i := Some p]> (kn_procs (w_kern w)) /\
    (forall a b, 0 <= a < 2 ^ 48 -> ~ in_stack a -> image_byte segs a = Some b -> ubyte (space_of w' p) a = Some b) /\
    add (w_sched w) t = Some (w_sched w') /\ elr (t_context t) = image_entry entry segs /\
    t_process_id t = kn_next_pid (w_kern w).
Proof.
  intros Ha Hft Hfl Hen Hok Hfit Hcnt Hpl [Hf Hw Hr Hpar Hargs Hsched Hslot].
  destruct (build_parses arch ft flags entry segs Ha Hft Hfl Hen Hok Hfit) as (binary & parser & Hb).
  destruct (built_loaded _ _ _ _ _ _ _ Hb Hok Hpl (length segs) 0 eq_refl) as (l & Hl & Hm & Hfs). rewrite drop_0 in Hm.
  rewrite <- (moved_length _ _ Hm) in Hcnt. rewrite <- (moved_cost _ _ Hm) in Hr.
  destruct (launch_ok stub ht_address name binary parser l strs lens argc parent_pid ls idx i lvp w) as (w' & p & s & s' & Hrun & Haf).
  { apply (bf_parse _ _ _ _ _ _ _ Hb). }
  { constructor; try done. constructor; try done. by rewrite (bf_count _ _ _ _ _ _ _ Hb), Nat2Z.id. }
  destruct Haf as [Hps Hid _ _ _ Hsp _ Hld (Hb1 & _) (Ha1 & _)].
  destruct (ld_thread _ _ _ _ _ _ _ _ _ _ _ Hld) as (t & Hadd & Ht). destruct (ld_inv _ _ _ _ _ _ _ _ _ _ _ Hld) as (lv & _ & Hsh).
  exists binary, w', p, t. split; [apply Hb|]. split; [done|]. split; [done|]. split; [|split; [|split]].
  - intros a b Hrng Hout ((e & d) & Hat & [= <-])%bind_Some. pose proof (moved_at _ _ a Hm) as Hmv. rewrite Hat in Hmv.
    destruct (segment_at l a) as [x|] eqn:Hx; [|done]. destruct Hmv as (off & ->). rewrite <- Hsp.
    exact (shows_ubyte _ lv _ _ (Hsh a _ _ Hrng Hout Hx)).
  - by rewrite <- Hb1, <- Ha1.
  - rewrite (sa_entry _ _ _ _ _ _ _ _ _ _ Ht). unfold start_entry, image_entry.
    destruct (bf_header _ _ _ _ _ _ _ Hb) as (_ & _ & _ & ->). by rewrite (moved_entry _ _ _ _ Hm).
  - rewrite (sa_process _ _ _ _ _ _ _ _ _ _ Ht). exact Hid.
Qed.
End top.

(** ** The small program of LaunchTop.v, from its segments *)
Definition demo_segments : list Segment :=
  [mkSegment 1 5 [0x11; 0x22; 0x33] 3 0x1000 0; mkSegment 9 0 [0x99] 1 0 0; mkSegment 2 5 [0x44; 0x55] 0x10 0x3008 0].

Lemma demo_ready :
  ready demo_world (launch_cost (image demo_segments)) demo_strs demo_lens 2 (replicate PRIORITY_LEVELS []) 0 0 {[demo_l0 := 3%nat]}.
Proof.
  constructor.
  - reflexivity.
  - exact demo_memory_wf.
  - vm_compute. congruence.
  - right. exact demo_parent.
  - exact demo_args.
  - apply sched_new_ok.
  - reflexivity.
Qed.

Lemma demo_segments_ok : Forall seg_ok demo_segments /\ Ohlk.fits demo_segments.
Proof.
  split; [|split; vm_compute; reflexivity]. unfold demo_segments.
  repeat (apply Forall_cons; split); [..|apply Forall_nil; exact I]; constructor; cbn [sg_ty sg_flags sg_data sg_mem_size sg_virtual_address sg_alignment];
    first [unfold le_range; lia|apply (bool_decide_unpack _); vm_compute; exact I].
Qed.

Lemma demo_placeable : Forall (fun s => loadable (seg_entry s) = true -> seg_placeable s) demo_segments.
Proof.
  unfold demo_segments. repeat (apply Forall_cons; split); [..|apply Forall_nil; exact I]; intros Hl; try discriminate Hl;
    constructor; vm_compute; first [reflexivity|congruence].
Qed.

Lemma launch_built_program_witness :
  exists binary w' p, launch 0x1000 (fun _ => 0x40001000) (NLit [97]) binary demo_strs demo_lens 2 0 demo_world = Some (Ok 1, w') /\
    kn_procs (w_kern w') !! 0%nat = Some (Some p) /\ ubyte (space_of w' p) 0x1001 = Some 0x22.
Proof.
  destruct (launch_built_program 0x1000 (fun _ => 0x40001000) 1 1 0 0x1002 demo_segments (NLit [97]) demo_strs demo_lens 2 0
    (replicate PRIORITY_LEVELS []) 0 0 {[demo_l0 := 3%nat]} demo_world) as (binary & w' & p & t & _ & Hrun & Hps & Hb & _).
  - unfold is_byte. lia.
  - unfold le_range. lia.
  - unfold le_range. lia.
  - unfold le_range. lia.
  - apply demo_segments_ok.
  - apply demo_segments_ok.
  - vm_compute. lia.
  - exact demo_placeable.
  - exact demo_ready.
  - exists binary, w', p. split; [exact Hrun|]. split; [by rewrite Hps|].
    apply Hb; [lia|unfold in_stack, STACK_OFFSET; lia|vm_compute; reflexivity].
Defined.
