(* ===== verification/Linker.v ===== *)
(** * Linker: from an ELF file to an OHLINK file and to a running program

    tools/ohlink-toolchain/crates/ohlink-linker/src/main.rs: the segments of
    an ELF file that are to be loaded become segments of an OHLINK file; any
    other file becomes one segment.  Arguments of the command line, reading
    and writing files and the message at the end are left out.  [None] is a
    panic. *)
From Stdlib Require Import ZArith Lia.
From stdpp Require Import base tactics option list list_numbers gmap.
From S2P Require Import Prelude Shared Bytes Ohlk Phys Thread Sched PageTable Vmar Mem Vmo UserCopy Asid Process Launch LaunchSpec LaunchArgs LaunchRun LaunchTop LaunchBuilt.
Local Open Scope Z_scope.

(** ** The program *)
Inductive LinkError := EmptyInput | BuilderFailed (e : FormatError).

Definition is_elf (buffer : list Z) : bool :=
  (64 <? Z.of_nat (length buffer)) && bool_decide (take 4 buffer = [127; 69; 76; 70]).

(** [PF_X = 1, PF_W = 2, PF_R = 4] to the flags of OHLINK. *)
Definition ohlk_flags (p_flags : Z) : Z :=
  let f := 0x8 in
  let f := if negb (Z.land p_flags 1 =? 0) then Z.lor f 4 else f in
  let f := if negb (Z.land p_flags 2 =? 0) then Z.lor f 2 else f in
  if negb (Z.land p_flags 4 =? 0) then Z.lor f 1 else f.

Definition ohlk_type (p_flags : Z) : Z :=
  if negb (Z.land p_flags 1 =? 0) then segment_type_to_u32 SText
  else if negb (Z.land p_flags 2 =? 0) then segment_type_to_u32 SData
  else segment_type_to_u32 SRodata.

(** One program header at [offset]. *)
Definition link_header (buffer : list Z) (offset : nat) (b : OHLK_Builder) : option OHLK_Builder :=
  let p_type := rd buffer offset 4 in
  if p_type =? 1 then
    let p_offset := rd buffer (offset + 8) 8 in
    let p_vaddr := rd buffer (offset + 16) 8 in
    let p_filesz := rd buffer (offset + 32) 8 in
    let p_memsz := rd buffer (offset + 40) 8 in
    let p_flags := rd buffer (offset + 4) 4 in
    let p_align := rd buffer (offset + 48) 8 in
    let fin := u64w (p_offset + p_filesz) in
    if (0 <? p_filesz) && (fin <=? Z.of_nat (length buffer)) then
      segment_payload ← slice buffer (Z.to_nat p_offset) (Z.to_nat fin);
      Some (snd (add_segment b (ohlk_type p_flags) (ohlk_flags p_flags) segment_payload p_memsz p_vaddr p_align))
    else Some b
  else Some b.

(** [for i in 0..e_phnum], [n] headers left.  An offset whose end wraps is
    past every buffer. *)
Fixpoint link_loop (buffer : list Z) (e_phoff e_phentsize : Z) (n : nat) (i : Z) (b : OHLK_Builder) : option OHLK_Builder :=
  match n with
  | O => Some b
  | S n =>
      let offset := u64w (e_phoff + i * e_phentsize) in
      if Z.of_nat (length buffer) <? u64w (offset + 56) then Some b
      else if Z.of_nat (length buffer) <? offset + 56 then None
      else b ← link_header buffer (Z.to_nat offset) b; link_loop buffer e_phoff e_phentsize n (i + 1) b
  end.

Definition link (buffer : list Z) (cli_entry : Z) : option (result LinkError (list Z)) :=
  let finish b := Some (match build b with Ok data => Ok data | Err e => Err (BuilderFailed e) end) in
  if (length buffer =? 0)%nat then Some (Err EmptyInput)
  else if negb (is_elf buffer) then
    finish (snd (add_segment (builder_new 1 1 0 cli_entry) (segment_type_to_u32 SText) (Z.lor (Z.lor 1 2) 4) buffer
                   (Z.of_nat (length buffer)) 0 4096))
  else
    let e_phoff := rd buffer 32 8 in
    let e_phnum := rd buffer 56 2 in
    let e_phentsize := rd buffer 54 2 in
    let e_entry := rd buffer 24 8 in
    b ← link_loop buffer e_phoff e_phentsize (Z.to_nat e_phnum) 0 (builder_new 1 1 0 e_entry);
    finish b.

(** ** ELF files *)

(** A program header with the bytes it names. *)
Record Phdr := mkPhdr {
  ph_type : Z; ph_flags : Z; ph_offset : Z; ph_vaddr : Z; ph_memsz : Z; ph_align : Z; ph_data : list Z }.

Definition header_at (buffer : list Z) (offset : nat) (h : Phdr) : Prop :=
  rd buffer offset 4 = ph_type h /\ rd buffer (offset + 4) 4 = ph_flags h /\ rd buffer (offset + 8) 8 = ph_offset h /\
  rd buffer (offset + 16) 8 = ph_vaddr h /\ rd buffer (offset + 32) 8 = Z.of_nat (length (ph_data h)) /\
  rd buffer (offset + 40) 8 = ph_memsz h /\ rd buffer (offset + 48) 8 = ph_align h.

(** A file with the entry point and the program headers [hs]: the table lies
    in the file, and so does the data of each header. *)
Record elf_file (buffer : list Z) (entry : Z) (hs : list Phdr) : Prop := {
  el_magic : is_elf buffer = true;
  el_size : Z.of_nat (length buffer) < 2 ^ 63;
  el_bytes : Forall is_byte buffer;
  el_entry : rd buffer 24 8 = entry;
  el_count : rd buffer 56 2 = Z.of_nat (length hs);
  el_table : rd buffer 32 8 + Z.of_nat (length hs) * rd buffer 54 2 + 56 < 2 ^ 64;
  el_header : forall i h, hs !! i = Some h ->
    let offset := rd buffer 32 8 + Z.of_nat i * rd buffer 54 2 in
    offset + 56 <= Z.of_nat (length buffer) /\ header_at buffer (Z.to_nat offset) h;
  el_data : forall h, h ∈ hs -> ph_offset h + Z.of_nat (length (ph_data h)) <= Z.of_nat (length buffer) /\
    take (length (ph_data h)) (drop (Z.to_nat (ph_offset h)) buffer) = ph_data h
}.

(** The headers that are taken: those of type [PT_LOAD] with data. *)
Definition taken (h : Phdr) : bool := (ph_type h =? 1) && (0 <? Z.of_nat (length (ph_data h))).
Definition segment_of (h : Phdr) : Segment :=
  mkSegment (ohlk_type (ph_flags h)) (ohlk_flags (ph_flags h)) (ph_data h) (ph_memsz h) (ph_vaddr h) (ph_align h).
Definition linked (hs : list Phdr) : list Segment := map segment_of (filter (fun h => taken h) hs).

Section elf.
Context (buffer : list Z) (entry : Z) (hs : list Phdr) (Hf : elf_file buffer entry hs).

Lemma rd_pos off n : 0 <= rd buffer off n.
Proof. unfold rd. apply unle_range. apply Forall_take, Forall_drop, (el_bytes _ _ _ Hf). Qed.

Lemma link_header_ok offset h b :
  header_at buffer offset h -> h ∈ hs ->
  link_header buffer offset b = Some (if taken h then add_seg b (segment_of h) else b).
Proof.
  intros (Ht & Hfl & Ho & Hv & Hz & Hm & Ha) Hin. destruct (el_data _ _ _ Hf h Hin) as [Hd Hbytes].
  pose proof (el_size _ _ _ Hf) as Hsz. unfold link_header. rewrite Ht, Hfl, Ho, Hv, Hz, Hm, Ha. unfold taken.
  destruct (Z.eqb_spec (ph_type h) 1); [|done]. cbn [andb].
  assert (0 <= ph_offset h) by (rewrite <- Ho; apply rd_pos).
  rewrite u64w_small by lia. destruct (Z.ltb_spec 0 (Z.of_nat (length (ph_data h)))); [|done]. cbn [andb].
  rewrite (proj2 (Z.leb_le _ _)) by lia.
  assert (slice buffer (Z.to_nat (ph_offset h)) (Z.to_nat (ph_offset h + Z.of_nat (length (ph_data h)))) = Some (ph_data h)) as ->.
  { unfold slice. rewrite Z2Nat.inj_add, Nat2Z.id by lia. rewrite decide_True by lia. by rewrite Nat.add_comm, Nat.add_sub, Hbytes. }
  done.
Qed.

Lemma link_loop_ok n i b :
  (i + n = length hs)%nat ->
  link_loop buffer (rd buffer 32 8) (rd buffer 54 2) n (Z.of_nat i) b = Some (add_segments b (linked (drop i hs))).
Proof.
  revert i b. induction n as [|n IH]; intros i b Hi; cbn [link_loop].
  - by rewrite drop_ge by lia.
  - destruct (lookup_lt_is_Some_2 hs i ltac:(lia)) as [h Hh]. destruct (el_header _ _ _ Hf i h Hh) as [Hoff Hat]. cbn zeta in *.
    pose proof (rd_pos 32 8). pose proof (rd_pos 54 2). pose proof (el_size _ _ _ Hf). pose proof (el_table _ _ _ Hf).
    assert (Z.of_nat i * rd buffer 54 2 <= Z.of_nat (length hs) * rd buffer 54 2) by (apply Z.mul_le_mono_nonneg_r; lia).
    assert (0 <= Z.of_nat i * rd buffer 54 2) by lia.
    rewrite (u64w_small (rd buffer 32 8 + _)), u64w_small by lia. rewrite (proj2 (Z.ltb_ge _ _)) by lia.
    rewrite (link_header_ok _ h) by (done || by eapply list_elem_of_lookup_2). cbn [mbind option_bind].
    replace (Z.of_nat i + 1) with (Z.of_nat (S i)) by lia. rewrite IH by lia. rewrite (drop_S _ _ _ Hh). unfold linked.
    rewrite filter_cons. destruct (taken h); [by rewrite decide_True|rewrite decide_False by (intros []); done].
Qed.

(** The linker hands the builder exactly the taken headers, in order. *)
Lemma link_builds cli_entry :
  link buffer cli_entry = Some (match build (add_segments (builder_new 1 1 0 entry) (linked hs)) with
                                | Ok data => Ok data | Err e => Err (BuilderFailed e) end).
Proof.
  unfold link. pose proof (el_magic _ _ _ Hf) as Hm. rewrite Hm. cbn [negb].
  assert (64 < Z.of_nat (length buffer)) by (unfold is_elf in Hm; apply andb_prop in Hm as [?%Z.ltb_lt _]; done).
  rewrite (proj2 (Nat.eqb_neq _ _)) by lia. rewrite (el_count _ _ _ Hf), Nat2Z.id, (el_entry _ _ _ Hf).
  change 0%Z with (Z.of_nat 0) at 1. rewrite (link_loop_ok (length hs) 0) by done. done.
Qed.
End elf.

(** ** What the linker makes is well formed *)
Lemma ohlk_type_small f : 1 <= ohlk_type f <= 3.
Proof. unfold ohlk_type. destruct (negb (Z.land f 1 =? 0)), (negb (Z.land f 2 =? 0)); vm_compute; by split. Qed.

Lemma ohlk_flags_small f : 0 <= ohlk_flags f < 16.
Proof.
  unfold ohlk_flags. destruct (negb (Z.land f 1 =? 0)), (negb (Z.land f 2 =? 0)), (negb (Z.land f 4 =? 0)); vm_compute; by split.
Qed.

Lemma taken_loadable h : loadable (seg_entry (segment_of h)) = true.
Proof.
  unfold loadable. cbn [segment_of seg_entry e_ty sg_ty]. pose proof (ohlk_type_small (ph_flags h)) as Ht.
  destruct (Z.eqb_spec (ohlk_type (ph_flags h)) 1), (Z.eqb_spec (ohlk_type (ph_flags h)) 2), (Z.eqb_spec (ohlk_type (ph_flags h)) 3); try done.
  lia.
Qed.

Lemma linked_ok buffer entry hs : elf_file buffer entry hs -> Forall seg_ok (linked hs).
Proof.
  intros Hf. apply Forall_map, Forall_forall. intros h [Ht Hin]%list_elem_of_filter.
  apply list_elem_of_lookup in Hin as Hi. destruct Hi as [i Hi].
  destruct (el_header _ _ _ Hf i h Hi) as [_ (_ & _ & _ & Hv & _ & Hm & Ha)].
  pose proof (el_bytes _ _ _ Hf) as Hb. destruct (el_data _ _ _ Hf h Hin) as [_ Hd].
  pose proof (ohlk_type_small (ph_flags h)). pose proof (ohlk_flags_small (ph_flags h)).
  constructor; cbn [segment_of sg_ty sg_flags sg_data sg_mem_size sg_virtual_address sg_alignment].
  - unfold le_range. lia.
  - unfold le_range. lia.
  - rewrite <- Hd. by apply Forall_take, Forall_drop.
  - rewrite <- Hm. by apply rd_range.
  - rewrite <- Hv. by apply rd_range.
  - rewrite <- Ha. by apply rd_range.
Qed.

(** ** From the ELF file to the running program *)
Section top.
Context {Obj Pk : Type}.
Abbreviation World := (Launch.World Obj Pk).

(** A segment with addresses of a program and at most as many pages as a
    memory object has. *)
Record placeable (h : Phdr) : Prop := {
  pl_size : 0 < ph_memsz h;
  pl_end : ph_vaddr h + ph_memsz h <= USER_SIZE;
  pl_pages : ph_vaddr h mod 4096 + ph_memsz h <= 4096 * VMO_MAX_PAGES
}.

(** C7. From the file the compiler writes to the running program: an ELF file
    is accepted by the linker, the file it makes by the launch, and in the new
    process every address outside the stack on the pages of a loaded program
    header shows the byte of the last such header, zero around its data: of
    headers that share a page the last one loaded has all of it.  The thread
    starts at the entry point of the ELF file. *)
Theorem launch_linked_program stub ht_address buffer cli_entry entry hs name strs lens argc parent_pid ls idx i lvp (w : World) :
  elf_file buffer entry hs -> Ohlk.fits (linked hs) -> (length (image (linked hs)) < 32)%nat ->
  Forall (fun h => taken h = true -> placeable h) hs ->
  ready w (launch_cost (image (linked hs))) strs lens argc ls idx i lvp ->
  exists binary w' p t,
    link buffer cli_entry = Some (Ok binary) /\
    launch stub ht_address name binary strs lens argc parent_pid w = Some (Ok (kn_next_pid (w_kern w)), w') /\
    kn_procs (w_kern w') = <[i := Some p]> (kn_procs (w_kern w)) /\
    (forall a b, 0 <= a < 2 ^ 48 -> ~ in_stack a -> image_byte (linked hs) a = Some b -> ubyte (space_of w' p) a = Some b) /\
    add (w_sched w) t = Some (w_sched w') /\ elr (t_context t) = image_entry entry (linked hs) /\
    t_process_id t = kn_next_pid (w_kern w).
Proof.
  intros Hf Hfit Hcnt Hpl Hr.
  assert (Hen : le_range 8 entry) by (rewrite <- (el_entry _ _ _ Hf); apply rd_range, (el_bytes _ _ _ Hf)).
  destruct (launch_built_program stub ht_address 1 1 0 entry (linked hs) name strs lens argc parent_pid ls idx i lvp w)
    as (binary & w' & p & t & Hb & Hrest); try (unfold is_byte, le_range; lia); try done.
  - by eapply linked_ok.
  - apply Forall_map, Forall_forall. intros h [Ht Hin]%list_elem_of_filter _.
    destruct (proj1 (Forall_forall _ _) Hpl h Hin (Is_true_true_1 _ Ht)) as [H1 H2 H3]. by constructor.
  - exists binary, w', p, t. split; [|exact Hrest]. by rewrite (link_builds buffer entry hs Hf), Hb.
Qed.
End top.

(** ** A small ELF file *)
Definition demo_headers : list Phdr :=
  [mkPhdr 1 5 232 0x1000 3 0 [0x11; 0x22; 0x33]; mkPhdr 4 4 232 0 0 0 []; mkPhdr 1 6 235 0x3008 0x10 0 [0x44; 0x55]].
Definition header_bytes (h : Phdr) : list Z :=
  le 4 (ph_type h) ++ le 4 (ph_flags h) ++ le 8 (ph_offset h) ++ le 8 (ph_vaddr h) ++ le 8 (ph_vaddr h)
    ++ le 8 (Z.of_nat (length (ph_data h))) ++ le 8 (ph_memsz h) ++ le 8 (ph_align h).
Definition demo_elf : list Z :=
  [127; 69; 76; 70] ++ replicate 20 0 ++ le 8 0x1002 ++ le 8 64 ++ replicate 14 0 ++ le 2 56 ++ le 2 3 ++ replicate 6 0
    ++ concat (map header_bytes demo_headers) ++ [0x11; 0x22; 0x33; 0x44; 0x55].

Lemma demo_elf_file : elf_file demo_elf 0x1002 demo_headers.
Proof.
  constructor; try (vm_compute; reflexivity).
  - apply (bool_decide_unpack _). vm_compute. exact I.
  - intros [|[|[|i]]] h; [intros [= <-]|intros [= <-]|intros [= <-]|done];
      (split; [vm_compute; congruence|split_and!; vm_compute; reflexivity]).
  - intros h Hh. unfold demo_headers in Hh. rewrite !elem_of_cons, elem_of_nil in Hh.
    destruct Hh as [->|[->|[->|[]]]]; (split; [vm_compute; congruence|vm_compute; reflexivity]).
Qed.

Lemma launch_linked_program_witness :
  exists binary w' p, link demo_elf 0 = Some (Ok binary) /\
    launch 0x1000 (fun _ => 0x40001000) (NLit [97]) binary demo_strs demo_lens 2 0 demo_world = Some (Ok 1, w') /\
    kn_procs (w_kern w') !! 0%nat = Some (Some p) /\ ubyte (space_of w' p) 0x1001 = Some 0x22 /\ ubyte (space_of w' p) 0x3008 = Some 0x44.
Proof.
  destruct (launch_linked_program 0x1000 (fun _ => 0x40001000) demo_elf 0 0x1002 demo_headers (NLit [97]) demo_strs demo_lens 2 0
    (replicate PRIORITY_LEVELS []) 0 0 {[demo_l0 := 3%nat]} demo_world) as (binary & w' & p & t & Hl & Hrun & Hps & Hb & _).
  - exact demo_elf_file.
  - split; vm_compute; reflexivity.
  - vm_compute. lia.
  - repeat (apply Forall_cons; split); [..|apply Forall_nil; exact I]; intros Ht; try discriminate Ht;
      constructor; vm_compute; first [reflexivity|congruence].
  - constructor; [reflexivity|exact demo_memory_wf|vm_compute; congruence|right; exact demo_parent|exact demo_args|apply sched_new_ok|reflexivity].
  - exists binary, w', p. split; [exact Hl|]. split; [exact Hrun|]. split; [by rewrite Hps|].
    split; apply Hb; first [lia|unfold in_stack, STACK_OFFSET; lia|vm_compute; reflexivity].
Defined.
