(* ===== verification/MemCalls.v ===== *)
(** * MemCalls: memory objects and mappings as system calls

    kernel/src/syscall/handlers/memory.rs.  A call gets the caller's handle
    table; the objects live in it, and their frames and the translation
    tables in the memory of the kernel.  The instruction-cache maintenance
    has no effect here.  [None] is a panic. *)
From Stdlib Require Import ZArith Lia.
From stdpp Require Import base tactics option list list_numbers gmap.
From S2P Require Import Prelude Shared Bytes Handles Pipe Phys Port PageTable Vmar Mem Vmo UserCopy Asid Process.
Local Open Scope Z_scope.

(** ** State

    The counter of handles, the table, the kernel and the counter of memory
    objects. *)
Record MemState := mkMemState { ms_counter : Z; ms_table : Handles; ms_kern : Kern; ms_vmo_id : Z }.

Definition MC (A : Type) : Type := MemState -> option (kresult A * MemState).

#[export] Instance mc_ret : MRet MC := fun A a s => Some (Ok a, s).
#[export] Instance mc_bind : MBind MC := fun A B f x s =>
  match x s with
  | None => None
  | Some (Err e, s') => Some (Err e, s')
  | Some (Ok a, s') => f a s'
  end.

Definition mc_lift {A} (r : kresult A) : MC A := fun s => Some (r, s).
Definition mc_err {A} (e : Status) : MC A := mc_lift (Err e).
Definition mc_get {A} (f : MemState -> kresult A) : MC A := fun s => Some (f s, s).

Definition ms_phys (s : MemState) : Phys := kn_phys (ms_kern s).
Definition ms_set_kern (s : MemState) (k : Kern) : MemState := mkMemState (ms_counter s) (ms_table s) k (ms_vmo_id s).
Definition ms_set_phys (s : MemState) (p : Phys) : MemState := ms_set_kern s (set_phys (ms_kern s) p).
Definition ms_set_table (s : MemState) (t : Handles) : MemState := mkMemState (ms_counter s) t (ms_kern s) (ms_vmo_id s).

(** [with_vmo]: the closure works on the object in its slot. *)
Definition with_vmo {A} (hv required : Z) (f : Vmo -> Phys -> option (kresult A * Vmo * Phys)) : MC A := fun s =>
  match ht_with_vmo (ms_table s) hv required
          (fun v => match f v (ms_phys s) with Some (r, v', p) => (Some (r, p), v') | None => (None, v) end) with
  | (Err e, t) => Some (Err e, ms_set_table s t)
  | (Ok None, _) => None
  | (Ok (Some (r, p)), t) => Some (r, ms_set_phys (ms_set_table s t) p)
  end.

(** [READ | WRITE]. *)
Definition READ_WRITE : Z := Z.lor RIGHT_READ RIGHT_WRITE.

(** [table.add]: an object that finds no slot is dropped. *)
Definition add_vmo (v : Vmo) : MC Z := fun s =>
  match ht_add (ms_counter s) (ms_table s) (KVmo v) READ_WRITE with
  | (Ok hv, c, t) => Some (Ok hv, mkMemState c t (ms_kern s) (ms_vmo_id s))
  | (Err e, c, t) =>
      p ← drop_vmo v (ms_phys s);
      Some (Err e, ms_set_phys (mkMemState c t (ms_kern s) (ms_vmo_id s)) p)
  end.

(** An object made under the next identifier. *)
Definition counted (x : Z -> VM Vmo) : MC Vmo := fun s =>
  match x (ms_vmo_id s) (ms_phys s) with
  | None => None
  | Some (Err e, p) => Some (Err e, ms_set_phys s p)
  | Some (Ok v, p) => Some (Ok v, mkMemState (ms_counter s) (ms_table s) (set_phys (ms_kern s) p) (u64w (ms_vmo_id s + 1)))
  end.

(** ** Objects *)
Definition sys_vmo_create (size : Z) : MC Z := v ← counted (fun id => create_with_size id size); add_vmo v.

(** The parent of a slice is only read. *)
Definition parent_vmo (hv : Z) : MC Vmo := with_vmo hv RIGHT_READ (fun v p => Some (Ok v, v, p)).

Definition sys_vmo_create_child (parent_vmo_handle_raw offset size : Z) : MC Z :=
  parent ← parent_vmo parent_vmo_handle_raw;
  child ← counted (fun id => create_child_slice id parent (VMO_MAX_PAGES + 1000) offset size);
  add_vmo child.

(** The translation root of the calling thread's process. *)
Definition caller_l0 : MC Z := mc_get (fun s =>
  match caller (ms_kern s) with Ok (_, p) => Ok (pt_l0_pa (pr_page_table p)) | Err _ => Err InvalidArgs end).

(** The frame behind an offset, committed if there is none. *)
Definition frame_for (v : Vmo) (cur_vmo_off : Z) : VM (Z * Vmo) :=
  match at_z (vo_slots v) (cur_vmo_off / 4096) with
  | None => vm_panic
  | Some (Some pa) => mret (pa, v)
  | Some None =>
      r ← commit_page v (cur_vmo_off - cur_vmo_off mod 4096);
      match r with (Some pa, v') => mret (pa, v') | (None, _) => vm_err NoMemory end
  end.

(** The loop of [sys_vmo_read] and of [sys_vmo_write]: a chunk ends at a page
    boundary of the object or of the buffer.  [move m object user n] is the
    copy of a chunk; the result is [copied]. *)
Fixpoint transfer (move : Ram -> Z -> Z -> nat -> Ram) (fuel : nat) (l0_user_pa vmo_offset user_va real_len copied : Z)
    (v : Vmo) (p : Phys) : option (kresult Z * Vmo * Phys) :=
  match fuel with
  | O => None
  | S fuel =>
      if copied <? real_len then
        let cur_vmo_off := vmo_offset + copied in
        let cur_user_va := u64w (user_va + copied) in
        match translate_user_va (ram p) l0_user_pa cur_user_va with
        | None => Some (Err InvalidArgs, v, p)
        | Some user_pa =>
            match frame_for v cur_vmo_off p with
            | None => None
            | Some (Err e, p1) => Some (Err e, v, p1)
            | Some (Ok (vmo_pa, v1), p1) =>
                let in_page := cur_vmo_off mod 4096 in
                let chunk := Z.min (Z.min (4096 - in_page) (4096 - Z.land cur_user_va (4096 - 1))) (real_len - copied) in
                transfer move fuel l0_user_pa vmo_offset user_va real_len (copied + chunk) v1
                  (with_ram p1 (move (ram p1) (vmo_pa + in_page) user_pa (Z.to_nat chunk)))
            end
        end
      else Some (Ok copied, v, p)
  end.

(** Chunks end at a boundary of one of the two sides. *)
Definition transfer_fuel (real_len : Z) : nat := Z.to_nat (2 * (real_len / 4096) + 4).

Definition transfer_all (move : Ram -> Z -> Z -> nat -> Ram) (l0_user_pa vmo_offset user_va len : Z) (v : Vmo) (p : Phys) :
    option (kresult Z * Vmo * Phys) :=
  if vo_size v <=? vmo_offset then Some (Ok 0, v, p)
  else
    let real_len := Z.min len (vo_size v - vmo_offset) in
    transfer move (transfer_fuel real_len) l0_user_pa vmo_offset user_va real_len 0 v p.

Definition move_out (m : Ram) (object user : Z) (n : nat) : Ram := copy_to m user (copy_from m object n).
Definition move_in (m : Ram) (object user : Z) (n : nat) : Ram := copy_to m object (copy_from m user n).

Definition sys_vmo_read (handle_raw vmo_offset user_dst_va len : Z) : MC Z :=
  l0 ← caller_l0; with_vmo handle_raw RIGHT_READ (transfer_all move_out l0 vmo_offset user_dst_va len).

Definition sys_vmo_write (handle_raw vmo_offset user_src_va len : Z) : MC Z :=
  l0 ← caller_l0; with_vmo handle_raw RIGHT_WRITE (transfer_all move_in l0 vmo_offset user_src_va len).

(** ** Mappings *)
Definition arch_flags (flags : Z) : MapFlags :=
  mkFlags (mf_mem_attr kernel_rw) (readable flags || writable flags || executable flags) (writable flags)
    (executable flags) (user flags).

(** [for i in 0..page_count], from page [i] on. *)
Fixpoint map_object (n : nat) (i vmo_offset target_va : Z) (flags : MapFlags) (v : Vmo) (st : PtState) :
    option (kresult unit * Vmo * PtState) :=
  match n with
  | O => Some (Ok tt, v, st)
  | S n =>
      match commit_page v (u64w (vmo_offset + i * 4096)) (st_phys st) with
      | None => None
      | Some (Err e, p) => Some (Err e, v, mkPt (st_tree st) p)
      | Some (Ok (_, v1), p) =>
          pa ← get_page_phys v1 (u64w (vmo_offset + i * 4096));
          match map_va (u64w (target_va + i * 4096)) pa flags (mkPt (st_tree st) p) with
          | None => None
          | Some (Err e, st') => Some (Err e, v1, st')
          | Some (Ok _, st') => map_object n (i + 1) vmo_offset target_va flags v1 st'
          end
      end
  end.

(** The closure of the two calls; [vm] and [tree] are the region and the
    tables of the process, which keep what was done before an error. *)
Definition map_into (vmo_offset target_va size flags : Z) (v : Vmo) (vm : Vmar.Vmar) (st : PtState) :
    option (kresult Z * Vmo * Vmar.Vmar * PtState) :=
  match reserve_mapping vm (vo_id v) vmo_offset target_va size flags with
  | Err e => Some (Err e, v, vm, st)
  | Ok vm =>
      '(r, v, st) ← map_object (Z.to_nat (size / 4096)) 0 vmo_offset target_va (arch_flags flags) v st;
      Some (match r with Ok _ => Ok size | Err e => Err e end, v, vm, st)
  end.

(** The process in slot [i] gets the region and the tables back. *)
Definition map_in_process (i : nat) (proc : Process) (vmo_handle_raw vmo_offset target_va size flags : Z) : MC Z := fun s =>
  match ht_with_vmo (ms_table s) vmo_handle_raw RIGHT_READ
          (fun v => match map_into vmo_offset target_va size flags v (pr_root_vmar proc) (mkPt (pr_page_table proc) (ms_phys s)) with
                    | Some (r, v', vm, st) => (Some (r, vm, st), v') | None => (None, v) end) with
  | (Err e, t) => Some (Err e, ms_set_table s t)
  | (Ok None, _) => None
  | (Ok (Some (r, vm, st)), t) =>
      let k := set_phys (ms_kern s) (st_phys st) in
      Some (r, ms_set_kern (ms_set_table s t) (put_proc k i (with_space vm (st_tree st) proc)))
  end.

Definition sys_vmar_map (process_handle_raw vmo_handle_raw vmo_offset size vaddr_offset flags_raw : Z) : MC Z := fun s =>
  match ht_with_process (ms_table s) process_handle_raw RIGHT_WRITE id with
  | (Err e, t) => Some (Err e, ms_set_table s t)
  | (Ok pid, t) =>
      match find_process pid (kn_procs (ms_kern s)) with
      | None => Some (Err NotFound, ms_set_table s t)
      | Some (i, proc) =>
          let target_va := u64w (vr_base (pr_root_vmar proc) + vaddr_offset) in
          map_in_process i proc vmo_handle_raw vmo_offset target_va size flags_raw (ms_set_table s t)
      end
  end.

Definition current_proc : MC (nat * Process) := mc_get (fun s =>
  match caller (ms_kern s) with Ok c => Ok c | Err _ => Err NotFound end).

Definition sys_vmar_map_self (vmo_handle_raw vaddr_offset size flags_raw : Z) : MC Z :=
  c ← current_proc;
  let target_va := u64w (vr_base (pr_root_vmar (snd c)) + vaddr_offset) in
  if negb (user flags_raw) then mc_err InvalidArgs
  else map_in_process (fst c) (snd c) vmo_handle_raw 0 target_va size flags_raw.

(** The loop over the pages does nothing. *)
Definition sys_vmar_unmap (vaddr_offset size : Z) : MC unit := current_proc;; mret tt.
