(* ===== verification/MapShare.v ===== *)
(** * MapShare: mapped objects show their bytes

    The mapping calls of MemCalls.v: where a mapped range leads, that two
    processes that map an object share its frames, and what the calls do with
    objects they cannot map. *)
From Stdlib Require Import ZArith Lia.
From stdpp Require Import base tactics option list list_numbers gmap.
From S2P Require Import Prelude Shared Bytes Handles Pipe Phys Port PageTable Vmar Mem Vmo UserCopy PtShare Asid Process ProcCalls Thread Sched Ohlk Launch LaunchSpec LaunchTop KernelView MemCalls.
Local Open Scope Z_scope.

(** ** Objects beside tables *)

(** The object is well formed and none of its frames is a table. *)
Record object_in (st : PtState) (lv : Levels) (v : Vmo) : Prop := {
  oi_wf : vmo_wf v (st_phys st);
  oi_data : forall i pa, at_z (vo_slots v) i = Some (Some pa) -> lv !! pa = None
}.

(** Nothing but further frames, which read as zero. *)
Record same_object (v : Vmo) (p : Phys) (v' : Vmo) (p' : Phys) : Prop := {
  so_id : vo_id v' = vo_id v;
  so_len : length (vo_slots v') = length (vo_slots v);
  so_kept : forall i pa, at_z (vo_slots v) i = Some (Some pa) -> at_z (vo_slots v') i = Some (Some pa);
  so_new : forall i pa, at_z (vo_slots v') i = Some (Some pa) -> at_z (vo_slots v) i = Some (Some pa) \/ next_free p <= pa;
  so_next : next_free p <= next_free p';
  so_bytes : forall k, vmo_byte v' (ram p') k = vmo_byte v (ram p) k
}.

Lemma same_refl v p : same_object v p v p.
Proof. constructor; (done || by left). Qed.

Lemma same_trans v1 p1 v2 p2 v3 p3 : same_object v1 p1 v2 p2 -> same_object v2 p2 v3 p3 -> same_object v1 p1 v3 p3.
Proof.
  intros [I1 L1 K1 N1 X1 B1] [I2 L2 K2 N2 X2 B2]. constructor; [congruence|congruence|eauto| |lia|].
  - intros i pa [H|H]%N2; [by apply N1|right; lia].
  - intros k. by rewrite B2.
Qed.

Lemma frame_at v p i pa a :
  vmo_wf v p -> at_z (vo_slots v) i = Some (Some pa) -> 0 <= a < 4096 -> frame_of (pa + a) = pa /\ pa + a < next_free p.
Proof.
  intros Hv Hi Ha. destruct (vw_page v p Hv i pa Hi) as (_ & Hn & Hm). split; [|lia].
  unfold frame_of. pose proof (Z.div_mod pa 4096). replace (pa + a) with (a + (pa / 4096) * 4096) by lia.
  rewrite Z.div_add, Z.div_small by lia. lia.
Qed.

(** A step that builds tables keeps the object. *)
Lemma object_kept st st' lv lv' k v :
  progress st st' lv lv' k -> object_in st lv v -> object_in st' lv' v /\ same_object v (st_phys st) v (st_phys st').
Proof.
  intros Hp [Hv Hd].
  assert (Hb : forall i pa a, at_z (vo_slots v) i = Some (Some pa) -> 0 <= a < 4096 ->
    byte_at (st_ram st') (pa + a) = byte_at (st_ram st) (pa + a) /\ lv' !! pa = None).
  { intros i pa a Hi Ha. destruct (frame_at v _ i pa a Hv Hi Ha) as [Hf Hn].
    destruct (progress_bytes st st' lv lv' k (pa + a) Hp Hn) as [? Hl]; rewrite Hf in *; [by eapply Hd|done]. }
  split.
  - constructor.
    + eapply wf_mono; [done|]. apply (gr_next _ _ _ _ _ (pg_grown _ _ _ _ _ Hp)).
    + intros i pa Hi. by apply (Hb i pa 0).
  - constructor; [done..|by left|apply (gr_next _ _ _ _ _ (pg_grown _ _ _ _ _ Hp))|]. intros j. unfold vmo_byte.
    destruct (at_z (vo_slots v) (j / 4096)) as [[pa|]|] eqn:E; [|done..].
    apply (Hb _ _ _ E). apply Z.mod_pos_bound. lia.
Qed.

(** Page [i] of the object is committed before it is mapped. *)
Lemma commit_one st lv v i :
  pt_inv st lv -> object_in st lv v -> 0 <= i < Z.of_nat (length (vo_slots v)) -> room (st_phys st) (holes v) ->
  exists o v1 p1 pa, commit_page v (i * 4096) (st_phys st) = Some (Ok (o, v1), p1) /\
    let st1 := mkPt (st_tree st) p1 in
    progress st st1 lv lv 1 /\ (forall va, translate_va st1 va = translate_va st va) /\ object_in st1 lv v1 /\
    same_object v (st_phys st) v1 p1 /\ at_z (vo_slots v1) i = Some (Some pa) /\
    next_free p1 + 4096 * holes v1 = next_free (st_phys st) + 4096 * holes v.
Proof.
  intros Hinv [Hv Hd] Hi Hr. pose proof (pi_phys _ _ Hinv) as Hw. pose proof (vw_size _ _ Hv) as Hsz.
  rewrite commit_page_eq by (done || lia). rewrite Z.div_mul by lia.
  destruct (slot_in v _ (i * 4096) Hv ltac:(lia)) as [o Ho]. rewrite Z.div_mul in Ho by lia. rewrite Ho.
  destruct o as [pa|].
  - exists None, v, (st_phys st), pa. cbn zeta.
    assert (mkPt (st_tree st) (st_phys st) = st) as -> by by destruct st.
    split; [done|]. split; [apply (progress_more _ _ _ _ 0); [lia|by apply progress_refl]|].
    split; [done|]. split; [done|]. split; [apply same_refl|done].
  - pose proof (holes_fill v _ 0 Ho). pose proof (holes_range (set_slot i (Some 0) v)). unfold room in Hr.
    destruct (end_free (st_phys st) <=? next_free (st_phys st)) eqn:E; reflect; [lia|].
    pose proof (commit_next_ext i v _ Hv Hw E Ho) as Hx. set (p1 := alloc_next _ _) in *. set (v1 := commit_next _ _ _) in *.
    assert (Hwords : forall w, w mod 8 = 0 -> w < next_free (st_phys st) -> ram_read (ram p1) w = ram_read (st_ram st) w).
    { intros w Hw8 Hlt. apply zero_page_out. by left. }
    pose proof (ve_next _ _ _ _ Hx). destruct (phys_progress st lv p1 1 Hinv) as [Hp Ht].
    { apply Hx. }
    { cbn [p1 alloc_next next_free]. lia. }
    { done. }
    { exact Hwords. }
    { intros pa Hpa. by apply alloc_next_tags. }
    exists (Some (next_free (st_phys st))), v1, p1, (next_free (st_phys st)). cbn zeta.
    split; [done|]. split; [done|]. split; [done|]. split; [|split; [|split]].
    + constructor; [apply Hx|]. intros j pa Hj. destruct (ve_new _ _ _ _ Hx j pa Hj) as [Hj'|Hge]; [by eapply Hd|].
      destruct (lv !! pa) eqn:Hl; [|done]. destruct (tw_table _ _ _ _ (pi_tree _ _ Hinv) pa n Hl) as (_ & _ & _ & ?). lia.
    + constructor; [apply Hx|apply Hx|apply Hx|apply Hx|apply Hx|]. intros k. by apply commit_next_bytes.
    + cbn [v1 commit_next own_page set_slot vo_slots]. by eapply at_set_z_eq.
    + apply (ve_cost _ _ _ _ Hx).
Qed.

(** ** The loop *)

(** Pages [i..i+n] of a range at [target] lead to those of the object from
    its page [o] on. *)
Lemma map_object_ok n i o target flags (st : PtState) lv v :
  pt_inv st lv -> object_in st lv v -> 0 <= o -> 0 <= i -> o + i + Z.of_nat n <= Z.of_nat (length (vo_slots v)) ->
  vo_size v < 2 ^ 63 -> target mod 4096 = 0 -> 0 <= target -> target + 4096 * (i + Z.of_nat n) <= 2 ^ 30 ->
  room (st_phys st) (holes v + 3 * Z.of_nat n) ->
  exists v' st' lv', map_object n i (4096 * o) target flags v st = Some (Ok tt, v', st') /\
    progress st st' lv lv' (holes v + 3 * Z.of_nat n) /\ object_in st' lv' v' /\
    same_object v (st_phys st) v' (st_phys st') /\
    (forall j, o + i <= j < o + i + Z.of_nat n -> exists pa, at_z (vo_slots v') j = Some (Some pa)) /\
    (forall va, translate_va st' va = by_object v' (target - 4096 * o) (o + i) (Z.of_nat n) va (translate_va st va)) /\
    next_free (st_phys st') + 4096 * holes v' <= next_free (st_phys st) + 4096 * (holes v + 3 * Z.of_nat n).
Proof.
  revert i st lv v. induction n as [|n IH]; intros i st lv v Hinv Hin Ho Hi Hn Hsz Hm Ht Hb Hroom; cbn [map_object].
  { pose proof (holes_range v). exists v, st, lv. split; [done|]. split; [apply (progress_more _ _ _ _ 0); [lia|by apply progress_refl]|].
    split; [done|]. split; [apply same_refl|]. split; [lia|]. split; [|lia].
    intros va. unfold by_object. case_match eqn:E; [reflect; lia|done]. }
  pose proof (vw_size _ _ (oi_wf _ _ _ Hin)) as Hs. unfold room in Hroom.
  replace (4096 * o + i * 4096) with ((o + i) * 4096) by lia. rewrite u64w_small by lia.
  destruct (commit_one st lv v (o + i) Hinv Hin ltac:(lia)) as (r & v1 & p1 & pa & Hc & Hp1 & Ht1 & Hin1 & Hs1 & Hpa & Hcost);
    [unfold room; lia|]. rewrite Hc. set (st1 := mkPt (st_tree st) p1) in *. cbn zeta.
  pose proof (holes_range v1) as Hh1. pose proof (gr_end _ _ _ _ _ (pg_grown _ _ _ _ _ Hp1)) as He1. cbn [st1 st_phys] in He1.
  pose proof (oi_wf _ _ _ Hin1) as Hv1. pose proof (vw_size _ _ Hv1) as Hs1'. pose proof (so_len _ _ _ _ Hs1) as Hl1.
  destruct (vw_page _ _ Hv1 _ _ Hpa) as (Hpl & Hpn & Hpm). pose proof (wf_end _ (pi_phys _ _ (pg_inv _ _ _ _ _ Hp1))) as Hend.
  cbn [st1 st_phys] in Hpn, Hend.
  assert (Hg : get_page_phys v1 ((o + i) * 4096) = Some pa).
  { unfold get_page_phys. destruct (Z.leb_spec (vo_size v1) ((o + i) * 4096)); [lia|]. by rewrite Z.div_mul, Hpa by lia. }
  rewrite Hg. cbn [mbind option_bind]. rewrite u64w_small by lia.
  destruct (map_va_full st1 lv (target + i * 4096) pa flags (pg_inv _ _ _ _ _ Hp1)) as (r2 & st2 & lv2 & Hmap & Hpm2 & Hr2).
  { by rewrite Z.mod_add by lia. }
  { done. }
  { unfold RAM_BASE, RAM_SIZE in *. lia. }
  rewrite Hmap. apply mapped_progress in Hpm2; [|apply Hp1|apply low_address; lia]. pose proof (gr_next _ _ _ _ _ (pg_grown _ _ _ _ _ Hpm2)) as Hn2.
  pose proof (gr_end _ _ _ _ _ (pg_grown _ _ _ _ _ Hpm2)) as He2. cbn [st1 st_phys] in Hn2, He2.
  destruct r2 as [[]|e]; [|destruct Hr2 as (_ & Hfull & _); cbn [st1 st_phys] in Hfull; lia].
  destruct (object_kept _ _ _ _ _ _ Hpm2 Hin1) as [Hin2 Hs2].
  destruct (IH (i + 1) st2 lv2 v1 (pg_inv _ _ _ _ _ Hpm2) Hin2 Ho ltac:(lia) ltac:(lia) ltac:(lia) Hm Ht ltac:(lia))
    as (v3 & st3 & lv3 & Hrest & Hp3 & Hin3 & Hs3 & Hall & Htr & Hcost3).
  { unfold room. lia. }
  exists v3, st3, lv3. split; [exact Hrest|]. split; [|split; [done|split; [|split; [|split]]]].
  - pose proof (progress_trans _ _ _ _ _ _ _ _ (progress_trans _ _ _ _ _ _ _ _ Hp1 Hpm2) Hp3) as [Hpi Hpr Hpg Hpb Hps].
    constructor; [done|done| |done|done]. destruct Hpg as [Hnx Hgr]. constructor; [|done..]. pose proof (holes_range v3). lia.
  - eapply same_trans; [exact Hs1|]. eapply same_trans; [exact Hs2|done].
  - intros j Hj. destruct (decide (j = o + i)) as [->|Hne]; [|apply Hall; lia].
    exists pa. by apply (so_kept _ _ _ _ Hs3).
  - intros va. rewrite Htr, Hr2, Ht1, page_no_at by (done || lia). unfold by_object.
    assert (Hd : (target - 4096 * o) / 4096 = target / 4096 - o).
    { replace (target - 4096 * o) with (target + (- o) * 4096) by lia. rewrite Z.div_add by lia. lia. }
    rewrite Hd. set (j := page_no va - (target / 4096 - o)).
    destruct (Z.eqb_spec (page_no va) (target / 4096 + i)) as [Heq|Hne].
    + assert (j = o + i) as -> by (unfold j; lia). rewrite (so_kept _ _ _ _ Hs3 _ _ Hpa).
      destruct (Z.leb_spec (o + (i + 1)) (o + i)); [lia|]. cbn [andb]. rewrite Z.leb_refl.
      destruct (Z.ltb_spec (o + i) (o + i + Z.of_nat (S n))); [done|lia].
    + assert (Hji : j <> o + i) by (unfold j; lia).
      destruct (Z.leb_spec (o + (i + 1)) j), (Z.leb_spec (o + i) j), (Z.ltb_spec j (o + (i + 1) + Z.of_nat n)),
        (Z.ltb_spec j (o + i + Z.of_nat (S n))); done || lia.
  - lia.
Qed.

(** Where a mapped range leads. *)
Definition maps_to (st : PtState) (v : Vmo) (target o n : Z) : Prop :=
  forall k, 0 <= k < 4096 * n -> exists pa, at_z (vo_slots v) (o + k / 4096) = Some (Some pa) /\
    translate_va st (target + k) = Some (pa + k mod 4096).

Lemma by_object_maps st' v target o n (other : Z -> option Z) :
  0 <= n -> 0 <= target -> target mod 4096 = 0 -> target + 4096 * n <= 2 ^ 48 ->
  (forall j, o <= j < o + n -> exists pa, at_z (vo_slots v) j = Some (Some pa)) ->
  (forall va, translate_va st' va = by_object v (target - 4096 * o) o n va (other va)) ->
  maps_to st' v target o n.
Proof.
  intros Hn Ht Hm Hb Hall Htr k Hk.
  assert (Hq : 0 <= k / 4096 < n) by (split; [apply Z.div_pos; lia|apply Z.div_lt_upper_bound; lia]).
  destruct (Hall (o + k / 4096) ltac:(lia)) as [pa Hpa]. exists pa. split; [done|]. rewrite Htr. unfold by_object.
  pose proof (Z.div_mod target 4096 ltac:(lia)) as Hd. rewrite Hm in Hd.
  rewrite low_page_no by lia. replace ((target + k) / 4096) with (target / 4096 + k / 4096).
  2: { replace (target + k) with (k + target / 4096 * 4096) by lia. rewrite Z.div_add by lia. lia. }
  replace ((target - 4096 * o) / 4096) with (target / 4096 - o).
  2: { replace (target - 4096 * o) with ((target / 4096 - o) * 4096) by lia. by rewrite Z.div_mul. }
  replace (target / 4096 + k / 4096 - (target / 4096 - o)) with (o + k / 4096) by lia. rewrite Hpa.
  destruct (Z.leb_spec o (o + k / 4096)), (Z.ltb_spec (o + k / 4096) (o + n)); try lia. cbn [andb]. do 2 f_equal.
  replace (target + k) with (k + target / 4096 * 4096) by lia. by rewrite Z.mod_add.
Qed.

(** ** Handles *)

Abbreviation KObj := (@KernelObject Vmo.Vmo Vmar.Vmar Port.Port).

(** The handle [hv] gives [obj] in slot [j] with the rights needed. *)
Definition names (t : Handles) (hv need : Z) (j : nat) (rights : Z) (obj : KObj) : Prop :=
  find_slot (has_value hv) t = Some j /\ t !! j = Some (Some (mkSlot hv rights obj)) /\ check_rights rights need = true.

Lemma with_named {R} (t : Handles) hv need j rights obj (f : KObj -> kresult R * KObj) :
  names t hv need j rights obj ->
  ht_with t hv need f = ((f obj).1, <[j := Some (mkSlot hv rights (f obj).2)]> t).
Proof. intros (Hf & Hj & Hr). unfold ht_with. rewrite Hf, Hj. cbn [s_rights s_object s_value]. rewrite Hr. by destruct (f obj). Qed.

(** A slot keeps its value whatever becomes of its object. *)
Lemma names_update t hv need j rights obj hv' need' j' rights' obj' obj2 :
  names t hv need j rights obj -> names t hv' need' j' rights' obj' ->
  names (<[j := Some (mkSlot hv rights obj2)]> t) hv' need' j' rights' (if decide (j = j') then obj2 else obj').
Proof.
  intros (Hf & Hj & Hr) (Hf' & Hj' & Hr'). pose proof (lookup_lt_Some _ _ _ Hj) as Hlt. split_and!; [| |done].
  - unfold find_slot in *. apply find_index_Some in Hf' as [(x & Hx & Hv) Hlow]. apply find_index_Some. split.
    + destruct (decide (j = j')) as [->|Hne].
      * exists (Some (mkSlot hv rights obj2)). rewrite list_lookup_insert_eq by done. split; [done|].
        rewrite Hj in Hx. injection Hx as <-. exact Hv.
      * exists x. by rewrite list_lookup_insert_ne.
    + intros m y Hm Hy. destruct (decide (j = m)) as [->|Hne].
      * rewrite list_lookup_insert_eq in Hy by done. injection Hy as <-. by apply (Hlow m _ Hm Hj).
      * rewrite list_lookup_insert_ne in Hy by done. by apply (Hlow m).
  - case_decide as Hd; [subst j'|by rewrite list_lookup_insert_ne].
    rewrite list_lookup_insert_eq by done. rewrite Hj in Hj'. by injection Hj' as <- <- _.
Qed.

Lemma names_same t hv need j rights obj : names t hv need j rights obj -> <[j := Some (mkSlot hv rights obj)]> t = t.
Proof. intros (_ & Hj & _). by apply list_insert_id. Qed.

(** ** A mapping call *)
Definition proc_st (s : MemState) (p : Process) : PtState := mkPt (pr_page_table p) (ms_phys s).

(** The object can be mapped at [target] of process [p]. *)
Record mappable (s : MemState) (p : Process) (lv : Levels) (v : Vmo) (o n target : Z) : Prop := {
  mb_tables : pt_inv (proc_st s p) lv;
  mb_object : object_in (proc_st s p) lv v;
  mb_size : vo_size v <= 4096 * VMO_MAX_PAGES;
  mb_pages : 0 <= o /\ 0 < n /\ o + n <= Z.of_nat (length (vo_slots v));
  mb_target : target mod 4096 = 0 /\ 0 <= target /\ target + 4096 * n <= USER_SIZE;
  mb_space : exists k, user_space (pr_root_vmar p) k /\ (k < 32)%nat;
  mb_room : room (ms_phys s) (holes v + 3 * n)
}.

Record mapping_done (s : MemState) (i : nat) (p : Process) (lv : Levels) (hv : Z) (j : nat) (rights : Z) (v : Vmo)
    (o n target : Z) (s' : MemState) (p' : Process) (lv' : Levels) (v' : Vmo) : Prop := {
  md_table : ms_table s' = <[j := Some (mkSlot hv rights (KVmo v'))]> (ms_table s);
  md_procs : kn_procs (ms_kern s') = <[i := Some p']> (kn_procs (ms_kern s));
  md_process : exists vm tree, p' = with_space vm tree p;
  md_progress : progress (proc_st s p) (proc_st s' p') lv lv' (holes v + 3 * n);
  md_object : object_in (proc_st s' p') lv' v';
  md_same : same_object v (ms_phys s) v' (ms_phys s');
  md_maps : maps_to (proc_st s' p') v' target o n;
  md_cost : next_free (ms_phys s') + 4096 * holes v' <= next_free (ms_phys s) + 4096 * (holes v + 3 * n)
}.

Lemma map_in_process_ok s i p hv j rights v o n target flags lv :
  names (ms_table s) hv RIGHT_READ j rights (KVmo v) -> mappable s p lv v o n target ->
  exists s' p' lv' v', map_in_process i p hv (4096 * o) target (4096 * n) flags s = Some (Ok (4096 * n), s') /\
    mapping_done s i p lv hv j rights v o n target s' p' lv' v'.
Proof.
  intros Hh [Hinv Hin Hsz (Ho & Hn & Hon) (Hm & Ht & Hend) (k & Hu & Hk) Hroom]. unfold USER_SIZE, VMO_MAX_PAGES in *.
  destruct (reserve_at _ k (vo_id v) (4096 * o) target (4096 * n) flags Hu Hk) as (vm & Hres & _); try done; try lia.
  { rewrite Z.mul_comm. by apply Z.mod_mul. }
  destruct (map_object_ok (Z.to_nat n) 0 o target (arch_flags flags) (proc_st s p) lv v)
    as (v' & st' & lv' & Hmap & Hp & Hin' & Hs' & Hall & Htr & Hcost); rewrite ?Z2Nat.id, ?Z.add_0_r in * by lia; try done; try lia.
  exists (ms_set_kern (ms_set_table s (<[j := Some (mkSlot hv rights (KVmo v'))]> (ms_table s)))
    (put_proc (set_phys (ms_kern s) (st_phys st')) i (with_space vm (st_tree st') p))), (with_space vm (st_tree st') p), lv', v'.
  assert (Hst : mkPt (st_tree st') (st_phys st') = st') by by destruct st'.
  split.
  - unfold map_in_process, ht_with_vmo, map_into. rewrite (with_named _ _ _ _ _ _ _ Hh). fold (proc_st s p).
    rewrite Hres. replace (4096 * n / 4096) with n by (rewrite Z.mul_comm, Z.div_mul; lia). rewrite Hmap. done.
  - constructor; try done.
    + by exists vm, (st_tree st').
    + unfold proc_st. cbn. by rewrite Hst.
    + unfold proc_st. cbn. by rewrite Hst.
    + unfold proc_st. cbn. rewrite Hst. by eapply by_object_maps; [lia|done|done|lia|exact Hall|exact Htr].
Qed.

Lemma sys_vmar_map_ok s hp jp rp pid i p hv j rights v o n off flags lv :
  names (ms_table s) hp RIGHT_WRITE jp rp (KProcess pid) -> names (ms_table s) hv RIGHT_READ j rights (KVmo v) ->
  find_process pid (kn_procs (ms_kern s)) = Some (i, p) -> vr_base (pr_root_vmar p) = 0 ->
  mappable s p lv v o n off ->
  exists s' p' lv' v', sys_vmar_map hp hv (4096 * o) (4096 * n) off flags s = Some (Ok (4096 * n), s') /\
    mapping_done s i p lv hv j rights v o n off s' p' lv' v'.
Proof.
  intros Hhp Hh Hf Hb Hm. unfold sys_vmar_map, ht_with_process. rewrite (with_named _ _ _ _ _ _ _ Hhp). cbn [fst snd id].
  rewrite (names_same _ _ _ _ _ _ Hhp), Hf, Hb. destruct (mb_target _ _ _ _ _ _ _ Hm) as (_ & H0 & H1).
  unfold USER_SIZE in H1. rewrite Z.add_0_l, u64w_small by (pose proof (mb_pages _ _ _ _ _ _ _ Hm); lia).
  replace (ms_set_table s (ms_table s)) with s by by destruct s.
  by apply map_in_process_ok.
Qed.

(** ** Two processes *)

Lemma find_process_keep id l i p j q q' :
  find_process id l = Some (i, p) -> j <> i -> l !! j = Some (Some q) -> pr_id q' = pr_id q ->
  find_process id (<[j := Some q']> l) = Some (i, p).
Proof.
  unfold find_process. intros (m & Hm & H)%bind_Some Hne Hq Hid.
  assert (m = i) as ->. { destruct (l !! m) as [[r|]|]; try done. by injection H. }
  pose proof (lookup_lt_Some _ _ _ Hq) as Hlt. unfold find_slot in *.
  assert (Hi : find_index (fun o => match o with Some x => pr_id x =? id | None => false end) (<[j := Some q']> l) = Some i).
  { apply find_index_Some in Hm as [(x & Hx & Hv) Hlow]. apply find_index_Some. split.
    - exists x. by rewrite list_lookup_insert_ne.
    - intros k y Hk Hy. destruct (decide (j = k)) as [->|Hjk].
      + rewrite list_lookup_insert_eq in Hy by done. injection Hy as <-. rewrite Hid. by apply (Hlow k _ Hk Hq).
      + rewrite list_lookup_insert_ne in Hy by done. by apply (Hlow k). }
  rewrite Hi. cbn [mbind option_bind]. by rewrite list_lookup_insert_ne.
Qed.

Lemma with_space_fields vm tree p : pr_id (with_space vm tree p) = pr_id p /\ pr_page_table (with_space vm tree p) = tree.
Proof. done. Qed.

(** Two processes: no table behind an address of the first gigabyte of the
    one is a table of the other.  Launched processes are so, though all of
    them lead to the kernel's tables (KernelView.v). *)
Definition apart (s : MemState) (p q : Process) : Prop :=
  keeps_off low_va (proc_st s p) (proc_st s q) /\ keeps_off low_va (proc_st s q) (proc_st s p).

Lemma launched_apart {Obj Pk : Type} (w : Launch.World Obj Pk) src s i j p q :
  side_by_side w src -> ms_kern s = w_kern w -> i <> j ->
  kn_procs (ms_kern s) !! i = Some (Some p) -> kn_procs (ms_kern s) !! j = Some (Some q) -> apart s p q.
Proof.
  intros [_ Ho] Hk Hne. unfold apart, proc_st, ms_phys. rewrite Hk. intros Hp Hq.
  split; [exact (Ho i j p q Hne Hp Hq)|]. exact (Ho j i q p (not_eq_sym Hne) Hq Hp).
Qed.

(** What a mapping in [p] leaves of [q]. *)
Lemma other_process s i p lv hv j rights v o n t s' p' lv' v' q lvq :
  mapping_done s i p lv hv j rights v o n t s' p' lv' v' -> pt_inv (proc_st s p) lv -> pt_inv (proc_st s q) lvq -> apart s p q ->
  exists lvq', (forall x r, lvq' !! x = Some r -> lvq !! x = Some r) /\ pt_inv (proc_st s' q) lvq' /\ apart s' p' q /\
    forall va, translate_va (proc_st s' q) va = translate_va (proc_st s q) va.
Proof.
  intros Hd Hp Hq [Hpq Hqp]. pose proof (md_progress _ _ _ _ _ _ _ _ _ _ _ _ _ _ _ Hd) as [Hi _ Hg _ _].
  pose proof (pg_spread _ _ _ _ _ (md_progress _ _ _ _ _ _ _ _ _ _ _ _ _ _ _ Hd)) as Hs.
  assert (Hn : next_free (st_phys (proc_st s p)) <= next_free (st_phys (proc_st s' p'))) by apply Hg.
  destruct (beside_tree (proc_st s p) (proc_st s' p') lv lv' lvq (pr_page_table q) low_va Hi Hs (gr_data _ _ _ _ _ Hg) Hn Hq Hpq)
    as [Htree Htr].
  eexists. split; [by intros x r [Hx _]%prune_Some|]. split; [exact Htree|]. split; [|exact Htr]. split.
  - by apply (beside_off (proc_st s p) (proc_st s' p') lv lv' lvq (pr_page_table q) low_va Hp Hi (gr_levels _ _ _ _ _ Hg) Hs (gr_data _ _ _ _ _ Hg) Hn Hq).
  - by apply (beside_off_back (proc_st s p) (proc_st s' p') lv lv' lvq (pr_page_table q) low_va Hp Hi (gr_levels _ _ _ _ _ Hg) Hs (gr_data _ _ _ _ _ Hg) Hn Hq).
Qed.

(** What the second process needs once the first has the object. *)
Lemma mappable_after s i p lv hv j rights v o n t s' p' lv' v' q lvq t2 :
  mapping_done s i p lv hv j rights v o n t s' p' lv' v' -> pt_inv (proc_st s p) lv -> mappable s q lvq v o n t2 -> apart s p q ->
  room (ms_phys s) (holes v + 6 * n) ->
  exists lvq', mappable s' q lvq' v' o n t2 /\ apart s' p' q.
Proof.
  intros Hd Hp [Hq Hinq Hsz Hpg Ht Hsp _] Hap Hroom.
  destruct (other_process _ _ _ _ _ _ _ _ _ _ _ _ _ _ _ q lvq Hd Hp Hq Hap) as (lvq' & Hsub & Hinv & Hap' & _).
  destruct Hd as [_ _ _ Hpr Hin Hsame _ Hcost]. exists lvq'. split; [|exact Hap'].
  pose proof (oi_wf _ _ _ Hin) as Hv'. constructor.
  - exact Hinv.
  - constructor; [exact Hv'|]. intros k pa Hk. destruct (lvq' !! pa) eqn:Hl; [|done]. apply Hsub in Hl. exfalso.
    destruct (so_new _ _ _ _ Hsame k pa Hk) as [Hk'|Hge]; [by rewrite (oi_data _ _ _ Hinq k pa Hk') in Hl|].
    destruct (tw_table _ _ _ _ (pi_tree _ _ Hq) pa _ Hl) as (_ & _ & _ & ?). cbn [proc_st st_phys] in *. lia.
  - rewrite (vw_size _ _ Hv'), (so_len _ _ _ _ Hsame), <- (vw_size _ _ (oi_wf _ _ _ Hinq)). exact Hsz.
  - by rewrite (so_len _ _ _ _ Hsame).
  - exact Ht.
  - exact Hsp.
  - unfold room in *. pose proof (gr_end _ _ _ _ _ (pg_grown _ _ _ _ _ Hpr)) as He. cbn [proc_st st_phys] in He.
    pose proof (holes_range v'). lia.
Qed.

Section shared.
Context (s : MemState) (hp hq hv : Z) (jp jq j : nat) (rp rq rights : Z) (pid1 pid2 : Z) (i1 i2 : nat) (p1 p2 : Process).
Context (v : Vmo.Vmo) (o n t1 t2 flags1 flags2 : Z) (lv1 lv2 : Levels).

(** Handles of two processes and of an object that both can map, and frames
    for it.  The processes may share tables, as all launched ones share the
    kernel's, but not behind addresses of the first gigabyte. *)
Record shareable : Prop := {
  sh_p : names (ms_table s) hp RIGHT_WRITE jp rp (KProcess pid1);
  sh_q : names (ms_table s) hq RIGHT_WRITE jq rq (KProcess pid2);
  sh_v : names (ms_table s) hv RIGHT_READ j rights (KVmo v);
  sh_p1 : find_process pid1 (kn_procs (ms_kern s)) = Some (i1, p1);
  sh_p2 : find_process pid2 (kn_procs (ms_kern s)) = Some (i2, p2);
  sh_two : i1 <> i2;
  sh_map1 : mappable s p1 lv1 v o n t1;
  sh_map2 : mappable s p2 lv2 v o n t2;
  sh_apart : apart s p1 p2;
  sh_room : room (ms_phys s) (holes v + 6 * n)
}.

(** C15. Shared memory.  An object mapped into one process and then into
    another is in the same frames in both: each address of the two ranges
    leads to the byte of the object at its offset, and the second mapping
    does not disturb the first.  The trees of the two may lead to common
    tables, as those of all launched processes lead to the kernel's, so long
    as no address of the first gigabyte of one goes through a table of the
    other: launches keep this so for all processes of the table
    ([launched_apart]). *)
Theorem mapped_object_is_shared :
  shareable ->
  exists s1 s2 q1 q2,
    sys_vmar_map hp hv (4096 * o) (4096 * n) t1 flags1 s = Some (Ok (4096 * n), s1) /\
    sys_vmar_map hq hv (4096 * o) (4096 * n) t2 flags2 s1 = Some (Ok (4096 * n), s2) /\
    kn_procs (ms_kern s2) = <[i2 := Some q2]> (<[i1 := Some q1]> (kn_procs (ms_kern s))) /\
    forall k, 0 <= k < 4096 * n -> exists pa,
      translate_va (proc_st s2 q1) (t1 + k) = Some pa /\ translate_va (proc_st s2 q2) (t2 + k) = Some pa /\
      byte_at (ram (ms_phys s2)) pa = vmo_byte v (ram (ms_phys s)) (4096 * o + k).
Proof.
  intros [Hp Hq Hv Hf1 Hf2 Hne Hm1 Hm2 Hap Hroom].
  assert (Hbase : forall s q lv t, mappable s q lv v o n t -> vr_base (pr_root_vmar q) = 0).
  { intros s0 q lv t H. destruct (mb_space _ _ _ _ _ _ _ H) as (k & Hu & _). apply Hu. }
  destruct (sys_vmar_map_ok s hp jp rp pid1 i1 p1 hv j rights v o n t1 flags1 lv1 Hp Hv Hf1 (Hbase _ _ _ _ Hm1) Hm1)
    as (s1 & q1 & lv1' & v1 & Hc1 & Hd1).
  destruct (mappable_after _ _ _ _ _ _ _ _ _ _ _ _ _ _ _ _ _ _ Hd1 (mb_tables _ _ _ _ _ _ _ Hm1) Hm2 Hap Hroom) as (lv2a & Hm2' & Hap').
  destruct (md_process _ _ _ _ _ _ _ _ _ _ _ _ _ _ _ Hd1) as (vm1 & tree1 & Hq1).
  pose proof (find_process_Some _ _ _ _ Hf1) as [Hl1 _].
  assert (Hf2' : find_process pid2 (kn_procs (ms_kern s1)) = Some (i2, p2)).
  { rewrite (md_procs _ _ _ _ _ _ _ _ _ _ _ _ _ _ _ Hd1). eapply find_process_keep; [exact Hf2|exact Hne|exact Hl1|by subst q1]. }
  assert (Hnv : names (ms_table s1) hv RIGHT_READ j rights (KVmo v1) /\ names (ms_table s1) hq RIGHT_WRITE jq rq (KProcess pid2)).
  { rewrite (md_table _ _ _ _ _ _ _ _ _ _ _ _ _ _ _ Hd1). split.
    - pose proof (names_update _ _ _ _ _ _ _ _ _ _ _ (KVmo v1) Hv Hv) as H. by rewrite decide_True in H.
    - pose proof (names_update _ _ _ _ _ _ _ _ _ _ _ (KVmo v1) Hv Hq) as H. case_decide as Hj; [|exact H]. subst jq.
      destruct Hv as (_ & Hj & _), Hq as (_ & Hj' & _). rewrite Hj in Hj'. discriminate Hj'. }
  destruct Hnv as [Hv1 Hq']. destruct (mb_space _ _ _ _ _ _ _ Hm2') as (k2 & Hu2 & _).
  destruct (sys_vmar_map_ok s1 hq jq rq pid2 i2 p2 hv j rights v1 o n t2 flags2 lv2a Hq' Hv1 Hf2' (us_base _ _ Hu2) Hm2')
    as (s2 & q2 & lv2' & v2 & Hc2 & Hd2).
  exists s1, s2, q1, q2. split; [exact Hc1|]. split; [exact Hc2|].
  split. { by rewrite (md_procs _ _ _ _ _ _ _ _ _ _ _ _ _ _ _ Hd2), (md_procs _ _ _ _ _ _ _ _ _ _ _ _ _ _ _ Hd1). }
  pose proof (pg_inv _ _ _ _ _ (md_progress _ _ _ _ _ _ _ _ _ _ _ _ _ _ _ Hd1)) as Hinv1. destruct Hap' as [Ha Hb].
  destruct (other_process _ _ _ _ _ _ _ _ _ _ _ _ _ _ _ q1 lv1' Hd2 (mb_tables _ _ _ _ _ _ _ Hm2') Hinv1 (conj Hb Ha))
    as (_ & _ & _ & _ & Htr).
  destruct Hd1 as [_ _ _ _ _ Hs1 Hmap1 _], Hd2 as [_ _ _ _ _ Hs2 Hmap2 _].
  intros k Hk. destruct (Hmap1 k Hk) as (pa & Hpa & Ht1). exists (pa + k mod 4096).
  destruct (Hmap2 k Hk) as (pa2 & Hpa2 & Ht2). pose proof (so_kept _ _ _ _ Hs2 _ _ Hpa) as Hpa'.
  assert (pa2 = pa) as -> by congruence. split; [|split; [exact Ht2|]].
  - rewrite <- Ht1. apply Htr.
  - rewrite <- (so_bytes _ _ _ _ Hs1), <- (so_bytes _ _ _ _ Hs2). unfold vmo_byte.
    replace ((4096 * o + k) / 4096) with (o + k / 4096).
    2: { replace (4096 * o + k) with (k + o * 4096) by lia. rewrite Z.div_add by lia. lia. }
    rewrite Hpa'. replace (4096 * o + k) with (k + o * 4096) by lia. by rewrite Z.mod_add.
Qed.
End shared.

(** Objects over given physical memory, such as the boot image that the
    loader gets under handle 100, own no pages, so [commit_page] refuses them:
    they cannot be mapped, and each attempt leaves a reservation in the
    region of the process, which has room for thirty-two. *)
Theorem physical_object_unmappable s i p k hv j rights v n off flags :
  caller (ms_kern s) = Ok (i, p) -> user_space (pr_root_vmar p) k -> (k < 32)%nat -> user flags = true ->
  names (ms_table s) hv RIGHT_READ j rights (KVmo v) -> vo_committed_pages v = [] -> 0 < vo_size v ->
  0 < n -> off mod 4096 = 0 -> 0 <= off -> off + 4096 * n <= USER_SIZE ->
  exists s' vm, sys_vmar_map_self hv off (4096 * n) flags s = Some (Err NotAllowed, s') /\
    ms_phys s' = ms_phys s /\ kn_procs (ms_kern s') = <[i := Some (with_space vm (pr_page_table p) p)]> (kn_procs (ms_kern s)) /\
    user_space vm (S k).
Proof.
  intros Hc Hu Hk Hus Hh Hown Hsz Hn Hm Ho He. unfold sys_vmar_map_self, mbind, mc_bind, current_proc, mc_get.
  rewrite Hc. cbn [fst snd]. rewrite Hus. cbn [negb]. rewrite (us_base _ _ Hu), Z.add_0_l. unfold USER_SIZE in *.
  rewrite u64w_small by lia.
  destruct (reserve_at _ k (vo_id v) 0 off (4096 * n) flags Hu Hk) as (vm & Hres & Hu'); try done; try (unfold USER_SIZE; lia).
  unfold map_in_process, ht_with_vmo, map_into. rewrite (with_named _ _ _ _ _ _ _ Hh), Hres.
  replace (4096 * n / 4096) with n by (rewrite Z.mul_comm, Z.div_mul; lia).
  destruct (Z.to_nat n) as [|m] eqn:E; [lia|]. cbn [map_object]. change (u64w (0 + 0 * 4096)) with 0.
  unfold commit_page at 1. destruct (Z.leb_spec (vo_size v) 0); [lia|]. rewrite Hown. cbn [length Nat.eqb]. unfold vm_err.
  eexists _, vm. split; [reflexivity|]. done.
Qed.

(** ** Two processes and an object of one page

    Both have the kernel's table at 0x40006000 in their upper half, which
    maps a gigabyte of memory, the tables included, and the same gigabyte in
    its place in the lower half. *)
Definition pair_ram : Ram :=
  <[0x40000000 := 0x40004003]> (<[0x40000800 := 0x40006003]> (<[0x40001000 := 0x40005003]> (<[0x40001800 := 0x40006003]>
    (<[0x40004008 := 0x40000401]> (<[0x40005008 := 0x40000401]> (<[0x40006008 := 0x40000401]> ∅)))))).
Definition pair_phys : Phys := mkPhys 0x40010000 0x40080000 112 112 (replicate MAX_LIVE_PT 0) ∅ cache_new pair_ram.
Definition pair_object : Vmo.Vmo := mkVmo 1 0x40002000 4096 false None (replicate 8 None) [None] [None] 0.
Definition pair_region : Vmar.Vmar := mkVmar 0 USER_SIZE 0x40003000 [] [].
Definition pair_proc (id l0 : Z) : Process :=
  with_space pair_region (mkTree l0 (replicate 64 0) 0 0 true) (demo_proc id 0 PRunning None dfl l0).
Definition pair_table : Handles :=
  Some (mkSlot 1000 READ_WRITE (KProcess 1)) :: Some (mkSlot 1001 READ_WRITE (KProcess 2)) ::
  Some (mkSlot 1002 READ_WRITE (KVmo pair_object)) :: replicate 9 None.
Definition pair_state : MemState :=
  mkMemState 1003 pair_table
    (mkKern [Some (pair_proc 1 0x40000000); Some (pair_proc 2 0x40001000); None; None; None; None; None; None] 3 asids_static
       pair_phys pipes_init [] 0 (Some 1)) 2.

Lemma pair_phys_wf : phys_wf pair_phys.
Proof.
  constructor; cbn [next_free end_free tags live_pt pair_phys]; unfold RAM_BASE, RAM_SIZE; try lia.
  - split; reflexivity.
  - intros pa _. reflexivity.
  - intros pa Hpa. apply list_elem_of_lookup in Hpa as [i Hi]. apply lookup_replicate in Hi as [-> _]. lia.
Qed.

(** The root and the first table below it. *)
Definition pair_tables (l0 l1 : Z) : Prop := (l0 = 0x40000000 /\ l1 = 0x40004000) \/ (l0 = 0x40001000 /\ l1 = 0x40005000).
Definition pair_lv (l0 l1 : Z) : Levels := <[l0 := 3%nat]> (<[l1 := 2%nat]> {[0x40006000 := 2%nat]}).

Lemma pair_level l0 l1 t r : pair_lv l0 l1 !! t = Some r -> (t = l0 /\ r = 3%nat) \/ ((t = l1 \/ t = 0x40006000) /\ r = 2%nat).
Proof.
  unfold pair_lv. rewrite !lookup_insert_Some, lookup_singleton_Some.
  intros [[<- <-]|[_ [[<- <-]|[_ [<- <-]]]]]; tauto.
Qed.

Definition pair_word (a : Z) : Z :=
  if a =? 0x40000000 then 0x40004003 else if a =? 0x40000800 then 0x40006003 else if a =? 0x40001000 then 0x40005003
  else if a =? 0x40001800 then 0x40006003 else if a =? 0x40004008 then 0x40000401 else if a =? 0x40005008 then 0x40000401
  else if a =? 0x40006008 then 0x40000401 else 0.

Lemma pair_read a : ram_read pair_ram a = pair_word a.
Proof.
  unfold pair_ram, pair_word, ram_read.
  repeat match goal with |- context [a =? ?n] => destruct (Z.eqb_spec a n) as [->|?]; [reflexivity|rewrite lookup_insert_ne by done] end.
  by rewrite lookup_empty.
Qed.

Lemma pair_root l0 l1 i : pair_tables l0 l1 -> 0 <= i < 512 ->
  read_pte pair_ram l0 i = if i =? 0 then l1 + 3 else if i =? 256 then 0x40006003 else 0.
Proof.
  intros Hl Hi. unfold read_pte. rewrite pair_read. unfold pair_word.
  destruct Hl as [[-> ->]|[-> ->]]; repeat match goal with |- context [?x =? ?y] => destruct (Z.eqb_spec x y); try lia end; reflexivity.
Qed.

Lemma pair_below l0 l1 t i : pair_tables l0 l1 -> t = l1 \/ t = 0x40006000 -> 0 <= i < 512 ->
  read_pte pair_ram t i = if i =? 1 then 0x40000401 else 0.
Proof.
  intros Hl Ht Hi. unfold read_pte. rewrite pair_read. unfold pair_word.
  destruct Hl as [[-> ->]|[-> ->]], Ht as [-> | ->]; repeat match goal with |- context [?x =? ?y] => destruct (Z.eqb_spec x y); try lia end; reflexivity.
Qed.

(** Only the root points to tables. *)
Lemma pair_points l0 l1 t r i c : pair_tables l0 l1 -> pair_lv l0 l1 !! t = Some r -> 0 <= i < 512 -> points pair_ram t i c ->
  t = l0 /\ ((i = 0 /\ c = l1) \/ (i = 256 /\ c = 0x40006000)).
Proof.
  intros Hl Ht Hi (Hv & Htb & Hc). destruct (pair_level _ _ _ _ Ht) as [[-> ->]|[Hb ->]].
  - rewrite (pair_root l0 l1) in Hv, Hc by done. split; [done|]. destruct (Z.eqb_spec i 0) as [->|].
    + left. split; [done|]. rewrite <- Hc. by destruct Hl as [[_ ->]|[_ ->]].
    + destruct (Z.eqb_spec i 256) as [->|]; [right|by vm_compute in Hv]. by rewrite <- Hc.
  - rewrite (pair_below l0 l1) in Hv, Htb by done. destruct (Z.eqb_spec i 1); [by vm_compute in Htb|by vm_compute in Hv].
Qed.

Lemma pair_tree l0 l1 : pair_tables l0 l1 -> tree_wf pair_ram (pair_lv l0 l1) l0 0x40010000.
Proof.
  intros Hl. assert (Hb : l0 mod 4096 = 0 /\ 0 < l0 <= 0x40001000 /\ l1 mod 4096 = 0 /\ 0 < l1 <= 0x40005000).
  { by destruct Hl as [[-> ->]|[-> ->]]; split_and!; reflexivity || lia. }
  constructor.
  - apply lookup_insert_eq.
  - intros t r [[-> ->]|[[-> | ->] ->]]%pair_level; repeat split; try lia; try apply Hb; reflexivity.
  - intros t r i Ht Hi. destruct (pair_level _ _ _ _ Ht) as [[-> ->]|[Hx ->]]; cbn [entry_ok].
    + rewrite (pair_root l0 l1) by done. unfold pair_lv. destruct Hl as [[-> ->]|[-> ->]];
        (destruct (Z.eqb_spec i 0); [vm_compute; by split|destruct (Z.eqb_spec i 256); [vm_compute; by split|by vm_compute]]).
    + rewrite (pair_below l0 l1) by done. destruct (Z.eqb_spec i 1); by vm_compute.
  - intros t1 t2 r1 r2 i1 i2 c H1 H2 Hi1 Hi2 Hp1 Hp2.
    destruct (pair_points _ _ _ _ _ _ Hl H1 Hi1 Hp1) as [-> Hc1], (pair_points _ _ _ _ _ _ Hl H2 Hi2 Hp2) as [-> Hc2].
    split; [done|]. destruct Hc1 as [[-> ->]|[-> ->]], Hc2 as [[-> Hc]|[-> Hc]]; try done; destruct Hl as [[_ ->]|[_ ->]]; lia.
Qed.

Lemma pair_mappable id l0 l1 t :
  pair_tables l0 l1 -> t mod 4096 = 0 -> 0 <= t -> t + 4096 <= USER_SIZE ->
  mappable pair_state (pair_proc id l0) (pair_lv l0 l1) pair_object 0 1 t.
Proof.
  intros Hl Ht1 Ht2 Ht3. constructor.
  - constructor; [exact pair_phys_wf|by apply pair_tree|done].
  - constructor.
    + assert (Hno : forall i pa, at_z [@None Z] i = Some (Some pa) -> False).
      { intros i pa [Hr Hi]%at_z_Some. cbn [length] in Hr. assert (i = 0) as -> by lia. discriminate Hi. }
      constructor; [done|done|done| |]; intros; exfalso; by eapply Hno.
    + intros i pa [Hr Hi]%at_z_Some. cbn [length pair_object vo_slots] in Hr. assert (i = 0) as -> by lia. discriminate Hi.
  - vm_compute. congruence.
  - cbn [length pair_object vo_slots]. lia.
  - lia.
  - exists 0%nat. split; [|lia]. by constructor.
  - unfold room. vm_compute. congruence.
Qed.

(** A user address goes through the two lower tables. *)
Lemma pair_user id l0 l1 va x : pair_tables l0 l1 -> low_va va -> x ∈ tables_at (proc_st pair_state (pair_proc id l0)) va -> x = l0 \/ x = l1.
Proof.
  intros Hl Hi. unfold low_va in Hi. change (tables_at _ va) with (walk_tables pair_ram 3 l0 va).
  intros [->|(r & c & [= <-] & Hp & Hx)]%walk_tables_inv; [by left|]. right.
  destruct (pair_points l0 l1 l0 3 _ c Hl (lookup_insert_eq _ _ _) (index_range _ _) Hp) as [_ [[_ ->]|[Hno _]]]; [|lia].
  apply walk_tables_inv in Hx as [->|(r & c & [= <-] & Hp1 & _)]; [done|].
  assert (Hl1 : pair_lv l0 l1 !! l1 = Some 2%nat).
  { unfold pair_lv. rewrite lookup_insert_ne by (destruct Hl as [[-> ->]|[-> ->]]; lia). apply lookup_insert_eq. }
  destruct (pair_points l0 l1 l1 2 _ c Hl Hl1 (index_range 2 va) Hp1) as [He _]. destruct Hl as [[-> ->]|[-> ->]]; lia.
Qed.

Lemma pair_off id1 id2 l0 l1 l0' l1' : pair_tables l0 l1 -> pair_tables l0' l1' -> l0 <> l0' ->
  keeps_off low_va (proc_st pair_state (pair_proc id1 l0)) (proc_st pair_state (pair_proc id2 l0')).
Proof.
  intros H1 H2 Hne va x Hva Hx Hin. apply (pair_user _ _ l1) in Hx; [|done..].
  destruct (reaches_in pair_ram _ _ _ 3 l0' x (pair_tree _ _ H2) (lookup_insert_eq _ _ _) Hin) as [r Hr].
  destruct (pair_level _ _ _ _ Hr) as [[-> _]|[[-> | ->] _]], H1 as [[-> ->]|[-> ->]], H2 as [[-> ->]|[-> ->]]; lia.
Qed.

Lemma pair_shareable :
  shareable pair_state 1000 1001 1002 0 1 2 READ_WRITE READ_WRITE READ_WRITE 1 2 0 1 (pair_proc 1 0x40000000) (pair_proc 2 0x40001000)
    pair_object 0 1 0x10000 0x20000 (pair_lv 0x40000000 0x40004000) (pair_lv 0x40001000 0x40005000).
Proof.
  assert (H1 : pair_tables 0x40000000 0x40004000) by by left. assert (H2 : pair_tables 0x40001000 0x40005000) by by right.
  constructor; try (split_and!; reflexivity); try reflexivity; try lia.
  - apply pair_mappable; (done || lia || (unfold USER_SIZE; lia)).
  - apply pair_mappable; (done || lia || (unfold USER_SIZE; lia)).
  - split; [by apply (pair_off 1 2 _ 0x40004000 _ 0x40005000)|by apply (pair_off 2 1 _ 0x40005000 _ 0x40004000)].
  - unfold room. vm_compute. congruence.
Qed.

(** Both see the kernel's gigabyte, tables and all. *)
Example pair_share_kernel :
  translate_va (proc_st pair_state (pair_proc 1 0x40000000)) 0xffff800040006000 = Some 0x40006000 /\
  translate_va (proc_st pair_state (pair_proc 2 0x40001000)) 0xffff800040006000 = Some 0x40006000 /\
  translate_va (proc_st pair_state (pair_proc 2 0x40001000)) 0x40000000 = Some 0x40000000.
Proof. split_and!; by vm_compute. Qed.

Lemma mapped_object_is_shared_witness :
  exists s1 s2 q1 q2 pa, sys_vmar_map 1000 1002 0 4096 0x10000 15 pair_state = Some (Ok 4096, s1) /\
    sys_vmar_map 1001 1002 0 4096 0x20000 15 s1 = Some (Ok 4096, s2) /\
    translate_va (proc_st s2 q1) 0x10005 = Some pa /\ translate_va (proc_st s2 q2) 0x20005 = Some pa.
Proof.
  destruct (mapped_object_is_shared pair_state 1000 1001 1002 0 1 2 READ_WRITE READ_WRITE READ_WRITE 1 2 0 1 (pair_proc 1 0x40000000)
    (pair_proc 2 0x40001000) pair_object 0 1 0x10000 0x20000 15 15 (pair_lv 0x40000000 0x40004000) (pair_lv 0x40001000 0x40005000) pair_shareable)
    as (s1 & s2 & q1 & q2 & H1 & H2 & _ & Hk).
  destruct (Hk 5 ltac:(lia)) as (pa & Ha & Hb & _). exists s1, s2, q1, q2, pa. split; [exact H1|]. split; [exact H2|]. by split.
Defined.

Definition image_object : Vmo.Vmo := mkVmo 1 0x40002000 4096 false None (replicate 8 None) [] [Some 0x48000000] 1.
Definition image_state : MemState :=
  ms_set_table pair_state (Some (mkSlot 100 READ_WRITE (KVmo image_object)) :: replicate 11 None).

Lemma physical_object_unmappable_witness :
  exists s', sys_vmar_map_self 100 0x10000 4096 15 image_state = Some (Err NotAllowed, s') /\ ms_phys s' = pair_phys.
Proof.
  destruct (physical_object_unmappable image_state 0 (pair_proc 1 0x40000000) 0 100 0 READ_WRITE image_object 1 0x10000 15 eq_refl)
    as (s' & vm & Hrun & Hph & _); try (reflexivity || lia).
  - by constructor.
  - split_and!; reflexivity.
  - unfold USER_SIZE. lia.
  - exists s'. split; [exact Hrun|exact Hph].
Defined.
