(* ===== verification/VmoCalls.v ===== *)
(** * VmoCalls: reading and writing memory objects from a program

    The copies of [sys_vmo_read] and [sys_vmo_write] (MemCalls.v): what is
    written through one buffer is what is read back through another. *)
From Stdlib Require Import ZArith Lia.
From stdpp Require Import base tactics option list list_numbers gmap.
From S2P Require Import Prelude Shared Bytes Handles Pipe Phys Port PageTable Vmar Mem Vmo UserCopy Asid Process ProcCalls Thread Sched Ohlk Launch LaunchSpec MemCalls MapShare.
Local Open Scope Z_scope.

(** ** Rounds *)
Definition rounds_left (off va left : Z) : Z := (off mod 4096 + left) / 4096 + (va mod 4096 + left) / 4096.

Lemma rounds_nonneg off va left : 0 <= left -> 0 <= rounds_left off va left.
Proof.
  intros Hl. unfold rounds_left. pose proof (Z.mod_pos_bound off 4096 ltac:(lia)). pose proof (Z.mod_pos_bound va 4096 ltac:(lia)).
  apply Z.add_nonneg_nonneg; apply Z.div_pos; lia.
Qed.

Lemma side_round a c left :
  0 < c <= left -> a mod 4096 + c <= 4096 ->
  ((a + c) mod 4096 + (left - c)) / 4096 <= (a mod 4096 + left) / 4096 /\
  (a mod 4096 + c = 4096 -> ((a + c) mod 4096 + (left - c)) / 4096 + 1 = (a mod 4096 + left) / 4096).
Proof.
  intros Hc Ha. pose proof (Z.mod_pos_bound a 4096 ltac:(lia)). pose proof (Z.div_mod a 4096 ltac:(lia)) as Hd.
  assert (Hm : (a + c) mod 4096 = (a mod 4096 + c) mod 4096) by (by rewrite Z.add_mod_idemp_l).
  destruct (decide (a mod 4096 + c = 4096)) as [He|Hne].
  - rewrite Hm, He. change (4096 mod 4096) with 0. rewrite Z.add_0_l.
    assert ((a mod 4096 + left) / 4096 = (left - c) / 4096 + 1) as ->; [|lia].
    replace (a mod 4096 + left) with (left - c + 1 * 4096) by lia. by rewrite Z.div_add.
  - rewrite Hm, Z.mod_small by lia. replace (a mod 4096 + c + (left - c)) with (a mod 4096 + left) by lia. lia.
Qed.

Lemma chunk_round off va left :
  0 < left ->
  let chunk := Z.min (Z.min (4096 - off mod 4096) (4096 - Z.land (u64w va) (4096 - 1))) left in
  0 < chunk <= left /\ off mod 4096 + chunk <= 4096 /\ va mod 4096 + chunk <= 4096 /\
  (chunk = left \/ rounds_left (off + chunk) (va + chunk) (left - chunk) + 1 <= rounds_left off va left).
Proof.
  intros Hl. cbn zeta. change (4096 - 1) with 0xfff. rewrite page_offset, u64w_page.
  pose proof (Z.mod_pos_bound off 4096 ltac:(lia)). pose proof (Z.mod_pos_bound va 4096 ltac:(lia)).
  set (chunk := Z.min _ left). assert (0 < chunk <= left) by lia. assert (off mod 4096 + chunk <= 4096) by lia.
  assert (va mod 4096 + chunk <= 4096) by lia. split_and!; try lia.
  destruct (side_round off chunk left) as [S1 S1']; [done|done|]. destruct (side_round va chunk left) as [S2 S2']; [done|done|].
  unfold rounds_left. destruct (decide (chunk = left)); [by left|right].
  destruct (decide (off mod 4096 + chunk = 4096)); [specialize (S1' e); lia|].
  assert (He : va mod 4096 + chunk = 4096) by lia. specialize (S2' He). lia.
Qed.

Lemma transfer_fuel_ok off va len : 0 <= len -> 2 + rounds_left off va len <= Z.of_nat (transfer_fuel len).
Proof.
  intros Hl. unfold transfer_fuel, rounds_left. pose proof (Z.div_pos len 4096 Hl ltac:(lia)).
  assert (Hs : forall a, (a mod 4096 + len) / 4096 <= len / 4096 + 1).
  { intros a. pose proof (Z.mod_pos_bound a 4096 ltac:(lia)). pose proof (Z.div_mod len 4096 ltac:(lia)).
    pose proof (Z.mod_pos_bound len 4096 ltac:(lia)).
    assert ((a mod 4096 + len) / 4096 < len / 4096 + 2); [apply Z.div_lt_upper_bound; lia|lia]. }
  pose proof (Hs off). pose proof (Hs va). lia.
Qed.

(** ** The frame of an offset *)
Lemma frame_for_ok v p off :
  vmo_wf v p -> phys_wf p -> 0 <= off < vo_size v -> room p (holes v) ->
  exists pa v1 p1, frame_for v off p = Some (Ok (pa, v1), p1) /\ vmo_ext v p v1 p1 /\
    at_z (vo_slots v1) (off / 4096) = Some (Some pa) /\ forall k, vmo_byte v1 (ram p1) k = vmo_byte v (ram p) k.
Proof.
  intros Hv Hw Ho Hr. unfold frame_for. destruct (slot_in v p off Hv Ho) as [[pa|] Hs]; rewrite Hs.
  - exists pa, v, p. split_and!; [done|by apply vmo_ext_refl|done|done].
  - unfold mbind, vm_bind. pose proof (Z.div_mod off 4096 ltac:(lia)) as Hd. pose proof (Z.mod_pos_bound off 4096 ltac:(lia)).
    replace (off - off mod 4096) with (off / 4096 * 4096) by lia.
    rewrite commit_page_eq by (done || lia). rewrite Z.div_mul, Hs by lia.
    pose proof (holes_fill v _ 0 Hs). pose proof (holes_range (set_slot (off / 4096) (Some 0) v)). unfold room in Hr.
    destruct (end_free p <=? next_free p) eqn:E; reflect; [lia|].
    exists (next_free p), (commit_next (off / 4096) v p), (alloc_next TVmoData p). split_and!; [done|by apply commit_next_ext| |].
    + cbn [commit_next own_page set_slot vo_slots]. by eapply at_set_z_eq.
    + intros k. by apply commit_next_bytes.
Qed.

(** ** The buffer *)

(** A buffer of the process with root [l0]: its bytes are in frames of its
    own, neither tables nor frames of the object. *)
Record buffer (p : Phys) (lv : Levels) (v : Vmo) (l0 va len : Z) : Prop := {
  bf_tree : tree_wf (ram p) lv l0 (next_free p);
  bf_data : forall i pa, at_z (vo_slots v) i = Some (Some pa) -> lv !! pa = None;
  bf_user : forall i, 0 <= i < len -> exists a, user_pa (ram p) l0 (va + i) = Some a /\ a < next_free p /\
    ~ in_pages v a /\ lv !! frame_of a = None
}.

Lemma table_apart v p lv l0 t r w :
  vmo_wf v p -> tree_wf (ram p) lv l0 (next_free p) -> (forall i pa, at_z (vo_slots v) i = Some (Some pa) -> lv !! pa = None) ->
  lv !! t = Some r -> t <= w < t + 4096 -> w < next_free p /\ ~ in_pages v w.
Proof.
  intros Hv Ht Hd Hl Hw. destruct (tw_table _ _ _ _ Ht t r Hl) as (_ & Hm & _ & Hn). split; [lia|].
  intros (i & pa & Hi & Hr). destruct (vw_page v p Hv i pa Hi) as (_ & _ & Hm'). pose proof (Hd i pa Hi) as Hnone.
  assert (pa = t) by (pose proof (Z.div_mod pa 4096 ltac:(lia)); pose proof (Z.div_mod t 4096 ltac:(lia)); lia). congruence.
Qed.

Lemma buffer_ext v p v' p' lv l0 va len :
  vmo_ext v p v' p' -> vmo_wf v p -> buffer p lv v l0 va len ->
  buffer p' lv v' l0 va len /\ forall va', translate_user_va (ram p') l0 va' = translate_user_va (ram p) l0 va'.
Proof.
  intros Hx Hv [Ht Hd Hu].
  destruct (tables_kept (ram p) (ram p') lv l0 (next_free p) Ht) as [Ht' Htr].
  { intros t r i Hl Hi. destruct (tw_table _ _ _ _ Ht t r Hl) as (_ & Hm & _ & Hn).
    unfold read_pte. destruct (table_apart v p lv l0 t r (t + 8 * i) Hv Ht Hd Hl ltac:(lia)).
    apply (ve_words _ _ _ _ Hx); [|done|done]. pose proof (Z.div_mod t 4096 ltac:(lia)) as Hd'. rewrite Hm in Hd'.
    replace (t + 8 * i) with ((512 * (t / 4096) + i) * 8) by lia. by apply Z.mod_mul. }
  pose proof (ve_next _ _ _ _ Hx) as Hn. split; [|exact Htr]. constructor.
  - by apply (tree_wf_mono _ _ _ (next_free p)).
  - intros i pa Hi. destruct (ve_new _ _ _ _ Hx i pa Hi) as [Hi'|Hge]; [by eapply Hd|].
    destruct (lv !! pa) eqn:Hl; [|done]. destruct (tw_table _ _ _ _ Ht pa n Hl) as (_ & _ & _ & ?). lia.
  - intros i Hi. destruct (Hu i Hi) as (a & Ha & Hlt & Hno & Hf). exists a. split_and!; [|lia| |done].
    + unfold user_pa. by rewrite Htr.
    + intros (j & pa & Hj & Hr). destruct (ve_new _ _ _ _ Hx j pa Hj) as [Hj'|Hge]; [|lia]. apply Hno. by exists j, pa.
Qed.

Lemma buffer_rest p lv v l0 va len c : 0 <= c -> buffer p lv v l0 va len -> buffer p lv v l0 (va + c) (len - c).
Proof.
  intros Hc [Ht Hd Hu]. constructor; [done|done|]. intros i Hi. rewrite <- Z.add_assoc. apply Hu. lia.
Qed.

(** The first byte of a buffer gives those of its page. *)
Lemma buffer_page p lv v l0 va len :
  buffer p lv v l0 va len -> 0 < len ->
  exists pa, translate_user_va (ram p) l0 (u64w va) = Some pa /\
    forall i, 0 <= i -> va mod 4096 + i < 4096 -> user_pa (ram p) l0 (va + i) = Some (pa + i).
Proof.
  intros Hb Hl. destruct (bf_user _ _ _ _ _ _ Hb 0 ltac:(lia)) as (pa & Hpa & _). rewrite Z.add_0_r in Hpa.
  exists pa. split; [exact Hpa|]. intros i Hi Hp. rewrite <- (Z.add_0_l i), <- user_pa_shift, Z.add_0_r, Z.add_0_l.
  apply user_pa_page; [apply u64w_range|exact Hpa|]. rewrite u64w_page. lia.
Qed.

Lemma buffer_copy p lv v l0 va len pa n :
  buffer p lv v l0 va len -> 0 < len -> translate_user_va (ram p) l0 (u64w va) = Some pa ->
  va mod 4096 + Z.of_nat n <= 4096 -> user_bytes (ram p) l0 va n = Some (copy_from (ram p) pa n).
Proof.
  intros Hb Hl Hpa Hn. destruct (buffer_page _ _ _ _ _ _ Hb Hl) as (pa' & Hpa' & Hall). assert (pa' = pa) as -> by congruence.
  apply user_bytes_Some; [apply length_copy_from|]. intros i Hi. exists (pa + Z.of_nat i). split; [apply Hall; lia|].
  unfold copy_from. by rewrite list_lookup_fmap, lookup_seq_lt.
Qed.

(** ** From the buffer into the object *)

(** The bytes of a buffer do not change with the object. *)
Lemma buffer_bytes v p v' p' lv l0 va n :
  vmo_ext v p v' p' -> vmo_wf v p -> buffer p lv v l0 va (Z.of_nat n) -> user_bytes (ram p') l0 va n = user_bytes (ram p) l0 va n.
Proof.
  intros Hx Hv Hb. destruct (buffer_ext _ _ _ _ _ _ _ _ Hx Hv Hb) as [_ Htr].
  destruct (user_bytes (ram p) l0 va n) as [bs|] eqn:E.
  2: { apply user_bytes_None in E as (i & Hi & Hn). destruct (bf_user _ _ _ _ _ _ Hb i Hi) as (a & Ha & _). congruence. }
  revert va bs Hb E. induction n as [|n IH]; intros va bs Hb E; [done|]. cbn [user_bytes] in *.
  apply bind_Some in E as (pa & Hpa & (bs' & Hbs & [= <-])%bind_Some). unfold user_pa in *. rewrite Htr, Hpa. cbn [mbind option_bind].
  destruct (bf_user _ _ _ _ _ _ Hb 0 ltac:(lia)) as (a & Ha & Hlt & Hno & _). rewrite Z.add_0_r in Ha.
  unfold user_pa in Ha. rewrite Hpa in Ha. injection Ha as <-. rewrite (ve_frame _ _ _ _ Hx pa Hlt Hno).
  rewrite (IH (va + 1) bs'); [done| |done].
  pose proof (buffer_rest _ _ _ _ _ _ 1 ltac:(lia) Hb) as Hr. by replace (Z.of_nat n) with (Z.of_nat (S n) - 1) by lia.
Qed.

Lemma transfer_in_ok fuel lv l0 off va len copied v p bs :
  vmo_wf v p -> phys_wf p -> room p (holes v) -> 0 <= off -> off + len <= vo_size v -> 0 <= copied <= len ->
  buffer p lv v l0 (va + copied) (len - copied) ->
  user_bytes (ram p) l0 (va + copied) (Z.to_nat (len - copied)) = Some bs ->
  (1 <= fuel)%nat -> copied = len \/ 2 + rounds_left (off + copied) (va + copied) (len - copied) <= Z.of_nat fuel ->
  exists v' p', transfer move_in fuel l0 off va len copied v p = Some (Ok len, v', p') /\ vmo_ext v p v' p' /\
    written v (ram p) v' (ram p') (off + copied) bs (len - copied).
Proof.
  revert copied v p bs. induction fuel as [|fuel IH]; intros copied v p bs Hv Hw Hroom Ho Hsz Hc Hbuf Hbs Hf1 Hf; [lia|].
  cbn [transfer]. destruct (Z.ltb_spec copied len) as [Hlt|Hge].
  2: { assert (copied = len) as -> by lia. exists v, p. split_and!; [done|by apply vmo_ext_refl|].
       intros k. rewrite Z.sub_diag, Z.add_0_r. destruct (Z.leb_spec (off + len) k), (Z.ltb_spec k (off + len)); done || lia. }
  destruct Hf as [->|Hf]; [lia|]. destruct (buffer_page _ _ _ _ _ _ Hbuf ltac:(lia)) as (pa & Hpa & _). rewrite Hpa.
  destruct (frame_for_ok v p (off + copied) Hv Hw ltac:(lia) Hroom) as (vpa & v1 & p1 & -> & Hx & Hs & Hsame).
  destruct (chunk_round (off + copied) (va + copied) (len - copied) ltac:(lia)) as (Hc1 & Hc2 & Hc3 & Hc4).
  set (chunk := Z.min (Z.min _ _) (len - copied)) in *. cbn zeta. unfold move_in.
  pose proof (ve_wf _ _ _ _ Hx) as Hv1. pose proof (ve_phys _ _ _ _ Hx) as Hw1.
  destruct (buffer_ext _ _ _ _ _ _ _ _ Hx Hv Hbuf) as [Hbuf1 Htr1].
  set (b1 := copy_from (ram p1) pa (Z.to_nat chunk)).
  assert (Hl1 : Z.of_nat (length b1) = chunk) by (unfold b1; rewrite length_copy_from; lia).
  assert (Hb1 : Forall is_byte b1) by (apply Forall_forall; intros b (x & -> & _)%list_elem_of_fmap; apply byte_of_range).
  pose proof (Z.mod_pos_bound (off + copied) 4096 ltac:(lia)) as Hmb. pose proof (Z.div_mod (off + copied) 4096 ltac:(lia)) as Hdm.
  set (p2 := with_ram p1 _).
  assert (Hst : vmo_ext v1 p1 v1 p2) by (apply (store_ext v1 p1 ((off + copied) / 4096)); done || lia).
  pose proof (vmo_ext_trans _ _ _ _ _ _ Hx Hst) as Hx2. destruct (buffer_ext _ _ _ _ _ _ _ _ Hx2 Hv Hbuf) as [Hbuf2 _].
  assert (Hn : Z.to_nat (len - copied) = (Z.to_nat chunk + Z.to_nat (len - (copied + chunk)))%nat) by lia.
  pose proof Hbs as Hsplit. rewrite Hn, user_bytes_app in Hsplit. apply bind_Some in Hsplit as (x & Hx1 & (y & Hy & [= <-])%bind_Some).
  assert (Hxb : x = b1).
  { pose proof (buffer_copy _ _ _ _ _ _ pa (Z.to_nat chunk) Hbuf1 ltac:(lia)) as Hcp. rewrite Htr1 in Hcp. specialize (Hcp Hpa ltac:(lia)).
    rewrite (buffer_bytes v p v1 p1 lv) in Hcp; [|done|done|].
    - rewrite Hx1 in Hcp. by injection Hcp.
    - destruct Hbuf as [B1 B2 B3]. constructor; [done|done|]. intros i Hi. apply B3. lia. }
  subst x. rewrite Z2Nat.id in Hy by lia. rewrite <- Z.add_assoc in Hy.
  destruct (IH (copied + chunk) v1 p2 y) as (v3 & p3 & Hrun & Hx3 & Hwr); try done; try lia.
  { apply Hst. }
  { apply Hst. }
  { by apply (room_kept v p). }
  { rewrite (ext_size _ _ _ _ Hx Hv). lia. }
  { pose proof (buffer_rest _ _ _ _ _ _ chunk ltac:(lia) Hbuf2) as H. rewrite <- Z.add_assoc in H.
    by replace (len - (copied + chunk)) with (len - copied - chunk) by lia. }
  { rewrite (buffer_bytes v p v1 p2 lv); [done|done|done|]. rewrite Z2Nat.id by lia.
    pose proof (buffer_rest _ _ _ _ _ _ chunk ltac:(lia) Hbuf) as H. rewrite <- Z.add_assoc in H.
    by replace (len - (copied + chunk)) with (len - copied - chunk) by lia. }
  { pose proof (rounds_nonneg (off + copied) (va + copied) (len - copied)). lia. }
  { destruct Hc4 as [Hc4|Hc4]; [left; lia|right]. rewrite !Z.add_assoc. replace (len - (copied + chunk)) with (len - copied - chunk) by lia. lia. }
  exists v3, p3. split; [exact Hrun|]. split; [by eapply vmo_ext_trans|].
  replace (len - copied) with (chunk + (len - (copied + chunk))) by lia.
  apply (written_app _ _ v1 (ram p2)); [rewrite length_app; lia|lia| |].
  - rewrite take_app_length' by lia. intros k. unfold p2. cbn [with_ram ram].
    rewrite (store_bytes v1 p1 ((off + copied) / 4096)), Hl1, <- Hdm, Hsame by (done || lia). done.
  - rewrite drop_app_length' by lia. by rewrite <- Z.add_assoc.
Qed.

(** ** From the object into the buffer *)

(** What copying [bs] into the buffer at [va] leaves. *)
Record filled (v : Vmo) (p : Phys) (v' : Vmo) (p' : Phys) (l0 va : Z) (bs : list Z) : Prop := {
  fi_wf : vmo_wf v' p';
  fi_phys : phys_wf p';
  fi_room : room p (holes v) -> room p' (holes v');
  fi_same : same_object v p v' p';
  fi_map : forall va', translate_user_va (ram p') l0 va' = translate_user_va (ram p) l0 va';
  fi_frame : forall a, a < next_free p -> (forall i, 0 <= i < Z.of_nat (length bs) -> user_pa (ram p) l0 (va + i) <> Some a) ->
    byte_at (ram p') a = byte_at (ram p) a;
  fi_all : one_to_one (ram p) l0 va (Z.of_nat (length bs)) ->
    forall i a, 0 <= i < Z.of_nat (length bs) -> user_pa (ram p) l0 (va + i) = Some a -> byte_at (ram p') a = nth (Z.to_nat i) bs 0
}.

Lemma filled_nil v p l0 va : vmo_wf v p -> phys_wf p -> filled v p v p l0 va [].
Proof.
  intros Hv Hw. constructor; try done; [apply same_refl|]. intros _ i a Hi. cbn [length] in Hi. lia.
Qed.

(** Committing a frame changes no byte below the cursor. *)
Lemma ext_bytes v p v' p' a :
  vmo_ext v p v' p' -> (forall k, vmo_byte v' (ram p') k = vmo_byte v (ram p) k) -> vmo_wf v p -> a < next_free p ->
  byte_at (ram p') a = byte_at (ram p) a.
Proof.
  intros Hx Hb Hv Ha.
  set (covers := fun o => match o with Some pa => (pa <=? a) && (a <? pa + 4096) | None => false end).
  destruct (decide (Exists (fun o => covers o = true) (vo_slots v))) as [Hin|Hout].
  - apply Exists_exists in Hin as ([pa|] & Ho & Hr); [|done]. cbn [covers] in Hr. reflect. apply list_elem_of_lookup in Ho as [i Hi].
    assert (Hs : at_z (vo_slots v) (Z.of_nat i) = Some (Some pa)).
    { unfold at_z. destruct (Z.leb_spec 0 (Z.of_nat i)); [|lia]. by rewrite Nat2Z.id. }
    specialize (Hb (4096 * Z.of_nat i + (a - pa))). unfold vmo_byte in Hb.
    destruct (page_index (Z.of_nat i) (a - pa) ltac:(lia)) as [-> ->] in Hb. rewrite Hs, (ve_kept _ _ _ _ Hx _ _ Hs) in Hb.
    by replace (pa + (a - pa)) with a in Hb by lia.
  - apply (ve_frame _ _ _ _ Hx); [done|]. intros (i & pa & Hi & Hr). apply Hout, Exists_exists.
    exists (Some pa). split; [apply at_z_Some in Hi as [_ Hi]; by eapply list_elem_of_lookup_2|].
    cbn [covers]. apply andb_true_iff. rewrite Z.leb_le, Z.ltb_lt. lia.
Qed.

(** Storing within one page of the buffer. *)
Lemma store_step v p lv l0 va len pa bs :
  vmo_wf v p -> phys_wf p -> buffer p lv v l0 va len -> 0 < len -> translate_user_va (ram p) l0 (u64w va) = Some pa ->
  Forall is_byte bs -> va mod 4096 + Z.of_nat (length bs) <= 4096 -> Z.of_nat (length bs) <= len ->
  let p' := with_ram p (copy_to (ram p) pa bs) in
  filled v p v p' l0 va bs /\ buffer p' lv v l0 va len.
Proof.
  intros Hv Hw Hb Hl Hpa Hbs Hp Hle p'. destruct (buffer_page _ _ _ _ _ _ Hb Hl) as (pa' & Hpa' & Hall).
  assert (pa' = pa) as -> by congruence. destruct Hb as [Ht Hd Hu].
  assert (Hfr : forall i, 0 <= i < Z.of_nat (length bs) -> pa + i < next_free p /\ ~ in_pages v (pa + i) /\ lv !! frame_of (pa + i) = None).
  { intros i Hi. destruct (Hu i ltac:(lia)) as (a & Ha & H1 & H2 & H3). rewrite Hall in Ha by lia. by injection Ha as <-. }
  destruct (store_tables (ram p) lv l0 (next_free p) (u64w va) pa bs Ht (u64w_range va)) as [Ht' Htr]; [|exact Hpa|rewrite u64w_page; lia|].
  { intros i a t r Hi Ha Hlv. assert (Ha' : user_pa (ram p) l0 (va + i) = Some a).
    { rewrite <- Ha. unfold user_pa, u64w. by rewrite Zplus_mod_idemp_l. }
    destruct (Hu i ltac:(lia)) as (a' & Ha2 & _ & _ & Hf). assert (a' = a) as -> by congruence.
    destruct (tw_table _ _ _ _ Ht t r Hlv) as (_ & Hm & _). destruct (frame_aligned a) as [Hfm Hfa].
    destruct (decide (frame_of a = t)) as [He|Hne]; [congruence|].
    pose proof (Z.div_mod (frame_of a) 4096 ltac:(lia)). pose proof (Z.div_mod t 4096 ltac:(lia)). lia. }
  assert (Hbyte : forall a, byte_at (ram p') a = if (pa <=? a) && (a <? pa + Z.of_nat (length bs)) then nth (Z.to_nat (a - pa)) bs 0 else byte_at (ram p) a).
  { intros a. by apply byte_copy. }
  assert (Hout : forall a, (forall i, 0 <= i < Z.of_nat (length bs) -> a <> pa + i) -> byte_at (ram p') a = byte_at (ram p) a).
  { intros a Ha. rewrite Hbyte. case_match eqn:E; [reflect|done]. destruct (Ha (a - pa)); lia. }
  split; [constructor|constructor].
  - by destruct Hv.
  - by destruct Hw.
  - done.
  - constructor; [done|done|done|by left|done|]. intros k. unfold vmo_byte.
    destruct (at_z (vo_slots v) (k / 4096)) as [[pg|]|] eqn:E; [|done..]. apply Hout. intros i Hi Heq.
    destruct (Hfr i Hi) as (_ & Hno & _). apply Hno. rewrite <- Heq. exists (k / 4096), pg. split; [done|].
    pose proof (Z.mod_pos_bound k 4096 ltac:(lia)). lia.
  - exact Htr.
  - intros a _ Ha. apply Hout. intros i Hi ->. apply (Ha i Hi). apply Hall; lia.
  - intros _ i a Hi Ha. rewrite Hall in Ha by lia. injection Ha as <-. rewrite Hbyte.
    destruct (Z.leb_spec pa (pa + i)), (Z.ltb_spec (pa + i) (pa + Z.of_nat (length bs))); try lia. cbn [andb]. do 2 f_equal. lia.
  - exact Ht'.
  - exact Hd.
  - intros i Hi. destruct (Hu i Hi) as (a & Ha & Hrest). exists a. split; [|exact Hrest]. unfold user_pa. by rewrite Htr.
Qed.

Lemma same_ext v p v' p' :
  vmo_ext v p v' p' -> (forall k, vmo_byte v' (ram p') k = vmo_byte v (ram p) k) -> same_object v p v' p'.
Proof. intros Hx Hb. constructor; [apply Hx|apply Hx|apply Hx|apply Hx|apply Hx|exact Hb]. Qed.

Lemma content_same v p v' p' off n : same_object v p v' p' -> content v' (ram p') off n = content v (ram p) off n.
Proof. intros Hs. unfold content. apply map_ext. intros i. apply (so_bytes _ _ _ _ Hs). Qed.

(** A frame committed first, a first page and the rest. *)
Lemma filled_app v p v1 p1 p2 v3 p3 lv l0 va len b1 b2 :
  vmo_wf v p -> buffer p lv v l0 va len -> Z.of_nat (length (b1 ++ b2)) <= len -> vmo_ext v p v1 p1 ->
  (forall k, vmo_byte v1 (ram p1) k = vmo_byte v (ram p) k) ->
  filled v1 p1 v1 p2 l0 va b1 -> filled v1 p2 v3 p3 l0 (va + Z.of_nat (length b1)) b2 ->
  filled v p v3 p3 l0 va (b1 ++ b2).
Proof.
  intros Hv Hbuf Hlen Hx Hb H1 H2. destruct (buffer_ext _ _ _ _ _ _ _ _ Hx Hv Hbuf) as [Hbuf1 Htr].
  pose proof (ve_next _ _ _ _ Hx) as Hnx. pose proof (so_next _ _ _ _ (fi_same _ _ _ _ _ _ _ H1)) as Hnx1.
  assert (Hu1 : forall i, user_pa (ram p1) l0 (va + i) = user_pa (ram p) l0 (va + i)) by (intros i; apply Htr).
  assert (Hu2 : forall i, user_pa (ram p2) l0 (va + i) = user_pa (ram p) l0 (va + i)).
  { intros i. rewrite <- Hu1. apply (fi_map _ _ _ _ _ _ _ H1). }
  rewrite length_app in *.
  constructor.
  - apply H2.
  - apply H2.
  - intros Hr. apply H2, H1. by apply (room_kept v p).
  - eapply same_trans; [by apply same_ext|]. eapply same_trans; [apply H1|apply H2].
  - intros va'. by rewrite (fi_map _ _ _ _ _ _ _ H2), (fi_map _ _ _ _ _ _ _ H1).
  - intros a Ha Hn. rewrite length_app in Hn. rewrite (fi_frame _ _ _ _ _ _ _ H2), (fi_frame _ _ _ _ _ _ _ H1).
    + by apply (ext_bytes v p v1).
    + lia.
    + intros i Hi. rewrite Hu1. apply Hn. lia.
    + lia.
    + intros i Hi. rewrite <- Z.add_assoc, Hu2. apply Hn. lia.
  - intros Hinj i a Hi Ha. rewrite length_app in Hinj, Hi. destruct (bf_user _ _ _ _ _ _ Hbuf i ltac:(lia)) as (a' & Ha' & Hlt & _).
    assert (a' = a) as -> by congruence. destruct (decide (i < Z.of_nat (length b1))) as [Hin|Hin].
    + rewrite (fi_frame _ _ _ _ _ _ _ H2).
      * rewrite (fi_all _ _ _ _ _ _ _ H1) with (i := i); [rewrite app_nth1 by lia; done| |lia|by rewrite Hu1].
        intros x y b Hx' Hy'. rewrite !Hu1. apply Hinj; lia.
      * lia.
      * intros k Hk. rewrite <- Z.add_assoc, Hu2. intros Hk'.
        specialize (Hinj i (Z.of_nat (length b1) + k) a ltac:(lia) ltac:(lia) Ha Hk'). lia.
    + rewrite (fi_all _ _ _ _ _ _ _ H2) with (i := i - Z.of_nat (length b1)).
      * rewrite app_nth2 by lia. f_equal. lia.
      * intros x y b Hx' Hy'. rewrite <- !Z.add_assoc, !Hu2. intros Hxa Hya.
        specialize (Hinj (Z.of_nat (length b1) + x) (Z.of_nat (length b1) + y) b ltac:(lia) ltac:(lia) Hxa Hya). lia.
      * lia.
      * rewrite <- Z.add_assoc, Hu2. by replace (Z.of_nat (length b1) + (i - Z.of_nat (length b1))) with i by lia.
Qed.

Lemma transfer_out_ok fuel lv l0 off va len copied v p :
  vmo_wf v p -> phys_wf p -> room p (holes v) -> 0 <= off -> off + len <= vo_size v -> 0 <= copied <= len ->
  buffer p lv v l0 (va + copied) (len - copied) ->
  (1 <= fuel)%nat -> copied = len \/ 2 + rounds_left (off + copied) (va + copied) (len - copied) <= Z.of_nat fuel ->
  exists v' p', transfer move_out fuel l0 off va len copied v p = Some (Ok len, v', p') /\
    filled v p v' p' l0 (va + copied) (content v (ram p) (off + copied) (Z.to_nat (len - copied))).
Proof.
  revert copied v p. induction fuel as [|fuel IH]; intros copied v p Hv Hw Hroom Ho Hsz Hc Hbuf Hf1 Hf; [lia|].
  cbn [transfer]. destruct (Z.ltb_spec copied len) as [Hlt|Hge].
  2: { assert (copied = len) as -> by lia. exists v, p. split; [done|]. rewrite Z.sub_diag. by apply filled_nil. }
  destruct Hf as [->|Hf]; [lia|]. destruct (buffer_page _ _ _ _ _ _ Hbuf ltac:(lia)) as (pa & Hpa & _). rewrite Hpa.
  destruct (frame_for_ok v p (off + copied) Hv Hw ltac:(lia) Hroom) as (vpa & v1 & p1 & -> & Hx & Hs & Hsame).
  destruct (chunk_round (off + copied) (va + copied) (len - copied) ltac:(lia)) as (Hc1 & Hc2 & Hc3 & Hc4).
  set (chunk := Z.min (Z.min _ _) (len - copied)) in *. cbn zeta. unfold move_out.
  pose proof (ve_wf _ _ _ _ Hx) as Hv1. pose proof (ve_phys _ _ _ _ Hx) as Hw1.
  destruct (buffer_ext _ _ _ _ _ _ _ _ Hx Hv Hbuf) as [Hbuf1 Htr1].
  pose proof (Z.mod_pos_bound (off + copied) 4096 ltac:(lia)) as Hmb. pose proof (Z.div_mod (off + copied) 4096 ltac:(lia)) as Hdm.
  set (b1 := copy_from (ram p1) (vpa + (off + copied) mod 4096) (Z.to_nat chunk)).
  assert (Hl1 : Z.of_nat (length b1) = chunk) by (unfold b1; rewrite length_copy_from; lia).
  assert (Hcb : content v (ram p) (off + copied) (Z.to_nat chunk) = b1).
  { rewrite <- (content_same v p v1 p1) by by apply same_ext. unfold b1.
    by rewrite <- (content_page v1 (ram p1) ((off + copied) / 4096) ((off + copied) mod 4096) _ _ Hs), <- Hdm by lia. }
  assert (Hb1 : Forall is_byte b1) by (rewrite <- Hcb; apply content_bytes).
  rewrite <- Htr1 in Hpa. destruct (store_step v1 p1 lv l0 (va + copied) (len - copied) pa b1 Hv1 Hw1 Hbuf1 ltac:(lia) Hpa Hb1) as [Hfill Hbuf2]; [lia|lia|].
  set (p2 := with_ram p1 _) in *.
  destruct (IH (copied + chunk) v1 p2) as (v3 & p3 & Hrun & Hfill3); [apply Hfill|apply Hfill| |lia| |lia| | | |].
  { apply Hfill. by apply (room_kept v p). }
  { rewrite (ext_size _ _ _ _ Hx Hv). lia. }
  { pose proof (buffer_rest _ _ _ _ _ _ chunk ltac:(lia) Hbuf2) as H. rewrite <- Z.add_assoc in H.
    by replace (len - (copied + chunk)) with (len - copied - chunk) by lia. }
  { pose proof (rounds_nonneg (off + copied) (va + copied) (len - copied)). lia. }
  { destruct Hc4 as [Hc4|Hc4]; [left; lia|right]. rewrite !Z.add_assoc. replace (len - (copied + chunk)) with (len - copied - chunk) by lia. lia. }
  exists v3, p3. split; [exact Hrun|].
  replace (Z.to_nat (len - copied)) with (Z.to_nat chunk + Z.to_nat (len - (copied + chunk)))%nat by lia.
  rewrite content_app, Hcb, Z2Nat.id by lia.
  apply (filled_app v p v1 p1 p2 v3 p3 lv l0 _ (len - copied)); try done.
  - rewrite length_app, length_content. lia.
  - rewrite Hl1, <- (content_same v p v1 p2), <- !Z.add_assoc; [exact Hfill3|].
    eapply same_trans; [by apply same_ext|apply Hfill].
Qed.

(** ** The calls *)
Lemma with_vmo_ok {A} s hv need j rights v (f : Vmo -> Phys -> option (kresult A * Vmo * Phys)) (a : A) v' p' :
  names (ms_table s) hv need j rights (KVmo v) -> f v (ms_phys s) = Some (Ok a, v', p') ->
  with_vmo hv need f s = Some (Ok a, ms_set_phys (ms_set_table s (<[j := Some (mkSlot hv rights (KVmo v'))]> (ms_table s))) p').
Proof. intros Hh Hf. unfold with_vmo, ht_with_vmo. rewrite (with_named _ _ _ _ _ _ _ Hh), Hf. done. Qed.

(** The state once the object in slot [j] is [v'] and the memory [p']. *)
Definition with_object (s : MemState) (j : nat) (hv rights : Z) (v' : Vmo) (p' : Phys) : MemState :=
  ms_set_phys (ms_set_table s (<[j := Some (mkSlot hv rights (KVmo v'))]> (ms_table s))) p'.

Lemma caller_l0_ok s i proc : caller (ms_kern s) = Ok (i, proc) -> caller_l0 s = Some (Ok (pt_l0_pa (pr_page_table proc)), s).
Proof. intros Hc. unfold caller_l0, mc_get. by rewrite Hc. Qed.

Lemma transfer_all_eq move l0 off va len v p :
  0 < len -> off + len <= vo_size v -> transfer_all move l0 off va len v p = transfer move (transfer_fuel len) l0 off va len 0 v p.
Proof.
  intros Hl Hs. unfold transfer_all. destruct (Z.leb_spec (vo_size v) off); [lia|]. by rewrite Z.min_l by lia.
Qed.

Section one_call.
Context (s : MemState) (i : nat) (proc : Process) (hv : Z) (j : nat) (rights : Z) (v : Vmo) (lv : Levels) (off va : Z) (n : nat).
Context (Hc : caller (ms_kern s) = Ok (i, proc)) (Hv : vmo_wf v (ms_phys s)) (Hw : phys_wf (ms_phys s)).
Context (Hroom : room (ms_phys s) (holes v)) (Hn : (0 < n)%nat) (Ho : 0 <= off) (Hfit : off + Z.of_nat n <= vo_size v).
Context (Hbuf : buffer (ms_phys s) lv v (pt_l0_pa (pr_page_table proc)) va (Z.of_nat n)).

Lemma sys_vmo_write_ok bs :
  names (ms_table s) hv RIGHT_WRITE j rights (KVmo v) ->
  user_bytes (ram (ms_phys s)) (pt_l0_pa (pr_page_table proc)) va n = Some bs -> length bs = n ->
  exists v1 p1, sys_vmo_write hv off va (Z.of_nat n) s = Some (Ok (Z.of_nat n), with_object s j hv rights v1 p1) /\
    vmo_ext v (ms_phys s) v1 p1 /\ content v1 (ram p1) off n = bs.
Proof.
  intros Hh Hbs Hlen. pose proof (transfer_fuel_ok (off + 0) (va + 0) (Z.of_nat n) ltac:(lia)) as Hf.
  pose proof (rounds_nonneg (off + 0) (va + 0) (Z.of_nat n) ltac:(lia)).
  destruct (transfer_in_ok (transfer_fuel (Z.of_nat n)) lv (pt_l0_pa (pr_page_table proc)) off va (Z.of_nat n) 0 v (ms_phys s) bs)
    as (v1 & p1 & Hrun & Hx & Hwt); rewrite ?Z.add_0_r, ?Z.sub_0_r, ?Nat2Z.id in *; try done; try lia.
  exists v1, p1. split; [|split; [done|]].
  - unfold sys_vmo_write, mbind, mc_bind. rewrite (caller_l0_ok _ _ _ Hc). apply (with_vmo_ok s hv RIGHT_WRITE j rights v); [done|].
    by rewrite transfer_all_eq by lia.
  - rewrite (content_written v (ram (ms_phys s)) v1 (ram p1) off bs n Hwt) by lia. apply take_ge. lia.
Qed.

Lemma sys_vmo_read_ok :
  names (ms_table s) hv RIGHT_READ j rights (KVmo v) ->
  exists v1 p1, sys_vmo_read hv off va (Z.of_nat n) s = Some (Ok (Z.of_nat n), with_object s j hv rights v1 p1) /\
    filled v (ms_phys s) v1 p1 (pt_l0_pa (pr_page_table proc)) va (content v (ram (ms_phys s)) off n).
Proof.
  intros Hh. pose proof (transfer_fuel_ok (off + 0) (va + 0) (Z.of_nat n) ltac:(lia)) as Hf.
  pose proof (rounds_nonneg (off + 0) (va + 0) (Z.of_nat n) ltac:(lia)).
  destruct (transfer_out_ok (transfer_fuel (Z.of_nat n)) lv (pt_l0_pa (pr_page_table proc)) off va (Z.of_nat n) 0 v (ms_phys s))
    as (v1 & p1 & Hrun & Hfill); rewrite ?Z.add_0_r, ?Z.sub_0_r, ?Nat2Z.id in *; try done; try lia.
  exists v1, p1. split; [|done]. unfold sys_vmo_read, mbind, mc_bind. rewrite (caller_l0_ok _ _ _ Hc).
  apply (with_vmo_ok s hv RIGHT_READ j rights v); [done|]. by rewrite transfer_all_eq by lia.
Qed.
End one_call.

(** What a filled buffer shows. *)
Lemma filled_bytes p lv v l0 va v1 p1 bs :
  buffer p lv v l0 va (Z.of_nat (length bs)) -> filled v p v1 p1 l0 va bs ->
  one_to_one (ram p) l0 va (Z.of_nat (length bs)) -> user_bytes (ram p1) l0 va (length bs) = Some bs.
Proof.
  intros Hbuf Hf Hone. apply user_bytes_Some; [done|]. intros k Hk.
  destruct (bf_user _ _ _ _ _ _ Hbuf (Z.of_nat k) ltac:(lia)) as (a & Ha & _). exists a. split.
  - unfold user_pa. rewrite (fi_map _ _ _ _ _ _ _ Hf). exact Ha.
  - rewrite (fi_all _ _ _ _ _ _ _ Hf Hone (Z.of_nat k) a) by (done || lia). rewrite Nat2Z.id.
    destruct (nth_lookup_or_length bs k 0); [done|lia].
Qed.

Section round_trip.
Context (s : MemState) (i : nat) (proc : Process) (hv : Z) (j : nat) (rights : Z) (v : Vmo) (lv : Levels).
Context (off src dst : Z) (bs : list Z).

Definition caller_root : Z := pt_l0_pa (pr_page_table proc).

(** The calling process has the bytes in one buffer and room in another, and
    a handle to an object with room for them. *)
Record exchange : Prop := {
  ex_caller : caller (ms_kern s) = Ok (i, proc);
  ex_read : names (ms_table s) hv RIGHT_READ j rights (KVmo v);
  ex_write : check_rights rights RIGHT_WRITE = true;
  ex_object : vmo_wf v (ms_phys s);
  ex_phys : phys_wf (ms_phys s);
  ex_frames : room (ms_phys s) (holes v);
  ex_fits : bs <> [] /\ 0 <= off /\ off + Z.of_nat (length bs) <= vo_size v;
  ex_src : buffer (ms_phys s) lv v caller_root src (Z.of_nat (length bs));
  ex_bytes : user_bytes (ram (ms_phys s)) caller_root src (length bs) = Some bs;
  ex_dst : buffer (ms_phys s) lv v caller_root dst (Z.of_nat (length bs));
  ex_once : one_to_one (ram (ms_phys s)) caller_root dst (Z.of_nat (length bs))
}.

(** What a program writes into a memory object it reads back.
    [sys_vmo_write] from one buffer and [sys_vmo_read] into another, at any
    offset and whatever pages of the object are committed: both return the
    number of bytes and the second buffer holds them; the address space of
    the program stays as it was. *)
Theorem vmo_calls_round_trip :
  exchange ->
  let len := Z.of_nat (length bs) in
  exists s1 s2, sys_vmo_write hv off src len s = Some (Ok len, s1) /\ sys_vmo_read hv off dst len s1 = Some (Ok len, s2) /\
    user_bytes (ram (ms_phys s2)) caller_root dst (length bs) = Some bs /\
    kn_procs (ms_kern s2) = kn_procs (ms_kern s) /\
    forall va, translate_user_va (ram (ms_phys s2)) caller_root va = translate_user_va (ram (ms_phys s)) caller_root va.
Proof.
  intros [Hcl Hrd Hwr Hv Hw Hroom (Hne & Ho & Hfit) Hsrc Hbs Hdst Honce] len.
  assert (Hpos : (0 < length bs)%nat) by (destruct bs; [done|cbn [length]; lia]).
  assert (Hwh : names (ms_table s) hv RIGHT_WRITE j rights (KVmo v)) by (destruct Hrd as (? & ? & _); by split_and!).
  destruct (sys_vmo_write_ok s i proc hv j rights v lv off src (length bs) Hcl Hv Hw Hroom Hpos Ho Hfit Hsrc bs Hwh Hbs eq_refl)
    as (v1 & p1 & Hrun1 & Hx & Hcont).
  destruct (buffer_ext _ _ _ _ _ _ _ _ Hx Hv Hdst) as [Hdst1 Htr1]. set (s1 := with_object s j hv rights v1 p1) in *.
  assert (Hrd1 : names (ms_table s1) hv RIGHT_READ j rights (KVmo v1)).
  { pose proof (names_update _ _ _ _ _ _ _ _ _ _ _ (KVmo v1) Hrd Hrd) as Hnu. by rewrite decide_True in Hnu. }
  destruct (sys_vmo_read_ok s1 i proc hv j rights v1 lv off dst (length bs) Hcl (ve_wf _ _ _ _ Hx) (ve_phys _ _ _ _ Hx)
    (room_kept _ _ _ _ Hroom Hx) Hpos Ho ltac:(rewrite (ext_size _ _ _ _ Hx Hv); lia) Hdst1 Hrd1) as (v2 & p2 & Hrun2 & Hfill).
  change (ms_phys s1) with p1 in Hfill. rewrite Hcont in Hfill.
  exists s1, (with_object s1 j hv rights v2 p2). split; [exact Hrun1|]. split; [exact Hrun2|]. split; [|split; [done|]].
  - apply (filled_bytes p1 lv v1 caller_root dst v2 p2 bs Hdst1 Hfill). intros x y b Hx' Hy'. unfold user_pa. rewrite !Htr1. by apply Honce.
  - intros va. change (ms_phys (with_object _ _ _ _ _ _)) with p2. by rewrite (fi_map _ _ _ _ _ _ _ Hfill), Htr1.
Qed.
End round_trip.

(** ** Four bytes across a page boundary, through an empty object *)
Definition exchange_ram : Ram := <[0x5ff8 := 0x0201000000000000]> (<[0x6000 := 0x0403]> demo_ram).
Definition exchange_proc : Process := demo_proc 1 0 PRunning None dfl 0x1000.
Definition exchange_state : MemState :=
  mkMemState 1001 (Some (mkSlot 1000 READ_WRITE (KVmo pair_object)) :: replicate 11 None)
    (mkKern [Some exchange_proc; None; None; None; None; None; None; None] 2 asids_static (with_ram pair_phys exchange_ram)
       pipes_init [] 0 (Some 1)) 2.

Lemma exchange_buffer va : va = 0x1ffe \/ va = 0x1010 -> buffer (ms_phys exchange_state) demo_lv pair_object 0x1000 va 4.
Proof.
  assert (Hno : forall k pa, at_z [@None Z] k = Some (Some pa) -> False).
  { intros k pa [Hr Hk]%at_z_Some. cbn [length] in Hr. assert (k = 0) as -> by lia. discriminate Hk. }
  intros Hva. constructor.
  - apply demo_tree_over; [|cbn; lia]. intros a Ha. unfold ram_read. cbn [ms_phys exchange_state ms_kern kn_phys with_ram ram].
    unfold exchange_ram. by rewrite !lookup_insert_ne by lia.
  - intros k pa Hk. by apply Hno in Hk.
  - intros k Hk. assert (k = 0 \/ k = 1 \/ k = 2 \/ k = 3) as Hk4 by lia.
    destruct Hva as [-> | ->], Hk4 as [-> |[-> |[-> | ->]]]; eexists; (split; [vm_compute; reflexivity|]);
      (split; [vm_compute; reflexivity|]); (split; [by intros (x & pa & Hx%Hno & _)|vm_compute; reflexivity]).
Qed.

Lemma exchange_ok : exchange exchange_state 0 exchange_proc 1000 0 READ_WRITE pair_object demo_lv 6 0x1ffe 0x1010 [1; 2; 3; 4].
Proof.
  constructor.
  - reflexivity.
  - split_and!; reflexivity.
  - reflexivity.
  - destruct (pair_mappable 1 0x40000000 0x40004000 0) as [_ [[H1 H2 H3 H4 H5] _] _ _ _ _ _]; [by left|done|lia|unfold USER_SIZE; lia|].
    constructor; [done|done|done|exact H4|exact H5].
  - destruct pair_phys_wf. by constructor.
  - unfold room. vm_compute. congruence.
  - split; [done|]. cbn. lia.
  - apply exchange_buffer. by left.
  - vm_compute. reflexivity.
  - apply exchange_buffer. by right.
  - intros x y a Hx Hy. cbn [length] in Hx, Hy. rewrite !(Z.add_comm 0x1010).
    assert (x = 0 \/ x = 1 \/ x = 2 \/ x = 3) as Hx4 by lia. assert (y = 0 \/ y = 1 \/ y = 2 \/ y = 3) as Hy4 by lia.
    destruct Hx4 as [-> |[-> |[-> | ->]]], Hy4 as [-> |[-> |[-> | ->]]]; try reflexivity; vm_compute; intros [= <-] [=].
Qed.

Lemma vmo_calls_round_trip_witness :
  exists s1 s2, sys_vmo_write 1000 6 0x1ffe 4 exchange_state = Some (Ok 4, s1) /\ sys_vmo_read 1000 6 0x1010 4 s1 = Some (Ok 4, s2) /\
    user_bytes (ram (ms_phys s2)) 0x1000 0x1010 4 = Some [1; 2; 3; 4].
Proof.
  destruct (vmo_calls_round_trip exchange_state 0 exchange_proc 1000 0 READ_WRITE pair_object demo_lv 6 0x1ffe 0x1010 [1; 2; 3; 4] exchange_ok)
    as (s1 & s2 & H1 & H2 & H3 & _).
  exists s1, s2. split; [exact H1|]. split; [exact H2|exact H3].
Defined.
