(* ===== verification/IpcCalls.v ===== *)
(** * IpcCalls: channels as system calls

    kernel/src/syscall/handlers/ipc.rs and the handle calls of
    syscall/capability: a message goes from the writer's memory into a buffer
    on the writer's kernel stack, from there straight into the buffer on the
    reader's kernel stack (Channel.v), and from there into the reader's
    memory.  A call that gives up the processor is split there, as the
    operations of Channel.v are: [..._enter] up to [schedule], [..._leave]
    after it.

    The address [kbuf] of the buffer on the caller's kernel stack and the
    addresses of newly boxed channels are arguments.  The watch-point checks
    and the log are left out.  [None] is a panic, or following a pointer to
    what no longer exists. *)
From Stdlib Require Import ZArith Lia String.
From stdpp Require Import base tactics option list list_numbers gmap.
From S2P Require Import Prelude Shared Bytes Handles Ring Pipe Phys Thread Sched Port Registry Channel PageTable Vmar Mem Vmo UserCopy Asid Process.
Local Open Scope Z_scope.

(** ** State *)
Abbreviation Ipc := (@Channel.Ipc Vmo.Vmo Vmar.Vmar).

Record IpcWorld := mkIpcWorld { iw_ipc : Ipc; iw_kern : Kern; iw_services : Registry; iw_chan_id : Z }.

Definition IM (A : Type) : Type := IpcWorld -> option (kresult A * IpcWorld).

#[export] Instance im_ret : MRet IM := fun A a w => Some (Ok a, w).
#[export] Instance im_bind : MBind IM := fun A B f x w =>
  match x w with
  | None => None
  | Some (Err e, w') => Some (Err e, w')
  | Some (Ok a, w') => f a w'
  end.

Definition im_lift {A} (r : kresult A) : IM A := fun w => Some (r, w).
Definition im_err {A} (e : Status) : IM A := im_lift (Err e).

Definition set_ipc_part (w : IpcWorld) (i : Ipc) : IpcWorld :=
  mkIpcWorld i (iw_kern w) (iw_services w) (iw_chan_id w).

Definition on_ipc {A} (f : Ipc -> option (kresult A * Ipc)) : IM A := fun w =>
  match f (iw_ipc w) with Some (r, i) => Some (r, set_ipc_part w i) | None => None end.

(** Where a call is: answered, or off the processor in slot [c]. *)
Inductive progress (A : Type) : Type :=
| Answered (a : A)
| Waits (c : nat) (o : outcome).
Arguments Answered {A} a.
Arguments Waits {A} c o.

(** ** The caller's memory *)
Definition l0_of_kern (k : Kern) (pid : Z) : option (Z * Z) := find_process_l0_user_pa pid (kn_procs k).

(** The translation root of the process of the current thread, or 0. *)
Definition current_l0 (w : IpcWorld) : Z :=
  match get_current_thread_ptr (ip_sched (iw_ipc w)) ≫= thread_at (ip_sched (iw_ipc w)) with
  | Some t =>
      match find_process (t_process_id t) (kn_procs (iw_kern w)) with
      | Some (_, p) => pt_l0_pa (pr_page_table p)
      | None => 0
      end
  | None => 0
  end.

Definition caller_root : IM Z := fun w =>
  let l0_pa := current_l0 w in Some (if l0_pa =? 0 then Err InvalidArgs else Ok l0_pa, w).

Definition user_in (l0_pa va len : Z) : IM (list Z) := fun w =>
  match safe_copy_from_user (Process.kern_ram (iw_kern w)) l0_pa va len with
  | None => None
  | Some r => Some (r, w)
  end.

Definition user_out (l0_pa : Z) (bs : list Z) (va : Z) : IM unit := fun w =>
  match safe_copy_to_user (Process.kern_ram (iw_kern w)) l0_pa bs va with
  | None => None
  | Some (r, m) => Some (r, mkIpcWorld (iw_ipc w) (set_kern_ram (iw_kern w) m) (iw_services w) (iw_chan_id w))
  end.

(** The buffer on the kernel stack. *)
Fixpoint put_bytes (m : Bytes) (kbuf : Z) (bs : list Z) : Bytes :=
  match bs with
  | [] => m
  | b :: bs => put_bytes (<[kbuf := b]> m) (kbuf + 1) bs
  end.

Definition kernel_put (kbuf : Z) (bs : list Z) : IM unit :=
  on_ipc (fun i => Some (Ok tt, with_bytes i (put_bytes (ip_bytes i) kbuf bs))).

Definition kernel_get (m : Bytes) (kbuf : Z) (n : nat) : list Z :=
  map (fun k => default 0 (m !! (kbuf + Z.of_nat k))) (seq 0 n).

(** ** Handles *)

(** [table.with_channel(hv, rights, |c| c as *mut Channel)]. *)
Definition channel_of (ta : Z) (hv required : Z) : IM Z :=
  on_ipc (fun i =>
    t ← ip_tables i !! ta;
    let '(r, t') := ht_with_channel t hv required id in Some (r, with_table i ta (ip_counter i) t')).

(** [|c| c.peer = Some(peer)]. *)
Definition set_peer_of (ta : Z) (hv required peer : Z) : IM unit :=
  a ← channel_of ta hv required;
  on_ipc (fun i => c ← ip_chans i !! a; Some (Ok tt, with_chan i a (set_peer c (Some peer)))).

Definition READ_WRITE : Z := Z.lor RIGHT_READ RIGHT_WRITE.

(** [Channel::new]. *)
Definition new_channel : IM Channel := fun w =>
  let '(c, next) := channel_new (iw_chan_id w) in
  Some (Ok c, mkIpcWorld (iw_ipc w) (iw_kern w) (iw_services w) next).

(** [table.add(KernelObject::Channel(Box::new(chan)), rights)], the box at
    address [a]. *)
Definition add_channel (ta a : Z) (c : Channel) (rights : Z) : IM HandleValue :=
  on_ipc (fun i => table_add (with_chan i a c) ta (KChannel a) rights).

(** A pair of channels that are each other's peer, at the addresses [a0] and
    [a1].  A channel that is not boxed yet when the call fails has no peer and
    no waiters: dropping it does nothing. *)
Definition linked_pair (ta a0 a1 : Z) : IM (HandleValue * HandleValue) :=
  chan0 ← new_channel;
  chan1 ← new_channel;
  h0 ← add_channel ta a0 chan0 READ_WRITE;
  h1 ← add_channel ta a1 chan1 READ_WRITE;
  c0_ptr ← channel_of ta h0 READ_WRITE;
  c1_ptr ← channel_of ta h1 READ_WRITE;
  set_peer_of ta h0 READ_WRITE c1_ptr;;
  set_peer_of ta h1 READ_WRITE c0_ptr;;
  mret (h0, h1).

Definition sys_channel_create (ta a0 a1 : Z) : IM (HandleValue * HandleValue) := linked_pair ta a0 a1.

(** [table.duplicate_handle] and [table.close]; the object of a closed handle
    is dropped. *)
Definition sys_handle_duplicate (ta : Z) (handle rights : Z) : IM HandleValue :=
  on_ipc (fun i =>
    t ← ip_tables i !! ta;
    let '(r, c, t') := ht_duplicate_handle (ip_counter i) t handle rights in Some (r, with_table i ta c t')).

Definition sys_close (ta : Z) (handle : Z) : IM unit :=
  on_ipc (fun i =>
    t ← ip_tables i !! ta;
    let '(r, t') := ht_close t handle in
    let i1 := with_table i ta (ip_counter i) t' in
    match r with
    | Err e => Some (Err e, i1)
    | Ok o => i2 ← drop_object i1 o; Some (Ok tt, i2)
    end).

(** ** Reading and writing *)
Definition MSG_CAP : Z := 256.
Definition HANDLES_CAP : Z := 2.

(** [HandleValue]s as the [u32]s of the user's array, and back. *)
Definition handle_bytes (hs : list HandleValue) : list Z := mjoin (map (le 4) hs).

Fixpoint bytes_handles (n : nat) (bs : list Z) : list HandleValue :=
  match n with
  | O => []
  | S n => unle (take 4 bs) :: bytes_handles n (drop 4 bs)
  end.

(** [write] on the channel at [chan]. *)
Definition write_channel (chan kbuf : Z) (len : nat) (hs : list HandleValue) : IM (progress nat) := fun w =>
  match write_enter (l0_of_kern (iw_kern w)) (iw_ipc w) chan kbuf len hs with
  | None => None
  | Some (WriteDone (Ok n), i) => Some (Ok (Answered n), set_ipc_part w i)
  | Some (WriteDone (Err e), i) => Some (Err e, set_ipc_part w i)
  | Some (WriteBlocked c o, i) => Some (Ok (Waits c o), set_ipc_part w i)
  end.

Definition sys_channel_write_enter (ta kbuf handle_raw buf_ptr buf_len handles_ptr handles_len : Z) : IM (progress nat) :=
  l0_pa ← caller_root;
  let actual_len := Z.min buf_len MSG_CAP in
  bs ← user_in l0_pa buf_ptr actual_len;
  kernel_put kbuf bs;;
  let actual_h_len := Z.min handles_len HANDLES_CAP in
  hs ← (if (0 <? actual_h_len) && negb (handles_ptr =? 0) then
          raw ← user_in l0_pa handles_ptr (actual_h_len * 4);
          mret (bytes_handles (Z.to_nat actual_h_len) raw)
        else mret (replicate (Z.to_nat actual_h_len) 0));
  chan ← channel_of ta handle_raw RIGHT_WRITE;
  write_channel chan kbuf (Z.to_nat actual_len) hs.

Definition sys_channel_write_leave (c : nat) : IM nat := fun w => Some (write_leave (iw_ipc w) c, w).

(** What [sys_channel_read] does with the [read_bytes] bytes in its buffer of
    [actual_len] and the handles it got. *)
Definition read_finish (l0_pa kbuf actual_len actual_h_len buf_ptr handles_ptr : Z) (read_bytes : nat)
    (hs : list HandleValue) : IM nat := fun w =>
  if actual_len <? Z.of_nat read_bytes then None
  else
    (user_out l0_pa (kernel_get (ip_bytes (iw_ipc w)) kbuf read_bytes) buf_ptr;;
     (if (0 <? actual_h_len) && negb (handles_ptr =? 0) then user_out l0_pa (handle_bytes hs) handles_ptr
      else mret tt);;
     mret read_bytes) w.

(** [read] on the channel at [chan]. *)
Definition read_channel (chan kbuf actual_len actual_h_len : Z) : IM (progress (nat * list HandleValue)) := fun w =>
  match read_enter (l0_of_kern (iw_kern w)) (iw_ipc w) chan kbuf (Z.to_nat actual_len)
          (replicate (Z.to_nat actual_h_len) 0) with
  | None => None
  | Some (ReadDone (Ok n) hs, i) => Some (Ok (Answered (n, hs)), set_ipc_part w i)
  | Some (ReadDone (Err e) _, i) => Some (Err e, set_ipc_part w i)
  | Some (ReadBlocked c o, i) => Some (Ok (Waits c o), set_ipc_part w i)
  end.

Definition sys_channel_read_enter (ta kbuf handle_raw buf_ptr buf_len handles_ptr handles_len : Z) : IM (progress nat) :=
  l0_pa ← caller_root;
  let actual_len := Z.min buf_len MSG_CAP in
  let actual_h_len := Z.min handles_len HANDLES_CAP in
  chan ← channel_of ta handle_raw RIGHT_READ;
  r ← read_channel chan kbuf actual_len actual_h_len;
  match r with
  | Answered (n, hs) => n ← read_finish l0_pa kbuf actual_len actual_h_len buf_ptr handles_ptr n hs; mret (Answered n)
  | Waits c o => mret (Waits c o)
  end.

(** [l0_pa] is still the root read before the call gave up the processor. *)
Definition sys_channel_read_leave (c : nat) (l0_pa kbuf buf_ptr buf_len handles_ptr handles_len : Z) : IM nat := fun w =>
  let actual_len := Z.min buf_len MSG_CAP in
  let actual_h_len := Z.min handles_len HANDLES_CAP in
  match read_leave (iw_ipc w) c (replicate (Z.to_nat actual_h_len) 0) with
  | (Err e, _, i) => Some (Err e, set_ipc_part w i)
  | (Ok n, hs, i) => read_finish l0_pa kbuf actual_len actual_h_len buf_ptr handles_ptr n hs (set_ipc_part w i)
  end.

(** ** Names *)
Definition NAME_CAP : Z := 16.

Definition name_in (name_ptr name_len : Z) : IM (list Z) :=
  l0_pa ← caller_root; user_in l0_pa name_ptr (Z.min name_len NAME_CAP).

Definition enter_service (name : list Z) (chan : Z) : IM unit := fun w =>
  let '(r, s) := register_service (iw_services w) name chan in
  Some (r, mkIpcWorld (iw_ipc w) (iw_kern w) s (iw_chan_id w)).

Definition sys_channel_register (ta name_ptr name_len handle_raw : Z) : IM unit :=
  name ← name_in name_ptr name_len;
  chan ← channel_of ta handle_raw READ_WRITE;
  enter_service name chan.

(** [peer] of the channel at [a]. *)
Definition peer_of (a : Z) : IM Z :=
  on_ipc (fun i => c ← ip_chans i !! a; Some (match ch_peer c with Some p => Ok p | None => Err PeerClosed end, i)).

Definition find_service (name : list Z) : IM Z := fun w => Some (lookup_service (iw_services w) name, w).

(** The client's end is answered when the write to the service is through. *)
Definition sys_channel_lookup_enter (ta a_client a_server name_ptr name_len : Z) : IM (HandleValue * progress nat) :=
  name ← name_in name_ptr name_len;
  service ← find_service name;
  hs ← linked_pair ta a_client a_server;
  let '(h_client, h_server) := hs in
  peer ← peer_of service;
  r ← write_channel peer 0 0 [h_server];
  mret (h_client, r).
