(* ===== verification/IpcTop.v ===== *)
(** * IpcTop: messages between processes

    The calls of IpcCalls.v end to end: a message leaves the memory of one
    process, crosses two kernel buffers and arrives in the memory of another,
    whose thread was blocked in its read. *)
From Stdlib Require Import ZArith Lia String.
From stdpp Require Import base tactics option list list_numbers gmap.
From S2P Require Import Prelude Shared Bytes Handles Ring Pipe Phys Thread Sched Port Registry Channel PageTable Vmar Mem Vmo UserCopy Asid Process ProcCalls MapShare IpcCalls.
Local Open Scope Z_scope.

Lemma im_bind_ok {A B} (x : IM A) (f : A -> IM B) w w1 a : x w = Some (Ok a, w1) -> (x ≫= f) w = f a w1.
Proof. intros Hx. unfold mbind, im_bind. by rewrite Hx. Qed.

Lemma if_same {A} (b : bool) (x : A) : (if b then x else x) = x.
Proof. by destruct b. Qed.

(** ** Kernel buffers *)
Lemma put_bytes_out bs : forall m kbuf x,
  x < kbuf \/ kbuf + Z.of_nat (length bs) <= x -> put_bytes m kbuf bs !! x = m !! x.
Proof.
  induction bs as [|b bs IH]; intros m kbuf x Hx; [done|]. cbn [put_bytes length] in *.
  rewrite IH by lia. apply lookup_insert_ne. lia.
Qed.

Lemma put_bytes_in bs : forall m kbuf k,
  (k < length bs)%nat -> put_bytes m kbuf bs !! (kbuf + Z.of_nat k) = bs !! k.
Proof.
  induction bs as [|b bs IH]; intros m kbuf k Hk; [by cbn in Hk; lia|]. cbn [put_bytes length] in *.
  destruct k as [|k].
  - rewrite Z.add_0_r, put_bytes_out by lia. apply lookup_insert_eq.
  - replace (kbuf + Z.of_nat (S k)) with (kbuf + 1 + Z.of_nat k) by lia. apply IH. lia.
Qed.

Lemma kernel_get_eq m kbuf bs :
  (forall k, (k < length bs)%nat -> m !! (kbuf + Z.of_nat k) = bs !! k) -> kernel_get m kbuf (length bs) = bs.
Proof.
  intros H. apply list_eq. intros k. unfold kernel_get. rewrite list_lookup_fmap.
  destruct (decide (k < length bs)%nat) as [Hk|Hk].
  - rewrite lookup_seq_lt by done. cbn [fmap option_fmap option_map]. rewrite Nat.add_0_l, H by done.
    by destruct (lookup_lt_is_Some_2 bs k Hk) as [b ->].
  - rewrite lookup_seq_ge, lookup_ge_None_2 by lia. done.
Qed.

(** ** Handles *)

(** Handle [hv] of the table at [ta] gives the channel at [a] with the rights
    [need]. *)
Definition grants (i : Ipc) (ta hv need a : Z) : Prop :=
  exists t, ip_tables i !! ta = Some t /\ ht_with_channel t hv need id = (Ok a, t).

Lemma with_table_same (i : Ipc) ta t : ip_tables i !! ta = Some t -> with_table i ta (ip_counter i) t = i.
Proof. destruct i. intros Ht. unfold with_table. cbn in *. by rewrite insert_id. Qed.

Lemma channel_of_ok w ta hv need a :
  grants (iw_ipc w) ta hv need a -> channel_of ta hv need w = Some (Ok a, w).
Proof.
  intros (t & Ht & Hw). unfold channel_of, on_ipc. rewrite Ht. cbn [mbind option_bind]. rewrite Hw.
  rewrite with_table_same by done. by destruct w.
Qed.

(** ** A message *)
Section message.
Context (w : IpcWorld) (ls : list (list nat)).
Abbreviation I := (iw_ipc w).

(** Thread [wt] in slot [c] runs; the peer [pa] of the channel at [a] has
    thread [rt] in slot [ri] blocked in a read. *)
Record meeting (c ri : nat) wt rt (a pa rid : Z) (ch p : Channel) (rest : list Z) : Prop := {
  me_sched : sched_ok (ip_sched I) ls;
  me_chan : ip_chans I !! a = Some ch;
  me_open : ch_state ch = Open;
  me_peer : ch_peer ch = Some pa;
  me_other : ip_chans I !! pa = Some p;
  me_waiting : ch_recv_waiters p = waiters_of (rid :: rest);
  me_room : (length (rid :: rest) <= MAX_WAITERS)%nat;
  me_current : current_idx (ip_sched I) = Some c;
  me_writer : thread_at (ip_sched I) c = Some wt;
  me_found : get_thread_ptr (ip_sched I) rid = Some ri;
  me_reader : thread_at (ip_sched I) ri = Some rt;
  me_blocked : t_state rt = Blocked
}.

End message.

(** The buffer [va] of [len] bytes of the process with root [l0], clear of its
    page tables. *)
Record user_buffer (m : Ram) (l0 va : Z) (len : nat) (lv : Levels) (cur : Z) : Prop := {
  ub_tree : tree_wf m lv l0 cur;
  ub_safe : range_safe m lv l0 va (Z.of_nat len);
  ub_va : 0 <= va < 2 ^ 64;
  ub_apart : one_to_one m l0 va (Z.of_nat len);
  ub_mapped : forall i, 0 <= i < Z.of_nat len -> is_Some (user_pa m l0 (va + i))
}.

Lemma user_in_ok w l0 va len bs :
  l0 <> 0 -> 0 <= va < 2 ^ 64 -> 0 <= len ->
  user_bytes (Process.kern_ram (iw_kern w)) l0 va (Z.to_nat len) = Some bs -> user_in l0 va len w = Some (Ok bs, w).
Proof.
  intros Hl0 Hv Hl Hb. unfold user_in. rewrite copy_from_user_eq by done. by rewrite Hb.
Qed.

Lemma user_bytes_length m l0 va n bs : user_bytes m l0 va n = Some bs -> length bs = n.
Proof.
  revert va bs. induction n as [|n IH]; intros va bs; cbn [user_bytes]; [by intros [= <-]|].
  intros (pa & _ & (bs' & H & [= <-])%bind_Some)%bind_Some. cbn. by rewrite (IH _ _ H).
Qed.

(** The first half: from the writer's memory into the reader's kernel buffer. *)
Lemma write_call_ok w ls c ri wt rt a pa rid ch p rest l0 ta h kbuf buf_ptr buf_len hp bs :
  meeting w ls c ri wt rt a pa rid ch p rest ->
  current_l0 w = l0 -> l0 <> 0 -> grants (iw_ipc w) ta h RIGHT_WRITE a ->
  0 <= buf_ptr < 2 ^ 64 -> 0 <= buf_len ->
  user_bytes (Process.kern_ram (iw_kern w)) l0 buf_ptr (Z.to_nat (Z.min buf_len MSG_CAP)) = Some bs ->
  let n := (length bs `min` Z.to_nat (t_ipc_buf_len rt))%nat in
  disjoint_buffers (t_ipc_buf_ptr rt) kbuf n ->
  exists i, sys_channel_write_enter ta kbuf h buf_ptr buf_len hp 0 w = Some (Ok (Answered n), set_ipc_part w i) /\
    kernel_get (ip_bytes i) (t_ipc_buf_ptr rt) n = take n bs /\
    sched_ok (ip_sched i) (enqueue ls (priority_to_index (t_priority rt)) ri) /\
    thread_at (ip_sched i) ri = Some (set_state (set_actual rt (Z.of_nat n)) Ready).
Proof.
  intros [Hok Ha Ho Hp Hpa Hq Hr Hc Hw Hf Hrt Hst] Hl0 Hne Hg Hv Hl Hb n Hdis.
  pose proof (user_bytes_length _ _ _ _ _ Hb) as Hlen.
  unfold sys_channel_write_enter.
  rewrite (im_bind_ok _ _ w w l0) by (unfold caller_root; rewrite Hl0; by destruct (Z.eqb_spec l0 0)).
  rewrite (im_bind_ok _ _ w w bs) by (apply user_in_ok; unfold MSG_CAP in *; done || lia).
  set (i1 := with_bytes (iw_ipc w) (put_bytes (ip_bytes (iw_ipc w)) kbuf bs)).
  rewrite (im_bind_ok _ _ w (set_ipc_part w i1) tt) by done.
  rewrite (im_bind_ok _ _ _ (set_ipc_part w i1) []) by done.
  rewrite (im_bind_ok _ _ _ (set_ipc_part w i1) a) by (by apply channel_of_ok).
  unfold write_channel. cbn [iw_ipc iw_kern set_ipc_part].
  rewrite <- Hlen. rewrite (write_to_waiting _ i1 a pa ch p rid rest c wt ri rt) by done.
  fold n. cbn zeta. cbn [take send_handles]. rewrite if_same.
  destruct (woken_reader (l0_of_kern (iw_kern w)) (ip_sched (iw_ipc w)) ls rid ri rt (Z.of_nat n) Hok Hf Hrt Hst) as (Hok' & Hat & _).
  eexists. split; [done|]. split; [|by split].
  cbn [wake upd with_sched with_bytes ip_bytes i1].
  assert (Hnl : n = length (take n bs)) by (rewrite length_take; lia).
  rewrite Hnl at 2. apply kernel_get_eq. intros k Hk. rewrite <- Hnl in Hk.
  rewrite copy_bytes_in, put_bytes_in by (done || lia). rewrite lookup_take_lt by done.
  destruct (lookup_lt_is_Some_2 bs k ltac:(lia)) as [b ->]. done.
Qed.

(** The second half: from the kernel buffer into the reader's memory. *)
Lemma read_call_ok w ri rt n l0 kbuf buf_ptr buf_len hp bs lv cur :
  thread_at (ip_sched (iw_ipc w)) ri = Some rt -> t_ipc_actual_len rt = Z.of_nat n ->
  (Z.of_nat n <= Z.min buf_len MSG_CAP) ->
  kernel_get (ip_bytes (iw_ipc w)) kbuf n = bs -> length bs = n -> Forall is_byte bs ->
  user_buffer (Process.kern_ram (iw_kern w)) l0 buf_ptr n lv cur ->
  exists i m', sys_channel_read_leave ri l0 kbuf buf_ptr buf_len hp 0 w =
      Some (Ok n, mkIpcWorld i (set_kern_ram (iw_kern w) m') (iw_services w) (iw_chan_id w)) /\
    user_bytes m' l0 buf_ptr n = Some bs /\
    (forall va, translate_user_va m' l0 va = translate_user_va (Process.kern_ram (iw_kern w)) l0 va) /\
    (forall x, (forall i, 0 <= i < Z.of_nat n -> user_pa (Process.kern_ram (iw_kern w)) l0 (buf_ptr + i) <> Some x) ->
       byte_at m' x = byte_at (Process.kern_ram (iw_kern w)) x).
Proof.
  intros Hrt Hact Hn Hk Hlen Hb [Htree Hsafe Hv Hone Hmap]. subst n.
  destruct (copy_range_ok (Process.kern_ram (iw_kern w)) lv l0 cur buf_ptr bs Htree Hsafe Hb Hv Hone Hmap)
    as (m' & Hout & Hin & [_ Htr Hfr _] & _).
  destruct (tw_table _ _ _ _ Htree l0 3%nat (tw_root _ _ _ _ Htree)) as (_ & _ & Hl0 & _).
  unfold sys_channel_read_leave, read_leave, extract_handles. rewrite !Hrt. cbn [replicate Z.to_nat Z.min HANDLES_CAP].
  change (imap _ []) with (@nil HandleValue). rewrite Hact, Nat2Z.id.
  unfold read_finish. destruct (Z.ltb_spec (Z.min buf_len MSG_CAP) (Z.of_nat (length bs))); [lia|].
  set (w0 := set_ipc_part w _).
  exists (iw_ipc w0), m'. split.
  - set (w1 := mkIpcWorld _ _ _ _).
    assert (Hu : user_out l0 (kernel_get (ip_bytes (iw_ipc w0)) kbuf (length bs)) buf_ptr w0 = Some (Ok tt, w1)).
    { unfold user_out. subst w0 w1. cbn [iw_ipc iw_kern set_ipc_part ip_bytes upd with_sched]. by rewrite Hk, Hout. }
    rewrite (im_bind_ok _ _ w0 w1 tt Hu). done.
  - split_and!; [|done|done]. rewrite copy_from_user_eq, Nat2Z.id in Hin by lia.
    injection Hin as Hin. by destruct (user_bytes m' l0 buf_ptr (length bs)); [injection Hin as ->|].
Qed.

(** C10. A message between processes.  While a thread is blocked in
    [sys_channel_read] on one end of a channel, [sys_channel_write] on the
    other end takes the bytes from the memory of the writing process, at most
    256 of them, and answers how many fit the reader's buffer; the reader is
    ready again, and when its call goes on it answers the same number and has
    these bytes in the memory of its process, where nothing else changes. *)
Theorem message_between_processes w ls c ri wt rt a pa rid ch p rest l0 ta h kbuf buf_ptr buf_len hp bs
    l0' buf_ptr' buf_len' hp' lv cur :
  meeting w ls c ri wt rt a pa rid ch p rest ->
  current_l0 w = l0 -> l0 <> 0 -> grants (iw_ipc w) ta h RIGHT_WRITE a ->
  0 <= buf_ptr < 2 ^ 64 -> 0 <= buf_len ->
  user_bytes (Process.kern_ram (iw_kern w)) l0 buf_ptr (Z.to_nat (Z.min buf_len MSG_CAP)) = Some bs ->
  t_ipc_buf_len rt = Z.min buf_len' MSG_CAP -> 0 <= buf_len' ->
  let n := (length bs `min` Z.to_nat (t_ipc_buf_len rt))%nat in
  disjoint_buffers (t_ipc_buf_ptr rt) kbuf n -> user_buffer (Process.kern_ram (iw_kern w)) l0' buf_ptr' n lv cur ->
  exists w1 w2,
    sys_channel_write_enter ta kbuf h buf_ptr buf_len hp 0 w = Some (Ok (Answered n), w1) /\
    sched_ok (ip_sched (iw_ipc w1)) (enqueue ls (priority_to_index (t_priority rt)) ri) /\
    sys_channel_read_leave ri l0' (t_ipc_buf_ptr rt) buf_ptr' buf_len' hp' 0 w1 = Some (Ok n, w2) /\
    user_bytes (Process.kern_ram (iw_kern w2)) l0' buf_ptr' n = Some (take n bs) /\
    (forall x, (forall i, 0 <= i < Z.of_nat n -> user_pa (Process.kern_ram (iw_kern w)) l0' (buf_ptr' + i) <> Some x) ->
       byte_at (Process.kern_ram (iw_kern w2)) x = byte_at (Process.kern_ram (iw_kern w)) x).
Proof.
  intros Hm Hl0 Hne Hg Hv Hl Hb Hrl Hl' n Hdis Hub.
  destruct (write_call_ok w ls c ri wt rt a pa rid ch p rest l0 ta h kbuf buf_ptr buf_len hp bs
    Hm Hl0 Hne Hg Hv Hl Hb Hdis) as (i & Hw & Hk & Hs & Hat). fold n in Hw, Hk, Hat.
  destruct (read_call_ok (set_ipc_part w i) ri _ n l0' (t_ipc_buf_ptr rt) buf_ptr' buf_len' hp' (take n bs) lv cur
    Hat eq_refl ltac:(subst n; rewrite Hrl; unfold MSG_CAP; lia) Hk ltac:(rewrite length_take; lia)
    ltac:(apply Forall_take; by eapply user_bytes_byte) Hub) as (i' & m' & Hr & Hbytes & _ & Hfr).
  exists (set_ipc_part w i). eexists. split_and!; [exact Hw|exact Hs|exact Hr|exact Hbytes|exact Hfr].
Qed.

(** ** Two processes that talk

    Process 1 has its root at 0x8000 and maps the page at 0x1000 to the frame
    0xc000; process 2 has the tables of [demo_ram].  Thread 1 runs, thread 2
    is blocked in a read of three bytes of its end of a channel. *)
Definition talk_ram : Ram :=
  <[0x8000 := 0x9003]> (<[0x9000 := 0xa003]> (<[0xa000 := 0xb003]> (<[0xb008 := 0xc403]>
    (<[0xc010 := 0x0a090807]> demo_ram)))).

Abbreviation TObj := (@KernelObject Vmo.Vmo Vmar.Vmar Port.Port).

Definition talk_thread (id : Z) (st : ThreadState) (buf len tbl : Z) : Thread TObj PortPacket :=
  mkThread id "t"%string st Normal 5 5 id 0 0 0 0 context_default buf len 0 (replicate 4 None) tbl
    (replicate 2 None) None.

Definition talk_sched : Scheduler TObj PortPacket :=
  mkSched ([Some (talk_thread 1 Running 0 0 11); Some (talk_thread 2 Blocked 8192 3 22)] ++ replicate 14 None)
    (map queue_of [[]; []; []; []; []]) (Some 0%nat) true None.

Definition talk_ipc : Ipc :=
  mkIpc talk_sched
    {[ 100 := mkChannel 1 Open 1 1 (Some 200) no_waiters no_waiters;
       200 := mkChannel 2 Open 1 1 (Some 100) no_waiters (waiters_of [2]) ]}
    {[ 11 := Some (mkSlot 1000 READ_WRITE (KChannel 100)) :: replicate 11 None; 22 := ht_new ]} 1001 ∅.

Definition talk_world : IpcWorld :=
  mkIpcWorld talk_ipc
    (mkKern [Some (ProcCalls.demo_proc 1 0 PRunning None ProcCalls.dfl 0x8000);
             Some (ProcCalls.demo_proc 2 0 PRunning None ProcCalls.dfl 0x1000);
             None; None; None; None; None; None] 3 asids_static (with_ram MapShare.pair_phys talk_ram) pipes_init [] 0 (Some 1))
    registry_new 3.

Lemma talk_sched_ok : sched_ok talk_sched [[]; []; []; []; []].
Proof.
  constructor; [split; [constructor|]| | |]; try done.
  - constructor.
  - intros pr l i Hl Hi. destruct pr as [|[|[|[|[|pr]]]]]; try done;
      injection Hl as <-; by apply not_elem_of_nil in Hi.
  - intros c [= <-]. split; [by apply not_elem_of_nil|by eexists].
  - intros i t Ht. unfold thread_at in Ht. cbn in Ht.
    do 16 (destruct i as [|i]; [cbn in Ht; by simplify_eq|]). by cbn in Ht.
  - intros c t [= <-] Ht. by injection Ht as <-.
Qed.

Lemma talk_meeting :
  meeting talk_world [[]; []; []; []; []] 0 1 (talk_thread 1 Running 0 0 11) (talk_thread 2 Blocked 8192 3 22) 100 200 2
    (mkChannel 1 Open 1 1 (Some 200) no_waiters no_waiters)
    (mkChannel 2 Open 1 1 (Some 100) no_waiters (waiters_of [2])) [].
Proof. constructor; try reflexivity; [exact talk_sched_ok|cbn; unfold MAX_WAITERS; lia]. Qed.

Lemma talk_buffer : user_buffer talk_ram 0x1000 0x1ffe 3 demo_lv 0x5000.
Proof.
  assert (H3 : forall i, 0 <= i < Z.of_nat 3 -> i = 0 \/ i = 1 \/ i = 2) by lia. constructor.
  - apply demo_tree_over; [|lia]. intros a Ha. unfold ram_read, talk_ram. by rewrite !lookup_insert_ne by lia.
  - intros i pa t r Hi Htr Ht. apply demo_table in Ht.
    destruct (H3 i Hi) as [-> |[-> | ->]]; vm_compute in Htr; injection Htr as <-; lia.
  - lia.
  - intros i j pa Hi Hj. destruct (H3 i Hi) as [-> |[-> | ->]], (H3 j Hj) as [-> |[-> | ->]]; vm_compute; congruence.
  - intros i Hi. destruct (H3 i Hi) as [-> |[-> | ->]]; vm_compute; by eexists.
Qed.

Lemma message_between_processes_witness :
  exists w1 w2,
    sys_channel_write_enter 11 4096 1000 0x1010 4 0 0 talk_world = Some (Ok (Answered 3%nat), w1) /\
    sys_channel_read_leave 1 0x1000 8192 0x1ffe 3 0 0 w1 = Some (Ok 3%nat, w2) /\
    user_bytes (Process.kern_ram (iw_kern w2)) 0x1000 0x1ffe 3 = Some [7; 8; 9].
Proof.
  destruct (message_between_processes talk_world _ _ _ _ _ _ _ _ _ _ _ 0x8000 11 1000 4096 0x1010 4 0 [7; 8; 9; 10]
    0x1000 0x1ffe 3 0 demo_lv 0x5000 talk_meeting) as (w1 & w2 & Hw & _ & Hr & Hb & _).
  - reflexivity.
  - lia.
  - eexists. split; reflexivity.
  - lia.
  - lia.
  - vm_compute. reflexivity.
  - reflexivity.
  - lia.
  - right. vm_compute. discriminate.
  - exact talk_buffer.
  - exists w1, w2. split; [exact Hw|]. split; [exact Hr|exact Hb].
Defined.
