(* ===== verification/IpcNames.v ===== *)
(** * IpcNames: pairs of channels and the name service

    [sys_channel_create] and [sys_channel_lookup] of IpcCalls.v: the two ends
    of a new channel, both in the caller's table or one in the client's and
    one in the server's. *)
From Stdlib Require Import ZArith Lia String.
From stdpp Require Import base tactics option list list_numbers gmap.
From S2P Require Import Prelude Shared Bytes Handles Ring Pipe Phys Thread Sched Port Registry Channel PageTable Vmar Mem Vmo UserCopy Asid Process ProcCalls MapShare IpcCalls IpcTop.
Local Open Scope Z_scope.

Abbreviation NTable := (list (option (@Slot Vmo.Vmo Vmar.Vmar Port.Port))).

(** ** Handles of a table *)
Lemma channel_named c (t : NTable) s a need :
  ht_wf c t -> s ∈ live t -> s_object s = KChannel a -> check_rights (s_rights s) need = true ->
  ht_with_channel t (s_value s) need id = (Ok a, t).
Proof.
  intros Hwf Hs Ho Hr. destruct (find_slot_unique c t s Hwf Hs) as (i & Hf & Hi & _).
  unfold ht_with_channel, ht_with. rewrite Hf, Hi, Hr, Ho. cbn [negb].
  rewrite <- Ho. destruct s. cbn in *. by rewrite list_insert_id.
Qed.

(** The slot of the channel end at [a] under the number [h]. *)
Definition end_slot (h a : Z) : @Slot Vmo.Vmo Vmar.Vmar Port.Port := mkSlot h READ_WRITE (KChannel a).

Lemma grants_end c (i : Ipc) ta t h a :
  ip_tables i !! ta = Some t -> ht_wf c t -> end_slot h a ∈ live t -> grants i ta h READ_WRITE a.
Proof. intros Ht Hwf Hs. exists t. split; [done|]. exact (channel_named c t (end_slot h a) a READ_WRITE Hwf Hs eq_refl eq_refl). Qed.

Lemma add_channel_ok w ta a ch t :
  let i := iw_ipc w in
  ip_tables i !! ta = Some t -> ht_wf (ip_counter i) t -> 0 <= ip_counter i < 2 ^ 32 - 1 ->
  (length (live t) < MAX_HANDLES)%nat ->
  exists t', add_channel ta a ch READ_WRITE w =
      Some (Ok (ip_counter i), set_ipc_part w (with_table (with_chan i a ch) ta (ip_counter i + 1) t')) /\
    ht_wf (ip_counter i + 1) t' /\ live t' ≡ₚ end_slot (ip_counter i) a :: live t.
Proof.
  intros i Ht Hwf Hc Hroom.
  destruct (ht_add_ok (ip_counter i) t (KChannel a) READ_WRITE Hwf Hc Hroom) as (t' & Hadd & Hwf' & Hp).
  exists t'. split; [|by split]. unfold add_channel, on_ipc, table_add. fold i. cbn [ip_tables ip_counter with_chan].
  by rewrite Ht, Hadd.
Qed.

Lemma set_peer_of_ok w ta h a c peer :
  grants (iw_ipc w) ta h READ_WRITE a -> ip_chans (iw_ipc w) !! a = Some c ->
  set_peer_of ta h READ_WRITE peer w = Some (Ok tt, set_ipc_part w (with_chan (iw_ipc w) a (set_peer c (Some peer)))).
Proof.
  intros Hg Hc. unfold set_peer_of. rewrite (im_bind_ok _ _ w w a) by by apply channel_of_ok.
  unfold on_ipc. by rewrite Hc.
Qed.

(** ** A new pair *)

(** [w'] is [w] with a new pair of channels at [a0] and [a1], whose handles
    are the next two. *)
Record paired (w w' : IpcWorld) (ta a0 a1 : Z) (t : NTable) : Prop := {
  pd_kern : iw_kern w' = iw_kern w;
  pd_services : iw_services w' = iw_services w;
  pd_sched : ip_sched (iw_ipc w') = ip_sched (iw_ipc w);
  pd_bytes : ip_bytes (iw_ipc w') = ip_bytes (iw_ipc w);
  pd_counter : ip_counter (iw_ipc w') = ip_counter (iw_ipc w) + 2;
  pd_ends : exists id0 id1,
    ip_chans (iw_ipc w') !! a0 = Some (mkChannel id0 Open 1 1 (Some a1) no_waiters no_waiters) /\
    ip_chans (iw_ipc w') !! a1 = Some (mkChannel id1 Open 1 1 (Some a0) no_waiters no_waiters);
  pd_chans : forall x, x <> a0 -> x <> a1 -> ip_chans (iw_ipc w') !! x = ip_chans (iw_ipc w) !! x;
  pd_table : exists t', ip_tables (iw_ipc w') !! ta = Some t' /\ ht_wf (ip_counter (iw_ipc w) + 2) t' /\
    live t' ≡ₚ end_slot (ip_counter (iw_ipc w) + 1) a1 :: end_slot (ip_counter (iw_ipc w)) a0 :: live t;
  pd_tables : forall x, x <> ta -> ip_tables (iw_ipc w') !! x = ip_tables (iw_ipc w) !! x
}.

Lemma linked_pair_ok w ta a0 a1 t :
  let n := ip_counter (iw_ipc w) in
  ip_tables (iw_ipc w) !! ta = Some t -> ht_wf n t -> 0 <= n < 2 ^ 32 - 2 -> (length (live t) + 2 <= MAX_HANDLES)%nat ->
  a0 <> a1 ->
  exists w', linked_pair ta a0 a1 w = Some (Ok (n, n + 1), w') /\ paired w w' ta a0 a1 t.
Proof.
  intros n Ht Hwf Hn Hroom Hne. unfold linked_pair.
  set (c0 := mkChannel (iw_chan_id w) Open 1 1 None no_waiters no_waiters).
  set (w1 := mkIpcWorld (iw_ipc w) (iw_kern w) (iw_services w) (u32w (iw_chan_id w + 1))).
  rewrite (im_bind_ok new_channel _ w w1 c0) by done.
  set (c1 := mkChannel (iw_chan_id w1) Open 1 1 None no_waiters no_waiters).
  set (w2 := mkIpcWorld (iw_ipc w) (iw_kern w) (iw_services w) (u32w (iw_chan_id w1 + 1))).
  rewrite (im_bind_ok new_channel _ w1 w2 c1) by done.
  destruct (add_channel_ok w2 ta a0 c0 t Ht Hwf ltac:(cbn; unfold n in *; lia) ltac:(lia)) as (t1 & Hadd1 & Hwf1 & Hp1).
  set (w3 := set_ipc_part w2 _) in Hadd1. rewrite (im_bind_ok _ _ w2 w3 n) by exact Hadd1.
  assert (Ht1 : ip_tables (iw_ipc w3) !! ta = Some t1) by apply lookup_insert_eq.
  destruct (add_channel_ok w3 ta a1 c1 t1 Ht1 Hwf1 ltac:(cbn; unfold n in *; lia) ltac:(rewrite Hp1; cbn; lia)) as (t2 & Hadd2 & Hwf2 & Hp2).
  set (w4 := set_ipc_part w3 _) in Hadd2. rewrite (im_bind_ok _ _ w3 w4 (n + 1)) by exact Hadd2.
  assert (Ht2 : ip_tables (iw_ipc w4) !! ta = Some t2) by apply lookup_insert_eq.
  assert (Hg0 : grants (iw_ipc w4) ta n READ_WRITE a0).
  { apply (grants_end _ _ _ t2 _ _ Ht2 Hwf2). rewrite Hp2, Hp1. right. left. }
  assert (Hg1 : grants (iw_ipc w4) ta (n + 1) READ_WRITE a1).
  { apply (grants_end _ _ _ t2 _ _ Ht2 Hwf2). rewrite Hp2. left. }
  rewrite (im_bind_ok _ _ w4 w4 a0) by by apply channel_of_ok.
  rewrite (im_bind_ok _ _ w4 w4 a1) by by apply channel_of_ok.
  assert (Hc0 : ip_chans (iw_ipc w4) !! a0 = Some c0).
  { cbn. by rewrite lookup_insert_ne, lookup_insert_eq by done. }
  pose proof (set_peer_of_ok w4 ta n a0 c0 a1 Hg0 Hc0) as Hs0.
  set (w5 := set_ipc_part w4 _) in Hs0. rewrite (im_bind_ok _ _ w4 w5 tt) by exact Hs0.
  assert (Hc1 : ip_chans (iw_ipc w5) !! a1 = Some c1).
  { cbn. by rewrite lookup_insert_ne, lookup_insert_eq by done. }
  pose proof (set_peer_of_ok w5 ta (n + 1) a1 c1 a0 Hg1 Hc1) as Hs1.
  set (w6 := set_ipc_part w5 _) in Hs1. rewrite (im_bind_ok _ _ w5 w6 tt) by exact Hs1.
  exists w6. split; [done|]. constructor; try done.
  - cbn. fold n. lia.
  - exists (iw_chan_id w), (iw_chan_id w1). split; cbn; [by rewrite lookup_insert_ne, lookup_insert_eq by done|apply lookup_insert_eq].
  - intros x H0 H1. cbn. by rewrite !lookup_insert_ne by done.
  - exists t2. split; [exact Ht2|]. cbn in Hwf2, Hp2 |- *. fold n in Hwf2, Hp2 |- *.
    replace (n + 2) with (n + 1 + 1) by lia. split; [exact Hwf2|]. by rewrite Hp2, Hp1.
  - intros x Hx. cbn. by rewrite !lookup_insert_ne by done.
Qed.

(** ** Looking up a service *)
Lemma ht_wf_later c c' (t : NTable) : ht_wf c t -> c <= c' -> ht_wf c' t.
Proof.
  intros (Hl & Hnd & Hlt) Hc. split_and!; [done|done|]. eapply Forall_impl; [exact Hlt|]. cbn. lia.
Qed.

Lemma meeting_kept w w' ls c ri wt rt a pa rid ch p rest :
  meeting w ls c ri wt rt a pa rid ch p rest -> ip_sched (iw_ipc w') = ip_sched (iw_ipc w) ->
  ip_chans (iw_ipc w') !! a = ip_chans (iw_ipc w) !! a -> ip_chans (iw_ipc w') !! pa = ip_chans (iw_ipc w) !! pa ->
  meeting w' ls c ri wt rt a pa rid ch p rest.
Proof. intros [] Hs Ha Hp. constructor; rewrite ?Hs, ?Ha, ?Hp; done. Qed.

(** An empty message that carries a channel end, to a waiting reader. *)
Lemma end_delivered w ls c ri wt rt a pa rid ch p rest t tt h e :
  meeting w ls c ri wt rt a pa rid ch p rest ->
  t_handle_table wt <> t_handle_table rt -> t_handle_table wt <> 0 -> t_handle_table rt <> 0 ->
  ip_tables (iw_ipc w) !! t_handle_table wt = Some t -> ip_tables (iw_ipc w) !! t_handle_table rt = Some tt ->
  let n := ip_counter (iw_ipc w) in
  ht_wf n t -> ht_wf n tt -> 0 <= n < 2 ^ 32 - 1 -> end_slot h e ∈ live t -> (length (live tt) < MAX_HANDLES)%nat ->
  exists i t' tt' rt', write_channel a 0 0 [h] w = Some (Ok (Answered 0%nat), set_ipc_part w i) /\
    ip_tables i !! t_handle_table wt = Some t' /\ live t ≡ₚ end_slot h e :: live t' /\
    ip_tables i !! t_handle_table rt = Some tt' /\ live tt' ≡ₚ end_slot n e :: live tt /\
    thread_at (ip_sched i) ri = Some rt' /\ t_state rt' = Ready /\
    (t_ipc_transfer_handles rt <> [] -> head (t_ipc_transfer_handles rt') = Some (Some n)) /\
    sched_ok (ip_sched i) (enqueue ls (priority_to_index (t_priority rt)) ri) /\
    forall x, x <> pa -> ip_chans i !! x = ip_chans (iw_ipc w) !! x.
Proof.
  intros [Hok Ha Ho Hp Hpa Hq Hr Hc Hw Hf Hrt Hst] Hne Hz1 Hz2 Ht Htt n Hwf Hwt Hn Hs Hroom.
  unfold write_channel. rewrite (write_to_waiting _ (iw_ipc w) a pa ch p rid rest c wt ri rt) by done.
  cbn zeta. rewrite Nat.min_0_l. destruct (Z.eqb_spec (t_handle_table wt) 0), (Z.eqb_spec (t_handle_table rt) 0); try done.
  cbn [orb take]. set (w1 := with_bytes _ _).
  destruct (send_one w1 (t_handle_table wt) (t_handle_table rt) ri t tt (end_slot h e)) as (t' & tt' & Hsend & Hpt & Hptt); try done.
  cbn [s_value end_slot] in Hsend. rewrite Hsend. set (s1 := upd_thread (ip_sched (iw_ipc w)) ri (fun t => set_handle_out t 0 (Some n))).
  assert (Hrt1 : thread_at s1 ri = Some (set_handle_out rt 0 (Some n)))
    by exact (thread_at_upd_eq _ ri (fun t => set_handle_out t 0 (Some n)) rt Hrt).
  assert (Hok1 : sched_ok s1 ls) by (by apply upd_same_ok).
  assert (Hf1 : get_thread_ptr s1 rid = Some ri) by (rewrite <- Hf; by apply (get_thread_ptr_upd (l0_of_kern (iw_kern w)))).
  destruct (woken_reader (l0_of_kern (iw_kern w)) s1 ls rid ri _ (Z.of_nat 0) Hok1 Hf1 Hrt1 Hst) as (Hok' & Hat & _).
  eexists _, t', tt', _. split; [done|]. cbn [wake upd with_sched with_table w1 with_bytes with_chan ip_tables ip_sched ip_chans].
  split_and!.
  - by rewrite lookup_insert_ne, lookup_insert_eq by done.
  - exact Hpt.
  - apply lookup_insert_eq.
  - exact Hptt.
  - exact Hat.
  - done.
  - cbn. by destruct (t_ipc_transfer_handles rt).
  - exact Hok'.
  - intros x Hx. by rewrite lookup_insert_ne.
Qed.

(** C11. The name service connects.  A client that looks up a service whose
    server is blocked reading its service channel gets a handle at once; the
    server is ready and finds the number of a new handle in its first place.
    The two handles, one in the client's table and one in the server's and
    nothing else new in either, are the two ends of a new channel, each the
    peer of the other. *)
Theorem lookup_connects w ls c ri wt rt pp sp rid chp chs rest t tt l0 name_ptr name_len name a_client a_server :
  meeting w ls c ri wt rt pp sp rid chp chs rest -> ch_peer chs = Some pp ->
  t_handle_table wt <> t_handle_table rt -> t_handle_table wt <> 0 -> t_handle_table rt <> 0 ->
  ip_tables (iw_ipc w) !! t_handle_table wt = Some t -> ip_tables (iw_ipc w) !! t_handle_table rt = Some tt ->
  let n := ip_counter (iw_ipc w) in
  ht_wf n t -> ht_wf n tt -> 0 <= n < 2 ^ 32 - 3 ->
  (length (live t) + 2 <= MAX_HANDLES)%nat -> (length (live tt) < MAX_HANDLES)%nat ->
  current_l0 w = l0 -> l0 <> 0 -> 0 <= name_ptr < 2 ^ 64 -> 0 <= name_len ->
  user_bytes (Process.kern_ram (iw_kern w)) l0 name_ptr (Z.to_nat (Z.min name_len NAME_CAP)) = Some name ->
  lookup_service (iw_services w) name = Ok sp ->
  a_client <> a_server -> ip_chans (iw_ipc w) !! a_client = None -> ip_chans (iw_ipc w) !! a_server = None ->
  t_ipc_transfer_handles rt <> [] ->
  exists w' t' tt' rt' id0 id1,
    sys_channel_lookup_enter (t_handle_table wt) a_client a_server name_ptr name_len w = Some (Ok (n, Answered 0%nat), w') /\
    ip_tables (iw_ipc w') !! t_handle_table wt = Some t' /\ live t' ≡ₚ end_slot n a_client :: live t /\
    ip_tables (iw_ipc w') !! t_handle_table rt = Some tt' /\ live tt' ≡ₚ end_slot (n + 2) a_server :: live tt /\
    ip_chans (iw_ipc w') !! a_client = Some (mkChannel id0 Open 1 1 (Some a_server) no_waiters no_waiters) /\
    ip_chans (iw_ipc w') !! a_server = Some (mkChannel id1 Open 1 1 (Some a_client) no_waiters no_waiters) /\
    thread_at (ip_sched (iw_ipc w')) ri = Some rt' /\ t_state rt' = Ready /\
    head (t_ipc_transfer_handles rt') = Some (Some (n + 2)) /\
    sched_ok (ip_sched (iw_ipc w')) (enqueue ls (priority_to_index (t_priority rt)) ri).
Proof.
  intros Hm Hsp Hne Hz1 Hz2 Ht Htt n Hwf Hwt Hn Hroom Hroom' Hl0 Hl0' Hv Hl Hname Hlook Hac Hfc Hfs Hth.
  pose proof (me_chan _ _ _ _ _ _ _ _ _ _ _ _ Hm) as Hpp. pose proof (me_other _ _ _ _ _ _ _ _ _ _ _ _ Hm) as Hspc.
  unfold sys_channel_lookup_enter, name_in.
  rewrite (im_bind_ok _ _ w w name).
  2:{ rewrite (im_bind_ok _ _ w w l0) by (unfold caller_root; rewrite Hl0; by destruct (Z.eqb_spec l0 0)).
      apply user_in_ok; unfold NAME_CAP in *; done || lia. }
  rewrite (im_bind_ok _ _ w w sp) by (unfold find_service; by rewrite Hlook).
  destruct (linked_pair_ok w (t_handle_table wt) a_client a_server t Ht Hwf ltac:(fold n; lia) Hroom Hac)
    as (w1 & Hlink & [Hk _ Hs1 _ Hcnt (id0 & id1 & Hc0 & Hc1) Hch (t1 & Ht1 & Hwf1 & Hp1) Htabs]). fold n in Hcnt, Hwf1, Hp1.
  rewrite (im_bind_ok _ _ w w1 (n, n + 1)) by exact Hlink.
  assert (Hspc1 : ip_chans (iw_ipc w1) !! sp = Some chs) by (rewrite Hch; congruence).
  rewrite (im_bind_ok _ _ w1 w1 pp).
  2:{ unfold peer_of, on_ipc. rewrite Hspc1. cbn [mbind option_bind]. rewrite Hsp. by destruct w1. }
  assert (Hm1 : meeting w1 ls c ri wt rt pp sp rid chp chs rest).
  { apply (meeting_kept w); [done..| |]; apply Hch; congruence. }
  destruct (end_delivered w1 ls c ri wt rt pp sp rid chp chs rest t1 tt (n + 1) a_server Hm1 Hne Hz1 Hz2 Ht1)
    as (i & t' & tt' & rt' & Hwr & Ht' & Hpt & Htt' & Hptt & Hrt' & Hst' & Hhd & Hok & Hchs).
  { by rewrite Htabs. }
  { by rewrite Hcnt. }
  { rewrite Hcnt. apply (ht_wf_later n); [done|lia]. }
  { rewrite Hcnt. lia. }
  { rewrite Hp1. left. }
  { done. }
  rewrite (im_bind_ok _ _ w1 (set_ipc_part w1 i) (Answered 0%nat)) by exact Hwr.
  exists (set_ipc_part w1 i), t', tt', rt', id0, id1. cbn [iw_ipc set_ipc_part]. rewrite Hcnt in Hptt, Hhd.
  split_and!; try done; try (rewrite Hchs; congruence); [|by apply Hhd].
  rewrite Hp1 in Hpt. by apply Permutation_cons_inv in Hpt.
Qed.

(** The processes of [talk_world]; the end at 200 is the service [7, 8]. *)
Definition name_world : IpcWorld :=
  mkIpcWorld talk_ipc (iw_kern talk_world) (snd (register_service registry_new [7; 8] 200)) 3.

Lemma lookup_connects_witness :
  exists w' t' tt', sys_channel_lookup_enter 11 300 400 0x1010 2 name_world = Some (Ok (1001, Answered 0%nat), w') /\
    ip_tables (iw_ipc w') !! 11 = Some t' /\ live t' ≡ₚ [end_slot 1001 300; mkSlot 1000 READ_WRITE (KChannel 100)] /\
    ip_tables (iw_ipc w') !! 22 = Some tt' /\ live tt' ≡ₚ [end_slot 1003 400].
Proof.
  assert (Hm : meeting name_world [[]; []; []; []; []] 0 1 (talk_thread 1 Running 0 0 11) (talk_thread 2 Blocked 8192 3 22) 100 200 2
    (mkChannel 1 Open 1 1 (Some 200) no_waiters no_waiters)
    (mkChannel 2 Open 1 1 (Some 100) no_waiters (waiters_of [2])) []) by (eapply meeting_kept; [exact talk_meeting|done..]).
  destruct (lookup_connects name_world _ _ _ _ _ _ _ _ _ _ _ (Some (mkSlot 1000 READ_WRITE (KChannel 100)) :: replicate 11 None) ht_new
    0x8000 0x1010 2 [7; 8] 300 400 Hm) as (w' & t' & tt' & rt' & id0 & id1 & Hl & Ht & Hp & Ht' & Hp' & _).
  - reflexivity.
  - cbn. lia.
  - cbn. lia.
  - cbn. lia.
  - reflexivity.
  - reflexivity.
  - split_and!; [reflexivity|apply NoDup_singleton|constructor; [cbn; lia|constructor]].
  - apply ht_new_wf.
  - cbn. lia.
  - cbn. unfold MAX_HANDLES. lia.
  - cbn. unfold MAX_HANDLES. lia.
  - reflexivity.
  - lia.
  - lia.
  - lia.
  - vm_compute. reflexivity.
  - vm_compute. reflexivity.
  - lia.
  - reflexivity.
  - reflexivity.
  - discriminate.
  - exists w', t', tt'. exact (conj Hl (conj Ht (conj Hp (conj Ht' Hp')))).
Defined.

(** ** What a failed call leaves *)

(** The calls that make two handles do not take the first one back: with
    room for one more handle only, [sys_channel_create] fails, and its first
    end stays in the table of the caller, who is not told its number. *)
Theorem create_leaves_end w ta a0 a1 t :
  let n := ip_counter (iw_ipc w) in
  ip_tables (iw_ipc w) !! ta = Some t -> ht_wf n t -> 0 <= n < 2 ^ 32 - 2 -> (length (live t) + 1 = MAX_HANDLES)%nat ->
  a0 <> a1 ->
  exists w' t', sys_channel_create ta a0 a1 w = Some (Err NoMemory, w') /\
    ip_tables (iw_ipc w') !! ta = Some t' /\ live t' ≡ₚ end_slot n a0 :: live t /\
    is_Some (ip_chans (iw_ipc w') !! a0) /\ ip_chans (iw_ipc w') !! a1 = None.
Proof.
  intros n Ht Hwf Hn Hroom Hne. unfold sys_channel_create, linked_pair.
  set (c0 := mkChannel (iw_chan_id w) Open 1 1 None no_waiters no_waiters).
  set (w1 := mkIpcWorld (iw_ipc w) (iw_kern w) (iw_services w) (u32w (iw_chan_id w + 1))).
  rewrite (im_bind_ok new_channel _ w w1 c0) by done.
  set (c1 := mkChannel (iw_chan_id w1) Open 1 1 None no_waiters no_waiters).
  set (w2 := mkIpcWorld (iw_ipc w) (iw_kern w) (iw_services w) (u32w (iw_chan_id w1 + 1))).
  rewrite (im_bind_ok new_channel _ w1 w2 c1) by done.
  destruct (add_channel_ok w2 ta a0 c0 t Ht Hwf ltac:(cbn; unfold n in *; lia) ltac:(lia)) as (t1 & Hadd1 & Hwf1 & Hp1).
  set (w3 := set_ipc_part w2 _) in Hadd1. rewrite (im_bind_ok _ _ w2 w3 n) by exact Hadd1.
  assert (Ht1 : ip_tables (iw_ipc w3) !! ta = Some t1) by apply lookup_insert_eq.
  assert (Hfull : length (live t1) = MAX_HANDLES) by (rewrite Hp1; cbn [length]; lia).
  unfold mbind at 1, im_bind at 1, add_channel, on_ipc, table_add. cbn [ip_tables with_chan]. rewrite Ht1.
  rewrite ht_add_full by (done || apply Hwf1). unfold drop_object, channel_close.
  cbn [with_table with_chan ip_chans]. rewrite lookup_insert_eq. cbn [ch_send_waiters ch_recv_waiters c1 ch_peer].
  rewrite wake_waiters_none. eexists _, t1. split; [reflexivity|]. cbn [iw_ipc set_ipc_part ip_tables ip_chans with_chan with_table].
  split_and!.
  - apply lookup_insert_eq.
  - exact Hp1.
  - rewrite lookup_delete_ne, !lookup_insert_ne by done. cbn. rewrite lookup_insert_eq. by eexists.
  - apply lookup_delete_eq.
Qed.

(** Eleven handles in the table at 33. *)
Definition crowded : NTable := map (fun k => Some (mkSlot k READ_WRITE (KProcess 1))) (seqZ 1 11) ++ [None].
Definition crowded_world : IpcWorld :=
  set_ipc_part talk_world (with_table talk_ipc 33 1001 crowded).

Lemma create_leaves_end_witness :
  exists w' t', sys_channel_create 33 300 400 crowded_world = Some (Err NoMemory, w') /\
    ip_tables (iw_ipc w') !! 33 = Some t' /\ end_slot 1001 300 ∈ live t'.
Proof.
  destruct (create_leaves_end crowded_world 33 300 400 crowded) as (w' & t' & Hc & Ht & Hp & _).
  - reflexivity.
  - split_and!; [reflexivity| |].
    + change (NoDup (seqZ 1 11)). apply NoDup_seqZ.
    + repeat (constructor; [cbn; lia|]). constructor.
  - cbn. lia.
  - reflexivity.
  - lia.
  - exists w', t'. split; [exact Hc|]. split; [exact Ht|]. rewrite Hp. left.
Defined.
