(* ===== verification/Spawn.v ===== *)
(** * Spawn: the calls that start programs and threads

    kernel/src/syscall/handlers/process.rs: [sys_spawn], [sys_execve],
    [sys_exec], [sys_exit], [sys_thread_create], [sys_thread_start],
    [sys_load_binary], and the service launcher of kernel/src/loader.rs.  A
    path and the arguments are read from the caller's memory, the file is
    looked up in the boot image and launched (Launch.v).  The image is the
    argument [rootfs].  Logging and cache maintenance are left out. *)
From Stdlib Require Import ZArith Lia String.
From stdpp Require Import base tactics option list list_numbers gmap.
From S2P Require Import Prelude Shared Bytes Handles Pipe Phys Port Thread Sched Ohlk PageTable PtClone Vmar Mem Vmo UserCopy Asid Process ProcCalls Rootfs Launch LaunchSpec LaunchArgs LaunchRun LaunchTop.
Local Open Scope Z_scope.

Section spawn.
Context {Obj Pk : Type}.
Abbreviation World := (Launch.World Obj Pk).
Context (user_eret_stub : Z) (ht_address : nat -> Z) (rootfs : list Z).

(** Calls on the whole kernel: they panic, fail or go on. *)
Definition WM (A : Type) : Type := World -> option (kresult A * World).

#[export] Instance wm_ret : MRet WM := fun A a w => Some (Ok a, w).
#[export] Instance wm_bind : MBind WM := fun A B f x w =>
  match x w with
  | None => None
  | Some (Err e, w') => Some (Err e, w')
  | Some (Ok a, w') => f a w'
  end.

Definition wm_lift {A} (r : kresult A) : WM A := fun w => Some (r, w).
Definition wm_err {A} (e : Status) : WM A := wm_lift (Err e).
Definition wm_get {A} (f : World -> kresult A) : WM A := fun w => Some (f w, w).
Definition on_kern {A} (f : Kern -> kresult A * Kern) : WM A := fun w =>
  let '(r, k) := f (w_kern w) in Some (r, set_kern w k).
Definition set_sched (w : World) (s : Scheduler Obj Pk) : World :=
  mkWorld (w_kern w) (w_vmo_id w) (w_tid w) s (w_ttbr0 w) (w_daif w).

(** ** Reading the request *)
Definition EXECVE_MAX_ARGS : Z := 16.
Definition EXECVE_ARG_TOTAL : Z := 4096.
Definition PATH_CAP : Z := 256.

Definition read_user (l0_pa va len : Z) : WM (list Z) := fun w =>
  match safe_copy_from_user (kern_ram (w_kern w)) l0_pa va len with
  | None => None
  | Some r => Some (r, w)
  end.

(** [for i in 0..argv_count]: pairs of pointer and length; each string in a
    buffer of 256 bytes. *)
Fixpoint read_args (n : nat) (i : Z) (l0_pa argv_ptr : Z) : WM (list (list Z) * list Z) :=
  match n with
  | O => mret ([], [])
  | S n =>
      pair ← read_user l0_pa (u64w (argv_ptr + i * 16)) 16;
      let s_ptr := rd pair 0 8 in
      let s_len := rd pair 8 8 in
      if ARG_CAP <? s_len then wm_err InvalidArgs
      else
        str ← (if 0 <? s_len then read_user l0_pa s_ptr s_len else mret []);
        rest ← read_args n (i + 1) l0_pa argv_ptr;
        mret (put 0 str (replicate 256 0) :: fst rest, s_len :: snd rest)
  end.

(** The caller's identifier, the name it asks for and the arguments. *)
Record Request := mkRequest { rq_pid : Z; rq_name : list Z; rq_strs : list (list Z); rq_lens : list Z }.

Definition read_request (path_ptr path_len argv_ptr argv_count : Z) : WM Request :=
  if (path_ptr =? 0) || (path_len =? 0) || (EXECVE_MAX_ARGS <? argv_count) then wm_err InvalidArgs
  else
    c ← wm_get (fun w => caller (w_kern w));
    let l0_pa := pt_l0_pa (pr_page_table (snd c)) in
    if l0_pa =? 0 then wm_err InvalidArgs
    else
      name ← read_user l0_pa path_ptr (Z.min path_len PATH_CAP);
      if negb (utf8_valid name) then wm_err InvalidArgs
      else if (0 <? argv_count) && (argv_ptr =? 0) then wm_err InvalidArgs
      else
        args ← read_args (Z.to_nat argv_count) 0 l0_pa argv_ptr;
        if EXECVE_ARG_TOTAL <? foldr Z.add 0 (snd args) + argv_count * 8 then wm_err InvalidArgs
        else mret (mkRequest (pr_id (snd c)) name (fst args) (snd args)).

(** ** Finding and starting the program *)

(** ["system/bin/"] *)
Definition BIN_DIR : list Z := [115; 121; 115; 116; 101; 109; 47; 98; 105; 110; 47].

(** A name with a slash is a path of the image; the others are put behind the
    directory in a string of 160 bytes. *)
Definition resolve_path (name : list Z) : kresult (list Z) :=
  if existsb (fun b => b =? 47) name then Ok name
  else if (length BIN_DIR + length name <=? 160)%nat then Ok (BIN_DIR ++ name) else Err InvalidArgs.

Definition open_image (path : list Z) : WM (list Z) := fun w =>
  match get_file rootfs path with
  | None => None
  | Some None => Some (Err NotFound, w)
  | Some (Some bytes) => Some (Ok bytes, w)
  end.

Definition find_program (name : list Z) : WM (list Z) :=
  path ← wm_lift (resolve_path name); open_image path.

Definition start_program (name : list Z) (strs : list (list Z)) (lens : list Z) (argc : nat) (parent_pid : Z) : WM Z :=
  bytes ← find_program name;
  nm ← on_kern (intern_name name);
  launch_user_program_with_argv_id user_eret_stub ht_address nm bytes strs lens argc parent_pid.

Definition sys_spawn (path_ptr path_len argv_ptr argv_count : Z) : WM Z :=
  rq ← read_request path_ptr path_len argv_ptr argv_count;
  start_program (rq_name rq) (rq_strs rq) (rq_lens rq) (Z.to_nat argv_count) (rq_pid rq).

(** ** Giving the CPU away *)
Definition l0_of_world (w : World) (pid : Z) : option (Z * Z) := find_process_l0_user_pa pid (kn_procs (w_kern w)).

Definition running_process (s : Scheduler Obj Pk) : option Z :=
  i ← get_current_thread_ptr s; t ← thread_at s i; Some (t_process_id t).

(** [SCHEDULER.schedule()]: the table register follows the thread chosen. *)
Definition reschedule : WM outcome := fun w =>
  match schedule (l0_of_world w) (w_sched w) with
  | None => None
  | Some (o, s) =>
      let cur := running_process s in
      let ttbr := match o, cur ≫= l0_of_world w with
                  | Same _, Some (l0, asid) | SwitchTo _ _, Some (l0, asid) => pack_ttbr l0 asid
                  | _, _ => w_ttbr0 w
                  end in
      let k := w_kern w in
      Some (Ok o, mkWorld (mkKern (kn_procs k) (kn_next_pid k) (kn_asids k) (kn_phys k) (kn_pipes k) (kn_names k)
                             (kn_name_cursor k) cur) (w_vmo_id w) (w_tid w) s ttbr (w_daif w))
  end.

(** The calling thread is dead, parked at address 1. *)
Definition park (t : Thread Obj Pk) : Thread Obj Pk :=
  let c := t_context t in
  with_context t (t_process_id t) (t_handle_table t) Dead
    (mkContext (x c) (r c) (sp c) (user_sp c) 1 0 (ctx_process_id c) (l0_user_pa c) (page_table_gen c)).

Definition retire_caller : WM unit := fun w =>
  match get_current_thread_ptr (w_sched w) with
  | Some i => Some (Ok tt, set_sched w (upd_thread (w_sched w) i park))
  | None => Some (Ok tt, w)
  end.

Definition sys_execve (path_ptr path_len argv_ptr argv_count : Z) : WM outcome :=
  rq ← read_request path_ptr path_len argv_ptr argv_count;
  start_program (rq_name rq) (rq_strs rq) (rq_lens rq) (Z.to_nat argv_count) (rq_pid rq);;
  retire_caller;;
  reschedule.

Definition sys_exec (program_name : list Z) : WM outcome :=
  start_program program_name [] [] 0 0;;
  retire_caller;;
  reschedule.

(** The respawn of the first process returns at once. *)
Definition respawn_init_if_anchor (current_pid : Z) : WM unit := mret tt.

Definition sys_exit (code : Z) : WM outcome :=
  cur ← wm_get (fun w => Ok (running_process (w_sched w)));
  match cur with
  | None => mret tt
  | Some pid =>
      on_kern (fun k => (Ok tt, mark_process_zombie k pid code));;
      respawn_init_if_anchor pid;;
      retire_caller
  end;;
  reschedule.

(** ** Threads

    [table] is the caller's handle table and [hc] the counter of handles. *)
Definition USER_THREAD : string := "user-thread".

Definition RW_RIGHTS : Z := Z.lor RIGHT_READ RIGHT_WRITE.

Definition sys_thread_create (hc : Z) (table : Handles) (process_handle_raw entry stack_top : Z) (w : World) :
    option (kresult Z * Z * Handles * World) :=
  match ht_with_process table process_handle_raw RIGHT_WRITE id with
  | (Err e, table) => Some (Err e, hc, table, w)
  | (Ok pid, table) =>
      match find_process pid (kn_procs (w_kern w)) with
      | None => Some (Err NotFound, hc, table, w)
      | Some (i, _) =>
          match new_user user_eret_stub USER_THREAD entry stack_top (w_tid w) (kn_phys (w_kern w)) with
          | None => None
          | Some (Err e, tid, p) =>
              Some (Err e, hc, table, mkWorld (set_phys (w_kern w) p) (w_vmo_id w) tid (w_sched w) (w_ttbr0 w) (w_daif w))
          | Some (Ok t, tid, p) =>
              let t := with_context t pid (handles_kva (ht_address i)) (t_state t) (t_context t) in
              match add (w_sched w) t with
              | None => None
              | Some s =>
                  let '(h, hc, table) := ht_add hc table (KThread (t_id t)) RW_RIGHTS in
                  Some (h, hc, table, mkWorld (set_phys (w_kern w) p) (w_vmo_id w) tid s (w_ttbr0 w) (w_daif w))
              end
          end
      end
  end.

(** Any thread a handle names becomes ready, whatever it was doing; it is not
    put in a queue. *)
Definition sys_thread_start (table : Handles) (thread_handle_raw : Z) (w : World) : kresult unit * Handles * World :=
  match ht_with_thread table thread_handle_raw RIGHT_WRITE id with
  | (Err e, table) => (Err e, table, w)
  | (Ok tid, table) =>
      match get_thread_ptr (w_sched w) tid with
      | None => (Err NotFound, table, w)
      | Some i => (Ok tt, table, set_sched w (upd_thread (w_sched w) i (fun t => set_state t Ready)))
      end
  end.

(** ** A program from a memory object *)
Definition LOAD_BINARY_SCRATCH_SIZE : Z := 1024 * 1024.

(** [while total < remaining && total < scratch_cap]; the result is the
    scratch buffer and how much of it is filled. *)
Fixpoint fill_scratch (fuel : nat) (v : Vmo) (m : Ram) (vmo_offset remaining total : Z) (scratch : list Z) :
    option (list Z * Z) :=
  match fuel with
  | O => None
  | S fuel =>
      if (total <? remaining) && (total <? LOAD_BINARY_SCRATCH_SIZE) then
        let want := Z.min 4096 (Z.min remaining LOAD_BINARY_SCRATCH_SIZE - total) in
        bs ← vmo_read v m (u64w (vmo_offset + total)) (Z.to_nat want);
        if (length bs =? 0)%nat then Some (scratch, total)
        else fill_scratch fuel v m vmo_offset remaining (total + want) (put (Z.to_nat total) bs scratch)
      else Some (scratch, total)
  end.

(** A round takes a page but for the last. *)
Definition scratch_fuel (data_size : Z) : nat := S (S (Z.to_nat (data_size / 4096))).

(** ["user-prog"] *)
Definition USER_PROG : Name := NLit [117; 115; 101; 114; 45; 112; 114; 111; 103].

Definition sys_load_binary (hc : Z) (table : Handles) (scratch : list Z) (vmo_handle_raw vmo_offset : Z) (w : World) :
    option (kresult Z * Z * Handles * list Z * World) :=
  match ht_with_vmo table vmo_handle_raw RIGHT_READ (fun v => (v, v)) with
  | (Err e, table) => Some (Err e, hc, table, scratch, w)
  | (Ok v, table) =>
      if vo_size v <=? vmo_offset then Some (Err InvalidArgs, hc, table, scratch, w)
      else
        let data_size := vo_size v - vmo_offset in
        if LOAD_BINARY_SCRATCH_SIZE <? data_size then Some (Err InvalidArgs, hc, table, scratch, w)
        else
          '(scratch, copied) ← fill_scratch (scratch_fuel data_size) v (kern_ram (w_kern w)) vmo_offset data_size 0 scratch;
          match launch_user_program user_eret_stub ht_address USER_PROG (take (Z.to_nat copied) scratch) w with
          | None => None
          | Some (Err e, w) => Some (Err e, hc, table, scratch, w)
          | Some (Ok pid, w) =>
              let '(_, hc, table) := ht_add hc table (KProcess pid) RW_RIGHTS in Some (Ok pid, hc, table, scratch, w)
          end
  end.

(** ** The service launcher

    [bootfs] is the place and size of the boot image; the new process gets a
    memory object over it under the handle asked for. *)
Context (bootfs : Z * Z).

Definition hand_over (pid handle_idx : Z) (v : Vmo) (w : World) : option (kresult unit * World) :=
  let dropped := match drop_vmo v (kn_phys (w_kern w)) with
                 | None => None
                 | Some p => Some (Ok tt, set_kern w (set_phys (w_kern w) p))
                 end in
  match find_process pid (kn_procs (w_kern w)) with
  | None => dropped
  | Some (i, p) =>
      match ht_add_raw_handle (pr_handle_table p) handle_idx (KVmo v) RW_RIGHTS with
      | (Ok _, t) => Some (Ok tt, set_kern w (put_proc (w_kern w) i (with_handles t p)))
      | (Err _, _) => dropped
      end
  end.

Definition new_physical : WM Vmo := fun w =>
  match create_physical (w_vmo_id w) (fst bootfs) (snd bootfs) (kn_phys (w_kern w)) with
  | None => None
  | Some (Err e, p) => Some (Err e, set_kern w (set_phys (w_kern w) p))
  | Some (Ok v, p) =>
      Some (Ok v, mkWorld (set_phys (w_kern w) p) (u64w (w_vmo_id w + 1)) (w_tid w) (w_sched w) (w_ttbr0 w) (w_daif w))
  end.

Definition launch_service (name : Name) (path : list Z) (bootstrap_vmo_handle_index : option Z) : WM Z :=
  bytes ← open_image path;
  pid ← launch_user_program user_eret_stub ht_address name bytes;
  match bootstrap_vmo_handle_index with
  | None => mret tt
  | Some idx => v ← new_physical; hand_over pid idx v
  end;;
  mret pid.

(** ["loader"], ["system/bin/loader"] *)
Definition LOADER : list Z := [108; 111; 97; 100; 101; 114].
Definition launch_loader : WM Z := launch_service (NLit LOADER) (BIN_DIR ++ LOADER) (Some 100).
End spawn.
