(* ===== verification/SpawnTop.v ===== *)
(** * SpawnTop: the claims about starting programs

    A request is read from the caller's memory and ends in the memory of the
    new process; what [execve] leaves of the caller; the scratch buffer of
    [sys_load_binary]. *)
From Stdlib Require Import ZArith Lia String.
From stdpp Require Import base tactics option list list_numbers gmap.
From S2P Require Import Prelude Shared Bytes Handles Pipe Phys Port Thread Sched Ohlk PageTable PtClone Vmar Mem Vmo UserCopy Asid Process ProcCalls Rootfs Launch LaunchSpec LaunchArgs LaunchRun LaunchTop Spawn.
Local Open Scope Z_scope.

(** ** Reading the request *)

(** Argument [j] of the array at [argv_ptr]. *)
Definition arg_at (m : Ram) (l0 argv_ptr j : Z) (s : list Z) : Prop :=
  (length s <= 256)%nat /\ exists ptr, 0 <= ptr < 2 ^ 64 /\
    user_bytes m l0 (u64w (argv_ptr + j * 16)) 16 = Some (le 8 ptr ++ le 8 (Z.of_nat (length s))) /\
    user_bytes m l0 ptr (length s) = Some s.

Definition arg_buffer (s : list Z) : list Z := put 0 s (replicate 256 0).
Definition arg_lengths (args : list (list Z)) : list Z := map (fun s => Z.of_nat (length s)) args.
Definition args_total (args : list (list Z)) : Z := foldr Z.add 0 (arg_lengths args).

(** What the caller [cp] must have in its memory for a program and its
    arguments to be named by such a call. *)
Record asks (m : Ram) (cp : Process) (path_ptr path_len argv_ptr : Z) (name : list Z) (args : list (list Z)) : Prop := {
  ak_root : pt_l0_pa (pr_page_table cp) <> 0;
  ak_path : 0 < path_ptr < 2 ^ 64;
  ak_len : path_len = Z.of_nat (length name) /\ (0 < length name <= 256)%nat;
  ak_name : user_bytes m (pt_l0_pa (pr_page_table cp)) path_ptr (length name) = Some name;
  ak_text : utf8_valid name = true;
  ak_args : forall j s, args !! j = Some s -> arg_at m (pt_l0_pa (pr_page_table cp)) argv_ptr (Z.of_nat j) s;
  ak_argc : (length args <= 16)%nat;
  ak_argv : args = [] \/ argv_ptr <> 0;
  ak_total : args_total args + Z.of_nat (length args) * 8 <= 4096
}.

Lemma le_le_fields ptr len : 0 <= ptr < 2 ^ 64 -> 0 <= len < 2 ^ 64 -> rd (le 8 ptr ++ le 8 len) 0 8 = ptr /\ rd (le 8 ptr ++ le 8 len) 8 8 = len.
Proof.
  intros Hp Hl. rewrite rd_here, rd_skip by (rewrite length_le; lia). rewrite length_le. change (8 - 8)%nat with 0%nat.
  unfold rd. rewrite drop_0, take_ge by (rewrite length_le; lia).
  rewrite !unle_le by (change (8 * Z.of_nat 8) with 64; lia). done.
Qed.

Section request.
Context {Obj Pk : Type}.
Abbreviation World := (Launch.World Obj Pk).

Lemma wm_bind_ok {A B} (m : WM (Obj:=Obj) (Pk:=Pk) A) (f : A -> WM B) w w1 a : m w = Some (Ok a, w1) -> (m ≫= f) w = f a w1.
Proof. intros Hm. unfold mbind, wm_bind. by rewrite Hm. Qed.

Lemma read_user_ok l0 va n bs (w : World) :
  l0 <> 0 -> 0 <= va < 2 ^ 64 -> user_bytes (kern_ram (w_kern w)) l0 va n = Some bs ->
  read_user l0 va (Z.of_nat n) w = Some (Ok bs, w).
Proof.
  intros Hl Hv Hb. unfold read_user. rewrite copy_from_user_eq by (done || lia). by rewrite Nat2Z.id, Hb.
Qed.

Lemma read_args_ok l0 argv_ptr args i (w : World) :
  l0 <> 0 ->
  (forall j s, args !! j = Some s -> arg_at (kern_ram (w_kern w)) l0 argv_ptr (i + Z.of_nat j) s) ->
  read_args (length args) i l0 argv_ptr w = Some (Ok (map arg_buffer args, arg_lengths args), w).
Proof.
  intros Hl0. revert i. induction args as [|s args IH]; intros i Hall; [done|]. cbn [length read_args].
  destruct (Hall 0%nat s eq_refl) as (Hlen & ptr & Hptr & Hpair & Hs). rewrite Z.add_0_r in Hpair.
  rewrite (wm_bind_ok _ _ w w _ (read_user_ok l0 _ 16 _ w Hl0 (u64w_range _) Hpair)). cbn zeta.
  destruct (le_le_fields ptr (Z.of_nat (length s)) Hptr ltac:(lia)) as [-> ->].
  unfold ARG_CAP. destruct (Z.ltb_spec 256 (Z.of_nat (length s))); [lia|].
  rewrite (wm_bind_ok _ _ w w s).
  2: { destruct (Z.ltb_spec 0 (Z.of_nat (length s))); [by apply read_user_ok|]. by destruct s. }
  rewrite (wm_bind_ok _ _ w w _ (IH (i + 1) ltac:(intros j s' Hj; replace (i + 1 + Z.of_nat j) with (i + Z.of_nat (S j)) by lia; by apply Hall))).
  done.
Qed.

Lemma read_request_ok ci cp path_ptr path_len argv_ptr name args (w : World) :
  caller (w_kern w) = Ok (ci, cp) -> asks (kern_ram (w_kern w)) cp path_ptr path_len argv_ptr name args ->
  read_request path_ptr path_len argv_ptr (Z.of_nat (length args)) w =
    Some (Ok (mkRequest (pr_id cp) name (map arg_buffer args) (arg_lengths args)), w).
Proof.
  intros Hc [Hl0 Hp [-> Hn] Hname Htext Hargs Hargc Hargv Htot]. unfold read_request, EXECVE_MAX_ARGS, PATH_CAP, EXECVE_ARG_TOTAL.
  destruct (Z.eqb_spec path_ptr 0), (Z.eqb_spec (Z.of_nat (length name)) 0), (Z.ltb_spec 16 (Z.of_nat (length args))); try lia.
  cbn [orb]. rewrite (wm_bind_ok _ _ w w (ci, cp)) by (unfold wm_get; by rewrite Hc). cbn zeta. cbn [snd].
  destruct (Z.eqb_spec (pt_l0_pa (pr_page_table cp)) 0); [done|]. rewrite Z.min_l by lia.
  rewrite (wm_bind_ok _ _ w w _ (read_user_ok _ path_ptr _ _ w Hl0 ltac:(lia) Hname)). rewrite Htext. cbn [negb].
  assert ((0 <? Z.of_nat (length args)) && (argv_ptr =? 0) = false) as ->.
  { destruct Hargv as [->|Hne]; [done|]. destruct (Z.eqb_spec argv_ptr 0); [done|apply andb_false_r]. }
  rewrite Nat2Z.id. rewrite (wm_bind_ok _ _ w w _ (read_args_ok _ argv_ptr args 0 w Hl0 Hargs)). cbn [fst snd].
  fold (args_total args). destruct (Z.ltb_spec 4096 (args_total args + Z.of_nat (length args) * 8)); [lia|done].
Qed.

Lemma arg_buffer_eq s : (length s <= 256)%nat -> arg_buffer s = s ++ replicate (256 - length s) 0.
Proof.
  exact (put_fill 0 [] s 256 eq_refl).
Qed.

Lemma request_args m l0 argv_ptr args :
  (forall j s, args !! j = Some s -> arg_at m l0 argv_ptr (Z.of_nat j) s) -> (length args <= 16)%nat ->
  args_ok (length args) (map arg_buffer args) (arg_lengths args).
Proof.
  intros Hall Hn. constructor; [done|]. intros j Hj. destruct (lookup_lt_is_Some_2 args j Hj) as [s Hs].
  destruct (Hall j s Hs) as (Hlen & ptr & _ & _ & Hb). exists (Z.of_nat (length s)), (arg_buffer s).
  unfold arg_lengths, arg_buffer, ARG_CAP. rewrite !list_lookup_fmap, Hs. split_and!; try done; try lia.
  - rewrite length_put, length_replicate. lia.
  - fold (arg_buffer s). rewrite arg_buffer_eq by done.
    apply Forall_app. split; [by eapply user_bytes_byte|]. apply Forall_replicate. by split.
Qed.

Lemma arg_buffer_nth s k : (length s <= 256)%nat -> (k < length s)%nat -> nth k (arg_buffer s) 0 = nth k s 0.
Proof.
  intros Hl Hk. unfold arg_buffer. rewrite !nth_lookup, put_in by (rewrite ?length_replicate; lia). by rewrite Nat.sub_0_r.
Qed.
End request.

(** ** Spawning *)
Section spawned.
Context {Obj Pk : Type}.
Abbreviation World := (Launch.World Obj Pk).
Context (user_eret_stub : Z) (ht_address : nat -> Z) (rootfs : list Z).

(** The name is copied to a name slot before the launch; nothing a launch
    depends on changes. *)
Lemma intern_ok name (w : World) :
  (length name < 128)%nat ->
  exists nm k, on_kern (intern_name name) w = Some (Ok nm, set_kern w k) /\ kn_procs k = kn_procs (w_kern w) /\
    kn_next_pid k = kn_next_pid (w_kern w) /\ kn_phys k = kn_phys (w_kern w) /\ kn_asids k = kn_asids (w_kern w).
Proof.
  intros Hl. unfold on_kern. destruct (intern_name name (w_kern w)) as [r k] eqn:E.
  destruct (intern_name_fields _ _ _ _ E) as (Hp & Hn & Hph & _ & _).
  unfold intern_name, NAME_SLOT_CAP in E. destruct (Nat.leb_spec 128 (length name)); [lia|]. injection E as <- <-.
  by eexists _, _.
Qed.

Lemma launchable_names (w : World) k parser segs strs lens argc ls idx i lvp :
  kn_procs k = kn_procs (w_kern w) -> kn_phys k = kn_phys (w_kern w) ->
  launchable w parser segs strs lens argc ls idx i lvp -> launchable (set_kern w k) parser segs strs lens argc ls idx i lvp.
Proof.
  intros Hp Hph [H1 H2 H3 H4 H5]. constructor; cbn [set_kern w_kern w_ttbr0 w_sched]; rewrite ?Hp, ?Hph; try done.
  cbn zeta in *. unfold kern_ram in *. by rewrite Hph.
Qed.

Lemma find_program_ok name path binary (w : World) :
  resolve_path name = Ok path -> get_file rootfs path = Some (Some binary) -> find_program rootfs name w = Some (Ok binary, w).
Proof.
  intros Hr Hg. unfold find_program. rewrite (wm_bind_ok _ _ w w path) by (unfold wm_lift; by rewrite Hr).
  unfold open_image. by rewrite Hg.
Qed.

Lemma start_program_ok name path binary parser segs strs lens argc parent_pid ls idx i lvp (w : World) :
  (length name < 128)%nat -> resolve_path name = Ok path -> get_file rootfs path = Some (Some binary) ->
  parser_new binary = Ok parser -> launchable w parser segs strs lens argc ls idx i lvp ->
  exists nm k w' p s s',
    start_program user_eret_stub ht_address rootfs name strs lens argc parent_pid w = Some (Ok (kn_next_pid (w_kern w)), w') /\
    kn_procs k = kn_procs (w_kern w) /\ kn_phys k = kn_phys (w_kern w) /\ kn_next_pid k = kn_next_pid (w_kern w) /\
    world_after ht_address (set_kern w k) nm parser segs strs lens argc parent_pid i lvp w' p s s'.
Proof.
  intros Hn Hr Hg Hp Hl. destruct (intern_ok name w Hn) as (nm & k & Hin & Hps & Hnp & Hph & _).
  destruct (launch_ok user_eret_stub ht_address nm binary parser segs strs lens argc parent_pid ls idx i lvp (set_kern w k) Hp
    (launchable_names _ _ _ _ _ _ _ _ _ _ _ Hps Hph Hl)) as (w' & p & s & s' & Hrun & Haf).
  exists nm, k, w', p, s, s'. split; [|done]. unfold start_program.
  rewrite (wm_bind_ok _ _ _ _ _ (find_program_ok name path binary w Hr Hg)), (wm_bind_ok _ _ _ _ _ Hin).
  rewrite <- Hnp. exact Hrun.
Qed.

Section claims.
Context (cp : Process) (ci : nat) (path_ptr path_len argv_ptr : Z) (name path binary : list Z) (args : list (list Z)).
Context (parser : OHLK_Parser) (segs : list (OHLK_Entry * list Z)) (ls : list (list nat)) (idx i : nat) (lvp : Levels) (w : World).

(** The caller, its request, the file, and a kernel with room. *)
Record spawnable : Prop := {
  sn_caller : caller (w_kern w) = Ok (ci, cp);
  sn_asks : asks (kern_ram (w_kern w)) cp path_ptr path_len argv_ptr name args;
  sn_name : (length name < 128)%nat;
  sn_path : resolve_path name = Ok path;
  sn_file : get_file rootfs path = Some (Some binary);
  sn_parser : parser_new binary = Ok parser;
  sn_launch : launchable w parser segs (map arg_buffer args) (arg_lengths args) (length args) ls idx i lvp
}.

(** C8. From the caller's memory to the child's: [sys_spawn] of a path and
    arguments that the caller has in its memory starts the file of the boot
    image as a child of the caller; every address of the child's segments
    outside the stack shows the byte of the file, and each argument string
    stands in the child's memory, byte for byte, at the address the pointer
    array of the child gives. *)
Theorem spawn_passes_arguments :
  spawnable ->
  exists w' p t, let st := space_of w' p in
    sys_spawn user_eret_stub ht_address rootfs path_ptr path_len argv_ptr (Z.of_nat (length args)) w =
      Some (Ok (kn_next_pid (w_kern w)), w') /\
    kn_procs (w_kern w') = <[i := Some p]> (kn_procs (w_kern w)) /\ pr_parent_pid p = pr_id cp /\
    (forall a e d, 0 <= a < 2 ^ 48 -> ~ in_stack a -> segment_at segs a = Some (e, d) ->
       ubyte st a = Some (segment_byte e d a)) /\
    (forall j s, args !! j = Some s -> exists va,
       (forall k, 0 <= k < 8 -> ubyte st (start_argv (length args) (arg_lengths args) + Z.of_nat j * 8 + k) =
          Some (nth (Z.to_nat k) (le 8 va) 0)) /\
       (forall k, (k < length s)%nat -> ubyte st (va + Z.of_nat k) = s !! k)) /\
    add (w_sched w) t = Some (w_sched w') /\ elr (t_context t) = start_entry parser segs /\
    t_process_id t = kn_next_pid (w_kern w).
Proof.
  intros [Hc Hask Hn Hpath Hfile Hpar Hl]. destruct (start_program_ok name path binary parser segs _ _ _ (pr_id cp) ls idx i lvp w Hn Hpath Hfile Hpar Hl)
    as (nm & k & w' & p & s & s' & Hrun & Hps & _ & Hnp & Haf).
  assert (Hav : (0 < length args)%nat -> argv_put (space_of w' p) (length args) (map arg_buffer args) (arg_lengths args)
    (argv_base (length args) (arg_lengths args) stack_top) (start_argv (length args) (arg_lengths args))
    (start_sp (length args) (arg_lengths args))) by (intros; by eapply after_argv).
  destruct Haf as [Hps' Hid _ Hpp _ Hsp _ Hld (Hb1 & _) (Ha1 & _)]. cbn [set_kern w_kern w_sched] in *.
  destruct (ld_thread _ _ _ _ _ _ _ _ _ _ _ Hld) as (t & Hadd & Ht). destruct (ld_inv _ _ _ _ _ _ _ _ _ _ _ Hld) as (lv & _ & Hsh).
  exists w', p, t. cbn zeta. split.
  { unfold sys_spawn. rewrite (wm_bind_ok _ _ _ _ _ (read_request_ok ci cp _ _ _ _ _ w Hc Hask)). cbn [rq_name rq_strs rq_lens rq_pid].
    rewrite Nat2Z.id. exact Hrun. }
  split; [by rewrite <- Hps|]. split; [done|]. split; [|split; [|split; [|split]]].
  - intros a e d H1 H2 H3. rewrite <- Hsp. by apply (shows_ubyte _ lv), Hsh.
  - intros j str Hj. pose proof (lookup_lt_Some _ _ _ Hj) as Hlt. destruct (Hav ltac:(lia)) as [Hs Hq _ _].
    exists (string_at (arg_lengths args) (length args) j). split; [intros q Hqr; by apply Hq|]. intros q Hqr.
    destruct (ak_args _ _ _ _ _ _ _ Hask j str Hj) as (Hlen & _).
    destruct (Hs j Hlt (Z.of_nat (length str)) (arg_buffer str)) as [Hb _].
    { unfold arg_lengths. by rewrite list_lookup_fmap, Hj. }
    { by rewrite list_lookup_fmap, Hj. }
    unfold string_at. rewrite Hb, Nat2Z.id, arg_buffer_nth by lia. rewrite nth_lookup. destruct (lookup_lt_is_Some_2 str q Hqr) as [b Hb']. by rewrite Hb'.
  - by rewrite <- Hb1, <- Ha1.
  - apply (sa_entry _ _ _ _ _ _ _ _ _ _ Ht).
  - rewrite (sa_process _ _ _ _ _ _ _ _ _ _ Ht), Hid. exact Hnp.
Qed.
End claims.
End spawned.

(** ** A small spawn

    Process 7 runs in thread 0 of Sched.v's example and has the page at 0x1000 of the tree of UserCopy.v: the pairs of
    two arguments, their bytes, and the name of a file of the boot image. *)
Definition caller_ram : Ram :=
  <[0x5000 := 0x1020]> (<[0x5008 := 2]> (<[0x5010 := 0x1028]> (<[0x5018 := 1]>
    (<[0x5020 := 0x6261]> (<[0x5028 := 0x63]> (<[0x5030 := 0x61]> demo_ram)))))).
Definition caller_proc : Process := demo_proc 7 0 PRunning None dfl 0x1000.
Definition caller_world : World unit unit :=
  mkWorld (mkKern [Some caller_proc; None; None; None; None; None; None; None] 8 asids_static (with_ram demo_memory caller_ram)
             pipes_init (replicate 8 (replicate 128 0)) 0 (Some 7))
    1 4 wit_sched (pack_ttbr 0x1000 1) 0.
Definition demo_path : list Z := BIN_DIR ++ [97].
Definition demo_rootfs : list Z := pack_rootfs [mkFileEntry demo_path demo_file].
Definition demo_args2 : list (list Z) := [[97; 98]; [99]].

Lemma caller_tree : parent_tree caller_ram demo_lv 0x1000 0x40010000.
Proof.
  constructor; [|right; reflexivity]. apply demo_tree_over; [|lia]. intros a Ha. unfold ram_read, caller_ram.
  by rewrite !lookup_insert_ne by lia.
Qed.

Lemma caller_asks : asks caller_ram caller_proc 0x1030 1 0x1000 [97] demo_args2.
Proof.
  split.
  - vm_compute. congruence.
  - lia.
  - cbn [length]. lia.
  - vm_compute. reflexivity.
  - reflexivity.
  - intros [|[|j]] s; [intros [= <-]|intros [= <-]|done].
    + split; [cbn [length]; lia|]. exists 0x1020. split; [lia|]. split; vm_compute; reflexivity.
    + split; [cbn [length]; lia|]. exists 0x1028. split; [lia|]. split; vm_compute; reflexivity.
  - cbn [length demo_args2]. lia.
  - right. lia.
  - vm_compute. congruence.
Qed.

Lemma caller_memory_wf : phys_wf (with_ram demo_memory caller_ram).
Proof.
  destruct demo_memory_wf. constructor; done.
Qed.

Lemma caller_spawnable :
  spawnable demo_rootfs caller_proc 0 0x1030 1 0x1000 [97] demo_path demo_file demo_args2 demo_parser demo_segs
    wit_lists 3 1 demo_lv caller_world.
Proof.
  constructor.
  - reflexivity.
  - exact caller_asks.
  - cbn [length]. lia.
  - reflexivity.
  - vm_compute. reflexivity.
  - exact demo_parses.
  - constructor.
    + reflexivity.
    + exact caller_memory_wf.
    + unfold room. vm_compute. congruence.
    + right. exact caller_tree.
    + constructor; [vm_compute; reflexivity|exact demo_segment_fits|cbn; lia| |exact wit_sched_ok|reflexivity].
      exact (request_args _ _ _ _ (ak_args _ _ _ _ _ _ _ caller_asks) (ak_argc _ _ _ _ _ _ _ caller_asks)).
Qed.

Lemma spawn_passes_arguments_witness :
  exists w' p, sys_spawn 0x1000 (fun _ => 0x40001000) demo_rootfs 0x1030 1 0x1000 2 caller_world = Some (Ok 8, w') /\
    pr_parent_pid p = 7 /\ ubyte (space_of w' p) 0x1001 = Some 0x22 /\
    exists va, ubyte (space_of w' p) (va + 1) = Some 98.
Proof.
  destruct (spawn_passes_arguments 0x1000 (fun _ => 0x40001000) demo_rootfs caller_proc 0 0x1030 1 0x1000 [97] demo_path demo_file
    demo_args2 demo_parser demo_segs wit_lists 3 1 demo_lv caller_world caller_spawnable)
    as (w' & p & t & Hrun & _ & Hpp & Hseg & Harg & _).
  exists w', p. split; [exact Hrun|]. split; [exact Hpp|]. split.
  - rewrite (Hseg 0x1001 (demo_entry 0).1 (demo_entry 0).2);
      [vm_compute; reflexivity|lia|unfold in_stack, STACK_OFFSET; lia|vm_compute; reflexivity].
  - destruct (Harg 0%nat [97; 98] eq_refl) as (va & _ & Hva). exists va. apply (Hva 1%nat). cbn [length]. lia.
Defined.
