(* ===== verification/SpawnLeave.v ===== *)
(** * SpawnLeave: what a caller leaves behind

    [sys_exit] and [sys_execve] end the thread that calls them and hand the
    processor on.  The first marks the process of the thread as a zombie; the
    second starts the program as a further process and does not touch the
    process of the thread. *)
From Stdlib Require Import ZArith Lia String.
From stdpp Require Import base tactics option list list_numbers gmap.
From S2P Require Import Prelude Shared Bytes Handles Pipe Phys Port Thread Sched Ohlk PageTable PtClone Vmar Mem Vmo UserCopy Asid Process ProcCalls Rootfs Launch LaunchSpec LaunchArgs LaunchRun LaunchTop Spawn SpawnTop.
Local Open Scope Z_scope.

Section leave.
Context {Obj Pk : Type}.
Abbreviation World := (Launch.World Obj Pk).
Abbreviation Sch := (Scheduler Obj Pk).
Implicit Types (s : Sch) (w : World).

(** ** Retiring the running thread *)
Definition retired s (c : nat) : Sch := upd_thread s c park.

Lemma retired_ok s ls c t :
  sched_ok s ls -> current_idx s = Some c -> thread_at s c = Some t ->
  sched_inv (retired s c) ls /\ slices_ok (retired s c) /\ running (retired s c) = true /\
  current_idx (retired s c) = Some c /\ thread_at (retired s c) c = Some (park t).
Proof.
  intros [[Hq Hcur] Hsl Hrun _] Hc Ht. unfold retired.
  destruct (upd_thread_frame s c park) as (_ & Hc' & Hr & _). destruct (Hcur c Hc) as [Hn _].
  assert (Hat : thread_at (upd_thread s c park) c = Some (park t)).
  { rewrite thread_at_upd, Ht. by destruct (decide (c = c)). }
  split_and!; [|by apply set_state_slices| |by rewrite Hc'|done].
  - split; [apply upd_inv; [done|]; intros ? _ Hin; by destruct Hn|].
    intros c'. rewrite Hc', Hc. intros [= <-]. by split; [|exists (park t)].
  - rewrite Hr. destruct (running s); [done|]. by rewrite Hrun in Hc.
Qed.

Lemma retired_other s c j : j <> c -> thread_at (retired s c) j = thread_at s j.
Proof. intros Hj. unfold retired. rewrite thread_at_upd. by destruct (decide (c = j)). Qed.

Lemma account_context (t : Thread Obj Pk) : t_context (account t) = t_context t.
Proof. unfold account. by repeat case_match. Qed.

(** A thread that has ended is left for one that can run, if there is one. *)
Lemma dead_leaves l0_of s ls c t :
  sched_ok s ls -> current_idx s = Some c -> thread_at s c = Some t ->
  exists o s', schedule l0_of (retired s c) = Some (o, s') /\
    ((o = Halted /\ forall j, j <> c -> alive (thread_at s j) = false) \/
     exists n t', o = SwitchTo c n /\ n <> c /\ alive (thread_at s n) = true /\
       current_idx s' = Some n /\ is_Some (thread_at s' n) /\
       thread_at s' c = Some t' /\ t_state t' = Dead /\ elr (t_context t') = 1).
Proof.
  intros Hok Hc Ht. destruct (retired_ok s ls c t Hok Hc Ht) as (Hinv & Hsl & Hrun & Hc' & Hat).
  assert (Hdead : alive (thread_at (retired s c) c) = false) by (by rewrite Hat).
  pose proof (schedule_spec l0_of _ ls c _ Hinv Hsl Hrun Hc' Hat) as Hspec.
  destruct (best (retired s c) (offered (retired s c) ls c)) as [n|] eqn:Hb.
  - destruct Hspec as (ls' & t' & _ & Hs & _ & _ & Ha & Hn & _). eexists _, _. split; [exact Hs|]. right.
    assert (Hne : n <> c) by (intros ->; congruence).
    assert (Hfull : t_remaining_ticks (park t) = DEFAULT_TIME_SLICE) by (by apply (Hsl c _ Hat)).
    destruct (account_full (park t) Hfull) as (_ & _ & _ & _ & Hst).
    exists n, (account (park t)). unfold sched_result. destruct (Nat.eqb_spec c n); [congruence|].
    rewrite !thread_at_load, !after_pick_at, Hat, Hn. cbn zeta. destruct (decide (c = c)), (decide (n = c)), (decide (c = n)), (decide (n = n)); try done.
    split_and!; try done.
    + by rewrite <- (retired_other s c n Hne).
    + rewrite (proj1 (proj2 (proj2 (load_frame l0_of _ _)))). done.
    + by rewrite account_context.
  - destruct Hspec as [s' Hs]. eexists _, _. split; [exact Hs|]. left. split; [done|]. intros j Hj.
    rewrite <- (retired_other s c j Hj). unfold best in Hb. case_match; [by case_match|].
    unfold thread_at. destruct (threads (retired s c) !! j) as [o|] eqn:Ho; [|done].
    pose proof (proj1 (first_alive_None _) Hb) as Hall. rewrite forallb_forall in Hall.
    apply list_elem_of_lookup_2, list_elem_of_In, Hall, negb_true_iff in Ho. by destruct o.
Qed.

(** The processor after thread [c] of [w] has ended: every other thread has
    ended as well, or one that has not runs and [c] stays ended, parked. *)
Definition handed_on w (c : nat) (o : outcome) (w' : World) : Prop :=
  (o = Halted /\ forall j, j <> c -> alive (thread_at (w_sched w) j) = false) \/
  exists n t', o = SwitchTo c n /\ n <> c /\ alive (thread_at (w_sched w) n) = true /\
    get_current_thread_ptr (w_sched w') = Some n /\
    thread_at (w_sched w') c = Some t' /\ t_state t' = Dead /\ elr (t_context t') = 1.

Lemma leave_ok w ls c t :
  sched_ok (w_sched w) ls -> current_idx (w_sched w) = Some c -> thread_at (w_sched w) c = Some t ->
  exists o w', (retire_caller;; reschedule) w = Some (Ok o, w') /\ kn_procs (w_kern w') = kn_procs (w_kern w) /\
    handed_on w c o w'.
Proof.
  intros Hok Hc Ht. set (w1 := set_sched w (retired (w_sched w) c)).
  assert (Hg : get_current_thread_ptr (w_sched w) = Some c).
  { unfold get_current_thread_ptr. rewrite Hc. rewrite decide_True; [done|by exists t]. }
  rewrite (wm_bind_ok retire_caller _ w w1 tt) by (unfold retire_caller; by rewrite Hg).
  destruct (dead_leaves (l0_of_world w1) (w_sched w) ls c t Hok Hc Ht) as (o & s' & Hs & Ho).
  unfold reschedule. change (w_sched w1) with (retired (w_sched w) c). rewrite Hs.
  eexists o, _. split; [reflexivity|]. split; [done|].
  destruct Ho as [Ho|(n & t' & -> & Hn & Ha & Hcur & Hsome & Hrest)]; [by left|right].
  exists n, t'. split_and!; try done; [|apply Hrest..]. cbn [w_sched]. unfold get_current_thread_ptr. rewrite Hcur. by rewrite decide_True.
Qed.

Lemma wm_bind_err {A B} (x : WM (Obj:=Obj) (Pk:=Pk) A) (f : A -> WM B) w w1 e : x w = Some (Err e, w1) -> (x ≫= f) w = Some (Err e, w1).
Proof. intros Hx. unfold mbind, wm_bind. by rewrite Hx. Qed.

(** ** The two calls *)
Section claims.
Context (w : World) (ls : list (list nat)) (c : nat) (t : Thread Obj Pk).
Context (Hok : sched_ok (w_sched w) ls) (Hc : current_idx (w_sched w) = Some c) (Ht : thread_at (w_sched w) c = Some t).

Lemma running_process_ok : running_process (w_sched w) = Some (t_process_id t).
Proof. unfold running_process, get_current_thread_ptr. rewrite Hc, decide_True by (by exists t). cbn [mbind option_bind]. by rewrite Ht. Qed.

(** C22. [sys_exit] never fails: the process of the calling thread becomes a
    zombie that keeps the exit code, no other process changes, the thread is
    dead and parked at address 1, and another thread that is not dead, blocked
    ones included, gets the processor; the machine halts only if there is none. *)
Theorem exit_ends_caller code i p :
  find_process (t_process_id t) (kn_procs (w_kern w)) = Some (i, p) ->
  exists o w', sys_exit code w = Some (Ok o, w') /\
    kn_procs (w_kern w') = <[i := Some (with_state PZombie (Some code) p)]> (kn_procs (w_kern w)) /\
    handed_on w c o w'.
Proof.
  intros Hp. unfold sys_exit. rewrite (wm_bind_ok _ _ w w (Some (t_process_id t))) by (unfold wm_get; by rewrite running_process_ok).
  set (w1 := set_kern w (mark_process_zombie (w_kern w) (t_process_id t) code)).
  destruct (leave_ok w1 ls c t Hok Hc Ht) as (o & w' & Hrun & Hps & Hh).
  exists o, w'. split; [exact Hrun|]. split; [|exact Hh]. rewrite Hps. subst w1. cbn [set_kern w_kern].
  unfold mark_process_zombie. by rewrite Hp.
Qed.
End claims.

Section execve.
Context (user_eret_stub : Z) (ht_address : nat -> Z) (rootfs : list Z).
Context (cp : Process) (ci : nat) (path_ptr path_len argv_ptr : Z) (name path binary : list Z) (args : list (list Z)).
Context (parser : OHLK_Parser) (segs : list (OHLK_Entry * list Z)) (ls : list (list nat)) (idx i : nat) (lvp : Levels) (w : World).

(** A thread added to the table is one more that can run. *)
Lemma add_running s l c t u k s' :
  sched_ok s l -> fresh_thread u -> find_empty_slot s = Some k -> current_idx s = Some c -> thread_at s c = Some t ->
  add s u = Some s' ->
  k <> c /\ (exists l', sched_ok s' l') /\ current_idx s' = Some c /\ thread_at s' c = Some t /\ alive (thread_at s' k) = true.
Proof.
  intros Hok Hf Hk Hc Ht Hadd. pose proof (add_ok s l u Hok Hf) as H. rewrite Hk in H. destruct H as [Heq Hok'].
  pose proof (Hok' s' Hadd) as Hs'. rewrite Heq in Hadd. injection Hadd as <-.
  unfold find_empty_slot in Hk. apply first_free_Some in Hk as (Hidx & Hlt & _).
  assert (Hne : k <> c) by (intros ->; unfold thread_at in Ht; by rewrite Hidx in Ht).
  split; [done|]. split; [by eexists|]. split; [done|].
  unfold thread_at. cbn [set_queues set_threads threads]. rewrite list_lookup_insert_ne, list_lookup_insert_eq by done. done.
Qed.

Lemma caller_at k p : caller k = Ok (ci, p) -> kn_procs k !! ci = Some (Some p).
Proof.
  unfold caller. destruct (current_process_id k) as [pid|e]; cbn [mbind]; [|done]. unfold mbind. cbn.
  destruct (find_process pid (kn_procs k)) as [[j q]|] eqn:E; cbn; [|done]. intros [= -> ->]. by apply find_process_Some in E as [? _].
Qed.

(** C38. [sys_execve] does not replace the program of its process.  It starts
    the file as a new process with a new identifier whose parent is the
    caller, ends the calling thread and hands the processor on; the process
    of the caller stays in its slot as it was, with its memory and
    descriptors, and is not a zombie that anyone could wait for. *)
Theorem execve_leaves_caller_process c t :
  spawnable rootfs cp ci path_ptr path_len argv_ptr name path binary args parser segs ls idx i lvp w ->
  current_idx (w_sched w) = Some c -> thread_at (w_sched w) c = Some t ->
  exists w' p n t', sys_execve user_eret_stub ht_address rootfs path_ptr path_len argv_ptr (Z.of_nat (length args)) w =
      Some (Ok (SwitchTo c n), w') /\
    n <> c /\ thread_at (w_sched w') c = Some t' /\ t_state t' = Dead /\
    kn_procs (w_kern w') = <[i := Some p]> (kn_procs (w_kern w)) /\
    pr_id p = kn_next_pid (w_kern w) /\ pr_parent_pid p = pr_id cp /\ kn_procs (w_kern w') !! ci = Some (Some cp).
Proof.
  intros [Hcl Hask Hn Hpath Hfile Hpar Hl] Hc Ht. pose proof (lb_start _ _ _ _ _ _ _ _ _ _ Hl) as Hst.
  destruct (start_program_ok user_eret_stub ht_address rootfs name path binary parser segs _ _ _ (pr_id cp) ls idx i lvp w Hn Hpath Hfile Hpar Hl)
    as (nm & k & w1 & p & s & s' & Hrun & Hps & _ & Hnp & [Hps' Hid _ Hpp _ _ _ Hld (Hb & _) (Ha & _)]).
  cbn [set_kern w_kern w_sched] in *. destruct (ld_thread _ _ _ _ _ _ _ _ _ _ _ Hld) as (u & Hadd & Hu). rewrite Hb, Ha in Hadd.
  destruct (add_running _ ls c t u idx _ (sb_sched _ _ _ _ _ _ _ _ Hst) (sa_fresh _ _ _ _ _ _ _ _ _ _ Hu) (sb_slot _ _ _ _ _ _ _ _ Hst) Hc Ht Hadd)
    as (Hne & [l' Hok1] & Hc1 & Ht1 & Hal).
  destruct (leave_ok w1 l' c t Hok1 Hc1 Ht1) as (o & w' & Hleave & Hps2 & Hh).
  destruct Hh as [[_ Hdead]|(n & t' & -> & Hnc & _ & _ & Ht' & Hd & _)]; [by rewrite (Hdead idx Hne) in Hal|].
  assert (Hps3 : kn_procs (w_kern w') = <[i := Some p]> (kn_procs (w_kern w))) by (by rewrite Hps2, Hps', Hps).
  exists w', p, n, t'. split.
  { unfold sys_execve. rewrite (wm_bind_ok _ _ _ _ _ (read_request_ok ci cp _ _ _ _ _ w Hcl Hask)). cbn [rq_name rq_strs rq_lens rq_pid].
    rewrite Nat2Z.id, (wm_bind_ok _ _ _ _ _ Hrun). exact Hleave. }
  split_and!; try done; [by rewrite Hid|]. rewrite Hps3, list_lookup_insert_ne; [by apply caller_at|].
  intros ->. pose proof (lb_free _ _ _ _ _ _ _ _ _ _ Hl) as Hfree. apply first_free_Some in Hfree as (Hfree & _).
  apply caller_at in Hcl. congruence.
Qed.
End execve.
End leave.

Lemma exit_ends_caller_witness :
  exists o w', sys_exit 3 caller_world = Some (Ok o, w') /\
    kn_procs (w_kern w') !! 0%nat = Some (Some (with_state PZombie (Some 3) caller_proc)) /\ o <> Halted.
Proof.
  destruct (exit_ends_caller caller_world wit_lists 0 (wit_thread 1 Running) wit_sched_ok eq_refl eq_refl 3 0 caller_proc eq_refl)
    as (o & w' & Hrun & Hps & Hh).
  exists o, w'. split; [exact Hrun|]. split; [by rewrite Hps|].
  destruct Hh as [[_ Hall]|(n & t' & -> & _)]; [|done]. specialize (Hall 1%nat ltac:(lia)). vm_compute in Hall. discriminate Hall.
Defined.

Lemma execve_leaves_caller_process_witness :
  exists w' p n, sys_execve 0x1000 (fun _ => 0x40001000) demo_rootfs 0x1030 1 0x1000 2 caller_world = Some (Ok (SwitchTo 0 n), w') /\
    pr_id p = 8 /\ kn_procs (w_kern w') !! 1%nat = Some (Some p) /\ kn_procs (w_kern w') !! 0%nat = Some (Some caller_proc).
Proof.
  destruct (execve_leaves_caller_process 0x1000 (fun _ => 0x40001000) demo_rootfs caller_proc 0 0x1030 1 0x1000 [97] demo_path demo_file
    demo_args2 demo_parser demo_segs wit_lists 3 1 demo_lv caller_world 0 (wit_thread 1 Running) caller_spawnable eq_refl eq_refl)
    as (w' & p & n & t' & Hrun & _ & _ & _ & Hps & Hid & _ & Hcp).
  exists w', p, n. split; [exact Hrun|]. split; [exact Hid|]. split; [by rewrite Hps|exact Hcp].
Defined.
