(* ===== verification/Syscalls.v ===== *)
(** * Syscalls: from a library call to a handler of the kernel and back

    The numbers (kernel/shared/src/syscall_nums.rs), the wrappers a program
    calls (libraries/libcapsule/src/syscalls.rs, libraries/libc/src/syscalls.rs),
    the trap they take (kernel/src/arch/aarch64/trap.rs) and the dispatcher
    (kernel/src/syscall/mod.rs, capability/mod.rs, lifecycle/mod.rs).  The
    handlers are behind the interface [Kernel]; SyscallsTop.v puts those of
    the other files there.  [None] is a panic, or a call that does not come
    back. *)
From Stdlib Require Import ZArith Lia String.
From stdpp Require Import base tactics option list list_numbers.
From S2P Require Import Prelude Shared Bytes.
Local Open Scope Z_scope.

(** ** Numbers *)
Definition SYSCALL_EXIT : Z := 0.
Definition SYSCALL_WRITE : Z := 1.
Definition SYSCALL_GET_TID : Z := 2.
Definition SYSCALL_GET_PID : Z := 3.
Definition SYSCALL_CHANNEL_CREATE : Z := 10.
Definition SYSCALL_CHANNEL_READ : Z := 11.
Definition SYSCALL_CHANNEL_WRITE : Z := 12.
Definition SYSCALL_CHANNEL_CALL : Z := 13.
Definition SYSCALL_CHANNEL_REGISTER : Z := 14.
Definition SYSCALL_CHANNEL_LOOKUP : Z := 15.
Definition SYSCALL_HANDLE_DUPLICATE : Z := 16.
Definition SYSCALL_PORT_CREATE : Z := 20.
Definition SYSCALL_PORT_WAIT : Z := 21.
Definition SYSCALL_PORT_QUEUE : Z := 22.
Definition SYSCALL_VMO_CREATE : Z := 30.
Definition SYSCALL_VMO_READ : Z := 31.
Definition SYSCALL_VMO_WRITE : Z := 32.
Definition SYSCALL_VMO_GET_SIZE : Z := 33.
Definition SYSCALL_VMO_SET_SIZE : Z := 34.
Definition SYSCALL_VMO_CREATE_CHILD : Z := 35.
Definition SYSCALL_VMAR_MAP : Z := 40.
Definition SYSCALL_VMAR_UNMAP : Z := 41.
Definition SYSCALL_VMAR_PROTECT : Z := 42.
Definition SYSCALL_VMAR_MAP_SELF : Z := 43.
Definition SYSCALL_THREAD_CREATE : Z := 50.
Definition SYSCALL_THREAD_START : Z := 51.
Definition SYSCALL_THREAD_EXIT : Z := 52.
Definition SYSCALL_PROCESS_CREATE : Z := 60.
Definition SYSCALL_PROCESS_START : Z := 61.
Definition SYSCALL_PROCESS_EXIT : Z := 62.
Definition SYSCALL_EVENT_CREATE : Z := 70.
Definition SYSCALL_EVENT_SIGNAL : Z := 71.
Definition SYSCALL_EVENT_ACK : Z := 72.
Definition SYSCALL_TIMER_CREATE : Z := 80.
Definition SYSCALL_TIMER_SET : Z := 81.
Definition SYSCALL_TIMER_CANCEL : Z := 82.
Definition SYSCALL_WAIT4 : Z := 88.
Definition SYSCALL_FUTEX_WAIT : Z := 90.
Definition SYSCALL_FUTEX_WAKE : Z := 91.
Definition SYSCALL_SIGACTION : Z := 92.
Definition SYSCALL_RAISE : Z := 93.
Definition SYSCALL_KILL : Z := 94.
Definition SYSCALL_PAUSE : Z := 95.
Definition SYSCALL_PIPE : Z := 96.
Definition SYSCALL_DUP2 : Z := 97.
Definition SYSCALL_OPEN : Z := 100.
Definition SYSCALL_CLOSE : Z := 101.
Definition SYSCALL_READ : Z := 102.
Definition SYSCALL_SEEK : Z := 103.
Definition SYSCALL_GETCWD : Z := 104.
Definition SYSCALL_CHDIR : Z := 105.
Definition SYSCALL_EXEC : Z := 110.
Definition SYSCALL_LOAD_BINARY : Z := 111.
Definition SYSCALL_EXECVE : Z := 112.
Definition SYSCALL_SPAWN : Z := 113.
Definition SYSCALL_YIELD : Z := 114.
Definition SYSCALL_SERVICE_SPAWN : Z := 115.
Definition SYSCALL_PROC_MGMT : Z := 120.

(** ** The handlers

    One constructor per handler the dispatcher calls, with the arguments the
    handler gets and the type it returns on success. *)
Inductive Call : Type -> Type :=
| Write (fd ptr len : Z) : Call Z
| ConsoleRead (buf_ptr buf_len : Z) : Call Z
| VmarMap (process_handle vmo_handle vmo_offset size vaddr_offset flags : Z) : Call Z
| VmarMapSelf (vmo_handle vaddr_offset size flags : Z) : Call Z
| VmarUnmap (vaddr_offset size : Z) : Call unit
| VmoCreate (size : Z) : Call HandleValue
| VmoCreateChild (parent_handle offset size : Z) : Call HandleValue
| VmoRead (handle offset dst_user_va len : Z) : Call Z
| VmoWrite (handle offset src_user_va len : Z) : Call Z
| ChannelCreate : Call (HandleValue * HandleValue)
| ChannelRead (handle buf_ptr buf_len handles_ptr handles_len : Z) : Call Z
| ChannelWrite (handle buf_ptr buf_len handles_ptr handles_len : Z) : Call Z
| ChannelRegister (name_ptr name_len handle : Z) : Call unit
| ChannelLookup (name_ptr name_len : Z) : Call HandleValue
| HandleDuplicate (handle rights : Z) : Call HandleValue
| Close (handle : Z) : Call unit
| Exit (code : Z) : Call Empty_set
| ProcessCreate (name_ptr name_len : Z) : Call HandleValue
| ThreadCreate (process_handle name_ptr name_len entry stack_top : Z) : Call HandleValue
| ThreadStart (thread_handle : Z) : Call unit
| Exec (program_name : list Z) : Call unit
| Execve (path_ptr path_len argv_ptr argv_count : Z) : Call unit
| LoadBinary (vmo_handle name_ptr name_len vmo_offset : Z) : Call Z
| ServiceSpawn (desc_ptr : Z) : Call Z
| Spawn (path_ptr path_len argv_ptr argv_count : Z) : Call Z
| Yield : Call unit
| ProcMgmt (cmd arg1 arg2 arg3 : Z) : Call Z
| Getcwd (buf_ptr buf_len : Z) : Call Z
| Chdir (path_ptr path_len : Z) : Call Z
| Wait4 (pid status_out_ptr options : Z) : Call Z
| Sigaction (sig sa_handler mask flags : Z) : Call Z
| Raise (sig : Z) : Call unit
| Kill (pid sig : Z) : Call unit
| Pause : Call unit
| PipeCall (ufds_ptr : Z) : Call unit
| Dup2 (oldfd newfd : Z) : Call Z
| Gettid : Call Z
| Getpid : Call Z.

(** The [Ok] branch of the arm of a handler. *)
Definition answer {A} (c : Call A) : A -> Z :=
  match c in Call A return A -> Z with
  | VmarUnmap _ _ | ChannelRegister _ _ _ | Close _ | ThreadStart _ | Exec _ | Execve _ _ _ _ | Yield | Raise _ | Kill _ _
  | Pause | PipeCall _ => fun _ => 0
  | Chdir _ _ => fun _ => 0
  | ChannelCreate => fun hs => Z.lor hs.1 (u64w (Z.shiftl hs.2 32))
  | Exit _ => fun e => match e with end
  | Write _ _ _ | ConsoleRead _ _ | VmarMap _ _ _ _ _ _ | VmarMapSelf _ _ _ _ | VmoCreate _ | VmoCreateChild _ _ _
  | VmoRead _ _ _ _ | VmoWrite _ _ _ _ | ChannelRead _ _ _ _ _ | ChannelWrite _ _ _ _ _ | ChannelLookup _ _
  | HandleDuplicate _ _ | ProcessCreate _ _ | ThreadCreate _ _ _ _ _ | LoadBinary _ _ _ _ | ServiceSpawn _ | Spawn _ _ _ _
  | ProcMgmt _ _ _ _ | Getcwd _ _ | Wait4 _ _ _ | Sigaction _ _ _ _ | Dup2 _ _ | Gettid | Getpid => fun v => v
  end.

(** What the dispatcher and the trap need of the rest of the kernel: the
    handlers, the handle table of the current thread (0 when it has none) and
    of the kernel, the bytes at an address of the caller, and what the trap
    does to the current thread and the translation base on its way out. *)
Class Kernel (W : Type) := {
  run : forall {A}, Z -> Call A -> W -> option (kresult A * W);
  thread_table : W -> option Z;
  global_table : W -> option Z;
  caller_bytes : W -> Z -> Z -> list Z;
  set_thread_elr : Z -> W -> W;
  current_space : W -> option (Z * Z);
  set_ttbr0 : Z -> Z -> W -> W
}.

Section dispatch.
Context {W : Type} `{Kernel W}.

(** A call runs from a state to an answer in [x0] and a state. *)
Abbreviation Raw := (W -> option (Z * W)).

Definition ret (v : Z) : Raw := fun w => Some (v, w).

(** [match handler(..) { Ok(a) => .., Err(e) => e.to_raw() }]. *)
Definition arm {A} (table : Z) (c : Call A) : Raw := fun w =>
  match run table c w with
  | None => None
  | Some (Ok a, w') => Some (answer c a, w')
  | Some (Err e, w') => Some (to_raw e, w')
  end.

Definition dispatch_capability (table syscall_num arg0 arg1 arg2 arg3 arg4 arg5 : Z) : option Raw :=
  if syscall_num =? SYSCALL_VMAR_MAP then Some (arm table (VmarMap (u32w arg0) (u32w arg1) arg2 arg3 arg4 (u32w arg5)))
  else if syscall_num =? SYSCALL_VMAR_MAP_SELF then Some (arm table (VmarMapSelf (u32w arg0) arg1 arg2 (u32w arg3)))
  else if syscall_num =? SYSCALL_VMAR_UNMAP then Some (arm table (VmarUnmap arg0 arg1))
  else if syscall_num =? SYSCALL_VMO_CREATE then Some (arm table (VmoCreate arg0))
  else if syscall_num =? SYSCALL_VMO_CREATE_CHILD then Some (arm table (VmoCreateChild (u32w arg0) arg1 arg2))
  else if syscall_num =? SYSCALL_VMO_READ then Some (arm table (VmoRead (u32w arg0) arg1 arg2 arg3))
  else if syscall_num =? SYSCALL_VMO_WRITE then Some (arm table (VmoWrite (u32w arg0) arg1 arg2 arg3))
  else if syscall_num =? SYSCALL_CHANNEL_CREATE then Some (arm table ChannelCreate)
  else if syscall_num =? SYSCALL_CHANNEL_READ then Some (arm table (ChannelRead (u32w arg0) arg1 arg2 arg3 arg4))
  else if syscall_num =? SYSCALL_CHANNEL_WRITE then Some (arm table (ChannelWrite (u32w arg0) arg1 arg2 arg3 arg4))
  else if syscall_num =? SYSCALL_CHANNEL_REGISTER then Some (arm table (ChannelRegister arg0 arg1 (u32w arg2)))
  else if syscall_num =? SYSCALL_CHANNEL_LOOKUP then Some (arm table (ChannelLookup arg0 arg1))
  else if syscall_num =? SYSCALL_HANDLE_DUPLICATE then Some (arm table (HandleDuplicate (u32w arg0) (u32w arg1)))
  else if syscall_num =? SYSCALL_CLOSE then Some (arm table (Close (u32w arg0)))
  else None.

(** The arm of [SYSCALL_EXEC] reads the name where the caller has it. *)
Definition exec_arm (table name_ptr name_len : Z) : Raw := fun w =>
  if (name_ptr =? 0) || (name_len =? 0) then Some (to_raw InvalidArgs, w)
  else
    let bytes := caller_bytes w name_ptr name_len in
    if utf8_valid bytes then arm table (Exec bytes) w else Some (to_raw InvalidArgs, w).

(** Numbers with an arm and no handler; the warning they log is left out. *)
Definition reserved_numbers : list Z :=
  [SYSCALL_THREAD_EXIT; SYSCALL_PROCESS_START; SYSCALL_PROCESS_EXIT; SYSCALL_VMO_GET_SIZE; SYSCALL_VMO_SET_SIZE;
   SYSCALL_VMAR_PROTECT; SYSCALL_CHANNEL_CALL; SYSCALL_PORT_CREATE; SYSCALL_PORT_WAIT; SYSCALL_PORT_QUEUE;
   SYSCALL_EVENT_CREATE; SYSCALL_EVENT_SIGNAL; SYSCALL_EVENT_ACK; SYSCALL_TIMER_CREATE; SYSCALL_TIMER_SET;
   SYSCALL_TIMER_CANCEL; SYSCALL_FUTEX_WAIT; SYSCALL_FUTEX_WAKE].

Definition dispatch_lifecycle (table syscall_num arg0 arg1 arg2 arg3 arg4 arg5 : Z) : option Raw :=
  if syscall_num =? SYSCALL_EXIT then Some (arm table (Exit (i32w arg0)))
  else if syscall_num =? SYSCALL_PROCESS_CREATE then Some (arm table (ProcessCreate arg0 arg1))
  else if syscall_num =? SYSCALL_THREAD_CREATE then Some (arm table (ThreadCreate (u32w arg0) arg1 arg2 arg3 arg4))
  else if syscall_num =? SYSCALL_THREAD_START then Some (arm table (ThreadStart (u32w arg0)))
  else if syscall_num =? SYSCALL_EXEC then Some (exec_arm table arg0 arg1)
  else if syscall_num =? SYSCALL_EXECVE then Some (arm table (Execve arg0 arg1 arg2 arg3))
  else if syscall_num =? SYSCALL_LOAD_BINARY then Some (arm table (LoadBinary (u32w arg0) arg1 arg2 arg3))
  else if syscall_num =? SYSCALL_SERVICE_SPAWN then Some (arm table (ServiceSpawn arg0))
  else if syscall_num =? SYSCALL_SPAWN then Some (arm table (Spawn arg0 arg1 arg2 arg3))
  else if syscall_num =? SYSCALL_YIELD then Some (arm table Yield)
  else if syscall_num =? SYSCALL_PROC_MGMT then Some (arm table (ProcMgmt (u32w arg0) arg1 arg2 arg3))
  else if syscall_num =? SYSCALL_GETCWD then Some (arm table (Getcwd arg0 arg1))
  else if syscall_num =? SYSCALL_CHDIR then Some (arm table (Chdir arg0 arg1))
  else if syscall_num =? SYSCALL_WAIT4 then Some (arm table (Wait4 (i64w arg0) arg1 (i32w arg2)))
  else if syscall_num =? SYSCALL_SIGACTION then Some (arm table (Sigaction arg0 arg1 arg2 arg3))
  else if syscall_num =? SYSCALL_RAISE then Some (arm table (Raise arg0))
  else if syscall_num =? SYSCALL_KILL then Some (arm table (Kill (i64w arg0) arg1))
  else if syscall_num =? SYSCALL_PAUSE then Some (arm table Pause)
  else if syscall_num =? SYSCALL_PIPE then Some (arm table (PipeCall arg0))
  else if syscall_num =? SYSCALL_DUP2 then Some (arm table (Dup2 (u32w arg0) (u32w arg1)))
  else if syscall_num =? SYSCALL_GET_TID then Some (arm table Gettid)
  else if syscall_num =? SYSCALL_GET_PID then Some (arm table Getpid)
  else if bool_decide (syscall_num ∈ reserved_numbers) then Some (ret (to_raw NotAllowed))
  else None.

Definition caller_table (w : W) : option Z :=
  match thread_table w with
  | Some t => if t =? 0 then global_table w else Some t
  | None => global_table w
  end.

Definition syscall_dispatch (syscall_num arg0 arg1 arg2 arg3 arg4 arg5 : Z) : Raw := fun w =>
  match caller_table w with
  | None => Some (to_raw NotAllowed, w)
  | Some table =>
      if (syscall_num =? SYSCALL_WRITE) && ((arg0 =? 1) || (arg0 =? 2)) then arm table (Write arg0 arg1 arg2) w
      else if (syscall_num =? SYSCALL_READ) && (arg0 =? 0) then arm table (ConsoleRead arg1 arg2) w
      else
        match dispatch_capability table syscall_num arg0 arg1 arg2 arg3 arg4 arg5 with
        | Some res => res w
        | None =>
            match dispatch_lifecycle table syscall_num arg0 arg1 arg2 arg3 arg4 arg5 with
            | Some res => res w
            | None => Some (to_raw NotAllowed, w)
            end
        end
  end.
End dispatch.

(** ** The trap (trap.rs)

    The registers the assembly stub saves; [fx] has [x0] to [x18]. *)
Record TrapFrame := mkFrame { fx : list Z; spsr : Z; elr : Z; esr : Z; far : Z; lr : Z; sp : Z }.

Definition reg (n : nat) (f : TrapFrame) : Z := default 0 (fx f !! n).
Definition set_reg (n : nat) (v : Z) (f : TrapFrame) : TrapFrame :=
  mkFrame (<[n := v]> (fx f)) (spsr f) (elr f) (esr f) (far f) (lr f) (sp f).

(** The exception class of a syndrome. *)
Definition exception_class (esr : Z) : Z := Z.land (Z.shiftr esr 26) 0x3F.
Definition is_svc (ec : Z) : bool := (ec =? 0x11) || (ec =? 0x15).

Section trap.
Context {W : Type} `{Kernel W}.

(** The tail of the handler: the program counter to resume at goes to the
    thread and the translation base is loaded again. *)
Definition leave_trap (pc : Z) (w : W) : W :=
  let w := set_thread_elr pc w in
  match current_space w with Some (l0_pa, asid) => set_ttbr0 l0_pa asid w | None => w end.

(** [aarch64_sync_el0_handler]; any other exception ends the thread. *)
Definition aarch64_sync_el0_handler (f : TrapFrame) (w : W) : option (TrapFrame * W) :=
  if is_svc (exception_class (esr f)) then
    '(v, w') ← syscall_dispatch (u32w (reg 16 f)) (reg 0 f) (reg 1 f) (reg 2 f) (reg 3 f) (reg 4 f) (reg 5 f) w;
    Some (set_reg 0 v f, leave_trap (elr f) w')
  else None.

(** ** The [syscall!] macro

    [u] has the registers of the program at the [svc #0].  A number is a
    [u32], so the upper half of [x16] is what it was. *)
Definition svc_frame (u : TrapFrame) (num a0 a1 a2 a3 a4 a5 : Z) : TrapFrame :=
  let f := set_reg 0 (u64w a0) (set_reg 1 (u64w a1) (set_reg 2 (u64w a2) (set_reg 3 (u64w a3) (set_reg 4 (u64w a4)
             (set_reg 5 (u64w a5) (set_reg 16 (num + 2 ^ 32 * (reg 16 u / 2 ^ 32)) u)))))) in
  mkFrame (fx f) (spsr f) (elr f) (Z.shiftl 0x15 26) (far f) (lr f) (sp f).

Definition syscall (u : TrapFrame) (num a0 a1 a2 a3 a4 a5 : Z) (w : W) : option (Z * W) :=
  '(f, w') ← aarch64_sync_el0_handler (svc_frame u num a0 a1 a2 a3 a4 a5) w; Some (reg 0 f, w').

(** [if (ret as isize) < 0 { Err(Status::from_raw(ret as i32)) } else { Ok(..) }]. *)
Definition reply {B} (ok : Z -> B) (x : option (Z * W)) : option (kresult B * W) :=
  '(v, w) ← x; Some (if i64w v <? 0 then Err (from_raw (i32w v)) else Ok (ok v), w).

Definition no_value (v : Z) : unit := tt.

(** ** libcapsule

    A slice or a string is an address and a length. *)
Section libcapsule.
Context (u : TrapFrame) (w : W).

(** [channel_create] takes 0 for the failure. *)
Definition channel_create : option (kresult Z * W) :=
  '(v, w') ← syscall u SYSCALL_CHANNEL_CREATE 0 0 0 0 0 0 w;
  Some (if v =? 0 then Err (from_raw (i32w v)) else Ok v, w').

Definition channel_read (handle buf buf_len handles handles_len : Z) : option (kresult Z * W) :=
  reply id (syscall u SYSCALL_CHANNEL_READ handle buf buf_len handles handles_len 0 w).
Definition channel_write (handle buf buf_len handles handles_len : Z) : option (kresult Z * W) :=
  reply id (syscall u SYSCALL_CHANNEL_WRITE handle buf buf_len handles handles_len 0 w).
Definition channel_register (name name_len handle : Z) : option (kresult unit * W) :=
  reply no_value (syscall u SYSCALL_CHANNEL_REGISTER name name_len handle 0 0 0 w).
Definition channel_lookup (name name_len : Z) : option (kresult Z * W) :=
  reply id (syscall u SYSCALL_CHANNEL_LOOKUP name name_len 0 0 0 0 w).
Definition close (handle : Z) : option (kresult unit * W) :=
  reply no_value (syscall u SYSCALL_CLOSE handle 0 0 0 0 0 w).
Definition yield_cpu : option (Z * W) :=
  '(v, w') ← syscall u SYSCALL_YIELD 0 0 0 0 0 0 w; Some (i64w v, w').
Definition vmo_create (size : Z) : option (kresult Z * W) :=
  reply id (syscall u SYSCALL_VMO_CREATE size 0 0 0 0 0 w).
Definition vmo_create_child (parent_handle offset size : Z) : option (kresult Z * W) :=
  reply id (syscall u SYSCALL_VMO_CREATE_CHILD parent_handle offset size 0 0 0 w).
Definition vmo_read (handle offset buf buf_len : Z) : option (kresult Z * W) :=
  reply id (syscall u SYSCALL_VMO_READ handle offset buf buf_len 0 0 w).
Definition vmo_write (handle offset buf buf_len : Z) : option (kresult Z * W) :=
  reply id (syscall u SYSCALL_VMO_WRITE handle offset buf buf_len 0 0 w).
Definition handle_duplicate (handle rights : Z) : option (kresult Z * W) :=
  reply id (syscall u SYSCALL_HANDLE_DUPLICATE handle rights 0 0 0 0 w).
Definition vmar_map_self (vmo_handle vaddr_offset size flags : Z) : option (kresult Z * W) :=
  reply id (syscall u SYSCALL_VMAR_MAP_SELF vmo_handle vaddr_offset size flags 0 0 w).
Definition vmar_unmap (vaddr_offset size : Z) : option (kresult unit * W) :=
  reply no_value (syscall u SYSCALL_VMAR_UNMAP vaddr_offset size 0 0 0 0 w).
Definition process_create (name name_len : Z) : option (kresult Z * W) :=
  reply id (syscall u SYSCALL_PROCESS_CREATE name name_len 0 0 0 0 w).
Definition load_binary (vmo_handle name name_len offset : Z) : option (kresult Z * W) :=
  reply id (syscall u SYSCALL_LOAD_BINARY vmo_handle name name_len offset 0 0 w).
Definition wait4 (pid status_ptr options : Z) : option (kresult Z * W) :=
  reply id (syscall u SYSCALL_WAIT4 pid status_ptr options 0 0 0 w).
Definition proc_mgmt (cmd arg1 arg2 arg3 : Z) : option (kresult Z * W) :=
  reply id (syscall u SYSCALL_PROC_MGMT cmd arg1 arg2 arg3 0 0 w).
Definition thread_create (process_handle entry_pc arg0 arg1 stack_size : Z) : option (kresult Z * W) :=
  reply id (syscall u SYSCALL_THREAD_CREATE process_handle entry_pc arg0 arg1 stack_size 0 w).
Definition thread_start (thread_handle : Z) : option (kresult unit * W) :=
  reply no_value (syscall u SYSCALL_THREAD_START thread_handle 0 0 0 0 0 w).
End libcapsule.

(** [service_spawn] prints what came back: [temp] is the buffer on its stack
    and [banner] the 22 bytes in it. *)
Definition hex_digit (b : Z) : Z := if b <? 10 then u8w (48 + b) else u8w (65 + (b - 10)).
Definition banner (v : Z) : list Z :=
  lit "SPAWN RETURN "%string
    ++ map (fun i => hex_digit (Z.land (Z.shiftr v (4 * i)) 0xF)) [7; 6; 5; 4; 3; 2; 1; 0] ++ [10].

Definition service_spawn (u : TrapFrame) (desc temp : Z) (w : W) : option (kresult Z * W) :=
  '(v, w1) ← syscall u SYSCALL_SERVICE_SPAWN desc 0 0 0 0 0 w;
  '(_, w2) ← syscall u SYSCALL_WRITE 1 temp 22 0 0 0 w1;
  reply id (Some (v, w2)).

(** The table of [spawn] and of [execve_impl]: sixteen pairs of an address
    and a length, in little-endian bytes. *)
Fixpoint put_pairs (i : nat) (args : list (Z * Z)) (pairs : list (list Z)) : list (list Z) :=
  match args with
  | [] => pairs
  | (ptr, len) :: rest =>
      if (16 <=? i)%nat then pairs
      else put_pairs (S i) rest (<[i := le 8 ptr ++ le 8 len]> pairs)
  end.
Definition pairs_of (args : list (Z * Z)) : list Z := mjoin (put_pairs 0 args (replicate 16 (replicate 16 0))).
Definition argv_at (pairs_ptr : Z) (args : list (Z * Z)) : Z := if (0 <? Z.of_nat (length args)) then pairs_ptr else 0.

(** [pairs_ptr] is where the table lies. *)
Definition spawn (u : TrapFrame) (path path_len pairs_ptr : Z) (args : list (Z * Z)) (w : W) : option (kresult Z * W) :=
  reply id (syscall u SYSCALL_SPAWN path path_len (argv_at pairs_ptr args) (Z.of_nat (length args)) 0 0 w).

(** ** libc *)
Section libc.
Context (u : TrapFrame) (w : W).

(** [exit] spins when the call comes back. *)
Definition exit (code : Z) : option (Empty_set * W) := _ ← syscall u SYSCALL_EXIT code 0 0 0 0 0 w; None.
Definition write_fd (fd ptr len : Z) : option (Z * W) := syscall u SYSCALL_WRITE fd ptr len 0 0 0 w.
Definition exec_impl (name name_len : Z) : option (Z * W) :=
  '(v, w') ← syscall u SYSCALL_EXEC name name_len 0 0 0 0 w; Some (i32w v, w').
Definition execve_impl (path path_len pairs_ptr : Z) (args : list (Z * Z)) : option (Z * W) :=
  '(v, w') ← syscall u SYSCALL_EXECVE path path_len (argv_at pairs_ptr args) (Z.of_nat (length args)) 0 0 w; Some (i32w v, w').
Definition getcwd (buf buf_len : Z) : option (kresult Z * W) :=
  reply id (syscall u SYSCALL_GETCWD buf buf_len 0 0 0 0 w).
Definition chdir (path path_len : Z) : option (kresult unit * W) :=
  reply no_value (syscall u SYSCALL_CHDIR path path_len 0 0 0 0 w).
(** The status word is left where [status_ptr] points. *)
Definition libc_wait4 (pid status_ptr options : Z) : option (kresult (Z * Z) * W) :=
  reply (fun v => (v, 0)) (syscall u SYSCALL_WAIT4 pid status_ptr options 0 0 0 w).
Definition getppid : option (kresult Z * W) := reply id (syscall u SYSCALL_GET_PID 0 0 0 0 0 0 w).
Definition sigaction (sig sa_handler mask flags : Z) : option (kresult Z * W) :=
  reply id (syscall u SYSCALL_SIGACTION sig sa_handler mask flags 0 0 w).
Definition raise (sig : Z) : option (kresult unit * W) :=
  reply no_value (syscall u SYSCALL_RAISE sig 0 0 0 0 0 w).
Definition kill (pid sig : Z) : option (kresult unit * W) :=
  reply no_value (syscall u SYSCALL_KILL pid sig 0 0 0 0 w).
Definition pause : option (kresult unit * W) := reply no_value (syscall u SYSCALL_PAUSE 0 0 0 0 0 0 w).
Definition pipe (ufds_ptr : Z) : option (kresult unit * W) :=
  reply no_value (syscall u SYSCALL_PIPE ufds_ptr 0 0 0 0 0 w).
Definition pipe_pair (ufds : Z) : option (kresult unit * W) := pipe ufds.
Definition dup2 (oldfd newfd : Z) : option (kresult Z * W) :=
  reply i32w (syscall u SYSCALL_DUP2 oldfd newfd 0 0 0 0 w).
End libc.
End trap.

(** ** What a call amounts to *)
Section reach.
Context {W : Type} `{Kernel W}.

(** An answer the reply can tell from a failure. *)
Definition answer_ok {A} (c : Call A) (r : kresult A) : Prop :=
  match r with Ok a => 0 <= answer c a < 2 ^ 63 | Err e => e <> SOk end.

Definition fits {A} (table : Z) (c : Call A) (w : W) : Prop :=
  forall r w', run table c w = Some (r, w') -> answer_ok c r.

(** The handler's outcome, seen through [f], and the way out of the trap. *)
Definition outcome_of {A B} (u : TrapFrame) (table : Z) (c : Call A) (f : A -> B) (w : W) : option (kresult B * W) :=
  '(r, w') ← run table c w; Some (f <$> (r : kresult A), leave_trap (elr u) w').

Definition usize (z : Z) : Prop := 0 <= z < 2 ^ 64.
Definition u32 (z : Z) : Prop := 0 <= z < 2 ^ 32.
Definition i64 (z : Z) : Prop := - 2 ^ 63 <= z < 2 ^ 63.
Definition i32 (z : Z) : Prop := - 2 ^ 31 <= z < 2 ^ 31.

(** What each wrapper stands for: the handler it is answered by, with the
    arguments it gets there, and what becomes of the answer.  A handle is
    narrowed to 32 bits.  [ThreadCreate] takes its entry point and its stack
    from the wrapper's [arg1] and [stack_size]; [getppid] is answered by
    [Getpid]. *)
Inductive wraps (u : TrapFrame) : forall {A B}, (W -> option (kresult B * W)) -> Call A -> (A -> B) -> Prop :=
| W_channel_read h b n hs k : Forall usize [h; b; n; hs; k] ->
    wraps u (fun w => channel_read u w h b n hs k) (ChannelRead (u32w h) b n hs k) id
| W_channel_write h b n hs k : Forall usize [h; b; n; hs; k] ->
    wraps u (fun w => channel_write u w h b n hs k) (ChannelWrite (u32w h) b n hs k) id
| W_channel_register s n h : Forall usize [s; n; h] ->
    wraps u (fun w => channel_register u w s n h) (ChannelRegister s n (u32w h)) id
| W_channel_lookup s n : Forall usize [s; n] -> wraps u (fun w => channel_lookup u w s n) (ChannelLookup s n) id
| W_close h : usize h -> wraps u (fun w => close u w h) (Close (u32w h)) id
| W_vmo_create n : usize n -> wraps u (fun w => vmo_create u w n) (VmoCreate n) id
| W_vmo_create_child h o n : Forall usize [h; o; n] ->
    wraps u (fun w => vmo_create_child u w h o n) (VmoCreateChild (u32w h) o n) id
| W_vmo_read h o b n : Forall usize [h; o; b; n] -> wraps u (fun w => vmo_read u w h o b n) (VmoRead (u32w h) o b n) id
| W_vmo_write h o b n : Forall usize [h; o; b; n] -> wraps u (fun w => vmo_write u w h o b n) (VmoWrite (u32w h) o b n) id
| W_handle_duplicate h r : usize h -> u32 r -> wraps u (fun w => handle_duplicate u w h r) (HandleDuplicate (u32w h) r) id
| W_vmar_map_self h o n fl : Forall usize [h; o; n] -> u32 fl ->
    wraps u (fun w => vmar_map_self u w h o n fl) (VmarMapSelf (u32w h) o n fl) id
| W_vmar_unmap o n : Forall usize [o; n] -> wraps u (fun w => vmar_unmap u w o n) (VmarUnmap o n) id
| W_process_create s n : Forall usize [s; n] -> wraps u (fun w => process_create u w s n) (ProcessCreate s n) id
| W_load_binary h s n o : Forall usize [h; s; n; o] ->
    wraps u (fun w => load_binary u w h s n o) (LoadBinary (u32w h) s n o) id
| W_wait4 pid st o : i64 pid -> usize st -> i32 o -> wraps u (fun w => wait4 u w pid st o) (Wait4 pid st o) id
| W_spawn s n p args : Forall usize [s; n; p] -> usize (Z.of_nat (length args)) ->
    wraps u (spawn u s n p args) (Spawn s n (argv_at p args) (Z.of_nat (length args))) id
| W_proc_mgmt cmd a b c : u32 cmd -> Forall usize [a; b; c] ->
    wraps u (fun w => proc_mgmt u w cmd a b c) (ProcMgmt cmd a b c) id
| W_thread_create h entry_pc arg0 arg1 stack_size : u32 h -> Forall usize [entry_pc; arg0; arg1; stack_size] ->
    wraps u (fun w => thread_create u w h entry_pc arg0 arg1 stack_size)
      (ThreadCreate h entry_pc arg0 arg1 stack_size) id
| W_thread_start h : u32 h -> wraps u (fun w => thread_start u w h) (ThreadStart h) id
| W_getcwd b n : Forall usize [b; n] -> wraps u (fun w => getcwd u w b n) (Getcwd b n) id
| W_chdir s n : Forall usize [s; n] -> wraps u (fun w => chdir u w s n) (Chdir s n) no_value
| W_libc_wait4 pid st o : i64 pid -> usize st -> i32 o ->
    wraps u (fun w => libc_wait4 u w pid st o) (Wait4 pid st o) (fun v => (v, 0))
| W_getppid : wraps u (fun w => getppid u w) Getpid id
| W_sigaction sig h m fl : Forall usize [sig; h; m; fl] ->
    wraps u (fun w => sigaction u w sig h m fl) (Sigaction sig h m fl) id
| W_raise sig : usize sig -> wraps u (fun w => raise u w sig) (Raise sig) id
| W_kill pid sig : i64 pid -> usize sig -> wraps u (fun w => kill u w pid sig) (Kill pid sig) id
| W_pause : wraps u (fun w => pause u w) Pause id
| W_pipe p : usize p -> wraps u (fun w => pipe u w p) (PipeCall p) id
| W_dup2 o n : i32 o -> i32 n -> wraps u (fun w => dup2 u w o n) (Dup2 (u32w o) (u32w n)) i32w.

(** The wrappers that take the answer as it comes, from the state [w]:
    [channel_create], which only knows 0 as a failure, [yield_cpu],
    [exec_impl], [execve_impl] and the writes to the console. *)
Inductive passes (u : TrapFrame) (w : W) : forall {A B}, option (B * W) -> Call A -> (Z -> B) -> Prop :=
| P_channel_create :
    passes u w (channel_create u w) ChannelCreate (fun v => if v =? 0 then Err (from_raw (i32w v)) else Ok v)
| P_yield_cpu : passes u w (yield_cpu u w) Yield i64w
| P_exec_impl s n : Forall usize [s; n] -> s <> 0 -> n <> 0 -> utf8_valid (caller_bytes w s n) = true ->
    passes u w (exec_impl u w s n) (Exec (caller_bytes w s n)) i32w
| P_execve_impl s n p args : Forall usize [s; n; p] -> usize (Z.of_nat (length args)) ->
    passes u w (execve_impl u w s n p args) (Execve s n (argv_at p args) (Z.of_nat (length args))) i32w
| P_write_fd fd b n : fd = 1 \/ fd = 2 -> Forall usize [b; n] -> passes u w (write_fd u w fd b n) (Write fd b n) id.

Lemma reg_set_same n v f : (n < length (fx f))%nat -> reg n (set_reg n v f) = v.
Proof. intros Hn. unfold reg, set_reg. cbn [fx]. by rewrite list_lookup_insert_eq. Qed.

Lemma reg_set_ne n m v f : n <> m -> reg n (set_reg m v f) = reg n f.
Proof. intros Hn. unfold reg, set_reg. cbn [fx]. by rewrite list_lookup_insert_ne. Qed.

Lemma length_set_reg n v f : length (fx (set_reg n v f)) = length (fx f).
Proof. apply length_insert. Qed.

(** The number and the arguments arrive; only [x0] changes. *)
Lemma syscall_is_dispatch u num a0 a1 a2 a3 a4 a5 w :
  length (fx u) = 19%nat -> u32 num ->
  syscall u num a0 a1 a2 a3 a4 a5 w =
  '(v, w') ← syscall_dispatch num (u64w a0) (u64w a1) (u64w a2) (u64w a3) (u64w a4) (u64w a5) w;
  Some (v, leave_trap (elr u) w').
Proof.
  intros Hlen Hnum. unfold syscall, aarch64_sync_el0_handler, svc_frame. cbn [esr].
  change (is_svc (exception_class (Z.shiftl 21 26))) with true. cbv beta iota zeta.
  set (f := set_reg 0 _ _). set (g := mkFrame _ _ _ _ _ _ _).
  assert (Hg : forall n, reg n g = reg n f) by done.
  assert (Hf : length (fx f) = 19%nat) by (unfold f; by rewrite !length_set_reg).
  assert (Hn : u32w (reg 16 g) = num).
  { rewrite Hg. unfold f. rewrite !reg_set_ne, reg_set_same by lia. unfold u32w.
    rewrite Z.mul_comm, Z.mod_add by lia. by apply Z.mod_small. }
  assert (Ha : reg 0 g = u64w a0 /\ reg 1 g = u64w a1 /\ reg 2 g = u64w a2 /\ reg 3 g = u64w a3 /\ reg 4 g = u64w a4 /\
               reg 5 g = u64w a5).
  { rewrite !Hg. unfold f. split_and!; rewrite ?reg_set_ne by lia; apply reg_set_same; rewrite !length_set_reg; lia. }
  destruct Ha as (-> & -> & -> & -> & -> & ->). rewrite Hn.
  destruct (syscall_dispatch _ _ _ _ _ _ _ w) as [[v w']|]; [|done]. cbn [mbind option_bind].
  rewrite reg_set_same; [done|]. change (fx g) with (fx f). lia.
Qed.

Lemma i64w_small z : 0 <= z < 2 ^ 63 -> i64w z = z.
Proof. intros Hz. unfold i64w. rewrite Z.mod_small; lia. Qed.

Lemma reply_err {B} (ok : Z -> B) e (w : W) : e <> SOk -> reply ok (Some (to_raw e, w)) = Some (Err e, w).
Proof. by destruct e. Qed.

(** A wrapper around an arm gives the outcome of the handler. *)
Lemma reply_arm {A B} u table (c : Call A) (ok : Z -> B) (f : A -> B) w :
  fits table c w -> (forall a, ok (answer c a) = f a) ->
  reply ok ('(v, w') ← arm table c w; Some (v, leave_trap (elr u) w')) = outcome_of u table c f w.
Proof.
  intros Hfit Hok. unfold arm, outcome_of. destruct (run table c w) as [[[a|e] w']|] eqn:E; [| |done]; cbn [mbind option_bind].
  - specialize (Hfit _ _ E). cbn in Hfit. unfold reply. cbn [mbind option_bind].
    rewrite i64w_small by done. destruct (Z.ltb_spec (answer c a) 0); [lia|]. by rewrite Hok.
  - rewrite reply_err; [done|]. exact (Hfit _ _ E).
Qed.
End reach.

(** ** The calls arrive *)
Lemma low_half z : (z mod 2 ^ 64) mod 2 ^ 32 = z mod 2 ^ 32.
Proof. apply Z.mod_mod_divide. by exists (2 ^ 32). Qed.

Lemma u32_back z : u32w (u64w z) = u32w z.
Proof. apply low_half. Qed.

Lemma u32_same z : u32 z -> u32w z = z.
Proof. intros Hz. by apply Z.mod_small. Qed.

Lemma usize_same z : usize z -> u64w z = z.
Proof. intros Hz. by apply Z.mod_small. Qed.

Lemma i64_back z : i64 z -> i64w (u64w z) = z.
Proof. unfold i64, i64w, u64w. intros Hz. rewrite Z.add_mod_idemp_l by lia. rewrite Z.mod_small; lia. Qed.

Lemma i32_back z : i32 z -> i32w (u64w z) = z.
Proof.
  unfold i32, i32w, u64w. intros Hz. rewrite <- (Z.add_mod_idemp_l _ (2 ^ 31)), low_half, Z.add_mod_idemp_l by lia.
  rewrite Z.mod_small; lia.
Qed.

Lemma argv_usize p args : usize p -> usize (argv_at p args).
Proof. unfold argv_at, usize. case_match; lia. Qed.

(** The narrowing casts of the dispatcher undo the widening ones of the macro. *)
Ltac narrow :=
  repeat match goal with
  | Hz : usize ?z |- context [u64w ?z] => rewrite (usize_same z Hz)
  | Hz : usize ?z |- context [u64w (argv_at ?z ?l)] => rewrite (usize_same _ (argv_usize z l Hz))
  | Hz : i64 ?z |- context [i64w (u64w ?z)] => rewrite (i64_back z Hz)
  | Hz : i32 ?z |- context [i32w (u64w ?z)] => rewrite (i32_back z Hz)
  | |- context [u32w (u64w ?z)] => rewrite (u32_back z)
  | Hz : u32 ?z |- context [u32w ?z] => rewrite (u32_same z Hz)
  end.

Section calls.
Context {W : Type} `{Kernel W}.

Lemma dispatch_arm {A} table (c : Call A) num a0 a1 a2 a3 a4 a5 w :
  caller_table w = Some table ->
  (num =? SYSCALL_WRITE) = false -> (num =? SYSCALL_READ) = false ->
  match dispatch_capability table num a0 a1 a2 a3 a4 a5 with
  | Some x => Some x
  | None => dispatch_lifecycle table num a0 a1 a2 a3 a4 a5
  end = Some (arm table c) ->
  syscall_dispatch num a0 a1 a2 a3 a4 a5 w = arm table c w.
Proof.
  intros Ht Hw Hr Hd. unfold syscall_dispatch. rewrite Ht, Hw, Hr. cbn [andb].
  destruct (dispatch_capability _ _ _ _ _ _ _ _); [by injection Hd as ->|].
  destruct (dispatch_lifecycle _ _ _ _ _ _ _ _); [by injection Hd as ->|done].
Qed.

(** A wrapper that issues [num] is answered by [c]. *)
Lemma wrapper_reaches {A B} u table (c : Call A) (ok : Z -> B) (f : A -> B) num a0 a1 a2 a3 a4 a5 w :
  length (fx u) = 19%nat -> u32 num -> caller_table w = Some table -> fits table c w ->
  (num =? SYSCALL_WRITE) = false -> (num =? SYSCALL_READ) = false ->
  match dispatch_capability table num (u64w a0) (u64w a1) (u64w a2) (u64w a3) (u64w a4) (u64w a5) with
  | Some x => Some x
  | None => dispatch_lifecycle table num (u64w a0) (u64w a1) (u64w a2) (u64w a3) (u64w a4) (u64w a5)
  end = Some (arm table c) ->
  (forall a, ok (answer c a) = f a) ->
  reply ok (syscall u num a0 a1 a2 a3 a4 a5 w) = outcome_of u table c f w.
Proof.
  intros Hlen Hnum Ht Hfit Hw Hr Hd Hok. rewrite syscall_is_dispatch by done.
  rewrite (dispatch_arm _ _ _ _ _ _ _ _ _ _ Ht Hw Hr Hd). by apply reply_arm.
Qed.

(** The table [wraps] holds of the wrappers. *)
Lemma wraps_outcome {A B} u table (lib : W -> option (kresult B * W)) (c : Call A) (f : A -> B) w :
  length (fx u) = 19%nat -> caller_table w = Some table -> wraps u lib c f -> fits table c w ->
  lib w = outcome_of u table c f w.
Proof.
  intros Hlen Ht Hw Hfit.
  destruct Hw; repeat match goal with Hall : Forall usize _ |- _ => rewrite ?Forall_cons in Hall end; destruct_and?;
    (eapply wrapper_reaches; [done|done|done|exact Hfit|done|done| |by intros; try destruct a]);
    unfold dispatch_capability, dispatch_lifecycle; narrow; reflexivity.
Qed.

(** The same for a run that is known. *)
Lemma wraps_run {A B} u table (lib : W -> option (kresult B * W)) (c : Call A) (f : A -> B) w r w' :
  length (fx u) = 19%nat -> caller_table w = Some table -> wraps u lib c f -> run table c w = Some (r, w') -> answer_ok c r ->
  lib w = Some (f <$> r, leave_trap (elr u) w').
Proof.
  intros Hlen Ht Hw Hrun Hr. rewrite (wraps_outcome u table lib c f w Hlen Ht Hw).
  - unfold outcome_of. by rewrite Hrun.
  - intros r2 w2. rewrite Hrun. by intros [= <- <-].
Qed.

(** So does [passes]: the answer is that of the arm. *)
Lemma passes_run {A B} u table w (lib : option (B * W)) (c : Call A) (g : Z -> B) :
  length (fx u) = 19%nat -> caller_table w = Some table -> passes u w lib c g ->
  lib = '(v, w') ← arm table c w; Some (g v, leave_trap (elr u) w').
Proof.
  intros Hlen Ht Hp.
  assert (Hx : forall (B' : Type) (h : Z -> B') num a0 a1 a2 a3 a4 a5 (X : option (Z * W)), u32 num -> 
    syscall_dispatch num (u64w a0) (u64w a1) (u64w a2) (u64w a3) (u64w a4) (u64w a5) w = X ->
    ('(v, w') ← syscall u num a0 a1 a2 a3 a4 a5 w; Some (h v, w')) = '(v, w') ← X; Some (h v, leave_trap (elr u) w')).
  { intros B' h num a0 a1 a2 a3 a4 a5 X Hn <-. rewrite syscall_is_dispatch by done. by destruct (syscall_dispatch _ _ _ _ _ _ _ _) as [[v w']|]. }
  destruct Hp as [| |s n Hu Hs Hn Hb|s n p args Hu Hk|fd b n Hfd Hu].
  - apply Hx; [done|]. by apply dispatch_arm.
  - apply Hx; [done|]. by apply dispatch_arm.
  - rewrite !Forall_cons in Hu. destruct_and?. apply Hx; [done|]. unfold syscall_dispatch. rewrite Ht.
    change (exec_arm table (u64w s) (u64w n) w = arm table (Exec (caller_bytes w s n)) w).
    rewrite !usize_same by done. unfold exec_arm. rewrite !(proj2 (Z.eqb_neq _ _)) by done. cbn [orb]. by rewrite Hb.
  - rewrite !Forall_cons in Hu. destruct_and?. apply Hx; [done|].
    apply dispatch_arm; [done..|]. rewrite !usize_same by (done || by apply argv_usize). done.
  - rewrite !Forall_cons in Hu. destruct_and?. unfold write_fd. rewrite syscall_is_dispatch by done. unfold syscall_dispatch. rewrite Ht.
    rewrite (usize_same b), (usize_same n) by done. by destruct Hfd as [-> | ->].
Qed.

(** Every number that is answered by a handler. *)
Definition answered_numbers : list Z :=
  [SYSCALL_VMAR_MAP; SYSCALL_VMAR_MAP_SELF; SYSCALL_VMAR_UNMAP; SYSCALL_VMO_CREATE; SYSCALL_VMO_CREATE_CHILD; SYSCALL_VMO_READ;
   SYSCALL_VMO_WRITE; SYSCALL_CHANNEL_CREATE; SYSCALL_CHANNEL_READ; SYSCALL_CHANNEL_WRITE; SYSCALL_CHANNEL_REGISTER;
   SYSCALL_CHANNEL_LOOKUP; SYSCALL_HANDLE_DUPLICATE; SYSCALL_CLOSE; SYSCALL_EXIT; SYSCALL_PROCESS_CREATE;
   SYSCALL_THREAD_CREATE; SYSCALL_THREAD_START; SYSCALL_EXEC; SYSCALL_EXECVE; SYSCALL_LOAD_BINARY; SYSCALL_SERVICE_SPAWN;
   SYSCALL_SPAWN; SYSCALL_YIELD; SYSCALL_PROC_MGMT; SYSCALL_GETCWD; SYSCALL_CHDIR; SYSCALL_WAIT4; SYSCALL_SIGACTION;
   SYSCALL_RAISE; SYSCALL_KILL; SYSCALL_PAUSE; SYSCALL_PIPE; SYSCALL_DUP2; SYSCALL_GET_TID; SYSCALL_GET_PID].

(** The two numbers the dispatcher looks at first. *)
Definition console_call (num arg0 : Z) : bool :=
  (num =? SYSCALL_WRITE) && ((arg0 =? 1) || (arg0 =? 2)) || (num =? SYSCALL_READ) && (arg0 =? 0).

Lemma not_answered_capability table num a0 a1 a2 a3 a4 a5 :
  num ∉ answered_numbers -> dispatch_capability table num a0 a1 a2 a3 a4 a5 = None.
Proof.
  unfold answered_numbers. intros Hn. rewrite !not_elem_of_cons in Hn. destruct_and?.
  unfold dispatch_capability. by repeat (rewrite (proj2 (Z.eqb_neq _ _)) by done).
Qed.

Lemma not_answered_lifecycle table num a0 a1 a2 a3 a4 a5 :
  num ∉ answered_numbers ->
  dispatch_lifecycle table num a0 a1 a2 a3 a4 a5 = (if bool_decide (num ∈ reserved_numbers) then Some (ret (to_raw NotAllowed)) else None).
Proof.
  unfold answered_numbers. intros Hn. rewrite !not_elem_of_cons in Hn. destruct_and?.
  unfold dispatch_lifecycle. by repeat (rewrite (proj2 (Z.eqb_neq _ _)) by done).
Qed.

Lemma dispatch_refuses num a0 a1 a2 a3 a4 a5 w :
  num ∉ answered_numbers -> console_call num a0 = false ->
  syscall_dispatch num a0 a1 a2 a3 a4 a5 w = Some (to_raw NotAllowed, w).
Proof.
  intros Hn [Hw Hr]%orb_false_elim. unfold syscall_dispatch. destruct (caller_table w) as [table|]; [|done].
  rewrite Hw, Hr, not_answered_capability, not_answered_lifecycle by done. by case_bool_decide.
Qed.

(** [channel_create] gives every error of the handler as a pair of handles. *)
Lemma channel_create_hides_errors u table e w w' :
  length (fx u) = 19%nat -> caller_table w = Some table -> run table ChannelCreate w = Some (Err e, w') -> e <> SOk ->
  channel_create u w = Some (Ok (to_raw e), leave_trap (elr u) w').
Proof.
  intros Hlen Ht Hrun He. unfold channel_create. rewrite syscall_is_dispatch by done.
  rewrite (dispatch_arm table ChannelCreate) by done. unfold arm. rewrite Hrun. cbn [mbind option_bind].
  destruct (Z.eqb_spec (to_raw e) 0) as [E|E]; [by destruct e|done].
Qed.
End calls.

(** ** The table of arguments *)
Lemma length_put_pairs i args pairs : length (put_pairs i args pairs) = length pairs.
Proof.
  revert i pairs. induction args as [|[ptr len] args IH]; intros i pairs; [done|]. cbn [put_pairs].
  case_match; [done|]. by rewrite IH, length_insert.
Qed.

Lemma put_pairs_before i j args pairs : (j < i)%nat -> put_pairs i args pairs !! j = pairs !! j.
Proof.
  revert i pairs. induction args as [|[ptr len] args IH]; intros i pairs Hj; [done|]. cbn [put_pairs].
  case_match; [done|]. rewrite IH by lia. by rewrite list_lookup_insert_ne by lia.
Qed.

Lemma put_pairs_at i j args pairs ptr len :
  args !! j = Some (ptr, len) -> (i + j < 16)%nat -> length pairs = 16%nat ->
  put_pairs i args pairs !! (i + j)%nat = Some (le 8 ptr ++ le 8 len).
Proof.
  revert i j pairs. induction args as [|[p l] args IH]; intros i j pairs Hj Hi Hlen; [by destruct j|]. cbn [put_pairs].
  rewrite (proj2 (Nat.leb_gt 16 i)) by lia. destruct j as [|j]; cbn in Hj.
  - injection Hj as -> ->. rewrite Nat.add_0_r, put_pairs_before by lia. by apply list_lookup_insert_eq; lia.
  - replace (i + S j)%nat with (S i + j)%nat by lia. apply IH; [done|lia|by rewrite length_insert].
Qed.

Lemma put_pairs_width i args pairs :
  Forall (fun p => length p = 16%nat) pairs -> Forall (fun p => length p = 16%nat) (put_pairs i args pairs).
Proof.
  revert i pairs. induction args as [|[ptr len] args IH]; intros i pairs Hp; [done|]. cbn [put_pairs].
  case_match; [done|]. apply IH. apply Forall_insert; [done|]. by rewrite length_app, !length_le.
Qed.

Lemma joined_at (ls : list (list Z)) k j x :
  Forall (fun p => length p = k) ls -> ls !! j = Some x -> take k (drop (k * j) (mjoin ls)) = x.
Proof.
  revert j. induction ls as [|l ls IH]; intros j Hk Hj; [done|]. apply Forall_cons in Hk as [Hl Hk].
  change (mjoin (l :: ls)) with (l ++ mjoin ls). destruct j as [|j]; cbn in Hj.
  - injection Hj as ->. rewrite Nat.mul_0_r, drop_0. by rewrite take_app_length' by done.
  - rewrite Nat.mul_succ_r, Nat.add_comm. rewrite <- drop_drop, drop_app_length' by done. by apply IH.
Qed.

(** The table has the first sixteen arguments. *)
Lemma pairs_of_at args j ptr len :
  args !! j = Some (ptr, len) -> (j < 16)%nat -> take 16 (drop (16 * j) (pairs_of args)) = le 8 ptr ++ le 8 len.
Proof.
  intros Hj Hlt. unfold pairs_of. apply joined_at.
  - apply put_pairs_width. by repeat constructor.
  - by apply (put_pairs_at 0 j).
Qed.

Lemma length_joined (ls : list (list Z)) k : Forall (fun p => length p = k) ls -> length (mjoin ls) = (k * length ls)%nat.
Proof.
  induction 1 as [|l ls Hl _ IH]; [by rewrite Nat.mul_0_r|]. change (mjoin (l :: ls)) with (l ++ mjoin ls).
  rewrite length_app, IH, Hl. cbn [length]. lia.
Qed.

Lemma length_pairs_of args : length (pairs_of args) = 256%nat.
Proof.
  unfold pairs_of. rewrite (length_joined _ 16), length_put_pairs; [done|]. apply put_pairs_width. by repeat constructor.
Qed.
