(* ===== verification/SyscallsTop.v ===== *)
(** * SyscallsTop: the claims about system calls as a program makes them

    The interface of Syscalls.v over the handlers of the other files: the
    calls on memory objects, processes, signals and descriptors (MemCalls.v,
    ProcCalls.v, ProcFd.v) over [MemState], and the calls that start
    programs (Spawn.v) over [World].  What is claimed of a handler holds of
    the library call. *)
From Stdlib Require Import ZArith Lia String.
From stdpp Require Import base tactics option list list_numbers gmap.
From S2P Require Import Prelude Shared Bytes Handles Pipe Phys Port Thread Sched Ohlk PageTable Vmar Mem Vmo UserCopy Asid Process ProcCalls ProcFd Rootfs Launch LaunchSpec LaunchArgs LaunchRun LaunchTop MemCalls MapShare VmoCalls Syscalls Spawn SpawnTop.
Local Open Scope Z_scope.

(** ** Handlers on the process table *)
Definition pure_call {A} (f : Kern -> kresult A * Kern) (k : Kern) : option (kresult A * Kern) := Some (f k).

Definition kern_handler {A} (c : Call A) : option (Kern -> option (kresult A * Kern)) :=
  match c in Call A return option (Kern -> option (kresult A * Kern)) with
  | ProcMgmt cmd a b c => Some (fun k => sys_proc_mgmt k cmd a b c)
  | Getcwd b n => Some (fun k => sys_getcwd k b n)
  | Chdir p n => Some (fun k => sys_chdir k p n)
  | Wait4 pid st _ => Some (fun k => sys_wait4 k pid st)
  | Sigaction sig h _ _ => Some (fun k => sys_sigaction k sig h)
  | Raise sig => Some (pure_call (fun k => sys_raise k sig))
  | Kill pid sig => Some (pure_call (fun k => sys_kill k pid sig))
  | PipeCall p => Some (fun k => sys_pipe k p)
  | Dup2 o n => Some (fun k => sys_dup2 k o n)
  | Getpid => Some (pure_call (fun k => (sys_getpid k, k)))
  | _ => None
  end.

Definition bytes_at (m : Ram) (k : Kern) (va len : Z) : list Z :=
  default [] (user_bytes m (current_process_l0_pa k) va (Z.to_nat len)).

(** ** The console (handlers/mod.rs)

    The answer and the characters that go out; a line feed is sent after a
    carriage return. *)
Definition console_char (byte : Z) : list Z := if byte =? 10 then [13; byte] else [byte].

(** [for i in 0..len], [n] rounds left. *)
Fixpoint write_chars (m : Ram) (l0_pa ptr i : Z) (n : nat) : Z * list Z :=
  match n with
  | O => (i, [])
  | S n =>
      let user_va := u64w (ptr + i) in
      match (if l0_pa =? 0 then Some user_va else translate_user_va m l0_pa user_va) with
      | None => (i, [])
      | Some pa => let '(r, out) := write_chars m l0_pa ptr (i + 1) n in (r, console_char (byte_at m pa) ++ out)
      end
  end.

Definition sys_write (k : Kern) (fd ptr len : Z) : Z * list Z :=
  if (fd =? 1) || (fd =? 2) then
    if (ptr =? 0) || (len =? 0) then (0, []) else write_chars (kern_ram k) (current_process_l0_pa k) ptr 0 (Z.to_nat len)
  else (to_raw NotAllowed, []).

(** Bytes the caller can read go out in order; the first one it cannot ends
    the call, which answers how many there were. *)
Lemma write_chars_ok m l0 ptr bs i n :
  l0 <> 0 -> user_bytes m l0 (ptr + i) n = Some bs -> write_chars m l0 ptr i n = (i + Z.of_nat n, mjoin (map console_char bs)).
Proof.
  intros Hl. revert i bs. induction n as [|n IH]; intros i bs; cbn [user_bytes write_chars].
  - intros [= <-]. by rewrite Z.add_0_r.
  - intros (pa & Hpa & (rest & Hr & [= <-])%bind_Some)%bind_Some.
    rewrite (proj2 (Z.eqb_neq l0 0)) by done. unfold user_pa in Hpa. rewrite Hpa.
    rewrite <- Z.add_assoc in Hr. rewrite (IH _ _ Hr). f_equal. lia.
Qed.

Lemma write_chars_stop m l0 ptr bs i n rest :
  l0 <> 0 -> user_bytes m l0 (ptr + i) n = Some bs -> translate_user_va m l0 (u64w (ptr + (i + Z.of_nat n))) = None ->
  write_chars m l0 ptr i (n + S rest) = (i + Z.of_nat n, mjoin (map console_char bs)).
Proof.
  intros Hl. revert i bs. induction n as [|n IH]; intros i bs; cbn [user_bytes write_chars Nat.add].
  - intros [= <-]. rewrite Z.add_0_r. intros ->. by rewrite (proj2 (Z.eqb_neq l0 0)).
  - intros (pa & Hpa & (tail & Hr & [= <-])%bind_Some)%bind_Some Hn.
    rewrite (proj2 (Z.eqb_neq l0 0)) by done. unfold user_pa in Hpa. rewrite Hpa.
    rewrite <- Z.add_assoc in Hr. rewrite (IH (i + 1) _ Hr); [f_equal; lia|].
    replace (i + 1 + Z.of_nat n) with (i + Z.of_nat (S n)) by lia. exact Hn.
Qed.

(** ** Over the handle table of the caller

    [MemState] has one handle table, at [table], and neither the contexts of
    the threads nor the translation base. *)
Section memory_kernel.
Context (table : Z) (other : forall A, Call A -> MC A).

Definition on_kern_state {A} (f : Kern -> option (kresult A * Kern)) : MC A := fun s =>
  '(r, k) ← f (ms_kern s); Some (r, ms_set_kern s k).

Definition mem_run {A} (c : Call A) : MC A :=
  match c in Call A return MC A with
  | VmarMap p v o n va fl => sys_vmar_map p v o n va fl
  | VmarMapSelf v va n fl => sys_vmar_map_self v va n fl
  | VmarUnmap va n => sys_vmar_unmap va n
  | VmoCreate n => sys_vmo_create n
  | VmoCreateChild h o n => sys_vmo_create_child h o n
  | VmoRead h o va n => sys_vmo_read h o va n
  | VmoWrite h o va n => sys_vmo_write h o va n
  | HandleDuplicate h r => fun s =>
      let '(hv, c, t) := ht_duplicate_handle (ms_counter s) (ms_table s) h r in
      Some (hv, mkMemState c t (ms_kern s) (ms_vmo_id s))
  | ProcessCreate _ _ => fun s =>
      '(h, hc, t, k) ← sys_process_create (ms_kern s) (ms_counter s) (ms_table s);
      Some (h, mkMemState hc t k (ms_vmo_id s))
  | c => match kern_handler c with Some f => on_kern_state f | None => other _ c end
  end.

#[export] Instance memory_kernel : Kernel MemState := {
  run := fun A _ c => mem_run c;
  thread_table := fun _ => Some table;
  global_table := fun _ => None;
  caller_bytes := fun s => bytes_at (ram (ms_phys s)) (ms_kern s);
  set_thread_elr := fun _ s => s;
  current_space := fun s => match caller (ms_kern s) with
                            | Ok (_, p) => Some (pt_l0_pa (pr_page_table p), pr_asid p) | Err _ => None end;
  set_ttbr0 := fun _ _ s => s
}.
End memory_kernel.

(** ** Over the scheduler *)
Section world_kernel.
Context {Obj Pk : Type}.
Abbreviation World := (Launch.World Obj Pk).
Context (user_eret_stub : Z) (ht_address : nat -> Z) (rootfs : list Z) (kernel_table : option Z).
Context (other : forall A, Z -> Call A -> WM (Obj:=Obj) (Pk:=Pk) A).

Definition on_kern_world {A} (f : Kern -> option (kresult A * Kern)) : WM (Obj:=Obj) (Pk:=Pk) A := fun w =>
  '(r, k) ← f (w_kern w); Some (r, set_kern w k).

(** A call that succeeds by ending its caller does not come back. *)
Definition one_way {A} (x : WM (Obj:=Obj) (Pk:=Pk) outcome) : WM A := fun w =>
  match x w with Some (Err e, w') => Some (Err e, w') | _ => None end.

Definition running_thread (w : World) : option (Thread Obj Pk) :=
  get_current_thread_ptr (w_sched w) ≫= thread_at (w_sched w).

Definition sys_gettid : WM (Obj:=Obj) (Pk:=Pk) Z := fun w =>
  Some (match running_thread w with Some t => Ok (t_id t) | None => Err NotFound end, w).

Definition world_run {A} (table : Z) (c : Call A) : WM A :=
  match c in Call A return WM A with
  | Spawn p n v k => sys_spawn user_eret_stub ht_address rootfs p n v k
  | Execve p n v k => one_way (sys_execve user_eret_stub ht_address rootfs p n v k)
  | Exec name => one_way (sys_exec user_eret_stub ht_address rootfs name)
  | Exit code => one_way (sys_exit code)
  | Gettid => sys_gettid
  | c => match kern_handler c with Some f => on_kern_world f | None => other _ table c end
  end.

Definition set_elr (pc : Z) (t : Thread Obj Pk) : Thread Obj Pk :=
  let c := t_context t in
  with_context t (t_process_id t) (t_handle_table t) (t_state t)
    (mkContext (x c) (r c) (Thread.sp c) (user_sp c) pc (Thread.spsr c) (ctx_process_id c) (l0_user_pa c) (page_table_gen c)).

#[export] Instance world_kernel : Kernel World := {
  run := @world_run;
  thread_table := fun w => t_handle_table <$> running_thread w;
  global_table := fun _ => kernel_table;
  caller_bytes := fun w => bytes_at (kern_ram (w_kern w)) (w_kern w);
  set_thread_elr := fun pc w => match get_current_thread_ptr (w_sched w) with
                                | Some i => set_sched w (upd_thread (w_sched w) i (set_elr pc)) | None => w end;
  current_space := fun w => running_process (w_sched w) ≫= l0_of_world w;
  set_ttbr0 := fun l0 asid w => mkWorld (w_kern w) (w_vmo_id w) (w_tid w) (w_sched w) (pack_ttbr l0 asid) (w_daif w)
}.
End world_kernel.

(** ** Any kernel *)
Section calls.
Context {W : Type} `{Kernel W}.

(** C5. A wrapper of the libraries is the handler of the kernel it names.
    Through the trap frame, the dispatcher and the narrowing of its
    arguments, a call of any of the 29 wrappers in the table [wraps] runs
    exactly that handler, in the handle table of the calling thread, and, when
    the answer is one that the library can tell from a failure ([answer_ok]),
    returns its value or its error, with the kernel as the handler left it but
    for the way out of the trap; it does not return when the handler does not.
    The five of [passes] run theirs alike and give the answer in the raw:
    [yield_cpu], [exec_impl], [execve_impl] and a write to the console as a
    number, [channel_create] as a pair of handles whatever it is, an error of
    the kernel included.  Left out are [exit], which does not return, and
    [service_spawn], which makes a second call to print the answer. *)
Theorem wrappers_reach_handlers u table w :
  length (fx u) = 19%nat -> caller_table w = Some table ->
  (forall A B (lib : W -> option (kresult B * W)) (c : Call A) (f : A -> B), wraps u lib c f ->
     match run table c w with
     | None => lib w = None
     | Some (r, w') => answer_ok c r -> lib w = Some (f <$> r, leave_trap (elr u) w')
     end) /\
  (forall A B (lib : option (B * W)) (c : Call A) (g : Z -> B), passes u w lib c g ->
     lib = match run table c w with
           | None => None
           | Some (Ok a, w') => Some (g (answer c a), leave_trap (elr u) w')
           | Some (Err e, w') => Some (g (to_raw e), leave_trap (elr u) w')
           end).
Proof.
  intros Hlen Ht. split.
  - intros A B lib c f Hw. destruct (run table c w) as [[r w']|] eqn:E.
    + by apply (wraps_run u table lib c f w r w' Hlen Ht Hw E).
    + rewrite (wraps_outcome u table lib c f w Hlen Ht Hw); [by unfold outcome_of; rewrite E|]. intros r w'. by rewrite E.
  - intros A B lib c g Hp. rewrite (passes_run u table w lib c g Hlen Ht Hp). unfold arm.
    by destruct (run table c w) as [[[a|e] w']|].
Qed.

(** C39. What has no handler is refused and changes nothing.  Whatever the
    arguments, a number outside [answered_numbers] is answered with
    [NotAllowed] and leaves the kernel as it was, but for the way out of the
    trap; among them are the numbers that open, read and seek in files, and
    a write to a descriptor that is not the console. *)
Theorem other_numbers_refused u num a0 a1 a2 a3 a4 a5 w :
  length (fx u) = 19%nat -> u32 num -> usize a0 -> num ∉ answered_numbers -> console_call num a0 = false ->
  syscall u num a0 a1 a2 a3 a4 a5 w = Some (to_raw NotAllowed, leave_trap (elr u) w).
Proof.
  intros Hlen Hnum Ha Hn Hc. rewrite syscall_is_dispatch, (usize_same a0) by done. by rewrite dispatch_refuses.
Qed.
End calls.

(** ** Memory objects *)
Section round_trip.
Context (table : Z) (other : forall A, Call A -> MC A) (u : TrapFrame).

#[local] Instance objects : Kernel MemState := memory_kernel table other.

Lemma leave_memory pc (s : MemState) : leave_trap pc s = s.
Proof. unfold leave_trap. cbn. by destruct (caller (ms_kern s)) as [[]|]. Qed.

Lemma memory_call {A B} (lib : MemState -> option (kresult B * MemState)) (c : Call A) (f : A -> B) s r s' :
  length (fx u) = 19%nat -> table <> 0 -> wraps u lib c f -> mem_run other c s = Some (r, s') -> answer_ok c r ->
  lib s = Some (f <$> r, s').
Proof.
  intros Hlen Ht Hw Hrun Hr. rewrite <- (leave_memory (elr u) s'). apply (wraps_run u table lib c f s r s'); try done.
  unfold caller_table. cbn. by destruct (Z.eqb_spec table 0).
Qed.

(** C16. What a program writes into a memory object through the library it
    reads back through it.  [vmo_write] from one buffer and [vmo_read] into
    another, at any offset and whatever pages of the object are committed,
    go through the trap, the dispatcher and the handlers; both return the
    number of bytes, the second buffer holds them and the address space of
    the program is as it was. *)
Theorem library_round_trip (s : MemState) i proc hv j rights v lv off src dst bs :
  length (fx u) = 19%nat -> table <> 0 -> u32 hv -> Forall usize [off; src; dst] -> Z.of_nat (length bs) < 2 ^ 63 ->
  exchange s i proc hv j rights v lv off src dst bs ->
  let len := Z.of_nat (length bs) in
  exists s1 s2, vmo_write u s hv off src len = Some (Ok len, s1) /\ vmo_read u s1 hv off dst len = Some (Ok len, s2) /\
    user_bytes (ram (ms_phys s2)) (caller_root proc) dst (length bs) = Some bs /\
    kn_procs (ms_kern s2) = kn_procs (ms_kern s) /\
    forall va, translate_user_va (ram (ms_phys s2)) (caller_root proc) va = translate_user_va (ram (ms_phys s)) (caller_root proc) va.
Proof.
  intros Hlen Ht Hh Hva Hn Hex len. rewrite !Forall_cons in Hva. destruct Hva as (Ho & Hs & Hd & _).
  destruct (vmo_calls_round_trip s i proc hv j rights v lv off src dst bs Hex) as (s1 & s2 & Hw & Hr & Hrest).
  fold len in Hw, Hr. exists s1, s2. rewrite <- (u32_same hv Hh) in Hw, Hr.
  assert (Hlu : usize len) by (unfold usize, len; lia). assert (Hhu : usize hv) by (unfold usize, u32 in *; lia).
  assert (Hok : 0 <= len < 2 ^ 63) by (unfold len; lia).
  split; [|split; [|exact Hrest]].
  - apply (memory_call _ _ _ _ _ _ Hlen Ht (W_vmo_write u hv off src len ltac:(by rewrite !Forall_cons)) Hw Hok).
  - apply (memory_call _ _ _ _ _ _ Hlen Ht (W_vmo_read u hv off dst len ltac:(by rewrite !Forall_cons)) Hr Hok).
Qed.
End round_trip.

(** ** The arguments of a new program *)

(** The strings of the caller, each with its address. *)
Definition strings_at (m : Ram) (l0 : Z) (ptrs : list Z) (args : list (list Z)) : Prop :=
  Forall2 (fun ptr s => usize ptr /\ (length s <= 256)%nat /\ user_bytes m l0 ptr (length s) = Some s) ptrs args.
Definition slices (ptrs : list Z) (args : list (list Z)) : list (Z * Z) := zip_with (fun ptr s => (ptr, Z.of_nat (length s))) ptrs args.

Lemma user_bytes_part m l0 va k n rest bs :
  user_bytes m l0 va (k + (n + rest)) = Some bs -> user_bytes m l0 (va + Z.of_nat k) n = Some (take n (drop k bs)).
Proof.
  rewrite user_bytes_app. intros (a & Ha & H)%bind_Some. apply bind_Some in H as (b & Hb & [= <-]).
  apply user_bytes_are_bytes in Ha as [Ha _]. rewrite drop_app_length' by done. revert Hb. rewrite user_bytes_app.
  intros (c & Hc & H)%bind_Some. apply bind_Some in H as (d & _ & [= <-]). rewrite Hc.
  apply user_bytes_are_bytes in Hc as [Hc _]. by rewrite take_app_length'.
Qed.

(** The table a library call fills is what the kernel reads argument by
    argument. *)
Lemma table_arguments m l0 pairs_ptr ptrs args j s :
  strings_at m l0 ptrs args -> (length args <= 16)%nat -> user_bytes m l0 pairs_ptr 256 = Some (pairs_of (slices ptrs args)) ->
  args !! j = Some s -> arg_at m l0 pairs_ptr (Z.of_nat j) s.
Proof.
  intros Hst Hn Htab Hj. destruct (Forall2_lookup_r _ _ _ _ _ Hst Hj) as (ptr & Hp & Hu & Hl & Hb).
  pose proof (lookup_lt_Some _ _ _ Hj) as Hlt. split; [done|]. exists ptr. split; [done|]. split; [|done].
  rewrite user_bytes_wrap. replace (Z.of_nat j * 16) with (Z.of_nat (16 * j)) by lia.
  replace 256%nat with (16 * j + (16 + (240 - 16 * j)))%nat in Htab by lia. rewrite (user_bytes_part _ _ _ _ _ _ _ Htab). f_equal.
  apply pairs_of_at; [|lia]. unfold slices. by rewrite lookup_zip_with, Hp, Hj.
Qed.

Section spawn.
Context {Obj Pk : Type}.
Abbreviation World := (Launch.World Obj Pk).
Context (user_eret_stub : Z) (ht_address : nat -> Z) (rootfs : list Z) (kernel_table : option Z).
Context (other : forall A, Z -> Call A -> WM (Obj:=Obj) (Pk:=Pk) A) (u : TrapFrame).

#[local] Instance programs : Kernel World := world_kernel user_eret_stub ht_address rootfs kernel_table other.

(** A caller with a name and at most sixteen strings of at most 256 bytes,
    and room for the table on its stack. *)
Record library_request (w : World) (ci : nat) (cp : Process) (table path_ptr pairs_ptr : Z) (ptrs : list Z) (name : list Z)
    (args : list (list Z)) : Prop := {
  lr_caller : caller (w_kern w) = Ok (ci, cp);
  lr_table : caller_table w = Some table;
  lr_root : pt_l0_pa (pr_page_table cp) <> 0;
  lr_path : 0 < path_ptr < 2 ^ 64;
  lr_len : (0 < length name <= 256)%nat;
  lr_name : user_bytes (kern_ram (w_kern w)) (pt_l0_pa (pr_page_table cp)) path_ptr (length name) = Some name;
  lr_text : utf8_valid name = true;
  lr_strings : strings_at (kern_ram (w_kern w)) (pt_l0_pa (pr_page_table cp)) ptrs args;
  lr_count : (length args <= 16)%nat;
  lr_pairs : 0 < pairs_ptr < 2 ^ 64;
  lr_stack : user_bytes (kern_ram (w_kern w)) (pt_l0_pa (pr_page_table cp)) pairs_ptr 256 = Some (pairs_of (slices ptrs args));
  lr_total : args_total args + Z.of_nat (length args) * 8 <= 4096
}.

Lemma length_slices ptrs args : length ptrs = length args -> length (slices ptrs args) = length args.
Proof. intros H. unfold slices. rewrite length_zip_with. lia. Qed.

Lemma request_asks w ci cp table path_ptr pairs_ptr ptrs name args :
  library_request w ci cp table path_ptr pairs_ptr ptrs name args ->
  asks (kern_ram (w_kern w)) cp path_ptr (Z.of_nat (length name)) (argv_at pairs_ptr (slices ptrs args)) name args.
Proof.
  intros [Hc _ Hl0 Hp Hl Hn Ht Hst Hk Hpp Htab Htot]. pose proof (Forall2_length _ _ _ Hst) as Hlen.
  unfold argv_at. rewrite length_slices by done.
  constructor; try done.
  - intros j s Hj. pose proof (lookup_lt_Some _ _ _ Hj). destruct (Z.ltb_spec 0 (Z.of_nat (length args))); [|lia].
    by eapply table_arguments.
  - destruct (Z.ltb_spec 0 (Z.of_nat (length args))); [right; lia|]. destruct args; [by left|cbn in *; lia].
Qed.

(** C9. A program that spawns another through the library gets the program
    and the arguments it named.  The table of pairs that [spawn] builds on
    its stack is read back by the kernel as the strings it was built from:
    the call starts the program of that name with exactly those arguments as
    a child of the caller, and hands its identifier or the error back. *)
Theorem library_spawn_starts (w : World) ci cp table path_ptr pairs_ptr ptrs name args r w' :
  length (fx u) = 19%nat -> library_request w ci cp table path_ptr pairs_ptr ptrs name args ->
  start_program user_eret_stub ht_address rootfs name (map arg_buffer args) (arg_lengths args) (length args) (pr_id cp) w =
    Some (r, w') ->
  answer_ok (Syscalls.Spawn 0 0 0 0) r ->
  Syscalls.spawn u path_ptr (Z.of_nat (length name)) pairs_ptr (slices ptrs args) w = Some (r, leave_trap (Syscalls.elr u) w').
Proof.
  intros Hlen Hrq Hstart Hok. pose proof (request_asks _ _ _ _ _ _ _ _ _ Hrq) as Hask.
  destruct Hrq as [Hc Htab _ Hp Hl _ _ Hst Hk Hpp _ _]. pose proof (Forall2_length _ _ _ Hst) as Hsl.
  pose proof (length_slices ptrs args Hsl) as Hlsl.
  assert (Hrun : world_run user_eret_stub ht_address rootfs other table
    (Syscalls.Spawn path_ptr (Z.of_nat (length name)) (argv_at pairs_ptr (slices ptrs args)) (Z.of_nat (length (slices ptrs args)))) w =
    Some (r, w')).
  { rewrite Hlsl. cbn [world_run]. unfold sys_spawn.
    rewrite (wm_bind_ok _ _ _ _ _ (read_request_ok ci cp _ _ _ _ _ w Hc Hask)). cbn [rq_name rq_strs rq_lens rq_pid]. by rewrite Nat2Z.id. }
  assert (Hus : Forall usize [path_ptr; Z.of_nat (length name); pairs_ptr]) by (rewrite !Forall_cons; unfold usize; split_and!; (done || lia)).
  assert (Hun : usize (Z.of_nat (length (slices ptrs args)))) by (unfold usize; lia).
  replace r with (id <$> r) by (by destruct r).
  exact (wraps_run u table _ _ id w r w' Hlen Htab (W_spawn u _ _ _ _ Hus Hun) Hrun Hok).
Qed.
End spawn.

(** ** Small programs *)

(** The registers of a program, with something in the upper half of [x16]. *)
Definition demo_frame : TrapFrame := mkFrame (replicate 19 0x700000007) 0 0x1234 0 0 0 0x8000.
Definition no_other (A : Type) (c : Call A) : MC A := fun _ => None.
Definition demo_kernel : Kernel MemState := memory_kernel 0x40001000 no_other.

(** [getppid], and [yield_cpu] on a kernel with no such handler. *)
Lemma wrappers_reach_handlers_witness :
  @getppid _ demo_kernel demo_frame exchange_state = Some (Ok 1, exchange_state) /\
  @yield_cpu _ demo_kernel demo_frame exchange_state = None.
Proof.
  destruct (@wrappers_reach_handlers _ demo_kernel demo_frame 0x40001000 exchange_state eq_refl eq_refl) as [Hw Hp]. split.
  - pose proof (Hw _ _ _ Getpid id (@W_getppid _ demo_kernel demo_frame)) as H.
    rewrite (eq_refl : @run _ demo_kernel _ 0x40001000 Getpid exchange_state = Some (Ok 1, exchange_state)) in H.
    rewrite H; [|cbn; lia]. by rewrite (leave_memory 0x40001000 no_other).
  - exact (Hp _ _ _ Yield i64w (@P_yield_cpu _ demo_kernel demo_frame exchange_state)).
Defined.

(** [SYSCALL_OPEN]. *)
Lemma other_numbers_refused_witness :
  @syscall _ demo_kernel demo_frame SYSCALL_OPEN 0x1000 4 0 0 0 0 exchange_state = Some (2 ^ 64 - 31, exchange_state).
Proof.
  rewrite (@other_numbers_refused _ demo_kernel demo_frame SYSCALL_OPEN 0x1000 4 0 0 0 0 exchange_state).
  - by rewrite (leave_memory 0x40001000 no_other).
  - reflexivity.
  - unfold u32, SYSCALL_OPEN. lia.
  - unfold usize. lia.
  - apply (bool_decide_unpack _). vm_compute. exact I.
  - reflexivity.
Defined.

Lemma library_round_trip_witness :
  exists s1 s2, @vmo_write _ demo_kernel demo_frame exchange_state 1000 6 0x1ffe 4 = Some (Ok 4, s1) /\
    @vmo_read _ demo_kernel demo_frame s1 1000 6 0x1010 4 = Some (Ok 4, s2) /\
    user_bytes (ram (ms_phys s2)) 0x1000 0x1010 4 = Some [1; 2; 3; 4].
Proof.
  destruct (library_round_trip 0x40001000 no_other demo_frame exchange_state 0 exchange_proc 1000 0 READ_WRITE pair_object demo_lv
    6 0x1ffe 0x1010 [1; 2; 3; 4]) as (s1 & s2 & H1 & H2 & H3 & _); [reflexivity|done|unfold u32; lia| |cbn; lia|exact exchange_ok|].
  { repeat constructor; unfold usize; lia. }
  exists s1, s2. split; [exact H1|]. split; [exact H2|exact H3].
Defined.

(** The caller of SpawnTop.v with the table at 0x1100. *)
Definition library_ram : Ram :=
  <[0x5100 := 0x1020]> (<[0x5108 := 2]> (<[0x5110 := 0x1028]> (<[0x5118 := 1]> caller_ram))).
Definition library_world : Launch.World unit unit :=
  mkWorld (mkKern [Some caller_proc; None; None; None; None; None; None; None] 8 asids_static (with_ram demo_memory library_ram)
             pipes_init (replicate 8 (replicate 128 0)) 0 (Some 7))
    1 4 wit_sched (pack_ttbr 0x1000 1) 0.
Definition no_other_world (A : Type) (table : Z) (c : Call A) : WM (Obj:=unit) (Pk:=unit) A := fun _ => None.
Definition demo_programs : Kernel (Launch.World unit unit) :=
  world_kernel 0x1000 (fun _ => 0x40001000) demo_rootfs (Some 0x40001000) no_other_world.

Lemma library_strings : strings_at library_ram 0x1000 [0x1020; 0x1028] demo_args2.
Proof.
  constructor; [|constructor; [|constructor]];
    (split; [unfold usize; lia|]); (split; [cbn [length]; lia|vm_compute; reflexivity]).
Qed.

Lemma library_launchable :
  launchable library_world demo_parser demo_segs (map arg_buffer demo_args2) (arg_lengths demo_args2) 2 wit_lists 3 1 demo_lv.
Proof.
  constructor.
  - reflexivity.
  - destruct demo_memory_wf. constructor; done.
  - unfold room. vm_compute. congruence.
  - right. constructor; [|right; reflexivity]. apply demo_tree_over; [|vm_compute; congruence]. intros a Ha.
    change (kern_ram (w_kern library_world)) with library_ram. unfold ram_read, library_ram, caller_ram. by rewrite !lookup_insert_ne by lia.
  - constructor; [vm_compute; reflexivity|exact demo_segment_fits|cbn; lia| |exact wit_sched_ok|reflexivity].
    exact (request_args _ _ _ _ (ak_args _ _ _ _ _ _ _ caller_asks) (ak_argc _ _ _ _ _ _ _ caller_asks)).
Qed.

Lemma library_spawn_starts_witness :
  exists w', @Syscalls.spawn _ demo_programs demo_frame 0x1030 1 0x1100 [(0x1020, 2); (0x1028, 1)] library_world = Some (Ok 8, w').
Proof.
  destruct (start_program_ok 0x1000 (fun _ => 0x40001000) demo_rootfs [97] demo_path demo_file demo_parser demo_segs
    (map arg_buffer demo_args2) (arg_lengths demo_args2) 2 7 wit_lists 3 1 demo_lv library_world)
    as (nm & k & w' & p & s & s' & Hrun & _);
    [cbn; lia|reflexivity|vm_compute; reflexivity|exact demo_parses|exact library_launchable|].
  eexists. refine (library_spawn_starts 0x1000 (fun _ => 0x40001000) demo_rootfs (Some 0x40001000) no_other_world demo_frame library_world
    0 caller_proc (default 0 (@caller_table _ demo_programs library_world)) 0x1030 0x1100 [0x1020; 0x1028] [97] demo_args2 (Ok 8) w' eq_refl _ Hrun _).
  - constructor; [reflexivity|vm_compute; reflexivity|vm_compute; congruence|lia|cbn [length]; lia|vm_compute; reflexivity
                 |reflexivity|exact library_strings|cbn [length demo_args2]; lia|lia|vm_compute; reflexivity|vm_compute; congruence].
  - cbn. lia.
Defined.
