(* ===== verification/Procmgr.v ===== *)
(** * Procmgr: the process manager

    userspace/services/procmgr/src/main.rs: a table of processes beside that
    of the kernel, and a loop over the requests of a channel.  The calls the
    loop makes are the class [ManagerCalls]; [library_calls] takes the ones
    on processes from libcapsule over a kernel (Syscalls.v). *)
From Stdlib Require Import ZArith Lia String.
From stdpp Require Import base tactics option list list_numbers.
From S2P Require Import Prelude Shared Bytes Handles Process ProcCalls Mem MemCalls MapShare Syscalls SyscallsTop.
Local Open Scope Z_scope.

(** ** The table *)
Record ProcEntry := mkProcEntry {
  pe_pid : Z;
  pe_ppid : Z;
  pe_state : Z;
  pe_l0_pa : Z;
  pe_name : list Z
}.

Definition PROC_TABLE_SIZE : nat := 64.
Definition ProcTable : Type := list (option ProcEntry).
Definition PROC_TABLE : ProcTable := replicate PROC_TABLE_SIZE None.

(** A loop over the slots that changes the first one that fits and breaks. *)
Fixpoint at_first (fits : option ProcEntry -> bool) (f : option ProcEntry -> option ProcEntry) (t : ProcTable) : ProcTable :=
  match t with
  | [] => []
  | slot :: t => if fits slot then f slot :: t else slot :: at_first fits f t
  end.

Definition is_free (slot : option ProcEntry) : bool := match slot with None => true | Some _ => false end.
Definition has_pid (pid : Z) (slot : option ProcEntry) : bool :=
  match slot with Some p => pe_pid p =? pid | None => false end.

Definition entry (pid ppid l0_pa : Z) (name : list Z) : ProcEntry :=
  mkProcEntry pid ppid 1 l0_pa (put 0 (take (Nat.min (length name) 31) name) (replicate 32 0)).

Definition add_entry (pid ppid l0_pa : Z) (name : list Z) (t : ProcTable) : ProcTable :=
  at_first is_free (fun _ => Some (entry pid ppid l0_pa name)) t.

Definition zombie (p : ProcEntry) : ProcEntry := mkProcEntry (pe_pid p) (pe_ppid p) 2 (pe_l0_pa p) (pe_name p).
Definition mark_zombie (pid : Z) (t : ProcTable) : ProcTable := at_first (has_pid pid) (fmap zombie) t.
Definition remove_entry (pid : Z) (t : ProcTable) : ProcTable := at_first (has_pid pid) (fun _ => None) t.

(** ** The requests *)

(** [channel_read] gives the buffers as it left them. *)
Class ManagerCalls (W : Type) := {
  mgr_create : W -> option (kresult Z * W);
  mgr_register : list Z -> Z -> W -> option (kresult unit * W);
  mgr_read : Z -> list Z -> list Z -> W -> option (kresult Z * list Z * list Z * W);
  mgr_write : Z -> list Z -> W -> option (kresult Z * W);
  mgr_proc_mgmt : Z -> Z -> Z -> Z -> W -> option (kresult Z * W);
  mgr_yield : W -> option W
}.

Section manager.
Context {W : Type} `{!ManagerCalls W}.

(** The way to the loop: its channel, or what [main] returns. *)
Definition manager_start (w : W) : option (result Z Z * W) :=
  '(r, w) ← mgr_create w;
  match r with
  | Err _ => Some (Err (- 1), w)
  | Ok server_chan =>
      '(r, w) ← mgr_register (lit "svc.procmgr") server_chan w;
      Some (match r with Err _ => Err (- 2) | Ok _ => Ok server_chan end, w)
  end.

(** The answer goes to the first handle of the request. *)
Definition respond (handles : list Z) (resp : list Z) (w : W) : option W :=
  match handles with
  | h :: _ => if negb (h =? 0) then '(_, w) ← mgr_write h resp w; Some w else Some w
  | [] => Some w
  end.

Definition handle_create (n : Z) (buf handles : list Z) (t : ProcTable) (w : W) : option (ProcTable * W) :=
  if 17 <=? n then
    let ppid := rd buf 1 8 in
    let l0_pa := rd buf 9 8 in
    let name_len := Nat.min (Z.to_nat (n - 17)) 31 in
    bytes ← slice buf 17 (17 + name_len);
    let name := if utf8_valid bytes then bytes else [] in
    '(r, w) ← mgr_proc_mgmt PROC_MGMT_CREATE ppid 0 l0_pa w;
    match r with
    | Ok pid => w ← respond handles (le 8 pid) w; Some (add_entry pid ppid l0_pa name t, w)
    | Err e => w ← respond handles (le 8 (to_raw e)) w; Some (t, w)
    end
  else Some (t, w).

Definition handle_exit (n : Z) (buf : list Z) (t : ProcTable) (w : W) : option (ProcTable * W) :=
  if 9 <=? n then
    let pid := rd buf 1 8 in
    '(_, w) ← mgr_proc_mgmt PROC_MGMT_EXIT pid 0 0 w; Some (mark_zombie pid t, w)
  else Some (t, w).

Definition handle_release (n : Z) (buf : list Z) (t : ProcTable) (w : W) : option (ProcTable * W) :=
  if 17 <=? n then
    let pid := rd buf 1 8 in
    let l0_pa := rd buf 9 8 in
    '(_, w) ← mgr_proc_mgmt PROC_MGMT_RELEASE_PT l0_pa 0 0 w; Some (remove_entry pid t, w)
  else Some (t, w).

Definition handle_request (n : Z) (buf handles : list Z) (t : ProcTable) (w : W) : option (ProcTable * W) :=
  cmd ← buf !! 0%nat;
  if cmd =? 0 then handle_create n buf handles t w
  else if cmd =? 1 then handle_exit n buf t w
  else if cmd =? 2 then handle_release n buf t w
  else Some (t, w).

(** One round of the loop. *)
Definition manager_round (server_chan : Z) (t : ProcTable) (w : W) : option (ProcTable * W) :=
  '(r, buf, handles, w) ← mgr_read server_chan (replicate 256 0) (replicate 4 0) w;
  match r with
  | Ok n => if 0 <? n then handle_request n buf handles t w else w ← mgr_yield w; Some (t, w)
  | Err _ => w ← mgr_yield w; Some (t, w)
  end.

Fixpoint manager_rounds (rounds : nat) (server_chan : Z) (t : ProcTable) (w : W) : option (ProcTable * W) :=
  match rounds with
  | O => Some (t, w)
  | S rounds => '(t, w) ← manager_round server_chan t w; manager_rounds rounds server_chan t w
  end.
End manager.

(** ** What the table is for *)
Definition recorded_entry (pid : Z) (t : ProcTable) : option ProcEntry := mjoin (List.find (has_pid pid) t).
Definition recorded (t : ProcTable) : list Z := omap (fmap pe_pid) t.

Lemma recorded_entry_cons pid slot t : recorded_entry pid (slot :: t) = if has_pid pid slot then slot else recorded_entry pid t.
Proof. unfold recorded_entry. cbn. by destruct (has_pid pid slot) eqn:E, slot. Qed.

Lemma recorded_cons slot t : recorded (slot :: t) = option_list (pe_pid <$> slot) ++ recorded t.
Proof. by destruct slot. Qed.

Lemma recorded_entry_absent pid t : pid ∉ recorded t <-> recorded_entry pid t = None.
Proof.
  induction t as [|slot t IH]; [split; [done|intros _; apply not_elem_of_nil]|].
  rewrite recorded_entry_cons, recorded_cons, not_elem_of_app, IH. destruct slot as [p|]; cbn.
  - rewrite list_elem_of_singleton. destruct (Z.eqb_spec (pe_pid p) pid); [|by split; [intros []|split]; auto].
    split; [by intros [[] ?]|done].
  - split; [by intros []|]. split; [apply not_elem_of_nil|done].
Qed.

(** A new process goes into a free slot and the others stay. *)
Lemma add_entry_spec pid ppid l0_pa name t q :
  None ∈ t -> pid ∉ recorded t ->
  recorded_entry q (add_entry pid ppid l0_pa name t) = if decide (q = pid) then Some (entry pid ppid l0_pa name) else recorded_entry q t.
Proof.
  unfold add_entry. intros Hin Hnew. induction t as [|slot t IH]; [by apply not_elem_of_nil in Hin|].
  rewrite recorded_cons, not_elem_of_app in Hnew. destruct Hnew as [Hs Hnew]. destruct slot as [p|]; cbn [at_first is_free].
  - rewrite !recorded_entry_cons. rewrite IH by (try done; by apply elem_of_cons in Hin as [|]).
    cbn in Hs. rewrite list_elem_of_singleton in Hs. cbn [has_pid]. destruct (Z.eqb_spec (pe_pid p) q) as [<-|]; [|done].
    by rewrite decide_False by congruence.
  - rewrite !recorded_entry_cons. cbn. destruct (Z.eqb_spec pid q) as [->|]; [by rewrite decide_True|by rewrite decide_False by congruence].
Qed.

(** With every slot taken a process is not recorded. *)
Lemma add_entry_full pid ppid l0_pa name t : None ∉ t -> add_entry pid ppid l0_pa name t = t.
Proof.
  unfold add_entry. induction t as [|[p|] t IH]; intros H; cbn; [done| |by destruct H; left].
  rewrite IH; [done|]. intros ?. apply H. by right.
Qed.

Lemma mark_zombie_spec pid t q :
  recorded_entry q (mark_zombie pid t) = if decide (q = pid) then zombie <$> recorded_entry q t else recorded_entry q t.
Proof.
  unfold mark_zombie. induction t as [|slot t IH]; [by destruct (decide _)|]. cbn [at_first].
  destruct (has_pid pid slot) eqn:E; rewrite !recorded_entry_cons.
  - destruct slot as [p|]; [|done]. cbn in *. destruct (Z.eqb_spec (pe_pid p) q); destruct (decide _); subst; try done; by apply Z.eqb_eq in E.
  - rewrite IH. destruct (decide (q = pid)) as [->|]; [by rewrite E|done].
Qed.

(** As long as no process is recorded twice it is gone. *)
Lemma remove_entry_spec pid t q :
  NoDup (recorded t) -> recorded_entry q (remove_entry pid t) = if decide (q = pid) then None else recorded_entry q t.
Proof.
  unfold remove_entry. induction t as [|slot t IH]; [by destruct (decide _)|]. rewrite recorded_cons, NoDup_app.
  intros (_ & Hdis & Hnd). cbn [at_first]. destruct (has_pid pid slot) eqn:E; rewrite !recorded_entry_cons.
  - destruct slot as [p|]; [|done]. cbn in *. apply Z.eqb_eq in E as <-. destruct (decide (q = pe_pid p)) as [->|Hq].
    + apply recorded_entry_absent, Hdis. by left.
    + by destruct (Z.eqb_spec (pe_pid p) q).
  - rewrite IH by done. destruct (decide (q = pid)) as [->|]; [by rewrite E|done].
Qed.

Lemma recorded_at_first_keep fits f t :
  (forall slot, fits slot = true -> pe_pid <$> f slot = pe_pid <$> slot) -> recorded (at_first fits f t) = recorded t.
Proof.
  intros H. induction t as [|slot t IH]; [done|]. cbn [at_first]. destruct (fits slot) eqn:E; rewrite !recorded_cons; [by rewrite H|by rewrite IH].
Qed.

Lemma recorded_remove pid t : recorded (remove_entry pid t) ⊆+ recorded t.
Proof.
  unfold remove_entry. induction t as [|slot t IH]; [done|]. cbn [at_first].
  destruct (has_pid pid slot); rewrite !recorded_cons; [by apply submseteq_inserts_l|by apply submseteq_skips_l].
Qed.

Lemma recorded_add pid ppid l0_pa name t : recorded (add_entry pid ppid l0_pa name t) ⊆+ pid :: recorded t.
Proof.
  unfold add_entry. induction t as [|[p|] t IH]; [by apply submseteq_nil_l| |done]. cbn [at_first is_free].
  rewrite !recorded_cons. cbn. etrans; [by apply submseteq_skip|]. apply Permutation_submseteq. by constructor.
Qed.

Lemma nodup_within {A} (l k : list A) : l ⊆+ k -> NoDup k -> NoDup l.
Proof. intros (k' & ->)%submseteq_Permutation Hk. by apply NoDup_app in Hk as (? & _ & _). Qed.

(** No process is recorded twice: the kernel gives every one a number of its
    own. *)
Lemma table_nodup pid ppid l0_pa name t :
  NoDup (recorded t) ->
  (pid ∉ recorded t -> NoDup (recorded (add_entry pid ppid l0_pa name t))) /\
  NoDup (recorded (mark_zombie pid t)) /\ NoDup (recorded (remove_entry pid t)).
Proof.
  intros H. split; [|split].
  - intros Hp. eapply nodup_within; [apply recorded_add|by apply NoDup_cons].
  - unfold mark_zombie. rewrite recorded_at_first_keep; [done|]. by intros [p|].
  - eapply nodup_within; [apply recorded_remove|done].
Qed.

(** ** The loop *)

(** What the calls promise: they return, [channel_read] fills the buffers it
    was given, and the kernel refuses a process without a name. *)
Class ManagerLaws (W : Type) `{!ManagerCalls W} := {
  read_fills ch w : exists r buf handles w', mgr_read ch (replicate 256 0) (replicate 4 0) w = Some (r, buf, handles, w') /\
    length buf = 256%nat /\ Forall is_byte buf;
  write_returns h bs w : exists r w', mgr_write h bs w = Some (r, w');
  yield_returns w : exists w', mgr_yield w = Some w';
  proc_mgmt_returns cmd a b c w : exists r w', mgr_proc_mgmt cmd a b c w = Some (r, w');
  create_refused ppid l0_pa w : usize ppid -> usize l0_pa ->
    mgr_proc_mgmt PROC_MGMT_CREATE ppid 0 l0_pa w = Some (Err InvalidArgs, w)
}.

Lemma rd_usize buf off : Forall is_byte buf -> usize (rd buf off 8).
Proof.
  intros H. unfold rd, usize. assert (Ht : Forall is_byte (take 8 (drop off buf))) by by apply Forall_take, Forall_drop.
  pose proof (unle_range _ Ht) as Hr. pose proof (length_take (drop off buf) 8) as Hl. split; [tauto|].
  eapply Z.lt_le_trans; [apply Hr|]. apply Z.pow_le_mono_r; lia.
Qed.

Lemma at_first_none fits f n : fits None = false -> at_first fits f (replicate n None) = replicate n None.
Proof. intros H. induction n as [|n IH]; [done|]. cbn [replicate at_first]. by rewrite H, IH. Qed.

Section laws.
Context {W : Type} `{ManagerLaws W}.

Lemma respond_returns handles resp w : exists w', respond handles resp w = Some w'.
Proof.
  destruct handles as [|h l]; cbn; [eauto|]. destruct (negb _); [|eauto].
  destruct (write_returns h resp w) as (r & w' & ->). cbn. eauto.
Qed.

Lemma create_request n buf handles t w :
  length buf = 256%nat -> Forall is_byte buf -> exists w', handle_create n buf handles t w = Some (t, w').
Proof.
  intros Hlen Hb. unfold handle_create. destruct (17 <=? n); [|eauto]. unfold slice. rewrite decide_True by lia. cbn [mbind option_bind].
  rewrite create_refused by by apply rd_usize. cbn [mbind option_bind].
  destruct (respond_returns handles (le 8 (to_raw InvalidArgs)) w) as (w' & ->). cbn. eauto.
Qed.

(** A round changes at most what is recorded already. *)
Lemma round_returns ch n w :
  exists w', manager_round ch (replicate n None) w = Some (replicate n None, w').
Proof.
  unfold manager_round. destruct (read_fills ch w) as (r & buf & handles & w1 & -> & Hlen & Hb). cbn [mbind option_bind].
  assert (Hy : exists w', (w ← mgr_yield w1; Some (replicate n None : ProcTable, w)) = Some (replicate n None, w')).
  { destruct (yield_returns w1) as (w' & ->). cbn. eauto. }
  destruct r as [m|e]; [|exact Hy]. destruct (0 <? m); [|exact Hy].
  unfold handle_request. destruct buf as [|cmd buf]; [done|]. cbn [lookup list_lookup mbind option_bind].
  destruct (cmd =? 0); [by apply create_request|]. destruct (cmd =? 1).
  { unfold handle_exit. destruct (9 <=? m); [|eauto].
    destruct (proc_mgmt_returns PROC_MGMT_EXIT (rd (cmd :: buf) 1 8) 0 0 w1) as (? & w' & ->). cbn [mbind option_bind].
    exists w'. unfold mark_zombie. by rewrite at_first_none. }
  destruct (cmd =? 2); [|eauto]. unfold handle_release. destruct (17 <=? m); [|eauto].
  destruct (proc_mgmt_returns PROC_MGMT_RELEASE_PT (rd (cmd :: buf) 9 8) 0 0 w1) as (? & w' & ->). cbn [mbind option_bind].
  exists w'. unfold remove_entry. by rewrite at_first_none.
Qed.

(** Whatever it is asked, the manager goes on and its table stays empty: the
    process it asks the kernel for has no name, and the kernel refuses it. *)
Theorem manager_records_nothing rounds ch w :
  exists w', manager_rounds rounds ch PROC_TABLE w = Some (PROC_TABLE, w').
Proof.
  revert w. induction rounds as [|rounds IH]; intros w; cbn [manager_rounds]; [eauto|].
  unfold PROC_TABLE at 1. destruct (round_returns ch PROC_TABLE_SIZE w) as (w' & ->). apply IH.
Qed.
End laws.

(** ** Over the kernel

    The calls on processes as libcapsule makes them. *)
Section library.
Context (table : Z) (other : forall A, Call A -> MC A) (u : TrapFrame).
#[local] Instance objects : Kernel MemState := memory_kernel table other.

Lemma library_proc_mgmt (s : MemState) cmd a b c r k :
  length (fx u) = 19%nat -> table <> 0 -> u32 cmd -> Forall usize [a; b; c] ->
  sys_proc_mgmt (ms_kern s) cmd a b c = Some (r, k) -> answer_ok (ProcMgmt cmd a b c) r ->
  proc_mgmt u s cmd a b c = Some (r, ms_set_kern s k).
Proof.
  intros Hlen Ht Hc Ha Hrun Hr. assert (Hm : mem_run other (ProcMgmt cmd a b c) s = Some (r, ms_set_kern s k)).
  { cbn. unfold on_kern_state. by rewrite Hrun. }
  pose proof (memory_call table other u _ _ _ _ _ _ Hlen Ht (W_proc_mgmt u cmd a b c Hc Ha) Hm Hr) as Hcall.
  by destruct r.
Qed.

(** The request the manager makes for every process. *)
Lemma library_create_refused (s : MemState) ppid l0_pa :
  length (fx u) = 19%nat -> table <> 0 -> usize ppid -> usize l0_pa ->
  proc_mgmt u s PROC_MGMT_CREATE ppid 0 l0_pa = Some (Err InvalidArgs, s).
Proof.
  intros Hlen Ht Hp Hl. rewrite (library_proc_mgmt s _ _ _ _ (Err InvalidArgs) (ms_kern s)); [by destruct s|done..| | |done|done].
  - unfold u32, PROC_MGMT_CREATE. lia.
  - rewrite !Forall_cons, Forall_nil. unfold usize in *. lia.
Qed.

(** The end of a process for whoever asks. *)
Lemma library_exit (s : MemState) pid i p :
  length (fx u) = 19%nat -> table <> 0 -> usize pid -> find_process pid (kn_procs (ms_kern s)) = Some (i, p) ->
  proc_mgmt u s PROC_MGMT_EXIT pid 0 0 =
    Some (Ok 0, ms_set_kern s (put_proc (ms_kern s) i (with_state PZombie (Some 0) p))).
Proof.
  intros Hlen Ht Hp Hf. apply library_proc_mgmt; try done.
  - rewrite !Forall_cons, Forall_nil. unfold usize in *. lia.
  - change (Some (proc_exit (ms_kern s) pid (i32w 0)) = Some (Ok 0, put_proc (ms_kern s) i (with_state PZombie (Some 0) p))).
    unfold proc_exit, mark_process_zombie. by rewrite Hf.
Qed.
End library.

(** ** A small manager

    The world is the requests that wait and the answers that went out; the
    kernel refuses what it has no name for and allows the rest. *)
Definition demo_calls : ManagerCalls (list (list Z) * list (list Z)) := {|
  mgr_create := fun w => Some (Ok 1, w);
  mgr_register := fun _ _ w => Some (Ok tt, w);
  mgr_read := fun _ buf handles '(inbox, outbox) =>
    match inbox with
    | [] => Some (Err TryAgain, buf, handles, (inbox, outbox))
    | m :: inbox => Some (Ok (Z.of_nat (length m)), take 256 (map u8w m ++ buf), [9; 0; 0; 0], (inbox, outbox))
    end;
  mgr_write := fun _ bs '(inbox, outbox) => Some (Ok 0, (inbox, outbox ++ [bs]));
  mgr_proc_mgmt := fun cmd _ b _ w => Some (if (cmd =? PROC_MGMT_CREATE) && (b =? 0) then Err InvalidArgs else Ok 7, w);
  mgr_yield := fun w => Some w
|}.

Lemma demo_laws : @ManagerLaws _ demo_calls.
Proof.
  split.
  - intros ch [[|m inbox] outbox]; cbn -[replicate take].
    + eexists _, _, _, _. split; [reflexivity|]. split; [done|]. by apply (bool_decide_unpack _); vm_compute.
    + eexists _, _, _, _. split; [reflexivity|]. split.
      * rewrite length_take, length_app, length_replicate. lia.
      * apply Forall_take, Forall_app. split.
        -- apply Forall_map, Forall_true. intros b. unfold is_byte, u8w. apply Z.mod_pos_bound. lia.
        -- by apply (bool_decide_unpack _); vm_compute.
  - intros h bs [inbox outbox]. cbn. eauto.
  - cbn. eauto.
  - cbn. eauto.
  - done.
Qed.

Lemma manager_records_nothing_witness :
  exists w', @manager_rounds _ demo_calls 4 1 PROC_TABLE ([0 :: le 8 1 ++ le 8 4096 ++ lit "sh"; 1 :: le 8 1], []) = Some (PROC_TABLE, w').
Proof. exact (@manager_records_nothing _ demo_calls demo_laws 4 1 _). Defined.

(** Every process is answered with [InvalidArgs]. *)
Example manager_refuses :
  @manager_start _ demo_calls ([], []) = Some (Ok 1, ([], [])) /\
  @manager_rounds _ demo_calls 4 1 PROC_TABLE ([0 :: le 8 1 ++ le 8 4096 ++ lit "sh"; 1 :: le 8 1], []) =
    Some (PROC_TABLE, ([], [le 8 (to_raw InvalidArgs)])).
Proof. split; by vm_compute. Qed.
